(* ===== verification/_CoqProject ===== *)
-Q . S2P
Prelude.v
Words.v
CString.v
Memory.v
EvioFmt.v
EvioSwapArrays.v
EvioFmtSwap.v
EvioSwap.v
EvioTypes.v
EvioStrings.v
EvioNames.v
EvioState.v
EvioSockets.v
EvioWrite.v
EvioRead.v
EvioOpen.v
EvioControl.v
EvioHandles.v
EvioBlocks.v
EvioClient.v
EvioWriter.v
EvioLocks.v
EvioFlush.v
EvioReader.v
EvioSession.v
EvioRandom.v
EvioTuning.v
EvioRequests.v
EtTypes.v
EtLists.v
EtSegments.v
EtListSpec.v
EtStationSpec.v
EtReadSpec.v
EtRestoreSpec.v
EtQueues.v
EtShellSort.v
EtEqualCue.v
EtConductor.v
EtRoundRobin.v
EtSystemInv.v
EtConductorSpec.v
EtDistribution.v
EtChains.v
EtChainSpec.v
EtInsertSpec.v
EtAccess.v
EtWaiting.v
EtDetached.v
EtStatConfig.v
EtStations.v
EtSettings.v
EtEventCalls.v
EtSteps.v
EtWaitSpec.v
EtCallSpec.v
EtEventSpec.v
EtDetachSpec.v
EtAttachSpec.v
EtPlaceSpec.v
EtCreateSpec.v
EtMoveSpec.v
EtActivity.v
EtLife.v
EtPlaces.v
EtTyping.v
EtNet.v
EtRemote.v
EtSysConfig.v
EtEventNet.v
EtServer.v
EtEventServer.v
EtEventRemote.v
EtRemoteSpec.v
EtEventLink.v
EtRemoteCalls.v
EtRemoteEvents.v
EtRemotePut.v
EtWaitEnds.v
