(* ===== verification/Prelude.v ===== *)
(** * EVIO and ET: the root of the development, with the shared prelude

    The repository reads data of physics experiments.  Two C libraries are modelled:
    EVIO (src/evio-5.1/src/libsrc), which writes and reads files, buffers and streams of
    events, and ET (src/et-16.1/src/libsrc), a system of processes that pass events from
    station to station in shared memory and over the network.

    ** How the code is modelled

    A C function is a Gallina function of the same name that takes and returns the state it
    works on.  What it does not return is an outcome of [res], below: [Undef] is an access
    that C leaves undefined, [Blocked] a wait for a lock, a signal or an event that nobody
    will give, [NoFuel] a loop that got too little fuel.  Fuel is used where the recursion is
    not structural: [evioswap] (linear in the length of the event), walks along linked
    stations, sorting, and waiting; theorems state that enough fuel gives a result
    ([evioswap_converts], [sharing_ends], [waits_end]).  Integers are [Z] with the wrap-around
    of their width written out ([u32], [s32], [u64] of Words.v).  Status codes are the integers of the
    headers.  Where the code depends on the outside (results of [malloc], of system calls,
    the environment, what other threads and processes do) the model takes a parameter or a
    script of what happens.

    ** EVIO

    - Words, CString, Memory: machine words and byte order, strings and allocation, memory
      cells.
    - EvioFmt (eviofmt.c), EvioSwapArrays and EvioSwap (evioswap.c), EvioFmtSwap
      (eviofmtswap.c): formats of composite data, and the conversion of events between byte
      orders.  [eviofmt] inverts the printer of its grammar and stays in its array;
      [evioswap] converts the encoding of any nested structure and undoes itself.
    - EvioTypes, EvioStrings, EvioNames, EvioSockets (evio.c): names of types, arrays of strings,
      names of files, transfers over sockets.
    - EvioState (the structure EVFILE, the table of handles and the world around it),
      EvioWrite, EvioRead, EvioOpen, EvioControl (evio.c): the operations on handles.
    - EvioHandles, EvioLocks: the table of handles stays in order; every call gives back its
      locks, but for the ones shown.
    - EvioBlocks (the block format), EvioClient (the interfaces [Class]es of a writer
      and a reader, against which programs of clients are proved), EvioWriter, EvioFlush,
      EvioReader (that handles implement them), EvioSession, EvioRandom, EvioTuning,
      EvioRequests: what is written is read, in order or by number, whatever blocks the
      writer makes and whatever its parameters are changed to.

    ** ET: the system

    - EtTypes (et.h, et_private.h, et_init.c), EtLists (et_readwrite.c): events, lists,
      stations, attachments; the operations on lists.  A pointer to an event is its place in
      the memory of events, a finite map; lists are linked through it.
    - EtSegments, EtListSpec, EtStationSpec, EtReadSpec, EtRestoreSpec, EtQueues: lists
      stand for sequences; the output list of a station is a queue with two priorities
      (a refinement), input lists are queues.
    - EtShellSort, EtEqualCue, EtConductor, EtRoundRobin (et_system.c): the thread of a
      station, which shares out its events.  EtSystemInv has the invariant [wf]: each event
      is in one list, once, or in flight, or belongs to one attachment.
      EtConductorSpec and EtDistribution: a conductor keeps it, whatever others do between
      two of its locks.
    - EtChains, EtChainSpec, EtInsertSpec (et_station.c): the links between stations.
    - EtAccess, EtWaiting, EtDetached, EtStatConfig, EtStations, EtSettings, EtEventCalls
      (et_readwrite.c, et_statconfig.c, et_station.c, et_attachment.c, et_event.c,
      et_sysconfig.c): the calls of a process.  What others do while a call waits is a script
      of steps of the system.
    - EtSteps, EtWaitSpec, EtCallSpec, EtEventSpec, EtDetachSpec, EtAttachSpec, EtPlaceSpec,
      EtCreateSpec, EtMoveSpec: what each call does.  EtActivity defines what processes and
      conductors do together, [Calls] within the waits of others included; EtLife and
      EtPlaces have the theorems about systems in use, and EtTyping those about
      configurations of stations.  EtSysConfig (et_sysconfig.c, the check in et_system.c,
      addresses of etCommonNetwork.c): configurations of systems, which stay in their ranges
      and are accepted when the groups have all the events.

    ** ET: remote processes

    - EtNet: the wire and the class [Conn] of connections, the interface between the two ends.
    - EtRemote, EtEventRemote (et_remote.c): the calls of remote processes, over any [Conn].
    - EtServer, EtEventServer (et_server.c): the thread that serves a connection; EtEventNet:
      how events are written to messages.
    - EtRemoteSpec, EtRemoteCalls: the connection to the server's thread implements [Conn], and
      through it a remote call is the local call.  EtEventLink, EtRemoteEvents,
      EtRemotePut: the same for events, of which the remote process has copies; EtWaitEnds:
      the rounds in which a remote process and the server wait end, and when.

    Each theorem that is a property of the program has a number (C1, C2, ...) in its
    comment; those that have hypotheses have an example that meets them, a lemma whose name
    ends in [_witness].

    ** Not modelled

    - eviofmtdump.c prints composite data as XML; evio's examples, tests and programs.
    - The repair of lists after a crash ([et_repair_station]), heartbeats and the monitoring
      of processes, the making and mapping of files in shared memory: they depend on
      processes that die at any instruction.
    - etCommonNetwork.c (but for the reading of addresses) and et_network.c: sockets and the
      search for systems are calls of the operating system; the connection of EtRemoteSpec
      delivers all bytes, in order.
    - The commands for local processes that cannot share mutexes ([_L] commands of
      et_server.c, a parameter of [serve_events]) and those that send all data of a system.
    - et-14.0-clon is an older version of ET; HPSEvioReader, EvioTool and others are C++
      that calls these libraries; Java libraries. *)

From Stdlib Require Export ZArith Lia.
From stdpp Require Export base gmap list option.

#[global] Open Scope Z_scope.

(** ** Outcomes of C code

    [Ret x]: the code returned [x].  [Undef]: the code performed an access that
    C leaves undefined (a load or store outside the allocated objects, an index
    outside an array).  [Blocked]: the thread waits for a lock nobody will
    release.  [NoFuel]: the bound on the number of steps given to the
    interpreter of a loop was too small. *)
Inductive res (A : Type) : Type :=
| Ret (a : A)
| Undef
| Blocked
| NoFuel.
Arguments Ret {A} a.
Arguments Undef {A}.
Arguments Blocked {A}.
Arguments NoFuel {A}.

#[export] Instance res_ret : MRet res := fun A a => Ret a.
#[export] Instance res_bind : MBind res := fun A B f m =>
  match m with
  | Ret a => f a
  | Undef => Undef
  | Blocked => Blocked
  | NoFuel => NoFuel
  end.

Definition of_option {A} (o : option A) : res A :=
  match o with Some a => Ret a | None => Undef end.

Lemma res_bind_ret {A B} (m : res A) (f : A → res B) (b : B) :
  (m ≫= f) = Ret b ↔ ∃ a, m = Ret a ∧ f a = Ret b.
Proof. destruct m; cbn; naive_solver. Qed.

(** A step of a computation that returned. *)
Ltac step := cbn [mbind res_bind of_option].

(** ** Updates of records

    [r <| f := v |>] is [r] with the field [f] set to [v]; a record type declares its
    eta-expansion, [Eta], and the update of a field is derived from it. *)
Class Eta (T : Type) := eta : T → T.
Class Update {T A : Type} (f : T → A) := update : (A → A) → T → T.
#[export] Hint Mode Update + + + : typeclass_instances.

Ltac solve_update :=
  match goal with |- @Update ?T ?A ?f =>
    let i := constr:(_ : Eta T) in
    let e := eval cbv delta [eta] in i in
    let e := eval hnf in e in
    let p := eval pattern f in e in
    match p with ?F _ =>
      let u := eval cbv beta in (λ (h : A → A), F (λ r : T, h (f r))) in exact u end
  end.
#[export] Hint Extern 1 (Update _) => solve_update : typeclass_instances.

Notation "r <| f := v |>" := (update (f:=f) (λ _, v) r)
  (at level 12, f at next level, left associativity, format "r  <| f  :=  v |>").
Notation "r <| f ::= h |>" := (update (f:=f) h r)
  (at level 12, f at next level, left associativity, format "r  <| f  ::=  h |>").

(** Hints of the development: side conditions on words, bytes and buffers. *)
Create HintDb evio.

(** Decides the integer comparisons of the goal that arithmetic settles. *)
Ltac zcase :=
  repeat match goal with
  | |- context [?a <? ?b] => destruct (Z.ltb_spec a b); [try lia|try lia]
  | |- context [?a <=? ?b] => destruct (Z.leb_spec a b); [try lia|try lia]
  | |- context [?a =? ?b] => destruct (Z.eqb_spec a b); [try lia|try lia]
  end; try done.

(** ** Arrays

    An index outside of an array is an access to memory that is not the array's. *)
Definition aget {A} (l : list A) (i : Z) : res A :=
  if i <? 0 then Undef else of_option (l !! Z.to_nat i).
Definition aset {A} (l : list A) (i : Z) (x : A) : res (list A) :=
  if (i <? 0) || (Z.of_nat (length l) <=? i) then Undef else Ret (<[Z.to_nat i := x]> l).

Lemma aget_ok {A} (l : list A) (i : Z) x :
  0 ≤ i → l !! Z.to_nat i = Some x → aget l i = Ret x.
Proof. intros Hi Hx. unfold aget. replace (i <? 0) with false by zcase. by rewrite Hx. Qed.

Lemma aset_ok {A} (l : list A) (i : Z) x :
  0 ≤ i < Z.of_nat (length l) → aset l i x = Ret (<[Z.to_nat i := x]> l).
Proof. intros Hi. unfold aset. by replace ((i <? 0) || _) with false by (symmetry; zcase). Qed.
