(* ===== verification/Words.v ===== *)
(** * Machine words, their bytes and the swap macros of evio.h

    Unsigned integers of [w] bits are [Z] values reduced modulo [2^w]; bytes are
    [Z] values in [0, 256).  [le n x] lists the [n] low bytes of [x], least
    significant first, and [le_val] reads such a list back.  The macros
    [EVIO_SWAP16], [EVIO_SWAP32] and [EVIO_SWAP64] are written with the shifts
    and masks of evio.h and proved equal to the reversal of the byte list. *)

From S2P Require Import Prelude.

(** Conversions of C to the fixed-width types. *)
Definition u8 (x : Z) : Z := x mod 256.
Definition u16 (x : Z) : Z := x mod 65536.
Definition u32 (x : Z) : Z := x mod 4294967296.
Definition u64 (x : Z) : Z := x mod 18446744073709551616.
Definition s32 (x : Z) : Z := let y := u32 x in if y <? 2147483648 then y else y - 4294967296.

Definition byte_ok (b : Z) : Prop := 0 ≤ b < 256.
Definition u32_ok (x : Z) : Prop := 0 ≤ x < 4294967296.

#[export] Instance byte_ok_dec b : Decision (byte_ok b).
Proof. unfold byte_ok. apply _. Defined.
#[export] Instance u32_ok_dec x : Decision (u32_ok x).
Proof. unfold u32_ok. apply _. Defined.

(** The macros of evio.h. *)
Definition EVIO_SWAP64 (x : Z) : Z :=
  Z.lor (Z.land (Z.shiftr x 56) 0x00000000000000FF)
  (Z.lor (Z.land (Z.shiftr x 40) 0x000000000000FF00)
  (Z.lor (Z.land (Z.shiftr x 24) 0x0000000000FF0000)
  (Z.lor (Z.land (Z.shiftr x 8)  0x00000000FF000000)
  (Z.lor (Z.land (Z.shiftl x 8)  0x000000FF00000000)
  (Z.lor (Z.land (Z.shiftl x 24) 0x0000FF0000000000)
  (Z.lor (Z.land (Z.shiftl x 40) 0x00FF000000000000)
         (Z.land (Z.shiftl x 56) 0xFF00000000000000))))))).

Definition EVIO_SWAP32 (x : Z) : Z :=
  Z.lor (Z.land (Z.shiftr x 24) 0x000000FF)
  (Z.lor (Z.land (Z.shiftr x 8) 0x0000FF00)
  (Z.lor (Z.land (Z.shiftl x 8) 0x00FF0000)
         (Z.land (Z.shiftl x 24) 0xFF000000))).

Definition EVIO_SWAP16 (x : Z) : Z :=
  Z.lor (Z.land (Z.shiftr x 8) 0x00FF)
        (Z.land (Z.shiftl x 8) 0xFF00).

(** ** Byte lists *)

Fixpoint le (n : nat) (x : Z) : list Z :=
  match n with
  | O => []
  | S n => x mod 256 :: le n (x / 256)
  end.

Fixpoint le_val (l : list Z) : Z :=
  match l with
  | [] => 0
  | b :: l => b + 256 * le_val l
  end.

(** The value whose [n] bytes are those of [x] in the opposite order. *)
Definition bswap (n : nat) (x : Z) : Z := le_val (rev (le n x)).

Lemma length_le n x : length (le n x) = n.
Proof. revert x. induction n as [|n IH]; intros x; cbn; [done|by rewrite IH]. Qed.

Lemma le_byte_ok n x : Forall byte_ok (le n x).
Proof.
  revert x. induction n as [|n IH]; intros x; cbn; constructor; [|apply IH].
  apply Z.mod_pos_bound; lia.
Qed.

Lemma le_val_bound l : Forall byte_ok l → 0 ≤ le_val l < 256 ^ Z.of_nat (length l).
Proof.
  induction 1 as [|b l Hb _ IH]; [cbn; lia|].
  cbn [le_val length]. rewrite Nat2Z.inj_succ, Z.pow_succ_r by lia.
  unfold byte_ok in Hb. lia.
Qed.

Lemma le_le_val l : Forall byte_ok l → le (length l) (le_val l) = l.
Proof.
  induction 1 as [|b l Hb Hl IH]; [done|].
  cbn [le_val length le]. unfold byte_ok in Hb.
  replace (b + 256 * le_val l) with (le_val l * 256 + b) by lia.
  rewrite Z.div_add_l, (Z.div_small b), Z.add_0_r, IH by lia.
  f_equal. rewrite Z.add_comm, Z.mod_add by lia. apply Z.mod_small; lia.
Qed.

Lemma le_val_le n x : le_val (le n x) = x mod 256 ^ Z.of_nat n.
Proof.
  revert x. induction n as [|n IH]; intros x.
  - cbn. by rewrite Z.mod_1_r.
  - cbn [le le_val]. rewrite IH, Nat2Z.inj_succ, Z.pow_succ_r by lia.
    rewrite (Z.rem_mul_r x 256) by lia. lia.
Qed.

Lemma bswap_bound n x : 0 ≤ bswap n x < 256 ^ Z.of_nat n.
Proof.
  unfold bswap. pose proof (le_val_bound (rev (le n x))) as H.
  rewrite length_rev, length_le in H. apply H, Forall_rev, le_byte_ok.
Qed.

Lemma le_bswap n x : le n (bswap n x) = rev (le n x).
Proof.
  unfold bswap. rewrite <- (le_le_val (rev (le n x))) at 2 by apply Forall_rev, le_byte_ok.
  by rewrite length_rev, length_le.
Qed.

Lemma bswap_bswap n x : bswap n (bswap n x) = x mod 256 ^ Z.of_nat n.
Proof. unfold bswap at 1. by rewrite le_bswap, rev_involutive, le_val_le. Qed.

Lemma bswap_le_val l : Forall byte_ok l → bswap (length l) (le_val l) = le_val (rev l).
Proof. intros H. unfold bswap. by rewrite le_le_val. Qed.

(** ** The macros reverse bytes *)

Lemma land_shift_mask x t j : 0 ≤ j → 0 ≤ t + j →
  Z.land (Z.shiftr x t) (Z.shiftl 255 j) = Z.shiftl (Z.shiftr x (t + j) mod 256) j.
Proof.
  intros Hj Ht. change 256 with (2 ^ 8). rewrite <- Z.land_ones by lia.
  change 255 with (Z.ones 8). apply Z.bits_inj'. intros i Hi.
  rewrite Z.land_spec, Z.shiftr_spec, !Z.shiftl_spec, Z.land_spec by lia.
  destruct (decide (i < j)).
  - rewrite !(Z.testbit_neg_r _ (i - j)) by lia. by rewrite andb_false_r.
  - rewrite Z.shiftr_spec by lia. do 2 f_equal. lia.
Qed.

Lemma lor_shiftl_add a b j : 0 ≤ j → 0 ≤ a < 2 ^ j → Z.lor a (Z.shiftl b j) = a + b * 2 ^ j.
Proof.
  intros Hj Ha. pose proof (Z.add_lor_land a (Z.shiftl b j)) as H.
  assert (Z.land a (Z.shiftl b j) = 0) as H0.
  { apply Z.bits_inj'. intros i Hi. rewrite Z.land_spec, Z.shiftl_spec, Z.bits_0 by lia.
    destruct (decide (i < j)).
    - rewrite (Z.testbit_neg_r b) by lia. by rewrite andb_false_r.
    - rewrite <- (Z.mod_small a (2 ^ j)) by lia.
      rewrite Z.mod_pow2_bits_high by lia. done. }
  rewrite H0, Z.add_0_r in H. rewrite H, Z.shiftl_mul_pow2 by lia. done.
Qed.

Lemma swap_term x t j : 0 ≤ j → 0 ≤ t + j →
  Z.land (Z.shiftr x t) (Z.shiftl 255 j) = (x / 2 ^ (t + j)) mod 256 * 2 ^ j.
Proof.
  intros Hj Ht. rewrite land_shift_mask by done.
  rewrite Z.shiftr_div_pow2, Z.shiftl_mul_pow2 by lia. done.
Qed.

Lemma lor_add_low j m a b : m = 2 ^ j → 0 ≤ j → 0 ≤ a < m → Z.lor a (b * m) = a + b * m.
Proof.
  intros -> Hj Ha. pose proof (lor_shiftl_add a b j Hj Ha) as H.
  by rewrite Z.shiftl_mul_pow2 in H.
Qed.

(** [Z.shiftl x s] as a right shift by a negative amount, and masks as shifts of
    255; the bytes of [x] are then generalised and the masks become sums. *)
Ltac swap_terms x :=
  repeat match goal with
  | |- context [Z.land (Z.shiftl x ?s) ?m] =>
      let t := eval vm_compute in (- s) in
      change (Z.land (Z.shiftl x s) m) with (Z.land (Z.shiftr x t) m)
  end;
  repeat match goal with
  | |- context [Z.land (Z.shiftr x ?t) ?m] =>
      let j := eval vm_compute in (Z.log2 m - 7) in
      change (Z.land (Z.shiftr x t) m) with (Z.land (Z.shiftr x t) (Z.shiftl 255 j));
      rewrite (swap_term x t j) by lia
  end.

Ltac name_bytes :=
  repeat match goal with
  | |- context [?a mod 256] => let b := fresh "b" in
      pose proof (Z.mod_pos_bound a 256 eq_refl); set (b := a mod 256) in *; clearbody b
  end.

Ltac swap_macro x :=
  unfold bswap; cbn [le rev app le_val]; rewrite ?Z.div_div by lia;
  swap_terms x; cbn -[Z.div Z.modulo Z.mul Z.lor Z.pow];
  repeat match goal with |- context [2 ^ ?k] =>
    let v := eval vm_compute in (2 ^ k) in change (2 ^ k) with v end;
  repeat match goal with |- context [x / (?a * ?b)] =>
    let v := eval vm_compute in (a * b) in change (a * b) with v end;
  rewrite ?Z.div_1_r, ?Z.mul_1_r; name_bytes;
  rewrite ?Z.lor_assoc;
  repeat match goal with
  | |- context [Z.lor ?a (?b * ?m)] =>
      lazymatch a with context [Z.lor] => fail | _ => idtac end;
      let j := eval vm_compute in (Z.log2 m) in
      rewrite (lor_add_low j m a b) by (reflexivity || lia)
  end.

Lemma EVIO_SWAP16_bswap x : EVIO_SWAP16 x = bswap 2 x.
Proof. unfold EVIO_SWAP16. swap_macro x. lia. Qed.

Lemma EVIO_SWAP32_bswap x : EVIO_SWAP32 x = bswap 4 x.
Proof. unfold EVIO_SWAP32. swap_macro x. lia. Qed.

Lemma EVIO_SWAP64_bswap x : EVIO_SWAP64 x = bswap 8 x.
Proof. unfold EVIO_SWAP64. swap_macro x. lia. Qed.

Lemma EVIO_SWAP32_range x : u32_ok (EVIO_SWAP32 x).
Proof. rewrite EVIO_SWAP32_bswap. apply (bswap_bound 4). Qed.

Lemma EVIO_SWAP32_involutive x : u32_ok x → EVIO_SWAP32 (EVIO_SWAP32 x) = x.
Proof.
  intros Hx. rewrite !EVIO_SWAP32_bswap, bswap_bswap. by apply Z.mod_small.
Qed.

Lemma u32_id x : u32_ok x → u32 x = x.
Proof. apply Z.mod_small. Qed.

Lemma s32_id x : 0 ≤ x < 2147483648 → s32 x = x.
Proof.
  intros Hx. unfold s32. rewrite u32_id by (unfold u32_ok; lia). by destruct (Z.ltb_spec x 2147483648); [|lia].
Qed.

Lemma u32_range x : u32_ok (u32 x).
Proof. apply Z.mod_pos_bound. lia. Qed.

Lemma u64_id x : 0 ≤ x < 18446744073709551616 → u64 x = x.
Proof. apply Z.mod_small. Qed.

#[export] Hint Resolve u32_range EVIO_SWAP32_range le_byte_ok : evio.
