(* ===== verification/CString.v ===== *)
(** * Strings of the C library and the outcome of allocations

    A C string is the list of its characters, without the null byte, each
    character the value of its byte.  Whether the memory allocator has room is
    decided outside of the program: an operation that allocates takes the list
    of the outcomes of the coming requests, and succeeds when the list is
    empty. *)

From Stdlib Require Export Ascii.
From Stdlib Require String.
Export String.StringSyntax.
Notation string := String.string.
#[global] Delimit Scope string_scope with string.
From S2P Require Import Prelude Words.

(** The code of a character constant of the source. *)
Definition chr (c : ascii) : Z := Z.of_N (N_of_ascii c).

(** A string constant of the source. *)
Fixpoint cs (s : string) : list Z :=
  match s with
  | String.EmptyString => []
  | String.String c s => chr c :: cs s
  end.

Arguments cs s%_string.

(** ctype.h in the C locale. *)
Definition isdigit (c : Z) : bool := (48 <=? c) && (c <=? 57).
Definition isspace (c : Z) : bool := (c =? 32) || ((9 <=? c) && (c <=? 13)).
Definition isprint (c : Z) : bool := (32 <=? c) && (c <=? 126).

(** Whether a string can be stored: no byte of it is null. *)
Definition cstr_ok (s : list Z) : Prop := Forall (λ c, 0 < c < 256) s.

Fixpoint starts_with (p s : list Z) : bool :=
  match p, s with
  | [], _ => true
  | c :: p, d :: s => (c =? d) && starts_with p s
  | _, [] => false
  end.

(** strstr: the offset of the first occurrence of [p]. *)
Fixpoint strstr (s p : list Z) : option nat :=
  if starts_with p s then Some O
  else match s with
       | [] => None
       | _ :: s => S <$> strstr s p
       end.

(** Outcomes of the coming allocations. *)
Notation faults := (list bool).
Definition malloc_ok (o : faults) : bool * faults :=
  match o with [] => (true, []) | b :: o => (b, o) end.

Lemma starts_with_spec p s : starts_with p s = true ↔ ∃ q, s = p ++ q.
Proof.
  revert s. induction p as [|c p IH]; intros s; cbn; [naive_solver|].
  destruct s as [|d s]; [naive_solver|].
  rewrite andb_true_iff, IH, Z.eqb_eq. naive_solver.
Qed.

Lemma strstr_Some s p n :
  strstr s p = Some n → ∃ q, s = take n s ++ p ++ q ∧ (n + length p ≤ length s)%nat.
Proof.
  revert n. induction s as [|c s IH]; intros n; cbn.
  - destruct p as [|d p]; cbn; [intros [= <-]; by exists []|done].
  - destruct (starts_with p (c :: s)) eqn:E.
    + intros [= <-]. apply starts_with_spec in E as [q E]. exists q.
      split; [done|]. change (S (length s)) with (length (c :: s)). rewrite E, length_app. lia.
    + destruct (strstr s p) as [k|]; [|done]. intros [= <-].
      destruct (IH k eq_refl) as (q & Hs & Hl). exists q. cbn. split; [congruence|lia].
Qed.

(** The occurrence found is the first one. *)
Lemma strstr_first s p n k :
  strstr s p = Some n → (k < n)%nat → starts_with p (drop k s) = false.
Proof.
  revert n k. induction s as [|c s IH]; intros n k; cbn.
  - destruct p; cbn; [intros [= <-]; lia|done].
  - destruct (starts_with p (c :: s)) eqn:E; [intros [= <-]; lia|].
    destruct (strstr s p) as [j|]; [|done]. intros [= <-] Hk.
    destruct k as [|k]; [done|]. cbn [drop]. apply (IH j); [done|lia].
Qed.

Lemma strstr_None s p k : strstr s p = None → starts_with p (drop k s) = false.
Proof.
  revert k. induction s as [|c s IH]; intros k; cbn.
  - destruct p; [done|]. by destruct k.
  - destruct (starts_with p (c :: s)) eqn:E; [done|].
    destruct (strstr s p) as [j|] eqn:Ej; [done|]. intros _.
    destruct k as [|k]; [done|]. by apply IH.
Qed.

(** A character that does not occur is not found. *)
Lemma strstr_char_None s c p : c ∉ s → strstr s (c :: p) = None.
Proof.
  induction s as [|d s IH]; intros Hc; cbn; [done|].
  rewrite not_elem_of_cons in Hc. destruct Hc as [Hne Hc].
  replace (c =? d) with false by lia. cbn. by rewrite IH.
Qed.

(** The first occurrence of a character after a prefix that does not have it. *)
Lemma strstr_char_app s1 c s2 : c ∉ s1 → strstr (s1 ++ c :: s2) [c] = Some (length s1).
Proof.
  induction s1 as [|d s1 IH]; intros Hc; cbn.
  - rewrite Z.eqb_refl. done.
  - rewrite not_elem_of_cons in Hc. destruct Hc as [Hne Hc].
    replace (c =? d) with false by lia. cbn. by rewrite IH.
Qed.

(** ** Decimal and hexadecimal output of printf *)

Fixpoint digits_of (fuel : nat) (base n : Z) (acc : list Z) : list Z :=
  match fuel with
  | O => acc
  | S fuel =>
      let d := n mod base in
      let acc := (if d <? 10 then 48 + d else 87 + d) :: acc in
      if n / base =? 0 then acc else digits_of fuel base (n / base) acc
  end.

(** An unsigned number below [2^64], without padding. *)
Definition print_nat (base n : Z) : list Z := digits_of 64 base n [].

(** The conversion %d of an int. *)
Definition print_int (n : Z) : list Z :=
  if n <? 0 then 45 :: print_nat 10 (- n) else print_nat 10 n.

Fixpoint digits_val (base v : Z) (l : list Z) : Z :=
  match l with
  | [] => v
  | c :: l => digits_val base (base * v + (if c <? 58 then c - 48 else c - 87)) l
  end.

Lemma digits_val_digits fuel base n acc v :
  2 ≤ base → base ≤ 16 → 0 ≤ n < 2 ^ Z.of_nat fuel → (0 < fuel)%nat →
  ∃ l, digits_of fuel base n acc = l ++ acc ∧ (1 ≤ length l)%nat ∧
       Forall (λ c, 48 ≤ c < 58 ∨ 97 ≤ c < 103) l ∧
       digits_val base v l = v * base ^ Z.of_nat (length l) + n.
Proof.
  intros Hb Hb16. revert n acc v. induction fuel as [|fuel IH]; intros n acc v Hn Hf; [lia|].
  cbn [digits_of]. set (c := if n mod base <? 10 then _ else _).
  assert ((48 ≤ c < 58 ∨ 97 ≤ c < 103) ∧
          (if c <? 58 then c - 48 else c - 87) = n mod base) as [Hc Hcv].
  { pose proof (Z.mod_pos_bound n base). subst c.
    destruct (n mod base <? 10) eqn:E; [|destruct (87 + _ <? 58) eqn:E2; lia].
    destruct (48 + _ <? 58) eqn:E2; lia. }
  destruct (n / base =? 0) eqn:E.
  - exists [c]. split_and!; [done|done|by constructor|].
    cbn. rewrite Hcv, Z.pow_1_r. pose proof (Z.div_mod n base). lia.
  - assert (n / base < 2 ^ Z.of_nat fuel) as Hlt.
    { rewrite Nat2Z.inj_succ, Z.pow_succ_r in Hn by lia.
      apply Z.le_lt_trans with (n / 2); [apply Z.div_le_compat_l; lia|].
      apply Z.div_lt_upper_bound; lia. }
    assert (0 ≤ n / base) as Hge by (apply Z.div_pos; lia).
    destruct fuel as [|fuel]; [cbn in Hlt; lia|].
    destruct (IH (n / base) (c :: acc) v (conj Hge Hlt) ltac:(lia)) as (l & Hl & Hlen & Hd & Hv).
    exists (l ++ [c]). rewrite Hl, <- app_assoc, length_app. cbn [length app].
    split_and!; [done|lia|apply Forall_app; split; [done|by constructor]|].
    replace (digits_val base v (l ++ [c])) with
      (base * digits_val base v l + (if c <? 58 then c - 48 else c - 87)).
    { rewrite Hcv, Hv, Nat2Z.inj_add, Z.pow_add_r by lia. cbn.
      rewrite Z.pow_1_r. pose proof (Z.div_mod n base). nia. }
    clear. revert v. by induction l as [|d l IHl]; intros v; cbn.
Qed.

Lemma print_nat_spec base n :
  2 ≤ base → base ≤ 16 → 0 ≤ n < 18446744073709551616 →
  (1 ≤ length (print_nat base n))%nat ∧
  Forall (λ c, 48 ≤ c < 58 ∨ 97 ≤ c < 103) (print_nat base n) ∧
  digits_val base 0 (print_nat base n) = n.
Proof.
  intros Hb Hb16 Hn. unfold print_nat.
  destruct (digits_val_digits 64 base n [] 0 Hb Hb16) as (l & Hl & Hlen & Hd & Hv); [done|lia|].
  rewrite app_nil_r in Hl. rewrite Hl. split_and!; [done|done|lia].
Qed.

Lemma print_int_inj n k :
  - 2147483648 ≤ n < 2147483648 → - 2147483648 ≤ k < 2147483648 →
  print_int n = print_int k → n = k.
Proof.
  assert (∀ n, 0 ≤ n ≤ 2147483648 → digits_val 10 0 (print_nat 10 n) = n ∧
            head (print_nat 10 n) ≠ Some 45) as Hp.
  { intros i Hi. destruct (print_nat_spec 10 i) as (H1 & H2 & H3); [lia..|].
    split; [done|]. destruct (print_nat 10 i) as [|c l]; [done|].
    cbn. inversion_clear H2. intros [= ->]. lia. }
  intros Hn Hk. unfold print_int.
  destruct (n <? 0) eqn:En, (k <? 0) eqn:Ek.
  - intros [= H]. destruct (Hp (- n)), (Hp (- k)); [lia..|]. rewrite H in *. lia.
  - intros H. destruct (Hp k) as [_ H2]; [lia|]. by rewrite <- H in H2.
  - intros H. destruct (Hp n) as [_ H2]; [lia|]. by rewrite H in H2.
  - intros H. destruct (Hp n), (Hp k); [lia..|]. rewrite H in *. lia.
Qed.
