(* ===== verification/Memory.v ===== *)
(** * Memory cells

    A memory is a finite map from addresses to the values stored there; an
    address that is not in the map belongs to no allocated object, and an access
    to it is [Undef].  The byte memory of the swap routines has one cell per
    byte; the word buffers of the reader and the writer have one cell per 32-bit
    word.  [mread] and [mwrite] transfer runs of cells; [load] and [store]
    transfer little-endian integers of a byte memory (the byte order of the
    hosts the library runs on). *)

From S2P Require Import Prelude Words.

Notation mem := (gmap Z Z).

Fixpoint mread (m : mem) (p : Z) (n : nat) : option (list Z) :=
  match n with
  | O => Some []
  | S n => b ← m !! p; l ← mread m (p + 1) n; Some (b :: l)
  end.

Fixpoint mwrite (m : mem) (p : Z) (l : list Z) : mem :=
  match l with
  | [] => m
  | b :: l => mwrite (<[p := b]> m) (p + 1) l
  end.

(** A store to a run of cells, all of which must be allocated. *)
Definition mstore (m : mem) (p : Z) (l : list Z) : res mem :=
  match mread m p (length l) with
  | Some _ => Ret (mwrite m p l)
  | None => Undef
  end.

Definition load (n : nat) (m : mem) (p : Z) : res Z :=
  match mread m p n with
  | Some l => Ret (le_val l)
  | None => Undef
  end.

Definition store (n : nat) (m : mem) (p v : Z) : res mem := mstore m p (le n v).

(** memcpy of [n] cells. *)
Definition mcopy (m : mem) (dst src : Z) (n : nat) : res mem :=
  match mread m src n with
  | Some l => mstore m dst l
  | None => Undef
  end.

(** Allocated but with unspecified content: every cell readable. *)
Definition allocated (m : mem) (p : Z) (n : nat) : Prop := is_Some (mread m p n).

Definition disjoint_ranges (p : Z) (n : nat) (q : Z) (k : nat) : Prop :=
  p + Z.of_nat n ≤ q ∨ q + Z.of_nat k ≤ p.

Lemma mread_length m p n l : mread m p n = Some l → length l = n.
Proof.
  revert p l. induction n as [|n IH]; intros p l; cbn; [by intros [= <-]|].
  destruct (m !! p); [|done]. destruct (mread m (p + 1) n) eqn:E; [|done].
  intros [= <-]. cbn. by rewrite (IH _ _ E).
Qed.

Lemma mread_Some m p n l :
  mread m p n = Some l ↔
  length l = n ∧ ∀ i : nat, (i < n)%nat → m !! (p + Z.of_nat i) = l !! i.
Proof.
  revert p l. induction n as [|n IH]; intros p l; cbn.
  - split; [intros [= <-]; split; [done|lia]|].
    intros [H _]. by destruct l.
  - split.
    + intros H. destruct (m !! p) as [b|] eqn:E; cbn in H; [|done].
      destruct (mread m (p + 1) n) as [l'|] eqn:E'; cbn in H; [|done].
      injection H as <-. apply IH in E' as [Hl Hi]. split; [cbn; lia|].
      intros [|i] Hlt; cbn.
      * by rewrite Z.add_0_r.
      * rewrite <- Hi by lia. f_equal. lia.
    + intros [Hl Hi]. destruct l as [|b l]; [done|].
      pose proof (Hi O ltac:(lia)) as H0. rewrite Z.add_0_r in H0. rewrite H0. cbn.
      assert (mread m (p + 1) n = Some l) as ->; [|done].
      apply IH. split; [cbn in Hl; lia|]. intros i Hlt.
      transitivity (m !! (p + Z.of_nat (S i))); [f_equal; lia|]. apply (Hi (S i)). lia.
Qed.

Lemma mwrite_lookup m p l a :
  mwrite m p l !! a =
  if decide (p ≤ a < p + Z.of_nat (length l)) then l !! Z.to_nat (a - p) else m !! a.
Proof.
  revert m p. induction l as [|b l IH]; intros m p; cbn [mwrite length].
  - case_decide; [lia|done].
  - rewrite IH. destruct (decide (a = p)) as [->|Hne].
    + rewrite !decide_False by lia. rewrite lookup_insert_eq.
      rewrite decide_True by lia. by rewrite Z.sub_diag.
    + rewrite lookup_insert_ne by congruence.
      destruct (decide (p + 1 ≤ a < p + 1 + Z.of_nat (length l))).
      * rewrite decide_True by lia.
        replace (Z.to_nat (a - p)) with (S (Z.to_nat (a - (p + 1)))) by lia. done.
      * rewrite decide_False by lia. done.
Qed.

Lemma mread_app m p n k l1 l2 :
  mread m p n = Some l1 → mread m (p + Z.of_nat n) k = Some l2 →
  mread m p (n + k) = Some (l1 ++ l2).
Proof.
  rewrite !mread_Some. intros [H1 G1] [H2 G2]. rewrite length_app. split; [lia|].
  intros i Hi. destruct (decide (i < n)%nat).
  - rewrite lookup_app_l by lia. by apply G1.
  - rewrite lookup_app_r by lia. rewrite <- G2 by lia. f_equal. lia.
Qed.

Lemma mread_app_inv m p n k l :
  mread m p (n + k) = Some l →
  mread m p n = Some (take n l) ∧ mread m (p + Z.of_nat n) k = Some (drop n l).
Proof.
  rewrite !mread_Some. intros [Hl G]. rewrite length_take, length_drop.
  split; (split; [lia|]); intros i Hi.
  - rewrite lookup_take_lt by lia. apply G. lia.
  - rewrite lookup_drop, <- G by lia. f_equal. lia.
Qed.

Lemma mread_split m p l1 l2 :
  mread m p (length (l1 ++ l2)) = Some (l1 ++ l2) ↔
  mread m p (length l1) = Some l1 ∧
  mread m (p + Z.of_nat (length l1)) (length l2) = Some l2.
Proof.
  rewrite length_app. split.
  - intros H%mread_app_inv. by rewrite take_app_length, drop_app_length in H.
  - intros [H1 H2]. by apply mread_app.
Qed.

Lemma mread_mwrite_same m p l n : n = length l → mread (mwrite m p l) p n = Some l.
Proof.
  intros ->. apply mread_Some. split; [done|]. intros i Hi.
  rewrite mwrite_lookup, decide_True by lia. f_equal. lia.
Qed.

Lemma mread_mwrite_disj m p l q n :
  disjoint_ranges p (length l) q n → mread (mwrite m p l) q n = mread m q n.
Proof.
  intros Hd. destruct (mread m q n) as [l'|] eqn:E.
  - apply mread_Some in E as [Hl G]. apply mread_Some. split; [done|].
    intros i Hi. rewrite mwrite_lookup, decide_False by (unfold disjoint_ranges in Hd; lia).
    by apply G.
  - destruct (mread (mwrite m p l) q n) as [l'|] eqn:E'; [|done].
    apply mread_Some in E' as [Hl G]. rewrite <- E. symmetry. apply mread_Some.
    split; [done|]. intros i Hi. rewrite <- G by lia.
    by rewrite mwrite_lookup, decide_False by (unfold disjoint_ranges in Hd; lia).
Qed.

Lemma mwrite_app m p l1 l2 :
  mwrite m p (l1 ++ l2) = mwrite (mwrite m p l1) (p + Z.of_nat (length l1)) l2.
Proof.
  revert m p. induction l1 as [|b l1 IH]; intros m p; cbn [mwrite app length].
  - by rewrite Z.add_0_r.
  - rewrite IH. f_equal. lia.
Qed.

Lemma mwrite_id m p l : mread m p (length l) = Some l → mwrite m p l = m.
Proof.
  intros [_ G]%mread_Some. apply map_eq. intros a. rewrite mwrite_lookup.
  case_decide as H; [|done]. rewrite <- G by lia. f_equal. lia.
Qed.

Lemma mwrite_overwrite m p l1 l2 :
  length l1 = length l2 → mwrite (mwrite m p l1) p l2 = mwrite m p l2.
Proof.
  intros Hl. apply map_eq. intros a. rewrite !mwrite_lookup.
  case_decide; [done|]. by rewrite decide_False by lia.
Qed.

Lemma mwrite_comm m p1 l1 p2 l2 :
  disjoint_ranges p1 (length l1) p2 (length l2) →
  mwrite (mwrite m p1 l1) p2 l2 = mwrite (mwrite m p2 l2) p1 l1.
Proof.
  intros Hd. apply map_eq. intros a. rewrite !mwrite_lookup. unfold disjoint_ranges in Hd.
  repeat case_decide; (done || lia).
Qed.

Lemma allocated_mwrite m p l q n : allocated m q n → allocated (mwrite m p l) q n.
Proof.
  unfold allocated. intros [l0 [H0 G]%mread_Some].
  exists ((λ i : nat, default 0 (mwrite m p l !! (q + Z.of_nat i))) <$> seq 0 n).
  apply mread_Some. rewrite length_fmap, length_seq. split; [done|]. intros i Hi.
  rewrite list_lookup_fmap, lookup_seq_lt by lia. cbn.
  rewrite mwrite_lookup. case_decide as Hd.
  - destruct (lookup_lt_is_Some_2 l (Z.to_nat (q + Z.of_nat i - p))) as [x Hx]; [lia|].
    by rewrite Hx.
  - rewrite G by lia. by destruct (lookup_lt_is_Some_2 l0 i ltac:(lia)) as [x ->].
Qed.

Lemma allocated_sub m p n q k :
  allocated m p n → p ≤ q → q + Z.of_nat k ≤ p + Z.of_nat n → allocated m q k.
Proof.
  intros [l H] H1 H2.
  replace n with (Z.to_nat (q - p) + (k + (n - Z.to_nat (q - p) - k)))%nat in H by lia.
  apply mread_app_inv in H as [_ H]. apply mread_app_inv in H as [H _].
  replace (p + Z.of_nat (Z.to_nat (q - p))) with q in H by lia. by eexists.
Qed.

Lemma allocated_app m p n k :
  allocated m p n → allocated m (p + Z.of_nat n) k → allocated m p (n + k).
Proof. intros [l1 H1] [l2 H2]. eexists. by eapply mread_app. Qed.

Lemma mstore_ok m p l : allocated m p (length l) → mstore m p l = Ret (mwrite m p l).
Proof. intros [l0 H]. unfold mstore. by rewrite H. Qed.

Lemma load_ok m p n l : mread m p n = Some l → load n m p = Ret (le_val l).
Proof. intros H. unfold load. by rewrite H. Qed.

Lemma store_ok m p n v : allocated m p n → store n m p v = Ret (mwrite m p (le n v)).
Proof. intros H. apply mstore_ok. by rewrite length_le. Qed.

Lemma mread_allocated m p n l : mread m p n = Some l → allocated m p n.
Proof. intros H. by eexists. Qed.

#[export] Hint Resolve mread_allocated allocated_mwrite : evio.
