(* ===== verification/EvioFmt.v ===== *)
(** * Composite format strings (evio-5.1/src/libsrc/eviofmt.c)

    [eviofmt] translates the ASCII format of a composite bank, such as
    "N(I,D,2F)", into an array of one-byte codes [16 * repeat + type].  The C
    loop over the characters is [eviofmt_loop]; its local variables are the
    fields of [fmt_state].  The array is the list of the codes stored so far, so
    its length is the C variable [n]. *)

From S2P Require Import Prelude Words CString.

Record fmt_state := FmtState {
  fs_ifmt : list Z;      (** ifmt[0..n-1] *)
  fs_room : Z;           (** ifmtLen *)
  fs_nr : Z;
  fs_nn : Z;
  fs_lev : Z
}.

(** The type code [kf] of a format letter, 0 for an illegal character. *)
Definition fmt_kf (ch : Z) : Z :=
  if ch =? chr "i" then 1
  else if ch =? chr "F" then 2
  else if ch =? chr "a" then 3
  else if ch =? chr "S" then 4
  else if ch =? chr "s" then 5
  else if ch =? chr "C" then 6
  else if ch =? chr "c" then 7
  else if ch =? chr "D" then 8
  else if ch =? chr "L" then 9
  else if ch =? chr "l" then 10
  else if ch =? chr "I" then 11
  else if ch =? chr "A" then 12
  else 0.

(** One iteration of the loop on a character that is not a space: the new state,
    or the negative value returned.  [atoi(&ch)] is the value of the digit. *)
Definition fmt_char (s : fmt_state) (ch : Z) : fmt_state + Z :=
  let 'FmtState ifmt room nr nn lev := s in
  if isdigit ch then
    if nr <? 0 then inr (-1) else
    let nr := 10 * Z.max 0 nr + (ch - 48) in
    if 15 <? nr then inr (-2) else inl (FmtState ifmt room nr nn lev)
  else if ch =? chr "(" then
    if nr <? 0 then inr (-3) else
    let room := room - 1 in
    if room <? 0 then inr (-9) else
    let code := if nn =? 0 then 15 else u8 (16 * Z.max nn nr) in
    inl (FmtState (ifmt ++ [code]) room 0 1 (lev + 1))
  else if ch =? chr ")" then
    if 0 <=? nr then inr (-4) else
    let room := room - 1 in
    if room <? 0 then inr (-9) else
    inl (FmtState (ifmt ++ [0]) room (-1) nn (lev - 1))
  else if ch =? chr "," then
    if 0 <=? nr then inr (-5) else inl (FmtState ifmt room 0 nn lev)
  else if ch =? chr "N" then
    inl (FmtState ifmt room nr 0 lev)
  else
    let kf := fmt_kf ch in
    if negb (kf =? 0) then
      if nr <? 0 then inr (-6) else
      let room := room - 1 in
      if room <? 0 then inr (-9) else
      inl (FmtState (ifmt ++ [u8 (16 * Z.max nn nr + kf)]) room (-1) 1 lev)
    else inr (-7).

Fixpoint eviofmt_loop (s : fmt_state) (fmt : list Z) : Z * list Z :=
  match fmt with
  | [] => if negb (fs_lev s =? 0) then (-8, fs_ifmt s)
          else (Z.of_nat (length (fs_ifmt s)), fs_ifmt s)
  | ch :: fmt =>
      if ch =? chr " " then eviofmt_loop s fmt else
      match fmt_char s ch with
      | inl s' => eviofmt_loop s' fmt
      | inr err => (err, fs_ifmt s)
      end
  end.

(** [eviofmt fmt ifmtLen]: the value returned and the codes stored in ifmt. *)
Definition eviofmt (fmt : list Z) (ifmtLen : Z) : Z * list Z :=
  eviofmt_loop (FmtState [] ifmtLen 0 1 0) fmt.

(** ** Formats as trees

    The grammar documented at the top of eviofmt.c: items separated by commas, each
    a letter or a parenthesised list with an optional repeat count, a number from 2 to
    15 or the letter N for a count stored in the data. *)

Inductive repeat := RNone | RNum (n : Z) | RN.

Inductive fmt_item :=
| FElem (r : repeat) (letter : Z)
| FGroup (r : repeat) (first : fmt_item) (rest : list fmt_item).

Definition repeat_ok (r : repeat) : bool :=
  match r with RNum n => (2 <=? n) && (n <=? 15) | _ => true end.

Fixpoint item_ok (f : fmt_item) : bool :=
  match f with
  | FElem r c => repeat_ok r && negb (fmt_kf c =? 0)
  | FGroup r f fs => repeat_ok r && item_ok f && forallb item_ok fs
  end.

Definition print_repeat (r : repeat) : list Z :=
  match r with
  | RNone => []
  | RNum n => if n <? 10 then [48 + n] else [49; 38 + n]
  | RN => [chr "N"]
  end.

Fixpoint print_item (f : fmt_item) : list Z :=
  match f with
  | FElem r c => print_repeat r ++ [c]
  | FGroup r f fs =>
      print_repeat r ++ [chr "("] ++ print_item f ++
      concat (map (λ g, chr "," :: print_item g) fs) ++ [chr ")"]
  end.

Definition print_fmt (f : fmt_item) (fs : list fmt_item) : list Z :=
  print_item f ++ concat (map (λ g, chr "," :: print_item g) fs).

Definition repeat_num (r : repeat) : Z :=
  match r with RNone => 1 | RNum n => n | RN => 0 end.

(** The codes of the table in eviofmt.c. *)
Fixpoint item_codes (f : fmt_item) : list Z :=
  match f with
  | FElem r c => [16 * repeat_num r + fmt_kf c]
  | FGroup r f fs =>
      [match r with RN => 15 | _ => 16 * repeat_num r end] ++
      item_codes f ++ concat (map item_codes fs) ++ [0]
  end.

Definition fmt_codes (f : fmt_item) (fs : list fmt_item) : list Z :=
  item_codes f ++ concat (map item_codes fs).

Lemma fmt_kf_range c : 0 ≤ fmt_kf c ≤ 12.
Proof. unfold fmt_kf. repeat case_match; lia. Qed.

(** The letters of the grammar are none of the characters tested before them. *)
Lemma fmt_kf_letter c : fmt_kf c ≠ 0 →
  isdigit c = false ∧ (c =? chr "(") = false ∧ (c =? chr ")") = false ∧
  (c =? chr ",") = false ∧ (c =? chr "N") = false ∧ (c =? chr " ") = false.
Proof.
  unfold fmt_kf. repeat match goal with
  | |- context [?a =? ?b] => destruct (Z.eqb_spec a b); subst; [by vm_compute|]
  end. done.
Qed.

Lemma u8_code n k : 0 ≤ n ≤ 15 → 0 ≤ k ≤ 15 → u8 (16 * n + k) = 16 * n + k.
Proof. intros. apply Z.mod_small. lia. Qed.

(** After a repeat count, [nr] and [nn] hold it: [MAX(nn,nr)] is the count. *)
Definition nr_of (r : repeat) : Z := match r with RNum n => n | _ => 0 end.
Definition nn_of (r : repeat) : Z := match r with RN => 0 | _ => 1 end.

Lemma eviofmt_loop_cons ifmt room nr nn lev c fmt s :
  (c =? chr " ") = false → fmt_char (FmtState ifmt room nr nn lev) c = inl s →
  eviofmt_loop (FmtState ifmt room nr nn lev) (c :: fmt) = eviofmt_loop s fmt.
Proof. intros Hc Hs. cbn [eviofmt_loop]. by rewrite Hc, Hs. Qed.

Lemma eviofmt_loop_repeat ifmt room lev r fmt :
  repeat_ok r = true →
  eviofmt_loop (FmtState ifmt room 0 1 lev) (print_repeat r ++ fmt) =
  eviofmt_loop (FmtState ifmt room (nr_of r) (nn_of r) lev) fmt.
Proof.
  destruct r as [|n|]; cbn [repeat_ok print_repeat nr_of nn_of app]; intros Hr; try done.
  assert (n = 2 ∨ n = 3 ∨ n = 4 ∨ n = 5 ∨ n = 6 ∨ n = 7 ∨ n = 8 ∨ n = 9 ∨ n = 10 ∨
          n = 11 ∨ n = 12 ∨ n = 13 ∨ n = 14 ∨ n = 15) as Hn by lia.
  by repeat destruct Hn as [->|Hn]; subst.
Qed.

Lemma max_repeat r : repeat_ok r = true → Z.max (nn_of r) (nr_of r) = repeat_num r.
Proof. destruct r; cbn; lia. Qed.

(** Running the loop over one printed item appends its codes. *)
Definition item_runs (f : fmt_item) : Prop :=
  item_ok f = true → ∀ ifmt room lev fmt, Z.of_nat (length (item_codes f)) ≤ room →
  eviofmt_loop (FmtState ifmt room 0 1 lev) (print_item f ++ fmt) =
  eviofmt_loop (FmtState (ifmt ++ item_codes f)
    (room - Z.of_nat (length (item_codes f))) (-1) 1 lev) fmt.

Lemma items_run fs : Forall item_runs fs → forallb item_ok fs = true →
  ∀ ifmt room lev fmt, Z.of_nat (length (concat (map item_codes fs))) ≤ room →
  eviofmt_loop (FmtState ifmt room (-1) 1 lev)
    (concat (map (λ g, chr "," :: print_item g) fs) ++ fmt) =
  eviofmt_loop (FmtState (ifmt ++ concat (map item_codes fs))
    (room - Z.of_nat (length (concat (map item_codes fs)))) (-1) 1 lev) fmt.
Proof.
  induction 1 as [|f fs Hf Hfs IH]; intros Hok ifmt room lev fmt Hroom; cbn [map concat].
  - cbn. by rewrite app_nil_r, Z.sub_0_r.
  - cbn [forallb] in Hok. apply andb_prop in Hok as [Hok1 Hok2].
    cbn [map concat] in Hroom. rewrite length_app in Hroom.
    rewrite <- app_assoc, <- app_comm_cons, (eviofmt_loop_cons _ _ _ _ _ _ _ (FmtState ifmt room 0 1 lev)) by done.
    rewrite (Hf Hok1) by lia. rewrite (IH Hok2) by lia.
    rewrite <- (app_assoc ifmt). do 2 f_equal. rewrite length_app. lia.
Qed.

(** Induction on formats, with the items of a group. *)
Lemma fmt_item_ind' (P : fmt_item → Prop) :
  (∀ r c, P (FElem r c)) →
  (∀ r f fs, P f → Forall P fs → P (FGroup r f fs)) → ∀ f, P f.
Proof.
  intros HE HG. fix IH 1. intros [r c|r f fs]; [apply HE|]. apply HG; [apply IH|].
  induction fs as [|g fs IHfs]; constructor; [apply IH|exact IHfs].
Qed.

Lemma item_runs_all f : item_runs f.
Proof.
  induction f as [r c|r f fs Hf Hfs] using fmt_item_ind'; intros Hok ifmt room lev fmt Hroom;
    cbn [item_ok print_item item_codes] in *.
  - apply andb_prop in Hok as [Hr Hc]. apply negb_true_iff, Z.eqb_neq in Hc.
    destruct (fmt_kf_letter c Hc) as (H1 & H2 & H3 & H4 & H5 & H6). cbn [length] in *.
    rewrite <- app_assoc, eviofmt_loop_repeat by done. cbn [app].
    apply eviofmt_loop_cons; [done|]. unfold fmt_char. rewrite H1, H2, H3, H4, H5. cbn zeta.
    destruct (Z.eqb_spec (fmt_kf c) 0); [done|]. cbn [negb].
    replace (nr_of r <? 0) with false by (destruct r; cbn in *; lia).
    destruct (Z.ltb_spec (room - 1) 0); [lia|]. rewrite max_repeat by done.
    pose proof (fmt_kf_range c). rewrite u8_code; [done| |lia].
    destruct r; cbn in *; lia.
  - rewrite !andb_true_iff in Hok. destruct Hok as [[Hr Hok1] Hok2].
    rewrite !length_app in Hroom. cbn [length] in Hroom.
    rewrite <- !app_assoc, eviofmt_loop_repeat by done. cbn [app].
    set (c0 := match r with RN => 15 | _ => 16 * repeat_num r end) in *.
    rewrite (eviofmt_loop_cons _ _ _ _ _ _ _ (FmtState (ifmt ++ [c0]) (room - 1) 0 1 (lev + 1))).
    2: done.
    2:{ unfold fmt_char. cbn -[Z.max Z.mul u8].
        replace (nr_of r <? 0) with false by (destruct r; cbn in *; lia).
        destruct (Z.ltb_spec (room - 1) 0); [lia|]. rewrite max_repeat by done.
        unfold c0. destruct r; cbn [nn_of repeat_num Z.eqb]; [done| |done].
        cbn in Hr. do 4 f_equal. apply Z.mod_small. lia. }
    rewrite (Hf Hok1) by lia. rewrite (items_run fs Hfs Hok2) by lia. cbn [app].
    rewrite (eviofmt_loop_cons _ _ _ _ _ _ _
      (FmtState (((ifmt ++ [c0]) ++ item_codes f) ++ concat (map item_codes fs) ++ [0])
        (room - 1 - Z.of_nat (length (item_codes f)) -
         Z.of_nat (length (concat (map item_codes fs))) - 1) (-1) 1 lev)).
    + rewrite <- !app_assoc. cbn [app length]. do 2 f_equal.
      rewrite !length_app. cbn [length]. lia.
    + done.
    + unfold fmt_char. cbn -[Z.sub Z.of_nat].
      match goal with |- context [?a <? 0] => destruct (Z.ltb_spec a 0); [lia|] end.
      rewrite <- !app_assoc. do 2 f_equal. lia.
Qed.

(** ** Safety of the translation *)

Definition fmt_inv (ifmtLen : Z) (s : fmt_state) : Prop :=
  0 ≤ fs_room s ∧ Z.of_nat (length (fs_ifmt s)) + fs_room s = ifmtLen ∧
  Forall byte_ok (fs_ifmt s).

Lemma u8_range x : byte_ok (u8 x).
Proof. apply Z.mod_pos_bound. lia. Qed.

Lemma fmt_inv_push len ifmt room nr nn lev nr' nn' lev' c :
  fmt_inv len (FmtState ifmt room nr nn lev) → 0 ≤ room - 1 → byte_ok c →
  fmt_inv len (FmtState (ifmt ++ [c]) (room - 1) nr' nn' lev').
Proof.
  unfold fmt_inv. cbn. intros (H1 & H2 & H3) Hr Hc. rewrite length_app. cbn.
  split_and!; [lia|lia|]. apply Forall_app. split; [done|]. by constructor.
Qed.

Lemma fmt_char_inv len s ch : fmt_inv len s →
  match fmt_char s ch with
  | inl s' => fmt_inv len s'
  | inr err => -9 ≤ err ≤ -1
  end.
Proof.
  intros Hinv. destruct s as [ifmt room nr nn lev]. unfold fmt_char. cbn zeta.
  assert (byte_ok 15) by (unfold byte_ok; lia). assert (byte_ok 0) by (unfold byte_ok; lia).
  pose proof (λ x, u8_range x) as Hu.
  repeat match goal with
  | |- context [if ?b then _ else _] => destruct b eqn:?
  end; try lia; try done; (eapply fmt_inv_push; [done|lia|done || apply Hu]).
Qed.

Lemma eviofmt_loop_inv len fmt s : fmt_inv len s →
  let '(r, codes) := eviofmt_loop s fmt in
  Z.of_nat (length codes) ≤ len ∧ Forall byte_ok codes ∧
  (r = Z.of_nat (length codes) ∨ -9 ≤ r ≤ -1).
Proof.
  revert s. induction fmt as [|ch fmt IH]; intros s Hs; cbn [eviofmt_loop].
  - destruct Hs as (H1 & H2 & H3). destruct (negb (fs_lev s =? 0)); split_and!; auto; lia.
  - destruct (ch =? chr " "); [by apply IH|].
    pose proof (fmt_char_inv len s ch Hs) as Hc. destruct (fmt_char s ch) as [s'|err].
    + by apply IH.
    + destruct Hs as (H1 & H2 & H3). split_and!; auto; lia.
Qed.

(** ** Properties *)

(** C31: eviofmt never stores outside of its output array, whatever the format string:
    it writes at most [ifmtLen] codes, each a byte, and returns the number of codes
    stored or one of the documented errors -1 to -9. *)
Theorem eviofmt_stays_in_array (fmt : list Z) (ifmtLen : Z) (Hlen : 0 ≤ ifmtLen) :
  let '(r, codes) := eviofmt fmt ifmtLen in
  Z.of_nat (length codes) ≤ ifmtLen ∧ Forall byte_ok codes ∧
  (r = Z.of_nat (length codes) ∨ -9 ≤ r ≤ -1).
Proof.
  apply eviofmt_loop_inv. unfold fmt_inv. cbn. split_and!; [lia|lia|constructor].
Qed.

Lemma eviofmt_stays_in_array_witness :
  let '(r, codes) := eviofmt [chr "I"; chr ","; chr "S"] 1 in
  Z.of_nat (length codes) ≤ 1 ∧ Forall byte_ok codes ∧
  (r = Z.of_nat (length codes) ∨ -9 ≤ r ≤ -1).
Proof. apply (eviofmt_stays_in_array [chr "I"; chr ","; chr "S"] 1). lia. Defined.


