(* ===== verification/EvioSwapArrays.v ===== *)
(** * Swapping arrays of integers (evio-5.1/src/libsrc/evioswap.c, lines 366-463)

    [swap_int16_t], [swap_int32_t], [swap_int64_t] and [copy_data] on a byte
    memory.  A pointer is an address; [NULL] is address 0, which is never
    allocated.  The loop index of the C code is the count of iterations left,
    with both pointers advanced at each turn. *)

From S2P Require Import Prelude Words Memory.

Definition NULL : Z := 0.

(** [for (i=0; i < length; i++) dest[i] = SWAP(data[i]);] for elements of [w] bytes. *)
Fixpoint swap_loop (w : nat) (swap : Z → Z) (k : nat) (m : mem) (data dest : Z) : res mem :=
  match k with
  | O => Ret m
  | S k =>
      v ← load w m data;
      m ← store w m dest (swap v);
      swap_loop w swap k m (data + Z.of_nat w) (dest + Z.of_nat w)
  end.

Definition swap_int32_t (m : mem) (data length dest : Z) : res (Z * mem) :=
  let dest := if dest =? NULL then data else dest in
  m ← swap_loop 4 EVIO_SWAP32 (Z.to_nat length) m data dest;
  Ret (dest, m).

Definition swap_int64_t (m : mem) (data length dest : Z) : res (Z * mem) :=
  let dest := if dest =? NULL then data else dest in
  m ← swap_loop 8 EVIO_SWAP64 (Z.to_nat length) m data dest;
  Ret (dest, m).

Definition swap_int16_t (m : mem) (data length dest : Z) : res (Z * mem) :=
  let dest := if dest =? NULL then data else dest in
  m ← swap_loop 2 EVIO_SWAP16 (Z.to_nat length) m data dest;
  Ret (dest, m).

(** Word by word copy; nothing when [dest] is NULL. *)
Definition copy_data (m : mem) (data length dest : Z) : res mem :=
  if dest =? NULL then Ret m
  else swap_loop 4 (λ v, v) (Z.to_nat length) m data dest.

(** ** Reference: reversal of the bytes of each element *)

Fixpoint swap_chunks (w k : nat) (l : list Z) : list Z :=
  match k with
  | O => []
  | S k => rev (take w l) ++ swap_chunks w k (drop w l)
  end.

(** [dest] is the source itself or an object that does not overlap it. *)
Definition same_or_disjoint (p : Z) (n : nat) (q : Z) : Prop :=
  p = q ∨ disjoint_ranges p n q n.

(** A conversion of [w]-byte values that reverses or keeps their bytes. *)
Definition on_bytes (w : nat) (f : Z → Z) (g : list Z → list Z) : Prop :=
  ∀ l, length l = w → Forall byte_ok l → le w (f (le_val l)) = g l ∧ length (g l) = w.

Fixpoint map_chunks (g : list Z → list Z) (w k : nat) (l : list Z) : list Z :=
  match k with
  | O => []
  | S k => g (take w l) ++ map_chunks g w k (drop w l)
  end.

Lemma on_bytes_swap w f : (∀ x, f x = bswap w x) → on_bytes w f (@rev Z).
Proof.
  intros Hf l Hl Hb. rewrite Hf, le_bswap, <- Hl, le_le_val by done.
  by rewrite length_rev.
Qed.

Lemma on_bytes_id w : on_bytes w (λ v, v) (λ l, l).
Proof. intros l <- Hb. by rewrite le_le_val. Qed.

Lemma swap_chunks_map w k l : swap_chunks w k l = map_chunks (@rev Z) w k l.
Proof. revert l. induction k as [|k IH]; intros l; cbn; [done|by rewrite IH]. Qed.

Lemma map_chunks_id w k l : length l = (w * k)%nat → map_chunks (λ l, l) w k l = l.
Proof.
  revert l. induction k as [|k IH]; intros l Hl; cbn.
  - destruct l; [done|cbn in Hl; lia].
  - rewrite IH by (rewrite length_drop; lia). apply take_drop.
Qed.

Lemma length_swap_chunks w k l : length l = (w * k)%nat → length (swap_chunks w k l) = length l.
Proof.
  revert l. induction k as [|k IH]; intros l Hl; cbn; [lia|].
  rewrite length_app, length_rev, length_take, IH by (rewrite length_drop; lia).
  rewrite length_drop. lia.
Qed.

Lemma swap_chunks_involutive w k l :
  length l = (w * k)%nat → swap_chunks w k (swap_chunks w k l) = l.
Proof.
  revert l. induction k as [|k IH]; intros l Hl; cbn.
  - destruct l; [done|cbn in Hl; lia].
  - assert (length (rev (take w l)) = w) as Hw by (rewrite length_rev, length_take; lia).
    rewrite take_app_le, take_ge, drop_app_ge by lia.
    rewrite Hw, Nat.sub_diag, drop_0, IH, rev_involutive by (rewrite length_drop; lia).
    apply take_drop.
Qed.

Lemma swap_chunks_byte_ok w k l : Forall byte_ok l → Forall byte_ok (swap_chunks w k l).
Proof.
  revert l. induction k as [|k IH]; intros l Hl; cbn; [constructor|].
  apply Forall_app. split; [apply Forall_rev, Forall_take, Hl|apply IH, Forall_drop, Hl].
Qed.

(** The loop writes the converted elements at [dest] and touches nothing else. *)
Lemma swap_loop_spec w f g k m data dest l :
  on_bytes w f g → length l = (w * k)%nat → Forall byte_ok l →
  mread m data (w * k) = Some l → allocated m dest (w * k) →
  same_or_disjoint data (w * k) dest →
  swap_loop w f k m data dest = Ret (mwrite m dest (map_chunks g w k l)).
Proof.
  intros Hf. revert m data dest l.
  induction k as [|k IH]; intros m data dest l Hl Hb Hm Ha Hd; [done|].
  cbn [swap_loop map_chunks].
  replace (w * S k)%nat with (w + w * k)%nat in * by lia.
  apply mread_app_inv in Hm as [Hm1 Hm2].
  destruct (Hf (take w l)) as [Hle Hg].
  { rewrite length_take. lia. } { by apply Forall_take. }
  rewrite (load_ok _ _ _ _ Hm1). cbn [mbind res_bind].
  rewrite store_ok by (eapply allocated_sub; [done|lia..]). cbn [mbind res_bind].
  rewrite Hle, mwrite_app, Hg.
  assert (mread (mwrite m dest (g (take w l))) (data + Z.of_nat w) (w * k) =
          mread m (data + Z.of_nat w) (w * k)) as Hr.
  { apply mread_mwrite_disj. rewrite Hg. unfold same_or_disjoint, disjoint_ranges in *. lia. }
  apply IH.
  - rewrite length_drop. lia.
  - by apply Forall_drop.
  - by rewrite Hr.
  - apply allocated_mwrite. eapply allocated_sub; [done|lia..].
  - unfold same_or_disjoint, disjoint_ranges in *. lia.
Qed.

Lemma on_bytes_16 : on_bytes 2 EVIO_SWAP16 (@rev Z).
Proof. apply on_bytes_swap, EVIO_SWAP16_bswap. Qed.
Lemma on_bytes_32 : on_bytes 4 EVIO_SWAP32 (@rev Z).
Proof. apply on_bytes_swap, EVIO_SWAP32_bswap. Qed.
Lemma on_bytes_64 : on_bytes 8 EVIO_SWAP64 (@rev Z).
Proof. apply on_bytes_swap, EVIO_SWAP64_bswap. Qed.
#[export] Hint Resolve on_bytes_16 on_bytes_32 on_bytes_64 : evio.

(** The destination actually used: the argument, or the source when it is NULL. *)
Definition dest_or (dest data : Z) : Z := if dest =? NULL then data else dest.

(** What the caller of a swap routine provides: [l] is the content of [n] bytes at
    [data], and the destination is NULL, or as many allocated bytes elsewhere. *)
Record swap_args (m : mem) (data dest : Z) (l : list Z) : Prop := SwapArgs {
  sa_src : mread m data (length l) = Some l;
  sa_bytes : Forall byte_ok l;
  sa_dest : allocated m (dest_or dest data) (length l);
  sa_apart : same_or_disjoint data (length l) (dest_or dest data)
}.

Lemma swap_int16_t_spec m data dest n l :
  swap_args m data dest l → length l = (2 * Z.to_nat n)%nat →
  swap_int16_t m data n dest =
  Ret (dest_or dest data, mwrite m (dest_or dest data) (swap_chunks 2 (Z.to_nat n) l)).
Proof.
  intros [Hs Hb Ha Hd] Hl. rewrite Hl in *. unfold swap_int16_t.
  rewrite (swap_loop_spec _ _ _ _ _ _ _ l on_bytes_16) by done.
  cbn. by rewrite swap_chunks_map.
Qed.

Lemma swap_int32_t_spec m data dest n l :
  swap_args m data dest l → length l = (4 * Z.to_nat n)%nat →
  swap_int32_t m data n dest =
  Ret (dest_or dest data, mwrite m (dest_or dest data) (swap_chunks 4 (Z.to_nat n) l)).
Proof.
  intros [Hs Hb Ha Hd] Hl. rewrite Hl in *. unfold swap_int32_t.
  rewrite (swap_loop_spec _ _ _ _ _ _ _ l on_bytes_32) by done.
  cbn. by rewrite swap_chunks_map.
Qed.

Lemma swap_int64_t_spec m data dest n l :
  swap_args m data dest l → length l = (8 * Z.to_nat n)%nat →
  swap_int64_t m data n dest =
  Ret (dest_or dest data, mwrite m (dest_or dest data) (swap_chunks 8 (Z.to_nat n) l)).
Proof.
  intros [Hs Hb Ha Hd] Hl. rewrite Hl in *. unfold swap_int64_t.
  rewrite (swap_loop_spec _ _ _ _ _ _ _ l on_bytes_64) by done.
  cbn. by rewrite swap_chunks_map.
Qed.

Lemma copy_data_spec m data dest n l :
  swap_args m data dest l → length l = (4 * Z.to_nat n)%nat →
  copy_data m data n dest = Ret (mwrite m (dest_or dest data) l).
Proof.
  intros [Hs Hb Ha Hd] Hl. unfold copy_data, dest_or in *.
  destruct (dest =? NULL).
  - by rewrite mwrite_id.
  - rewrite Hl in *. rewrite (swap_loop_spec _ _ _ _ _ _ _ l (on_bytes_id 4)) by done.
    by rewrite map_chunks_id.
Qed.

(** ** Undoing a pass over memory

    Swapping routines move forward through memory.  [undoes b c1 c2 pos Q] says
    that the part of [c1] that starts at address [b] and ends at [pos x] changes
    only the addresses it passes over, and that [c2], run where [c1] has been,
    returns the same [x] and puts the original bytes back. *)

Definition bytes_mem (m : mem) : Prop := ∀ a v, m !! a = Some v → byte_ok v.
Definition inside (b b1 : Z) (m m' : mem) : Prop := ∀ a, b ≤ a < b1 → m !! a = m' !! a.
Definition outside (b b1 : Z) (m m' : mem) : Prop := ∀ a, ¬ (b ≤ a < b1) → m !! a = m' !! a.

Definition undoes {A} (b : Z) (c1 c2 : mem → res (A * mem)) (pos : A → Z) (Q : A → Prop) : Prop :=
  ∀ m x m1, bytes_mem m → c1 m = Ret (x, m1) →
    b ≤ pos x ∧ Q x ∧ bytes_mem m1 ∧ outside b (pos x) m m1 ∧
    ∀ m2, inside b (pos x) m1 m2 →
      ∃ m2', c2 m2 = Ret (x, m2') ∧ inside b (pos x) m m2' ∧ outside b (pos x) m2 m2'.

Lemma mread_bytes m p n l : bytes_mem m → mread m p n = Some l → Forall byte_ok l.
Proof.
  intros Hm [Hl G]%mread_Some. apply Forall_lookup. intros i x Hx.
  apply (Hm (p + Z.of_nat i)). rewrite G; [done|]. apply lookup_lt_Some in Hx. lia.
Qed.

Lemma mwrite_bytes m p l : bytes_mem m → Forall byte_ok l → bytes_mem (mwrite m p l).
Proof.
  intros Hm Hl a v. rewrite mwrite_lookup. case_decide; [|apply Hm].
  intros Hv. by eapply Forall_lookup in Hv.
Qed.

Lemma undoes_bind {A B} b (c1 c2 : mem → res (A * mem)) pos Q
    (k1 k2 : A → mem → res (B * mem)) pos' Q' :
  undoes b c1 c2 pos Q →
  (∀ x, Q x → undoes (pos x) (k1 x) (k2 x) pos' Q') →
  undoes b (λ m, '(x, m) ← c1 m; k1 x m) (λ m, '(x, m) ← c2 m; k2 x m) pos' Q'.
Proof.
  intros Hc Hk m y mF Hm Hrun.
  apply res_bind_ret in Hrun as [[x m1] [Hc1 Hk1]].
  destruct (Hc m x m1 Hm Hc1) as (Hp & HQ & Hm1 & Ho1 & Hu1).
  destruct (Hk x HQ m1 y mF Hm1 Hk1) as (Hp' & HQ' & HmF & Ho2 & Hu2).
  split_and!; [lia|done|done| |].
  { intros a Ha. rewrite Ho1, Ho2 by lia. done. }
  intros m2 Hin. destruct (Hu1 m2) as (m2' & Hc2 & Hi2 & Ho2').
  { intros a Ha. rewrite Ho2 by lia. apply Hin. lia. }
  destruct (Hu2 m2') as (m3 & Hk2 & Hi3 & Ho3).
  { intros a Ha. rewrite Hin by lia. apply Ho2'. lia. }
  exists m3. rewrite Hc2. split_and!; [done| |].
  - intros a Ha. destruct (decide (a < pos x)).
    + rewrite <- Ho3 by lia. apply Hi2. lia.
    + rewrite Ho1 by lia. apply Hi3. lia.
  - intros a Ha. rewrite Ho2', Ho3 by lia. done.
Qed.

(** Moving forward over bytes that are left alone. *)
Lemma undoes_skip {A} b (x : A) pos (Q : A → Prop) :
  b ≤ pos x → Q x → undoes b (λ m, Ret (x, m)) (λ m, Ret (x, m)) pos Q.
Proof.
  intros Hp HQ m y m1 Hm [= <- <-]. split_and!; [done|done|done|by intros a|].
  intros m2 Hi. exists m2. split_and!; [done|done|by intros a].
Qed.

Lemma undoes_ret {A} b (x : A) pos (Q : A → Prop) :
  pos x = b → Q x → undoes b (λ m, Ret (x, m)) (λ m, Ret (x, m)) pos Q.
Proof. intros Hp. apply undoes_skip. lia. Qed.

Lemma undoes_pure {A X} b (r : res X) (c1 c2 : X → mem → res (A * mem)) pos Q :
  (∀ x, r = Ret x → undoes b (c1 x) (c2 x) pos Q) →
  undoes b (λ m, x ← r; c1 x m) (λ m, x ← r; c2 x m) pos Q.
Proof. intros H. destruct r; [by apply H|by intros m x m1 _ ..]. Qed.

Lemma undoes_weaken {A} b (c1 c2 : mem → res (A * mem)) pos (Q Q' : A → Prop) :
  (∀ x, Q x → Q' x) → undoes b c1 c2 pos Q → undoes b c1 c2 pos Q'.
Proof.
  intros HQ Hc m x m1 Hm H1. destruct (Hc m x m1 Hm H1) as (?&?&?&?&?). eauto 6.
Qed.

(** The rewriting of a run of cells by one primitive. *)
Lemma undoes_run {A} b (c1 c2 : mem → res (A * mem)) pos (Q : A → Prop) :
  (∀ m x m1, bytes_mem m → c1 m = Ret (x, m1) → ∃ l l',
     pos x = b + Z.of_nat (length l) ∧ Q x ∧ length l' = length l ∧ Forall byte_ok l' ∧
     mread m b (length l) = Some l ∧ m1 = mwrite m b l' ∧
     ∀ m2, mread m2 b (length l) = Some l' → c2 m2 = Ret (x, mwrite m2 b l)) →
  undoes b c1 c2 pos Q.
Proof.
  intros Hc m x m1 Hm H1.
  destruct (Hc m x m1 Hm H1) as (l & l' & Hp & HQ & Hl & Hb & Hr & -> & H2).
  rewrite Hp. split_and!; [lia|done|by apply mwrite_bytes| |].
  { intros a Ha. by rewrite mwrite_lookup, decide_False by lia. }
  intros m2 Hin. exists (mwrite m2 b l). split_and!.
  - apply H2, mread_Some. split; [done|]. intros i Hi. rewrite <- Hin by lia.
    rewrite mwrite_lookup, decide_True by lia. f_equal. lia.
  - intros a Ha. rewrite mwrite_lookup, decide_True by lia.
    apply mread_Some in Hr as [_ G]. rewrite <- G by lia. f_equal. lia.
  - intros a Ha. by rewrite mwrite_lookup, decide_False by lia.
Qed.

(** A run that moved forward from [b] is undone on the memory it produced. *)
Lemma undoes_inverse {A} b (c1 c2 : mem → res (A * mem)) pos Q m x m1 :
  undoes b c1 c2 pos Q → bytes_mem m → c1 m = Ret (x, m1) → c2 m1 = Ret (x, m).
Proof.
  intros Hu Hm H1. destruct (Hu m x m1 Hm H1) as (_ & _ & _ & Ho & H2).
  destruct (H2 m1) as (m2 & -> & Hi & Ho2); [by intros a|].
  do 2 f_equal. apply map_eq. intros a. destruct (decide (b ≤ a < pos x)) as [Ha|Ha].
  - symmetry. by apply Hi.
  - rewrite <- Ho2 by done. symmetry. by apply Ho.
Qed.

(** An in-place loop that succeeds had all its elements allocated. *)
Lemma swap_loop_read w f k m b m1 :
  swap_loop w f k m b b = Ret m1 → allocated m b (w * k).
Proof.
  revert m b. induction k as [|k IH]; intros m b; cbn [swap_loop].
  - rewrite Nat.mul_0_r. intros _. by exists [].
  - unfold load. destruct (mread m b w) as [l|] eqn:El; [|done]. cbn [mbind res_bind].
    rewrite store_ok by eauto with evio. cbn [mbind res_bind]. intros H%IH.
    replace (w * S k)%nat with (w + w * k)%nat by lia. apply allocated_app; [by eexists|].
    destruct H as [l2 H]. rewrite mread_mwrite_disj in H; [by eexists|].
    rewrite length_le. unfold disjoint_ranges. lia.
Qed.

Lemma swap_loop_undoes w f k b :
  on_bytes w f (@rev Z) →
  undoes b (λ m, m ← swap_loop w f k m b b; Ret (b + Z.of_nat w * Z.of_nat k, m))
           (λ m, m ← swap_loop w f k m b b; Ret (b + Z.of_nat w * Z.of_nat k, m))
         id (λ _, True).
Proof.
  intros Hf. apply undoes_run. intros m x m1 Hm Hrun.
  apply res_bind_ret in Hrun as [mm [Hs [= <- <-]]].
  destruct (swap_loop_read _ _ _ _ _ _ Hs) as [l Hl].
  pose proof (mread_length _ _ _ _ Hl) as Hlen.
  pose proof (mread_bytes _ _ _ _ Hm Hl) as Hb.
  assert (same_or_disjoint b (w * k) b) as Hd by (by left).
  rewrite (swap_loop_spec _ _ _ _ _ _ _ l Hf) in Hs by eauto with evio.
  injection Hs as <-. rewrite <- swap_chunks_map. exists l, (swap_chunks w k l).
  split_and!; [cbn; lia|done|by apply length_swap_chunks|by apply swap_chunks_byte_ok|
               by rewrite Hlen|done|].
  intros m2 Hm2. rewrite Hlen in Hm2.
  rewrite (swap_loop_spec _ _ _ _ _ _ _ (swap_chunks w k l) Hf);
    [|by rewrite length_swap_chunks|by apply swap_chunks_byte_ok|done|eauto with evio|done].
  cbn. by rewrite <- swap_chunks_map, swap_chunks_involutive.
Qed.
