(* ===== verification/EvioFmtSwap.v ===== *)
(** * Swapping composite data (evio-5.1/src/libsrc/eviofmtswap.c)

    [eviofmtswap] walks the codes produced by [eviofmt] over the data words,
    swapping every item in place.  The locals of the C function are the fields of
    [fsw]; the array [lv] of ten parenthesis levels is a list of length ten and an
    index outside of it is [Undef].  The inner [while (1)] loop, which finds the
    next format code, is [next_code]; one turn of it is [code_step]. *)

From S2P Require Import Prelude Words Memory EvioSwapArrays.

Record LV := MkLV { lv_left : Z; lv_nrepeat : Z; lv_irepeat : Z }.

Record fsw := Fsw {
  imt : Z;       (** ifmt[] index *)
  lev : Z;       (** parenthesis level *)
  ncnf : Z;      (** how many times must repeat a format *)
  kcnf : Z;      (** format code *)
  iterm : Z;
  b8 : Z;        (** next byte of data *)
  lv : list LV
}.

(** The number of repeats stored in the data as an int: it is swapped in place and
    read on the side that has the local byte order. *)
Definition count_from_data (m : mem) (b8 : Z) (tolocal : bool) : res (Z * mem) :=
  v ← load 4 m b8;
  m ← store 4 m b8 (EVIO_SWAP32 v);
  v' ← load 4 m b8;
  Ret (s32 (if tolocal then v' else v), m).

(** One turn of the inner loop: [inl] to go on looking, [inr] to process data. *)
Definition code_step (ifmt : list Z) (nfmt : Z) (tolocal : bool) (s : fsw) (m : mem)
  : res ((fsw + fsw) * mem) :=
  let 'Fsw imt lev ncnf kcnf iterm b8 lv := s in
  let imt := imt + 1 in
  if nfmt <? imt then Ret (inl (Fsw iterm lev ncnf kcnf iterm b8 lv), m)
  else
    code ← aget ifmt (imt - 1);
    if code =? 0 then
      e ← aget lv (lev - 1);
      let e := MkLV (lv_left e) (lv_nrepeat e) (lv_irepeat e + 1) in
      lv ← aset lv (lev - 1) e;
      if lv_nrepeat e <=? lv_irepeat e
      then Ret (inl (Fsw imt (lev - 1) ncnf kcnf (lv_left e - 1) b8 lv), m)
      else Ret (inl (Fsw (lv_left e) lev ncnf kcnf iterm b8 lv), m)
    else
      let ncnf := code / 16 in
      let kcnf := code - 16 * ncnf in
      '(kcnf, ncnf, b8, m) ←
        (if kcnf =? 15 then
           '(n, m) ← count_from_data m b8 tolocal;
           Ret (0, n, b8 + 4, m)
         else Ret (kcnf, ncnf, b8, m));
      if kcnf =? 0 then
        lv ← aset lv lev (MkLV imt ncnf 0);
        Ret (inl (Fsw imt (lev + 1) ncnf kcnf iterm b8 lv), m)
      else if lev =? 0 then Ret (inr (Fsw imt lev ncnf kcnf iterm b8 lv), m)
      else if negb (imt =? nfmt - 1) then Ret (inr (Fsw imt lev ncnf kcnf iterm b8 lv), m)
      else
        e ← aget lv (lev - 1);
        if negb (imt =? lv_left e + 1) then Ret (inr (Fsw imt lev ncnf kcnf iterm b8 lv), m)
        else Ret (inr (Fsw imt lev 999999999 kcnf iterm b8 lv), m).

Fixpoint next_code (fuel : nat) (ifmt : list Z) (nfmt : Z) (tolocal : bool) (s : fsw) (m : mem)
  : res (fsw * mem) :=
  match fuel with
  | O => NoFuel
  | S fuel =>
      '(r, m) ← code_step ifmt nfmt tolocal s m;
      match r with
      | inl s => next_code fuel ifmt nfmt tolocal s m
      | inr s => Ret (s, m)
      end
  end.

(** The loop that swaps in place the items from [b] up to the end of the piece or
    of the data, whichever comes first: the final [b] and the memory. *)
Definition swap_items (w : nat) (swap : Z → Z) (n : Z) (m : mem) (b b8end : Z) : res (Z * mem) :=
  let bend := Z.min (b + Z.of_nat w * n) b8end in
  let k := Z.to_nat ((bend - b + (Z.of_nat w - 1)) / Z.of_nat w) in
  m ← swap_loop w swap k m b b;
  Ret (b + Z.of_nat w * Z.of_nat k, m).

(** The processing of one piece of data, after [next_code]. *)
Definition process_item (tolocal : bool) (b8end : Z) (s : fsw) (m : mem) : res (fsw * mem) :=
  let 'Fsw imt lev ncnf kcnf iterm b8 lv := s in
  '(ncnf, b8, m) ←
    (if ncnf =? 0 then
       '(n, m) ← count_from_data m b8 tolocal;
       Ret (n, b8 + 4, m)
     else Ret (ncnf, b8, m));
  '(b8, m) ←
    (if (kcnf =? 8) || (kcnf =? 9) || (kcnf =? 10) then
       swap_items 8 EVIO_SWAP64 ncnf m b8 b8end
     else if (kcnf =? 1) || (kcnf =? 2) || (kcnf =? 11) || (kcnf =? 12) then
       swap_items 4 EVIO_SWAP32 ncnf m b8 b8end
     else if (kcnf =? 4) || (kcnf =? 5) then
       swap_items 2 EVIO_SWAP16 ncnf m b8 b8end
     else if (kcnf =? 6) || (kcnf =? 7) || (kcnf =? 3) then
       Ret (b8 + ncnf, m)
     else Ret (b8, m));
  Ret (Fsw imt lev ncnf kcnf iterm b8 lv, m).

Fixpoint eviofmtswap_loop (fuel : nat) (ifmt : list Z) (nfmt : Z) (tolocal : bool)
  (b8end : Z) (s : fsw) (m : mem) : res (fsw * mem) :=
  match fuel with
  | O => NoFuel
  | S fuel' =>
      if b8 s <? b8end then
        '(s, m) ← next_code fuel ifmt nfmt tolocal s m;
        '(s, m) ← process_item tolocal b8end s m;
        eviofmtswap_loop fuel' ifmt nfmt tolocal b8end s m
      else Ret (s, m)
  end.

(** The array [lv] is not initialised by the C code; an entry is read only below
    the current level, after it has been written. *)
Definition fsw_init (iarr : Z) : fsw :=
  Fsw 0 0 0 0 0 iarr (replicate 10 (MkLV 0 0 0)).

(** The value returned and the memory. *)
Definition eviofmtswap (fuel : nat) (m : mem) (iarr nwrd : Z) (ifmt : list Z) (nfmt : Z)
  (tolocal : bool) : res (Z * mem) :=
  if (nwrd <=? 0) || (nfmt <=? 0) then Ret (-1, m)
  else
    '(_, m) ← eviofmtswap_loop fuel ifmt nfmt tolocal (iarr + 4 * nwrd) (fsw_init iarr) m;
    Ret (0, m).

(** ** Swapping back

    A pass of [eviofmtswap] over data in the local byte order ([tolocal] false) and a
    pass over its result ([tolocal] true) follow the same path through the format, since
    the counts stored in the data are read on the local side of the swap both times. *)

(** A format whose one-byte items all have a repeat count in the format itself: the
    count stored in the data is not trusted to be positive, and a negative one moves
    the data pointer back. *)
Definition is_char_code (kcnf : Z) : bool := (kcnf =? 6) || (kcnf =? 7) || (kcnf =? 3).

Definition chars_counted (ifmt : list Z) : bool :=
  forallb (λ c, (0 <=? c) && (negb (is_char_code (c - 16 * (c / 16))) || (0 <? c / 16))) ifmt.

Lemma count_from_data_undoes b :
  undoes b (λ m, '(n, m) ← count_from_data m b false; Ret (n, b + 4, m))
           (λ m, '(n, m) ← count_from_data m b true; Ret (n, b + 4, m))
         snd (λ _, True).
Proof.
  apply undoes_run. intros m x m1 Hm Hrun. unfold count_from_data, load in Hrun.
  destruct (mread m b 4) as [l|] eqn:El; [|done]. cbn [mbind res_bind] in Hrun.
  pose proof (mread_length _ _ _ _ El) as Hl. pose proof (mread_bytes _ _ _ _ Hm El) as Hb.
  destruct (on_bytes_32 l Hl Hb) as [Hle Hr].
  assert (Forall byte_ok (rev l)) as Hb' by (by apply Forall_rev).
  rewrite store_ok, Hle in Hrun by eauto with evio. cbn [mbind res_bind] in Hrun.
  rewrite mread_mwrite_same in Hrun by done. cbn in Hrun.
  injection Hrun as <- <-. exists l, (rev l). rewrite Hl.
  split_and!; [cbn; lia|done|done|done|done|done|].
  intros m2 Hm2. unfold count_from_data, load. rewrite Hm2. cbn [mbind res_bind].
  destruct (on_bytes_32 (rev l) Hr Hb') as [Hle' _]. rewrite rev_involutive in Hle'.
  rewrite store_ok, Hle' by eauto with evio. cbn [mbind res_bind].
  by rewrite mread_mwrite_same.
Qed.

Lemma swap_items_undoes w f n b b8end :
  (0 < w)%nat → on_bytes w f (@rev Z) →
  undoes b (λ m, swap_items w f n m b b8end) (λ m, swap_items w f n m b b8end)
         id (λ _, True).
Proof. intros Hw Hf. unfold swap_items. cbn zeta. by apply swap_loop_undoes. Qed.

Definition sum_state (r : fsw + fsw) : fsw := match r with inl s | inr s => s end.

(** What the format guarantees of the item found by [next_code]. *)
Definition item_counted (s : fsw) : Prop := is_char_code (kcnf s) = true → 0 < ncnf s.

Section Undo.
Context (ifmt : list Z) (nfmt : Z) (Hfmt : chars_counted ifmt = true).

Lemma code_counted i c : aget ifmt i = Ret c →
  is_char_code (c - 16 * (c / 16)) = true → 0 < c / 16.
Proof.
  unfold aget. case_match; [done|]. destruct (ifmt !! _) as [c'|] eqn:E; [|done].
  intros [= ->] Hc. apply list_elem_of_lookup_2 in E.
  unfold chars_counted in Hfmt. rewrite forallb_forall in Hfmt.
  specialize (Hfmt c). rewrite Hc in Hfmt. cbn in Hfmt.
  rewrite list_elem_of_In in E. specialize (Hfmt E).
  apply andb_prop in Hfmt as [_ ?]. lia.
Qed.

Definition found (r : fsw + fsw) : Prop := ∀ s, r = inr s → item_counted s.

Lemma code_step_undoes s :
  undoes (b8 s) (code_step ifmt nfmt false s) (code_step ifmt nfmt true s)
         (λ r, b8 (sum_state r)) found.
Proof.
  destruct s as [imt lev ncnf kcnf iterm b8 lv]. unfold code_step. cbn zeta.
  case_match; [by apply undoes_ret|]. apply undoes_pure. intros code Hcode.
  case_match.
  { apply undoes_pure. intros e He. cbn zeta. apply undoes_pure. intros lv' Hlv.
    case_match; by apply undoes_ret. }
  pose proof (code_counted _ _ Hcode) as Hcnt.
  set (Q := λ x : Z * Z * Z, is_char_code (fst (fst x)) = true → 0 < snd (fst x)).
  apply (undoes_bind _ _ _ (λ x, snd x) Q).
  - case_match.
    + intros m x m1 Hm Hc1.
      destruct (undoes_bind _ _ _ snd (λ _, True)
        (λ y m, Ret (0, fst y, snd y, m)) (λ y m, Ret (0, fst y, snd y, m))
        snd Q (count_from_data_undoes b8)) with (m := m) (x := x) (m1 := m1)
        as (?&?&?&?&Hu); [|done| |].
      * intros y _. by apply undoes_ret.
      * rewrite <- Hc1. by destruct (count_from_data m b8 false) as [[]| | |].
      * split_and!; [done..|]. intros m2 Hm2. destruct (Hu m2 Hm2) as (m2' & Hr & ?).
        exists m2'. split; [|done]. rewrite <- Hr.
        by destruct (count_from_data m2 b8 true) as [[]| | |].
    + by apply undoes_ret.
  - intros [[kc n] b'] HQ. cbn [snd]. unfold Q in HQ. cbn [fst snd] in HQ.
    case_match.
    { apply undoes_pure. intros lv' _. by apply undoes_ret. }
    case_match; [apply undoes_ret; [done|by intros ? [= <-]]|].
    case_match; [apply undoes_ret; [done|by intros ? [= <-]]|].
    apply undoes_pure. intros e _.
    case_match; (apply undoes_ret; [done|intros ? [= <-]]); [done|by intros _].
Qed.

Lemma next_code_undoes fuel s :
  undoes (b8 s) (next_code fuel ifmt nfmt false s) (next_code fuel ifmt nfmt true s)
         b8 item_counted.
Proof.
  revert s. induction fuel as [|fuel IH]; intros s; [by intros m x m1 _|].
  cbn [next_code]. eapply undoes_bind; [apply code_step_undoes|].
  intros [s'|s'] Hs; cbn [sum_state]; [apply IH|]. apply undoes_ret; [done|by apply Hs].
Qed.

Lemma process_item_undoes b8end s :
  item_counted s →
  undoes (b8 s) (process_item false b8end s) (process_item true b8end s) b8 (λ _, True).
Proof.
  destruct s as [imt lev ncnf kcnf iterm b8 lv]. unfold item_counted. cbn [fst]. intros Hs.
  unfold process_item. cbn zeta.
  set (Q := λ x : Z * Z, is_char_code kcnf = true → 0 < fst x).
  apply (undoes_bind _ _ _ snd Q).
  - case_match eqn:E.
    + eapply undoes_weaken; [|apply count_from_data_undoes].
      intros [n b'] _ Hc. cbn in Hs. specialize (Hs Hc). lia.
    + by apply undoes_ret.
  - intros [n b'] HQ. cbn [snd]. unfold Q in HQ. cbn [fst] in HQ.
    apply (undoes_bind _ _ _ id (λ _, True)).
    + case_match; [apply swap_items_undoes; eauto with evio; lia|].
      case_match; [apply swap_items_undoes; eauto with evio; lia|].
      case_match; [apply swap_items_undoes; eauto with evio; lia|].
      fold (is_char_code kcnf). case_match; [|by apply undoes_ret].
      apply undoes_skip; [|done]. specialize (HQ eq_refl). cbn. lia.
    + intros b'' _. by apply undoes_ret.
Qed.

Lemma eviofmtswap_loop_undoes fuel b8end s :
  undoes (b8 s) (eviofmtswap_loop fuel ifmt nfmt false b8end s)
    (eviofmtswap_loop fuel ifmt nfmt true b8end s) b8 (λ _, True).
Proof.
  revert s. induction fuel as [|fuel IH]; intros s; [by intros m x m1 _|].
  cbn [eviofmtswap_loop]. destruct (b8 s <? b8end); [|by apply undoes_ret].
  eapply undoes_bind; [apply next_code_undoes|]. intros s1 Hs1.
  eapply undoes_bind; [by apply process_item_undoes|]. intros s2 _. apply IH.
Qed.
End Undo.

(** ** Flat formats: codes with a repeat count and no parenthesis *)

Definition flat_code (c : Z) : bool :=
  (1 <=? c / 16) && (1 <=? c - 16 * (c / 16)) && (c - 16 * (c / 16) <=? 12).

(** Bytes of one item of a type code. *)
Definition kcnf_width (k : Z) : nat :=
  if (k =? 8) || (k =? 9) || (k =? 10) then 8
  else if (k =? 1) || (k =? 2) || (k =? 11) || (k =? 12) then 4
  else if (k =? 4) || (k =? 5) then 2 else 1.

Definition code_width (c : Z) : nat := kcnf_width (c - 16 * (c / 16)).
Definition code_count (c : Z) : nat := Z.to_nat (c / 16).

(** One row of data laid out as the format says, with every item reversed. *)
Fixpoint swap_row (codes l : list Z) : list Z :=
  match codes with
  | [] => l
  | c :: codes =>
      let n := (code_width c * code_count c)%nat in
      swap_chunks (code_width c) (code_count c) (take n l) ++ swap_row codes (drop n l)
  end.

Fixpoint row_len (codes : list Z) : nat :=
  match codes with
  | [] => 0
  | c :: codes => code_width c * code_count c + row_len codes
  end.

Lemma swap_chunks_1 k l : length l = k → swap_chunks 1 k l = l.
Proof.
  revert k. induction l as [|x l IH]; intros [|k] Hl; try done.
  cbn in *. by rewrite drop_0, IH by lia.
Qed.

Lemma swap_items_spec w f n m b b8end l :
  (0 < w)%nat → on_bytes w f (@rev Z) → length l = (w * n)%nat → Forall byte_ok l →
  mread m b (w * n) = Some l → b + Z.of_nat (w * n) ≤ b8end →
  swap_items w f (Z.of_nat n) m b b8end =
  Ret (b + Z.of_nat (w * n), mwrite m b (swap_chunks w n l)).
Proof.
  intros Hw Hf Hl Hb Hm He. unfold swap_items. cbn zeta.
  rewrite Nat2Z.inj_mul in *. rewrite Z.min_l by lia.
  replace (Z.to_nat _) with n.
  2:{ replace (b + Z.of_nat w * Z.of_nat n - b + (Z.of_nat w - 1))
        with (Z.of_nat n * Z.of_nat w + (Z.of_nat w - 1)) by lia.
      rewrite Z.div_add_l, Z.div_small by lia. lia. }
  rewrite (swap_loop_spec _ _ _ _ _ _ _ l Hf) by (eauto with evio || by left).
  cbn. by rewrite swap_chunks_map.
Qed.

Section Flat.
Context (codes : list Z) (Hflat : forallb flat_code codes = true).
Local Notation nfmt := (Z.of_nat (length codes)).

Lemma flat_lookup i c : codes !! i = Some c → flat_code c = true.
Proof.
  intros H%list_elem_of_lookup_2. rewrite forallb_forall in Hflat.
  by apply Hflat, list_elem_of_In.
Qed.

Lemma code_step_flat tolocal i c s m :
  codes !! i = Some c → imt s = Z.of_nat i → lev s = 0 →
  code_step codes nfmt tolocal s m =
  Ret (inr (Fsw (Z.of_nat (S i)) 0 (c / 16) (c - 16 * (c / 16)) (iterm s) (b8 s) (lv s)), m).
Proof.
  intros Hc Hi Hlev. destruct s; cbn in Hi, Hlev |- *. subst.
  pose proof (lookup_lt_Some _ _ _ Hc). pose proof (flat_lookup _ _ Hc) as Hf.
  unfold flat_code in Hf. destruct (Z.ltb_spec nfmt (Z.of_nat i + 1)); [lia|].
  unfold aget. destruct (Z.ltb_spec (Z.of_nat i + 1 - 1) 0); [lia|].
  replace (Z.to_nat (Z.of_nat i + 1 - 1)) with i by lia. rewrite Hc. cbn [of_option mbind res_bind].
  assert (c <> 0) by (intros ->; by cbn in Hf).
  destruct (Z.eqb_spec c 0); [done|].
  destruct (Z.eqb_spec (c - 16 * (c / 16)) 15); [lia|]. cbn [mbind res_bind].
  destruct (Z.eqb_spec (c - 16 * (c / 16)) 0); [lia|].
  cbn [lev iterm b8 lv Z.eqb]. by replace (Z.of_nat i + 1) with (Z.of_nat (S i)) by lia.
Qed.

Lemma code_step_end tolocal s m :
  imt s = nfmt →
  code_step codes nfmt tolocal s m =
  Ret (inl (Fsw (iterm s) (lev s) (ncnf s) (kcnf s) (iterm s) (b8 s) (lv s)), m).
Proof.
  intros Hi. destruct s; cbn in Hi |- *. subst.
  by destruct (Z.ltb_spec nfmt (nfmt + 1)); [|lia].
Qed.

Lemma process_item_flat tolocal b8end i c s m l :
  codes !! i = Some c → ncnf s = c / 16 → kcnf s = c - 16 * (c / 16) →
  length l = (code_width c * code_count c)%nat → Forall byte_ok l →
  mread m (b8 s) (length l) = Some l → b8 s + Z.of_nat (length l) ≤ b8end →
  process_item tolocal b8end s m =
  Ret (Fsw (imt s) (lev s) (ncnf s) (kcnf s) (iterm s) (b8 s + Z.of_nat (length l)) (lv s),
       mwrite m (b8 s) (swap_chunks (code_width c) (code_count c) l)).
Proof.
  intros Hc Hn Hk Hl Hb Hm He. destruct s; cbn in Hn, Hk, Hm, He |- *. subst ncnf0 kcnf0.
  pose proof (flat_lookup _ _ Hc) as Hf. unfold flat_code in Hf.
  destruct (Z.eqb_spec (c / 16) 0); [lia|]. cbn [mbind res_bind].
  rewrite Hl in *. unfold code_width, kcnf_width in *.
  assert (c / 16 = Z.of_nat (code_count c)) as Hcc by (unfold code_count; lia).
  assert (∀ k, c - 16 * (c / 16) = k → 1 ≤ k ≤ 12) as Hr by lia.
  set (k := c - 16 * (c / 16)) in *. clearbody k. rewrite Hcc in *.
  destruct ((k =? 8) || (k =? 9) || (k =? 10)) eqn:E8; [|
    destruct ((k =? 1) || (k =? 2) || (k =? 11) || (k =? 12)) eqn:E4; [|
      destruct ((k =? 4) || (k =? 5)) eqn:E2]].
  1-3: rewrite (swap_items_spec _ _ _ _ _ _ l) by (eauto with evio; lia); done.
  destruct ((k =? 6) || (k =? 7) || (k =? 3)) eqn:E1; [|specialize (Hr k eq_refl); lia].
  cbn [mbind res_bind]. rewrite swap_chunks_1 by lia.
  rewrite mwrite_id by (rewrite Hl; done). do 3 f_equal. lia.
Qed.

(** The walk is about to take code [i], possibly after starting the format again. *)
Definition at_code (i : nat) (s : fsw) : Prop :=
  lev s = 0 ∧ iterm s = 0 ∧ (imt s = Z.of_nat i ∨ imt s = nfmt ∧ i = O).

Lemma next_code_flat fuel tolocal i c s m :
  codes !! i = Some c → at_code i s → (2 ≤ fuel)%nat →
  next_code fuel codes nfmt tolocal s m =
  Ret (Fsw (Z.of_nat (S i)) 0 (c / 16) (c - 16 * (c / 16)) 0 (b8 s) (lv s), m).
Proof.
  intros Hc (Hlev & Hit & [Hi|[Hi ->]]) Hf.
  - destruct fuel as [|fuel]; [lia|]. cbn [next_code].
    rewrite (code_step_flat _ _ _ _ _ Hc Hi Hlev). cbn. by rewrite Hit.
  - destruct fuel as [|[|fuel]]; [lia|lia|]. cbn [next_code].
    rewrite (code_step_end _ _ _ Hi). cbn [mbind res_bind].
    rewrite (code_step_flat _ 0 c) by (cbn; done). cbn. by rewrite Hit.
Qed.

Lemma code_width_pos c : (1 ≤ code_width c)%nat.
Proof. unfold code_width, kcnf_width. repeat case_match; lia. Qed.

Lemma flat_item_pos i c : codes !! i = Some c → (1 ≤ code_width c * code_count c)%nat.
Proof.
  intros Hc%flat_lookup. unfold flat_code in Hc. pose proof (code_width_pos c).
  assert (1 ≤ code_count c)%nat by (unfold code_count; lia). nia.
Qed.

Lemma flat_loop tolocal b8end fuel i s m row rows :
  (i < length codes)%nat → at_code i s →
  length row = row_len (drop i codes) → Forall (λ r, length r = row_len codes) rows →
  Forall byte_ok (row ++ concat rows) →
  mread m (b8 s) (length (row ++ concat rows)) = Some (row ++ concat rows) →
  b8end = b8 s + Z.of_nat (length (row ++ concat rows)) →
  (length (drop i codes) + length rows * length codes + 2 ≤ fuel)%nat →
  ∃ s', eviofmtswap_loop fuel codes nfmt tolocal b8end s m =
    Ret (s', mwrite m (b8 s) (swap_row (drop i codes) row ++ concat (swap_row codes <$> rows))).
Proof.
  revert i s m row rows. induction fuel as [|fuel IH]; intros i s m row rows Hi Hat Hrow Hrows
    Hb Hm Hend Hfuel; [lia|].
  destruct (lookup_lt_is_Some_2 codes i Hi) as [c Hc].
  pose proof (flat_item_pos _ _ Hc) as Hpos.
  rewrite (drop_S _ _ _ Hc) in *. cbn [row_len swap_row length] in *.
  set (n := (code_width c * code_count c)%nat) in *.
  assert (row ++ concat rows = take n row ++ (drop n row ++ concat rows)) as Hsplit
    by (by rewrite app_assoc, take_drop).
  assert (length (take n row) = n) as Htl by (rewrite length_take; lia).
  cbn [eviofmtswap_loop]. rewrite Hsplit in Hb, Hm, Hend.
  apply Forall_app in Hb as [Hb1 Hb2]. apply mread_split in Hm as [Hm1 Hm2].
  rewrite length_app in Hend.
  destruct (Z.ltb_spec (b8 s) b8end); [|lia].
  rewrite (next_code_flat _ _ _ _ _ _ Hc Hat) by lia. cbn [mbind res_bind].
  rewrite (process_item_flat _ b8end _ _ _ _ (take n row) Hc) by (cbn; (done || lia)).
  cbn [mbind res_bind imt lev ncnf kcnf iterm b8 lv].
  set (s1 := Fsw _ _ _ _ _ _ _). set (m1 := mwrite m _ _).
  assert (length (swap_chunks (code_width c) (code_count c) (take n row)) = n) as Hsl
    by (rewrite length_swap_chunks; lia).
  assert (mread m1 (b8 s1) (length (drop n row ++ concat rows)) =
          Some (drop n row ++ concat rows)) as Hm3.
  { unfold m1. rewrite mread_mwrite_disj; [done|].
    unfold disjoint_ranges. rewrite Hsl. cbn. rewrite Htl. lia. }
  assert (∀ l, mwrite m1 (b8 s1) l =
    mwrite m (b8 s) (swap_chunks (code_width c) (code_count c) (take n row) ++ l)) as Hmw.
  { intros l. unfold m1. rewrite mwrite_app, Hsl. cbn. by rewrite Htl. }
  rewrite <- app_assoc, <- Hmw.
  destruct (decide (S i < length codes)%nat) as [HSi|HSi].
  - apply IH; [done| |by rewrite length_drop; lia|done..| |lia].
    + unfold s1. split_and!; [done..|by left].
    + cbn. rewrite Htl in *. lia.
  - assert (S i = length codes) as HSl by lia.
    rewrite (drop_ge codes (S i)) in * by lia. cbn [row_len length swap_row] in *.
    assert (drop n row = []) as Hdr by (apply nil_length_inv; rewrite length_drop; lia).
    rewrite Hdr in *. cbn [app] in *. destruct rows as [|r rows]; cbn [concat fmap list_fmap] in *.
    + exists s1. destruct fuel as [|fuel]; [cbn in Hfuel; lia|]. cbn [eviofmtswap_loop].
      cbn [length] in Hend. replace (b8 s1 <? b8end) with false; [done|].
      symmetry. apply Z.ltb_ge. cbn. lia.
    + inversion Hrows; subst. apply (IH O s1 m1 r rows).
      * lia.
      * unfold s1. split_and!; [done..|]. right. split; [|done]. cbn. lia.
      * by rewrite drop_0.
      * done.
      * done.
      * done.
      * cbn. lia.
      * rewrite drop_0. cbn [length] in Hfuel. lia.
Qed.

Lemma eviofmtswap_flat_ok tolocal fuel m iarr nwrd rows :
  codes ≠ [] → rows ≠ [] → Forall (λ r, length r = row_len codes) rows →
  Forall byte_ok (concat rows) → mread m iarr (length (concat rows)) = Some (concat rows) →
  4 * nwrd = Z.of_nat (length (concat rows)) →
  (length rows * length codes + 2 ≤ fuel)%nat →
  eviofmtswap fuel m iarr nwrd codes nfmt tolocal =
  Ret (0, mwrite m iarr (concat (swap_row codes <$> rows))).
Proof.
  intros Hne Hrne Hrows Hb Hm Hlen Hfuel.
  assert (0 < length codes)%nat as Hlc by (destruct codes; [done|cbn; lia]).
  destruct (lookup_lt_is_Some_2 codes 0 Hlc) as [c Hc].
  pose proof (flat_item_pos 0 c Hc) as Hp.
  assert (1 ≤ row_len codes)%nat as Hrl.
  { rewrite <- (drop_0 codes), (drop_S _ _ _ Hc). cbn. lia. }
  destruct rows as [|r rows]; [done|].
  pose proof (Forall_inv Hrows) as Hr. pose proof (Forall_inv_tail Hrows) as Hrs.
  assert (0 < nwrd) as Hn by (cbn [concat] in Hlen; rewrite length_app, Hr in Hlen; lia).
  unfold eviofmtswap. destruct (Z.leb_spec nwrd 0); [lia|].
  destruct (Z.leb_spec nfmt 0); [lia|]. cbn [orb].
  destruct (flat_loop tolocal (iarr + 4 * nwrd) fuel 0 (fsw_init iarr) m r rows) as [s' Hs'].
  - done.
  - split_and!; [done..|by left].
  - done.
  - done.
  - done.
  - done.
  - cbn [b8 fsw_init]. cbn [concat] in Hlen. lia.
  - rewrite drop_0. cbn [length] in Hfuel. lia.
  - rewrite drop_0 in Hs'. by rewrite Hs'.
Qed.
End Flat.

(** ** Properties *)

(** C32: swapping composite data to the other byte order and back is the identity: if a
    pass with [tolocal] false over data in local order returns, a pass with [tolocal] true
    over its result returns the same status and restores every byte, for every format,
    nested and data-driven repeats included, whose one-byte items have a count of their
    own. *)
Theorem eviofmtswap_roundtrip (fuel : nat) (m m1 : mem) (iarr nwrd : Z) (ifmt : list Z)
    (nfmt r : Z) (Hfmt : chars_counted ifmt = true) (Hm : bytes_mem m)
    (Hrun : eviofmtswap fuel m iarr nwrd ifmt nfmt false = Ret (r, m1)) :
  eviofmtswap fuel m1 iarr nwrd ifmt nfmt true = Ret (r, m).
Proof.
  unfold eviofmtswap in *. destruct ((nwrd <=? 0) || (nfmt <=? 0)).
  { by injection Hrun as <- <-. }
  apply res_bind_ret in Hrun as [[s m'] [Hrun [= <- <-]]].
  by rewrite (undoes_inverse _ _ _ _ _ _ _ _ (eviofmtswap_loop_undoes ifmt nfmt Hfmt fuel _ _)
                Hm Hrun).
Qed.

(** Three words of data in local order for the format N(I,2S), with N = 1. *)
Definition example_mem : mem := mwrite ∅ 100 [1; 0; 0; 0; 1; 2; 3; 4; 5; 6; 7; 8].

Lemma example_mem_bytes : bytes_mem example_mem.
Proof.
  apply mwrite_bytes; [intros a v H; by rewrite lookup_empty in H|].
  repeat constructor; unfold byte_ok; lia.
Qed.

Lemma eviofmtswap_roundtrip_witness : ∃ m1,
  eviofmtswap 10 example_mem 100 3 [15; 27; 36; 0] 4 false = Ret (0, m1) ∧
  eviofmtswap 10 m1 100 3 [15; 27; 36; 0] 4 true = Ret (0, example_mem).
Proof.
  eexists. split; [vm_compute; reflexivity|].
  apply (eviofmtswap_roundtrip 10 example_mem); [reflexivity|apply example_mem_bytes|].
  vm_compute. reflexivity.
Defined.

(** For a format without parentheses and without counts stored in the data,
    eviofmtswap applied to rows laid out as the format says terminates, returns 0 and
    reverses the bytes of each item according to the width of its type, in either
    direction, changing nothing outside of the data. *)
Theorem eviofmtswap_flat (tolocal : bool) (fuel : nat) (m : mem) (iarr nwrd : Z)
    (codes : list Z) (rows : list (list Z))
    (Hflat : forallb flat_code codes = true) (Hne : codes ≠ []) (Hrne : rows ≠ [])
    (Hrows : Forall (λ r, length r = row_len codes) rows)
    (Hb : Forall byte_ok (concat rows))
    (Hm : mread m iarr (length (concat rows)) = Some (concat rows))
    (Hlen : 4 * nwrd = Z.of_nat (length (concat rows)))
    (Hfuel : (length rows * length codes + 2 ≤ fuel)%nat) :
  eviofmtswap fuel m iarr nwrd codes (Z.of_nat (length codes)) tolocal =
  Ret (0, mwrite m iarr (concat (swap_row codes <$> rows))).
Proof. by apply eviofmtswap_flat_ok. Qed.

Lemma eviofmtswap_flat_witness :
  let rows := [[1; 2; 3; 4; 5; 6]; [7; 8; 9; 10; 11; 12]] in
  eviofmtswap 10 (mwrite ∅ 100 (concat rows)) 100 3 [27; 20] 2 false =
  Ret (0, mwrite (mwrite ∅ 100 (concat rows)) 100 [4; 3; 2; 1; 6; 5; 10; 9; 8; 7; 12; 11]).
Proof.
  apply (eviofmtswap_flat false 10 (mwrite ∅ 100 [1; 2; 3; 4; 5; 6; 7; 8; 9; 10; 11; 12]) 100 3
           [27; 20] [[1; 2; 3; 4; 5; 6]; [7; 8; 9; 10; 11; 12]]); try done.
  - repeat constructor.
  - repeat constructor; unfold byte_ok; lia.
  - cbn. lia.
Defined.
