(* ===== verification/EvioSwap.v ===== *)
(** * Swapping evio events (evio-5.1/src/libsrc/evioswap.c)

    [evioswap] converts a bank, and everything nested in it, to the opposite byte
    order, in place or into another buffer.  The mutual recursion of swap_bank,
    swap_segment, swap_tagsegment and swap_data is a mutual [Fixpoint] on fuel; the
    [while (l < length)] loops of swap_data are [bank_loop], [segment_loop] and
    [tagsegment_loop].  Pointers are byte addresses, word indices scale by 4. *)

From S2P Require Import Prelude Words Memory EvioFmt EvioSwapArrays EvioFmtSwap.

(** [(dest==NULL) ? NULL : &dest[k]]. *)
Definition dest_at (dest k : Z) : Z := if dest =? NULL then NULL else dest + 4 * k.

(** The characters of a C string, up to its null byte. *)
Fixpoint cstring (fuel : nat) (m : mem) (p : Z) : res (list Z) :=
  match fuel with
  | O => NoFuel
  | S fuel =>
      match m !! p with
      | None => Undef
      | Some c => if c =? 0 then Ret [] else s ← cstring fuel m (p + 1); Ret (c :: s)
      end
  end.

(** One element of the array of composite data at [data]: the status (0 or -1), the
    number of words of the element and the memory. [d] is where the result goes. *)
Definition swap_composite_elem (fuel : nat) (m : mem) (data dest d : Z) (inPlace tolocal : bool)
  : res (Z * Z * mem) :=
  '(pData, m) ← (if tolocal then swap_int32_t m data 1 dest else Ret (data, m));
  w0 ← load 4 m pData;
  let formatLen := Z.land w0 0xffff in
  '(_, m) ← (if tolocal then Ret (pData, m) else swap_int32_t m data 1 dest);
  m ← (if inPlace then Ret m else copy_data m (data + 4) formatLen (dest + 4));
  let formatString := pData + 4 in
  let hdr := data + 4 * (formatLen + 1) in
  let dhdr := d + 4 * (formatLen + 1) in
  '(pData, m) ← (if tolocal then swap_int32_t m hdr 2 dhdr else Ret (hdr, m));
  w1 ← load 4 m pData;
  let dataLen := u32 (w1 - 1) in
  '(_, m) ← (if tolocal then Ret (pData, m) else swap_int32_t m hdr 2 dhdr);
  m ← (if inPlace then Ret m
       else copy_data m (data + 4 * (formatLen + 3)) dataLen (d + 4 * (formatLen + 3)));
  let pData := d + 4 * (formatLen + 3) in
  fmt ← cstring (S (size m)) m formatString;
  let '(nfmt, ifmt) := eviofmt fmt 1024 in
  let wordLen := u32 (1 + formatLen + 2 + dataLen) in
  if 0 <? nfmt then
    '(err, m) ← eviofmtswap fuel m pData (s32 dataLen) ifmt nfmt tolocal;
    Ret (if negb (err =? 0) then -1 else 0, wordLen, m)
  else Ret (-1, wordLen, m).

(** The loop over the elements. The C code advances [dest] even when it is NULL. *)
Fixpoint swap_composite_loop (fuel : nat) (m : mem) (data dest d : Z) (inPlace tolocal : bool)
  (length : Z) : res (Z * mem) :=
  match fuel with
  | O => NoFuel
  | S fuel' =>
      if 0 <? length then
        '(status, wordLen, m) ← swap_composite_elem fuel m data dest d inPlace tolocal;
        if negb (status =? 0) then Ret (-1, m) else
        let length := u32 (length - wordLen) in
        let dest := dest + 4 * wordLen in
        let data := data + 4 * wordLen in
        let d := if inPlace then data else dest in
        swap_composite_loop fuel' m data dest d inPlace tolocal length
      else Ret (0, m)
  end.

Definition swap_composite_t (fuel : nat) (m : mem) (data : Z) (tolocal : bool) (dest length : Z)
  : res (Z * mem) :=
  let inPlace := dest =? NULL in
  let d := if inPlace then data else dest in
  swap_composite_loop fuel m data dest d inPlace tolocal length.

Fixpoint swap_bank (fuel : nat) (m : mem) (buf : Z) (tolocal : bool) (dest : Z) : res mem :=
  match fuel with
  | O => NoFuel
  | S fuel =>
      '(p, m) ← (if tolocal then swap_int32_t m buf 2 dest else Ret (buf, m));
      w0 ← load 4 m p;
      w1 ← load 4 m (p + 4);
      let data_length := u32 (w0 - 1) in
      let data_type := Z.land (Z.shiftr w1 8) 0x3f in
      '(_, m) ← (if tolocal then Ret (p, m) else swap_int32_t m buf 2 dest);
      swap_data fuel m (buf + 8) data_type data_length tolocal (dest_at dest 2)
  end
with swap_segment (fuel : nat) (m : mem) (buf : Z) (tolocal : bool) (dest : Z) : res mem :=
  match fuel with
  | O => NoFuel
  | S fuel =>
      '(p, m) ← (if tolocal then swap_int32_t m buf 1 dest else Ret (buf, m));
      w0 ← load 4 m p;
      let data_length := Z.land w0 0xffff in
      let data_type := Z.land (Z.shiftr w0 16) 0x3f in
      '(_, m) ← (if tolocal then Ret (p, m) else swap_int32_t m buf 1 dest);
      swap_data fuel m (buf + 4) data_type data_length tolocal (dest_at dest 1)
  end
with swap_tagsegment (fuel : nat) (m : mem) (buf : Z) (tolocal : bool) (dest : Z) : res mem :=
  match fuel with
  | O => NoFuel
  | S fuel =>
      '(p, m) ← (if tolocal then swap_int32_t m buf 1 dest else Ret (buf, m));
      w0 ← load 4 m p;
      let data_length := Z.land w0 0xffff in
      let data_type := Z.land (Z.shiftr w0 16) 0xf in
      '(_, m) ← (if tolocal then Ret (p, m) else swap_int32_t m buf 1 dest);
      swap_data fuel m (buf + 4) data_type data_length tolocal (dest_at dest 1)
  end
with swap_data (fuel : nat) (m : mem) (data type length : Z) (tolocal : bool) (dest : Z) : res mem :=
  match fuel with
  | O => NoFuel
  | S fuel =>
      if type =? 0x0 then copy_data m data length dest
      else if (type =? 0x1) || (type =? 0x2) || (type =? 0xb) then
        '(_, m) ← swap_int32_t m data length dest; Ret m
      else if (type =? 0x3) || (type =? 0x6) || (type =? 0x7) then copy_data m data length dest
      else if (type =? 0x4) || (type =? 0x5) then
        '(_, m) ← swap_int16_t m data (u32 (length * 2)) dest; Ret m
      else if (type =? 0x8) || (type =? 0x9) || (type =? 0xa) then
        '(_, m) ← swap_int64_t m data (length / 2) dest; Ret m
      else if type =? 0xf then
        '(_, m) ← swap_composite_t fuel m data tolocal dest length; Ret m
      else if (type =? 0xe) || (type =? 0x10) then bank_loop fuel m data 0 length tolocal dest
      else if (type =? 0xd) || (type =? 0x20) then segment_loop fuel m data 0 length tolocal dest
      else if type =? 0xc then tagsegment_loop fuel m data 0 length tolocal dest
      else copy_data m data length dest
  end
with bank_loop (fuel : nat) (m : mem) (data l length : Z) (tolocal : bool) (dest : Z) : res mem :=
  match fuel with
  | O => NoFuel
  | S fuel =>
      if l <? length then
        let p := data + 4 * l in
        let q := dest_at dest l in
        '(fraglen, m) ←
          (if tolocal then
             m ← swap_bank fuel m p tolocal q;
             w ← load 4 m (if dest =? NULL then p else q);
             Ret (u32 (w + 1), m)
           else
             w ← load 4 m p;
             m ← swap_bank fuel m p tolocal q;
             Ret (u32 (w + 1), m));
        bank_loop fuel m data (u32 (l + fraglen)) length tolocal dest
      else Ret m
  end
with segment_loop (fuel : nat) (m : mem) (data l length : Z) (tolocal : bool) (dest : Z) : res mem :=
  match fuel with
  | O => NoFuel
  | S fuel =>
      if l <? length then
        let p := data + 4 * l in
        let q := dest_at dest l in
        '(fraglen, m) ←
          (if tolocal then
             m ← swap_segment fuel m p tolocal q;
             w ← load 4 m (if dest =? NULL then p else q);
             Ret (Z.land w 0xffff + 1, m)
           else
             w ← load 4 m p;
             m ← swap_segment fuel m p tolocal q;
             Ret (Z.land w 0xffff + 1, m));
        segment_loop fuel m data (u32 (l + fraglen)) length tolocal dest
      else Ret m
  end
with tagsegment_loop (fuel : nat) (m : mem) (data l length : Z) (tolocal : bool) (dest : Z) : res mem :=
  match fuel with
  | O => NoFuel
  | S fuel =>
      if l <? length then
        let p := data + 4 * l in
        let q := dest_at dest l in
        '(fraglen, m) ←
          (if tolocal then
             m ← swap_tagsegment fuel m p tolocal q;
             w ← load 4 m (if dest =? NULL then p else q);
             Ret (Z.land w 0xffff + 1, m)
           else
             w ← load 4 m p;
             m ← swap_tagsegment fuel m p tolocal q;
             Ret (Z.land w 0xffff + 1, m));
        tagsegment_loop fuel m data (u32 (l + fraglen)) length tolocal dest
      else Ret m
  end.

Definition evioswap (fuel : nat) (m : mem) (buf : Z) (tolocal : bool) (dest : Z) : res mem :=
  swap_bank fuel m buf tolocal dest.

(** ** Evio structures and their encodings

    A fragment is what a bank, a segment or a tagsegment holds besides its length;
    which of the three headers it has is decided by the type of its parent.  [Bytes]
    is the payload of a leaf, in the byte order of the host. *)

Inductive kind := KBank | KSegment | KTagsegment.

Inductive frag := Frag (tag pad type num : Z) (p : payload)
with payload := Bytes (l : list Z) | Frags (fs : frags)
with frags := FNil | FCons (f : frag) (fs : frags).

Scheme frag_mind := Induction for frag Sort Prop
with payload_mind := Induction for payload Sort Prop
with frags_mind := Induction for frags Sort Prop.
Combined Scheme frag_mutind from frag_mind, payload_mind, frags_mind.

(** The header of the fragments contained in a bank of type [type]. *)
Definition kind_of (type : Z) : option kind :=
  if (type =? 0xe) || (type =? 0x10) then Some KBank
  else if (type =? 0xd) || (type =? 0x20) then Some KSegment
  else if type =? 0xc then Some KTagsegment
  else None.

(** The size in bytes of the elements of a leaf; elements of one byte are not
    swapped. *)
Definition width_of (type : Z) : nat :=
  if (type =? 0x1) || (type =? 0x2) || (type =? 0xb) then 4
  else if (type =? 0x4) || (type =? 0x5) then 2
  else if (type =? 0x8) || (type =? 0x9) || (type =? 0xa) then 8
  else 1.

Definition hdr_words (k : kind) : Z := match k with KBank => 2 | _ => 1 end.

Definition order (big : bool) (w : nat) (l : list Z) : list Z :=
  if big then swap_chunks w (length l / w) l else l.

(** The words of a header for [len] words of data. *)
Definition header (k : kind) (tag pad type num len : Z) : list Z :=
  match k with
  | KBank => [len + 1; tag * 65536 + (pad * 64 + type) * 256 + num]
  | KSegment => [tag * 16777216 + (pad * 64 + type) * 65536 + len]
  | KTagsegment => [tag * 1048576 + type * 65536 + len]
  end.

Fixpoint frag_len (k : kind) (f : frag) : Z :=
  match f with Frag _ _ type _ p => hdr_words k + payload_len type p end
with payload_len (type : Z) (p : payload) : Z :=
  match p with
  | Bytes l => Z.of_nat (length l) / 4
  | Frags fs => frags_len (default KBank (kind_of type)) fs
  end
with frags_len (k : kind) (fs : frags) : Z :=
  match fs with FNil => 0 | FCons f fs => frag_len k f + frags_len k fs end.

Definition words_bytes (big : bool) (ws : list Z) : list Z :=
  order big 4 (flat_map (le 4) ws).

(** The bytes of a fragment, big- or little-endian. *)
Fixpoint enc_frag (big : bool) (k : kind) (f : frag) : list Z :=
  match f with
  | Frag tag pad type num p =>
      words_bytes big (header k tag pad type num (payload_len type p)) ++ enc_payload big type p
  end
with enc_payload (big : bool) (type : Z) (p : payload) : list Z :=
  match p with
  | Bytes l => order big (width_of type) l
  | Frags fs => enc_frags big (default KBank (kind_of type)) fs
  end
with enc_frags (big : bool) (k : kind) (fs : frags) : list Z :=
  match fs with FNil => [] | FCons f fs => enc_frag big k f ++ enc_frags big k fs end.

(** Field widths, whole words, and payloads that fit their type. *)
Definition header_ok (k : kind) (tag pad type num len : Z) : bool :=
  (0 <=? len) && (0 <=? type) && (0 <=? tag) && (0 <=? pad) && (pad <? 4) &&
  (0 <=? num) && (num <? 256) &&
  match k with
  | KBank => (tag <? 65536) && (type <? 64) && (len <? 4294967294)
  | KSegment => (tag <? 256) && (type <? 64) && (len <? 65536)
  | KTagsegment => (tag <? 4096) && (type <? 16) && (len <? 65536)
  end.

Definition leaf_ok (type : Z) (l : list Z) : bool :=
  negb (type =? 0xf) && bool_decide (kind_of type = None) &&
  forallb (λ b, (0 <=? b) && (b <? 256)) l && (Z.of_nat (length l) <? 8589934592) &&
  (Z.of_nat (length l) mod (if Nat.eqb (width_of type) 8 then 8 else 4) =? 0).

Fixpoint frag_ok (k : kind) (f : frag) : bool :=
  match f with
  | Frag tag pad type num p =>
      header_ok k tag pad type num (payload_len type p) && payload_ok type p
  end
with payload_ok (type : Z) (p : payload) : bool :=
  match p with
  | Bytes l => leaf_ok type l
  | Frags fs => match kind_of type with Some k => frags_ok k fs | None => false end
  end
with frags_ok (k : kind) (fs : frags) : bool :=
  match fs with FNil => true | FCons f fs => frag_ok k f && frags_ok k fs end.

(** Steps of the interpreter that a structure needs. *)
Fixpoint frag_cost (f : frag) : nat :=
  match f with Frag _ _ _ _ p => S (payload_cost p) end
with payload_cost (p : payload) : nat :=
  match p with Bytes _ => 1 | Frags fs => S (frags_cost fs) end
with frags_cost (fs : frags) : nat :=
  match fs with FNil => 1 | FCons f fs => S (frag_cost f + frags_cost fs) end.

(** The operations on a fragment, by the kind of its header. *)
Definition swap_kind (k : kind) : nat → mem → Z → bool → Z → res mem :=
  match k with KBank => swap_bank | KSegment => swap_segment | KTagsegment => swap_tagsegment end.
Definition loop_kind (k : kind) :=
  match k with KBank => bank_loop | KSegment => segment_loop | KTagsegment => tagsegment_loop end.

(** Length and type of the data, from the header at [p] in host order. *)
Definition parse_header (k : kind) (m : mem) (p : Z) : res (Z * Z) :=
  w0 ← load 4 m p;
  match k with
  | KBank => w1 ← load 4 m (p + 4); Ret (u32 (w0 - 1), Z.land (Z.shiftr w1 8) 0x3f)
  | KSegment => Ret (Z.land w0 0xffff, Z.land (Z.shiftr w0 16) 0x3f)
  | KTagsegment => Ret (Z.land w0 0xffff, Z.land (Z.shiftr w0 16) 0xf)
  end.

(** The words a fragment takes, from its first word. *)
Definition frag_words (k : kind) (w : Z) : Z :=
  match k with KBank => u32 (w + 1) | _ => Z.land w 0xffff + 1 end.

Lemma swap_kind_S k fuel m buf tolocal dest :
  swap_kind k (S fuel) m buf tolocal dest =
  ('(p, m) ← (if tolocal then swap_int32_t m buf (hdr_words k) dest else Ret (buf, m));
   '(len, type) ← parse_header k m p;
   '(_, m) ← (if tolocal then Ret (p, m) else swap_int32_t m buf (hdr_words k) dest);
   swap_data fuel m (buf + 4 * hdr_words k) type len tolocal (dest_at dest (hdr_words k))).
Proof.
  destruct k; cbn [swap_kind swap_bank swap_segment swap_tagsegment hdr_words].
  all: destruct (if tolocal then _ else Ret (buf, m)) as [[p m']| | |]; try done.
  all: unfold parse_header; cbn [mbind res_bind].
  all: destruct (load 4 m' p); try done; cbn [mbind res_bind].
  by destruct (load 4 m' (p + 4)).
Qed.

Lemma loop_kind_S k fuel m data l length tolocal dest :
  loop_kind k (S fuel) m data l length tolocal dest =
  (if l <? length then
     let p := data + 4 * l in
     let q := dest_at dest l in
     '(w, m) ← (if tolocal then
                  m ← swap_kind k fuel m p tolocal q;
                  w ← load 4 m (if dest =? NULL then p else q);
                  Ret (w, m)
                else
                  w ← load 4 m p;
                  m ← swap_kind k fuel m p tolocal q;
                  Ret (w, m));
     loop_kind k fuel m data (u32 (l + frag_words k w)) length tolocal dest
   else Ret m).
Proof.
  destruct k; cbn [loop_kind bank_loop segment_loop tagsegment_loop swap_kind frag_words].
  all: destruct (l <? length); [|done]; cbn zeta; destruct tolocal.
  all: try (destruct (_ fuel m _ true _) as [m'| | |]; try done; cbn [mbind res_bind];
            by destruct (load 4 m' _)).
  all: destruct (load 4 m (data + 4 * l)); try done; cbn [mbind res_bind];
       by destruct (_ fuel m _ false _).
Qed.

Lemma swap_data_container k fuel m data type length tolocal dest :
  kind_of type = Some k →
  swap_data (S fuel) m data type length tolocal dest =
  loop_kind k fuel m data 0 length tolocal dest.
Proof.
  unfold kind_of. intros Hk.
  destruct (decide (type = 0xe)) as [->|]; [by injection Hk as <-|].
  destruct (decide (type = 0x10)) as [->|]; [by injection Hk as <-|].
  destruct (decide (type = 0xd)) as [->|]; [by injection Hk as <-|].
  destruct (decide (type = 0x20)) as [->|]; [by injection Hk as <-|].
  destruct (decide (type = 0xc)) as [->|]; [by injection Hk as <-|].
  repeat (case_match; try (exfalso; lia)); done.
Qed.

(** ** Byte orders *)

Lemma length_order big w l :
  (length l = w * (length l / w))%nat → length (order big w l) = length l.
Proof. intros H. destruct big; [by apply length_swap_chunks|done]. Qed.

Lemma order_byte_ok big w l : Forall byte_ok l → Forall byte_ok (order big w l).
Proof. destruct big; [apply swap_chunks_byte_ok|done]. Qed.

Lemma order_flip big w n l :
  (0 < w)%nat → length l = (w * n)%nat →
  swap_chunks w n (order big w l) = order (negb big) w l.
Proof.
  intros Hw Hl. unfold order. rewrite Hl, Nat.mul_comm, Nat.div_mul by lia.
  destruct big; cbn; [|done]. apply swap_chunks_involutive. done.
Qed.

Lemma length_flat_le ws : length (flat_map (le 4) ws) = (4 * length ws)%nat.
Proof.
  induction ws as [|w ws IH]; [done|]. cbn [flat_map length].
  rewrite length_app, length_le, IH. lia.
Qed.

Lemma length_words_bytes big ws : length (words_bytes big ws) = (4 * length ws)%nat.
Proof.
  unfold words_bytes. rewrite length_order; rewrite length_flat_le; [done|].
  by rewrite (Nat.mul_comm 4 (length ws)), Nat.div_mul, Nat.mul_comm by lia.
Qed.

Lemma words_bytes_ok big ws : Forall byte_ok (words_bytes big ws).
Proof.
  apply order_byte_ok. induction ws; cbn [flat_map]; [constructor|].
  apply Forall_app. auto with evio.
Qed.

Lemma words_bytes_flip big ws :
  swap_chunks 4 (length ws) (words_bytes big ws) = words_bytes (negb big) ws.
Proof. apply order_flip; [lia|]. apply length_flat_le. Qed.

(** ** Source and destination of a structure and of its parts *)

Lemma dest_or_at dest data k :
  0 ≤ dest → 0 ≤ k → dest_or (dest_at dest k) (data + 4 * k) = dest_or dest data + 4 * k.
Proof.
  intros Hd Hk. unfold dest_or, dest_at, NULL in *.
  destruct (dest =? 0) eqn:E; [done|]. by replace (dest + 4 * k =? 0) with false by lia.
Qed.

Lemma dest_at_at dest k l : 0 ≤ dest → 0 ≤ k →
  dest_at (dest_at dest k) l = dest_at dest (k + l).
Proof.
  intros Hd Hk. unfold dest_at, NULL. destruct (dest =? 0) eqn:E; [done|].
  replace (dest + 4 * k =? 0) with false by lia. lia.
Qed.

Lemma dest_at_nonneg dest k : 0 ≤ dest → 0 ≤ k → 0 ≤ dest_at dest k.
Proof. unfold dest_at, NULL. case_match; lia. Qed.

Lemma dest_at_0 dest : dest_at dest 0 = dest.
Proof. unfold dest_at, NULL. case_match; lia. Qed.

Lemma swap_args_app m data dest l1 l2 k :
  0 ≤ dest → Z.of_nat (length l1) = 4 * k → swap_args m data dest (l1 ++ l2) →
  swap_args m data dest l1 ∧
  ∀ l1', length l1' = length l1 →
    swap_args (mwrite m (dest_or dest data) l1') (data + 4 * k) (dest_at dest k) l2.
Proof.
  intros Hdest Hk [Hs Hb Ha Hd].
  pose proof (proj1 (mread_split _ _ _ _) Hs) as [Hs1 Hs2].
  apply Forall_app in Hb as [Hb1 Hb2]. rewrite length_app in *.
  split.
  - split; [done..| |]; [eapply allocated_sub; [done|lia..]|].
    unfold same_or_disjoint, disjoint_ranges in *. lia.
  - intros l1' Hl. split; [|done| |]; rewrite ?dest_or_at by lia.
    + rewrite mread_mwrite_disj; [by rewrite <- Hk|].
      unfold same_or_disjoint, disjoint_ranges in *. lia.
    + apply allocated_mwrite. eapply allocated_sub; [done|lia..].
    + unfold same_or_disjoint, disjoint_ranges in *. lia.
Qed.

(** The words of a header, in host order. *)
Lemma load_words m p ws i w :
  Forall u32_ok ws → mread m p (4 * length ws) = Some (words_bytes false ws) →
  ws !! i = Some w → load 4 m (p + 4 * Z.of_nat i) = Ret w.
Proof.
  unfold words_bytes. cbn [order]. revert p i.
  induction ws as [|w0 ws IH]; intros p i Hok Hm Hi; [done|].
  inversion Hok as [|? ? Hw Hok']; subst. cbn [flat_map] in Hm.
  replace (4 * length (w0 :: ws))%nat with (4 + 4 * length ws)%nat in Hm by (cbn [length]; lia).
  apply mread_app_inv in Hm as [H1 H2].
  rewrite take_app_le, take_ge in H1 by (rewrite length_le; lia).
  rewrite drop_app_ge, length_le, drop_0 in H2 by (rewrite length_le; lia).
  destruct i as [|i].
  - injection Hi as ->. rewrite Z.add_0_r, (load_ok _ _ _ _ H1), le_val_le.
    by rewrite Z.mod_small.
  - cbn [lookup list_lookup] in Hi. rewrite <- (IH (p + 4) i Hok' H2 Hi). f_equal. lia.
Qed.

Lemma header_u32 k tag pad type num len :
  header_ok k tag pad type num len = true → Forall u32_ok (header k tag pad type num len).
Proof.
  unfold header_ok. intros H. destruct k; cbn [header];
    repeat (constructor; unfold u32_ok); lia.
Qed.

(** A field of a header word: [w] is [hi * 2^s + mid * 2^j + lo]. *)
Lemma field_of_word w j n hi mid lo :
  0 ≤ j → 0 ≤ n → w = (hi * 2 ^ n + mid) * 2 ^ j + lo → 0 ≤ mid < 2 ^ n → 0 ≤ lo < 2 ^ j →
  Z.land (Z.shiftr w j) (Z.ones n) = mid.
Proof.
  intros Hj Hn -> Hmid Hlo. rewrite Z.land_ones, Z.shiftr_div_pow2 by lia.
  rewrite Z.div_add_l, (Z.div_small lo), Z.add_0_r by lia.
  rewrite Z.add_comm, Z.mod_add by lia. by apply Z.mod_small.
Qed.

Lemma low_field w hi len :
  w = hi * 65536 + len → 0 ≤ len < 65536 → Z.land w 0xffff = len.
Proof. 
  intros -> H. change 0xffff with (Z.ones 16). rewrite Z.land_ones by lia.
  change (2 ^ 16) with 65536. rewrite Z.add_comm, Z.mod_add by lia. by apply Z.mod_small.
Qed.

Lemma parse_header_spec m p k tag pad type num len :
  header_ok k tag pad type num len = true →
  mread m p (4 * length (header k tag pad type num len)) =
    Some (words_bytes false (header k tag pad type num len)) →
  parse_header k m p = Ret (len, type).
Proof.
  intros Hok Hm. pose proof (header_u32 _ _ _ _ _ _ Hok) as Hu.
  pose proof (λ i w, load_words _ _ _ i w Hu Hm) as Hl. unfold header_ok in Hok.
  unfold parse_header. destruct k; cbn [header] in Hl.
  - pose proof (Hl 0%nat _ eq_refl) as H0. pose proof (Hl 1%nat _ eq_refl) as H1.
    rewrite Z.add_0_r in H0. change (4 * Z.of_nat 1) with 4 in H1.
    rewrite H0, H1. cbn [mbind res_bind]. do 2 f_equal.
    + unfold u32. rewrite Z.mod_small; lia.
    + apply (field_of_word _ 8 6 (tag * 4 + pad) type num); lia.
  - pose proof (Hl 0%nat _ eq_refl) as H0. rewrite Z.add_0_r in H0. rewrite H0.
    cbn [mbind res_bind]. do 2 f_equal.
    + apply (low_field _ (tag * 256 + pad * 64 + type)); lia.
    + apply (field_of_word _ 16 6 (tag * 4 + pad) type len); lia.
  - pose proof (Hl 0%nat _ eq_refl) as H0. rewrite Z.add_0_r in H0. rewrite H0.
    cbn [mbind res_bind]. do 2 f_equal.
    + apply (low_field _ (tag * 16 + type)); lia.
    + apply (field_of_word _ 16 4 tag type len); lia.
Qed.

Lemma first_word_spec m p k tag pad type num len l :
  header_ok k tag pad type num len = true →
  mread m p (length (words_bytes false (header k tag pad type num len) ++ l)) =
    Some (words_bytes false (header k tag pad type num len) ++ l) →
  ∃ w, load 4 m p = Ret w ∧ frag_words k w = hdr_words k + len.
Proof.
  intros Hok Hm. apply mread_split in Hm as [Hm _].
  rewrite length_words_bytes in Hm. pose proof (header_u32 _ _ _ _ _ _ Hok) as Hu.
  pose proof (λ i w, load_words _ _ _ i w Hu Hm) as Hl. unfold header_ok in Hok.
  rewrite <- (Z.add_0_r p). destruct k; eexists;
    (split; [exact (Hl 0%nat _ eq_refl)|]); cbn [frag_words hdr_words].
  - unfold u32. rewrite Z.mod_small; lia.
  - rewrite (Z.add_comm 1). f_equal.
    apply (low_field _ (tag * 256 + pad * 64 + type)); lia.
  - rewrite (Z.add_comm 1). f_equal. apply (low_field _ (tag * 16 + type)); lia.
Qed.

(** What [leaf_ok] says of the sizes. *)
Lemma leaf_ok_sizes type l len :
  leaf_ok type l = true → Z.of_nat (length l) = 4 * len →
  type ≠ 0xf ∧ kind_of type = None ∧ Forall byte_ok l ∧ 0 ≤ len < 2147483648 ∧
  ∃ n, length l = (width_of type * n)%nat ∧
       (width_of type = 8%nat → Z.of_nat n = len / 2) ∧ (width_of type = 4%nat → Z.of_nat n = len).
Proof.
  unfold leaf_ok. intros Hok Hlen.
  apply andb_prop in Hok as [[[[Ht Hk]%andb_prop Hb]%andb_prop Hs]%andb_prop Hm].
  split_and!; [lia|by apply bool_decide_eq_true in Hk| |lia|lia|].
  { apply Forall_lookup. intros i x Hx%list_elem_of_lookup_2. rewrite list_elem_of_In in Hx.
    rewrite forallb_forall in Hb. specialize (Hb x Hx). unfold byte_ok. lia. }
  assert (width_of type = 8%nat ∨ width_of type = 4%nat ∨ width_of type = 2%nat ∨
          width_of type = 1%nat) as Hw.
  { unfold width_of. repeat case_match; auto. }
  destruct Hw as [Hw|[Hw|[Hw|Hw]]]; rewrite Hw in *; cbn [Nat.eqb] in *.
  - assert (4 * len = 8 * (len / 2)) as Hd.
    { apply Z.eqb_eq in Hm. rewrite Hlen in Hm. clear -Hm.
      replace (4 * len) with (len * 4) in Hm by lia. change 8 with (2 * 4) in Hm.
      rewrite Zmult_mod_distr_r in Hm. pose proof (Z.div_mod len 2). lia. }
    exists (Z.to_nat (len / 2)). split_and!; intros; lia.
  - exists (Z.to_nat len). split_and!; intros; lia.
  - exists (Z.to_nat (2 * len)). split_and!; intros; lia.
  - exists (length l). split_and!; intros; lia.
Qed.

Lemma order_1 big l : order big 1 l = l.
Proof. destruct big; cbn [order]; [|done]. rewrite Nat.div_1_r. by apply swap_chunks_1. Qed.

Lemma leaf_order_length type l len big :
  leaf_ok type l = true → Z.of_nat (length l) = 4 * len →
  length (order big (width_of type) l) = length l.
Proof.
  intros Hok Hlen. destruct (leaf_ok_sizes _ _ _ Hok Hlen) as (_&_&_&_&n&Hn&_).
  apply length_order. rewrite Hn. destruct (width_of type) as [|w]; [done|].
  by rewrite (Nat.mul_comm _ n), Nat.div_mul, Nat.mul_comm by lia.
Qed.

(** Every leaf type: conversion or copy. *)
Lemma swap_data_leaf fuel m data type len tolocal dest big l :
  leaf_ok type l = true → Z.of_nat (length l) = 4 * len →
  swap_args m data dest (order big (width_of type) l) →
  swap_data (S fuel) m data type len tolocal dest =
  Ret (mwrite m (dest_or dest data) (order (negb big) (width_of type) l)).
Proof.
  intros Hok Hlen Ha. pose proof (leaf_order_length _ _ _ big Hok Hlen) as Hl.
  destruct (leaf_ok_sizes _ _ _ Hok Hlen) as (Ht & Hk & _ & Hlt & n & Hn & H8 & H4).
  unfold width_of, kind_of in *. cbn [swap_data].
  destruct ((type =? 1) || (type =? 2) || (type =? 11)) eqn:E4.
  { replace (type =? 0) with false by lia. specialize (H4 eq_refl).
    erewrite swap_int32_t_spec by (done || lia). cbn.
    rewrite (order_flip big _ (Z.to_nat len)); (done || lia). }
  destruct ((type =? 4) || (type =? 5)) eqn:E2.
  { replace (type =? 0) with false by lia.
    replace ((type =? 3) || (type =? 6) || (type =? 7)) with false by lia.
    replace (u32 (len * 2)) with (len * 2) by (unfold u32; rewrite Z.mod_small; lia).
    erewrite swap_int16_t_spec by (done || lia). cbn.
    rewrite (order_flip big _ (Z.to_nat (len * 2))); (done || lia). }
  destruct ((type =? 8) || (type =? 9) || (type =? 10)) eqn:E8.
  { replace (type =? 0) with false by lia. specialize (H8 eq_refl).
    replace ((type =? 3) || (type =? 6) || (type =? 7)) with false by lia.
    erewrite swap_int64_t_spec by (done || lia). cbn.
    rewrite (order_flip big _ (Z.to_nat (len / 2))); (done || lia). }
  rewrite order_1 in *. replace (type =? 15) with false by lia.
  destruct ((type =? 14) || (type =? 16)) eqn:?; [done|].
  destruct ((type =? 13) || (type =? 32)) eqn:?; [done|].
  destruct (type =? 12) eqn:?; [done|].
  repeat case_match; (apply copy_data_spec; (done || lia)).
Qed.

(** ** Lengths *)

Lemma header_length k tag pad type num len :
  Z.of_nat (length (header k tag pad type num len)) = hdr_words k.
Proof. by destruct k. Qed.

Lemma enc_length big :
  (∀ f k, frag_ok k f = true →
     Z.of_nat (length (enc_frag big k f)) = 4 * frag_len k f ∧ 0 < frag_len k f) ∧
  (∀ p type, payload_ok type p = true →
     Z.of_nat (length (enc_payload big type p)) = 4 * payload_len type p ∧
     0 ≤ payload_len type p) ∧
  (∀ fs k, frags_ok k fs = true →
     Z.of_nat (length (enc_frags big k fs)) = 4 * frags_len k fs ∧ 0 ≤ frags_len k fs).
Proof.
  apply frag_mutind.
  - intros tag pad type num p IH k [_ Hp]%andb_prop. destruct (IH type Hp) as [Hl Hpos].
    cbn [enc_frag frag_len]. rewrite length_app, length_words_bytes, Nat2Z.inj_add, Hl.
    pose proof (header_length k tag pad type num (payload_len type p)).
    destruct k; cbn [hdr_words] in *; lia.
  - intros l type Hok. cbn [enc_payload payload_len payload_ok] in *.
    assert (Z.of_nat (length l) = 4 * (Z.of_nat (length l) / 4)) as Hl.
    { unfold leaf_ok in Hok. apply andb_prop in Hok as [_ Hm%Z.eqb_eq].
      apply Z.mod_divide in Hm as [c Hm]; [|by case_match].
      rewrite Hm. case_match; [replace (c * 8) with (c * 2 * 4) by lia|];
        rewrite Z.div_mul; lia. }
    rewrite (leaf_order_length _ _ _ big Hok Hl). split; [done|]. apply Z.div_pos; lia.
  - intros fs IH type Hok. cbn [payload_ok enc_payload payload_len] in *.
    destruct (kind_of type) as [k|]; [|done]. by apply IH.
  - done.
  - intros f IHf fs IHfs k [Hf Hfs]%andb_prop.
    destruct (IHf k Hf), (IHfs k Hfs). cbn [enc_frags frags_len].
    rewrite length_app. lia.
Qed.

(** The header part of [swap_kind], in either direction. *)
Lemma swap_header {A} (k : kind) m buf dest tolocal tag pad type num len l
    (f : Z → Z → mem → res A) :
  header_ok k tag pad type num len = true → 0 ≤ dest →
  swap_args m buf dest (words_bytes tolocal (header k tag pad type num len) ++ l) →
  ('(p, m) ← (if tolocal then swap_int32_t m buf (hdr_words k) dest else Ret (buf, m));
   '(len, type) ← parse_header k m p;
   '(_, m) ← (if tolocal then Ret (p, m) else swap_int32_t m buf (hdr_words k) dest);
   f len type m) =
  f len type (mwrite m (dest_or dest buf)
                (words_bytes (negb tolocal) (header k tag pad type num len))).
Proof.
  intros Hok Hdest Ha. set (h := header k tag pad type num len) in *.
  pose proof (header_length k tag pad type num len) as Hh. fold h in Hh.
  assert (Z.of_nat (length (words_bytes tolocal h)) = 4 * hdr_words k) as Hwl
    by (rewrite length_words_bytes; lia).
  destruct (swap_args_app _ _ _ _ _ _ Hdest Hwl Ha) as [Hs _].
  assert (swap_int32_t m buf (hdr_words k) dest =
          Ret (dest_or dest buf, mwrite m (dest_or dest buf) (words_bytes (negb tolocal) h)))
    as Hsw.
  { erewrite swap_int32_t_spec; [|done|rewrite length_words_bytes; lia].
    by rewrite <- Hh, Nat2Z.id, words_bytes_flip. }
  destruct tolocal.
  - rewrite Hsw. cbn [mbind res_bind].
    erewrite parse_header_spec; [done|exact Hok|].
    fold h. apply mread_mwrite_same. by rewrite length_words_bytes.
  - cbn [mbind res_bind].
    erewrite parse_header_spec; [cbn [mbind res_bind]; by rewrite Hsw|exact Hok|].
    destruct Hs as [Hs _ _ _]. by rewrite length_words_bytes in Hs.
Qed.

(** The number of words of the fragment that the loops read on the local side. *)
Lemma first_word_of_frag m p k f :
  frag_ok k f = true → mread m p (length (enc_frag false k f)) = Some (enc_frag false k f) →
  ∃ w, load 4 m p = Ret w ∧ frag_words k w = frag_len k f.
Proof.
  destruct f as [tag pad type num pl]. intros [Hh _]%andb_prop.
  apply first_word_spec. done.
Qed.

Lemma swap_spec :
  (∀ f k fuel m buf dest tolocal,
     frag_ok k f = true → (frag_cost f ≤ fuel)%nat → 0 ≤ dest →
     swap_args m buf dest (enc_frag tolocal k f) →
     swap_kind k fuel m buf tolocal dest =
     Ret (mwrite m (dest_or dest buf) (enc_frag (negb tolocal) k f))) ∧
  (∀ p type fuel m data dest tolocal,
     payload_ok type p = true → (payload_cost p ≤ fuel)%nat → 0 ≤ dest →
     payload_len type p < 4294967296 →
     swap_args m data dest (enc_payload tolocal type p) →
     swap_data fuel m data type (payload_len type p) tolocal dest =
     Ret (mwrite m (dest_or dest data) (enc_payload (negb tolocal) type p))) ∧
  (∀ fs k fuel m data l dest tolocal,
     frags_ok k fs = true → (frags_cost fs ≤ fuel)%nat → 0 ≤ dest → 0 ≤ l →
     l + frags_len k fs < 4294967296 →
     swap_args m (data + 4 * l) (dest_at dest l) (enc_frags tolocal k fs) →
     loop_kind k fuel m data l (l + frags_len k fs) tolocal dest =
     Ret (mwrite m (dest_or dest data + 4 * l) (enc_frags (negb tolocal) k fs))).
Proof.
  apply frag_mutind.
  - intros tag pad type num p IH k fuel m buf dest tolocal [Hh Hp]%andb_prop Hf Hd Ha.
    cbn [frag_cost] in Hf. destruct fuel as [|fuel]; [lia|].
    cbn [enc_frag] in *. set (len := payload_len type p) in *.
    rewrite swap_kind_S, (swap_header _ _ _ _ _ tag pad type num len _ _ Hh Hd Ha).
    pose proof (header_length k tag pad type num len) as Hl.
    assert (Z.of_nat (length (words_bytes tolocal (header k tag pad type num len))) =
            4 * hdr_words k) as Hwl by (rewrite length_words_bytes; lia).
    destruct (swap_args_app _ _ _ _ _ _ Hd Hwl Ha) as [_ Ha2].
    assert (0 ≤ hdr_words k) by (by destruct k).
    unfold len. rewrite IH; [|done|lia|by apply dest_at_nonneg| |].
    + rewrite dest_or_at, mwrite_app, length_words_bytes by done. do 3 f_equal. fold len. lia.
    + unfold header_ok in Hh. fold len. destruct k; lia.
    + apply Ha2. by rewrite !length_words_bytes.
  - intros l type fuel m data dest tolocal Hok Hf Hd Hlt Ha. cbn [payload_cost] in Hf.
    destruct fuel as [|fuel]; [lia|]. cbn [payload_ok payload_len enc_payload] in *.
    apply swap_data_leaf; [done| |done].
    destruct (proj1 (proj2 (enc_length false)) (Bytes l) type Hok) as [Hl _]. exact Hl.
  - intros fs IH type fuel m data dest tolocal Hok Hf Hd Hlt Ha. cbn [payload_cost] in Hf.
    destruct fuel as [|fuel]; [lia|]. cbn [payload_ok payload_len enc_payload] in *.
    destruct (kind_of type) as [k|] eqn:Hk; [|done]. cbn [default] in *.
    rewrite (swap_data_container k) by done.
    pose proof (IH k fuel m data 0 dest tolocal Hok ltac:(lia) Hd ltac:(lia) Hlt) as H.
    rewrite dest_at_0, !Z.add_0_r in H. by apply H.
  - intros k fuel m data l dest tolocal _ Hf Hd Hl Hlt Ha. cbn [frags_cost] in Hf.
    destruct fuel as [|fuel]; [lia|]. rewrite loop_kind_S. cbn [frags_len].
    by replace (l <? l + 0) with false by lia.
  - intros f IHf fs IHfs k fuel m data l dest tolocal [Hok1 Hok2]%andb_prop Hf Hd Hl Hlt Ha.
    cbn [frags_cost frags_len enc_frags] in *. destruct fuel as [|fuel]; [lia|].
    destruct (proj1 (enc_length tolocal) f k Hok1) as [Hlen Hpos].
    destruct (proj1 (enc_length (negb tolocal)) f k Hok1) as [Hlen' _].
    destruct (proj2 (proj2 (enc_length false)) fs k Hok2) as [_ Hpos2].
    rewrite loop_kind_S. replace (l <? _) with true by lia. cbn zeta.
    destruct (swap_args_app _ _ _ _ _ (frag_len k f) (dest_at_nonneg _ _ Hd Hl) Hlen Ha)
      as [Ha1 Ha2].
    rewrite (IHf k fuel m (data + 4 * l) (dest_at dest l) tolocal)
      by (done || lia || by apply dest_at_nonneg).
    rewrite dest_or_at in * by done.
    specialize (Ha2 (enc_frag (negb tolocal) k f) ltac:(lia)).
    set (m' := mwrite m _ _) in *.
    assert (∃ w, frag_words k w = frag_len k f ∧
      (if tolocal then
         m ← Ret m';
         w ← load 4 m (if dest =? NULL then data + 4 * l else dest_at dest l); Ret (w, m)
       else w ← load 4 m (data + 4 * l); m ← Ret m'; Ret (w, m)) = Ret (w, m'))
      as (w & Hw & ->).
    { destruct tolocal; cbn [mbind res_bind negb] in *.
      - destruct (first_word_of_frag m' (dest_or dest data + 4 * l) k f Hok1) as (w & Hld & Hw).
        { by apply mread_mwrite_same. }
        exists w. split; [done|].
        replace (if dest =? NULL then _ else _) with (dest_or dest data + 4 * l).
        { by rewrite Hld. }
        unfold dest_or, dest_at. by case_match.
      - destruct (first_word_of_frag m (data + 4 * l) k f Hok1) as (w & Hld & Hw).
        { by destruct Ha1. }
        exists w. split; [done|]. by rewrite Hld. }
    cbn [mbind res_bind]. rewrite Hw.
    replace (u32 (l + frag_len k f)) with (l + frag_len k f)
      by (unfold u32; rewrite Z.mod_small; lia).
    replace (l + (frag_len k f + frags_len k fs)) with (l + frag_len k f + frags_len k fs) by lia.
    rewrite IHfs; [|done|lia|done|lia|lia|].
    + rewrite mwrite_app. fold m'. do 2 f_equal. rewrite Hlen'. lia.
    + rewrite dest_at_at in Ha2 by done.
      replace (data + 4 * (l + frag_len k f)) with (data + 4 * l + 4 * frag_len k f) by lia.
      exact Ha2.
Qed.

(** Four steps of the interpreter for each word of the structure are enough. *)
Lemma cost_bound :
  (∀ f k, frag_ok k f = true → Z.of_nat (frag_cost f) ≤ 4 * frag_len k f - 1) ∧
  (∀ p type, payload_ok type p = true → Z.of_nat (payload_cost p) ≤ 4 * payload_len type p + 2) ∧
  (∀ fs k, frags_ok k fs = true → Z.of_nat (frags_cost fs) ≤ 4 * frags_len k fs + 1).
Proof.
  apply frag_mutind; cbn [frag_cost payload_cost frags_cost frag_len payload_len frags_len].
  - intros tag pad type num p IH k [_ Hp]%andb_prop. specialize (IH type Hp).
    destruct k; cbn [hdr_words]; lia.
  - intros l type _. pose proof (Z.div_pos (Z.of_nat (length l)) 4). lia.
  - intros fs IH type Hok. cbn [payload_ok] in Hok.
    destruct (kind_of type) as [k|]; [|done]. cbn [default]. specialize (IH k Hok). unfold id. lia.
  - lia.
  - intros f IHf fs IHfs k [Hf Hfs]%andb_prop. specialize (IHf k Hf). specialize (IHfs k Hfs). lia.
Qed.

Lemma evioswap_spec fuel m buf tolocal dest f :
  frag_ok KBank f = true → 4 * frag_len KBank f ≤ Z.of_nat fuel → 0 ≤ dest →
  swap_args m buf dest (enc_frag tolocal KBank f) →
  evioswap fuel m buf tolocal dest =
  Ret (mwrite m (dest_or dest buf) (enc_frag (negb tolocal) KBank f)).
Proof.
  intros Hok Hf Hd Ha. pose proof (proj1 cost_bound f KBank Hok).
  apply (proj1 swap_spec f KBank); [done|lia|done|done].
Qed.

Lemma enc_bytes big :
  (∀ f k, frag_ok k f = true → Forall byte_ok (enc_frag big k f)) ∧
  (∀ p type, payload_ok type p = true → Forall byte_ok (enc_payload big type p)) ∧
  (∀ fs k, frags_ok k fs = true → Forall byte_ok (enc_frags big k fs)).
Proof.
  apply frag_mutind; cbn [enc_frag enc_payload enc_frags].
  - intros tag pad type num p IH k [_ Hp]%andb_prop.
    apply Forall_app. split; [apply words_bytes_ok|by apply IH].
  - intros l type Hok. apply order_byte_ok. cbn [payload_ok] in Hok.
    destruct (proj1 (proj2 (enc_length false)) (Bytes l) type Hok) as [Hl _].
    cbn [enc_payload order payload_len] in Hl.
    by destruct (leaf_ok_sizes type l _ Hok Hl) as (_ & _ & ? & _).
  - intros fs IH type Hok. cbn [payload_ok] in Hok.
    destruct (kind_of type) as [k|]; [by apply IH|done].
  - constructor.
  - intros f IHf fs IHfs k [Hf Hfs]%andb_prop. apply Forall_app. auto.
Qed.

(** C28: [evioswap] is correct and complete on every well-formed evio structure that has
    no composite data: whatever the nesting of banks, segments and tagsegments, it
    turns the big-endian encoding of the structure into the little-endian one, or the
    other way round, in place or into a separate buffer, and changes no other byte. *)
Theorem evioswap_converts (fuel : nat) (m : mem) (buf : Z) (tolocal : bool) (dest : Z) (f : frag) :
  frag_ok KBank f = true → 4 * frag_len KBank f ≤ Z.of_nat fuel → 0 ≤ dest →
  swap_args m buf dest (enc_frag tolocal KBank f) →
  evioswap fuel m buf tolocal dest =
  Ret (mwrite m (dest_or dest buf) (enc_frag (negb tolocal) KBank f)).
Proof. apply evioswap_spec. Qed.

(** A bank of banks, with a segment, an array of 16-bit words and a string. *)
Definition example_event : frag :=
  Frag 1 0 0x10 7 (Frags
    (FCons (Frag 2 2 0x5 8 (Bytes [1; 0; 2; 0; 3; 0; 0; 0]))
    (FCons (Frag 3 0 0x20 9 (Frags (FCons (Frag 4 0 0x8 0 (Bytes [1; 2; 3; 4; 5; 6; 7; 8])) FNil)))
    (FCons (Frag 5 0 0xc 0 (Frags (FCons (Frag 6 0 0x3 0 (Bytes [104; 105; 0; 4])) FNil)))
    FNil)))).

Definition mem_of (p : Z) (l : list Z) : mem := mwrite ∅ p l.

Lemma evioswap_converts_witness :
  frag_ok KBank example_event = true ∧
  evioswap 100 (mwrite (mem_of 1000 (enc_frag true KBank example_event)) 4000
                  (replicate 64 0)) 1000 true 4000 =
  Ret (mwrite (mwrite (mem_of 1000 (enc_frag true KBank example_event)) 4000
                  (replicate 64 0)) (dest_or 4000 1000) (enc_frag false KBank example_event)).
Proof.
  split; [reflexivity|].
  apply (evioswap_converts 100 _ 1000 true 4000 example_event).
  - reflexivity.
  - vm_compute. discriminate.
  - lia.
  - split.
    + vm_compute. reflexivity.
    + apply (bool_decide_unpack _). vm_compute. exact I.
    + unfold allocated. eexists. vm_compute. reflexivity.
    + right. left. vm_compute. discriminate.
Defined.



(** An event of two composite elements, each the format "I" and one integer. *)
Definition composite_element : list Z :=
  words_bytes false [3 * 65536 + 1] ++ [73; 0; 4; 4] ++ words_bytes false [2; 0x100; 5].
Definition composite_array : list Z :=
  words_bytes false [11; 0xf00] ++ composite_element ++ composite_element.
Definition composite_mem : mem := mwrite (mem_of 1000 composite_array) 4000 (replicate 48 0).

(** An array of two composite elements is swapped into another buffer, but not in
    place: after the first element the C code advances its NULL [dest] and passes it as
    the place to write the header of the second, an access to an address of no object. *)
Theorem swap_composite_array_in_place :
  (∃ m, evioswap 100 composite_mem 1000 false 4000 = Ret m ∧ m !! 4024 = Some 0 ∧ m !! 4047 = Some 5) ∧
  evioswap 100 composite_mem 1000 false NULL = Undef.
Proof.
  split; [|by vm_compute].
  destruct (evioswap 100 composite_mem 1000 false 4000) as [m| | |] eqn:E;
    vm_compute in E; [|done..].
  exists m. split; [done|]. injection E as <-. by vm_compute.
Qed.
