(* ===== verification/EvioTypes.v ===== *)
(** * Status codes and data types (evio.h lines 33-55, evio.c lines 6066-6240)

    The status codes are the [int] values the functions return, so the codes
    above [INT_MAX] are negative.  [evGetTypename], [evIsContainer] and
    [evPerror] are tables; the theorems tie them to the type codes that the swap
    routines recognise. *)

From S2P Require Import Prelude Words CString Memory EvioFmt EvioSwapArrays EvioFmtSwap.
From S2P Require Import EvioSwap.

Definition S_SUCCESS : Z := 0.
Definition S_FAILURE : Z := -1.
Definition S_EVFILE : Z := s32 0x00730000.
Definition S_EVFILE_TRUNC : Z := s32 0x40730001.
Definition S_EVFILE_BADBLOCK : Z := s32 0x40730002.
Definition S_EVFILE_BADHANDLE : Z := s32 0x80730001.
Definition S_EVFILE_ALLOCFAIL : Z := s32 0x80730002.
Definition S_EVFILE_BADFILE : Z := s32 0x80730003.
Definition S_EVFILE_UNKOPTION : Z := s32 0x80730004.
Definition S_EVFILE_UNXPTDEOF : Z := s32 0x80730005.
Definition S_EVFILE_BADSIZEREQ : Z := s32 0x80730006.
Definition S_EVFILE_BADARG : Z := s32 0x80730007.
Definition S_EVFILE_BADMODE : Z := s32 0x80730008.

(** The modes of a handle and the constants of the block format, evio.c lines 93-140. *)
Definition EV_READFILE : Z := 0.
Definition EV_READPIPE : Z := 1.
Definition EV_READSOCK : Z := 2.
Definition EV_READBUF : Z := 3.
Definition EV_WRITEFILE : Z := 4.
Definition EV_WRITEPIPE : Z := 5.
Definition EV_WRITESOCK : Z := 6.
Definition EV_WRITEBUF : Z := 7.
Definition EV_VERSION : Z := 4.
Definition EV_HDSIZ : Z := 8.
Definition EV_MAGIC : Z := 0xc0da0100.
Definition EV_BLOCKSIZE_V3 : Z := 8192.
Definition EV_BLOCKSIZE_V4 : Z := 64000.
Definition EV_BLOCKSIZE_MIN : Z := 256.
Definition EV_BLOCKSIZE_MAX : Z := 25600000.
Definition EV_VERSION_MASK : Z := 0xFF.
Definition EV_DICTIONARY_MASK : Z := 0x100.
Definition EV_LASTBLOCK_MASK : Z := 0x200.
Definition EV_FIRSTEVENT_MASK : Z := 0x4000.
Definition EV_EVENTS_MAX : Z := 100000.
Definition EV_EVENTS_MAX_DEF : Z := 10000.
Definition EV_SPLIT_SIZE : Z := 2000000000.

Definition evGetTypename (type : Z) : string :=
  if type =? 0x0 then "unknown32"%string
  else if type =? 0x1 then "uint32"%string
  else if type =? 0x2 then "float32"%string
  else if type =? 0x3 then "string"%string
  else if type =? 0x4 then "int16"%string
  else if type =? 0x5 then "uint16"%string
  else if type =? 0x6 then "int8"%string
  else if type =? 0x7 then "uint8"%string
  else if type =? 0x8 then "float64"%string
  else if type =? 0x9 then "int64"%string
  else if type =? 0xa then "uint64"%string
  else if type =? 0xb then "int32"%string
  else if (type =? 0xe) || (type =? 0x10) then "bank"%string
  else if (type =? 0xd) || (type =? 0x20) then "segment"%string
  else if type =? 0xc then "tagsegment"%string
  else if type =? 0xf then "composite"%string
  else "unknown"%string.

Definition evIsContainer (type : Z) : Z :=
  if (type =? 0xc) || (type =? 0xd) || (type =? 0xe) || (type =? 0x10) || (type =? 0x20)
  then 1 else 0.

(** The text left in the static array [temp]. *)
Definition evPerror (error : Z) : list Z :=
  if error =? S_SUCCESS then cs "S_SUCCESS:  action completed successfully" ++ [10]
  else if error =? S_FAILURE then cs "S_FAILURE:  action failed" ++ [10]
  else if error =? S_EVFILE then cs "S_EVFILE:  evfile.msg event file I/O" ++ [10]
  else if error =? S_EVFILE_TRUNC then
    cs "S_EVFILE_TRUNC:  event truncated, insufficient buffer space" ++ [10]
  else if error =? S_EVFILE_BADBLOCK then
    cs "S_EVFILE_BADBLOCK:  bad block (header) number" ++ [10]
  else if error =? S_EVFILE_BADHANDLE then
    cs "S_EVFILE_BADHANDLE:  bad handle (closed?) or no memory to create new handle" ++ [10]
  else if error =? S_EVFILE_BADFILE then cs "S_EVFILE_BADFILE:  bad file format" ++ [10]
  else if error =? S_EVFILE_BADARG then
    cs "S_EVFILE_BADARG:  invalid function argument" ++ [10]
  else if error =? S_EVFILE_ALLOCFAIL then
    cs "S_EVFILE_ALLOCFAIL:  failed to allocate memory" ++ [10]
  else if error =? S_EVFILE_UNKOPTION then
    cs "S_EVFILE_UNKOPTION:  unknown option specified" ++ [10]
  else if error =? S_EVFILE_UNXPTDEOF then
    cs "S_EVFILE_UNXPTDEOF:  unexpected end-of-file or end-of-valid_data while reading" ++ [10]
  else if error =? S_EVFILE_BADSIZEREQ then
    cs "S_EVFILE_BADSIZEREQ:  invalid buffer size request to evIoct" ++ [10]
  else if error =? S_EVFILE_BADMODE then
    cs "S_EVFILE_BADMODE:  invalid operation for current evOpen() mode" ++ [10]
  else cs "?evPerror...no such error: " ++ print_int error ++ [10].

Definition evio_status : list Z :=
  [S_SUCCESS; S_FAILURE; S_EVFILE; S_EVFILE_TRUNC; S_EVFILE_BADBLOCK; S_EVFILE_BADHANDLE;
   S_EVFILE_BADFILE; S_EVFILE_BADARG; S_EVFILE_ALLOCFAIL; S_EVFILE_UNKOPTION;
   S_EVFILE_UNXPTDEOF; S_EVFILE_BADSIZEREQ; S_EVFILE_BADMODE].

Lemma evPerror_cases e :
  e ∈ evio_status ∨
  e ∉ evio_status ∧ evPerror e = cs "?evPerror...no such error: " ++ print_int e ++ [10].
Proof.
  destruct (decide (e ∈ evio_status)) as [H|H]; [by left|right; split; [done|]].
  unfold evio_status in H. rewrite !not_elem_of_cons in H. unfold evPerror.
  repeat match goal with |- context [e =? ?c] =>
    destruct (Z.eqb_spec e c) as [->|_]; [naive_solver|] end.
  done.
Qed.

Lemma known_messages_differ e1 e2 :
  e1 ∈ evio_status → e2 ∈ evio_status → evPerror e1 = evPerror e2 → e1 = e2.
Proof.
  assert (forallb (λ a, forallb (λ b, bool_decide (evPerror a = evPerror b → a = b))
                          evio_status) evio_status = true) as Hall by (by vm_compute).
  rewrite forallb_forall in Hall. intros H1 H2 H. rewrite !list_elem_of_In in *.
  specialize (Hall e1 H1). rewrite forallb_forall in Hall. specialize (Hall e2 H2).
  apply bool_decide_eq_true in Hall. by apply Hall.
Qed.

Lemma known_message_head e : e ∈ evio_status → head (evPerror e) = Some (chr "S").
Proof.
  assert (forallb (λ a, bool_decide (head (evPerror a) = Some (chr "S"))) evio_status = true)
    as Hall by (by vm_compute).
  rewrite forallb_forall in Hall. intros H. rewrite list_elem_of_In in H.
  by apply Hall, bool_decide_eq_true in H.
Qed.

(** Every [int] is reported with its own message: two different status values,
    known or not, never give the same text. *)
Theorem evPerror_injective (e1 e2 : Z) :
  -2147483648 ≤ e1 < 2147483648 → -2147483648 ≤ e2 < 2147483648 →
  evPerror e1 = evPerror e2 → e1 = e2.
Proof.
  intros H1 H2 H.
  destruct (evPerror_cases e1) as [K1|[U1 T1]], (evPerror_cases e2) as [K2|[U2 T2]].
  - by apply known_messages_differ.
  - apply known_message_head in K1. by rewrite H, T2 in K1.
  - apply known_message_head in K2. by rewrite <- H, T1 in K2.
  - rewrite T1, T2 in H. apply app_inv_head, app_inv_tail in H. by apply print_int_inj.
Qed.

Lemma evPerror_injective_witness : S_FAILURE = -1.
Proof.
  apply (evPerror_injective S_FAILURE (-1)); [split; [by vm_compute|done]|lia|].
  vm_compute. reflexivity.
Defined.

(** [evIsContainer] agrees with the swap routines and with [evGetTypename]: the
    types it accepts are those whose data [swap_data] treats as fragments, and they
    are the types named bank, segment or tagsegment. *)
Theorem evIsContainer_spec (type : Z) :
  (evIsContainer type = 1 ↔ is_Some (kind_of type)) ∧
  (evIsContainer type = 1 ↔ evGetTypename type ∈ ["bank"; "segment"; "tagsegment"]%string) ∧
  (evIsContainer type = 0 ∨ evIsContainer type = 1).
Proof.
  unfold evIsContainer, kind_of, evGetTypename.
  repeat match goal with |- context [type =? ?c] =>
    destruct (Z.eqb_spec type c) as [->|_];
      [apply (bool_decide_unpack _); by vm_compute|] end.
  apply (bool_decide_unpack _). by vm_compute.
Qed.
