(* ===== verification/EvioStrings.v ===== *)
(** * Arrays of strings (evio.c, lines 5774-6048)

    [evStringsToBuf] packs strings into a byte buffer; [evBufToStrings] finds them
    again, growing an array of strings with [addStringToArray].  Buffers are runs of
    a byte memory, the array under construction is a list whose length is its
    capacity, with [None] for a NULL entry. *)

From S2P Require Import Prelude Words CString Memory EvioFmt EvioSwapArrays EvioFmtSwap.
From S2P Require Import EvioSwap EvioTypes.

(** ** Packing *)

(** [pads[size%4]] with [pads = {4,3,2,1}]; a negative index is outside the array. *)
Definition pad_chars (size : Z) : res Z := aget [4; 3; 2; 1] (Z.rem size 4).

(** The space needed by the strings; [None] stands for a NULL pointer. *)
Fixpoint strings_size (strings : list (option (list Z))) (count : nat) (size : Z)
  : res (option Z) :=
  match count with
  | O => Ret (Some size)
  | S count =>
      match strings with
      | [] => Undef
      | None :: _ => Ret None
      | Some s :: strings => strings_size strings count (s32 (size + (Z.of_nat (length s) + 1)))
      end
  end.

Fixpoint copy_strings (m : mem) (buf : Z) (strings : list (option (list Z))) (count : nat)
  : res (Z * mem) :=
  match count, strings with
  | S count, Some s :: strings =>
      m ← mstore m buf s;
      m ← mstore m (buf + Z.of_nat (length s)) [0];
      copy_strings m (buf + (Z.of_nat (length s) + 1)) strings count
  | S _, _ => Undef
  | O, _ => Ret (buf, m)
  end.

(** The status, the value stored in [*dataLen] if any, and the memory.  The flag
    [dataLen] tells whether the pointer is not NULL; [strings] is [None] for NULL. *)
Definition evStringsToBuf (m : mem) (buffer bufLen : Z)
    (strings : option (list (option (list Z)))) (stringCount : Z) (dataLen : bool)
  : res (Z * option Z * mem) :=
  if (buffer =? NULL) || negb dataLen || (bufLen <? 4) || (stringCount <? 0) then
    Ret (S_EVFILE_BADARG, None, m)
  else
    match strings with
    | None => Ret (S_SUCCESS, None, m)
    | Some strings =>
        if stringCount =? 0 then Ret (S_SUCCESS, None, m) else
        size ← strings_size strings (Z.to_nat stringCount) 0;
        match size with
        | None => Ret (S_EVFILE_BADARG, None, m)
        | Some size =>
            padChars ← pad_chars size;
            let size := s32 (size + padChars) in
            if bufLen <? size then Ret (S_EVFILE_TRUNC, None, m) else
            '(buf, m) ← copy_strings m buffer strings (Z.to_nat stringCount);
            m ← mstore m buf (replicate (Z.to_nat padChars) 4);
            Ret (S_SUCCESS, Some size, m)
        end
    end.

(** ** Parsing *)

(** The array being built, NULL at first, and the two counts of its caller; the count
    of valid strings has no value before the first string is in. *)
Record str_array := StrArray {
  sa_array : option (list (option (list Z)));
  sa_total : Z;
  sa_count : option Z
}.

(** The part of [addStringToArray] that follows the creation of the array. *)
Definition add_to_array (fuel : nat) (m : mem) (o : faults) (oldArray : list (option (list Z)))
    (totCount strCount : Z) (a : str_array) (str : Z) : res (Z * str_array * faults) :=
  if strCount <? totCount then
    s ← cstring fuel m str;
    let '(ok, o) := malloc_ok o in
    if negb ok then Ret (S_EVFILE_ALLOCFAIL, a, o) else
    l ← aset oldArray strCount (Some s);
    Ret (S_SUCCESS, StrArray (Some l) (sa_total a) (Some (strCount + 1)), o)
  else
    let doubleLen := 2 * strCount in
    let '(ok, o) := malloc_ok o in
    if negb ok then Ret (S_EVFILE_ALLOCFAIL, a, o) else
    let doubleArray := take (Z.to_nat strCount) oldArray ++ replicate (Z.to_nat strCount) None in
    s ← cstring fuel m str;
    let '(ok, o) := malloc_ok o in
    if negb ok then Ret (S_EVFILE_ALLOCFAIL, a, o) else
    l ← aset doubleArray strCount (Some s);
    Ret (S_SUCCESS, StrArray (Some l) doubleLen (Some (strCount + 1)), o).

Definition addStringToArray (fuel : nat) (m : mem) (o : faults) (a : str_array) (str : Z)
  : res (Z * str_array * faults) :=
  if str =? NULL then Ret (S_EVFILE_BADARG, a, o) else
  match sa_array a with
  | None =>
      let '(ok, o) := malloc_ok o in
      if negb ok then Ret (S_EVFILE_ALLOCFAIL, a, o) else
      let l := replicate 100 None in
      add_to_array fuel m o l 100 0 (StrArray (Some l) 100 (sa_count a)) str
  | Some l =>
      strCount ← of_option (sa_count a);
      add_to_array fuel m o l (sa_total a) strCount a str
  end.

(** Whether the [k] characters from [p] are all '\004'. *)
Fixpoint all_4 (k : nat) (m : mem) (p : Z) : res bool :=
  match k with
  | O => Ret true
  | S k => c ← of_option (m !! p); if negb (c =? 4) then Ret false else all_4 k m (p + 1)
  end.

(** The loop over the characters [i], ..., [bufLen - 1], of which there are [k].  The
    result is [badStringFormat], the count of nulls and the array. *)
Fixpoint parse_strings (k : nat) (m : mem) (o : faults) (buffer bufLen : Z) (noEnding4 : bool)
    (i strStart nullCount : Z) (a : str_array) : res (bool * Z * str_array * faults) :=
  match k with
  | O => Ret (true, nullCount, a, o)
  | S k =>
      c ← of_option (m !! (buffer + i));
      if c =? 0 then
        let nullCount := nullCount + 1 in
        '(_, a, o) ← addStringToArray (S (Z.to_nat bufLen)) m o a strStart;
        if noEnding4 then Ret (false, nullCount, a, o)
        else parse_strings k m o buffer bufLen noEnding4 (i + 1) (buffer + i + 1) nullCount a
      else if ((c <? 32) || (126 <? c)) && negb (c =? 9) && negb (c =? 10) then
        if nullCount <? 1 then Ret (true, nullCount, a, o)
        else if c =? 4 then
          let charsLeft := bufLen - (i + 1) in
          if 3 <? charsLeft then Ret (true, nullCount, a, o) else
          good ← all_4 (Z.to_nat charsLeft) m (buffer + i + 1);
          Ret (negb good, nullCount, a, o)
        else Ret (true, nullCount, a, o)
      else parse_strings k m o buffer bufLen noEnding4 (i + 1) strStart nullCount a
  end.

(** The status, and the values stored in [*pStrArray] and [*strCount]; the flag
    [args] tells whether these two pointers are not NULL. *)
Definition evBufToStrings (m : mem) (o : faults) (buffer bufLen : Z) (args : bool)
  : res (Z * option (option (list (option (list Z))) * Z) * faults) :=
  if (buffer =? NULL) || (bufLen <? 4) || negb args then Ret (S_EVFILE_BADARG, None, o) else
  last ← of_option (m !! (buffer + (bufLen - 1)));
  let noEnding4 := negb (last =? 4) in
  '(bad, nullCount, a, o) ←
    parse_strings (Z.to_nat bufLen) m o buffer bufLen noEnding4 0 buffer 0
      (StrArray None 0 None);
  if (bad : bool) then
    (if 0 <? nullCount then
       match sa_array a with
       | Some l => if Z.of_nat (length l) <? nullCount then Undef else Ret ()
       | None => Undef
       end
     else Ret ());;
    Ret (S_FAILURE, Some (None, 0), o)
  else Ret (S_SUCCESS, Some (sa_array a, nullCount), o).

(** ** Packing and parsing are inverse *)

Definition text_char (c : Z) : Prop := 32 ≤ c ≤ 126 ∨ c = 9 ∨ c = 10.

(** The length of the strings with their null bytes, and of the padding after them. *)
Definition text_len (ss : list (list Z)) : Z :=
  foldr (λ s n, Z.of_nat (length s) + 1 + n) 0 ss.
Definition padding (ss : list (list Z)) : list Z :=
  replicate (Z.to_nat (4 - text_len ss mod 4)) 4.
Definition packed (ss : list (list Z)) : list Z := flat_map (λ s, s ++ [0]) ss ++ padding ss.

Lemma text_len_nonneg ss : 0 ≤ text_len ss.
Proof. unfold text_len. induction ss; cbn [foldr]; lia. Qed.

Lemma text_len_length ss : Z.of_nat (length (flat_map (λ s, s ++ [0]) ss)) = text_len ss.
Proof.
  unfold text_len. induction ss as [|s ss IH]; [done|].
  cbn [flat_map foldr]. rewrite !length_app. cbn [length]. lia.
Qed.

Lemma packed_length ss :
  Z.of_nat (length (packed ss)) = text_len ss + (4 - text_len ss mod 4).
Proof.
  unfold packed, padding. rewrite length_app, length_replicate.
  pose proof (text_len_length ss). pose proof (Z.mod_pos_bound (text_len ss) 4 eq_refl). lia.
Qed.

Lemma strings_size_ok ss size :
  0 ≤ size → size + text_len ss < 2147483648 →
  strings_size (map Some ss) (length ss) size = Ret (Some (size + text_len ss)).
Proof.
  revert size. induction ss as [|s ss IH]; intros size H0 H1; cbn [strings_size map length].
  - by rewrite Z.add_0_r.
  - cbn [text_len foldr] in *. fold (text_len ss) in *. pose proof (text_len_nonneg ss).
    replace (s32 _) with (size + (Z.of_nat (length s) + 1)).
    + rewrite IH by lia. do 2 f_equal. lia.
    + unfold s32, u32. rewrite Z.mod_small by lia. case_match; lia.
Qed.

Lemma pad_chars_ok n : 0 ≤ n → pad_chars n = Ret (4 - n mod 4).
Proof.
  intros Hn. unfold pad_chars. rewrite Z.rem_mod_nonneg by lia.
  pose proof (Z.mod_pos_bound n 4 eq_refl).
  assert (n mod 4 = 0 ∨ n mod 4 = 1 ∨ n mod 4 = 2 ∨ n mod 4 = 3) as Hc by lia.
  by destruct Hc as [->|[->|[->| ->]]].
Qed.

Lemma copy_strings_ok m buf ss :
  allocated m buf (length (flat_map (λ s, s ++ [0]) ss)) →
  copy_strings m buf (map Some ss) (length ss) =
  Ret (buf + text_len ss, mwrite m buf (flat_map (λ s, s ++ [0]) ss)).
Proof.
  revert m buf. induction ss as [|s ss IH]; intros m buf Ha; cbn [copy_strings map length flat_map].
  - cbn. by rewrite Z.add_0_r.
  - cbn [flat_map] in Ha. rewrite !length_app in Ha. cbn [length] in Ha.
    rewrite mstore_ok by (eapply allocated_sub; [exact Ha|lia..]). cbn [mbind res_bind].
    rewrite mstore_ok by (apply allocated_mwrite; eapply allocated_sub; [exact Ha|cbn; lia..]).
    cbn [mbind res_bind].
    rewrite IH by (do 2 apply allocated_mwrite; eapply allocated_sub; [exact Ha|lia..]).
    rewrite !mwrite_app, length_app. cbn [text_len foldr length]. fold (text_len ss).
    do 2 f_equal; [lia|]. f_equal. lia.
Qed.

Lemma evStringsToBuf_ok m buffer bufLen ss :
  buffer ≠ NULL → ss ≠ [] → 4 ≤ bufLen < 2147483648 →
  Z.of_nat (length (packed ss)) ≤ bufLen → allocated m buffer (length (packed ss)) →
  evStringsToBuf m buffer bufLen (Some (map Some ss)) (Z.of_nat (length ss)) true =
  Ret (S_SUCCESS, Some (Z.of_nat (length (packed ss))), mwrite m buffer (packed ss)).
Proof.
  intros Hb Hne Hlen Hfit Ha. pose proof (packed_length ss) as Hp.
  pose proof (text_len_nonneg ss) as H0. pose proof (Z.mod_pos_bound (text_len ss) 4 eq_refl) as Hm.
  unfold evStringsToBuf.
  replace (Z.of_nat (length ss) <? 0) with false by zcase. cbn [negb]. rewrite !orb_false_r.
  unfold NULL in *. replace ((buffer =? 0) || (bufLen <? 4)) with false by lia.
  replace (Z.of_nat (length ss) =? 0) with false by (by destruct ss).
  rewrite Nat2Z.id, strings_size_ok by lia. cbn [mbind res_bind].
  rewrite pad_chars_ok by lia. cbn [mbind res_bind]. rewrite Z.add_0_l.
  replace (s32 _) with (Z.of_nat (length (packed ss)))
    by (unfold s32, u32; rewrite Z.mod_small by lia; case_match; lia).
  replace (bufLen <? _) with false by lia.
  pose proof (text_len_length ss).
  rewrite copy_strings_ok by (eapply allocated_sub; [exact Ha|lia..]). cbn [mbind res_bind].
  fold (padding ss). rewrite mstore_ok.
  - cbn [mbind res_bind].
    assert (mwrite m buffer (packed ss) = mwrite (mwrite m buffer (flat_map (λ s, s ++ [0]) ss))
              (buffer + text_len ss) (padding ss)) as ->; [|done].
    unfold packed. by rewrite mwrite_app, text_len_length.
  - apply allocated_mwrite. eapply allocated_sub; [exact Ha|lia|].
    unfold padding. rewrite length_replicate. lia.
Qed.

Lemma cstring_ok fuel m p s :
  mread m p (length (s ++ [0])) = Some (s ++ [0]) → Forall (λ c, c ≠ 0) s →
  (length s < fuel)%nat → cstring fuel m p = Ret s.
Proof.
  revert p fuel. induction s as [|c s IH]; intros p fuel Hr Hs Hf.
  - destruct fuel as [|fuel]; [lia|].
    apply mread_Some in Hr as [_ Hr]. specialize (Hr O). cbn in *.
    rewrite Z.add_0_r in Hr. rewrite Hr by lia. done.
  - destruct fuel as [|fuel]; [cbn in Hf; lia|]. inversion Hs as [|? ? Hc Hs']; subst.
    change ((c :: s) ++ [0]) with ([c] ++ (s ++ [0])) in Hr.
    apply mread_split in Hr as [Hr1 Hr2]. cbn [cstring].
    apply mread_Some in Hr1 as [_ Hr1]. specialize (Hr1 O). cbn in Hr1.
    rewrite Z.add_0_r in Hr1. rewrite Hr1 by lia.
    replace (c =? 0) with false by lia.
    rewrite IH; [done|exact Hr2|done|cbn in Hf; lia].
Qed.

(** The array holds the strings [done], in order. *)
Definition holds (a : str_array) (ss : list (list Z)) : Prop :=
  match sa_array a with
  | None => ss = []
  | Some l => Z.of_nat (length l) = sa_total a ∧ sa_count a = Some (Z.of_nat (length ss)) ∧
              take (length ss) l = map Some ss ∧ (0 < length ss ≤ length l)%nat
  end.

Lemma take_insert_end {A} (l : list A) n x :
  (n < length l)%nat → take (S n) (<[n := x]> l) = take n l ++ [x].
Proof.
  intros Hn. rewrite (take_S_r _ _ x) by (apply list_lookup_insert_eq; done).
  by rewrite take_insert_ge.
Qed.

Lemma addStringToArray_ok fuel m a ss str s :
  holds a ss → str ≠ NULL → cstring fuel m str = Ret s →
  ∃ a', addStringToArray fuel m [] a str = Ret (S_SUCCESS, a', []) ∧ holds a' (ss ++ [s]).
Proof.
  intros Ha Hstr Hs. unfold addStringToArray. replace (str =? NULL) with false by lia.
  unfold holds in Ha. destruct (sa_array a) as [l|].
  - destruct Ha as (Htot & Hcnt & Htake & Hlen). rewrite Hcnt. cbn [of_option mbind res_bind].
    unfold add_to_array. rewrite Hs. destruct (Z.ltb_spec (Z.of_nat (length ss)) (sa_total a)); cbn.
    + rewrite aset_ok by lia. cbn. eexists. split; [done|]. unfold holds. cbn.
      rewrite Nat2Z.id, length_insert, length_app, Nat.add_1_r, map_app. cbn.
      split_and!; [done|f_equal; lia| |lia|lia]. by rewrite take_insert_end, Htake by lia.
    + set (l' := take _ l ++ _).
      assert (length l' = (2 * length ss)%nat) as Hl'.
      { unfold l'. rewrite length_app, length_take, length_replicate. lia. }
      rewrite aset_ok by lia. cbn. eexists. split; [done|]. unfold holds. cbn.
      rewrite Nat2Z.id, length_insert, length_app, Nat.add_1_r, map_app. cbn.
      split_and!; [lia|f_equal; lia| |lia|lia]. rewrite take_insert_end by lia.
      unfold l'. rewrite Nat2Z.id, Htake, take_app_le, take_ge; rewrite ?length_map; done || lia.
  - subst ss. cbn [malloc_ok negb]. unfold add_to_array. rewrite Hs.
    replace (0 <? 100) with true by lia. cbn [mbind res_bind malloc_ok negb].
    rewrite aset_ok by (rewrite length_replicate; lia). cbn [mbind res_bind].
    eexists. split; [done|]. unfold holds.
    cbn [sa_array sa_total sa_count app length map]. rewrite length_insert, length_replicate.
    split_and!; [done|done|done|lia|lia].
Qed.

Lemma parse_skip k m o buffer bufLen ne i st n a s :
  mread m (buffer + i) (length s) = Some s → Forall text_char s →
  parse_strings (length s + k) m o buffer bufLen ne i st n a =
  parse_strings k m o buffer bufLen ne (i + Z.of_nat (length s)) st n a.
Proof.
  revert i. induction s as [|c s IH]; intros i Hr Hs.
  - cbn. by rewrite Z.add_0_r.
  - inversion Hs as [|? ? Hc Hs']; subst. unfold text_char in Hc.
    change (c :: s) with ([c] ++ s) in Hr.
    apply mread_split in Hr as [Hr1 Hr2]. apply mread_Some in Hr1 as [_ Hr1].
    specialize (Hr1 O). cbn in Hr1. rewrite Z.add_0_r in Hr1.
    cbn [length Nat.add parse_strings]. rewrite Hr1 by lia. cbn [of_option mbind res_bind].
    replace (c =? 0) with false by lia.
    replace (_ && _ && _) with false by lia.
    rewrite IH; [f_equal; lia| |done]. rewrite <- Hr2. f_equal. cbn. lia.
Qed.

Lemma all_4_ok k m p : mread m p k = Some (replicate k 4) → all_4 k m p = Ret true.
Proof.
  revert p. induction k as [|k IH]; intros p Hr; [done|]. cbn [mread replicate all_4] in *.
  destruct (m !! p) as [c|]; cbn in *; [|done].
  destruct (mread m (p + 1) k) as [l|] eqn:E; cbn in *; [|done].
  injection Hr as -> ->. cbn. by apply IH.
Qed.

(** From the start of a string, with [done] strings behind: the rest is found. *)
Lemma parse_packed m buffer bufLen k : 0 < buffer → (1 ≤ k ≤ 4)%nat →
  ∀ ss i a dn,
  0 ≤ i → i + text_len ss + Z.of_nat k = bufLen → ss ≠ [] ∨ dn ≠ [] → holds a dn →
  Forall (Forall text_char) ss →
  mread m (buffer + i) (length (flat_map (λ s, s ++ [0]) ss ++ replicate k 4)) =
    Some (flat_map (λ s, s ++ [0]) ss ++ replicate k 4) →
  ∃ a', parse_strings (Z.to_nat (bufLen - i)) m [] buffer bufLen false i (buffer + i)
          (Z.of_nat (length dn)) a =
        Ret (false, Z.of_nat (length (dn ++ ss)), a', []) ∧ holds a' (dn ++ ss).
Proof.
  intros Hbuf Hk ss. induction ss as [|s ss IH]; intros i a dn Hi Hsum Hne Ha Hss Hr.
  - cbn [flat_map app text_len foldr] in *. destruct k as [|k]; [lia|].
    replace (Z.to_nat (bufLen - i)) with (S k) by lia.
    cbn [replicate] in Hr. change (4 :: replicate k 4) with ([4] ++ replicate k 4) in Hr.
    apply mread_split in Hr as [Hr1 Hr2]. apply mread_Some in Hr1 as [_ Hr1].
    specialize (Hr1 O). cbn in Hr1. rewrite Z.add_0_r in Hr1.
    cbn [parse_strings]. rewrite Hr1 by lia. cbn.
    replace (Z.of_nat (length dn) <? 1) with false
      by (destruct Hne as [Hne|Hne]; [done|destruct dn; [done|cbn [length]; zcase]]).
    replace (bufLen - (i + 1)) with (Z.of_nat k) by lia.
    replace (3 <? Z.of_nat k) with false by zcase. rewrite Nat2Z.id.
    rewrite length_replicate in Hr2. change (Z.of_nat (length [4])) with 1 in Hr2.
    rewrite all_4_ok by done. cbn. rewrite app_nil_r. by exists a.
  - cbn [flat_map text_len foldr] in *. fold (text_len ss) in *.
    inversion Hss as [|? ? Hs Hss']; subst. rewrite <- !app_assoc in Hr.
    pose proof Hr as Hr'. rewrite app_assoc in Hr'.
    apply mread_split in Hr' as [Hstr Hrest].
    apply mread_split in Hr as [Hr1 Hr2]. apply mread_split in Hr2 as [Hr2 _].
    apply mread_Some in Hr2 as [_ Hr2]. specialize (Hr2 O). cbn in Hr2. rewrite Z.add_0_r in Hr2.
    pose proof (text_len_nonneg ss).
    replace (Z.to_nat (_ - i)) with (length s + S (Z.to_nat (text_len ss + Z.of_nat k)))%nat by lia.
    rewrite parse_skip by done. cbn [parse_strings].
    replace (buffer + (i + Z.of_nat (length s))) with (buffer + i + Z.of_nat (length s)) by lia.
    rewrite Hr2 by lia. cbn [of_option mbind res_bind Z.eqb].
    set (bl := i + _ + Z.of_nat k).
    edestruct (addStringToArray_ok (S (Z.to_nat bl)) m a dn (buffer + i) s)
      as (a' & Hadd & Ha'); [done|unfold NULL; lia| |].
    { apply cstring_ok; [done| |unfold bl; lia].
      eapply Forall_impl; [|exact Hs]. unfold text_char. cbn. lia. }
    rewrite Hadd. cbn [mbind res_bind].
    destruct (IH (i + Z.of_nat (length s) + 1) a' (dn ++ [s])) as (a'' & Hp & Ha'');
      [lia|unfold bl; lia|right; by destruct dn|done|done| |].
    { rewrite <- Hrest. f_equal. rewrite length_app. cbn. lia. }
    exists a''. rewrite <- app_assoc in Hp, Ha''. split; [|done].
    cbn [app] in Hp. rewrite <- Hp, length_app. cbn [length]. f_equal; unfold bl; lia.
Qed.

Lemma evBufToStrings_packed m buffer ss :
  0 < buffer → ss ≠ [] → Forall (Forall text_char) ss →
  mread m buffer (length (packed ss)) = Some (packed ss) →
  ∃ l, evBufToStrings m [] buffer (Z.of_nat (length (packed ss))) true =
         Ret (S_SUCCESS, Some (Some l, Z.of_nat (length ss)), []) ∧
       take (length ss) l = map Some ss.
Proof.
  intros Hb Hne Hss Hr. pose proof (packed_length ss) as Hp.
  pose proof (text_len_nonneg ss). pose proof (Z.mod_pos_bound (text_len ss) 4 eq_refl).
  set (k := Z.to_nat (4 - text_len ss mod 4)).
  assert (0 < text_len ss).
  { destruct ss as [|s ss]; [done|]. cbn. fold (text_len ss).
    pose proof (text_len_nonneg ss). lia. }
  pose proof (Z.mod_le (text_len ss) 4 ltac:(lia) ltac:(lia)).
  unfold evBufToStrings. cbn [negb].
  rewrite orb_false_r. replace (Z.of_nat (length (packed ss)) <? 4) with false by zcase.
  rewrite orb_false_r. replace (buffer =? NULL) with false by (unfold NULL; lia).
  assert (m !! (buffer + (Z.of_nat (length (packed ss)) - 1)) = Some 4) as Hlast.
  { apply mread_Some in Hr as [_ Hr]. specialize (Hr (length (packed ss) - 1)%nat).
    rewrite Nat2Z.inj_sub in Hr by lia. change (Z.of_nat 1) with 1 in Hr. rewrite Hr by lia.
    unfold packed. rewrite length_app, lookup_app_r by (unfold padding; rewrite length_replicate; lia).
    unfold padding. rewrite length_replicate. apply lookup_replicate_2. lia. }
  rewrite Hlast. cbn [of_option mbind res_bind negb Z.eqb Pos.eqb].
  destruct (parse_packed m buffer (Z.of_nat (length (packed ss))) k Hb ltac:(lia) ss 0
              (StrArray None 0 None) []) as (a & Hpa & Ha);
    [lia|lia|by left|done|done|by rewrite Z.add_0_r|].
  rewrite Z.sub_0_r, Z.add_0_r in Hpa. cbn [length app] in *. change (Z.of_nat 0) with 0 in Hpa.
  rewrite Hpa. cbn [mbind res_bind]. unfold holds in Ha.
  destruct (sa_array a) as [l|]; [|done].
  exists l. split; [done|]. by destruct Ha as (_ & _ & ? & _).
Qed.

(** The strings packed by [evStringsToBuf] are the strings [evBufToStrings] finds,
    in the same order and number, whatever the count (the array that holds them is
    grown as needed), for texts of printable characters, tabs and newlines that fit
    the buffer. *)
Theorem strings_roundtrip (m : mem) (buffer bufLen : Z) (ss : list (list Z)) :
  0 < buffer → ss ≠ [] → Forall (Forall text_char) ss → 4 ≤ bufLen < 2147483648 →
  Z.of_nat (length (packed ss)) ≤ bufLen → allocated m buffer (length (packed ss)) →
  ∃ n m' l,
    evStringsToBuf m buffer bufLen (Some (map Some ss)) (Z.of_nat (length ss)) true =
      Ret (S_SUCCESS, Some n, m') ∧
    n mod 4 = 0 ∧
    evBufToStrings m' [] buffer n true = Ret (S_SUCCESS, Some (Some l, Z.of_nat (length ss)), []) ∧
    take (length ss) l = map Some ss.
Proof.
  intros Hb Hne Hss Hlen Hfit Ha.
  assert (mread (mwrite m buffer (packed ss)) buffer (length (packed ss)) = Some (packed ss))
    as Hr by (by apply mread_mwrite_same).
  destruct (evBufToStrings_packed _ buffer ss Hb Hne Hss Hr) as (l & Hl & Ht).
  eexists _, _, l. split; [apply evStringsToBuf_ok; (done || unfold NULL; lia)|].
  split; [|by split]. rewrite packed_length.
  pose proof (Z.div_mod (text_len ss) 4). apply Z.mod_divide; [lia|].
  exists (text_len ss / 4 + 1). lia.
Qed.

Definition example_strings : list (list Z) := [cs "run"; cs ""; cs "tape 2"].
Definition example_buffer : mem := mwrite ∅ 64 (replicate 20 0).

Lemma strings_roundtrip_witness :
  ∃ n m' l,
    evStringsToBuf example_buffer 64 20 (Some (map Some example_strings)) 3 true =
      Ret (S_SUCCESS, Some n, m') ∧
    n mod 4 = 0 ∧
    evBufToStrings m' [] 64 n true = Ret (S_SUCCESS, Some (Some l, 3), []) ∧
    take 3 l = map Some example_strings.
Proof.
  apply (strings_roundtrip example_buffer 64 20 example_strings).
  - lia.
  - discriminate.
  - apply (bool_decide_unpack _). vm_compute. exact I.
  - lia.
  - vm_compute. discriminate.
  - eexists. vm_compute. reflexivity.
Defined.
