(* ===== verification/EvioNames.v ===== *)
(** * File names (evio.c, lines 885-1483)

    Substitution in strings, environment variables, integer format specifiers, and
    the names of the files a writer creates.  A heap string is the list of its
    characters; the characters a C string owns end with a null, so reading at its
    length gives 0 and reading beyond is [Undef].  The environment is a parameter,
    [getenv]; [sprintf] into a buffer of a given size is [Undef] when the text and
    its null do not fit, or when a conversion has no argument of its type. *)

From S2P Require Import Prelude Words CString Memory EvioFmt EvioSwapArrays EvioFmtSwap.
From S2P Require Import EvioSwap EvioTypes.

(** ** evTrim *)

Definition dropped (c : Z) : bool := isspace c || negb (isprint c).

(** [firstChar] moves over dropped characters; NULL when they are all the string. *)
Fixpoint trim_front (s : list Z) : option (list Z) :=
  match s with
  | [] => None
  | c :: s' => if dropped c then trim_front s' else Some s
  end.

(** [lastChar] moves back, from the end of the string [rev r]. *)
Fixpoint trim_back (r : list Z) : list Z :=
  match r with
  | [] => []
  | c :: r' => if dropped c then trim_back r' else r
  end.

(** The string left at [s], or [None] for a NULL result, which leaves it alone. *)
Definition evTrim (s : option (list Z)) (skip : Z) : res (option (list Z)) :=
  match s with
  | None => Ret None
  | Some s =>
      let skip := if skip <? 0 then 0 else skip in
      if Z.of_nat (length s) <? skip then Undef else
      match trim_front (drop (Z.to_nat skip) s) with
      | None => Ret None
      | Some s => Ret (Some (rev (trim_back (rev s))))
      end
  end.

(** ** Substitution *)

(** The number of replacements; the loop does not end when [rep] is empty. *)
Fixpoint count_replacements (fuel : nat) (ins rep : list Z) (count : Z) : res Z :=
  match fuel with
  | O => NoFuel
  | S fuel =>
      match strstr ins rep with
      | None => Ret count
      | Some n => count_replacements fuel (drop (n + length rep) ins) rep (count + 1)
      end
  end.

(** The text written at [tmp] by [count] turns and the final strcpy. *)
Fixpoint replace_loop (count : nat) (orig rep wth : list Z) : res (list Z) :=
  match count with
  | O => Ret orig
  | S count =>
      match strstr orig rep with
      | None => Undef
      | Some n =>
          tmp ← replace_loop count (drop (n + length rep) orig) rep wth;
          Ret (take n orig ++ wth ++ tmp)
      end
  end.

Definition evStrReplace (o : faults) (orig rep wth : option (list Z))
  : res (option (list Z) * faults) :=
  match orig with
  | None => Ret (None, o)
  | Some orig =>
      let rep := default [] rep in
      let wth := default [] wth in
      count ← count_replacements (S (length orig)) orig rep 0;
      let '(ok, o) := malloc_ok o in
      if negb ok then Ret (None, o) else
      let size := u64 (Z.of_nat (length orig) +
                       (Z.of_nat (length wth) - Z.of_nat (length rep)) * count + 1) in
      result ← replace_loop (Z.to_nat count) orig rep wth;
      if size <? Z.of_nat (length result) + 1 then Undef else Ret (Some result, o)
  end.

Section Env.
  Context (getenv : list Z → option (list Z)).

(** The loop of [evStrReplaceEnvVar]; [replace] has 256 characters. *)
Fixpoint env_loop (fuel : nat) (o : faults) (result : list Z)
  : res (option (list Z) * faults) :=
  match fuel with
  | O => NoFuel
  | S fuel =>
      match strstr result (cs "$(") with
      | None => Ret (Some result, o)
      | Some start =>
          match strstr (drop start result) (cs ")") with
          | None => Ret (Some result, o)
          | Some e =>
              let '(ok, o) := malloc_ok o in
              if negb ok then Ret (None, o) else
              let envVar := take (e - 2) (drop (start + 2) result) in
              if 256 <? Z.of_nat (length envVar) + 4 then Undef else
              '(tmp, o) ← evStrReplace o (Some result)
                            (Some (cs "$(" ++ envVar ++ cs ")")) (getenv envVar);
              match tmp with
              | None => Undef
              | Some result => env_loop fuel o result
              end
          end
      end
  end.

Definition evStrReplaceEnvVar (fuel : nat) (o : faults) (orig : option (list Z))
  : res (option (list Z) * faults) :=
  match orig with
  | None => Ret (None, o)
  | Some orig =>
      let '(ok, o) := malloc_ok o in
      if negb ok then Ret (None, o) else env_loop fuel o orig
  end.
End Env.

(** ** Integer format specifiers *)

(** The character at an index of a string, its null included. *)
Definition char_at (s : list Z) (i : nat) : res Z := of_option ((s ++ [0]) !! i).

(** [while (isdigit(c)) { digits[digitCount++] = c; c = *(++start); }] *)
Fixpoint read_digits (fuel : nat) (s : list Z) (start : nat) (c : Z) (digits : list Z)
    (digitCount : Z) : res (nat * Z * list Z * Z) :=
  match fuel with
  | O => NoFuel
  | S fuel =>
      if isdigit c then
        digits ← aset digits digitCount c;
        c ← char_at s (start + 1);
        read_digits fuel s (start + 1) c digits (digitCount + 1)
      else Ret (start, c, digits, digitCount)
  end.

(** The C string in an array: the characters before its first null. *)
Fixpoint array_string (l : list Z) : res (list Z) :=
  match l with
  | [] => Undef
  | c :: l => if c =? 0 then Ret [] else s ← array_string l; Ret (c :: s)
  end.

(** What the loop does with the specifier at [start]: go on after it, stop with an
    error, or start again with another string. *)
Inductive spec_step :=
| SpecNext (start : nat) (count : Z)
| SpecBad
| SpecReplace (old new : list Z).

Definition find_step (result : list Z) (start : nat) (count : Z) : res spec_step :=
  let start := (start + 1)%nat in
  c ← char_at result start;
  digits ← aset (replicate 20 0) 0 c;
  '(start, c, digits, digitCount) ← read_digits (S (length result)) result start c digits 0;
  if (c =? chr "s") && (digitCount =? 0) then Ret (SpecNext (start + 1) count)
  else if negb (c =? chr "x") && negb (c =? chr "d") then Ret SpecBad
  else
    digits ← aset digits digitCount c;
    let start := (start + 1)%nat in
    let count := count + 1 in
    d0 ← aget digits 0;
    if (digitCount <? 1) || negb (d0 =? chr "0") then
      d ← array_string digits;
      if 25 <? Z.of_nat (length d) + 3 then Undef else
      Ret (SpecReplace (cs "%" ++ d) (cs "%0" ++ d))
    else Ret (SpecNext start count).

Fixpoint find_loop (fuel : nat) (o : faults) (result : list Z) (start : nat) (count : Z)
  : res (option (list Z) * option Z * faults) :=
  match fuel with
  | O => NoFuel
  | S fuel =>
      match strstr (drop start result) (cs "%") with
      | None => Ret (Some result, Some count, o)
      | Some n =>
          r ← find_step result (start + n) count;
          match r with
          | SpecNext start count => find_loop fuel o result start count
          | SpecBad => Ret (None, None, o)
          | SpecReplace old new =>
              '(tmp, o) ← evStrReplace o (Some result) (Some old) (Some new);
              match tmp with
              | None => Undef
              | Some result => find_loop fuel o result 0 0
              end
          end
      end
  end.

(** The string and the value stored in [*specifierCount]; the flag tells whether this
    pointer is not NULL. *)
Definition evStrFindSpecifiers (fuel : nat) (o : faults) (orig : option (list Z))
    (specifierCount : bool) : res (option (list Z) * option Z * faults) :=
  match orig with
  | None => Ret (None, None, o)
  | Some orig =>
      if negb specifierCount then Ret (None, None, o) else
      let '(ok, o) := malloc_ok o in
      if negb ok then Ret (None, None, o) else find_loop fuel o orig 0 0
  end.

(** The same scan for [evStrRemoveSpecifiers], on the characters [buf] of the copy with
    its null: the number of digits is not limited.  The index after the digits, and the
    character there. *)
Fixpoint skip_digits (fuel : nat) (buf : list Z) (p : nat) (c : Z) (digitCount : Z)
  : res (nat * Z * Z) :=
  match fuel with
  | O => NoFuel
  | S fuel =>
      if isdigit c then
        c ← of_option (buf !! (p + 1)%nat);
        skip_digits fuel buf (p + 1) c (digitCount + 1)
      else Ret (p, c, digitCount)
  end.

(** [for (i=0; i < endIndex; i++) result[i+startIndex] = result[i+startIndex+specLen];] *)
Fixpoint shift_chars (k : nat) (buf : list Z) (i specLen : nat) : res (list Z) :=
  match k with
  | O => Ret buf
  | S k =>
      c ← of_option (buf !! (i + specLen)%nat);
      shift_chars k (<[i := c]> buf) (i + 1) specLen
  end.

(** The characters up to the first null: the string that starts a buffer. *)
Fixpoint upto_null (l : list Z) : list Z :=
  match l with
  | [] => []
  | c :: l => if c =? 0 then [] else c :: upto_null l
  end.

Fixpoint remove_loop (fuel : nat) (buf : list Z) (pChar : nat) : res (option (list Z)) :=
  match fuel with
  | O => NoFuel
  | S fuel =>
      match strstr (upto_null (drop pChar buf)) (cs "%") with
      | None => Ret (Some (upto_null buf))
      | Some n =>
          let pSpec := (pChar + n)%nat in
          let pChar := (pSpec + 1)%nat in
          c ← of_option (buf !! pChar);
          '(pChar, c, digitCount) ← skip_digits (length buf) buf pChar c 0;
          if (c =? chr "s") && (digitCount =? 0) then remove_loop fuel buf (pChar + 1)
          else if negb (c =? chr "x") && negb (c =? chr "d") then Ret None
          else
            let pChar := (pChar + 1)%nat in
            let specLen := (pChar - pSpec)%nat in
            let endIndex := Z.of_nat (length (upto_null buf)) + 1 - Z.of_nat specLen - Z.of_nat pSpec in
            buf ← shift_chars (Z.to_nat endIndex) buf pSpec specLen;
            remove_loop fuel buf pChar
      end
  end.

Definition evStrRemoveSpecifiers (o : faults) (orig : option (list Z))
  : res (option (list Z) * faults) :=
  match orig with
  | None => Ret (None, o)
  | Some orig =>
      let '(ok, o) := malloc_ok o in
      if negb ok then Ret (None, o) else
      r ← remove_loop (S (length orig)) (orig ++ [0]) 0;
      Ret (r, o)
  end.

(** ** sprintf with int arguments *)

(** The field of a conversion: [c] is d or x, [zero] the 0 flag. *)
Definition print_field (zero : bool) (width : Z) (c : Z) (v : Z) : list Z :=
  let sign := if (c =? chr "d") && (s32 v <? 0) then [45] else [] in
  let digits := if c =? chr "d" then print_nat 10 (Z.abs (s32 v)) else print_nat 16 (u32 v) in
  let pad := Z.to_nat (width - Z.of_nat (length sign + length digits)) in
  if zero then sign ++ replicate pad 48 ++ digits
  else replicate pad 32 ++ sign ++ digits.

(** Inside a conversion: [spec] is the 0 flag and the width read so far. *)
Fixpoint vsprintf (fmt : list Z) (spec : option (bool * Z)) (args : list Z) : res (list Z) :=
  match fmt with
  | [] => match spec with None => Ret [] | Some _ => Undef end
  | c :: fmt =>
      match spec with
      | None =>
          if c =? chr "%" then vsprintf fmt (Some (false, 0)) args
          else r ← vsprintf fmt None args; Ret (c :: r)
      | Some (zero, width) =>
          if (c =? 48) && (width =? 0) then vsprintf fmt (Some (true, 0)) args
          else if isdigit c then vsprintf fmt (Some (zero, 10 * width + (c - 48))) args
          else if (c =? chr "d") || (c =? chr "x") then
            match args with
            | [] => Undef
            | v :: args => r ← vsprintf fmt None args; Ret (print_field zero width c v ++ r)
            end
          else if (c =? chr "%") && negb zero && (width =? 0) then
            r ← vsprintf fmt None args; Ret (c :: r)
          else Undef
      end
  end.

(** sprintf into an array of [size] characters. *)
Definition sprintf (size : Z) (fmt : list Z) (args : list Z) : res (list Z) :=
  r ← vsprintf fmt None args;
  if size <? Z.of_nat (length r) + 1 then Undef else Ret r.

(** ** Names of files *)

(** The status, and the values stored in [*baseName] and [*count]; the flag tells
    whether these two pointers are not NULL. *)
Definition evGenerateBaseFileName (getenv : list Z → option (list Z)) (fuel : nat) (o : faults)
    (origName : option (list Z)) (ptrs : bool)
  : res (Z * option (list Z * Z) * faults) :=
  match origName with
  | None => Ret (S_EVFILE_BADARG, None, o)
  | Some orig =>
      if negb ptrs || (Z.of_nat (length orig) <? 1) then Ret (S_EVFILE_BADARG, None, o) else
      '(tmp, o) ← evStrReplaceEnvVar getenv fuel o (Some orig);
      match tmp with
      | None => Ret (S_EVFILE_ALLOCFAIL, None, o)
      | Some tmp =>
          '(name, specifierCount, o) ← evStrFindSpecifiers fuel o (Some tmp) true;
          match name with
          | None => Ret (S_EVFILE_ALLOCFAIL, None, o)
          | Some name =>
              let specifierCount := default 0 specifierCount in
              if 2 <? specifierCount then Ret (S_FAILURE, None, o)
              else Ret (S_SUCCESS, Some (name, specifierCount), o)
          end
      end
  end.

(** The name for [specifierCount] specifiers when the file is being split, lines
    1403-1452. [base] is the base name after the run type is in. *)
Definition split_file_name (o : faults) (base : list Z) (specifierCount runNumber splitNumber : Z)
  : res (option (list Z) * faults) :=
  let len := Z.of_nat (length base) in
  if specifierCount <? 1 then
    let '(ok, o) := malloc_ok o in
    if negb ok then Ret (None, o) else
    let '(ok, o) := malloc_ok o in
    if negb ok then Ret (None, o) else
    name ← sprintf (len + 12) (base ++ cs ".%d") [splitNumber];
    Ret (Some name, o)
  else if specifierCount =? 1 then
    let '(ok, o) := malloc_ok o in
    if negb ok then Ret (None, o) else
    let '(ok, o) := malloc_ok o in
    if negb ok then Ret (None, o) else
    name ← sprintf (len + 22) (base ++ cs ".%d") [runNumber; splitNumber];
    Ret (Some name, o)
  else
    let '(ok, o) := malloc_ok o in
    if negb ok then Ret (None, o) else
    name ← sprintf (len + 21) base [runNumber; splitNumber];
    Ret (Some name, o).

(** The name when the file is not being split, lines 1454-1480. *)
Definition whole_file_name (o : faults) (base : list Z) (specifierCount runNumber : Z)
  : res (option (list Z) * faults) :=
  let len := Z.of_nat (length base) in
  if specifierCount =? 1 then
    let '(ok, o) := malloc_ok o in
    if negb ok then Ret (None, o) else
    name ← sprintf (len + 11) base [runNumber];
    Ret (Some name, o)
  else if specifierCount =? 2 then
    let '(ok, o) := malloc_ok o in
    if negb ok then Ret (None, o) else
    name ← sprintf (len + 11) base [runNumber];
    evStrRemoveSpecifiers o (Some name)
  else
    let '(ok, o) := malloc_ok o in
    if negb ok then Ret (None, o) else Ret (Some base, o).

(** The handle is its fields [rw] and [baseFileName], [None] for a NULL handle; the
    results are the name and the new [baseFileName]. *)
Definition evGenerateFileName (o : faults) (a : option (Z * option (list Z)))
    (specifierCount runNumber : Z) (splitting : bool) (splitNumber : Z) (runType : option (list Z))
  : res (option (list Z) * option (list Z) * faults) :=
  let old := a ≫= snd in
  if (splitting && (splitNumber <? 0)) || (runNumber <? 1) || (specifierCount <? 0) ||
     (2 <? specifierCount) then Ret (None, old, o)
  else
    match a with
    | None => Ret (None, old, o)
    | Some (rw, baseFileName) =>
        if negb (rw =? EV_WRITEFILE) then Ret (None, old, o) else
        match baseFileName with
        | None => Ret (None, old, o)
        | Some base =>
            '(name, o) ← evStrReplace o (Some base) (Some (cs "%s")) runType;
            match name with
            | None => Ret (None, old, o)
            | Some base =>
                '(name, o) ← (if splitting then
                                split_file_name o base specifierCount runNumber splitNumber
                              else whole_file_name o base specifierCount runNumber);
                Ret (name, Some base, o)
            end
        end
    end.

(** ** Substitution replaces every occurrence *)

(** The pieces [p], [ps] of a text with [sep] between them. *)
Definition join (sep p : list Z) (ps : list (list Z)) : list Z :=
  p ++ flat_map (λ q, sep ++ q) ps.

Lemma replace_pieces rep wth :
  rep ≠ [] → ∀ fuel orig, (length orig < fuel)%nat →
  ∃ p ps, orig = join rep p ps ∧
    (∀ c, count_replacements fuel orig rep c = Ret (c + Z.of_nat (length ps))) ∧
    replace_loop (length ps) orig rep wth = Ret (join wth p ps) ∧
    Forall (λ q, strstr q rep = None) (p :: ps) ∧ (length ps ≤ length orig)%nat.
Proof.
  intros Hrep fuel. induction fuel as [|fuel IH]; intros orig Hf; [lia|].
  destruct (strstr orig rep) as [n|] eqn:E.
  - destruct (strstr_Some _ _ _ E) as (q & Hq & Hn).
    assert (0 < length rep)%nat by (destruct rep; [done|cbn; lia]).
    destruct (IH (drop (n + length rep) orig)) as (p & ps & Ho & Hc & Hr & Hall & Hlen).
    { rewrite length_drop. lia. }
    exists (take n orig), (p :: ps). split_and!.
    + assert (drop (n + length rep) orig = q) as Hd.
      { rewrite Hq at 1. rewrite app_assoc. apply drop_app_length'.
        rewrite length_app, length_take. lia. }
      rewrite Hd in Ho. unfold join in *. cbn [flat_map]. rewrite <- app_assoc, <- Ho. exact Hq.
    + intros c. cbn [count_replacements]. rewrite E, Hc. f_equal. cbn [length]. lia.
    + cbn [replace_loop length]. rewrite E, Hr. cbn. f_equal. unfold join. cbn.
      by rewrite <- app_assoc.
    + constructor; [|done].
      destruct (strstr (take n orig) rep) as [k|] eqn:Ek; [|done].
      destruct (strstr_Some _ _ _ Ek) as (q' & Hq' & Hk).
      rewrite length_take in Hk. pose proof (strstr_first orig rep n k E ltac:(lia)) as Hs.
      assert (starts_with rep (drop k orig) = true); [|congruence].
      apply starts_with_spec. exists (q' ++ drop n orig).
      rewrite <- (take_drop n orig) at 1. rewrite Hq' at 1. rewrite <- !app_assoc.
      apply drop_app_length'. rewrite !length_take. lia.
    + rewrite length_drop in Hlen. cbn [length]. lia.
  - exists orig, []. unfold join. cbn [flat_map]. rewrite app_nil_r. split_and!; [done| |done| |].
    + intros c. cbn [count_replacements]. rewrite E. f_equal. cbn. lia.
    + by constructor.
    + cbn. lia.
Qed.

Lemma length_join sep p ps :
  Z.of_nat (length (join sep p ps)) =
  Z.of_nat (length (concat (p :: ps))) + Z.of_nat (length sep) * Z.of_nat (length ps).
Proof.
  unfold join. cbn [concat]. rewrite !length_app. induction ps as [|q ps IH]; cbn [flat_map concat].
  - cbn. lia.
  - rewrite !length_app. cbn [length]. lia.
Qed.

Lemma evStrReplace_pieces orig rep wth :
  rep ≠ [] →
  Z.of_nat (length orig) * (1 + Z.of_nat (length wth)) < 18446744073709551615 →
  ∃ p ps, orig = join rep p ps ∧ Forall (λ q, strstr q rep = None) (p :: ps) ∧
    evStrReplace [] (Some orig) (Some rep) (Some wth) = Ret (Some (join wth p ps), []).
Proof.
  intros Hrep Hlen.
  destruct (replace_pieces rep wth Hrep (S (length orig)) orig) as (p & ps & Ho & Hc & Hr & Hall & Hn);
    [lia|].
  exists p, ps. split_and!; [done|done|]. unfold evStrReplace. cbn [default]. unfold id.
  rewrite Hc. cbn [mbind res_bind malloc_ok negb]. rewrite Z.add_0_l, Nat2Z.id, Hr.
  cbn [mbind res_bind].
  assert (Z.of_nat (length orig) + (Z.of_nat (length wth) - Z.of_nat (length rep)) *
            Z.of_nat (length ps) = Z.of_nat (length (join wth p ps))) as Hsz.
  { rewrite Ho at 1. rewrite !length_join. lia. }
  rewrite Hsz, u64_id.
  - by replace (_ <? _) with false by zcase.
  - rewrite <- Hsz. rewrite Hsz at 1. nia.
Qed.

(** [evStrReplace] terminates for a non-empty pattern and replaces exactly the
    occurrences of the pattern: the result has the pieces of the original text that lie
    between them, none of which contains the pattern, joined by the replacement; the
    memory it allocates is enough for it. *)
Theorem evStrReplace_correct (orig rep wth : list Z) :
  rep ≠ [] →
  Z.of_nat (length orig) * (1 + Z.of_nat (length wth)) < 18446744073709551615 →
  ∃ p ps, orig = join rep p ps ∧ Forall (λ q, strstr q rep = None) (p :: ps) ∧
    evStrReplace [] (Some orig) (Some rep) (Some wth) = Ret (Some (join wth p ps), []).
Proof. apply evStrReplace_pieces. Qed.

Lemma evStrReplace_correct_witness :
  ∃ p ps, cs "run%s_%s" = join (cs "%s") p ps ∧
    Forall (λ q, strstr q (cs "%s") = None) (p :: ps) ∧
    evStrReplace [] (Some (cs "run%s_%s")) (Some (cs "%s")) (Some (cs "hps")) =
      Ret (Some (join (cs "hps") p ps), []).
Proof. apply evStrReplace_correct; [discriminate|reflexivity]. Defined.

(** ** Specifiers of a base name *)

(** A scan that has come to [start] without a replacement goes on as the scan from the
    beginning does. *)
Definition scanned (result : list Z) (start : nat) (count : Z) : Prop :=
  ∃ j, ∀ f o, find_loop (j + f) o result 0 0 = find_loop f o result start count.

Lemma find_loop_last fuel o result start count r n o' :
  scanned result start count →
  find_loop fuel o result start count = Ret (Some r, Some n, o') →
  ∃ f, ∀ o, find_loop f o r 0 0 = Ret (Some r, Some n, o).
Proof.
  revert o result start count. induction fuel as [|fuel IH]; intros o result start count [j Hj] H;
    [done|].
  cbn [find_loop] in H. destruct (strstr (drop start result) (cs "%")) as [k|] eqn:E.
  - destruct (find_step result (start + k) count) as [[st ct| |old new]| | |] eqn:Es; try done;
      cbn [mbind res_bind] in H.
    + apply IH in H; [done|]. exists (j + 1)%nat. intros f o2.
      rewrite <- Nat.add_assoc, Hj. cbn [Nat.add find_loop]. rewrite E, Es. done.
    + destruct (evStrReplace o _ _ _) as [[[res|] o2]| | |]; try done. cbn [mbind res_bind] in H.
      apply IH in H; [done|]. exists O. done.
  - injection H as -> -> ->. exists (j + 1)%nat. intros o2.
    rewrite Hj. cbn [find_loop]. by rewrite E.
Qed.

(** The string [evStrFindSpecifiers] returns needs no further change: given that
    string, it returns it again, with the same number of specifiers. *)
Theorem evStrFindSpecifiers_stable (fuel : nat) (o : faults) (orig r : list Z) (n : Z) (o' : faults) :
  evStrFindSpecifiers fuel o (Some orig) true = Ret (Some r, Some n, o') →
  ∃ f, evStrFindSpecifiers f [] (Some r) true = Ret (Some r, Some n, []).
Proof.
  unfold evStrFindSpecifiers. cbn [negb].
  destruct (malloc_ok o) as [[|] o1]; [|done]. intros H. cbn [negb] in H.
  eapply find_loop_last in H as [f Hf]; [|by exists O]. exists f. apply Hf.
Qed.

Lemma evStrFindSpecifiers_stable_witness :
  ∃ f, evStrFindSpecifiers f [] (Some (cs "run%03d_%0x")) true =
       Ret (Some (cs "run%03d_%0x"), Some 2, []).
Proof.
  apply (evStrFindSpecifiers_stable 100 [] (cs "run%3d_%x") _ _ []). vm_compute. reflexivity.
Defined.

(** ** Names of split files *)

Lemma vsprintf_plain l fmt args :
  chr "%" ∉ l → vsprintf (l ++ fmt) None args = (r ← vsprintf fmt None args; Ret (l ++ r)).
Proof.
  induction l as [|c l IH]; intros Hl; cbn [app].
  - by destruct (vsprintf fmt None args).
  - rewrite not_elem_of_cons in Hl. destruct Hl as [Hc Hl]. cbn [vsprintf].
    replace (c =? chr "%") with false by zcase. rewrite IH by done.
    by destruct (vsprintf fmt None args).
Qed.

Lemma print_nat_short n : 0 ≤ n < 10000000000 → (length (print_nat 10 n) ≤ 10)%nat.
Proof.
  intros Hn. unfold print_nat.
  assert (∀ k fuel n acc, (k ≤ fuel)%nat → (1 ≤ k)%nat → 0 ≤ n < 10 ^ Z.of_nat k →
            (length (digits_of fuel 10 n acc) ≤ k + length acc)%nat) as Hd.
  { intros k. induction k as [|k IH]; intros fuel i acc Hf Hk Hi; [lia|].
    destruct fuel as [|fuel]; [lia|]. cbn [digits_of].
    destruct (Z.eqb_spec (i / 10) 0); [cbn; lia|].
    rewrite Nat2Z.inj_succ, Z.pow_succ_r in Hi by lia.
    assert (0 ≤ i / 10 < 10 ^ Z.of_nat k) as Hb.
    { split; [apply Z.div_pos; lia|]. apply Z.div_lt_upper_bound; lia. }
    destruct k as [|k]; [cbn in Hb; lia|].
    etrans; [apply IH; [lia|lia|exact Hb]|]. cbn. lia. }
  etrans; [apply (Hd 10%nat); [lia|lia|]|cbn; lia]. cbn. lia.
Qed.

Lemma split_name base split :
  chr "%" ∉ base → 0 ≤ split < 2147483648 →
  split_file_name [] base 0 1 split = Ret (Some (base ++ cs "." ++ print_nat 10 split), []).
Proof.
  intros Hb Hs. unfold split_file_name. cbn [Z.ltb Z.compare malloc_ok negb].
  unfold sprintf. rewrite vsprintf_plain by done.
  assert (s32 split = split) as Hs32 by (unfold s32, u32; rewrite Z.mod_small by lia; zcase).
  cbn [cs vsprintf Z.eqb mbind res_bind].
  change (chr "." =? chr "%") with false. change (chr "%" =? chr "%") with true.
  change (chr "d" =? 48) with false. cbn [andb].
  change (isdigit (chr "d")) with false. change (chr "d" =? chr "d") with true.
  cbn [orb mbind res_bind]. unfold print_field. change (chr "d" =? chr "d") with true.
  cbn [andb]. rewrite Hs32. replace (split <? 0) with false by zcase.
  rewrite Z.abs_eq by lia. cbn [length Nat.add].
  replace (Z.to_nat (0 - _)) with O by lia. cbn [replicate app].
  rewrite app_nil_r, length_app. cbn [length].
  pose proof (print_nat_short split ltac:(lia)).
  by replace (_ <? _) with false by zcase.
Qed.

Lemma evStrReplace_none base rep wth :
  rep ≠ [] → strstr base rep = None → Z.of_nat (length base) < 18446744073709551615 →
  evStrReplace [] (Some base) (Some rep) wth = Ret (Some base, []).
Proof.
  intros Hrep Hs Hlen. unfold evStrReplace. cbn [default count_replacements]. unfold id.
  rewrite Hs. cbn [mbind res_bind malloc_ok negb]. rewrite Z.mul_0_r, Z.add_0_r, (u64_id (_ + 1)) by lia.
  change (Z.to_nat 0) with O. cbn [replace_loop mbind res_bind]. by replace (_ <? _) with false by zcase.
Qed.

(** Without splitting, a name that has no specifier is used as it is. *)
Lemma whole_name base run split runType :
  chr "%" ∉ base → Z.of_nat (length base) < 4294967296 → 1 ≤ run →
  evGenerateFileName [] (Some (EV_WRITEFILE, Some base)) 0 run false split runType =
  Ret (Some base, Some base, []).
Proof.
  intros Hb Hlen Hrun. unfold evGenerateFileName. cbn [mbind option_bind snd andb].
  replace (run <? 1) with false by zcase. cbn [orb negb Z.eqb Z.ltb Z.compare EV_WRITEFILE Pos.eqb].
  by rewrite evStrReplace_none by (discriminate || by apply strstr_char_None || lia).
Qed.

(** A name without variables and specifiers is its own base name. *)
Lemma base_name getenv fuel base :
  chr "%" ∉ base → chr "$" ∉ base → base ≠ [] → (1 ≤ fuel)%nat →
  evGenerateBaseFileName getenv fuel [] (Some base) true = Ret (S_SUCCESS, Some (base, 0), []).
Proof.
  intros Hp Hd Hne Hf. destruct fuel as [|fuel]; [lia|]. unfold evGenerateBaseFileName.
  assert (1 ≤ Z.of_nat (length base)) by (destruct base; [done|cbn; lia]).
  replace (_ <? 1) with false by zcase. cbn [negb orb]. unfold evStrReplaceEnvVar.
  cbn [malloc_ok negb env_loop]. change (cs "$(") with (chr "$" :: cs "(").
  rewrite strstr_char_None by done. cbn [mbind res_bind]. unfold evStrFindSpecifiers.
  cbn [malloc_ok negb find_loop]. rewrite drop_0. change (cs "%") with [chr "%"].
  by rewrite strstr_char_None.
Qed.

(** When the file is being split and its name has no specifier, the name of a split
    file is the base name, a period and the decimal split number, so two different
    split numbers never name the same file. *)
Theorem split_files_differ (base : list Z) (run i j : Z) (runType : option (list Z)) :
  chr "%" ∉ base → Z.of_nat (length base) < 4294967296 → 1 ≤ run →
  0 ≤ i < 2147483648 → 0 ≤ j < 2147483648 → i ≠ j →
  ∃ ni nj,
    evGenerateFileName [] (Some (EV_WRITEFILE, Some base)) 0 run true i runType =
      Ret (Some ni, Some base, []) ∧
    evGenerateFileName [] (Some (EV_WRITEFILE, Some base)) 0 run true j runType =
      Ret (Some nj, Some base, []) ∧
    ni = base ++ cs "." ++ print_nat 10 i ∧ ni ≠ nj.
Proof.
  intros Hb Hlen Hr Hi Hj Hne.
  assert (∀ k, 0 ≤ k < 2147483648 →
    evGenerateFileName [] (Some (EV_WRITEFILE, Some base)) 0 run true k runType =
      Ret (Some (base ++ cs "." ++ print_nat 10 k), Some base, [])) as Hn.
  { intros k Hk. unfold evGenerateFileName. cbn [mbind option_bind snd andb].
    replace ((k <? 0) || (run <? 1) || (0 <? 0) || (2 <? 0)) with false by (symmetry; zcase).
    cbn [negb Z.eqb EV_WRITEFILE Pos.eqb]. rewrite evStrReplace_none by
      (discriminate || by apply strstr_char_None || lia).
    cbn [mbind res_bind]. change (split_file_name [] base 0 run k) with
      (split_file_name [] base 0 1 k).
    by rewrite split_name. }
  eexists _, _. split_and!; [by apply Hn|by apply Hn|done|].
  intros H. apply app_inv_head, app_inv_head in H. apply Hne.
  apply print_int_inj; [lia|lia|]. unfold print_int. by rewrite !(proj2 (Z.ltb_ge _ _)) by lia.
Qed.

Lemma split_files_differ_witness :
  ∃ ni nj,
    evGenerateFileName [] (Some (EV_WRITEFILE, Some (cs "run"))) 0 5 true 1 None =
      Ret (Some ni, Some (cs "run"), []) ∧
    evGenerateFileName [] (Some (EV_WRITEFILE, Some (cs "run"))) 0 5 true 2 None =
      Ret (Some nj, Some (cs "run"), []) ∧
    ni = cs "run" ++ cs "." ++ print_nat 10 1 ∧ ni ≠ nj.
Proof.
  apply split_files_differ; try lia; [|reflexivity].
  apply (bool_decide_unpack _). vm_compute. exact I.
Defined.

(** What file names with specifiers do outside of the documented cases: two
    specifiers without splitting give [sprintf] one argument for two conversions; a
    field wider than the space allowed for an int overruns the name; adjacent
    specifiers are not all removed; a bad specifier is reported as a failure to
    allocate; and a variable whose value refers to itself is substituted forever. *)
Theorem file_name_limits (fuel : nat) :
  evGenerateFileName [] (Some (EV_WRITEFILE, Some (cs "r%03d_%03d"))) 2 7 false 0 None = Undef ∧
  evGenerateFileName [] (Some (EV_WRITEFILE, Some (cs "%099d"))) 1 7 false 0 None = Undef ∧
  evStrRemoveSpecifiers [] (Some (cs "%d%d")) = Ret (Some (cs "%d"), []) ∧
  evGenerateBaseFileName (λ _, None) 100 [] (Some (cs "run%5f")) true =
    Ret (S_EVFILE_ALLOCFAIL, None, []) ∧
  evStrReplaceEnvVar (λ _, Some (cs "$(A)")) fuel [] (Some (cs "$(A)")) = NoFuel.
Proof.
  split_and!; [by vm_compute..|].
  unfold evStrReplaceEnvVar. cbn [malloc_ok negb].
  induction fuel as [|fuel IH]; [done|]. cbn [env_loop].
  change (strstr (cs "$(A)") (cs "$(")) with (Some O). cbn iota beta.
  change (strstr (drop 0 (cs "$(A)")) (cs ")")) with (Some 3%nat).
  cbn [malloc_ok negb]. change (take (3 - 2) (drop (0 + 2) (cs "$(A)"))) with (cs "A").
  change (256 <? Z.of_nat (length (cs "A")) + 4) with false. cbn beta.
  assert (evStrReplace [] (Some (cs "$(A)")) (Some (cs "$(" ++ cs "A" ++ cs ")"))
            (Some (cs "$(A)")) = Ret (Some (cs "$(A)"), [])) as -> by (by vm_compute).
  exact IH.
Qed.

Lemma trim_front_spec s r :
  trim_front s = Some r →
  ∃ a c r', s = a ++ r ∧ Forall (λ c, dropped c = true) a ∧ r = c :: r' ∧ dropped c = false.
Proof.
  revert r. induction s as [|c s IH]; intros r; [done|]. cbn [trim_front].
  destruct (dropped c) eqn:E.
  - intros (a & d & r' & -> & Ha & -> & Hd)%IH. exists (c :: a), d, r'.
    split_and!; [done|by constructor|done|done].
  - intros [= <-]. exists [], c, s. split_and!; [done|constructor|done|done].
Qed.

Lemma trim_back_spec r :
  ∃ b, r = b ++ trim_back r ∧ Forall (λ c, dropped c = true) b ∧
       match trim_back r with [] => True | c :: _ => dropped c = false end.
Proof.
  induction r as [|c r (b & Hb & Hall & Hc)]; cbn [trim_back]; [by exists []|].
  destruct (dropped c) eqn:E.
  - exists (c :: b). split_and!; [cbn; by rewrite <- Hb|by constructor|done].
  - by exists [].
Qed.

(** [evTrim] removes exactly the spaces and unprintable characters at both ends: what
    it removes is of that kind, the first and last characters it keeps are not, and it
    gives NULL only when there is nothing else. *)
Theorem evTrim_correct (s : list Z) (skip : nat) :
  (skip ≤ length s)%nat →
  match evTrim (Some s) (Z.of_nat skip) with
  | Ret (Some r) => ∃ a b c d,
      drop skip s = a ++ r ++ b ∧ Forall (λ c, dropped c = true) (a ++ b) ∧
      head r = Some c ∧ head (rev r) = Some d ∧ dropped c = false ∧ dropped d = false
  | Ret None => Forall (λ c, dropped c = true) (drop skip s)
  | _ => False
  end.
Proof.
  intros Hs. unfold evTrim. replace (Z.of_nat skip <? 0) with false by zcase.
  replace (_ <? _) with false by zcase. rewrite Nat2Z.id.
  destruct (trim_front (drop skip s)) as [r|] eqn:E.
  - destruct (trim_front_spec _ _ E) as (a & c & r' & Hd & Ha & -> & Hc).
    destruct (trim_back_spec (rev (c :: r'))) as (b & Hb & Hall & Hlast).
    destruct (trim_back (rev (c :: r'))) as [|d t] eqn:Et.
    { rewrite app_nil_r in Hb. rewrite <- Hb in Hall. exfalso.
      rewrite Forall_forall in Hall. specialize (Hall c).
      rewrite Hall in Hc; [done|]. rewrite <- in_rev. by left. }
    exists a, (rev b), c, d. cbn [rev] in *.
    assert (c :: r' = rev (d :: t) ++ rev b) as Hcr.
    { rewrite <- rev_app_distr, <- Hb. cbn. by rewrite rev_app_distr, rev_involutive. }
    cbn [rev] in Hcr. split_and!.
    + by rewrite Hd, Hcr.
    + apply Forall_app. split; [done|by apply Forall_rev].
    + destruct (rev t ++ [d]) as [|x l] eqn:El; [by destruct (rev t)|]. by injection Hcr as -> _.
    + by rewrite rev_app_distr.
    + done.
    + done.
  - clear -E. induction (drop skip s) as [|c l IH]; [constructor|].
    cbn [trim_front] in E. destruct (dropped c) eqn:Ed; [|done]. constructor; auto.
Qed.

Lemma evTrim_correct_witness :
  (1 ≤ length (cs "x  dict  "))%nat ∧
  match evTrim (Some (cs "x  dict  ")) (Z.of_nat 1) with
  | Ret (Some r) => ∃ a b c d,
      drop 1 (cs "x  dict  ") = a ++ r ++ b ∧ Forall (λ c, dropped c = true) (a ++ b) ∧
      head r = Some c ∧ head (rev r) = Some d ∧ dropped c = false ∧ dropped d = false
  | Ret None => Forall (λ c, dropped c = true) (drop 1 (cs "x  dict  "))
  | _ => False
  end.
Proof. split; [cbn; lia|]. apply (evTrim_correct (cs "x  dict  ") 1). cbn. lia. Defined.
