(* ===== verification/EvioState.v ===== *)
(** * The handle structure and the world around it (evio.h, evio.c lines 277-330, 500-870)

    The state of the library is the table of handles with its locks; the outside is
    the heap of word buffers, the files, the sockets and the outcomes of the coming
    allocations and writes.  A [uint32_t] pointer is an object of the heap and an offset
    in words; an access outside of an object, or to a freed one, is [Undef]. *)

From S2P Require Import Prelude Words CString Memory EvioFmt EvioSwapArrays EvioFmtSwap.
From S2P Require Import EvioSwap EvioTypes.

(** ** Words of files *)

Definition bytes_of (ws : list Z) : list Z := flat_map (le 4) ws.

Fixpoint words_of (l : list Z) : list Z :=
  match l with
  | a :: b :: c :: d :: l => le_val [a; b; c; d] :: words_of l
  | _ => []
  end.

(** ** The heap of word buffers *)

Record ptr := Ptr { p_obj : Z; p_off : Z }.
Definition null : ptr := Ptr 0 0.
Definition is_null (p : ptr) : bool := p_obj p =? 0.
Definition padd (p : ptr) (n : Z) : ptr := Ptr (p_obj p) (p_off p + n).

Notation heap := (gmap Z (list Z)).

(** A run of [n] words at [p], in bounds of its object. *)
Definition hread (h : heap) (p : ptr) (n : Z) : res (list Z) :=
  l ← of_option (h !! p_obj p);
  if (0 <=? n) && (0 <=? p_off p) && (p_off p + n <=? Z.of_nat (length l))
  then Ret (take (Z.to_nat n) (drop (Z.to_nat (p_off p)) l)) else Undef.

Definition hwrite (h : heap) (p : ptr) (ws : list Z) : res heap :=
  l ← of_option (h !! p_obj p);
  if (0 <=? p_off p) && (p_off p + Z.of_nat (length ws) <=? Z.of_nat (length l))
  then Ret (<[p_obj p := take (Z.to_nat (p_off p)) l ++ ws ++
                         drop (Z.to_nat (p_off p) + length ws) l]> h)
  else Undef.

(** [p[i]] as a value and as the target of an assignment. *)
Definition hget (h : heap) (p : ptr) (i : Z) : res Z :=
  l ← hread h (padd p i) 1; of_option (head l).
Definition hput (h : heap) (p : ptr) (i v : Z) : res heap := hwrite h (padd p i) [v].

(** ** Files and sockets *)

(** An open stream: a position in the bytes of a named file and the two indicators. *)
Record FILE := mkFILE { f_name : list Z; f_pos : Z; f_eof : bool; f_err : bool }.
#[export] Instance eta_FILE : Eta FILE := λ f, mkFILE (f_name f) (f_pos f) (f_eof f) (f_err f).

(** What the next system calls of a socket do: transfer up to that many bytes, be
    interrupted, or fail; once the list is empty they transfer all they can. *)
Inductive sys := Part (n : positive) | Intr | Fail.
#[export] Instance sys_eq_dec : EqDecision sys.
Proof. solve_decision. Defined.
Record sock := mkSock { s_in : list Z; s_out : list Z; s_sys : list sys }.

Record world := World {
  w_heap : heap;
  w_brk : Z;                          (** the next object of the heap *)
  w_files : gmap (list Z) (list Z);   (** the bytes of each file; a pipe is named by its command *)
  w_socks : gmap Z sock;
  w_mem : faults;                     (** outcomes of the coming allocations *)
  w_io : faults;                      (** outcomes of the coming openings and writes of files *)
  w_errno : Z                         (** what a failing call leaves in errno *)
}.
#[export] Instance eta_world : Eta world := λ w,
  World (w_heap w) (w_brk w) (w_files w) (w_socks w) (w_mem w) (w_io w) (w_errno w).

(** malloc and calloc of [n] words: NULL or a new object, whose words are 0 (those of
    malloc are not specified; the code does not read them before it writes them). *)
Definition halloc (w : world) (n : Z) : ptr * world :=
  let '(ok, o) := malloc_ok (w_mem w) in
  let w := w <| w_mem := o |> in
  if negb ok then (null, w)
  else (Ptr (w_brk w) 0,
        w <| w_heap ::= λ h, <[w_brk w := replicate (Z.to_nat n) 0]> h |> <| w_brk ::= Z.succ |>).

(** free *)
Definition hfree (w : world) (p : ptr) : world := w <| w_heap ::= λ h, delete (p_obj p) h |>.

(** An allocation whose content is not modelled. *)
Definition alloc_ok (w : world) : bool * world :=
  let '(ok, o) := malloc_ok (w_mem w) in (ok, w <| w_mem := o |>).
Definition io_ok (w : world) : bool * world :=
  let '(ok, o) := malloc_ok (w_io w) in (ok, w <| w_io := o |>).

(** stdio *)
Definition fopen_r (w : world) (name : list Z) : option FILE :=
  match w_files w !! name with
  | Some _ => Some (mkFILE name 0 false false)
  | None => None
  end.
Definition fopen_w (w : world) (name : list Z) : option FILE * world :=
  let '(ok, w) := io_ok w in
  if ok then (Some (mkFILE name 0 false false), w <| w_files ::= λ m, <[name := []]> m |>)
  else (None, w).

(** At most [n] bytes from the stream. *)
Definition fread (w : world) (f : FILE) (n : Z) : list Z * FILE :=
  let content := default [] (w_files w !! f_name f) in
  let l := take (Z.to_nat n) (drop (Z.to_nat (f_pos f)) content) in
  (l, f <| f_pos ::= λ p, p + Z.of_nat (length l) |>
        <| f_eof ::= λ e, e || (Z.of_nat (length l) <? n) |>).

Definition fwrite (w : world) (f : FILE) (l : list Z) : Z * FILE * world :=
  let '(ok, w) := io_ok w in
  if ok then
    let content := default [] (w_files w !! f_name f) in
    let pos := Z.to_nat (f_pos f) in
    let content := take pos content ++ replicate (pos - length content) 0 ++ l ++
                   drop (pos + length l) content in
    (Z.of_nat (length l), f <| f_pos ::= λ p, p + Z.of_nat (length l) |>,
     w <| w_files ::= λ m, <[f_name f := content]> m |>)
  else (0, f <| f_err := true |>, w).

(** fseek to [pos]; negative positions are refused. *)
Definition fseek (f : FILE) (pos : Z) : bool * FILE :=
  if pos <? 0 then (false, f) else (true, f <| f_pos := pos |> <| f_eof := false |>).

Definition clearerr (f : FILE) : FILE := f <| f_eof := false |> <| f_err := false |>.

(** Bytes stored at [p]: whole words are replaced, and the low bytes of a last word that
    is not complete. *)
Definition hwrite_bytes (h : heap) (p : ptr) (l : list Z) : res heap :=
  let n := (Z.of_nat (length l) + 3) / 4 in
  old ← hread h p n;
  hwrite h p (words_of (l ++ drop (length l) (bytes_of old))).

(** fread into the heap: the number of bytes read. *)
Definition fread_heap (w : world) (p : ptr) (n : Z) (f : FILE) : res (Z * FILE * world) :=
  let '(l, f) := fread w f n in
  h ← hwrite_bytes (w_heap w) p l;
  Ret (Z.of_nat (length l), f, w <| w_heap := h |>).

Fixpoint tcp_write_loop (script : list sys) (l : list Z) (out : list Z)
  : option (list Z * list sys) * list Z * list sys :=
  match l with
  | [] => (Some ([], script), out, script)
  | _ =>
      match script with
      | [] => (Some ([], []), out ++ l, [])
      | Part k :: script =>
          let k := Pos.to_nat k in
          tcp_write_loop script (drop k l) (out ++ take k l)
      | Intr :: script => tcp_write_loop script l out
      | Fail :: script => (None, out, script)
      end
  end.

(** The loop over write(); a failure other than an interruption gives its result, -1.
    The number of bytes is an int: one that is negative is returned at once. *)
Definition tcpWrite (w : world) (fd : Z) (l : list Z) : Z * world :=
  let n := s32 (Z.of_nat (length l)) in
  if n <? 0 then (n, w) else
  match w_socks w !! fd with
  | None => (-1, w)
  | Some s =>
      let '(r, out, script) := tcp_write_loop (s_sys s) l (s_out s) in
      (match r with Some _ => Z.of_nat (length l) | None => -1 end,
       w <| w_socks ::= λ m, <[fd := mkSock (s_in s) out script]> m |>)
  end.

(** The loop over read(): the bytes read so far, what is left of the stream, and whether
    a call failed.  No more bytes is the end of the stream. *)
Fixpoint tcp_read_loop (script : list sys) (nleft : nat) (inc : list Z) (acc : list Z)
  : bool * list Z * list Z * list sys :=
  match nleft with
  | O => (true, acc, inc, script)
  | _ =>
      match script with
      | [] => (true, acc ++ take nleft inc, drop nleft inc, [])
      | Part k :: script =>
          match inc with
          | [] => (true, acc, inc, script)
          | _ =>
              let k := Nat.min nleft (Pos.to_nat k) in
              let got := take k inc in
              tcp_read_loop script (nleft - length got) (drop k inc) (acc ++ got)
          end
      | Intr :: script => tcp_read_loop script nleft inc acc
      | Fail :: script => (false, acc, inc, script)
      end
  end.

(** The value returned and the bytes stored. *)
Definition tcpRead (w : world) (fd : Z) (n : Z) : Z * list Z * world :=
  match w_socks w !! fd with
  | None => (-1, [], w)
  | Some s =>
      let '(ok, l, inc, script) := tcp_read_loop (s_sys s) (Z.to_nat n) (s_in s) [] in
      (if ok then Z.of_nat (length l) else -1, l,
       w <| w_socks ::= λ m, <[fd := mkSock inc (s_out s) script]> m |>)
  end.

(** ** The handle structure *)

Record EVFILE := mkEVFILE {
  a_file : option FILE; a_handle : Z; a_rw : Z; a_magic : Z; a_byte_swapped : bool;
  a_version : Z; a_append : Z; a_eventCount : Z;
  (* block stuff *)
  a_buf : ptr; a_next : ptr; a_left : Z; a_blksiz : Z; a_blknum : Z; a_blkNumDiff : Z;
  a_blkSizeTarget : Z; a_blkEvCount : Z; a_bufSize : Z; a_bufRealSize : Z; a_blkEvMax : Z;
  a_isLastBlock : bool;
  (* file stuff *)
  a_baseFileName : option (list Z); a_fileName : option (list Z); a_runType : option (list Z);
  a_specifierCount : Z; a_splitting : bool; a_currentHeader : ptr; a_bytesToBuf : Z;
  a_eventsToBuf : Z; a_eventsToFile : Z; a_bytesToFile : Z; a_runNumber : Z;
  a_splitNumber : Z; a_split : Z; a_fileSize : Z;
  (* buffer stuff *)
  a_rwBuf : ptr; a_rwBufSize : Z; a_rwBytesOut : Z; a_rwBytesIn : Z; a_rwFirstWrite : bool;
  (* socket stuff *)
  a_sockFd : Z;
  (* random access stuff *)
  a_randomAccess : bool; a_mmapFileSize : Z; a_mmapFile : ptr; a_pTable : option (list ptr);
  (* dictionary, first event, common block *)
  a_hasAppendDictionary : bool; a_wroteDictionary : bool; a_dictLength : Z;
  a_dictBuf : option (list Z); a_dictionary : option (list Z); a_wroteFirstEvent : bool;
  a_firstEventLength : Z; a_firstEventBuf : option (list Z); a_wroteCommonBlock : bool;
  a_commonBlkCount : Z;
  (* the mutex: whether it is held *)
  a_lock : bool
}.

#[export] Instance eta_EVFILE : Eta EVFILE := λ a, mkEVFILE
  (a_file a) (a_handle a) (a_rw a) (a_magic a) (a_byte_swapped a) (a_version a) (a_append a)
  (a_eventCount a) (a_buf a) (a_next a) (a_left a) (a_blksiz a) (a_blknum a) (a_blkNumDiff a)
  (a_blkSizeTarget a) (a_blkEvCount a) (a_bufSize a) (a_bufRealSize a) (a_blkEvMax a)
  (a_isLastBlock a) (a_baseFileName a) (a_fileName a) (a_runType a) (a_specifierCount a)
  (a_splitting a) (a_currentHeader a) (a_bytesToBuf a) (a_eventsToBuf a) (a_eventsToFile a)
  (a_bytesToFile a) (a_runNumber a) (a_splitNumber a) (a_split a) (a_fileSize a) (a_rwBuf a)
  (a_rwBufSize a) (a_rwBytesOut a) (a_rwBytesIn a) (a_rwFirstWrite a) (a_sockFd a)
  (a_randomAccess a) (a_mmapFileSize a) (a_mmapFile a) (a_pTable a) (a_hasAppendDictionary a)
  (a_wroteDictionary a) (a_dictLength a) (a_dictBuf a) (a_dictionary a) (a_wroteFirstEvent a)
  (a_firstEventLength a) (a_firstEventBuf a) (a_wroteCommonBlock a) (a_commonBlkCount a)
  (a_lock a).

(** The structure after [structInit]. *)
Definition structInit : EVFILE := {|
  a_file := None; a_handle := 0; a_rw := 0; a_magic := EV_MAGIC; a_byte_swapped := false;
  a_version := EV_VERSION; a_append := 0; a_eventCount := 0;
  a_buf := null; a_next := null; a_left := EV_BLOCKSIZE_V4 - EV_HDSIZ; a_blksiz := EV_HDSIZ;
  a_blknum := 1; a_blkNumDiff := 0; a_blkSizeTarget := EV_BLOCKSIZE_V4; a_blkEvCount := 0;
  a_bufSize := EV_BLOCKSIZE_V4; a_bufRealSize := EV_BLOCKSIZE_V4;
  a_blkEvMax := EV_EVENTS_MAX_DEF; a_isLastBlock := false;
  a_baseFileName := None; a_fileName := None; a_runType := None; a_specifierCount := 0;
  a_splitting := false; a_currentHeader := null; a_bytesToBuf := 4 * EV_HDSIZ;
  a_eventsToBuf := 0; a_eventsToFile := 0; a_bytesToFile := 0; a_runNumber := 1;
  a_splitNumber := 0; a_split := EV_SPLIT_SIZE; a_fileSize := 0;
  a_rwBuf := null; a_rwBufSize := 0; a_rwBytesOut := 0; a_rwBytesIn := 0;
  a_rwFirstWrite := true; a_sockFd := 0;
  a_randomAccess := false; a_mmapFileSize := 0; a_mmapFile := null; a_pTable := None;
  a_hasAppendDictionary := false; a_wroteDictionary := false; a_dictLength := 0;
  a_dictBuf := None; a_dictionary := None; a_wroteFirstEvent := false;
  a_firstEventLength := 0; a_firstEventBuf := None; a_wroteCommonBlock := false;
  a_commonBlkCount := 0; a_lock := false
|}.

(** ** Block headers *)

Definition EV_HD_BLKSIZ : Z := 0.
Definition EV_HD_BLKNUM : Z := 1.
Definition EV_HD_HDSIZ : Z := 2.
Definition EV_HD_COUNT : Z := 3.
Definition EV_HD_START : Z := 3.
Definition EV_HD_USED : Z := 4.
Definition EV_HD_RESVD1 : Z := 4.
Definition EV_HD_VER : Z := 5.
Definition EV_HD_RESVD2 : Z := 6.
Definition EV_HD_MAGIC : Z := 7.

Definition hasDictionaryInt (i : Z) : bool := 0 <? Z.land i EV_DICTIONARY_MASK.
Definition isLastBlockInt (i : Z) : bool := 0 <? Z.land i EV_LASTBLOCK_MASK.
Definition clearLastBlockBitInt (i : Z) : Z := Z.land i (Z.lxor 0xffffffff EV_LASTBLOCK_MASK).

Definition setDictionaryBit (h : heap) (a : ptr) : res heap :=
  v ← hget h a EV_HD_VER; hput h a EV_HD_VER (Z.lor v EV_DICTIONARY_MASK).
Definition hasDictionary (h : heap) (a : ptr) : res bool :=
  v ← hget h a EV_HD_VER; Ret (hasDictionaryInt v).
Definition setLastBlockBit (h : heap) (a : ptr) : res heap :=
  v ← hget h a EV_HD_VER; hput h a EV_HD_VER (Z.lor v EV_LASTBLOCK_MASK).
Definition clearLastBlockBit (h : heap) (a : ptr) : res heap :=
  v ← hget h a EV_HD_VER; hput h a EV_HD_VER (clearLastBlockBitInt v).
Definition isLastBlock (h : heap) (a : ptr) : res bool :=
  v ← hget h a EV_HD_VER; Ret (isLastBlockInt v).

(** The words of the two macros, in the order of the indices. *)
Definition initBlockHeader (h : heap) (a : ptr) : res heap :=
  hwrite h a [0; 1; EV_HDSIZ; 0; 0; EV_VERSION; 0; EV_MAGIC].
Definition initLastBlockHeader (h : heap) (a : ptr) (b : Z) : res heap :=
  hwrite h a [8; b; EV_HDSIZ; 0; 0; Z.lor EV_VERSION EV_LASTBLOCK_MASK; 0; EV_MAGIC].

(** ** The library: the table of handles and its locks *)

(** A read-write lock: the readers that hold it, and whether a writer does. *)
Record rwlock := RW { rw_readers : Z; rw_writer : bool }.

Record lib := Lib {
  l_handleCount : Z;
  l_handleList : option (list (option EVFILE));
  l_handleLocks : option (list rwlock);
  l_getHandleMutex : bool
}.
#[export] Instance eta_lib : Eta lib := λ l,
  Lib (l_handleCount l) (l_handleList l) (l_handleLocks l) (l_getHandleMutex l).

Definition lib_start : lib := Lib 0 None None false.

(** A mutex that is held is not given to anybody. *)
Definition mutexLock (a : EVFILE) : res EVFILE :=
  if a_lock a then Blocked else Ret (a <| a_lock := true |>).
Definition mutexUnlock (a : EVFILE) : EVFILE := a <| a_lock := false |>.

Definition getHandleLock (L : lib) : res lib :=
  if l_getHandleMutex L then Blocked else Ret (L <| l_getHandleMutex := true |>).
Definition getHandleUnlock (L : lib) : lib := L <| l_getHandleMutex := false |>.

(** [handleLocks[handle-1]] *)
Definition get_rwlock (L : lib) (handle : Z) : res rwlock :=
  locks ← of_option (l_handleLocks L); aget locks (handle - 1).
Definition set_rwlock (L : lib) (handle : Z) (k : rwlock) : res lib :=
  locks ← of_option (l_handleLocks L);
  locks ← aset locks (handle - 1) k;
  Ret (L <| l_handleLocks := Some locks |>).

Definition handleReadLock (L : lib) (handle : Z) : res lib :=
  k ← get_rwlock L handle;
  if rw_writer k then Blocked else set_rwlock L handle (RW (rw_readers k + 1) false).
Definition handleReadUnlock (L : lib) (handle : Z) : res lib :=
  k ← get_rwlock L handle; set_rwlock L handle (RW (rw_readers k - 1) (rw_writer k)).
Definition handleWriteLock (L : lib) (handle : Z) : res lib :=
  k ← get_rwlock L handle;
  if rw_writer k || (0 <? rw_readers k) then Blocked else set_rwlock L handle (RW 0 true).
Definition handleWriteUnlock (L : lib) (handle : Z) : res lib :=
  k ← get_rwlock L handle; set_rwlock L handle (RW (rw_readers k) false).

(** [handleList[handle-1]] *)
Definition get_handle (L : lib) (handle : Z) : res (option EVFILE) :=
  l ← of_option (l_handleList L); aget l (handle - 1).
Definition set_handle (L : lib) (handle : Z) (a : option EVFILE) : res lib :=
  l ← of_option (l_handleList L);
  l ← aset l (handle - 1) a;
  Ret (L <| l_handleList := Some l |>).

(** The locks made by calloc and initialised; one that cannot be allocated is
    initialised through NULL. *)
Fixpoint new_locks (n : nat) (w : world) : res (list rwlock * world) :=
  match n with
  | O => Ret ([], w)
  | S n =>
      let '(ok, w) := alloc_ok w in
      if negb ok then Undef else
      '(l, w) ← new_locks n w;
      Ret (RW 0 false :: l, w)
  end.

Definition expandHandles (L : lib) (w : world) : res (Z * lib * world) :=
  match (if l_handleCount L <? 1 then None else l_handleList L) with
  | Some oldList =>
      let newCount := l_handleCount L * 3 / 2 in
      let '(ok, w) := alloc_ok w in
      if negb ok then Ret (S_EVFILE_ALLOCFAIL, L, w) else
      let '(ok, w) := alloc_ok w in
      if negb ok then Ret (S_EVFILE_ALLOCFAIL, L, w) else
      oldLocks ← of_option (l_handleLocks L);
      let more := Z.to_nat (newCount - l_handleCount L) in
      '(locks, w) ← new_locks more w;
      Ret (S_SUCCESS,
           L <| l_handleCount := newCount |>
             <| l_handleList := Some (oldList ++ replicate more None) |>
             <| l_handleLocks := Some (oldLocks ++ locks) |>, w)
  | None =>
      let L := L <| l_handleCount := 100 |> in
      let '(ok, w) := alloc_ok w in
      if negb ok then Ret (S_EVFILE_ALLOCFAIL, L, w) else
      let L := L <| l_handleList := Some (replicate 100 None) |> in
      let '(ok, w) := alloc_ok w in
      if negb ok then Ret (S_EVFILE_ALLOCFAIL, L, w) else
      '(locks, w) ← new_locks 100 w;
      Ret (S_SUCCESS, L <| l_handleLocks := Some locks |>, w)
  end.

(** The test of a handle argument. *)
Definition bad_handle (L : lib) (handle : Z) : bool := (handle <? 1) || (l_handleCount L <? handle).
