(* ===== verification/EvioSockets.v ===== *)
(** * Transfers over a socket (evio.c, lines 793-870)

    A call of the system transfers as many bytes as it likes, or is interrupted; the
    loops around it transfer all of them, in order, whatever it does. *)

From S2P Require Import Prelude Words CString Memory EvioFmt EvioSwapArrays EvioFmtSwap.
From S2P Require Import EvioSwap EvioTypes EvioState.

Lemma tcp_write_loop_ok script l out :
  Fail ∉ script →
  ∃ script', tcp_write_loop script l out = (Some ([], script'), out ++ l, script') ∧
             script' `suffix_of` script.
Proof.
  revert l out. induction script as [|x script IH]; intros l out Hf.
  - destruct l as [|b l]; cbn [tcp_write_loop].
    + exists []. by rewrite app_nil_r.
    + exists []. done.
  - destruct l as [|b l]; cbn [tcp_write_loop].
    { exists (x :: script). by rewrite app_nil_r. }
    assert (Fail ∉ script) as Hf' by (intros H; apply Hf; by right).
    destruct x as [k| |]; [| |exfalso; apply Hf; by left].
    + destruct (IH (drop (Pos.to_nat k) (b :: l)) (out ++ take (Pos.to_nat k) (b :: l)) Hf')
        as (script' & -> & Hs). exists script'. rewrite <- app_assoc, take_drop.
      split; [done|]. by apply suffix_cons_r.
    + destruct (IH (b :: l) out Hf') as (script' & -> & Hs). exists script'.
      split; [done|]. by apply suffix_cons_r.
Qed.

Lemma tcp_read_loop_ok script n inc acc :
  Fail ∉ script → (n ≤ length inc)%nat →
  ∃ script', tcp_read_loop script n inc acc = (true, acc ++ take n inc, drop n inc, script') ∧
             script' `suffix_of` script.
Proof.
  revert n inc acc. induction script as [|x script IH]; intros n inc acc Hf Hn.
  - exists []. destruct n as [|n]; cbn [tcp_read_loop]; [by rewrite take_0, drop_0, app_nil_r|done].
  - destruct n as [|n]; cbn [tcp_read_loop].
    { exists (x :: script). by rewrite take_0, drop_0, app_nil_r. }
    assert (Fail ∉ script) as Hf' by (intros H; apply Hf; by right).
    destruct x as [k| |]; [| |exfalso; apply Hf; by left].
    + destruct inc as [|b inc]; [cbn in Hn; lia|].
      set (m := Nat.min (S n) (Pos.to_nat k)).
      assert (length (take m (b :: inc)) = m) as Hm by (rewrite length_take; cbn [length] in *; lia).
      destruct (IH (S n - m)%nat (drop m (b :: inc)) (acc ++ take m (b :: inc)) Hf')
        as (script' & Hr & Hs).
      { rewrite length_drop. cbn [length] in *. lia. }
      exists script'. rewrite Hm, Hr, drop_drop, <- app_assoc, take_take_drop.
      replace (m + (S n - m))%nat with (S n) by lia. split; [done|]. by apply suffix_cons_r.
    + destruct (IH (S n) inc acc Hf' Hn) as (script' & -> & Hs). exists script'.
      split; [done|]. by apply suffix_cons_r.
Qed.

(** Writing to a socket sends exactly the bytes given, in order, after what was sent
    before, and reading takes exactly the bytes asked for from the front of what arrived,
    however the system calls divide the transfer or are interrupted; the rest of what
    arrived stays. *)
Theorem tcp_transfer (w : world) (fd : Z) (s : sock) (l : list Z) (n : nat) :
  w_socks w !! fd = Some s → Fail ∉ s_sys s → (n ≤ length (s_in s))%nat →
  Z.of_nat (length l) < 2147483648 →
  (∃ script, tcpWrite w fd l =
     (Z.of_nat (length l),
      w <| w_socks ::= λ m, <[fd := mkSock (s_in s) (s_out s ++ l) script]> m |>)) ∧
  (∃ script, tcpRead w fd (Z.of_nat n) =
     (Z.of_nat n, take n (s_in s),
      w <| w_socks ::= λ m, <[fd := mkSock (drop n (s_in s)) (s_out s) script]> m |>)).
Proof.
  intros Hs Hf Hn Hl. split.
  - unfold tcpWrite. rewrite Hs.
    assert (s32 (Z.of_nat (length l)) = Z.of_nat (length l)) as ->
      by (unfold s32, u32; rewrite Z.mod_small by lia; zcase).
    replace (_ <? 0) with false by zcase.
    destruct (tcp_write_loop_ok (s_sys s) l (s_out s) Hf) as (script & -> & _). by exists script.
  - unfold tcpRead. rewrite Hs, Nat2Z.id.
    destruct (tcp_read_loop_ok (s_sys s) n (s_in s) [] Hf Hn) as (script & -> & _). exists script.
    cbn [app]. by rewrite length_take, Nat.min_l.
Qed.

Lemma tcp_transfer_witness :
  let s := mkSock [1; 2; 3; 4; 5] [9] [Part 2; Intr; Part 1] in
  let w := World ∅ 1 ∅ {[ 7 := s ]} [] [] 0 in
  (∃ script, tcpWrite w 7 [6; 7; 8] =
     (Z.of_nat 3, w <| w_socks ::= λ m, <[7 := mkSock (s_in s) (s_out s ++ [6; 7; 8]) script]> m |>)) ∧
  (∃ script, tcpRead w 7 (Z.of_nat 4) =
     (Z.of_nat 4, take 4 (s_in s),
      w <| w_socks ::= λ m, <[7 := mkSock (drop 4 (s_in s)) (s_out s) script]> m |>)).
Proof.
  cbn zeta.
  apply (tcp_transfer (World ∅ 1 ∅ {[ 7 := mkSock [1; 2; 3; 4; 5] [9] [Part 2; Intr; Part 1] ]} [] [] 0)
           7 _ [6; 7; 8] 4); [reflexivity| |cbn; lia|reflexivity].
  cbn [s_sys]. apply (bool_decide_unpack _). vm_compute. exact I.
Defined.
