(* ===== verification/EvioWrite.v ===== *)
(** * Writing events (evio.c, lines 3609-4635)

    The writer keeps blocks in an internal buffer: a block header, the events of the
    block, and after the last of them an empty block header with the "last block" bit,
    which the next event overwrites.  [evFlush] sends the buffer to its destination.
    Operations on a handle take the structure and the world and return a status with
    the new ones; unsigned arithmetic wraps at 32 or 64 bits. *)

From S2P Require Import Prelude Words CString Memory EvioFmt EvioSwapArrays EvioFmtSwap.
From S2P Require Import EvioSwap EvioTypes EvioNames EvioState.

Definition generateSixthWord (version : Z) (hasDictionary isEnd : bool) (eventType : Z) : Z :=
  let version := if hasDictionary then Z.lor version EV_DICTIONARY_MASK else version in
  let version := if isEnd then Z.lor version EV_LASTBLOCK_MASK else version in
  Z.lor version (Z.shiftl (Z.land eventType 0xf) 10).

Definition writeNewHeader (a : EVFILE) (w : world) (wordSize eventCount blockNumber : Z)
    (hasDictionary isLast isCurrentHeader absoluteMode : bool) : res (Z * EVFILE * world) :=
  if u32 (a_bufSize a - a_bytesToBuf a / 4) <? 8 then Ret (S_FAILURE, a, w) else
  let a := if isCurrentHeader then a <| a_currentHeader := a_next a |> else a in
  h ← hwrite (w_heap w) (a_next a)
        [wordSize; blockNumber; 8; eventCount; 0; generateSixthWord 4 hasDictionary isLast 0;
         0; EV_MAGIC];
  let a := if absoluteMode then a else
    a <| a_next ::= λ p, padd p 8 |> <| a_left ::= λ x, u32 (x - 8) |>
      <| a_blksiz := 8 |> <| a_blkEvCount := 0 |> in
  let a := a <| a_bytesToBuf ::= λ x, u32 (x + 4 * EV_HDSIZ) |> in
  Ret (S_SUCCESS, a, w <| w_heap := h |>).

Definition writeEmptyLastBlockHeader (a : EVFILE) (w : world) (blockNumber : Z)
  : res (Z * EVFILE * world) :=
  writeNewHeader a w 8 0 blockNumber false true false true.

Definition expandBuffer (a : EVFILE) (w : world) (newSize : Z) : res (Z * EVFILE * world) :=
  if newSize <=? u32 (4 * a_bufSize a) then Ret (S_SUCCESS, a, w)
  else if newSize <=? u32 (4 * a_bufRealSize a) then
    Ret (S_SUCCESS, a <| a_bufSize := newSize / 4 |>, w)
  else
    let '(biggerBuf, w) := halloc w (newSize / 4) in
    if is_null biggerBuf then Ret (S_EVFILE_ALLOCFAIL, a, w) else
    let w := hfree w (a_buf a) in
    let a := a <| a_buf := biggerBuf |> <| a_currentHeader := biggerBuf |>
               <| a_left := u32 (newSize / 4 - EV_HDSIZ) |>
               <| a_next := padd biggerBuf EV_HDSIZ |>
               <| a_bufRealSize := newSize / 4 |> <| a_bufSize := newSize / 4 |> in
    Ret (S_SUCCESS, a, w).

(** Lines 3797-3820: the event count of the current header. *)
Definition count_event (a : EVFILE) (h : heap) (isDictionary : bool) : res (EVFILE * heap) :=
  if isDictionary then
    let a := a <| a_wroteDictionary := true |> in
    h ← setDictionaryBit h (a_buf a);
    h ← hput h (a_currentHeader a) EV_HD_COUNT 0;
    Ret (a, h)
  else
    let a := a <| a_eventCount ::= λ x, u32 (x + 1) |> in
    h ← hput h (a_currentHeader a) EV_HD_COUNT (a_blkEvCount a);
    h ← (if a_wroteDictionary a && (a_blknum a =? 2) && (0 <? u32 (a_blkEvCount a - 1)) then
           c ← hget h (a_currentHeader a) EV_HD_COUNT;
           hput h (a_currentHeader a) EV_HD_COUNT (u32 (c - 1))
         else Ret h);
    let a := if negb (a_append a =? 0) then a <| a_append := 2 |> else a in
    Ret (a, h).

(** Lines 3822-3838: the block is no longer the last one, and a last header follows it. *)
Definition end_block (a : EVFILE) (w : world) : res (EVFILE * world) :=
  let h := w_heap w in
  last ← isLastBlock h (a_currentHeader a);
  '(a, h) ← (if (last : bool) then
               h ← clearLastBlockBit h (a_currentHeader a);
               Ret (a <| a_blknum ::= λ x, u32 (x + 1) |>, h)
             else Ret (a, h));
  '(_, a, w) ← writeEmptyLastBlockHeader a (w <| w_heap := h |>) (a_blknum a);
  Ret (a, w).

(** [buffer] is the content of the caller's array. *)
Definition writeEventToBuffer (a : EVFILE) (w : world) (buffer : list Z) (wordsToWrite : Z)
    (isDictionary : bool) : res (EVFILE * world) :=
  if Z.of_nat (length buffer) <? wordsToWrite then Undef else
  h ← hwrite (w_heap w) (a_next a) (take (Z.to_nat wordsToWrite) buffer);
  let a := a <| a_blksiz ::= λ x, u32 (x + wordsToWrite) |>
             <| a_bytesToBuf ::= λ x, u32 (x + 4 * wordsToWrite) |>
             <| a_next ::= λ p, padd p wordsToWrite |>
             <| a_left ::= λ x, u32 (x - wordsToWrite) |>
             <| a_blkEvCount ::= λ x, u32 (x + 1) |>
             <| a_eventsToBuf ::= λ x, u32 (x + 1) |> in
  h ← hput h (a_currentHeader a) EV_HD_BLKSIZ (a_blksiz a);
  '(a, h) ← count_event a h isDictionary;
  end_block a (w <| w_heap := h |>).

Definition resetBuffer (a : EVFILE) (w : world) : res (EVFILE * world) :=
  h ← initLastBlockHeader (w_heap w) (a_buf a) (a_blknum a);
  let a := a <| a_currentHeader := a_buf a |> <| a_next := padd (a_buf a) EV_HDSIZ |>
             <| a_left := u32 (a_bufSize a - EV_HDSIZ) |> <| a_blksiz := EV_HDSIZ |>
             <| a_blkEvCount := 0 |> <| a_bytesToBuf := 4 * EV_HDSIZ |>
             <| a_eventsToBuf := 0 |> in
  Ret (a, w <| w_heap := h |>).

(** The first word of an event or a dictionary. *)
Definition first_word (buffer : list Z) : res Z := of_option (head buffer).

Definition evWriteDictImpl (a : EVFILE) (w : world) : res (Z * EVFILE * world) :=
  dictBuf ← of_option (a_dictBuf a);
  d0 ← first_word dictBuf;
  let nToWrite := u32 (d0 + 1) in
  '(status, a, w) ←
    (if u32 (4 * a_bufSize a) <? u32 (4 * (nToWrite + 2 * EV_HDSIZ)) then
       if a_rw a =? EV_WRITEBUF then Ret (S_EVFILE_TRUNC, a, w) else
       '(status, a, w) ← expandBuffer a w (u32 (4 * (nToWrite + 2 * EV_HDSIZ)));
       if negb (status =? S_SUCCESS) then Ret (status, a, w) else
       '(a, w) ← resetBuffer a w;
       Ret (S_SUCCESS, a, w)
     else Ret (S_SUCCESS, a, w));
  if negb (status =? S_SUCCESS) then Ret (status, a, w) else
  '(a, w) ← writeEventToBuffer a w dictBuf nToWrite true;
  Ret (S_SUCCESS, a <| a_commonBlkCount ::= λ x, u32 (x + 1) |>, w).

(** The words [evWriteCommonBlock] counts: the dictionary replaces, instead of adding
    to, the two block headers. *)
Definition common_block_words (a : EVFILE) : res Z :=
  n ← (match a_dictBuf a with
       | Some d => d0 ← first_word d; Ret (u32 (d0 + 1))
       | None => Ret (2 * EV_HDSIZ)
       end);
  match a_firstEventBuf a with
  | Some e => e0 ← first_word e; Ret (u32 (n + (e0 + 1)))
  | None => Ret n
  end.

Definition evWriteCommonBlock (a : EVFILE) (w : world) : res (Z * EVFILE * world) :=
  numWordsToWrite ← common_block_words a;
  '(status, a, w) ←
    (if a_bufSize a <? numWordsToWrite then
       if a_rw a =? EV_WRITEBUF then Ret (S_EVFILE_TRUNC, a, w) else
       '(status, a, w) ← expandBuffer a w (u32 (4 * numWordsToWrite));
       if negb (status =? S_SUCCESS) then Ret (status, a, w) else
       '(a, w) ← resetBuffer a w;
       Ret (S_SUCCESS, a, w)
     else Ret (S_SUCCESS, a, w));
  if negb (status =? S_SUCCESS) then Ret (status, a, w) else
  '(a, w) ← (match a_dictBuf a with
             | Some d => d0 ← first_word d; writeEventToBuffer a w d (u32 (d0 + 1)) true
             | None => Ret (a, w)
             end);
  '(a, w) ← (match a_firstEventBuf a with
             | Some e =>
                 let a := match a_dictBuf a with
                          | Some _ => a <| a_bytesToBuf ::= λ x, u32 (x - 4 * EV_HDSIZ) |>
                          | None => a
                          end in
                 e0 ← first_word e; writeEventToBuffer a w e (u32 (e0 + 1)) false
             | None => Ret (a, w)
             end);
  Ret (S_SUCCESS, a <| a_wroteCommonBlock := true |>, w).

(** ** Flushing and splitting *)

Definition fileExists (w : world) (filename : list Z) : bool :=
  match fopen_r w filename with Some _ => true | None => false end.

(** The name for the next file; the split number goes up by one. *)
Definition next_file_name (a : EVFILE) (w : world) : res (option (list Z) * EVFILE * world) :=
  '(name, base, o) ← evGenerateFileName (w_mem w) (Some (a_rw a, a_baseFileName a))
     (a_specifierCount a) (s32 (a_runNumber a)) (a_splitting a) (s32 (a_splitNumber a))
     (a_runType a);
  Ret (name, a <| a_splitNumber ::= λ x, u32 (x + 1) |> <| a_baseFileName := base |>,
       w <| w_mem := o |>).

(** Lines 4491-4519: create the file, under a name made now if there is none. *)
Definition create_file (a : EVFILE) (w : world) : res (Z * EVFILE * world) :=
  '(status, a, w) ←
    (match a_fileName a with
     | None =>
         '(fname, a, w) ← next_file_name a w;
         match fname with
         | None => Ret (S_FAILURE, a, w)
         | Some _ => Ret (S_SUCCESS, a <| a_fileName := fname |>, w)
         end
     | Some _ => Ret (S_SUCCESS, a, w)
     end);
  if negb (status =? S_SUCCESS) then Ret (status, a, w) else
  name ← of_option (a_fileName a);
  if a_splitting a && fileExists w name then Ret (S_FAILURE, a, w) else
  let '(f, w) := fopen_w w name in
  match f with
  | None => Ret (S_FAILURE, a, w)
  | Some _ => Ret (S_SUCCESS, a <| a_file := f |>, w)
  end.

(** Lines 4482-4538: the internal buffer goes to the file, over the last empty block
    header if something is there already.  The status and the bytes written. *)
Definition flush_to_file (a : EVFILE) (w : world) (bytesToWrite : Z)
  : res (Z * Z * EVFILE * world) :=
  let a := a <| a_file ::= option_map clearerr |> in
  '(status, a, w) ←
    (if a_bytesToFile a <? 1 then
       match a_file a with
       | None => create_file a w
       | Some _ => Ret (S_SUCCESS, a, w)
       end
     else
       f ← of_option (a_file a);
       Ret (S_SUCCESS, a <| a_file := Some (snd (fseek f (f_pos f - 4 * EV_HDSIZ))) |>, w));
  if negb (status =? S_SUCCESS) then Ret (status, 0, a, w) else
  f ← of_option (a_file a);
  l ← hread (w_heap w) (a_buf a) (bytesToWrite / 4);
  let '(nBytes, f, w) := fwrite w f (bytes_of l) in
  let a := a <| a_file := Some f |> in
  if f_err f then Ret (S_FAILURE, nBytes, a, w) else Ret (S_SUCCESS, nBytes, a, w).

Definition evFlush (a : EVFILE) (w : world) : res (Z * EVFILE * world) :=
  if a_eventsToBuf a <? 1 then Ret (S_SUCCESS, a, w) else
  let bytesToWrite :=
    if (a_rw a =? EV_WRITESOCK) || (a_rw a =? EV_WRITEPIPE)
    then u32 (a_bytesToBuf a - 4 * EV_HDSIZ) else a_bytesToBuf a in
  '(status, nBytes, a, w) ←
    (if a_rw a =? EV_WRITESOCK then
       l ← hread (w_heap w) (a_buf a) (bytesToWrite / 4);
       let '(nBytes, w) := tcpWrite w (a_sockFd a) (bytes_of l) in
       Ret (S_SUCCESS, nBytes, a, w)
     else if a_rw a =? EV_WRITEPIPE then
       l ← hread (w_heap w) (a_buf a) (bytesToWrite / 4);
       f ← of_option (a_file a);
       let '(nBytes, f, w) := fwrite w f (bytes_of l) in
       Ret (if f_err f then S_FAILURE else S_SUCCESS, nBytes, a <| a_file := Some f |>, w)
     else if a_rw a =? EV_WRITEFILE then flush_to_file a w bytesToWrite
     else Ret (S_SUCCESS, 0, a, w));
  if negb (status =? S_SUCCESS) then Ret (status, a, w) else
  if negb (nBytes =? bytesToWrite) then Ret (S_FAILURE, a, w) else
  Ret (S_SUCCESS,
       a <| a_bytesToFile ::= λ x, u64 (x + bytesToWrite) |>
         <| a_eventsToFile ::= λ x, u32 (x + a_eventsToBuf a) |>, w).

Definition splitFile (a : EVFILE) (w : world) : res (Z * EVFILE * world) :=
  if negb (a_rw a =? EV_WRITEFILE) then Ret (0, a, w) else
  let a := a <| a_blknum := 1 |> <| a_bytesToFile := 0 |> <| a_eventsToFile := 0 |>
             <| a_wroteCommonBlock := false |> in
  let '(status, a, w) :=
    if a_randomAccess a then (1, a <| a_pTable := None |>, hfree w (a_mmapFile a))
    else match a_file a with
         | Some _ => let '(ok, w) := io_ok w in (if ok then 1 else -1, a, w)
         | None => (1, a, w)
         end in
  let a := a <| a_file := None |> in
  '(fname, a, w) ← next_file_name a w;
  match fname with
  | None => Ret (-1, a, w)
  | Some _ => Ret (status, a <| a_fileName := fname |>, w)
  end.

(** ** Writing an event *)

(** Lines 4114-4128: whether the event needs a block of its own. *)
Definition needs_new_header (a : EVFILE) (wordsToWrite : Z) : bool :=
  negb ((u32 (wordsToWrite + a_blksiz a) <=? a_blkSizeTarget a) &&
        (a_blkEvCount a <? a_blkEvMax a)).

(** Lines 4130-4188: whether the event goes to the next split file. *)
Definition splits_file (a : EVFILE) (h : heap) (bytesToWrite : Z) (writeNewBlockHeader : bool)
  : res bool :=
  if negb (a_splitting a) then Ret false
  else if (u32 (a_blknum a - 1) =? 1) && (a_eventsToBuf a <=? a_commonBlkCount a) then Ret false
  else
    let totalSize := u64 (a_bytesToFile a + bytesToWrite + a_bytesToBuf a) in
    let totalSize := if writeNewBlockHeader && (a_bytesToFile a <? 1)
                     then u64 (totalSize + 4 * EV_HDSIZ) else totalSize in
    last ← isLastBlock h (a_currentHeader a);
    let totalSize := if (last : bool) then u64 (totalSize + 4 * EV_HDSIZ) else totalSize in
    Ret (a_split a <? totalSize).

(** Lines 4195-4238. *)
Inductive room := RoomTrunc | RoomYes | RoomFlush | RoomExpand.

Definition room_for (a : EVFILE) (bytesToWrite : Z) (writeNewBlockHeader : bool) : room :=
  let avail := u32 (u32 (4 * a_bufSize a) - a_bytesToBuf a) in
  if u32 (4 * a_bufSize a) <? u32 (bytesToWrite + 2 * (4 * EV_HDSIZ)) then
    if a_rw a =? EV_WRITEBUF then RoomTrunc else RoomExpand
  else if (negb writeNewBlockHeader && (avail <? bytesToWrite)) ||
          (writeNewBlockHeader && (avail <? u32 (bytesToWrite + 4 * EV_HDSIZ))) then
    if a_rw a =? EV_WRITEBUF then RoomTrunc else RoomFlush
  else RoomYes.

(** Lines 4309-4342: the common block of a new split file. *)
Definition write_common (a : EVFILE) (w : world) (bytesToWrite : Z) : res (Z * EVFILE * world) :=
  let neededBytes := u32 (a_dictLength a + a_firstEventLength a + 3 * 4 * EV_HDSIZ + bytesToWrite) in
  '(status, a, w) ← expandBuffer a w neededBytes;
  if negb (status =? S_SUCCESS) then Ret (status, a, w) else
  '(a, w) ← resetBuffer a w;
  evWriteCommonBlock a w.

(** Lines 4344-4372: the block header if one is needed, and the event. *)
Definition write_in_block (a : EVFILE) (w : world) (buffer : list Z) (wordsToWrite : Z)
    (writeNewBlockHeader : bool) : res (Z * EVFILE * world) :=
  '(status, a, w) ←
    (if writeNewBlockHeader then
       let blknum := a_blknum a in
       let a := a <| a_blknum ::= λ x, u32 (x + 1) |> in
       '(status, a, w) ← writeNewHeader a w 8 1 blknum false false true false;
       if negb (status =? S_SUCCESS) then Ret (status, a, w) else
       Ret (S_SUCCESS, a <| a_bytesToBuf ::= λ x, u32 (x - 4 * EV_HDSIZ) |>, w)
     else
       last ← isLastBlock (w_heap w) (a_currentHeader a);
       Ret (S_SUCCESS,
            if (last : bool) then a else a <| a_bytesToBuf ::= λ x, u32 (x - 4 * EV_HDSIZ) |>, w));
  if negb (status =? S_SUCCESS) then Ret (status, a, w) else
  '(a, w) ← writeEventToBuffer a w buffer wordsToWrite false;
  Ret (S_SUCCESS, a, w).

(** Lines 4102-4383, with the mutex held if it is used. *)
Definition write_event (a : EVFILE) (w : world) (buffer : list Z) : res (Z * EVFILE * world) :=
  b0 ← first_word buffer;
  let wordsToWrite := u32 (b0 + 1) in
  let bytesToWrite := u32 (4 * wordsToWrite) in
  let hdr := needs_new_header a wordsToWrite in
  splittingFile ← splits_file a (w_heap w) bytesToWrite hdr;
  match room_for a bytesToWrite hdr with
  | RoomTrunc => Ret (S_EVFILE_TRUNC, a, w)
  | r =>
      let needBigger := match r with RoomExpand => true | _ => false end in
      let doFlush := ((splittingFile : bool) && (0 <? a_eventsToBuf a)) ||
                     match r with RoomYes => false | _ => true end in
      let size := u32 (4 * (wordsToWrite + 2 * EV_HDSIZ)) in
      '(status, a, w) ← (if doFlush then evFlush a w else Ret (S_SUCCESS, a, w));
      if negb (status =? S_SUCCESS) then Ret (status, a, w) else
      '(split, a, w) ← (if splittingFile then splitFile a w else Ret (0, a, w));
      if split =? S_FAILURE then Ret (S_FAILURE, a, w) else
      '(status, a, w) ← (if needBigger then expandBuffer a w size else Ret (S_SUCCESS, a, w));
      if negb (status =? S_SUCCESS) then Ret (status, a, w) else
      let reset := doFlush || splittingFile in
      '(a, w) ← (if reset then resetBuffer a w else Ret (a, w));
      let hdr := if reset then false else hdr in
      let common := negb (split =? 0) &&
                    (bool_decide (is_Some (a_dictionary a)) ||
                     bool_decide (is_Some (a_firstEventBuf a))) in
      '(status, a, w) ← (if common then write_common a w bytesToWrite
                         else Ret (S_SUCCESS, a, w));
      if negb (status =? S_SUCCESS) then Ret (status, a, w) else
      write_in_block a w buffer wordsToWrite (if common then true else hdr)
  end.

(** [buffer] is the caller's array, [None] for NULL. *)
Definition evWriteImpl (L : lib) (w : world) (handle : Z) (buffer : option (list Z))
    (useMutex : bool) : res (Z * lib * world) :=
  if bad_handle L handle then Ret (S_EVFILE_BADHANDLE, L, w) else
  match buffer with
  | None => Ret (S_EVFILE_BADARG, L, w)
  | Some buffer =>
      L ← (if useMutex then handleReadLock L handle else Ret L);
      a ← get_handle L handle;
      let unlock L := if useMutex then handleReadUnlock L handle else Ret L in
      match a with
      | None => L ← unlock L; Ret (S_EVFILE_BADHANDLE, L, w)
      | Some a =>
          if negb (a_append a =? 0) && a_byte_swapped a then
            L ← unlock L; Ret (S_EVFILE_BADMODE, L, w)
          else if negb (a_rw a =? EV_WRITEFILE) && negb (a_rw a =? EV_WRITEBUF) &&
                  negb (a_rw a =? EV_WRITESOCK) && negb (a_rw a =? EV_WRITEPIPE) then
            L ← unlock L; Ret (S_EVFILE_BADMODE, L, w)
          else
            a ← (if useMutex then mutexLock a else Ret a);
            '(status, a, w) ← write_event a w buffer;
            let a := if useMutex then mutexUnlock a else a in
            L ← set_handle L handle (Some a);
            L ← unlock L;
            Ret (status, L, w)
      end
  end.

Definition evWrite (L : lib) (w : world) (handle : Z) (buffer : option (list Z))
  : res (Z * lib * world) := evWriteImpl L w handle buffer true.
