(* ===== verification/EvioRead.v ===== *)
(** * Reading events (evio.c, lines 2390-3606)

    [evGetNewBuffer] brings the next block into the internal buffer from a file, a
    pipe, a socket or the user's buffer; the read functions take the events out of it.
    An event read from data of the other byte order is converted with [evioswap] on
    the bytes of its words.  EOF is -1. *)

From S2P Require Import Prelude Words CString Memory EvioFmt EvioSwapArrays EvioFmtSwap.
From S2P Require Import EvioSwap EvioTypes EvioNames EvioState.

Definition EOF : Z := -1.

(** [swap_int32_t(p, n, NULL)] *)
Definition hswap (h : heap) (p : ptr) (n : Z) : res heap :=
  l ← hread h p n; hwrite h p (map EVIO_SWAP32 l).

(** [evioswap(p, 1, NULL)] on the bytes of the object [p] points to. *)
Definition hevioswap (h : heap) (p : ptr) : res heap :=
  l ← of_option (h !! p_obj p);
  m ← evioswap (S (8 * length l)) (mem_of 4096 (bytes_of l)) (4096 + 4 * p_off p) true NULL;
  b ← of_option (mread m 4096 (4 * length l));
  Ret (<[p_obj p := words_of b]> h).

(** [evioswap(temp, 1, buffer)] from one array of [n] words to another: the words of the
    second. *)
Definition swap_event (n : Z) (temp buffer : list Z) : res (list Z) :=
  let m := mwrite (mem_of 4096 (bytes_of temp)) (8192 + 4 * n) (bytes_of buffer) in
  m ← evioswap (S (8 * length temp)) m 4096 true (8192 + 4 * n);
  b ← of_option (mread m (8192 + 4 * n) (4 * length buffer));
  Ret (words_of b).

(** ** The next block *)

(** [bytesToRead] bytes from the source to [a->buf + off]: the status with which the
    function returns at once, if any, and the number of bytes read.  At the third
    place where it is used, the case of a pipe is missing and [nBytes] keeps the value
    [prev]; [pipe] is false there. *)
Definition read_block_part (a : EVFILE) (w : world) (off bytesToRead : Z) (pipe : bool) (prev : Z)
  : res (option Z * Z * EVFILE * world) :=
  let p := padd (a_buf a) off in
  if a_rw a =? EV_READFILE then
    f ← of_option (a_file a);
    '(n, f, w) ← fread_heap w p bytesToRead f;
    let a := a <| a_file := Some f |> in
    Ret (if f_eof f then Some EOF else if f_err f then Some 1 else None, n, a, w)
  else if a_rw a =? EV_READSOCK then
    let '(n, l, w) := tcpRead w (a_sockFd a) (s32 bytesToRead) in
    h ← hwrite_bytes (w_heap w) p l;
    Ret (None, n, a, w <| w_heap := h |>)
  else if (a_rw a =? EV_READPIPE) && pipe then
    f ← of_option (a_file a);
    '(n, f, w) ← fread_heap w p bytesToRead f;
    Ret (None, n, a <| a_file := Some f |>, w)
  else if a_rw a =? EV_READBUF then
    if a_rwBufSize a <? a_rwBytesIn a + bytesToRead then
      Ret (Some S_EVFILE_UNXPTDEOF, prev, a, w)
    else
      l ← hread (w_heap w) (padd (a_rwBuf a) (a_rwBytesIn a / 4)) (bytesToRead / 4);
      h ← hwrite (w_heap w) p l;
      Ret (None, bytesToRead, a <| a_rwBytesIn ::= λ x, u32 (x + bytesToRead) |>,
           w <| w_heap := h |>)
  else Ret (None, prev, a, w).

(** Lines 3426-3473: the header.  A status is one the function returns at once. *)
Definition read_block_header (a : EVFILE) (w : world) : res (option Z * Z * EVFILE * world) :=
  let bytesToRead := 4 * EV_HDSIZ in
  if (a_rw a =? EV_READFILE) && bool_decide (f_eof <$> a_file a = Some true) then
    Ret (Some EOF, 0, a, w)
  else
    let a := if a_rw a =? EV_READFILE then a <| a_file ::= option_map clearerr |> else a in
    '(early, nBytes, a, w) ← read_block_part a w 0 bytesToRead true 0;
    match early with
    | Some _ => Ret (early, nBytes, a, w)
    | None =>
        if negb (nBytes =? bytesToRead) then Ret (Some (w_errno w), nBytes, a, w) else
        h ← (if a_byte_swapped a then hswap (w_heap w) (a_buf a) EV_HDSIZ else Ret (w_heap w));
        Ret (None, nBytes, a, w <| w_heap := h |>)
    end.

(** Lines 3480-3511: the words of a header that is longer than EV_HDSIZ. *)
Definition read_extra_header (a : EVFILE) (w : world) (blkHdrSize nBytes : Z)
  : res (option Z * Z * EVFILE * world) :=
  if EV_HDSIZ <? blkHdrSize then
    let bytesToRead := u32 (4 * (blkHdrSize - EV_HDSIZ)) in
    '(early, nBytes, a, w) ← read_block_part a w EV_HDSIZ bytesToRead true nBytes;
    match early with
    | Some _ => Ret (early, nBytes, a, w)
    | None =>
        if negb (nBytes =? bytesToRead) then Ret (Some (w_errno w), nBytes, a, w) else
        h ← (if a_byte_swapped a
             then hswap (w_heap w) (padd (a_buf a) EV_HDSIZ) (bytesToRead / 4)
             else Ret (w_heap w));
        Ret (None, nBytes, a, w <| w_heap := h |>)
    end
  else Ret (None, nBytes, a, w).

(** Lines 3516-3534: a bigger buffer for a block that does not fit, with the header in it;
    whether it could be allocated. *)
Definition bigger_buffer (a : EVFILE) (w : world) (blkHdrSize : Z) : res (bool * EVFILE * world) :=
  if a_bufSize a <? a_blksiz a then
    let '(newBuf, w) := halloc w (u32 (4 * a_blksiz a) / 4) in
    if is_null newBuf then Ret (false, a, w) else
    l ← hread (w_heap w) (a_buf a) (u32 (4 * blkHdrSize) / 4);
    h ← hwrite (w_heap w) newBuf l;
    let w := hfree (w <| w_heap := h |>) (a_buf a) in
    Ret (true, a <| a_bufSize := a_blksiz a |> <| a_buf := newBuf |>, w)
  else Ret (true, a, w).

(** Lines 3513-3561: the rest of the block. *)
Definition read_block_rest (a : EVFILE) (w : world) (blkHdrSize nBytes : Z)
  : res (option Z * EVFILE * world) :=
  blksiz ← hget (w_heap w) (a_buf a) EV_HD_BLKSIZ;
  '(ok, a, w) ← bigger_buffer (a <| a_blksiz := blksiz |>) w blkHdrSize;
  if negb ok then Ret (Some S_EVFILE_ALLOCFAIL, a, w) else
  let bytesToRead := u32 (4 * (a_blksiz a - blkHdrSize)) in
  '(early, nBytes, a, w) ← read_block_part a w blkHdrSize bytesToRead false nBytes;
  match early with
  | Some _ => Ret (early, a, w)
  | None => if negb (nBytes =? bytesToRead) then Ret (Some (w_errno w), a, w) else Ret (None, a, w)
  end.

(** Lines 3563-3605: what follows a block that is in the buffer. *)
Definition start_block (a : EVFILE) (w : world) (blkHdrSize : Z) : res (Z * EVFILE * world) :=
  let a := a <| a_blknum ::= λ x, u32 (x + 1) |> in
  num ← hget (w_heap w) (a_buf a) EV_HD_BLKNUM;
  let a := if negb (num =? u32 (a_blknum a + a_blkNumDiff a))
           then a <| a_blkNumDiff := s32 (num - a_blknum a) |> else a in
  last ← isLastBlock (w_heap w) (a_buf a);
  let a := if (3 <? a_version a) && (last : bool) then a <| a_isLastBlock := true |> else a in
  let a := a <| a_next := padd (a_buf a) blkHdrSize |> in
  used ← (if a_version a <? 4 then hget (w_heap w) (a_buf a) EV_HD_USED else Ret (a_blksiz a));
  let a := a <| a_left := u32 (used - blkHdrSize) |> in
  if a_left a <? 1 then Ret (if a_isLastBlock a then EOF else S_EVFILE_UNXPTDEOF, a, w)
  else Ret (S_SUCCESS, a, w).

Definition evGetNewBuffer (a : EVFILE) (w : world) : res (Z * EVFILE * world) :=
  if (3 <? a_version a) && a_isLastBlock a then Ret (EOF, a, w) else
  '(early, nBytes, a, w) ← read_block_header a w;
  match early with Some status => Ret (status, a, w) | None =>
  blkHdrSize ← hget (w_heap w) (a_buf a) EV_HD_HDSIZ;
  '(early, nBytes, a, w) ← read_extra_header a w blkHdrSize nBytes;
  match early with Some status => Ret (status, a, w) | None =>
  '(early, a, w) ← read_block_rest a w blkHdrSize nBytes;
  match early with Some status => Ret (status, a, w) | None =>
  start_block a w blkHdrSize
  end end end.

(** ** Taking events out of the buffer *)

Definition reads (a : EVFILE) : bool :=
  (a_rw a =? EV_READFILE) || (a_rw a =? EV_READPIPE) ||
  (a_rw a =? EV_READBUF) || (a_rw a =? EV_READSOCK).

(** The length in words of the event at [a->next], with its length word. *)
Definition next_event_len (a : EVFILE) (h : heap) : res Z :=
  v ← hget h (a_next a) 0;
  Ret (u32 ((if a_byte_swapped a then EVIO_SWAP32 v else v) + 1)).

(** A new block if there is nothing left in the current one. *)
Definition next_block (a : EVFILE) (w : world) : res (Z * EVFILE * world) :=
  if a_left a <? 1 then evGetNewBuffer a w else Ret (S_SUCCESS, a, w).

(** [while (nleft > 0)]: the words copied after [acc], those of the blocks that follow
    included, to an array of [cap] words. *)
Fixpoint copy_event (fuel : nat) (cap : Z) (a : EVFILE) (w : world) (nleft : Z) (acc : list Z)
  : res (Z * list Z * EVFILE * world) :=
  match fuel with
  | O => NoFuel
  | S fuel =>
      if 0 <? nleft then
        '(status, a, w) ← next_block a w;
        if negb (status =? S_SUCCESS) then Ret (status, acc, a, w) else
        let ncopy := if nleft <=? a_left a then nleft else a_left a in
        l ← hread (w_heap w) (a_next a) ncopy;
        let a := a <| a_next ::= λ p, padd p ncopy |> <| a_left ::= λ x, u32 (x - ncopy) |> in
        if cap <? Z.of_nat (length acc) + ncopy then Undef else
        copy_event fuel cap a w (u32 (nleft - ncopy)) (acc ++ l)
      else Ret (S_SUCCESS, acc, a, w)
  end.

(** The status, and the words and length stored through the two pointers; the flag
    tells whether these are not NULL. *)
Definition evReadAllocImpl (fuel : nat) (a : EVFILE) (w : world) (ptrs : bool)
  : res (Z * option (list Z * Z) * EVFILE * world) :=
  if negb ptrs then Ret (S_EVFILE_BADARG, None, a, w)
  else if negb (reads a) then Ret (S_EVFILE_BADMODE, None, a, w)
  else if a_randomAccess a then Ret (S_EVFILE_BADMODE, None, a, w)
  else
    a ← mutexLock a;
    '(status, a, w) ← next_block a w;
    if negb (status =? S_SUCCESS) then Ret (status, None, mutexUnlock a, w) else
    len ← next_event_len a (w_heap w);
    let '(ok, w) := alloc_ok w in
    if negb ok then Ret (S_EVFILE_ALLOCFAIL, None, mutexUnlock a, w) else
    '(status, buf, a, w) ← copy_event fuel (u32 (4 * len) / 4) a w len [];
    let a := mutexUnlock a in
    if negb (status =? S_SUCCESS) then Ret (status, None, a, w) else
    buf ← (if a_byte_swapped a then
             h ← hevioswap {[ 1 := buf ]} (Ptr 1 0); of_option (h !! 1)
           else Ret buf);
    Ret (S_SUCCESS, Some (buf, len), a, w).

Definition evReadAlloc (fuel : nat) (L : lib) (w : world) (handle : Z) (ptrs : bool)
  : res (Z * option (list Z * Z) * lib * world) :=
  if bad_handle L handle then Ret (S_EVFILE_BADHANDLE, None, L, w) else
  L ← handleReadLock L handle;
  a ← get_handle L handle;
  match a with
  | None => L ← handleReadUnlock L handle; Ret (S_EVFILE_BADHANDLE, None, L, w)
  | Some a =>
      '(status, r, a, w) ← evReadAllocImpl fuel a w ptrs;
      L ← set_handle L handle (Some a);
      L ← handleReadUnlock L handle;
      Ret (status, r, L, w)
  end.

(** The copy of an event in the other byte order goes through an array of its own,
    whose failed allocation leaves with the mutex and the read lock held. *)
Definition evRead (fuel : nat) (L : lib) (w : world) (handle : Z) (buffer : option (list Z))
    (buflen : Z) : res (Z * option (list Z) * lib * world) :=
  if bad_handle L handle then Ret (S_EVFILE_BADHANDLE, buffer, L, w) else
  match buffer with
  | None => Ret (S_EVFILE_BADARG, None, L, w)
  | Some dst =>
      if buflen <? 3 then Ret (S_EVFILE_BADARG, buffer, L, w) else
      L ← handleReadLock L handle;
      a ← get_handle L handle;
      match a with
      | None => L ← handleReadUnlock L handle; Ret (S_EVFILE_BADHANDLE, buffer, L, w)
      | Some a =>
          if negb (reads a) || a_randomAccess a then
            L ← handleReadUnlock L handle; Ret (S_EVFILE_BADMODE, buffer, L, w)
          else
            a ← mutexLock a;
            '(status, a, w) ← next_block a w;
            let leave (status : Z) (a : EVFILE) (w : world) (dst : list Z) :=
              L ← set_handle L handle (Some (mutexUnlock a));
              L ← handleReadUnlock L handle;
              Ret (status, Some dst, L, w) in
            if negb (status =? S_SUCCESS) then leave status a w dst else
            let '(ok, w) := if a_byte_swapped a then alloc_ok w else (true, w) in
            if negb ok then
              L ← set_handle L handle (Some a); Ret (S_EVFILE_ALLOCFAIL, buffer, L, w)
            else
              nleft ← next_event_len a (w_heap w);
              if buflen <? nleft then leave S_EVFILE_TRUNC a w dst else
              let cap := if a_byte_swapped a then buflen else Z.of_nat (length dst) in
              '(status, ev, a, w) ← copy_event fuel cap a w nleft [];
              let copied := if a_byte_swapped a then dst else ev ++ drop (length ev) dst in
              if negb (status =? S_SUCCESS) then leave status a w copied else
              '(st, _, L, w) ← leave S_SUCCESS a w copied;
              dst ← (if a_byte_swapped a then
                       swap_event buflen
                         (ev ++ replicate (Z.to_nat (buflen - Z.of_nat (length ev))) 0) dst
                     else Ret copied);
              Ret (st, Some dst, L, w)
      end
  end.

(** [*buffer] and [*buflen] when the function succeeds. *)
Definition evReadNoCopy (L : lib) (w : world) (handle : Z) (ptrs : bool)
  : res (Z * option (ptr * Z) * lib * world) :=
  if bad_handle L handle then Ret (S_EVFILE_BADHANDLE, None, L, w)
  else if negb ptrs then Ret (S_EVFILE_BADARG, None, L, w)
  else
    L ← handleReadLock L handle;
    a ← get_handle L handle;
    match a with
    | None => L ← handleReadUnlock L handle; Ret (S_EVFILE_BADHANDLE, None, L, w)
    | Some a =>
        if a_version a <? 4 then
          L ← handleReadUnlock L handle; Ret (S_EVFILE_BADFILE, None, L, w)
        else if negb (reads a) || a_randomAccess a then
          L ← handleReadUnlock L handle; Ret (S_EVFILE_BADMODE, None, L, w)
        else
          a ← mutexLock a;
          '(status, a, w) ← next_block a w;
          let leave status r a w :=
            L ← set_handle L handle (Some (mutexUnlock a));
            L ← handleReadUnlock L handle;
            Ret (status, r, L, w) in
          if negb (status =? S_SUCCESS) then leave status None a w else
          nleft ← next_event_len a (w_heap w);
          h ← (if a_byte_swapped a then hevioswap (w_heap w) (a_next a) else Ret (w_heap w));
          let ev := a_next a in
          let a := a <| a_next ::= λ p, padd p nleft |> <| a_left ::= λ x, u32 (x - nleft) |> in
          leave S_SUCCESS (Some (ev, nleft)) a (w <| w_heap := h |>)
    end.

(** ** Random access *)

(** The events of one block: their pointers are added to the table, which has
    [numPointers] places. *)
Fixpoint table_events (n : nat) (h : heap) (swapped : bool) (w : world) (pmem : ptr)
    (bytesLeft numPointers : Z) (table : list ptr)
  : res (option Z * ptr * Z * Z * list ptr * world) :=
  match n with
  | O => Ret (None, pmem, bytesLeft, numPointers, table, w)
  | S n =>
      if bytesLeft <? 8 then Ret (Some S_EVFILE_UNXPTDEOF, pmem, bytesLeft, numPointers, table, w)
      else
        v ← hget h pmem 0;
        let len := u32 ((if swapped then EVIO_SWAP32 v else v) + 1) in
        let table := table ++ [pmem] in
        let full := numPointers <=? Z.of_nat (length table) in
        let '(ok, w) := if full then alloc_ok w else (true, w) in
        let numPointers := if full then numPointers + 10000 else numPointers in
        if negb ok then Ret (Some S_EVFILE_ALLOCFAIL, pmem, bytesLeft, numPointers, table, w) else
        table_events n h swapped w (padd pmem len) (u64 (bytesLeft - u32 (4 * len))) numPointers table
  end.

(** The blocks from [pmem] to the last one. *)
Fixpoint table_blocks (fuel : nat) (h : heap) (swapped : bool) (w : world) (pmem : ptr)
    (bytesLeft numPointers : Z) (table : list ptr) (firstBlock : bool)
  : res (option Z * list ptr * world) :=
  match fuel with
  | O => NoFuel
  | S fuel =>
      let sw x := if swapped then EVIO_SWAP32 x else x in
      i ← hget h pmem EV_HD_VER;
      blockHdrSize ← hget h pmem EV_HD_HDSIZ;
      blockEventCount ← hget h pmem EV_HD_COUNT;
      let i := sw i in
      let blockHdrSize := sw blockHdrSize in
      let blockEventCount := sw blockEventCount in
      let pmem := padd pmem blockHdrSize in
      let bytesLeft := u64 (bytesLeft - u32 (4 * blockHdrSize)) in
      '(pmem, bytesLeft, firstBlock) ←
        (if hasDictionaryInt i && firstBlock then
           v ← hget h pmem 0;
           let len := u32 (sw v + 1) in
           Ret (padd pmem len, u64 (bytesLeft - u32 (4 * len)), false)
         else Ret (pmem, bytesLeft, firstBlock));
      '(early, pmem, bytesLeft, numPointers, table, w) ←
        table_events (Z.to_nat (s32 blockEventCount)) h swapped w pmem bytesLeft numPointers table;
      match early with
      | Some _ => Ret (early, table, w)
      | None =>
          if isLastBlockInt i then Ret (None, table, w)
          else table_blocks fuel h swapped w pmem bytesLeft numPointers table firstBlock
      end
  end.

Definition generatePointerTable (fuel : nat) (a : EVFILE) (w : world) : res (Z * EVFILE * world) :=
  if negb (a_randomAccess a) then Ret (S_SUCCESS, a, w) else
  let '(ok, w) := alloc_ok w in
  let '(pmem, bytesLeft) := if a_rw a =? EV_READBUF then (a_rwBuf a, a_rwBufSize a)
                            else (a_mmapFile a, a_mmapFileSize a) in
  '(early, table, w) ←
    table_blocks fuel (w_heap w) (a_byte_swapped a) w pmem bytesLeft 10000 [] true;
  if negb ok && negb (bool_decide (table = [])) then Undef else
  match early with
  | Some status =>
      Ret (status, if status =? S_EVFILE_ALLOCFAIL then a <| a_pTable := None |> else a, w)
  | None =>
      Ret (S_SUCCESS, a <| a_pTable := if ok then Some table else None |>
                        <| a_eventCount := Z.of_nat (length table) |>, w)
  end.

(** A mapped file is read-only memory, so swapping an event of it in place faults. *)
Definition evReadRandom (L : lib) (w : world) (handle : Z) (pEvent : bool) (eventNumber : Z)
  : res (Z * option (ptr * Z) * lib * world) :=
  if negb pEvent then Ret (S_EVFILE_BADARG, None, L, w)
  else if bad_handle L handle then Ret (S_EVFILE_BADHANDLE, None, L, w)
  else
    L ← handleReadLock L handle;
    a ← get_handle L handle;
    let leave (status : Z) L :=
      L ← handleReadUnlock L handle; Ret (status, None, L, w) in
    match a with
    | None => leave S_EVFILE_BADHANDLE L
    | Some a =>
        if a_version a <? 4 then leave S_EVFILE_BADFILE L
        else if (negb (a_rw a =? EV_READFILE) && negb (a_rw a =? EV_READBUF)) ||
                negb (a_randomAccess a) then leave S_EVFILE_BADMODE L
        else
          match a_pTable a with
          | None => leave S_FAILURE L
          | Some table =>
              if a_eventCount a <? eventNumber then leave S_FAILURE L else
              pev ← aget table (u32 (eventNumber - 1));
              if is_null pev then leave S_FAILURE L else
              a ← mutexLock a;
              v ← hget (w_heap w) pev 0;
              let buflen := u32 ((if a_byte_swapped a then EVIO_SWAP32 v else v) + 1) in
              h ← (if a_byte_swapped a then
                     if a_rw a =? EV_READFILE then Undef else hevioswap (w_heap w) pev
                   else Ret (w_heap w));
              L ← set_handle L handle (Some (mutexUnlock a));
              L ← handleReadUnlock L handle;
              Ret (S_SUCCESS, Some (pev, buflen), L, w <| w_heap := h |>)
          end
    end.
