(* ===== verification/EvioOpen.v ===== *)
(** * Opening and closing (evio.c, lines 1520-2850, 4662-4814)

    [evOpenImpl] prepares a handle for a file, a pipe, a socket or a buffer of the
    caller and enters it in the table; [toAppendPosition] finds the end of existing
    data; [evClose] flushes what is left and frees the handle. *)

From S2P Require Import Prelude Words CString Memory EvioFmt EvioSwapArrays EvioFmtSwap.
From S2P Require Import EvioSwap EvioTypes EvioNames EvioState EvioWrite EvioRead.

(** ** Flags *)

Definition tolower (c : Z) : Z := if (65 <=? c) && (c <=? 90) then c + 32 else c.
Definition strcaseeq (s : list Z) (t : string) : bool := bool_decide (map tolower s = cs t).
Arguments strcaseeq s t%_string.

Inductive medium := UseFile | UseBuffer | UseSocket.

(** What the flags of [evOpenImpl] ask for; reading is decided by their first letter. *)
Record open_flags := OpenFlags {
  o_medium : medium; o_reading : bool; o_append : bool; o_splitting : bool; o_random : bool
}.

Definition parse_flags (flags : list Z) : option open_flags :=
  let reading := match flags with c :: _ => tolower c =? chr "r" | [] => false end in
  if strcaseeq flags "w" || strcaseeq flags "s" || strcaseeq flags "r" ||
     strcaseeq flags "a" || strcaseeq flags "ra" then
    let append := strcaseeq flags "a" in
    let splitting := negb append && strcaseeq flags "s" in
    Some (OpenFlags UseFile reading append splitting
            (negb append && negb splitting && strcaseeq flags "ra"))
  else if strcaseeq flags "wb" || strcaseeq flags "rb" || strcaseeq flags "ab" ||
          strcaseeq flags "rab" then
    let append := strcaseeq flags "ab" in
    Some (OpenFlags UseBuffer reading append false (negb append && strcaseeq flags "rab"))
  else if strcaseeq flags "ws" || strcaseeq flags "rs" then
    Some (OpenFlags UseSocket reading false false false)
  else None.

(** The caller's arguments: a file name, a buffer and a socket. *)
Record source := Source { s_name : option (list Z); s_buf : ptr; s_len : Z; s_fd : Z }.

(** ** Opening for reading *)

(** A file name that starts with a bar is a command; its output is the file of that
    name in the model. *)
Definition is_pipe (name : list Z) : bool :=
  match name with c :: _ => c =? chr "|" | [] => false end.

(** Map a file: its words in a new object. *)
Definition memoryMapFile (a : EVFILE) (w : world) (fileName : list Z) : Z * EVFILE * world :=
  match w_files w !! fileName with
  | None => (S_FAILURE, a, w)
  | Some content =>
      let '(p, w) := halloc w 0 in
      if is_null p then (S_FAILURE, a, w) else
      (S_SUCCESS, a <| a_mmapFile := p |> <| a_mmapFileSize := Z.of_nat (length content) |>,
       w <| w_heap ::= λ h, <[p_obj p := words_of content]> h |>)
  end.

(** Lines 1791-1862: the source is opened and the first header read, or as much as
    there is of it; or the function returns at once with a status. *)
Definition open_source (a : EVFILE) (w : world) (f : open_flags) (s : source) (filename : list Z)
  : res (option Z * list Z * EVFILE * world) :=
  match o_medium f with
  | UseFile =>
      let a := a <| a_rw := EV_READFILE |> <| a_randomAccess := o_random f |> in
      '(early, a, w) ←
        (if bool_decide (filename = cs "-") then
           Ret (None, a <| a_file := Some (mkFILE (cs "-") 0 false false) |>, w)
         else if is_pipe filename then
           Ret (None, a <| a_file := Some (mkFILE filename 0 false false) |>
                        <| a_rw := EV_READPIPE |>, w)
         else if o_random f then
           let '(err, a, w) := memoryMapFile a w filename in
           Ret (if negb (err =? S_SUCCESS) then Some (w_errno w) else None, a, w)
         else Ret (None, a <| a_file := fopen_r w filename |>, w));
      match early with
      | Some _ => Ret (early, [], a, w)
      | None =>
          if o_random f then
            l ← hread (w_heap w) (a_mmapFile a) EV_HDSIZ;
            Ret (None, bytes_of l, a, w)
          else
            match a_file a with
            | None => Ret (Some (w_errno w), [], a, w)
            | Some fl =>
                let '(l, fl) := fread w fl (4 * EV_HDSIZ) in
                Ret (None, l, a <| a_file := Some fl |>, w)
            end
      end
  | UseSocket =>
      let a := a <| a_sockFd := s_fd s |> <| a_rw := EV_READSOCK |> in
      let '(n, l, w) := tcpRead w (s_fd s) (4 * EV_HDSIZ) in
      Ret (None, if n <? 0 then [] else l, a, w)
  | UseBuffer =>
      let a := a <| a_rwBuf := s_buf s |> <| a_rw := EV_READBUF |>
                 <| a_rwBufSize := u32 (4 * s_len s) |> in
      l ← hread (w_heap w) (a_rwBuf a) EV_HDSIZ;
      Ret (None, bytes_of l, a <| a_rwBytesIn := 4 * EV_HDSIZ |>, w)
  end.

(** Lines 1878-1950: byte order, version and header size of the header that was read. *)
Definition check_header (bytes : list Z) : option (bool * Z * Z) :=
  if negb (Z.of_nat (length bytes) =? 4 * EV_HDSIZ) then None else
  let header := words_of bytes in
  let word i := default 0 (header !! Z.to_nat i) in
  let swapped := negb (word EV_HD_MAGIC =? EV_MAGIC) in
  if swapped && negb (EVIO_SWAP32 (word EV_HD_MAGIC) =? EV_MAGIC) then None else
  let sw x := if swapped then EVIO_SWAP32 x else x in
  let version := Z.land (sw (word EV_HD_VER)) EV_VERSION_MASK in
  if (version <? 1) || (4 <? version) then None else
  let blkHdrSize := sw (word EV_HD_HDSIZ) in
  if negb (blkHdrSize =? EV_HDSIZ) && (s32 (blkHdrSize - EV_HDSIZ) <? 0) then None
  else Some (swapped, version, blkHdrSize).

(** The dictionary is the text of the first event, after its header of 8 bytes. *)
Definition dictionary_text (buf : list Z) : res (option (list Z)) :=
  let bytes := bytes_of buf in
  let text := upto_null (drop 8 bytes) in
  if Z.of_nat (length bytes) <=? Z.of_nat (8 + length text) then Undef
  else evTrim (Some (take 8 bytes ++ text)) 8.

(** Lines 1964-2030: the first block is read into a new buffer. *)
Definition read_first_block (a : EVFILE) (w : world) (f : open_flags) (header : list Z)
  : res (option Z * EVFILE * world) :=
  let sw x := if a_byte_swapped a then EVIO_SWAP32 x else x in
  let blk_size := sw (default 0 (header !! Z.to_nat EV_HD_BLKSIZ)) in
  let a := a <| a_blksiz := blk_size |>
             <| a_bufSize := if blk_size <? EV_BLOCKSIZE_MIN then EV_BLOCKSIZE_MIN else blk_size |> in
  let '(buf, w) := halloc w (u32 (4 * a_bufSize a) / 4) in
  if is_null buf then Ret (Some S_EVFILE_ALLOCFAIL, a, w) else
  let a := a <| a_buf := buf |> in
  h ← hwrite (w_heap w) buf (map sw header);
  let w := w <| w_heap := h |> in
  let bytesToRead := u32 (4 * (blk_size - EV_HDSIZ)) in
  '(nBytes, a, w) ←
    (match o_medium f with
     | UseFile =>
         fl ← of_option (a_file a);
         '(n, fl, w) ← fread_heap w (padd buf EV_HDSIZ) bytesToRead fl;
         Ret (n, a <| a_file := Some fl |>, w)
     | UseSocket =>
         let '(n, l, w) := tcpRead w (a_sockFd a) (s32 bytesToRead) in
         h ← hwrite_bytes (w_heap w) (padd buf EV_HDSIZ) l;
         Ret (n, a, w <| w_heap := h |>)
     | UseBuffer =>
         l ← hread (w_heap w) (padd (a_rwBuf a) (a_rwBytesIn a / 4)) (bytesToRead / 4);
         h ← hwrite (w_heap w) (padd buf EV_HDSIZ) l;
         Ret (bytesToRead, a <| a_rwBytesIn ::= λ x, u32 (x + bytesToRead) |>, w <| w_heap := h |>)
     end);
  if negb (nBytes =? bytesToRead) then Ret (Some S_EVFILE_BADFILE, a, hfree w buf)
  else Ret (None, a, w).

(** Lines 2032-2066: where the events of the first block start, and the dictionary. *)
Definition start_first_block (fuel : nat) (a : EVFILE) (w : world) (blkHdrSize : Z)
  : res (EVFILE * world) :=
  if a_version a <? 4 then
    start ← hget (w_heap w) (a_buf a) EV_HD_START;
    used ← hget (w_heap w) (a_buf a) EV_HD_USED;
    Ret (a <| a_next := padd (a_buf a) start |> <| a_left := u32 (used - start) |>, w)
  else
    size ← hget (w_heap w) (a_buf a) EV_HD_BLKSIZ;
    last ← isLastBlock (w_heap w) (a_buf a);
    dict ← hasDictionary (w_heap w) (a_buf a);
    let a := a <| a_next := padd (a_buf a) blkHdrSize |> <| a_left := u32 (size - blkHdrSize) |>
               <| a_isLastBlock := last |> in
    if (dict : bool) then
      '(status, r, a, w) ← evReadAllocImpl fuel a w true;
      match r with
      | Some (buf, _) => d ← dictionary_text buf; Ret (a <| a_dictionary := d |>, w)
      | None => Ret (a, w)
      end
    else Ret (a, w).

Definition open_reading (fuel : nat) (a : EVFILE) (w : world) (f : open_flags) (s : source)
    (filename : list Z) : res (option Z * EVFILE * world) :=
  '(early, bytes, a, w) ← open_source a w f s filename;
  match early with
  | Some _ => Ret (early, a, w)
  | None =>
      match check_header bytes with
      | None => Ret (Some S_EVFILE_BADFILE, a, w)
      | Some (swapped, version, blkHdrSize) =>
          let a := a <| a_byte_swapped := swapped |> <| a_version := version |> in
          if o_random f then
            if version <? 4 then Ret (Some S_EVFILE_BADFILE, a, w) else
            '(err, a, w) ← generatePointerTable fuel a w;
            Ret (if negb (err =? S_SUCCESS) then Some err else None, a, w)
          else
            '(early, a, w) ← read_first_block a w f (words_of bytes);
            match early with
            | Some _ => Ret (early, a, w)
            | None =>
                '(a, w) ← start_first_block fuel a w blkHdrSize;
                Ret (None, a, w)
            end
      end
  end.

(** ** Appending *)

(** Lines 2665-2733: forward to the last block; its header words are returned.  The
    position in the file is just after that header; in a buffer, [rwBytesOut] is the
    start of the block and [a->buf] points to it. *)
Fixpoint find_last_block (fuel : nat) (a : EVFILE) (w : world) (blockNumber : Z)
  : res (option Z * list Z * Z * EVFILE * world) :=
  match fuel with
  | O => NoFuel
  | S fuel =>
      let sw x := if a_byte_swapped a then EVIO_SWAP32 x else x in
      let usingBuffer := a_rw a =? EV_WRITEBUF in
      '(early, header, a, w) ←
        (if usingBuffer then
           if u32 (a_rwBufSize a - a_rwBytesOut a) <? 4 * EV_HDSIZ then
             Ret (Some S_EVFILE_UNXPTDEOF, [], a, w)
           else
             let a := a <| a_buf := padd (a_rwBuf a) (a_rwBytesOut a / 4) |> in
             l ← hread (w_heap w) (a_buf a) EV_HDSIZ;
             Ret (None, map sw l, a, w)
         else
           f ← of_option (a_file a);
           let '(l, f) := fread w f (4 * EV_HDSIZ) in
           let a := a <| a_file := Some f |> in
           if negb (Z.of_nat (length l) =? 4 * EV_HDSIZ) then Ret (Some S_EVFILE_BADFILE, [], a, w)
           else Ret (None, map sw (words_of l), a, w));
      match early with
      | Some _ => Ret (early, header, blockNumber, a, w)
      | None =>
          let word i := default 0 (header !! Z.to_nat i) in
          let a := a <| a_eventCount ::= λ x, u32 (x + word EV_HD_COUNT) |> in
          let blockNumber := u32 (blockNumber + 1) in
          let blockSize := word EV_HD_BLKSIZ in
          if isLastBlockInt (word EV_HD_VER) then Ret (None, header, blockNumber, a, w)
          else if usingBuffer then
            if u32 (a_rwBufSize a - a_rwBytesOut a) <? u32 (4 * blockSize) then
              Ret (Some S_EVFILE_UNXPTDEOF, header, blockNumber, a, w)
            else
              find_last_block fuel (a <| a_rwBytesOut ::= λ x, u32 (x + u32 (4 * blockSize)) |>) w
                blockNumber
          else
            f ← of_option (a_file a);
            let '(ok, f) := fseek f (f_pos f + u32 (4 * (blockSize - EV_HDSIZ))) in
            if negb ok then Ret (Some (w_errno w), header, blockNumber, a, w)
            else find_last_block fuel (a <| a_file := Some f |>) w blockNumber
      end
  end.

(** Lines 2748-2802: over the data of the last block, whose bit is cleared, or back over
    its header if it has none. *)
Definition leave_last_block (a : EVFILE) (w : world) (header : list Z) (blockNumber : Z)
  : res (option Z * Z * EVFILE * world) :=
  let word i := default 0 (header !! Z.to_nat i) in
  let blockSize := word EV_HD_BLKSIZ in
  let usingBuffer := a_rw a =? EV_WRITEBUF in
  if word EV_HD_HDSIZ <? blockSize then
    let sixthWord := clearLastBlockBitInt (word EV_HD_VER) in
    if usingBuffer then
      h ← hput (w_heap w) (padd (a_rwBuf a) (a_rwBytesOut a / 4)) EV_HD_VER sixthWord;
      let w := w <| w_heap := h |> in
      let a := a <| a_rwBytesOut ::= λ x, u32 (x + 4 * blockSize) |> in
      if a_rwBufSize a <? u32 (a_rwBytesOut a + 4 * EV_HDSIZ) then
        Ret (Some S_EVFILE_TRUNC, blockNumber, a, w)
      else
        let a := a <| a_buf := padd (a_rwBuf a) (a_rwBytesOut a / 4) |> in
        h ← initBlockHeader (w_heap w) (a_buf a);
        Ret (None, blockNumber, a, w <| w_heap := h |>)
    else
      f ← of_option (a_file a);
      let '(ok, f) := fseek f (f_pos f - 4 * (EV_HDSIZ - EV_HD_VER)) in
      if negb ok then Ret (Some (w_errno w), blockNumber, a, w) else
      let '(n, f, w) := fwrite w f (le 4 sixthWord) in
      let a := a <| a_file := Some f |> in
      if negb (n =? 4) then Ret (Some (w_errno w), blockNumber, a, w) else
      let '(ok, f) := fseek f (f_pos f + u32 (4 * (blockSize - (EV_HD_VER + 1)))) in
      let a := a <| a_file := Some f |> in
      Ret (if negb ok then Some (w_errno w) else None, blockNumber, a, w)
  else
    let blockNumber := u32 (blockNumber - 1) in
    if usingBuffer then
      h ← initBlockHeader (w_heap w) (a_buf a);
      Ret (None, blockNumber, a, w <| w_heap := h |>)
    else
      f ← of_option (a_file a);
      let '(ok, f) := fseek f (f_pos f - 4 * EV_HDSIZ) in
      Ret (if negb ok then Some (w_errno w) else None, blockNumber,
           a <| a_file := Some f |>, w).

(** Lines 2809-2848: an empty last block is written, and the position put before it. *)
Definition write_append_header (a : EVFILE) (w : world) (blockNumber : Z)
  : res (Z * EVFILE * world) :=
  h ← hput (w_heap w) (a_buf a) EV_HD_BLKNUM blockNumber;
  let a := a <| a_blknum := u32 (blockNumber + 1) |> in
  h ← setLastBlockBit h (a_buf a);
  let a := a <| a_isLastBlock := true |> in
  h ← hput h (a_buf a) EV_HD_BLKSIZ EV_HDSIZ;
  let w := w <| w_heap := h |> in
  let bytesToWrite := 4 * EV_HDSIZ in
  if a_rw a =? EV_WRITEBUF then
    Ret (S_SUCCESS, a <| a_rwBytesOut ::= λ x, u32 (x + bytesToWrite) |>, w)
  else
    f ← of_option (a_file a);
    l ← hread (w_heap w) (a_buf a) EV_HDSIZ;
    let '(nBytes, f, w) := fwrite w (clearerr f) (bytes_of l) in
    let a := a <| a_file := Some f |> in
    if f_err f then Ret (1, a, w) else
    let '(ok, f) := fseek f (f_pos f - 4 * EV_HDSIZ) in
    let a := a <| a_file := Some f |> in
    if negb ok then Ret (w_errno w, a, w)
    else if negb (nBytes =? bytesToWrite) then Ret (w_errno w, a, w)
    else Ret (S_SUCCESS, a, w).

Definition toAppendPosition (fuel : nat) (a : EVFILE) (w : world) : res (Z * EVFILE * world) :=
  if a_append a =? 0 then Ret (S_SUCCESS, a, w) else
  '(ok, a) ← (if a_rw a =? EV_WRITEBUF then Ret (true, a <| a_rwBytesOut := 0 |>)
              else f ← of_option (a_file a);
                   let '(ok, f) := fseek f 0 in Ret (ok, a <| a_file := Some f |>));
  if negb ok then Ret (w_errno w, a, w) else
  '(early, header, blockNumber, a, w) ← find_last_block fuel a w 1;
  match early with
  | Some status => Ret (status, a, w)
  | None =>
      let n := if a_hasAppendDictionary a then u32 (a_eventCount a + 1) else a_eventCount a in
      let a := a <| a_eventsToFile := n |> <| a_eventsToBuf := n |> in
      '(early, blockNumber, a, w) ← leave_last_block a w header blockNumber;
      match early with
      | Some status => Ret (status, a, w)
      | None => write_append_header a w blockNumber
      end
  end.

(** ** Opening for writing *)

(** Lines 2076-2144: the destination, and the first header if there is one to append to. *)
Definition open_destination (getenv : list Z → option (list Z)) (fuel : nat) (a : EVFILE)
    (w : world) (f : open_flags) (s : source) (filename : list Z)
  : res (option Z * list Z * EVFILE * world) :=
  match o_medium f with
  | UseFile =>
      let a := a <| a_rw := EV_WRITEFILE |> in
      if bool_decide (filename = cs "-") then
        Ret (None, [], a <| a_file := Some (mkFILE (cs "-") 0 false false) |>, w)
      else if is_pipe filename then
        Ret (None, [], a <| a_file := Some (mkFILE filename 0 false false) |>
                         <| a_rw := EV_WRITEPIPE |>, w)
      else if o_append f then
        fl ← of_option (fopen_r w filename);
        let '(l, fl) := fread w fl (4 * EV_HDSIZ) in
        let a := a <| a_file := Some fl |> in
        if negb (Z.of_nat (length l) =? 4 * EV_HDSIZ) then Ret (Some S_EVFILE_BADFILE, [], a, w)
        else Ret (None, words_of l, a, w)
      else
        '(err, r, o) ← evGenerateBaseFileName getenv fuel (w_mem w) (Some filename) true;
        let w := w <| w_mem := o |> in
        match r with
        | None => Ret (Some err, [], a, w)
        | Some (baseName, specifierCount) =>
            Ret (None, [], a <| a_splitting := o_splitting f |>
                             <| a_baseFileName := Some baseName |>
                             <| a_specifierCount := specifierCount |>, w)
        end
  | UseSocket => Ret (None, [], a <| a_sockFd := s_fd s |> <| a_rw := EV_WRITESOCK |>, w)
  | UseBuffer =>
      let a := a <| a_rwBuf := s_buf s |> <| a_rw := EV_WRITEBUF |>
                 <| a_rwBufSize := u32 (4 * s_len s) |> in
      if o_append f then
        l ← hread (w_heap w) (a_rwBuf a) EV_HDSIZ; Ret (None, l, a, w)
      else Ret (None, [], a, w)
  end.

(** Lines 2151-2195. *)
Definition check_append_header (a : EVFILE) (header : list Z) : option EVFILE :=
  let word i := default 0 (header !! Z.to_nat i) in
  let swapped := negb (word EV_HD_MAGIC =? EV_MAGIC) in
  if swapped && negb (EVIO_SWAP32 (word EV_HD_MAGIC) =? EV_MAGIC) then None else
  let headerInfo := if swapped then EVIO_SWAP32 (word EV_HD_VER) else word EV_HD_VER in
  if negb (Z.land headerInfo EV_VERSION_MASK =? EV_VERSION) then None else
  Some (a <| a_byte_swapped := swapped |> <| a_hasAppendDictionary := hasDictionaryInt headerInfo |>).

(** Lines 2197-2250: the internal buffer, and the position of the next write. *)
Definition start_writing (fuel : nat) (a : EVFILE) (w : world) (f : open_flags)
  : res (option Z * EVFILE * world) :=
  '(early, a, w) ←
    (match o_medium f with
     | UseBuffer =>
         if o_append f then Ret (None, a, w) else
         let a := a <| a_buf := a_rwBuf a |> in
         h ← initLastBlockHeader (w_heap w) (a_buf a) 1;
         Ret (None, a <| a_isLastBlock := true |> <| a_rwBytesOut := 4 * EV_HDSIZ |>,
              w <| w_heap := h |>)
     | _ =>
         let '(buf, w) := halloc w (a_bufRealSize a) in
         if is_null buf then Ret (Some S_EVFILE_ALLOCFAIL, a, w) else
         h ← initLastBlockHeader (w_heap w) buf 1;
         Ret (None, a <| a_buf := buf |>, w <| w_heap := h |>)
     end);
  match early with
  | Some _ => Ret (early, a, w)
  | None =>
      '(err, a, w) ← toAppendPosition fuel a w;
      if negb (err =? S_SUCCESS) then Ret (Some err, a, w) else
      Ret (None, a <| a_currentHeader := a_buf a |> <| a_next := padd (a_buf a) EV_HDSIZ |>, w)
  end.

Definition open_writing (getenv : list Z → option (list Z)) (fuel : nat) (a : EVFILE) (w : world)
    (f : open_flags) (s : source) (filename : list Z) : res (option Z * EVFILE * world) :=
  let a := a <| a_append := if o_append f then 1 else 0 |> in
  '(early, header, a, w) ← open_destination getenv fuel a w f s filename;
  match early with
  | Some _ => Ret (early, a, w)
  | None =>
      match (if o_append f then check_append_header a header else Some a) with
      | None => Ret (Some S_EVFILE_BADFILE, a, w)
      | Some a => start_writing fuel a w f
      end
  end.

(** ** The table of handles *)

Fixpoint first_free (l : list (option EVFILE)) (i : Z) : option Z :=
  match l with
  | [] => None
  | None :: _ => Some i
  | Some _ :: l => first_free l (i + 1)
  end.

(** Lines 2255-2293: the structure goes to the first free place, or to the first of the
    places added when there is none.  The results of [expandHandles] are not looked
    at. *)
Definition register_handle (L : lib) (w : world) (a : EVFILE) : res (Z * lib * world) :=
  L ← getHandleLock L;
  '(_, L, w) ← (if (l_handleCount L <? 1) || bool_decide (l_handleList L = None)
                then expandHandles L w else Ret (S_SUCCESS, L, w));
  list ← of_option (l_handleList L);
  '(handle, L, w) ←
    (match first_free (take (Z.to_nat (l_handleCount L)) list) 0 with
     | Some i => Ret (i + 1, L, w)
     | None =>
         let oldHandleLimit := l_handleCount L in
         '(_, L, w) ← expandHandles L w;
         Ret (oldHandleLimit + 1, L, w)
     end);
  L ← set_handle L handle (Some (a <| a_handle := handle |>));
  Ret (handle, getHandleUnlock L, w).

(** The status, and the value stored in [*handle] if any; [ptr_ok] tells whether the
    pointers [flags] and [handle] are not NULL. *)
Definition evOpenImpl (getenv : list Z → option (list Z)) (fuel : nat) (L : lib) (w : world)
    (s : source) (flags : list Z) (ptr_ok : bool) : res (Z * option Z * lib * world) :=
  if negb ptr_ok then Ret (S_EVFILE_BADARG, None, L, w) else
  match parse_flags flags with
  | None => Ret (S_EVFILE_BADARG, None, L, w)
  | Some f =>
      let bad_arg :=
        match o_medium f with
        | UseFile => bool_decide (s_name s = None)
        | UseBuffer => is_null (s_buf s) || (u32 (4 * s_len s) <? 4 * 11)
        | UseSocket => s_fd s <? 0
        end in
      if (bad_arg : bool) then Ret (S_EVFILE_BADARG, None, L, w) else
      let useFile := match o_medium f with UseFile => true | _ => false end in
      let '(ok, w) := if useFile then alloc_ok w else (true, w) in
      if negb ok then Ret (S_EVFILE_ALLOCFAIL, None, L, w) else
      let name := default [] (s_name s) in
      trimmed ← (if useFile then evTrim (Some name) 0 else Ret None);
      let filename := default name trimmed in
      let '(ok, w) := alloc_ok w in
      if negb ok then Ret (S_EVFILE_ALLOCFAIL, None, L, w) else
      '(early, a, w) ←
        (if o_reading f then open_reading fuel structInit w f s filename
         else open_writing getenv fuel structInit w f s filename);
      match early with
      | Some status => Ret (status, None, L, w)
      | None =>
          num ← (if o_reading f && o_random f then Ret (a_blknum a)
                 else hget (w_heap w) (a_buf a) EV_HD_BLKNUM);
          '(handle, L, w) ← register_handle L w (a <| a_blknum := num |>);
          Ret (S_SUCCESS, Some handle, L, w)
      end
  end.

Definition evOpen (getenv : list Z → option (list Z)) (fuel : nat) (L : lib) (w : world)
    (filename : option (list Z)) (flags : list Z) (ptr_ok : bool)
  : res (Z * option Z * lib * world) :=
  if strcaseeq flags "w" || strcaseeq flags "s" || strcaseeq flags "r" ||
     strcaseeq flags "a" || strcaseeq flags "ra"
  then evOpenImpl getenv fuel L w (Source filename null 0 0) flags ptr_ok
  else Ret (S_EVFILE_BADARG, None, L, w).

Definition evOpenBuffer (getenv : list Z → option (list Z)) (fuel : nat) (L : lib) (w : world)
    (buffer : ptr) (bufLen : Z) (flags : list Z) (ptr_ok : bool)
  : res (Z * option Z * lib * world) :=
  let impl flag := evOpenImpl getenv fuel L w (Source None buffer bufLen 0) flag ptr_ok in
  if strcaseeq flags "w" then impl (cs "wb")
  else if strcaseeq flags "r" then impl (cs "rb")
  else if strcaseeq flags "a" then impl (cs "ab")
  else if strcaseeq flags "ra" then impl (cs "rab")
  else Ret (S_EVFILE_BADARG, None, L, w).

Definition evOpenSocket (getenv : list Z → option (list Z)) (fuel : nat) (L : lib) (w : world)
    (sockFd : Z) (flags : list Z) (ptr_ok : bool) : res (Z * option Z * lib * world) :=
  let impl flag := evOpenImpl getenv fuel L w (Source None null 0 sockFd) flag ptr_ok in
  if strcaseeq flags "w" then impl (cs "ws")
  else if strcaseeq flags "r" then impl (cs "rs")
  else Ret (S_EVFILE_BADARG, None, L, w).

(** ** Closing *)

(** Lines 4695-4717: the last block header for a socket or a pipe. *)
Definition send_last_block (a : EVFILE) (w : world) : res (option Z * EVFILE * world) :=
  if (a_rw a =? EV_WRITEPIPE) || (a_rw a =? EV_WRITESOCK) then
    '(a, w) ← resetBuffer a w;
    let bytesToWrite := 4 * EV_HDSIZ in
    l ← hread (w_heap w) (a_buf a) EV_HDSIZ;
    '(nBytes, a, w) ←
      (if a_rw a =? EV_WRITESOCK then
         let '(n, w) := tcpWrite w (a_sockFd a) (bytes_of l) in Ret (n, a, w)
       else
         f ← of_option (a_file a);
         let '(n, f, w) := fwrite w f (bytes_of l) in
         Ret (n, a <| a_file := Some f |>, w));
    Ret (if negb (nBytes =? bytesToWrite) then Some (w_errno w) else None, a, w)
  else Ret (None, a, w).

(** Lines 4720-4737: the status of closing the file or the pipe. *)
Definition close_file (a : EVFILE) (w : world) : Z * world :=
  if (a_rw a =? EV_WRITEFILE) || (a_rw a =? EV_READFILE) then
    if a_randomAccess a then (S_SUCCESS, hfree w (a_mmapFile a))
    else match a_file a with
         | Some _ => let '(ok, w) := io_ok w in (if ok then S_SUCCESS else EOF, w)
         | None => (S_SUCCESS, w)
         end
  else if (a_rw a =? EV_READPIPE) || (a_rw a =? EV_WRITEPIPE) then
    match a_file a with
    | Some _ => let '(ok, w) := io_ok w in (if ok then S_SUCCESS else S_FAILURE, w)
    | None => (S_SUCCESS, w)
    end
  else (S_SUCCESS, w).

(** The return on a failed write of the last block leaves the write lock held. *)
Definition evClose (L : lib) (w : world) (handle : Z) : res (Z * lib * world) :=
  if bad_handle L handle then Ret (S_EVFILE_BADHANDLE, L, w) else
  L ← handleWriteLock L handle;
  a ← get_handle L handle;
  match a with
  | None => L ← handleWriteUnlock L handle; Ret (S_EVFILE_BADHANDLE, L, w)
  | Some a =>
      '(_, a, w) ← (if (a_rw a =? EV_WRITEFILE) || (a_rw a =? EV_WRITEPIPE) ||
                       (a_rw a =? EV_WRITESOCK)
                    then evFlush a w else Ret (S_SUCCESS, a, w));
      '(early, a, w) ← send_last_block a w;
      match early with
      | Some status => L ← set_handle L handle (Some a); Ret (status, L, w)
      | None =>
          let '(status2, w) := close_file a w in
          let w := if negb (is_null (a_buf a)) && negb (a_rw a =? EV_WRITEBUF)
                   then hfree w (a_buf a) else w in
          L ← getHandleLock L;
          L ← set_handle L handle None;
          let L := getHandleUnlock L in
          L ← handleWriteUnlock L handle;
          Ret (status2, L, w)
      end
  end.

(** The status, and the value stored in [*length]. *)
Definition evGetBufferLength (L : lib) (handle : Z) (length : bool) : res (Z * option Z * lib) :=
  if bad_handle L handle then Ret (S_EVFILE_BADHANDLE, None, L) else
  L ← handleReadLock L handle;
  a ← get_handle L handle;
  match a with
  | None => L ← handleReadUnlock L handle; Ret (S_EVFILE_BADHANDLE, None, L)
  | Some a =>
      L ← handleReadUnlock L handle;
      Ret (S_SUCCESS, if length then Some (a_rwBytesOut a) else None, L)
  end.

(** ** Counting the events *)

(** The loop over the block headers, from the byte [bytesUsed] of the buffer or the
    position of the file. *)
Fixpoint count_blocks (fuel : nat) (a : EVFILE) (w : world) (bytesUsed : Z)
  : res (option Z * EVFILE * world) :=
  match fuel with
  | O => NoFuel
  | S fuel =>
      let sw x := if a_byte_swapped a then EVIO_SWAP32 x else x in
      let usingBuffer := a_rw a =? EV_READBUF in
      '(early, header, a) ←
        (if usingBuffer then
           if u32 (a_rwBufSize a - bytesUsed) <? 4 * EV_HDSIZ then
             Ret (Some S_EVFILE_UNXPTDEOF, [], a)
           else
             l ← hread (w_heap w) (padd (a_rwBuf a) (bytesUsed / 4)) EV_HDSIZ;
             Ret (None, map sw l, a)
         else
           f ← of_option (a_file a);
           let '(l, f) := fread w f (4 * EV_HDSIZ) in
           let a := a <| a_file := Some f |> in
           if negb (Z.of_nat (length l) =? 4 * EV_HDSIZ) then Ret (Some S_EVFILE_BADFILE, [], a)
           else Ret (None, map sw (words_of l), a));
      match early with
      | Some _ => Ret (early, a, w)
      | None =>
          let word i := default 0 (header !! Z.to_nat i) in
          let blockSize := word EV_HD_BLKSIZ in
          let a := a <| a_eventCount ::= λ x, u32 (x + word EV_HD_COUNT) |> in
          if isLastBlockInt (word EV_HD_VER) then Ret (None, a, w)
          else if usingBuffer then
            if u32 (a_rwBufSize a - bytesUsed) <? u32 (4 * blockSize) then
              Ret (Some S_EVFILE_UNXPTDEOF, a, w)
            else count_blocks fuel a w (u32 (bytesUsed + u32 (4 * blockSize)))
          else
            f ← of_option (a_file a);
            let '(ok, f) := fseek f (f_pos f + u32 (4 * (blockSize - EV_HDSIZ))) in
            if negb ok then Ret (Some (w_errno w), a, w)
            else count_blocks fuel (a <| a_file := Some f |>) w bytesUsed
      end
  end.

(** The status, and the value stored in [*count]. *)
Definition getEventCount (fuel : nat) (a : EVFILE) (w : world) : res (Z * option Z * EVFILE * world) :=
  if (a_rw a =? EV_WRITESOCK) || (a_rw a =? EV_READSOCK) ||
     (a_rw a =? EV_WRITEPIPE) || (a_rw a =? EV_READPIPE) then Ret (S_FAILURE, None, a, w)
  else if a_randomAccess a then Ret (S_SUCCESS, Some (a_eventCount a), a, w)
  else if 0 <? a_eventCount a then Ret (S_SUCCESS, Some (a_eventCount a), a, w)
  else if (a_append a =? 0) && ((a_rw a =? EV_WRITEBUF) || (a_rw a =? EV_WRITEFILE)) then
    Ret (S_SUCCESS, Some (a_eventCount a), a, w)
  else
    let usingBuffer := a_rw a =? EV_READBUF in
    '(start, a) ←
      (if usingBuffer then Ret (0, a)
       else f ← of_option (a_file a);
            Ret (f_pos f, a <| a_file := Some (snd (fseek f 0)) |>));
    '(early, a, w) ← count_blocks fuel a w 0;
    match early with
    | Some status => Ret (status, None, a, w)
    | None =>
        a ← (if usingBuffer then Ret a
             else f ← of_option (a_file a); Ret (a <| a_file := Some (snd (fseek f start)) |>));
        Ret (S_SUCCESS, Some (a_eventCount a), a, w)
    end.
