(* ===== verification/EvioControl.v ===== *)
(** * Control requests, dictionaries and first events (evio.c, lines 4903-5754)

    [evIoctl] reads and sets the parameters of a handle; [evGetDictionary] and
    [evGetRandomAccessTable] give the client what the handle holds; [evWriteDictionary]
    and [evWriteFirstEvent] write the events at the start of a file, and
    [evCreateFirstEventBlock] makes a block of its own for a first event. *)

From S2P Require Import Prelude Words CString Memory EvioFmt EvioSwapArrays EvioFmtSwap.
From S2P Require Import EvioSwap EvioTypes EvioStrings EvioNames EvioState EvioWrite EvioRead EvioOpen.

(** ** Control requests *)

(** What [argp] points to: a number to be read, a text, or a place for a result. *)
Inductive ioctl_arg := ArgNum (v : Z) | ArgText (s : list Z) | ArgPlace.

(** What is stored through [argp]. *)
Inductive ioctl_out := OutNone | OutNum (v : Z) | OutHeader (p : ptr).

Definition arg_num (argp : ioctl_arg) : res Z :=
  match argp with ArgNum v => Ret v | _ => Undef end.

(** Whether parameters of the buffer can still be changed: nothing was written, or
    nothing was appended.  [rwbuf] tells whether writing to a buffer is allowed. *)
Definition may_resize (a : EVFILE) (rwbuf : bool) : bool :=
  ((a_rw a =? EV_WRITEFILE) || (a_rw a =? EV_WRITEPIPE) || (a_rw a =? EV_WRITESOCK) ||
   (rwbuf && (a_rw a =? EV_WRITEBUF))) &&
  negb ((a_append a =? 0) && (negb (a_blknum a =? 1) || negb (a_blkEvCount a =? 0))) &&
  negb (1 <? a_append a).

(** A new internal buffer of [n] words with a last header of number 1 in place of the old
    one; the status. *)
Definition replace_buffer (a : EVFILE) (w : world) (n : Z) : res (Z * EVFILE * world) :=
  let '(newBuf, w) := halloc w (u32 (4 * n) / 4) in
  if is_null newBuf then Ret (S_EVFILE_ALLOCFAIL, a, w) else
  let w := hfree w (a_buf a) in
  h ← initLastBlockHeader (w_heap w) newBuf 1;
  Ret (S_SUCCESS, a <| a_buf := newBuf |> <| a_currentHeader := newBuf |>
                    <| a_bufRealSize := n |>, w <| w_heap := h |>).

(** Lines 4938-5030. *)
Definition set_block_size (a : EVFILE) (w : world) (argp : ioctl_arg)
  : res (Z * ioctl_out * EVFILE * world) :=
  if negb (may_resize a true) then Ret (S_EVFILE_BADSIZEREQ, OutNone, a, w) else
  blockSize ← arg_num argp;
  if blockSize =? a_blkSizeTarget a then Ret (S_SUCCESS, OutNone, a, w)
  else if blockSize <? EV_BLOCKSIZE_MIN then Ret (S_EVFILE_BADSIZEREQ, OutNone, a, w)
  else if EV_BLOCKSIZE_MAX <? blockSize then Ret (S_EVFILE_BADSIZEREQ, OutNone, a, w)
  else
    '(status, a, w) ←
      (if (a_bufRealSize a <? u32 (blockSize + EV_HDSIZ)) && negb (a_rw a =? EV_WRITEBUF) then
         '(status, a, w) ← replace_buffer a w (u32 (blockSize + EV_HDSIZ));
         Ret (status, if status =? S_SUCCESS then a <| a_bufSize := a_bufRealSize a |> else a, w)
       else if (a_bufSize a <? u32 (blockSize + EV_HDSIZ)) && negb (a_rw a =? EV_WRITEBUF) then
         Ret (S_SUCCESS, a <| a_bufSize := u32 (blockSize + EV_HDSIZ) |>, w)
       else Ret (S_SUCCESS, a, w));
    if negb (status =? S_SUCCESS) then Ret (status, OutNone, a, w) else
    Ret (S_SUCCESS, OutNone,
         a <| a_left := u32 (blockSize - EV_HDSIZ) |> <| a_blkSizeTarget := blockSize |>
           <| a_next := padd (a_buf a) EV_HDSIZ |>, w).

(** Lines 5035-5122. *)
Definition set_buffer_size (a : EVFILE) (w : world) (argp : ioctl_arg)
  : res (Z * ioctl_out * EVFILE * world) :=
  if negb (may_resize a false) then Ret (S_EVFILE_BADSIZEREQ, OutNone, a, w) else
  bufferSize ← arg_num argp;
  if bufferSize =? a_bufSize a then Ret (S_SUCCESS, OutNone, a, w)
  else if bufferSize <? u32 (a_blkSizeTarget a + EV_HDSIZ) then
    Ret (S_EVFILE_BADSIZEREQ, OutNone, a, w)
  else if EV_BLOCKSIZE_MAX + EV_HDSIZ <? bufferSize then Ret (S_EVFILE_BADSIZEREQ, OutNone, a, w)
  else
    '(status, a, w) ←
      (if (a_bufRealSize a <? bufferSize) && negb (a_rw a =? EV_WRITEBUF)
       then replace_buffer a w bufferSize else Ret (S_SUCCESS, a, w));
    if negb (status =? S_SUCCESS) then Ret (status, OutNone, a, w) else
    Ret (S_SUCCESS, OutNone,
         a <| a_bufSize := bufferSize |> <| a_left := u32 (bufferSize - EV_HDSIZ) |>
           <| a_next := padd (a_buf a) EV_HDSIZ |>, w).

(** Lines 5128-5160: the version, and a copy of the header, of the block in the buffer. *)
Definition get_version (a : EVFILE) (w : world) : res (Z * ioctl_out * EVFILE * world) :=
  v ← hget (w_heap w) (a_buf a) EV_HD_VER;
  Ret (S_SUCCESS, OutNum (Z.land v EV_VERSION_MASK), a, w).

Definition get_header (a : EVFILE) (w : world) : res (Z * ioctl_out * EVFILE * world) :=
  let '(pHeader, w) := halloc w EV_HDSIZ in
  if is_null pHeader then Ret (S_EVFILE_ALLOCFAIL, OutNone, a, w) else
  l ← hread (w_heap w) (a_buf a) EV_HDSIZ;
  h ← hwrite (w_heap w) pHeader l;
  Ret (S_SUCCESS, OutHeader pHeader, a, w <| w_heap := h |>).

(** Lines 5165-5249. *)
Definition set_max_events (a : EVFILE) (w : world) (argp : ioctl_arg)
  : res (Z * ioctl_out * EVFILE * world) :=
  eventsMax ← arg_num argp;
  if eventsMax <? 1 then Ret (S_EVFILE_BADSIZEREQ, OutNone, a, w) else
  let eventsMax := if EV_EVENTS_MAX <? eventsMax then EV_EVENTS_MAX else eventsMax in
  Ret (S_SUCCESS, OutNone, a <| a_blkEvMax := eventsMax |>, w).

Definition set_split_size (a : EVFILE) (w : world) (argp : ioctl_arg)
  : res (Z * ioctl_out * EVFILE * world) :=
  splitSize ← arg_num argp;
  let max := 18446744073709551615 in
  let splitSize := if max - 32 <? splitSize then max - 32 else splitSize in
  if splitSize <? 4 * 18 then Ret (S_EVFILE_BADSIZEREQ, OutNone, a, w) else
  Ret (S_SUCCESS, OutNone, a <| a_split := splitSize |>, w).

Definition set_run_number (a : EVFILE) (w : world) (argp : ioctl_arg)
  : res (Z * ioctl_out * EVFILE * world) :=
  runNumber ← arg_num argp;
  if runNumber <? 1 then Ret (S_EVFILE_BADSIZEREQ, OutNone, a, w) else
  Ret (S_SUCCESS, OutNone, a <| a_runNumber := runNumber |>, w).

(** Lines 5253-5269: NULL clears the run type; a failed copy is a bad size request. *)
Definition set_run_type (a : EVFILE) (w : world) (argp : option ioctl_arg)
  : res (Z * ioctl_out * EVFILE * world) :=
  match argp with
  | None => Ret (S_SUCCESS, OutNone, a <| a_runType := None |>, w)
  | Some (ArgText s) =>
      let '(ok, w) := alloc_ok w in
      if negb ok then Ret (S_EVFILE_BADSIZEREQ, OutNone, a, w)
      else Ret (S_SUCCESS, OutNone, a <| a_runType := Some s |>, w)
  | Some _ => Undef
  end.

Definition get_event_count (fuel : nat) (a : EVFILE) (w : world)
  : res (Z * ioctl_out * EVFILE * world) :=
  '(status, n, a, w) ← getEventCount fuel a w;
  Ret (status, match n with Some n => OutNum n | None => OutNone end, a, w).

(** One of the two cases of a letter. *)
Definition is_letter (c : Z) (l u : ascii) : bool := (c =? chr l) || (c =? chr u).

(** The switch on the first character of the request. *)
Definition ioctl_request (fuel : nat) (a : EVFILE) (w : world) (c : Z) (argp : option ioctl_arg)
  : res (Z * ioctl_out * EVFILE * world) :=
  let need f := match argp with
                | None => Ret (S_EVFILE_BADARG, OutNone, a, w)
                | Some p => f p
                end in
  if is_letter c "b" "B" then need (set_block_size a w)
  else if is_letter c "w" "W" then need (set_buffer_size a w)
  else if is_letter c "v" "V" then need (λ _, get_version a w)
  else if is_letter c "h" "H" then need (λ _, get_header a w)
  else if is_letter c "n" "N" then need (set_max_events a w)
  else if is_letter c "s" "S" then need (set_split_size a w)
  else if is_letter c "r" "R" then need (set_run_number a w)
  else if is_letter c "t" "T" then set_run_type a w argp
  else if is_letter c "e" "E" then need (λ _, get_event_count fuel a w)
  else Ret (S_EVFILE_UNKOPTION, OutNone, a, w).

(** [request] is [None] for NULL; the first character of an empty one is its null. *)
Definition evIoctl (fuel : nat) (L : lib) (w : world) (handle : Z) (request : option (list Z))
    (argp : option ioctl_arg) : res (Z * ioctl_out * lib * world) :=
  if bad_handle L handle then Ret (S_EVFILE_BADHANDLE, OutNone, L, w) else
  L ← handleWriteLock L handle;
  a ← get_handle L handle;
  match a, request with
  | None, _ => L ← handleWriteUnlock L handle; Ret (S_EVFILE_BADHANDLE, OutNone, L, w)
  | Some _, None => L ← handleWriteUnlock L handle; Ret (S_EVFILE_BADARG, OutNone, L, w)
  | Some a, Some request =>
      '(status, out, a, w) ← ioctl_request fuel a w (default 0 (head request)) argp;
      L ← set_handle L handle (Some a);
      L ← handleWriteUnlock L handle;
      Ret (status, out, L, w)
  end.

(** ** Random access table and dictionary *)

(** The status, and what is stored in [*table] and [*len]; the flag tells whether the
    two pointers are not NULL. *)
Definition evGetRandomAccessTable (L : lib) (handle : Z) (ptrs : bool)
  : res (Z * option (option (list ptr) * Z) * lib) :=
  if bad_handle L handle then Ret (S_EVFILE_BADHANDLE, None, L) else
  L ← handleReadLock L handle;
  a ← get_handle L handle;
  let leave (status : Z) r := L ← handleReadUnlock L handle; Ret (status, r, L) in
  match a with
  | None => leave S_EVFILE_BADHANDLE None
  | Some a =>
      if negb ptrs then leave S_EVFILE_BADARG None
      else if negb (a_randomAccess a) then leave S_EVFILE_BADMODE None
      else leave S_SUCCESS (Some (a_pTable a, a_eventCount a))
  end.

(** The status, and what is stored in [*dictionary], [None] for NULL, and [*len]; the
    flag tells whether [dictionary] is not NULL. *)
Definition evGetDictionary (L : lib) (w : world) (handle : Z) (dictionary : bool)
  : res (Z * option (option (list Z) * Z) * lib * world) :=
  if bad_handle L handle then Ret (S_EVFILE_BADHANDLE, None, L, w) else
  L ← handleReadLock L handle;
  a ← get_handle L handle;
  match a with
  | None => L ← handleReadUnlock L handle; Ret (S_EVFILE_BADHANDLE, None, L, w)
  | Some a =>
      if negb dictionary then L ← handleReadUnlock L handle; Ret (S_EVFILE_BADARG, None, L, w)
      else
        a ← mutexLock a;
        let leave (status : Z) r w :=
          L ← set_handle L handle (Some (mutexUnlock a));
          L ← handleReadUnlock L handle;
          Ret (status, r, L, w) in
        match a_dictionary a with
        | Some d =>
            let '(ok, w) := alloc_ok w in
            if negb ok then leave S_EVFILE_ALLOCFAIL None w
            else leave S_SUCCESS (Some (Some d, u32 (Z.of_nat (length d)))) w
        | None => leave S_SUCCESS (Some (None, 0)) w
        end
  end.

(** ** Dictionaries *)

Definition writes (a : EVFILE) : bool :=
  (a_rw a =? EV_WRITEFILE) || (a_rw a =? EV_WRITEPIPE) ||
  (a_rw a =? EV_WRITEBUF) || (a_rw a =? EV_WRITESOCK).

(** Lines 5536-5565: the bank of the dictionary, in bytes and in words. *)
Definition dictionary_bytes (xml : list Z) : Z :=
  let dictionaryLen := Z.of_nat (length xml) in
  let padSize := default 0 ([4; 3; 2; 1] !! Z.to_nat ((dictionaryLen + 1) mod 4)) in
  2 * 4 + dictionaryLen + 1 + padSize.

Definition dictionary_bank (xml : list Z) : list Z :=
  let bufSize := dictionary_bytes xml in
  let padSize := bufSize - (2 * 4 + Z.of_nat (length xml) + 1) in
  u32 (u32 bufSize / 4 - 1) :: Z.shiftl 0x3 8 ::
  words_of (xml ++ [0] ++ replicate (Z.to_nat padSize) 4).

(** Lines 5509-5572, with the mutex held.  When the bank cannot be allocated the text of
    the dictionary is freed but still pointed to; nothing of the model uses it again. *)
Definition write_dictionary (a : EVFILE) (w : world) (xml : list Z) : res (Z * EVFILE * world) :=
  if negb (a_blknum a =? 1) || (0 <? a_eventCount a) || a_wroteDictionary a then
    Ret (S_FAILURE, a, w)
  else
    let '(ok, w) := alloc_ok w in
    if negb ok then Ret (S_EVFILE_ALLOCFAIL, a <| a_dictionary := None |>, w) else
    let a := a <| a_dictionary := Some xml |> in
    let '(ok, w) := alloc_ok w in
    if negb ok then Ret (S_EVFILE_ALLOCFAIL, a, w) else
    evWriteDictImpl (a <| a_dictBuf := Some (dictionary_bank xml) |>
                       <| a_dictLength := u32 (dictionary_bytes xml) |>) w.

(** [strlen] of a NULL dictionary is not defined. *)
Definition evWriteDictionary (L : lib) (w : world) (handle : Z) (xmlDictionary : option (list Z))
  : res (Z * lib * world) :=
  if bad_handle L handle then Ret (S_EVFILE_BADHANDLE, L, w) else
  L ← handleReadLock L handle;
  a ← get_handle L handle;
  match a with
  | None => L ← handleReadUnlock L handle; Ret (S_EVFILE_BADHANDLE, L, w)
  | Some a =>
      xml ← of_option xmlDictionary;
      if Z.of_nat (length xml) <? 35 then
        L ← handleReadUnlock L handle; Ret (S_EVFILE_BADARG, L, w)
      else if negb (writes a) then L ← handleReadUnlock L handle; Ret (S_EVFILE_BADMODE, L, w)
      else if negb (a_append a =? 0) then
        L ← handleReadUnlock L handle; Ret (S_EVFILE_BADMODE, L, w)
      else
        a ← mutexLock a;
        '(status, a, w) ← write_dictionary a w xml;
        L ← set_handle L handle (Some (mutexUnlock a));
        L ← handleReadUnlock L handle;
        Ret (status, L, w)
  end.

(** ** First events *)

(** Lines 5639-5665: the copy of the first event; a status is one the function returns
    at once. *)
Definition store_first_event (a : EVFILE) (w : world) (firstEvent : option (list Z))
  : res (option Z * EVFILE * world) :=
  match firstEvent with
  | None => Ret (Some S_SUCCESS, a <| a_firstEventBuf := None |> <| a_firstEventLength := 0 |>, w)
  | Some e =>
      e0 ← first_word e;
      let bytesToWrite := u32 (4 * (e0 + 1)) in
      let '(ok, w) := alloc_ok w in
      let a := a <| a_firstEventLength := bytesToWrite |> in
      if negb ok then Ret (Some S_EVFILE_ALLOCFAIL, a <| a_firstEventBuf := None |>, w)
      else if Z.of_nat (length e) <? bytesToWrite / 4 then Undef
      else Ret (None, a <| a_firstEventBuf := Some (take (Z.to_nat (bytesToWrite / 4)) e) |>, w)
  end.

(** The event is written through the handle, whose mutex is held already. *)
Definition evWriteFirstEvent (L : lib) (w : world) (handle : Z) (firstEvent : option (list Z))
  : res (Z * lib * world) :=
  if bad_handle L handle then Ret (S_EVFILE_BADHANDLE, L, w) else
  L ← handleReadLock L handle;
  a ← get_handle L handle;
  match a with
  | None => L ← handleReadUnlock L handle; Ret (S_EVFILE_BADHANDLE, L, w)
  | Some a =>
      if negb (writes a) then L ← handleReadUnlock L handle; Ret (S_EVFILE_BADMODE, L, w) else
      a ← mutexLock a;
      let leave (status : Z) a L w :=
        L ← set_handle L handle (Some (mutexUnlock a));
        L ← handleReadUnlock L handle;
        Ret (status, L, w) in
      if a_wroteFirstEvent a then leave S_FAILURE a L w else
      '(early, a, w) ← store_first_event a w firstEvent;
      match early with
      | Some status => leave status a L w
      | None =>
          L ← set_handle L handle (Some a);
          '(status, L, w) ← evWriteImpl L w handle firstEvent false;
          a ← get_handle L handle;
          a ← of_option a;
          leave status (a <| a_commonBlkCount ::= λ x, u32 (x + 1) |>
                          <| a_wroteFirstEvent := true |>) L w
      end
  end.

(** The status, and the block and its length if they are stored; the flag tells whether
    the two pointers are not NULL.  As many words as the block has are copied after its
    header. *)
Definition evCreateFirstEventBlock (w : world) (firstEvent : option (list Z)) (localEndian ptrs : bool)
  : res (Z * option (ptr * Z) * world) :=
  match firstEvent with
  | None => Ret (S_EVFILE_BADARG, None, w)
  | Some e =>
      if negb ptrs then Ret (S_EVFILE_BADARG, None, w) else
      e0 ← first_word e;
      let blockWords := u32 ((if localEndian then e0 else EVIO_SWAP32 e0) + 1 + 8) in
      let '(mem, w) := halloc w (u32 (4 * blockWords) / 4) in
      if is_null mem then Ret (S_EVFILE_ALLOCFAIL, None, w) else
      let header := [blockWords; 1; 8; 1; 0;
                     Z.lor (Z.lor (Z.land EV_VERSION 0xff) EV_LASTBLOCK_MASK) EV_FIRSTEVENT_MASK;
                     0; 0xc0da0100] in
      h ← hwrite (w_heap w) mem (if localEndian then header else map EVIO_SWAP32 header);
      let n := Z.to_nat (u32 (4 * blockWords) / 4) in
      if Z.of_nat (length e) <? Z.of_nat n then Undef else
      h ← hwrite h (padd mem 8) (take n e);
      Ret (S_SUCCESS, Some (mem, blockWords), w <| w_heap := h |>)
  end.
