(* ===== verification/EvioHandles.v ===== *)
(** * The table of handles and its locks

    Each place of the table has a structure or is free, and has a lock.  The lemmas
    follow an operation on one place; the theorems are about the places [register_handle]
    gives away and about what an operation leaves behind in the locks. *)

From S2P Require Import Prelude Words CString Memory EvioFmt EvioSwapArrays EvioFmtSwap.
From S2P Require Import EvioSwap EvioTypes EvioNames EvioState EvioWrite EvioRead EvioOpen.

(** The table is not there yet, or has as many places as [handleCount] says and as many
    locks, and nobody holds the lock of a free place.  The mutex of the table is free. *)
Inductive wf_lib (L : lib) : Prop :=
| wf_start : l_handleCount L = 0 → l_handleList L = None → l_handleLocks L = None →
    l_getHandleMutex L = false → wf_lib L
| wf_table l k : l_handleList L = Some l → l_handleLocks L = Some k → 100 ≤ l_handleCount L →
    Z.of_nat (length l) = l_handleCount L → Z.of_nat (length k) = l_handleCount L →
    (∀ i, l !! i = Some None → k !! i = Some (RW 0 false)) →
    l_getHandleMutex L = false → wf_lib L.

(** The structure of a handle, and its lock. *)
Definition handle_at (L : lib) (h : Z) : option EVFILE :=
  match l_handleList L with
  | Some l => if h <? 1 then None else mjoin (l !! Z.to_nat (h - 1))
  | None => None
  end.
Definition lock_at (L : lib) (h : Z) : option rwlock :=
  match l_handleLocks L with
  | Some k => if h <? 1 then None else k !! Z.to_nat (h - 1)
  | None => None
  end.

(** ** Operations on a place *)

Definition put_handle (L : lib) (h : Z) (a : option EVFILE) : lib :=
  L <| l_handleList ::= option_map (<[Z.to_nat (h - 1) := a]>) |>.
Definition put_lock (L : lib) (h : Z) (k : rwlock) : lib :=
  L <| l_handleLocks ::= option_map (<[Z.to_nat (h - 1) := k]>) |>.

(** The place [h] of the table holds [a], and its lock is [k]. *)
Record slot (L : lib) (h : Z) (a : option EVFILE) (k : rwlock) : Prop := Slot {
  sl_range : 1 ≤ h ≤ l_handleCount L;
  sl_list : ∃ l, l_handleList L = Some l ∧ l !! Z.to_nat (h - 1) = Some a;
  sl_lock : ∃ l, l_handleLocks L = Some l ∧ l !! Z.to_nat (h - 1) = Some k
}.

Section slots.
Context {L : lib} {h : Z} {a : option EVFILE} {k : rwlock} (S : slot L h a k).

Lemma bad_handle_slot : bad_handle L h = false.
Proof. destruct S as [Hr _ _]. unfold bad_handle. apply orb_false_iff. split; zcase. Qed.

Lemma get_handle_slot : get_handle L h = Ret a.
Proof.
  destruct S as [Hr (l & Hl & Ha) _]. unfold get_handle. rewrite Hl. cbn.
  apply aget_ok; [lia|done].
Qed.

Lemma get_rwlock_slot : get_rwlock L h = Ret k.
Proof.
  destruct S as [Hr _ (l & Hl & Ha)]. unfold get_rwlock. rewrite Hl. cbn.
  apply aget_ok; [lia|done].
Qed.

Lemma set_handle_slot a' : set_handle L h a' = Ret (put_handle L h a').
Proof.
  destruct S as [Hr (l & Hl & Ha) _]. unfold set_handle, put_handle. rewrite Hl. cbn.
  apply lookup_lt_Some in Ha. rewrite aset_ok by lia. cbn. unfold update. by rewrite Hl.
Qed.

Lemma set_rwlock_slot k' : set_rwlock L h k' = Ret (put_lock L h k').
Proof.
  destruct S as [Hr _ (l & Hl & Ha)]. unfold set_rwlock, put_lock. rewrite Hl. cbn.
  apply lookup_lt_Some in Ha. rewrite aset_ok by lia. cbn. unfold update. by rewrite Hl.
Qed.

Lemma handleReadLock_slot :
  rw_writer k = false → handleReadLock L h = Ret (put_lock L h (RW (rw_readers k + 1) false)).
Proof.
  intros Hk. unfold handleReadLock. rewrite get_rwlock_slot. cbn. rewrite Hk. apply set_rwlock_slot.
Qed.

Lemma handleReadUnlock_slot :
  handleReadUnlock L h = Ret (put_lock L h (RW (rw_readers k - 1) (rw_writer k))).
Proof. unfold handleReadUnlock. rewrite get_rwlock_slot. cbn. apply set_rwlock_slot. Qed.

Lemma handleWriteLock_slot :
  k = RW 0 false → handleWriteLock L h = Ret (put_lock L h (RW 0 true)).
Proof.
  intros Hk. unfold handleWriteLock. rewrite get_rwlock_slot, Hk. cbn. apply set_rwlock_slot.
Qed.

Lemma handleWriteUnlock_slot :
  handleWriteUnlock L h = Ret (put_lock L h (RW (rw_readers k) false)).
Proof. unfold handleWriteUnlock. rewrite get_rwlock_slot. cbn. apply set_rwlock_slot. Qed.

Lemma slot_put_handle a' : slot (put_handle L h a') h a' k.
Proof.
  destruct S as [Hr (l & Hl & Ha) Hk]. split; [done| |exact Hk]. cbn. rewrite Hl. cbn.
  eexists. split; [done|]. apply list_lookup_insert_eq. by eapply lookup_lt_Some.
Qed.

Lemma slot_put_lock k' : slot (put_lock L h k') h a k'.
Proof.
  destruct S as [Hr Ha (l & Hl & Hk)]. split; [done|exact Ha|]. cbn. rewrite Hl. cbn.
  eexists. split; [done|]. apply list_lookup_insert_eq. by eapply lookup_lt_Some.
Qed.

(** The lock that was there is put back. *)
Lemma put_lock_back a' k' :
  put_lock (put_handle (put_lock L h k') h a') h k = put_handle L h a'.
Proof.
  destruct S as [_ _ (l & Hl & Hk)]. unfold put_lock, put_handle. cbn. unfold update. cbn.
  rewrite Hl. cbn. rewrite list_insert_insert_eq, list_insert_id by done.
  by destruct L; cbn in *; subst.
Qed.

Lemma put_handle_same : put_handle L h a = L.
Proof.
  destruct S as [_ (l & Hl & Ha) _]. unfold put_handle, update. cbn. rewrite Hl. cbn.
  rewrite list_insert_id by done. by destruct L; cbn in *; subst.
Qed.

Lemma put_lock_same k' : put_lock (put_lock L h k') h k = L.
Proof.
  destruct S as [_ _ (l & Hl & Hk)]. unfold put_lock. cbn. unfold update. cbn.
  rewrite Hl. cbn. rewrite list_insert_insert_eq, list_insert_id by done.
  by destruct L; cbn in *; subst.
Qed.
End slots.

Lemma slot_mutex L h a k b : slot L h a k → slot (L <| l_getHandleMutex := b |>) h a k.
Proof. intros [? ? ?]. by split. Qed.

(** Storing a structure, or freeing a place nobody uses, keeps the table as it should be. *)
Lemma wf_put_handle L h oa a :
  wf_lib L → slot L h oa (RW 0 false) → wf_lib (put_handle L h a).
Proof.
  intros HL [Hr (l & Hl & Ho) (k & Hk & Hk0)].
  destruct HL as [Hc Hl0 _ _|l0 k0 Hl0 Hk00 Hc Hll Hkl Hfree Hg]; [congruence|].
  rewrite Hl0 in Hl. rewrite Hk00 in Hk. simplify_eq.
  eapply wf_table; [by cbn; rewrite Hl0|done|..]; cbn; rewrite ?length_insert; try done.
  intros i Hi. destruct (decide (i = Z.to_nat (h - 1))) as [->|]; [done|].
  rewrite list_lookup_insert_ne in Hi by done. by apply Hfree.
Qed.

Lemma wf_mutex L : wf_lib L → l_getHandleMutex L = false.
Proof. by intros []. Qed.

(** ** Giving away a place *)

Lemma alloc_ok_mem w : w_mem w = [] → alloc_ok w = (true, w).
Proof. intros Hm. unfold alloc_ok. rewrite Hm. cbn. unfold update. rewrite <- Hm. by destruct w. Qed.

Lemma new_locks_ok n w : w_mem w = [] → new_locks n w = Ret (replicate n (RW 0 false), w).
Proof.
  intros Hm. induction n as [|n IH]; [done|]. cbn [new_locks]. rewrite alloc_ok_mem by done. cbn [negb].
  by rewrite IH.
Qed.

(** The table as lists of its places and locks. *)
Definition table (l : list (option EVFILE)) (k : list rwlock) (m : bool) : lib :=
  Lib (Z.of_nat (length l)) (Some l) (Some k) m.

(** The table grows by half. *)
Lemma expandHandles_table l k m w :
  w_mem w = [] → (0 < length l)%nat → length k = length l →
  expandHandles (table l k m) w =
  Ret (S_SUCCESS, table (l ++ replicate (length l / 2) None)
                        (k ++ replicate (length l / 2) (RW 0 false)) m, w).
Proof.
  intros Hm Hl Hk. unfold expandHandles, table. cbn [l_handleCount l_handleList l_handleLocks].
  replace (Z.of_nat (length l) <? 1) with false by zcase.
  rewrite !alloc_ok_mem by done. cbn [negb]. cbn iota. cbn [of_option mbind res_bind].
  remember (length l / 2)%nat as half eqn:Hh.
  assert ((Z.of_nat (length l) * 3) `div` 2 = Z.of_nat (length l) + Z.of_nat half) as ->.
  { subst half. rewrite Nat2Z.inj_div. change (Z.of_nat 2) with 2. rewrite <- Z.div_add_l by lia.
    f_equal. lia. }
  replace (Z.to_nat (_ - _)) with half by lia.
  rewrite new_locks_ok by done. cbn [mbind res_bind]. unfold update. cbn.
  by rewrite length_app, length_replicate, Nat2Z.inj_add.
Qed.

Lemma first_free_spec l i :
  match first_free l i with
  | Some j => ∃ n, j = i + Z.of_nat n ∧ l !! n = Some None ∧ ∀ m, (m < n)%nat → l !! m ≠ Some None
  | None => ∀ m, l !! m ≠ Some None
  end.
Proof.
  revert i. induction l as [|[a|] l IH]; intros i; cbn [first_free].
  - intros m. by rewrite lookup_nil.
  - specialize (IH (i + 1)). destruct (first_free l (i + 1)) as [j|].
    + destruct IH as (n & -> & Hn & Hlt). exists (S n). split_and!; [lia|done|].
      intros [|m] Hm; [done|]. apply Hlt. lia.
    + intros [|m]; [done|apply IH].
  - exists O. split_and!; [lia|done|lia].
Qed.

(** The first free place of the table, or the first of the places that are added. *)
Lemma register_table l k w a :
  w_mem w = [] → (1 < length l)%nat → length k = length l →
  (∀ i, l !! i = Some None → k !! i = Some (RW 0 false)) →
  ∃ n l' k', register_handle (table l k false) w a =
      Ret (Z.of_nat n + 1, table (<[n := Some (a <| a_handle := Z.of_nat n + 1 |>)]> l') k' false, w) ∧
    l' !! n = Some None ∧ (∀ m, (m < n)%nat → l' !! m ≠ Some None) ∧
    l `prefix_of` l' ∧ k `prefix_of` k' ∧ length k' = length l' ∧
    (∀ i, l' !! i = Some None → k' !! i = Some (RW 0 false)) ∧
    (l' = l ∨ (∀ m, l !! m ≠ Some None) ∧ l' = l ++ replicate (length l / 2) None).
Proof.
  intros Hm Hl Hk Hlk. unfold register_handle, getHandleLock. cbn [table l_getHandleMutex].
  cbn [mbind res_bind]. change (table l k false <| l_getHandleMutex := true |>) with (table l k true).
  cbn [l_handleCount l_handleList table].
  replace (Z.of_nat (length l) <? 1) with false by zcase. rewrite bool_decide_eq_false_2 by done.
  cbn [orb mbind res_bind of_option l_handleList l_handleCount table].
  rewrite Nat2Z.id, firstn_all. pose proof (first_free_spec l 0) as Hff.
  destruct (first_free l 0) as [j|].
  - destruct Hff as (n & -> & Hn & Hlt). exists n, l, k. rewrite Z.add_0_l in *.
    cbn [mbind res_bind]. unfold set_handle. cbn [table l_handleList of_option mbind res_bind].
    pose proof (lookup_lt_Some _ _ _ Hn). rewrite Z.add_simpl_r, aset_ok, Nat2Z.id by lia.
    cbn [mbind res_bind]. split_and!; try done; [|by left].
    unfold getHandleUnlock, update, table. cbn. by rewrite length_insert.
  - fold (table l k true). rewrite expandHandles_table by (done || lia). cbn [mbind res_bind].
    exists (length l), (l ++ replicate (length l / 2) None), (k ++ replicate (length l / 2) (RW 0 false)).
    assert (1 <= length l / 2)%nat as Hhalf by (apply (Nat.div_le_lower_bound _ 2 1); lia).
    unfold set_handle. cbn [table l_handleList of_option mbind res_bind].
    rewrite Z.add_simpl_r, aset_ok, Nat2Z.id by (rewrite length_app, length_replicate; lia).
    cbn [mbind res_bind]. split_and!.
    + unfold getHandleUnlock, update, table. cbn. by rewrite length_insert.
    + rewrite lookup_app_r, Nat.sub_diag by done. apply lookup_replicate_2. lia.
    + intros m Hlt. by rewrite lookup_app_l.
    + by eexists.
    + by eexists.
    + rewrite !length_app, !length_replicate. lia.
    + intros i Hi. destruct (decide (i < length l)%nat).
      * rewrite lookup_app_l in Hi by done. rewrite lookup_app_l by lia. by apply Hlk.
      * rewrite lookup_app_r in Hi by lia. rewrite lookup_app_r, Hk by lia.
        apply lookup_replicate in Hi as [_ Hi]. by apply lookup_replicate_2.
    + by right.
Qed.

(** The first use of the library makes a table of 100 places. *)
Definition first_table : lib := table (replicate 100 None) (replicate 100 (RW 0 false)) false.

Lemma expandHandles_start b w :
  w_mem w = [] →
  expandHandles (lib_start <| l_getHandleMutex := b |>) w =
  Ret (S_SUCCESS, first_table <| l_getHandleMutex := b |>, w).
Proof.
  intros Hm. unfold expandHandles.
  change (l_handleCount (lib_start <| l_getHandleMutex := b |>) <? 1) with true. cbn iota.
  rewrite !alloc_ok_mem by done. cbn [negb]. cbn iota. by rewrite new_locks_ok by done.
Qed.

Lemma register_first w a :
  w_mem w = [] → register_handle lib_start w a = register_handle first_table w a.
Proof.
  intros Hm. unfold register_handle, getHandleLock.
  change (l_getHandleMutex lib_start) with false. change (l_getHandleMutex first_table) with false.
  cbn iota. cbn [mbind res_bind].
  change ((l_handleCount (lib_start <| l_getHandleMutex := true |>) <? 1) || _) with true.
  change ((l_handleCount (first_table <| l_getHandleMutex := true |>) <? 1) || _) with false.
  cbn iota. by rewrite expandHandles_start.
Qed.

Lemma lib_start_eq L :
  l_handleCount L = 0 → l_handleList L = None → l_handleLocks L = None →
  l_getHandleMutex L = false → L = lib_start.
Proof. destruct L. cbn. by intros -> -> -> ->. Qed.

Lemma handle_at_table l k m i : handle_at (table l k m) (Z.of_nat i + 1) = mjoin (l !! i).
Proof.
  unfold handle_at, table. cbn. replace (_ <? 1) with false by zcase. by rewrite Z.add_simpl_r, Nat2Z.id.
Qed.

Lemma register_handle_places (L : lib) (w : world) (a : EVFILE) :
  wf_lib L → w_mem w = [] →
  ∃ h L', register_handle L w a = Ret (h, L', w) ∧
    handle_at L h = None ∧ (∀ k, 1 ≤ k < h → is_Some (handle_at L k)) ∧
    slot L' h (Some (a <| a_handle := h |>)) (RW 0 false) ∧
    (∀ k, k ≠ h → handle_at L' k = handle_at L k) ∧
    (∀ k r, lock_at L k = Some r → lock_at L' k = Some r) ∧ wf_lib L'.
Proof.
  intros HL Hm.
  assert (∃ l k, register_handle L w a = register_handle (table l k false) w a ∧
            (1 < length l)%nat ∧ 100 ≤ Z.of_nat (length l) ∧ length k = length l ∧
            (∀ i, l !! i = Some None → k !! i = Some (RW 0 false)) ∧
            (∀ i, handle_at L (Z.of_nat i + 1) = mjoin (l !! i)) ∧
            (∀ i r, lock_at L i = Some r → lock_at (table l k false) i = Some r))
    as (l & k & -> & Hl & H100 & Hk & Hfree & Hhl & Hlk).
  { destruct HL as [Hc Hl Hk Hg|l k Hl Hk Hc Hll Hkl Hfree Hg].
    - rewrite (lib_start_eq L) by done. exists (replicate 100 None), (replicate 100 (RW 0 false)).
      rewrite register_first by done. rewrite !length_replicate. split_and!; try done; try lia.
      + intros i Hi. apply lookup_replicate in Hi as [_ Hi]. by apply lookup_replicate_2.
      + intros i. destruct (replicate 100 (@None EVFILE) !! i) as [o|] eqn:E; [|done].
        by apply lookup_replicate in E as [-> _].
    - exists l, k. assert (L = table l k false) as -> by (destruct L; cbn in *; by subst).
      split_and!; try done; try lia. apply handle_at_table. }
  destruct (register_table l k w a Hm Hl Hk Hfree)
    as (n & l' & k' & -> & Hn & Hlt & [l2 ->] & [k2 ->] & Hlen & Hfree' & Hgrow).
  pose proof (lookup_lt_Some _ _ _ Hn) as Hnl.
  assert (∀ i, mjoin (l !! i) = mjoin ((l ++ l2) !! i)) as Hsame.
  { intros i. destruct (decide (i < length l)%nat); [by rewrite lookup_app_l|].
    rewrite (lookup_ge_None_2 l) by lia. destruct Hgrow as [Heq|[_ Heq]].
    - rewrite Heq. by rewrite lookup_ge_None_2 by lia.
    - rewrite Heq, lookup_app_r by lia. by destruct (replicate _ None !! _) as [o|] eqn:E;
        [apply lookup_replicate in E as [-> _]|]. }
  assert (∀ h, h < 1 → handle_at L h = None) as Hneg.
  { intros h Hh. unfold handle_at. by case_match; [replace (h <? 1) with true by zcase|]. }
  exists (Z.of_nat n + 1). eexists. split; [done|]. split_and!.
  - by rewrite Hhl, Hsame, Hn.
  - intros i Hi. specialize (Hlt (Z.to_nat (i - 1)) ltac:(lia)).
    replace i with (Z.of_nat (Z.to_nat (i - 1)) + 1) by lia. rewrite Hhl, Hsame.
    destruct ((l ++ l2) !! _) as [[o|]|] eqn:E; [by eexists|done|].
    apply lookup_ge_None_1 in E. lia.
  - split.
    + cbn. rewrite length_insert. lia.
    + eexists. split; [done|]. rewrite Z.add_simpl_r, Nat2Z.id. by apply list_lookup_insert_eq.
    + eexists. split; [done|]. rewrite Z.add_simpl_r, Nat2Z.id. by apply Hfree'.
  - intros i Hi. destruct (Z.lt_ge_cases i 1) as [H1|H1].
    { rewrite Hneg by done. unfold handle_at. cbn. by replace (i <? 1) with true by zcase. }
    replace i with (Z.of_nat (Z.to_nat (i - 1)) + 1) by lia. rewrite Hhl, Hsame, handle_at_table.
    by rewrite list_lookup_insert_ne by lia.
  - intros i r Hr. apply Hlk in Hr. unfold lock_at, table in *. cbn in *.
    destruct (i <? 1); [done|]. by apply lookup_app_l_Some.
  - eapply wf_table; [done|done|..]; cbn; rewrite ?length_insert; try done; try lia.
    + rewrite length_app. lia.
    + intros i Hi. destruct (decide (i = n)) as [->|].
      * by rewrite list_lookup_insert_eq in Hi.
      * rewrite list_lookup_insert_ne in Hi by done. by apply Hfree'.
Qed.

(** C33: A new structure goes to the first free place of the table, which grows by half when
    there is none: its handle is the number of that place, all the other handles keep
    their structures and locks, and the table is as it should be again. *)
Theorem register_handle_spec (L : lib) (w : world) (a : EVFILE) :
  wf_lib L → w_mem w = [] →
  ∃ h L', register_handle L w a = Ret (h, L', w) ∧
    handle_at L h = None ∧ (∀ k, 1 ≤ k < h → is_Some (handle_at L k)) ∧
    slot L' h (Some (a <| a_handle := h |>)) (RW 0 false) ∧
    (∀ k, k ≠ h → handle_at L' k = handle_at L k) ∧
    (∀ k r, lock_at L k = Some r → lock_at L' k = Some r) ∧ wf_lib L'.
Proof. apply register_handle_places. Qed.

Lemma register_handle_ok L w a :
  wf_lib L → w_mem w = [] →
  ∃ h L', register_handle L w a = Ret (h, L', w) ∧
    slot L' h (Some (a <| a_handle := h |>)) (RW 0 false) ∧ wf_lib L'.
Proof.
  intros HL Hm. destruct (register_handle_places L w a HL Hm) as (h & L' & ? & _ & _ & ? & _ & _ & ?).
  by exists h, L'.
Qed.

Lemma register_handle_spec_witness :
  wf_lib lib_start ∧ w_mem (World ∅ 1 ∅ ∅ [] [] 0) = [] ∧
  ∃ h L', register_handle lib_start (World ∅ 1 ∅ ∅ [] [] 0) structInit =
            Ret (h, L', World ∅ 1 ∅ ∅ [] [] 0) ∧
    handle_at lib_start h = None ∧ (∀ k, 1 ≤ k < h → is_Some (handle_at lib_start k)) ∧
    slot L' h (Some (structInit <| a_handle := h |>)) (RW 0 false) ∧
    (∀ k, k ≠ h → handle_at L' k = handle_at lib_start k) ∧
    (∀ k r, lock_at lib_start k = Some r → lock_at L' k = Some r) ∧ wf_lib L'.
Proof.
  assert (wf_lib lib_start) as H by (by apply wf_start).
  split_and!; [exact H|reflexivity|].
  exact (register_handle_spec lib_start (World ∅ 1 ∅ ∅ [] [] 0) structInit H eq_refl).
Defined.
