(* ===== verification/EvioBlocks.v ===== *)
(** * Blocks: the format of version 4, as the specification of reader and writer

    A block is a header of eight words and whole events; a file is a sequence of blocks
    numbered from 1 and a last, empty block whose bit 9 of the sixth word is set.  The
    lemmas are those of the heap and of the streams on such data. *)

From S2P Require Import Prelude Words CString Memory EvioFmt EvioSwapArrays EvioFmtSwap.
From S2P Require Import EvioSwap EvioTypes EvioNames EvioState.

(** An event of [n + 1] words starts with the word [n]. *)
Definition event_ok (e : list Z) : Prop :=
  head e = Some (Z.of_nat (length e) - 1) ∧ Forall u32_ok e ∧
  (2 ≤ length e)%nat ∧ Z.of_nat (length e) < 1073741800.

#[export] Instance event_ok_dec e : Decision (event_ok e).
Proof. unfold event_ok. apply _. Defined.

Definition hdr (len num count ver : Z) : list Z := [len; num; EV_HDSIZ; count; 0; ver; 0; EV_MAGIC].

Definition last_ver : Z := Z.lor EV_VERSION EV_LASTBLOCK_MASK.
Definition last_header (num : Z) : list Z := hdr 8 num 0 last_ver.

(** The events of a block. *)
Notation block := (list (list Z)).

Definition block_words (b : block) : Z := 8 + Z.of_nat (length (concat b)).
Definition enc_block (num : Z) (b : block) : list Z :=
  hdr (block_words b) num (Z.of_nat (length b)) EV_VERSION ++ concat b.

(** A block that is not the last one: it holds whole events, at least one. *)
Definition block_ok (b : block) : Prop :=
  b ≠ [] ∧ Forall event_ok b ∧ block_words b < 1073741824.

#[export] Instance block_ok_dec b : Decision (block_ok b).
Proof. unfold block_ok. apply _. Defined.

(** All the events of a sequence of blocks, in order. *)
Definition events (bs : list block) : list (list Z) := concat bs.

Lemma events_app bs1 bs2 : events (bs1 ++ bs2) = events bs1 ++ events bs2.
Proof. apply concat_app. Qed.

Lemma events_ok bs : Forall block_ok bs → Forall event_ok (events bs).
Proof.
  induction 1 as [|b bs (_ & Hb & _) _ IH]; [constructor|]. apply Forall_app. by split.
Qed.

Fixpoint enc_blocks (num : Z) (bs : list block) : list Z :=
  match bs with
  | [] => []
  | b :: bs => enc_block num b ++ enc_blocks (num + 1) bs
  end.

(** The words of a whole file. *)
Definition enc_file (bs : list block) : list Z :=
  enc_blocks 1 bs ++ last_header (1 + Z.of_nat (length bs)).

Definition blocks_words (bs : list block) : Z := Z.of_nat (length (enc_blocks 1 bs)).

Lemma length_enc_block num b : Z.of_nat (length (enc_block num b)) = block_words b.
Proof. unfold enc_block, block_words. rewrite length_app. cbn [hdr length]. lia. Qed.

Lemma length_enc_blocks num num' bs :
  length (enc_blocks num bs) = length (enc_blocks num' bs).
Proof.
  revert num num'. induction bs as [|b bs IH]; intros num num'; [done|].
  cbn [enc_blocks]. rewrite !length_app, (IH _ (num' + 1)).
  pose proof (length_enc_block num b). pose proof (length_enc_block num' b). lia.
Qed.

Lemma enc_blocks_app num bs1 bs2 :
  enc_blocks num (bs1 ++ bs2) =
  enc_blocks num bs1 ++ enc_blocks (num + Z.of_nat (length bs1)) bs2.
Proof.
  revert num. induction bs1 as [|b bs1 IH]; intros num; cbn [enc_blocks app length].
  - by rewrite Z.add_0_r.
  - rewrite IH, <- app_assoc. do 3 f_equal. lia.
Qed.

Lemma length_enc_blocks_words num bs : Z.of_nat (length (enc_blocks num bs)) = blocks_words bs.
Proof. unfold blocks_words. f_equal. apply length_enc_blocks. Qed.

Lemma blocks_words_snoc bs b : blocks_words (bs ++ [b]) = blocks_words bs + block_words b.
Proof.
  unfold blocks_words. rewrite enc_blocks_app, length_app. cbn [enc_blocks].
  rewrite app_nil_r. pose proof (length_enc_block (1 + Z.of_nat (length bs)) b). lia.
Qed.

Lemma block_words_snoc b e : block_words (b ++ [e]) = block_words b + Z.of_nat (length e).
Proof. unfold block_words. rewrite concat_app, length_app. cbn. rewrite app_nil_r. lia. Qed.

(** ** Words and bytes *)

Lemma bytes_of_app l1 l2 : bytes_of (l1 ++ l2) = bytes_of l1 ++ bytes_of l2.
Proof. apply flat_map_app. Qed.

Lemma length_bytes_of ws : length (bytes_of ws) = (4 * length ws)%nat.
Proof. apply length_flat_le. Qed.

Lemma words_of_le w l : u32_ok w → words_of (le 4 w ++ l) = w :: words_of l.
Proof.
  intros Hw. pose proof (le_val_le 4 w) as H. rewrite Z.mod_small in H by exact Hw.
  cbn [le app words_of]. cbn [le] in H. by rewrite H.
Qed.

Lemma words_of_bytes_of ws : Forall u32_ok ws → words_of (bytes_of ws) = ws.
Proof.
  induction 1 as [|w ws Hw _ IH]; [done|].
  change (bytes_of (w :: ws)) with (le 4 w ++ bytes_of ws). by rewrite words_of_le, IH.
Qed.

Lemma take_bytes_of n ws : take (4 * n) (bytes_of ws) = bytes_of (take n ws).
Proof.
  revert ws. induction n as [|n IH]; intros ws; [done|]. destruct ws as [|w ws]; [done|].
  replace (4 * S n)%nat with (4 + 4 * n)%nat by lia. cbn [take].
  change (bytes_of (w :: ws)) with (le 4 w ++ bytes_of ws).
  change (bytes_of (w :: take n ws)) with (le 4 w ++ bytes_of (take n ws)).
  by rewrite take_app_add', IH by (by rewrite length_le).
Qed.

Lemma drop_bytes_of n ws : drop (4 * n) (bytes_of ws) = bytes_of (drop n ws).
Proof.
  revert ws. induction n as [|n IH]; intros ws; [done|]. destruct ws as [|w ws]; [by destruct n|].
  replace (4 * S n)%nat with (4 + 4 * n)%nat by lia. cbn [drop].
  change (bytes_of (w :: ws)) with (le 4 w ++ bytes_of ws).
  by rewrite drop_app_add', IH by (by rewrite length_le).
Qed.

(** The words of blocks are 32-bit words. *)
Lemma block_words_ge b : 8 ≤ block_words b.
Proof. unfold block_words. lia. Qed.

Lemma u32_ok_events b : Forall event_ok b → Forall u32_ok (concat b).
Proof.
  induction 1 as [|e b He _ IH]; [constructor|]. cbn. apply Forall_app. split; [apply He|exact IH].
Qed.

Lemma u32_ok_hdr len num count ver :
  u32_ok len → u32_ok num → u32_ok count → u32_ok ver → Forall u32_ok (hdr len num count ver).
Proof.
  intros. unfold hdr. repeat (apply Forall_cons; [done|]). apply Forall_nil.
Qed.

Lemma u32_ok_enc_block num b :
  block_ok b → u32_ok num → Z.of_nat (length b) ≤ block_words b → Forall u32_ok (enc_block num b).
Proof.
  intros (_ & He & Hb) Hn Hl. pose proof (block_words_ge b). unfold enc_block.
  apply Forall_app. split; [|by apply u32_ok_events].
  apply u32_ok_hdr; try done; unfold u32_ok; lia.
Qed.

Lemma events_short b : Forall event_ok b → Z.of_nat (length b) ≤ block_words b.
Proof.
  intros H. unfold block_words.
  assert (length b ≤ length (concat b))%nat; [|lia].
  induction H as [|e b (_ & _ & He & _) _ IH]; [done|]. cbn. rewrite length_app. lia.
Qed.

(** ** Runs of words in an object *)

Lemma hread_app h o pre l post :
  h !! o = Some (pre ++ l ++ post) →
  hread h (Ptr o (Z.of_nat (length pre))) (Z.of_nat (length l)) = Ret l.
Proof.
  intros Ho. unfold hread. cbn [p_obj p_off]. rewrite Ho. cbn [of_option mbind res_bind].
  rewrite !length_app, !Nat2Z.id.
  replace (_ && _ && _) with true.
  - rewrite drop_app_length, take_app_length. done.
  - symmetry. rewrite !andb_true_iff, !Z.leb_le. lia.
Qed.

Lemma hwrite_app h o pre old post ws :
  h !! o = Some (pre ++ old ++ post) → length old = length ws →
  hwrite h (Ptr o (Z.of_nat (length pre))) ws = Ret (<[o := pre ++ ws ++ post]> h).
Proof.
  intros Ho Hl. unfold hwrite. cbn [p_obj p_off]. rewrite Ho. cbn [of_option mbind res_bind].
  rewrite !length_app, !Nat2Z.id.
  replace (_ && _) with true.
  - rewrite take_app_length. do 4 f_equal. rewrite app_assoc.
    apply drop_app_length'. rewrite length_app. lia.
  - symmetry. rewrite !andb_true_iff, !Z.leb_le. lia.
Qed.

Lemma list_split_at {A} (l : list A) (i : nat) x :
  l !! i = Some x → l = take i l ++ [x] ++ drop (S i) l.
Proof. intros H. by rewrite <- (take_drop_middle l i x H) at 1. Qed.

Lemma hget_app h o pre l post i v :
  h !! o = Some (pre ++ l ++ post) → l !! i = Some v →
  hget h (Ptr o (Z.of_nat (length pre))) (Z.of_nat i) = Ret v.
Proof.
  intros Ho Hi. unfold hget, padd. cbn [p_obj p_off].
  pose proof (lookup_lt_Some _ _ _ Hi) as Hlt.
  rewrite (list_split_at l i v Hi), <- !app_assoc, app_assoc in Ho.
  pose proof (hread_app h o (pre ++ take i l) [v] _ Ho) as H.
  rewrite length_app, length_take, Nat.min_l, Nat2Z.inj_add in H by lia.
  change 1 with (Z.of_nat (length [v])). rewrite H. done.
Qed.

Lemma hput_app h o pre l post i v :
  h !! o = Some (pre ++ l ++ post) → (i < length l)%nat →
  hput h (Ptr o (Z.of_nat (length pre))) (Z.of_nat i) v =
  Ret (<[o := pre ++ <[i := v]> l ++ post]> h).
Proof.
  intros Ho Hi. unfold hput, padd. cbn [p_obj p_off].
  destruct (lookup_lt_is_Some_2 l i Hi) as [x Hx].
  rewrite (list_split_at l i x Hx), <- !app_assoc, app_assoc in Ho.
  pose proof (hwrite_app h o (pre ++ take i l) [x] _ [v] Ho eq_refl) as H.
  rewrite length_app, length_take, Nat.min_l, Nat2Z.inj_add in H by lia. rewrite H.
  do 2 f_equal. rewrite (insert_take_drop l i v) by done. by rewrite <- !app_assoc.
Qed.

(** The same at the start of an object. *)
Lemma hread_start h p l post :
  h !! p_obj p = Some (l ++ post) → p_off p = 0 → hread h p (Z.of_nat (length l)) = Ret l.
Proof.
  intros Ho Hp. destruct p as [o off]. cbn in Hp, Ho. subst off. by apply (hread_app h o [] l post).
Qed.

Lemma hwrite_start h p old post ws :
  h !! p_obj p = Some (old ++ post) → p_off p = 0 → length old = length ws →
  hwrite h p ws = Ret (<[p_obj p := ws ++ post]> h).
Proof.
  intros Ho Hp Hl. destruct p as [o off]. cbn in Hp, Ho |- *. subst off.
  by apply (hwrite_app h o [] old post).
Qed.
