(* ===== verification/EvioClient.v ===== *)
(** * Clients of writers and readers

    What a client may rely on is stated as two interfaces: a writer has a list of events
    to which [evWrite] adds one; a reader has a list of events of which each of the read
    functions takes the first.  The programs of clients are proved against them; which
    handles implement them is shown in EvioSession.v. *)

From S2P Require Import Prelude Words CString Memory EvioFmt EvioSwapArrays EvioFmtSwap.
From S2P Require Import EvioSwap EvioTypes EvioNames EvioState EvioWrite EvioRead EvioOpen.
From S2P Require Import EvioBlocks.

Notation event := (list Z) (only parsing).

(** More events than this are not written with one handle: the block numbers and counts
    of the format have 32 bits. *)
Definition max_events : Z := 2147483640.

(** [W L w h evs]: the handle [h] of the library [L] is a writer that was given [evs]; [P]
    are the events it takes. *)
Class EventWriter (P : event → Prop) (W : lib → world → Z → list event → Prop) : Prop :=
  writer_write L w h evs e :
    W L w h evs → P e → Z.of_nat (length evs) < max_events →
    ∃ L' w', evWrite L w h (Some e) = Ret (S_SUCCESS, L', w') ∧ W L' w' h (evs ++ [e]).

(** [R L w h evs]: the handle [h] is a reader that has [evs] left. *)
Class EventReader (R : lib → world → Z → list event → Prop) : Prop := {
  reader_copy fuel L w h e evs dst buflen :
    R L w h (e :: evs) → (2 ≤ fuel)%nat → 3 ≤ buflen ≤ Z.of_nat (length dst) →
    Z.of_nat (length e) ≤ buflen →
    ∃ L' w', evRead fuel L w h (Some dst) buflen =
               Ret (S_SUCCESS, Some (e ++ drop (length e) dst), L', w') ∧ R L' w' h evs;
  reader_trunc fuel L w h e evs dst buflen :
    R L w h (e :: evs) → 3 ≤ buflen < Z.of_nat (length e) →
    ∃ L' w', evRead fuel L w h (Some dst) buflen = Ret (S_EVFILE_TRUNC, Some dst, L', w') ∧
             R L' w' h (e :: evs);
  reader_eof fuel L w h dst buflen :
    R L w h [] → 3 ≤ buflen →
    ∃ L' w', evRead fuel L w h (Some dst) buflen = Ret (EOF, Some dst, L', w') ∧ R L' w' h [];
  reader_alloc fuel L w h e evs :
    R L w h (e :: evs) → (2 ≤ fuel)%nat →
    ∃ L' w', evReadAlloc fuel L w h true = Ret (S_SUCCESS, Some (e, Z.of_nat (length e)), L', w') ∧
             R L' w' h evs;
  reader_in_place L w h e evs :
    R L w h (e :: evs) →
    ∃ p L' w', evReadNoCopy L w h true = Ret (S_SUCCESS, Some (p, Z.of_nat (length e)), L', w') ∧
               hread (w_heap w') p (Z.of_nat (length e)) = Ret e ∧ R L' w' h evs
}.

(** ** Programs of clients *)

(** Write the events one after the other; the statuses. *)
Fixpoint write_all (L : lib) (w : world) (h : Z) (evs : list event) : res (list Z * lib * world) :=
  match evs with
  | [] => Ret ([], L, w)
  | e :: evs =>
      '(status, L, w) ← evWrite L w h (Some e);
      '(l, L, w) ← write_all L w h evs;
      Ret (status :: l, L, w)
  end.

(** The ways to read an event: to an array of the client of [n] words, to a new array, or
    in the buffer of the library. *)
Inductive read_call := Copy (n : nat) | Alloc | InPlace.

Definition read_one (fuel : nat) (L : lib) (w : world) (h : Z) (c : read_call)
  : res (Z * event * lib * world) :=
  match c with
  | Copy n =>
      '(status, r, L, w) ← evRead fuel L w h (Some (replicate n 0)) (Z.of_nat n);
      let dst := default [] r in
      Ret (status, take (Z.to_nat (default 0 (head dst) + 1)) dst, L, w)
  | Alloc =>
      '(status, r, L, w) ← evReadAlloc fuel L w h true;
      Ret (status, default [] (fst <$> r), L, w)
  | InPlace =>
      '(status, r, L, w) ← evReadNoCopy L w h true;
      match r with
      | Some (p, n) => e ← hread (w_heap w) p n; Ret (status, e, L, w)
      | None => Ret (status, [], L, w)
      end
  end.

Fixpoint read_all (fuel : nat) (L : lib) (w : world) (h : Z) (cs : list read_call)
  : res (list (Z * event) * lib * world) :=
  match cs with
  | [] => Ret ([], L, w)
  | c :: cs =>
      '(status, e, L, w) ← read_one fuel L w h c;
      '(l, L, w) ← read_all fuel L w h cs;
      Ret ((status, e) :: l, L, w)
  end.

(** The array of the client is big enough for the event. *)
Definition call_ok (c : read_call) (e : event) : Prop :=
  match c with Copy n => (3 ≤ n)%nat ∧ (length e ≤ n)%nat | _ => True end.

Section clients.
Context {P W} `{!EventWriter P W} {R} `{!EventReader R}.

Lemma write_all_ok L w h evs new :
  W L w h evs → Forall P new → Z.of_nat (length evs) + Z.of_nat (length new) ≤ max_events →
  ∃ L' w', write_all L w h new = Ret (map (λ _, S_SUCCESS) new, L', w') ∧ W L' w' h (evs ++ new).
Proof.
  intros HW Hnew Hmax. revert L w evs HW Hmax.
  induction Hnew as [|e new He Hnew IH]; intros L w evs HW Hmax; cbn [write_all map].
  - exists L, w. by rewrite app_nil_r.
  - cbn [length] in Hmax.
    destruct (writer_write L w h evs e HW He ltac:(lia)) as (L1 & w1 & -> & HW1).
    cbn [mbind res_bind].
    destruct (IH L1 w1 (evs ++ [e]) HW1) as (L2 & w2 & -> & HW2); [rewrite length_app; cbn; lia|].
    exists L2, w2. by rewrite <- app_assoc in HW2.
Qed.

Lemma read_one_ok fuel L w h e evs c :
  R L w h (e :: evs) → event_ok e → call_ok c e → (2 ≤ fuel)%nat →
  ∃ L' w', read_one fuel L w h c = Ret (S_SUCCESS, e, L', w') ∧ R L' w' h evs.
Proof.
  intros HR (Hh & _ & Hl & Hmax) Hc Hf. destruct c as [n| |]; cbn [read_one].
  - destruct Hc as [H3 Hn].
    destruct (reader_copy fuel L w h e evs (replicate n 0) (Z.of_nat n) HR Hf) as (L' & w' & -> & HR');
      [rewrite length_replicate; lia|lia|].
    cbn [mbind res_bind default]. unfold id.
    assert (head (e ++ drop (length e) (replicate n 0)) = head e) as -> by (by destruct e).
    rewrite Hh. cbn [default]. unfold id.
    replace (Z.to_nat _) with (length e) by lia. rewrite take_app_length. by exists L', w'.
  - destruct (reader_alloc fuel L w h e evs HR Hf) as (L' & w' & -> & HR'). by exists L', w'.
  - destruct (reader_in_place L w h e evs HR) as (p & L' & w' & -> & Hread & HR').
    cbn [mbind res_bind]. rewrite Hread. by exists L', w'.
Qed.

(** Any mixture of the read functions gives the events in order. *)
Lemma read_all_ok fuel L w h evs rest cs :
  R L w h (evs ++ rest) → Forall event_ok evs → Forall2 call_ok cs evs → (2 ≤ fuel)%nat →
  ∃ L' w', read_all fuel L w h cs = Ret (map (λ e, (S_SUCCESS, e)) evs, L', w') ∧ R L' w' h rest.
Proof.
  intros HR Hev Hcs Hf. revert L w HR Hev. induction Hcs as [|c e cs evs Hc _ IH]; intros L w HR Hev.
  - by exists L, w.
  - apply Forall_cons_1 in Hev as [He Hev]. cbn [read_all map].
    destruct (read_one_ok fuel L w h e (evs ++ rest) c HR He Hc Hf) as (L1 & w1 & -> & HR1).
    cbn [mbind res_bind]. destruct (IH L1 w1 HR1 Hev) as (L2 & w2 & -> & HR2). by exists L2, w2.
Qed.
End clients.
