(* ===== verification/EvioWriter.v ===== *)
(** * The writer keeps its buffer and its file well formed

    Between two calls of [evWrite] the internal buffer of a file writer is either fresh
    (a last header only) or holds complete blocks, the block being filled and the last
    header after it; the file holds the blocks flushed so far and a last header.  Every
    operation of EvioWrite.v is shown to preserve this, and [write_event] to add its
    event after those written before. *)

From S2P Require Import Prelude Words CString Memory EvioFmt EvioSwapArrays EvioFmtSwap.
From S2P Require Import EvioSwap EvioTypes EvioNames EvioState EvioWrite EvioBlocks.

(** Projections of updated records. *)
Ltac proj :=
  cbn [update a_file a_handle a_rw a_magic a_byte_swapped a_version a_append a_eventCount
       a_buf a_next a_left a_blksiz a_blknum a_blkNumDiff a_blkSizeTarget a_blkEvCount
       a_bufSize a_bufRealSize a_blkEvMax a_isLastBlock a_baseFileName a_fileName a_runType
       a_specifierCount a_splitting a_currentHeader a_bytesToBuf a_eventsToBuf a_eventsToFile
       a_bytesToFile a_runNumber a_splitNumber a_split a_fileSize a_rwBuf a_rwBufSize
       a_rwBytesOut a_rwBytesIn a_rwFirstWrite a_sockFd a_randomAccess a_mmapFileSize
       a_mmapFile a_pTable a_hasAppendDictionary a_wroteDictionary a_dictLength a_dictBuf
       a_dictionary a_wroteFirstEvent a_firstEventLength a_firstEventBuf a_wroteCommonBlock
       a_commonBlkCount a_lock
       w_heap w_brk w_files w_socks w_mem w_io w_errno
       f_name f_pos f_eof f_err p_obj p_off padd].

(** ** The states of the buffer *)

(** What the operations on the buffer leave alone. *)
Record frame (a a' : EVFILE) : Prop := Frame {
  fr_rw : a_rw a' = a_rw a; fr_append : a_append a' = a_append a;
  fr_splitting : a_splitting a' = a_splitting a;
  fr_dict : a_wroteDictionary a' = a_wroteDictionary a;
  fr_evMax : a_blkEvMax a' = a_blkEvMax a; fr_target : a_blkSizeTarget a' = a_blkSizeTarget a;
  fr_file : a_file a' = a_file a; fr_fileName : a_fileName a' = a_fileName a;
  fr_base : a_baseFileName a' = a_baseFileName a;
  fr_spec : a_specifierCount a' = a_specifierCount a;
  fr_run : a_runNumber a' = a_runNumber a; fr_bytes : a_bytesToFile a' = a_bytesToFile a;
  fr_lock : a_lock a' = a_lock a; fr_swapped : a_byte_swapped a' = a_byte_swapped a;
  fr_random : a_randomAccess a' = a_randomAccess a
}.

Lemma frame_refl a : frame a a.
Proof. done. Qed.
Lemma frame_trans a1 a2 a3 : frame a1 a2 → frame a2 a3 → frame a1 a3.
Proof. intros [] []. split; congruence. Qed.

(** The words of the buffer: those of [l] and as many others as its size asks for. *)
Definition holds_words (a : EVFILE) (h : heap) (l : list Z) : Prop :=
  p_off (a_buf a) = 0 ∧
  ∃ tail, h !! p_obj (a_buf a) = Some (l ++ tail) ∧
          Z.of_nat (length (l ++ tail)) = a_bufRealSize a.

Record fresh (a : EVFILE) (h : heap) (num : Z) : Prop := Fresh {
  fs_words : holds_words a h (last_header num);
  fs_header : a_currentHeader a = Ptr (p_obj (a_buf a)) 0;
  fs_next : a_next a = Ptr (p_obj (a_buf a)) 8;
  fs_blksiz : a_blksiz a = 8;
  fs_count : a_blkEvCount a = 0;
  fs_bytes : a_bytesToBuf a = 32;
  fs_events : a_eventsToBuf a = 0;
  fs_blknum : a_blknum a = num
}.

(** Blocks [bs] numbered from [num], and then the block [cur]. *)
Record filled (a : EVFILE) (h : heap) (num : Z) (bs : list block) (cur : block) : Prop := Filled {
  fl_words : holds_words a h (enc_blocks num (bs ++ [cur]) ++
                              last_header (num + Z.of_nat (length bs) + 1));
  fl_header : a_currentHeader a = Ptr (p_obj (a_buf a)) (blocks_words bs);
  fl_next : a_next a = Ptr (p_obj (a_buf a)) (blocks_words bs + block_words cur);
  fl_blksiz : a_blksiz a = block_words cur;
  fl_count : a_blkEvCount a = Z.of_nat (length cur);
  fl_cur : (0 < length cur)%nat ∧ Z.of_nat (length cur) ≤ block_words cur;
  fl_bytes : a_bytesToBuf a = 4 * (blocks_words bs + block_words cur + 8);
  fl_room : a_bytesToBuf a ≤ 4 * a_bufSize a;
  fl_events : 1 ≤ a_eventsToBuf a ≤ blocks_words bs + block_words cur;
  fl_blknum : a_blknum a = num + Z.of_nat (length bs) + 1
}.

(** The configuration of a writer to the file [name], without splitting, dictionary or
    pending failures. *)
Record configured (a : EVFILE) (w : world) : Prop := Configured {
  cf_rw : a_rw a = EV_WRITEFILE; cf_append : a_append a = 0;
  cf_splitting : a_splitting a = false; cf_dict : a_wroteDictionary a = false;
  cf_obj : 0 < p_obj (a_buf a) < w_brk w;
  cf_size : 16 ≤ a_bufSize a ≤ a_bufRealSize a ∧ a_bufRealSize a < 1073741824;
  cf_evMax : 0 < a_blkEvMax a;
  cf_mem : w_mem w = []; cf_io : w_io w = []
}.

Lemma blocks_words_nonneg bs : 0 ≤ blocks_words bs.
Proof. unfold blocks_words. lia. Qed.

Lemma u32_small x : 0 ≤ x < 4294967296 → u32 x = x.
Proof. apply Z.mod_small. Qed.

(** ** Writing an event in the current block *)

(** The current header is at its place, with [num] as its number and either the version
    word of a block in use or that of a last block. *)
Record writable (a : EVFILE) (h : heap) (num : Z) (bs : list block) (cur : block)
    (len0 count0 ver : Z) (post : list Z) : Prop := Writable {
  wr_off : p_off (a_buf a) = 0;
  wr_words : h !! p_obj (a_buf a) =
    Some (enc_blocks num bs ++ hdr len0 (num + Z.of_nat (length bs)) count0 ver ++ concat cur ++ post);
  wr_size : Z.of_nat (length (enc_blocks num bs ++
              hdr len0 (num + Z.of_nat (length bs)) count0 ver ++ concat cur ++ post))
            = a_bufRealSize a;
  wr_header : a_currentHeader a = Ptr (p_obj (a_buf a)) (blocks_words bs);
  wr_next : a_next a = Ptr (p_obj (a_buf a)) (blocks_words bs + block_words cur);
  wr_blksiz : a_blksiz a = block_words cur;
  wr_count : a_blkEvCount a = Z.of_nat (length cur);
  wr_curlen : Z.of_nat (length cur) ≤ block_words cur;
  wr_bytes : a_bytesToBuf a = 4 * (blocks_words bs + block_words cur);
  wr_events : 0 ≤ a_eventsToBuf a ≤ blocks_words bs + block_words cur;
  wr_ver : (ver = EV_VERSION ∧ a_blknum a = num + Z.of_nat (length bs) + 1) ∨
           (ver = last_ver ∧ a_blknum a = num + Z.of_nat (length bs))
}.

(** The number and version words of a header do not depend on what is put in the two
    other fields. *)
Lemma count_event_header a h num bs len0 count0 ver rest :
  a_wroteDictionary a = false → a_append a = 0 →
  a_currentHeader a = Ptr (p_obj (a_buf a)) (blocks_words bs) →
  h !! p_obj (a_buf a) =
    Some (enc_blocks num bs ++ hdr len0 (num + Z.of_nat (length bs)) count0 ver ++ rest) →
  count_event a h false =
  Ret (a <| a_eventCount ::= λ x, u32 (x + 1) |>,
       <[p_obj (a_buf a) := enc_blocks num bs ++
          hdr len0 (num + Z.of_nat (length bs)) (a_blkEvCount a) ver ++ rest]> h).
Proof.
  intros Hd Happ Hh Ho. unfold count_event. cbn zeta. proj. rewrite Hh.
  rewrite <- (length_enc_blocks_words num). change EV_HD_COUNT with (Z.of_nat 3).
  rewrite (hput_app _ _ _ _ _ 3 _ Ho) by (cbn; lia). step.
  rewrite Hd, Happ. cbn [andb negb Z.eqb]. step. done.
Qed.

Lemma isLastBlock_hdr h o pre len num count ver rest :
  h !! o = Some (pre ++ hdr len num count ver ++ rest) →
  isLastBlock h (Ptr o (Z.of_nat (length pre))) = Ret (isLastBlockInt ver).
Proof.
  intros Ho. unfold isLastBlock. change EV_HD_VER with (Z.of_nat 5).
  by rewrite (hget_app _ _ _ _ _ 5 ver Ho).
Qed.

Lemma clearLastBlockBit_hdr h o pre len num count rest :
  h !! o = Some (pre ++ hdr len num count last_ver ++ rest) →
  clearLastBlockBit h (Ptr o (Z.of_nat (length pre))) =
  Ret (<[o := pre ++ hdr len num count EV_VERSION ++ rest]> h).
Proof.
  intros Ho. unfold clearLastBlockBit. change EV_HD_VER with (Z.of_nat 5).
  rewrite (hget_app _ _ _ _ _ 5 last_ver Ho) by done. step.
  by rewrite (hput_app _ _ _ _ _ 5 _ Ho) by (cbn; lia).
Qed.

(** The last, empty header after [l] words. *)
Lemma writeEmptyLast_ok a w l old post num :
  w_heap w !! p_obj (a_buf a) = Some (l ++ old ++ post) → length old = 8%nat →
  a_next a = Ptr (p_obj (a_buf a)) (Z.of_nat (length l)) →
  a_bytesToBuf a = 4 * Z.of_nat (length l) → Z.of_nat (length l) + 8 ≤ a_bufSize a →
  a_bufSize a < 1073741824 →
  writeEmptyLastBlockHeader a w num =
  Ret (S_SUCCESS, a <| a_bytesToBuf := 4 * (Z.of_nat (length l) + 8) |>,
       w <| w_heap := <[p_obj (a_buf a) := l ++ last_header num ++ post]> (w_heap w) |>).
Proof.
  intros Ho Hold Hn Hb Hroom Hs. unfold writeEmptyLastBlockHeader, writeNewHeader.
  rewrite Hb. rewrite (Z.mul_comm 4), Z.div_mul, u32_small by lia.
  replace (a_bufSize a - Z.of_nat (length l) <? 8) with false by zcase.
  rewrite Hn, (hwrite_app _ _ _ _ _ _ Ho) by (by rewrite Hold). step.
  change EV_HDSIZ with 8. do 3 f_equal. unfold update.
  replace (u32 (a_bytesToBuf a + 4 * 8)) with (4 * (Z.of_nat (length l) + 8)); [done|].
  rewrite Hb, u32_small by lia. lia.
Qed.

(** The last header goes after the [n] words of the blocks. *)
Lemma end_block_ok a w num bs (cur : block) len count ver post :
  w_heap w !! p_obj (a_buf a) =
    Some (enc_blocks num bs ++ hdr len (num + Z.of_nat (length bs)) count ver ++ concat cur ++ post) →
  (8 ≤ length post)%nat →
  a_currentHeader a = Ptr (p_obj (a_buf a)) (blocks_words bs) →
  a_next a = Ptr (p_obj (a_buf a)) (blocks_words bs + block_words cur) →
  a_bytesToBuf a = 4 * (blocks_words bs + block_words cur) →
  blocks_words bs + block_words cur + 8 ≤ a_bufSize a → a_bufSize a < 1073741824 →
  0 ≤ num → num + Z.of_nat (length bs) + 1 < 4294967296 →
  (ver = EV_VERSION ∧ a_blknum a = num + Z.of_nat (length bs) + 1) ∨
  (ver = last_ver ∧ a_blknum a = num + Z.of_nat (length bs)) →
  end_block a w =
  Ret (a <| a_blknum := num + Z.of_nat (length bs) + 1 |>
         <| a_bytesToBuf := 4 * (blocks_words bs + block_words cur + 8) |>,
       w <| w_heap := <[p_obj (a_buf a) := enc_blocks num bs ++
              hdr len (num + Z.of_nat (length bs)) count EV_VERSION ++ concat cur ++
              last_header (num + Z.of_nat (length bs) + 1) ++ drop 8 post]> (w_heap w) |>).
Proof.
  intros Ho Hpost Hc Hn Hb Hroom Hs Hnum Hmax Hver. unfold end_block. cbn zeta.
  rewrite Hc, <- (length_enc_blocks_words num bs), (isLastBlock_hdr _ _ _ _ _ _ _ _ Ho). step.
  set (n := num + Z.of_nat (length bs)) in *.
  set (l := enc_blocks num bs ++ hdr len n count EV_VERSION ++ concat cur).
  assert (Z.of_nat (length l) = blocks_words bs + block_words cur) as Hl.
  { unfold l. rewrite !length_app, !Nat2Z.inj_add, length_enc_blocks_words.
    unfold block_words. cbn [hdr length]. lia. }
  assert (∀ h : heap, h !! p_obj (a_buf a) = Some (enc_blocks num bs ++ hdr len n count EV_VERSION ++
            concat cur ++ post) →
          h !! p_obj (a_buf a) = Some (l ++ take 8 post ++ drop 8 post)) as Hsplit.
  { intros h ->. unfold l. by rewrite <- !app_assoc, take_drop. }
  assert (∀ a' (h : heap), a_buf a' = a_buf a → a_next a' = a_next a → a_bytesToBuf a' = a_bytesToBuf a →
            a_bufSize a' = a_bufSize a → a_blknum a' = n + 1 →
            h !! p_obj (a_buf a) = Some (enc_blocks num bs ++ hdr len n count EV_VERSION ++
              concat cur ++ post) →
            writeEmptyLastBlockHeader a' (w <| w_heap := h |>) (a_blknum a') =
            Ret (S_SUCCESS, a' <| a_bytesToBuf := 4 * (blocks_words bs + block_words cur + 8) |>,
                 w <| w_heap := <[p_obj (a_buf a) := l ++ last_header (n + 1) ++ drop 8 post]> h |>))
    as Hlast.
  { intros a' h E1 E2 E3 E4 E5 Hh. rewrite <- Hl, E5, <- E1.
    rewrite (writeEmptyLast_ok a' (w <| w_heap := h |>) l (take 8 post) (drop 8 post) (n + 1));
      proj; rewrite ?E1, ?E2, ?E3, ?E4.
    - done.
    - by apply Hsplit.
    - rewrite length_take. lia.
    - by rewrite Hn, Hl.
    - by rewrite Hb, Hl.
    - by rewrite Hl.
    - done. }
  rewrite length_enc_blocks_words. destruct Hver as [[-> Hk]|[-> Hk]].
  - change (isLastBlockInt EV_VERSION) with false. cbn iota. step.
    rewrite Hlast by done. step. do 2 f_equal.
    + rewrite <- Hk. unfold update. by destruct a.
    + unfold l. by rewrite <- !app_assoc.
  - change (isLastBlockInt last_ver) with true. cbn iota. step.
    rewrite <- (length_enc_blocks_words num bs), (clearLastBlockBit_hdr _ _ _ _ _ _ _ Ho). step.
    rewrite length_enc_blocks_words, Hlast; [|done|done|done|done| |by rewrite lookup_insert_eq].
    + step. rewrite insert_insert_eq. unfold l. rewrite <- !app_assoc. do 2 f_equal.
      unfold update. rewrite Hk, u32_small by lia. done.
    + proj. rewrite Hk. apply u32_small. lia.
Qed.

Lemma writeEventToBuffer_ok a w num bs cur len0 count0 ver post e :
  configured a w → writable a (w_heap w) num bs cur len0 count0 ver post →
  event_ok e → num + Z.of_nat (length bs) + 1 < 4294967296 → 0 ≤ num →
  blocks_words bs + block_words cur + Z.of_nat (length e) + 8 ≤ a_bufSize a →
  ∃ a' h', writeEventToBuffer a w e (Z.of_nat (length e)) false = Ret (a', w <| w_heap := h' |>) ∧
    filled a' h' num bs (cur ++ [e]) ∧ frame a a' ∧ a_buf a' = a_buf a ∧
    a_bufSize a' = a_bufSize a ∧ a_bufRealSize a' = a_bufRealSize a.
Proof.
  intros [] [] (Hhead & Hu & Hle & Hlt) Hnum Hnum0 Hroom.
  pose proof (blocks_words_nonneg bs) as Hbs. pose proof (block_words_ge cur) as Hcur.
  set (n := num + Z.of_nat (length bs)) in *.
  unfold writeEventToBuffer. rewrite Z.ltb_irrefl, Nat2Z.id, take_ge by lia.
  (* the event *)
  set (l1 := enc_blocks num bs ++ hdr len0 n count0 ver ++ concat cur) in *.
  assert (Z.of_nat (length l1) = blocks_words bs + block_words cur) as Hl1.
  { unfold l1. rewrite !length_app, !Nat2Z.inj_add, length_enc_blocks_words.
    unfold block_words. cbn [hdr length]. lia. }
  assert (length post = length e + 8 + (length post - length e - 8))%nat as Hpost.
  { rewrite !length_app in wr_size0. unfold l1 in Hl1. rewrite !length_app in Hl1. lia. }
  pose proof (take_drop (length e) post) as Hp1.
  assert (w_heap w !! p_obj (a_buf a) = Some (l1 ++ take (length e) post ++ drop (length e) post))
    as Ho1 by (rewrite Hp1; unfold l1; by rewrite <- !app_assoc).
  rewrite wr_next0, <- Hl1.
  rewrite (hwrite_app _ _ _ _ _ _ Ho1) by (rewrite length_take; lia). step.
  (* the size of the block *)
  assert (a_currentHeader a = Ptr (p_obj (a_buf a)) (Z.of_nat (length (enc_blocks num bs))))
    as Hcurh by (by rewrite length_enc_blocks_words).
  proj. rewrite Hcurh, wr_blksiz0.
  set (h1 := <[p_obj (a_buf a) := _]> (w_heap w)).
  assert (h1 !! p_obj (a_buf a) =
          Some (enc_blocks num bs ++ hdr len0 n count0 ver ++ concat cur ++ e ++ drop (length e) post))
    as Hh1. { unfold h1, l1. rewrite lookup_insert_eq. by rewrite <- !app_assoc. }
  change EV_HD_BLKSIZ with (Z.of_nat 0). rewrite (hput_app _ _ _ _ _ 0 _ Hh1) by (cbn; lia). step.
  rewrite u32_small by lia.
  set (len1 := block_words cur + Z.of_nat (length e)).
  set (h2 := <[p_obj (a_buf a) := _]> h1).
  assert (h2 !! p_obj (a_buf a) =
          Some (enc_blocks num bs ++ hdr len1 n count0 ver ++ concat cur ++ e ++ drop (length e) post))
    as Hh2. { unfold h2. by rewrite lookup_insert_eq. }
  (* the count *)
  set (a1 := a <| a_blksiz ::= _ |> <| a_bytesToBuf ::= _ |> <| a_next ::= _ |> <| a_left ::= _ |>
               <| a_blkEvCount ::= _ |> <| a_eventsToBuf ::= _ |>).
  rewrite (count_event_header a1 h2 num bs len1 count0 ver
             (concat cur ++ e ++ drop (length e) post)); [|done..]. step.
  set (a2 := a1 <| a_eventCount ::= _ |>). set (h3 := <[_ := _]> h2).
  pose proof (block_words_snoc cur e) as Hbw.
  assert (concat (cur ++ [e]) = concat cur ++ e) as Hcat
    by (rewrite concat_app; cbn; by rewrite app_nil_r).
  assert (u32 (a_blkEvCount a + 1) = Z.of_nat (length (cur ++ [e]))) as Hcnt.
  { rewrite wr_count0, length_app, u32_small by lia. cbn. lia. }
  rewrite (end_block_ok a2 _ num bs (cur ++ [e]) len1 (Z.of_nat (length (cur ++ [e]))) ver
             (drop (length e) post)); unfold a2, a1; proj; fold n; rewrite ?Hbw.
  - eexists _, _. split; [done|].
    split; [|split; [by split|done]]. split; proj; rewrite ?Hbw; fold n.
    + split; [done|]. exists (drop 8 (drop (length e) post)). rewrite lookup_insert_eq, Hcat.
      rewrite enc_blocks_app. cbn [enc_blocks]. rewrite app_nil_r. unfold enc_block. fold n.
      rewrite Hbw, Hcat. unfold len1. split; [by rewrite <- !app_assoc|].
      proj. rewrite <- wr_size0. rewrite !length_app, length_drop, length_drop.
      cbn [last_header hdr length]. lia.
    + done.
    + rewrite wr_next0. unfold padd. cbn. f_equal. lia.
    + rewrite wr_blksiz0, u32_small by lia. done.
    + done.
    + rewrite length_app. cbn. lia.
    + done.
    + lia.
    + rewrite u32_small by lia. lia.
    + done.
  - unfold h3. rewrite lookup_insert_eq. rewrite <- Hcnt, Hcat, <- app_assoc. done.
  - rewrite length_drop. lia.
  - done.
  - rewrite wr_next0. unfold padd. cbn. f_equal. lia.
  - rewrite wr_bytes0, u32_small by lia. lia.
  - lia.
  - lia.
  - done.
  - done.
  - done.
Qed.

(** The buffer is the same object, of the same size. *)
Definition kept (a a' : EVFILE) : Prop :=
  frame a a' ∧ a_buf a' = a_buf a ∧ a_bufSize a' = a_bufSize a ∧
  a_bufRealSize a' = a_bufRealSize a.

Lemma kept_trans a1 a2 a3 : kept a1 a2 → kept a2 a3 → kept a1 a3.
Proof.
  intros (F1 & ? & ? & ?) (F2 & ? & ? & ?).
  split; [by eapply frame_trans|split_and!; congruence].
Qed.

Lemma configured_kept a a' w h : configured a w → kept a a' → configured a' (w <| w_heap := h |>).
Proof.
  intros [] ([] & Hb & Hs & Hr). split; proj; rewrite ?Hb, ?Hs, ?Hr; congruence.
Qed.

Lemma write_in_block_writable a w num bs cur len0 count0 ver post e :
  configured a w → writable a (w_heap w) num bs cur len0 count0 ver post →
  event_ok e → num + Z.of_nat (length bs) + 1 < 4294967296 → 0 ≤ num →
  blocks_words bs + block_words cur + Z.of_nat (length e) + 8 ≤ a_bufSize a →
  ∃ a' h', ('(a, w) ← writeEventToBuffer a w e (Z.of_nat (length e)) false; Ret (S_SUCCESS, a, w)) =
             Ret (S_SUCCESS, a', w <| w_heap := h' |>) ∧
    filled a' h' num bs (cur ++ [e]) ∧ kept a a'.
Proof.
  intros Hc Hw He Hn H0 Hroom.
  destruct (writeEventToBuffer_ok a w num bs cur len0 count0 ver post e Hc Hw He Hn H0 Hroom)
    as (a' & h' & -> & Hf & Hk). by exists a', h'.
Qed.

(** In a fresh buffer the event starts the first block. *)
Lemma write_in_block_fresh a w num e :
  configured a w → fresh a (w_heap w) num → event_ok e → 0 ≤ num → num + 1 < 4294967296 →
  Z.of_nat (length e) + 16 ≤ a_bufSize a →
  ∃ a' h', write_in_block a w e (Z.of_nat (length e)) false =
             Ret (S_SUCCESS, a', w <| w_heap := h' |>) ∧
    filled a' h' num [] [e] ∧ kept a a'.
Proof.
  intros Hc [(Hoff & tail & Ho & Hl) Hh Hn Hb Hcnt Hbytes Hev Hblk] He H0 Hnum Hroom.
  unfold write_in_block.
  assert (isLastBlock (w_heap w) (a_currentHeader a) = Ret true) as ->.
  { rewrite Hh. by apply (isLastBlock_hdr _ _ [] 8 num 0 last_ver tail). }
  step. change (negb (S_SUCCESS =? S_SUCCESS)) with false. cbn iota.
  apply (write_in_block_writable a w num [] [] 8 0 last_ver tail); try done;
    [|unfold blocks_words, block_words; cbn [enc_blocks concat length]; lia..].
  split; try done; cbn [length enc_blocks app concat]; rewrite ?Z.add_0_r; try done.
  - rewrite Hev. unfold blocks_words, block_words. cbn. lia.
  - right. split; [done|]. by rewrite Hblk.
Qed.

(** The event goes to the block being filled. *)
Lemma write_in_block_same a w num bs cur e :
  configured a w → filled a (w_heap w) num bs cur → event_ok e → 0 ≤ num →
  num + Z.of_nat (length bs) + 1 < 4294967296 →
  a_bytesToBuf a + 4 * Z.of_nat (length e) ≤ 4 * a_bufSize a →
  ∃ a' h', write_in_block a w e (Z.of_nat (length e)) false =
             Ret (S_SUCCESS, a', w <| w_heap := h' |>) ∧
    filled a' h' num bs (cur ++ [e]) ∧ kept a a'.
Proof.
  intros Hc [(Hoff & tail & Ho & Hl) Hh Hn Hb Hcnt Hcur Hbytes Hrm Hev Hblk] He H0 Hnum Hroom.
  pose proof (blocks_words_nonneg bs). pose proof (block_words_ge cur).
  pose proof (cf_size _ _ Hc) as Hsz.
  rewrite enc_blocks_app in Ho, Hl. cbn [enc_blocks] in Ho, Hl. rewrite app_nil_r in Ho, Hl.
  unfold enc_block in Ho, Hl. rewrite <- !app_assoc in Ho, Hl.
  unfold write_in_block.
  assert (isLastBlock (w_heap w) (a_currentHeader a) = Ret false) as ->.
  { rewrite Hh, <- (length_enc_blocks_words num). exact (isLastBlock_hdr _ _ _ _ _ _ _ _ Ho). }
  step. change (negb (S_SUCCESS =? S_SUCCESS)) with false. cbn iota.
  destruct (write_in_block_writable (a <| a_bytesToBuf ::= λ x, u32 (x - 4 * EV_HDSIZ) |>) w
     num bs cur (block_words cur) (Z.of_nat (length cur)) EV_VERSION
     (last_header (num + Z.of_nat (length bs) + 1) ++ tail) e) as (a' & h' & -> & Hf & Hk);
    try done; proj.
  - by destruct Hc.
  - split; proj; try done; try lia.
    rewrite Hbytes, u32_small by (change EV_HDSIZ with 8; lia). change EV_HDSIZ with 8. lia.
  - lia.
  - exists a', h'. split_and!; [done|done|].
    destruct Hk as ([] & Hk). split; [by split|exact Hk].
Qed.

(** The event starts another block after the one being filled. *)
Lemma write_in_block_new a w num bs cur e :
  configured a w → filled a (w_heap w) num bs cur → event_ok e → 0 ≤ num →
  num + Z.of_nat (length bs) + 2 < 4294967296 →
  a_bytesToBuf a + 4 * Z.of_nat (length e) + 32 ≤ 4 * a_bufSize a →
  ∃ a' h', write_in_block a w e (Z.of_nat (length e)) true =
             Ret (S_SUCCESS, a', w <| w_heap := h' |>) ∧
    filled a' h' num (bs ++ [cur]) [e] ∧ kept a a'.
Proof.
  intros Hc [(Hoff & tail & Ho & Hl) Hh Hn Hb Hcnt Hcur Hbytes Hrm Hev Hblk] He H0 Hnum Hroom.
  pose proof (blocks_words_nonneg bs). pose proof (block_words_ge cur).
  pose proof (cf_size _ _ Hc) as Hsz. pose proof (blocks_words_snoc bs cur) as Hbs.
  rewrite <- app_assoc in Ho, Hl.
  unfold write_in_block, writeNewHeader. cbn zeta. proj.
  replace (a_bytesToBuf a `div` 4) with (blocks_words bs + block_words cur + 8)
    by (rewrite Hbytes, Z.mul_comm, Z.div_mul; lia).
  rewrite (u32_small (a_bufSize a - _)) by lia.
  replace (a_bufSize a - _ <? 8) with false by zcase. rewrite Hn, Hblk, <- Hbs.
  rewrite <- (length_enc_blocks_words num).
  rewrite (hwrite_app _ _ _ _ _ _ Ho) by done. step.
  change (negb (S_SUCCESS =? S_SUCCESS)) with false. cbn iota. step.
  change (negb (S_SUCCESS =? S_SUCCESS)) with false. cbn iota.
  set (a1 := a <| a_blknum ::= _ |> <| a_currentHeader := _ |> <| a_next ::= _ |> <| a_left ::= _ |>
               <| a_blksiz := _ |> <| a_blkEvCount := _ |> <| a_bytesToBuf ::= _ |>
               <| a_bytesToBuf ::= _ |>).
  destruct (write_in_block_writable a1 (w <| w_heap := <[p_obj (a_buf a) := enc_blocks num (bs ++ [cur]) ++
      [8; num + Z.of_nat (length bs) + 1; 8; 1; 0; generateSixthWord 4 false false 0; 0; EV_MAGIC] ++
      tail]> (w_heap w) |>) num (bs ++ [cur]) [] 8 1 EV_VERSION tail e)
    as (a' & h' & Hrun & Hf & Hk); unfold a1; proj; try done.
  - by destruct Hc.
  - assert (num + Z.of_nat (length (bs ++ [cur])) = num + Z.of_nat (length bs) + 1) as Hlen
      by (rewrite length_app; cbn; lia).
    split; proj; rewrite ?Hlen, ?Hbs; try done.
    + by rewrite lookup_insert_eq.
    + rewrite <- Hl. f_equal. rewrite !length_app. done.
    + by rewrite length_enc_blocks_words, Hbs.
    + rewrite Hn. unfold padd. cbn. f_equal.
    + rewrite Hbytes. change EV_HDSIZ with 8.
      rewrite (u32_small (_ + 4 * 8)), u32_small by lia. change (block_words []) with 8. lia.
    + change (block_words []) with 8. lia.
    + left. split; [done|]. rewrite u32_small by lia. lia.
  - rewrite length_app. cbn. lia.
  - rewrite Hbs. change (block_words []) with 8. lia.
  - exists a', h'. split_and!; [etrans; [exact Hrun|done]|done|].
    destruct Hk as ([] & Hk). split; [by split|exact Hk].
Qed.

(** ** The buffer as a whole *)

(** The blocks the buffer holds, of which the first has the number [num]. *)
Inductive buffered (a : EVFILE) (h : heap) (num : Z) : list block → Prop :=
| buffered_fresh : fresh a h num → buffered a h num []
| buffered_filled bs cur : filled a h num bs cur → buffered a h num (bs ++ [cur]).

Lemma buffered_words a h num BB :
  buffered a h num BB →
  holds_words a h (enc_blocks num BB ++ last_header (num + Z.of_nat (length BB))) ∧
  a_blknum a = num + Z.of_nat (length BB) ∧
  a_bytesToBuf a = 4 * (blocks_words BB + 8).
Proof.
  intros [[]|bs cur []].
  - cbn [enc_blocks length app]. rewrite Z.add_0_r. by rewrite fs_bytes0.
  - rewrite length_app, blocks_words_snoc, Nat2Z.inj_add, Z.add_assoc. by rewrite fl_bytes0.
Qed.

(** [resetBuffer] starts the block whose number is next. *)
Lemma resetBuffer_ok a w l :
  configured a w → holds_words a (w_heap w) l →
  ∃ a' h', resetBuffer a w = Ret (a', w <| w_heap := h' |>) ∧ fresh a' h' (a_blknum a) ∧ kept a a'.
Proof.
  intros Hc (Hoff & tail & Ho & Hl). pose proof (cf_size _ _ Hc) as Hsz.
  assert (length (take 8 (l ++ tail)) = 8%nat) as H8 by (rewrite length_take; lia).
  rewrite <- (take_drop 8 (l ++ tail)) in Ho, Hl. set (m := drop 8 (l ++ tail)) in *.
  unfold resetBuffer, initLastBlockHeader.
  rewrite (hwrite_start _ _ _ m _ Ho) by (done || by rewrite H8). step.
  eexists _, _. split; [done|]. split; [|by split].
  split; proj; try done.
  - split; [done|]. exists m. rewrite lookup_insert_eq. split; [done|].
    rewrite length_app in Hl |- *. rewrite H8 in Hl. exact Hl.
  - rewrite <- Hoff. by destruct (a_buf a).
  - unfold padd. by rewrite Hoff.
Qed.
