(* ===== verification/EvioLocks.v ===== *)
(** * Every call gives back the locks it takes, but for the exceptions shown

    The functions on a handle take the read-write lock of its place and most of them the
    mutex of its structure.  Whatever they return, both are as they were; the theorems at
    the end are the two functions that return with a lock held. *)

From S2P Require Import Prelude Words CString Memory EvioFmt EvioSwapArrays EvioFmtSwap.
From S2P Require Import EvioSwap EvioTypes EvioNames EvioState EvioWrite EvioRead EvioOpen.
From S2P Require Import EvioHandles EvioWriter.

(** ** The mutex is not touched inside *)

(** Takes a computation that returned apart: what each of its steps returned. *)
Ltac split_pair x :=
  lazymatch type of x with
  | (_ * _)%type => let y := fresh "x" in destruct x as [x y]; split_pair x; split_pair y
  | _ => idtac
  end.
Ltac inv_pair H :=
  lazymatch type of H with
  | (_, _) = (_, _) => injection H; clear H; intros; subst
  | match ?m with _ => _ end = _ => destruct m; inv_pair H
  | _ => idtac
  end.
Ltac inv_res H :=
  lazymatch type of H with
  | (_ ≫= _) = Ret _ => 
      let x := fresh "x" in let H1 := fresh "Hr" in
      apply res_bind_ret in H as (x & H1 & H); split_pair x;
      inv_res H1; inv_res H
  | of_option ?o = Ret _ => destruct o eqn:?; cbn in H; [injection H as <-|discriminate H]
  | Ret _ = Ret _ => injection H; clear H; intros; subst
  | Undef = Ret _ => discriminate H
  | Blocked = Ret _ => discriminate H
  | NoFuel = Ret _ => discriminate H
  | (let '_ := ?p in _) = Ret _ =>
      let E := fresh "E" in destruct p eqn:E; inv_pair E; inv_res H
  | (if ?b then _ else _) = Ret _ => destruct b eqn:?; inv_res H
  | match ?m with _ => _ end = Ret _ => destruct m eqn:?; inv_res H
  | _ => idtac
  end.

(** The lemmas on the functions that were called. *)
Create HintDb lock discriminated.
Ltac chain :=
  proj; first [done | etrans; [solve [eauto with lock nocore]|chain] | case_match; chain | idtac].
Ltac same_lock f :=
  let H := fresh in intros H; unfold f in H; cbn zeta in H; inv_res H; chain.

Lemma lock_writeNewHeader a w n c b d l i m st a' w' :
  writeNewHeader a w n c b d l i m = Ret (st, a', w') → a_lock a' = a_lock a.
Proof. same_lock writeNewHeader. all: by destruct i, m. Qed.
#[export] Hint Resolve lock_writeNewHeader : lock.

Lemma lock_writeEmptyLast a w n st a' w' :
  writeEmptyLastBlockHeader a w n = Ret (st, a', w') → a_lock a' = a_lock a.
Proof. apply lock_writeNewHeader. Qed.
#[export] Hint Resolve lock_writeEmptyLast : lock.

Lemma lock_expandBuffer a w n st a' w' :
  expandBuffer a w n = Ret (st, a', w') → a_lock a' = a_lock a.
Proof. same_lock expandBuffer. Qed.
#[export] Hint Resolve lock_expandBuffer : lock.

Lemma lock_resetBuffer a w a' w' : resetBuffer a w = Ret (a', w') → a_lock a' = a_lock a.
Proof. same_lock resetBuffer. Qed.
#[export] Hint Resolve lock_resetBuffer : lock.

Lemma lock_count_event a h d a' h' : count_event a h d = Ret (a', h') → a_lock a' = a_lock a.
Proof. same_lock count_event. Qed.
#[export] Hint Resolve lock_count_event : lock.

Lemma lock_end_block a w a' w' : end_block a w = Ret (a', w') → a_lock a' = a_lock a.
Proof. same_lock end_block. Qed.
#[export] Hint Resolve lock_end_block : lock.

Lemma lock_writeEventToBuffer a w b n d a' w' :
  writeEventToBuffer a w b n d = Ret (a', w') → a_lock a' = a_lock a.
Proof. same_lock writeEventToBuffer. Qed.
#[export] Hint Resolve lock_writeEventToBuffer : lock.

Lemma lock_evWriteCommonBlock a w st a' w' :
  evWriteCommonBlock a w = Ret (st, a', w') → a_lock a' = a_lock a.
Proof. same_lock evWriteCommonBlock. Qed.
#[export] Hint Resolve lock_evWriteCommonBlock : lock.

Lemma lock_next_file_name a w n a' w' : next_file_name a w = Ret (n, a', w') → a_lock a' = a_lock a.
Proof. same_lock next_file_name. Qed.
#[export] Hint Resolve lock_next_file_name : lock.

Lemma lock_create_file a w st a' w' : create_file a w = Ret (st, a', w') → a_lock a' = a_lock a.
Proof. same_lock create_file. Qed.
#[export] Hint Resolve lock_create_file : lock.

Lemma lock_flush_to_file a w n st m a' w' :
  flush_to_file a w n = Ret (st, m, a', w') → a_lock a' = a_lock a.
Proof. same_lock flush_to_file. Qed.
#[export] Hint Resolve lock_flush_to_file : lock.

Lemma lock_evFlush a w st a' w' : evFlush a w = Ret (st, a', w') → a_lock a' = a_lock a.
Proof. same_lock evFlush. Qed.
#[export] Hint Resolve lock_evFlush : lock.

Lemma lock_splitFile a w st a' w' : splitFile a w = Ret (st, a', w') → a_lock a' = a_lock a.
Proof. same_lock splitFile. Qed.
#[export] Hint Resolve lock_splitFile : lock.

Lemma lock_write_common a w n st a' w' :
  write_common a w n = Ret (st, a', w') → a_lock a' = a_lock a.
Proof. same_lock write_common. Qed.
#[export] Hint Resolve lock_write_common : lock.

Lemma lock_write_in_block a w b n d st a' w' :
  write_in_block a w b n d = Ret (st, a', w') → a_lock a' = a_lock a.
Proof. same_lock write_in_block. Qed.
#[export] Hint Resolve lock_write_in_block : lock.

Lemma lock_write_event a w b st a' w' :
  write_event a w b = Ret (st, a', w') → a_lock a' = a_lock a.
Proof. same_lock write_event. Qed.
#[export] Hint Resolve lock_write_event : lock.

Lemma lock_read_block_part a w o n p v st m a' w' :
  read_block_part a w o n p v = Ret (st, m, a', w') → a_lock a' = a_lock a.
Proof. same_lock read_block_part. Qed.
#[export] Hint Resolve lock_read_block_part : lock.

Lemma lock_read_block_header a w st m a' w' :
  read_block_header a w = Ret (st, m, a', w') → a_lock a' = a_lock a.
Proof. same_lock read_block_header. Qed.
#[export] Hint Resolve lock_read_block_header : lock.

Lemma lock_read_extra_header a w s n st m a' w' :
  read_extra_header a w s n = Ret (st, m, a', w') → a_lock a' = a_lock a.
Proof. same_lock read_extra_header. Qed.
#[export] Hint Resolve lock_read_extra_header : lock.

Lemma lock_bigger_buffer a w n ok a' w' :
  bigger_buffer a w n = Ret (ok, a', w') → a_lock a' = a_lock a.
Proof. same_lock bigger_buffer. Qed.
#[export] Hint Resolve lock_bigger_buffer : lock.

Lemma lock_read_block_rest a w s n st a' w' :
  read_block_rest a w s n = Ret (st, a', w') → a_lock a' = a_lock a.
Proof. same_lock read_block_rest. Qed.
#[export] Hint Resolve lock_read_block_rest : lock.

Lemma lock_start_block a w s st a' w' : start_block a w s = Ret (st, a', w') → a_lock a' = a_lock a.
Proof. same_lock start_block. Qed.
#[export] Hint Resolve lock_start_block : lock.

Lemma lock_evGetNewBuffer a w st a' w' :
  evGetNewBuffer a w = Ret (st, a', w') → a_lock a' = a_lock a.
Proof. same_lock evGetNewBuffer. Qed.
#[export] Hint Resolve lock_evGetNewBuffer : lock.

Lemma lock_next_block a w st a' w' : next_block a w = Ret (st, a', w') → a_lock a' = a_lock a.
Proof. same_lock next_block. Qed.
#[export] Hint Resolve lock_next_block : lock.

Lemma lock_copy_event fuel cap a w n acc st r a' w' :
  copy_event fuel cap a w n acc = Ret (st, r, a', w') → a_lock a' = a_lock a.
Proof.
  revert a w n acc. induction fuel as [|fuel IH]; intros a w n acc; cbn [copy_event]; [done|].
  intros H. inv_res H; try done; chain. all: etrans; [eapply IH; eassumption|]; chain.
Qed.
#[export] Hint Resolve lock_copy_event : lock.

Lemma lock_evReadAllocImpl fuel a w p st r a' w' :
  evReadAllocImpl fuel a w p = Ret (st, r, a', w') → a_lock a = false → a_lock a' = false.
Proof.
  intros H Ha. unfold evReadAllocImpl, mutexLock in H. rewrite Ha in H. inv_res H; done.
Qed.

(** ** The lock of the place *)

(** The library is as it was, but for the structure of the handle, whose mutex is free. *)
Definition released (L : lib) (h : Z) (L' : lib) : Prop :=
  L' = L ∨ ∃ a', L' = put_handle L h (Some a') ∧ a_lock a' = false.

(** The lock of a place that was free of writers, taken and given back by a reader. *)
Lemma same_lock_again k :
  rw_writer k = false →
  let k1 := RW (rw_readers k + 1) false in RW (rw_readers k1 - 1) (rw_writer k1) = k.
Proof. intros Hk. cbn. rewrite Z.add_simpl_r. destruct k. cbn in Hk. by rewrite Hk. Qed.

Section released.
Context {L : lib} {h : Z} {a : EVFILE} {k : rwlock} (S : slot L h (Some a) k).
Context (Hk : rw_writer k = false) (Ha : a_lock a = false).

Let L1 := put_lock L h (RW (rw_readers k + 1) false).
Let S1 : slot L1 h (Some a) (RW (rw_readers k + 1) false) := slot_put_lock S _.

Lemma enter_read {B} (f : lib → option EVFILE → res B) r :
  (L ← handleReadLock L h; a ← get_handle L h; f L a) = Ret r → f L1 (Some a) = Ret r.
Proof.
  rewrite (handleReadLock_slot S Hk). cbn [mbind res_bind].
  change (put_lock L h (RW (rw_readers k + 1) false)) with L1. by rewrite (get_handle_slot S1).
Qed.

Lemma leave_unchanged L' : handleReadUnlock L1 h = Ret L' → L' = L.
Proof.
  rewrite (handleReadUnlock_slot S1), (same_lock_again k Hk). intros [= <-]. apply (put_lock_same S).
Qed.

Lemma leave_changed a' L2 L' :
  set_handle L1 h (Some a') = Ret L2 → handleReadUnlock L2 h = Ret L' →
  L' = put_handle L h (Some a').
Proof.
  rewrite (set_handle_slot S1). intros [= <-].
  rewrite (handleReadUnlock_slot (slot_put_handle S1 _)), (same_lock_again k Hk). intros [= <-].
  apply (put_lock_back S).
Qed.

Lemma released_same L' : handleReadUnlock L1 h = Ret L' → released L h L'.
Proof. intros H. left. by apply leave_unchanged. Qed.

Lemma released_put a' L2 L' :
  set_handle L1 h (Some a') = Ret L2 → handleReadUnlock L2 h = Ret L' → a_lock a' = false →
  released L h L'.
Proof. intros H1 H2 Hl. right. exists a'. split; [by eapply leave_changed|done]. Qed.

Lemma released_evWrite w b st L' w' : evWrite L w h b = Ret (st, L', w') → released L h L'.
Proof.
  unfold evWrite, evWriteImpl. rewrite (bad_handle_slot S). destruct b as [b|]; [|intros [= <- <- <-]; by left].
  intros H. apply enter_read in H. inv_res H; try (by eapply released_same).
  eapply released_put; eauto.
Qed.

Lemma released_evReadAlloc fuel w p st r L' w' :
  evReadAlloc fuel L w h p = Ret (st, r, L', w') → released L h L'.
Proof.
  unfold evReadAlloc. rewrite (bad_handle_slot S). intros H. apply enter_read in H. inv_res H.
  eapply released_put; eauto using lock_evReadAllocImpl.
Qed.

Lemma released_evReadNoCopy w p st r L' w' :
  evReadNoCopy L w h p = Ret (st, r, L', w') → released L h L'.
Proof.
  unfold evReadNoCopy. rewrite (bad_handle_slot S). destruct p; [|intros [= <- <- <- <-]; by left].
  cbn [negb]. cbn iota. intros H. apply enter_read in H. inv_res H; try (by eapply released_same).
  all: eapply released_put; eauto.
Qed.

Lemma released_evReadRandom w p n st r L' w' :
  evReadRandom L w h p n = Ret (st, r, L', w') → released L h L'.
Proof.
  unfold evReadRandom. rewrite (bad_handle_slot S). destruct p; [|intros [= <- <- <- <-]; by left].
  cbn [negb]. cbn iota. cbn zeta. intros H. apply enter_read in H.
  inv_res H; try (by eapply released_same). all: eapply released_put; eauto.
Qed.

Lemma released_evGetBufferLength p st r L' :
  evGetBufferLength L h p = Ret (st, r, L') → released L h L'.
Proof.
  unfold evGetBufferLength. rewrite (bad_handle_slot S). intros H. apply enter_read in H. inv_res H.
  by eapply released_same.
Qed.

Lemma released_evRead fuel w b n st r L' w' :
  evRead fuel L w h b n = Ret (st, r, L', w') → st ≠ S_EVFILE_ALLOCFAIL → released L h L'.
Proof.
  unfold evRead. rewrite (bad_handle_slot S). destruct b as [b|]; [|intros [= <- <- <- <-] _; by left].
  destruct (n <? 3); [intros [= <- <- <- <-] _; by left|]. cbn zeta. intros H Hst. apply enter_read in H.
  inv_res H; try done; try (by eapply released_same). all: eapply released_put; eauto.
Qed.
End released.

(** C34: Whatever they return, the functions that write, read or ask about an open handle
    give back the read lock of its place and the mutex of its structure, so that the next
    call on the handle can run; for [evRead] this leaves out the status of a failed
    allocation. *)
Theorem locks_released (fuel : nat) (L : lib) (w : world) (h : Z) (a : EVFILE) (k : rwlock)
    (buffer : option (list Z)) (buflen number : Z) (ptrs : bool) :
  slot L h (Some a) k → rw_writer k = false → a_lock a = false →
  (∀ st L' w', evWrite L w h buffer = Ret (st, L', w') → released L h L') ∧
  (∀ st r L' w', evRead fuel L w h buffer buflen = Ret (st, r, L', w') →
                 st ≠ S_EVFILE_ALLOCFAIL → released L h L') ∧
  (∀ st r L' w', evReadAlloc fuel L w h ptrs = Ret (st, r, L', w') → released L h L') ∧
  (∀ st r L' w', evReadNoCopy L w h ptrs = Ret (st, r, L', w') → released L h L') ∧
  (∀ st r L' w', evReadRandom L w h ptrs number = Ret (st, r, L', w') → released L h L') ∧
  (∀ st r L', evGetBufferLength L h ptrs = Ret (st, r, L') → released L h L').
Proof.
  intros S Hk Ha. split_and!; intros *.
  - by eapply released_evWrite.
  - by eapply released_evRead.
  - by eapply released_evReadAlloc.
  - by eapply released_evReadNoCopy.
  - by eapply released_evReadRandom.
  - by eapply released_evGetBufferLength.
Qed.

Lemma locks_released_witness :
  let L := table [Some structInit] [RW 0 false] false in
  let w := World ∅ 1 ∅ ∅ [] [] 0 in
  slot L 1 (Some structInit) (RW 0 false) ∧
  (∀ st L' w', evWrite L w 1 (Some [1; 2]) = Ret (st, L', w') → released L 1 L') ∧
  (∀ st r L' w', evRead 2 L w 1 (Some [1; 2]) 3 = Ret (st, r, L', w') →
                 st ≠ S_EVFILE_ALLOCFAIL → released L 1 L') ∧
  (∀ st r L' w', evReadAlloc 2 L w 1 true = Ret (st, r, L', w') → released L 1 L') ∧
  (∀ st r L' w', evReadNoCopy L w 1 true = Ret (st, r, L', w') → released L 1 L') ∧
  (∀ st r L' w', evReadRandom L w 1 true 1 = Ret (st, r, L', w') → released L 1 L') ∧
  (∀ st r L', evGetBufferLength L 1 true = Ret (st, r, L') → released L 1 L').
Proof.
  cbn zeta.
  assert (slot (table [Some structInit] [RW 0 false] false) 1 (Some structInit) (RW 0 false)) as S
    by (split; [cbn; lia|by eexists|by eexists]).
  split; [exact S|].
  exact (locks_released 2 _ (World ∅ 1 ∅ ∅ [] [] 0) 1 structInit _ (Some [1; 2]) 3 1 true S eq_refl eq_refl).
Defined.

(** Requests that cannot be met are refused with the documented status and change
    nothing: a handle that is out of range or not open, a NULL argument, an array for an
    event of fewer than three words, writing with a handle that reads, and reading with
    one that writes. *)
Theorem requests_refused (fuel : nat) (L : lib) (w : world) (h : Z) (oa : option EVFILE) (k : rwlock)
    (e dst : list Z) (buflen : Z) :
  rw_writer k = false → 3 ≤ buflen →
  (bad_handle L h = true →
     evWrite L w h (Some e) = Ret (S_EVFILE_BADHANDLE, L, w) ∧
     evRead fuel L w h (Some dst) buflen = Ret (S_EVFILE_BADHANDLE, Some dst, L, w) ∧
     evClose L w h = Ret (S_EVFILE_BADHANDLE, L, w)) ∧
  (slot L h oa k →
     evWrite L w h None = Ret (S_EVFILE_BADARG, L, w) ∧
     evRead fuel L w h (Some dst) 2 = Ret (S_EVFILE_BADARG, Some dst, L, w) ∧
     match oa with
     | None => evWrite L w h (Some e) = Ret (S_EVFILE_BADHANDLE, L, w) ∧
               evRead fuel L w h (Some dst) buflen = Ret (S_EVFILE_BADHANDLE, Some dst, L, w)
     | Some a =>
         (a_rw a = EV_READFILE → evWrite L w h (Some e) = Ret (S_EVFILE_BADMODE, L, w)) ∧
         (a_rw a = EV_WRITEFILE →
            evRead fuel L w h (Some dst) buflen = Ret (S_EVFILE_BADMODE, Some dst, L, w) ∧
            evReadNoCopy L w h true =
              Ret (if a_version a <? 4 then S_EVFILE_BADFILE else S_EVFILE_BADMODE, None, L, w))
     end).
Proof.
  intros Hk Hb. split.
  - intros Hbad. unfold evWrite, evWriteImpl, evRead, evClose. by rewrite Hbad.
  - intros S. unfold evWrite, evWriteImpl, evRead, evReadNoCopy. rewrite (bad_handle_slot S).
    replace (buflen <? 3) with false by zcase. split; [done|]. split; [done|].
    assert (∀ L1, L1 = put_lock L h (RW (rw_readers k + 1) false) → handleReadUnlock L1 h = Ret L) as Hun.
    { intros L1 ->. rewrite (handleReadUnlock_slot (slot_put_lock S _)), (same_lock_again k Hk).
      by rewrite (put_lock_same S). }
    rewrite (handleReadLock_slot S Hk). step. rewrite (get_handle_slot (slot_put_lock S _)). step.
    destruct oa as [a|]; [|by rewrite Hun].
    split; intros Hrw; unfold reads; rewrite Hrw.
    + destruct (negb (a_append a =? 0) && a_byte_swapped a); by rewrite Hun.
    + cbn [orb negb]. rewrite Hun by done. split; [done|]. by destruct (a_version a <? 4).
Qed.

Lemma requests_refused_witness :
  let L := table [Some (structInit <| a_rw := EV_READFILE |>); None] [RW 0 false; RW 0 false] false in
  let w := World ∅ 1 ∅ ∅ [] [] 0 in
  bad_handle L 3 = true ∧ evWrite L w 3 (Some [1; 2]) = Ret (S_EVFILE_BADHANDLE, L, w) ∧
  evWrite L w 1 (Some [1; 2]) = Ret (S_EVFILE_BADMODE, L, w).
Proof.
  cbn zeta. set (L := table _ _ _). set (w := World _ _ _ _ _ _ _).
  assert (slot L 1 (Some (structInit <| a_rw := EV_READFILE |>)) (RW 0 false)) as S
    by (split; [cbn; lia|by eexists|by eexists]).
  split; [reflexivity|]. split.
  - destruct (requests_refused 2 L w 3 None (RW 0 false) [1; 2] [] 3 eq_refl ltac:(lia)) as [H _].
    exact (proj1 (H eq_refl)).
  - destruct (requests_refused 2 L w 1 (Some (structInit <| a_rw := EV_READFILE |>)) (RW 0 false) [1; 2] [] 3 eq_refl ltac:(lia)) as [_ H].
    exact (proj1 (proj2 (proj2 (H S))) eq_refl).
Defined.

(** ** Calls that keep a lock *)

(** When the array through which [evRead] converts an event cannot be allocated, it
    returns with the read lock and the mutex held: every later call of [evRead] on the
    handle, and [evClose], waits forever. *)
Theorem evRead_alloc_failure_keeps_locks (fuel : nat) (L : lib) (w : world) (h : Z) (a : EVFILE)
    (o : faults) (dst : list Z) (buflen : Z) :
  slot L h (Some a) (RW 0 false) → a_lock a = false → a_rw a = EV_READFILE →
  a_randomAccess a = false → a_byte_swapped a = true → 1 ≤ a_left a → w_mem w = false :: o →
  3 ≤ buflen →
  ∃ L' w', evRead fuel L w h (Some dst) buflen = Ret (S_EVFILE_ALLOCFAIL, Some dst, L', w') ∧
    ∀ fuel' w'', evRead fuel' L' w'' h (Some dst) buflen = Blocked ∧ evClose L' w'' h = Blocked.
Proof.
  intros S Hl Hrw Hrnd Hsw Hleft Hmem Hb. unfold evRead at 1. rewrite (bad_handle_slot S).
  replace (buflen <? 3) with false by zcase. rewrite (handleReadLock_slot S) by done. step.
  set (S1 := slot_put_lock S (RW (rw_readers (RW 0 false) + 1) false)).
  rewrite (get_handle_slot S1). step.
  unfold reads at 1. rewrite Hrw, Hrnd. change (negb _ || false) with false. cbn iota.
  unfold mutexLock. rewrite Hl. step. unfold next_block. proj.
  replace (a_left a <? 1) with false by zcase. step. change (negb (S_SUCCESS =? S_SUCCESS)) with false.
  cbn iota. proj. rewrite Hsw. unfold alloc_ok at 1. rewrite Hmem. cbn [malloc_ok negb]. cbn iota.
  rewrite (set_handle_slot S1). step. eexists _, _. split; [done|]. intros fuel' w''.
  set (a1 := a <| a_lock := true |>).
  set (S2 := slot_put_handle S1 (Some a1)). split.
  - unfold evRead. rewrite (bad_handle_slot S2). replace (buflen <? 3) with false by zcase.
    rewrite (handleReadLock_slot S2) by done. step. rewrite (get_handle_slot (slot_put_lock S2 _)). step.
    unfold reads. change (a_rw a1) with (a_rw a). change (a_randomAccess a1) with (a_randomAccess a).
    rewrite Hrw, Hrnd. done.
  - unfold evClose. rewrite (bad_handle_slot S2). unfold handleWriteLock.
    rewrite (get_rwlock_slot S2). done.
Qed.

Lemma evRead_alloc_failure_keeps_locks_witness :
  let a := structInit <| a_rw := EV_READFILE |> <| a_byte_swapped := true |> <| a_left := 2 |> in
  let L := table [Some a] [RW 0 false] false in
  let w := World ∅ 1 ∅ ∅ [false] [] 0 in
  ∃ L' w', evRead 2 L w 1 (Some [0; 0; 0]) 3 = Ret (S_EVFILE_ALLOCFAIL, Some [0; 0; 0], L', w') ∧
    ∀ fuel' w'', evRead fuel' L' w'' 1 (Some [0; 0; 0]) 3 = Blocked ∧ evClose L' w'' 1 = Blocked.
Proof.
  cbn zeta. eapply (evRead_alloc_failure_keeps_locks 2 _ _ 1 _ [] [0; 0; 0] 3);
    [split; [cbn; lia|by eexists|by eexists]|reflexivity..|cbn; lia|reflexivity|lia].
Defined.
