(* ===== verification/EvioFlush.v ===== *)
(** * The writer's file, and a sequence of writes

    [flushed] states what is in the file after the blocks of the buffer went to it any
    number of times; [evFlush] adds the blocks of the buffer, over the last header that
    ended the file before.  [write_event] adds its event to what buffer and file hold
    together, whichever of its cases applies. *)

From S2P Require Import Prelude Words CString Memory EvioFmt EvioSwapArrays EvioFmtSwap.
From S2P Require Import EvioSwap EvioTypes EvioNames EvioState EvioWrite EvioBlocks EvioWriter.

(** ** Another buffer *)

Lemma holds_nothing a h l : holds_words a h l → holds_words a h [].
Proof. intros (Hoff & tail & Ho & Hl). split; [done|]. by exists (l ++ tail). Qed.

Lemma expandBuffer_ok a w n :
  configured a w → holds_words a (w_heap w) [] → 16 ≤ n < 1073741824 →
  ∃ a' w', expandBuffer a w (4 * n) = Ret (S_SUCCESS, a', w') ∧ configured a' w' ∧
    holds_words a' (w_heap w') [] ∧ frame a a' ∧ a_blknum a' = a_blknum a ∧
    n ≤ a_bufSize a' ∧ w_files w' = w_files w.
Proof.
  intros [] Hw Hn. unfold expandBuffer. rewrite !u32_small, Z.mul_comm, Z.div_mul by lia.
  destruct (Z.leb_spec (n * 4) (4 * a_bufSize a)).
  { exists a, w. split_and!; try done; lia. }
  destruct (Z.leb_spec (n * 4) (4 * a_bufRealSize a)).
  { eexists _, _. split; [done|]. split_and!; [split; proj; try done; lia|exact Hw|done..|proj; lia|done]. }
  unfold halloc, hfree. rewrite cf_mem. cbn [malloc_ok negb]. unfold is_null. proj.
  replace (w_brk w =? 0) with false by zcase. eexists _, _. split; [done|].
  split_and!; proj; try done; try lia; [split; proj; try done; lia|].
  split; [done|]. exists (replicate (Z.to_nat n) 0). proj.
  rewrite lookup_delete_ne, lookup_insert_eq by lia. cbn [app]. split; [done|].
  rewrite length_replicate. lia.
Qed.

(** ** The file *)

Inductive flushed (a : EVFILE) (w : world) (name : list Z) : list block → Prop :=
| flushed_none :
    a_file a = None → a_bytesToFile a = 0 → a_fileName a = None →
    a_baseFileName a = Some name → a_specifierCount a = 0 →
    1 ≤ a_runNumber a < 2147483648 →
    flushed a w name []
| flushed_some FB f :
    FB ≠ [] → a_file a = Some f → f_name f = name → f_err f = false →
    f_pos f = 4 * Z.of_nat (length (enc_file FB)) →
    w_files w !! name = Some (bytes_of (enc_file FB)) →
    1 ≤ a_bytesToFile a ≤ 4294967296 * Z.of_nat (length FB) →
    flushed a w name FB.

Lemma flushed_frame a a' w w' name FB :
  frame a a' → w_files w' = w_files w → flushed a w name FB → flushed a' w' name FB.
Proof.
  intros [] Hw [].
  - apply flushed_none; congruence.
  - eapply flushed_some; rewrite ?Hw; try eassumption; congruence.
Qed.

(** The name of the file can be used as it is: no conversion, no variable, not a command
    or the standard output, no space at its ends. *)
Definition plain_name (name : list Z) : Prop :=
  chr "%" ∉ name ∧ chr "$" ∉ name ∧ name ≠ cs "-" ∧ head name ≠ Some (chr "|") ∧
  evTrim (Some name) 0 = Ret (Some name) ∧ Z.of_nat (length name) < 4294967296.

(** The words of the buffer that are flushed. *)
Lemma hread_buffer a h l :
  holds_words a h l → hread h (a_buf a) (Z.of_nat (length l)) = Ret l.
Proof. intros (Hoff & tail & Ho & _). by apply (hread_start h _ l tail). Qed.

Lemma length_enc_file bs :
  Z.of_nat (length (enc_file bs)) = blocks_words bs + 8.
Proof. unfold enc_file. rewrite length_app, Nat2Z.inj_add, length_enc_blocks_words. done. Qed.

(** The blocks written over the last header of the file, and the new last header. *)
Lemma fwrite_blocks w f name FB BB :
  w_io w = [] → f_name f = name → f_pos f = 4 * blocks_words FB →
  w_files w !! name = Some (bytes_of (enc_blocks 1 FB) ++ drop (4 * length (enc_blocks 1 FB))
                              (if bool_decide (FB = []) then [] else bytes_of (enc_file FB))) →
  let l := bytes_of (enc_blocks (1 + Z.of_nat (length FB)) BB ++
                     last_header (1 + Z.of_nat (length FB) + Z.of_nat (length BB))) in
  fwrite w f l =
  (Z.of_nat (length l), f <| f_pos := 4 * Z.of_nat (length (enc_file (FB ++ BB))) |>,
   w <| w_files ::= λ m, <[name := bytes_of (enc_file (FB ++ BB))]> m |>).
Proof.
  intros Hio Hname Hpos Hfile l. unfold fwrite, io_ok. rewrite Hio. cbn [malloc_ok]. proj.
  rewrite Hname, Hfile. cbn [default]. unfold id.
  assert (Z.to_nat (f_pos f) = length (bytes_of (enc_blocks 1 FB))) as Hp.
  { rewrite Hpos, length_bytes_of. unfold blocks_words. lia. }
  assert (enc_file (FB ++ BB) = enc_blocks 1 FB ++ enc_blocks (1 + Z.of_nat (length FB)) BB ++
            last_header (1 + Z.of_nat (length FB) + Z.of_nat (length BB))) as Henc.
  { unfold enc_file. rewrite enc_blocks_app, <- app_assoc, length_app. do 3 f_equal. lia. }
  rewrite Hp, take_app_length, drop_app_add, length_app.
  replace (_ - _)%nat with O by lia. cbn [replicate app].
  rewrite (drop_ge _ (length l)), app_nil_r.
  - rewrite Henc, bytes_of_app. f_equal; [f_equal|].
    + unfold update. f_equal. rewrite Hpos, length_app. unfold l. rewrite length_bytes_of.
      unfold blocks_words. lia.
    + destruct w. cbn in *. by rewrite Hio.
  - rewrite length_drop. unfold l. rewrite length_bytes_of, length_app. case_bool_decide; cbn; [lia|].
    rewrite length_bytes_of. pose proof (length_enc_file FB).
    pose proof (length_enc_blocks_words 1 FB). lia.
Qed.

(** What no operation of the writer changes. *)
Record stays (a a' : EVFILE) : Prop := Stays {
  st_lock : a_lock a' = a_lock a;
  st_target : a_blkSizeTarget a' = a_blkSizeTarget a;
  st_evMax : a_blkEvMax a' = a_blkEvMax a;
  st_random : a_randomAccess a' = a_randomAccess a
}.

Lemma stays_trans a1 a2 a3 : stays a1 a2 → stays a2 a3 → stays a1 a3.
Proof. intros [] []. split; congruence. Qed.
Lemma stays_frame a a' : frame a a' → stays a a'.
Proof. by intros []. Qed.

(** The stream [evFlush] writes to: created, or moved back over the last header. *)
Lemma open_stream a w name FB :
  configured a w → plain_name name → flushed a w name FB →
  ∃ a' w' f,
    (∀ n, flush_to_file a w n =
       (l ← hread (w_heap w) (a_buf a) (n / 4);
        let '(nBytes, f, w) := fwrite w' f (bytes_of l) in
        let a := a' <| a_file := Some f |> in
        if f_err f then Ret (S_FAILURE, nBytes, a, w) else Ret (S_SUCCESS, nBytes, a, w))) ∧
    f_name f = name ∧ f_err f = false ∧ f_pos f = 4 * blocks_words FB ∧
    w_files w' !! name = Some (bytes_of (enc_blocks 1 FB) ++ drop (4 * length (enc_blocks 1 FB))
                              (if bool_decide (FB = []) then [] else bytes_of (enc_file FB))) ∧
    a' = a <| a_file := a_file a' |> <| a_fileName := a_fileName a' |>
           <| a_baseFileName := a_baseFileName a' |> <| a_splitNumber := a_splitNumber a' |> ∧
    w' = w <| w_files := w_files w' |>.
Proof.
  intros [] (Hpct & _ & _ & _ & _ & Hlen) Hf. unfold flush_to_file. destruct Hf.
  - proj. rewrite H0. change (0 <? 1) with true. cbn iota. rewrite H. cbn [option_map].
    unfold create_file. proj. rewrite H1. unfold next_file_name. proj.
    rewrite cf_rw, cf_splitting, cf_mem, H2, H3.
    rewrite whole_name by (done || rewrite s32_id; lia). step. change (negb (S_SUCCESS =? S_SUCCESS)) with false. cbn iota.
    proj. step. rewrite cf_splitting. cbn [andb]. unfold fopen_w, io_ok. proj. rewrite cf_io.
    cbn [malloc_ok]. step. cbn iota. change (negb (S_SUCCESS =? S_SUCCESS)) with false. cbn iota. proj.
    step. eexists _, _, _. split; [intros n; reflexivity|]. proj. split_and!; try done.
    + by rewrite lookup_insert_eq.
    + destruct w. cbn in *. by rewrite cf_mem, cf_io.
  - proj. replace (a_bytesToFile a <? 1) with false by zcase. rewrite H0. cbn [option_map]. step.
    proj. unfold fseek, clearerr. proj. change (4 * EV_HDSIZ) with 32.
    pose proof (length_enc_file FB) as Hl. pose proof (blocks_words_nonneg FB).
    replace (f_pos f - 32 <? 0) with false by zcase. cbn [snd].
    change (negb (S_SUCCESS =? S_SUCCESS)) with false. cbn iota. proj. step.
    eexists _, w, _. split; [intros n; reflexivity|]. proj. split_and!; try done.
    + lia.
    + rewrite bool_decide_eq_false_2 by done. rewrite H4. f_equal.
      unfold enc_file. rewrite bytes_of_app at 2. rewrite drop_app_length'; [|by rewrite length_bytes_of].
      by rewrite bytes_of_app.
    + by destruct w.
Qed.

Lemma evFlush_ok a w name FB bs cur :
  configured a w → plain_name name → flushed a w name FB →
  filled a (w_heap w) (1 + Z.of_nat (length FB)) bs cur →
  Z.of_nat (length FB) + Z.of_nat (length bs) < 2147483648 →
  ∃ a' w', evFlush a w = Ret (S_SUCCESS, a', w') ∧ flushed a' w' name (FB ++ bs ++ [cur]) ∧
    configured a' w' ∧ holds_words a' (w_heap w') [] ∧ stays a a' ∧ a_blknum a' = a_blknum a ∧
    a_bufSize a' = a_bufSize a ∧ a_buf a' = a_buf a ∧ w_heap w' = w_heap w ∧
    w_files w' !! name = Some (bytes_of (enc_file (FB ++ bs ++ [cur]))).
Proof.
  intros Hc Hname Hf Hb Hbig. set (num := 1 + Z.of_nat (length FB)) in *.
  destruct (buffered_words _ _ _ _ (buffered_filled _ _ _ bs cur Hb)) as (Hw & Hblk & Hbytes).
  set (l := enc_blocks num (bs ++ [cur]) ++ last_header (num + Z.of_nat (length (bs ++ [cur])))) in *.
  pose proof (cf_size _ _ Hc) as Hsz. pose proof (fl_room _ _ _ _ _ Hb) as Hroom.
  pose proof (fl_events _ _ _ _ _ Hb) as Hev.
  assert (Z.of_nat (length l) = blocks_words (bs ++ [cur]) + 8) as Hl4
    by (unfold l; by rewrite length_app, Nat2Z.inj_add, length_enc_blocks_words).
  assert (Z.of_nat (length l) = a_bytesToBuf a / 4) as Hl
    by (rewrite Hbytes, Z.mul_comm, Z.div_mul; lia).
  pose proof (blocks_words_nonneg (bs ++ [cur])) as Hnn.
  destruct (open_stream a w name FB Hc Hname Hf) as (a1 & w1 & f & Hrun & Hfn & Hfe & Hfp & Hff & Ha1 & Hw1).
  unfold evFlush. replace (a_eventsToBuf a <? 1) with false by zcase.
  rewrite (cf_rw _ _ Hc). change (EV_WRITEFILE =? EV_WRITESOCK) with false.
  change (EV_WRITEFILE =? EV_WRITEPIPE) with false. change (EV_WRITEFILE =? EV_WRITEFILE) with true.
  cbn [orb]. cbn iota. rewrite Hrun, <- Hl, (hread_buffer a _ l) by done. step.
  assert (w_io w1 = []) as Hio by (rewrite Hw1; proj; by destruct Hc).
  pose proof (fwrite_blocks w1 f name FB (bs ++ [cur]) Hio Hfn Hfp Hff) as Hfw.
  cbn zeta in Hfw. fold num l in Hfw. rewrite Hfw. cbn beta iota. proj. rewrite Hfe. step. change (negb (S_SUCCESS =? S_SUCCESS)) with false. cbn iota.
  assert (Z.of_nat (length (bytes_of l)) = a_bytesToBuf a) as ->.
  { rewrite length_bytes_of. lia. }
  rewrite Z.eqb_refl. cbn [negb]. eexists _, _. split; [done|].
  assert (a_bytesToBuf a < 4294967296) as Hb32 by lia.
  split_and!; proj; try (rewrite Ha1; done).
  - eapply flushed_some; try done; proj.
    + by destruct FB, bs.
    + by rewrite lookup_insert_eq.
    + rewrite Ha1. proj. rewrite !length_app. cbn [length].
      assert (0 ≤ a_bytesToFile a ≤ 4294967296 * Z.of_nat (length FB)) as Hbf by (destruct Hf; lia).
      unfold u64. rewrite Z.mod_small by lia. lia.
  - destruct Hc. rewrite Ha1, Hw1. split; proj; done.
  - rewrite Ha1, Hw1. exact (holds_nothing _ _ _ Hw).
  - by rewrite Hw1.
  - by rewrite lookup_insert_eq.
Qed.

(** ** Writing an event *)

(** What keeps the first event of a buffer from needing a header of its own: the target
    size of blocks is that of the buffer, or no event of the client is bigger than
    [lim] words, for which there is room in a block. *)
Definition fits (lim : option Z) (a : EVFILE) (BB : list block) : Prop :=
  match lim with
  | Some M => 0 ≤ M ∧ M + 8 ≤ a_blkSizeTarget a ≤ EV_BLOCKSIZE_MAX
  | None => BB = [] → a_bufSize a ≤ a_blkSizeTarget a + 8
  end.
Definition within (lim : option Z) (e : list Z) : Prop :=
  match lim with Some M => Z.of_nat (length e) ≤ M | None => True end.

Lemma fits_stays lim a a' BB BB' :
  fits lim a BB → BB' ≠ [] → a_blkSizeTarget a' = a_blkSizeTarget a → fits lim a' BB'.
Proof. intros H Hne Ht. destruct lim; cbn in *; [by rewrite Ht|done]. Qed.

(** A writer that has [FB] in its file and [BB] in its buffer. *)
Record writing (lim : option Z) (a : EVFILE) (w : world) (name : list Z) (FB BB : list block)
  : Prop := Writing {
  wt_name : plain_name name;
  wt_config : configured a w;
  wt_file : flushed a w name FB;
  wt_buffer : buffered a (w_heap w) (1 + Z.of_nat (length FB)) BB;
  wt_fits : fits lim a BB;
  wt_blocks : Forall block_ok (FB ++ BB)
}.

(** The block being filled is as it should be, since the buffer has room for it. *)
Lemma filled_block_ok a w h num bs cur :
  configured a w → filled a h num bs cur → Forall event_ok cur → block_ok cur.
Proof.
  intros [] [] Hcur. pose proof (blocks_words_nonneg bs).
  split_and!; [by destruct cur; cbn in *; [lia|]|done|lia].
Qed.

(** Flushing, whatever the buffer holds. *)
Lemma flush_any lim a w name FB BB :
  writing lim a w name FB BB → Z.of_nat (length FB) + Z.of_nat (length BB) < 2147483648 →
  ∃ a' w', evFlush a w = Ret (S_SUCCESS, a', w') ∧ flushed a' w' name (FB ++ BB) ∧
    configured a' w' ∧ holds_words a' (w_heap w') [] ∧ stays a a' ∧ a_buf a' = a_buf a ∧
    a_blknum a' = 1 + Z.of_nat (length (FB ++ BB)) ∧ a_bufSize a' = a_bufSize a ∧
    if bool_decide (FB ++ BB = []) then w_files w' = w_files w
    else w_files w' !! name = Some (bytes_of (enc_file (FB ++ BB))).
Proof.
  intros [Hn Hc Hf Hb _ _] Hbig.
  destruct (buffered_words _ _ _ _ Hb) as (Hw & Hblk & _). destruct Hb as [Hb|bs cur Hb].
  - unfold evFlush. rewrite (fs_events _ _ _ Hb). change (0 <? 1) with true. cbn iota.
    exists a, w. rewrite app_nil_r. cbn [length] in Hblk. rewrite Z.add_0_r in Hblk.
    split_and!; try done; [by eapply holds_nothing|]. case_bool_decide; [done|by destruct Hf].
  - rewrite length_app in Hbig. cbn [length] in Hbig.
    destruct (evFlush_ok a w name FB bs cur Hc Hn Hf Hb ltac:(lia))
      as (a' & w' & Hr & Hf' & Hc' & Hw' & Hs & Hbn & Hbs & Hbuf & _ & Hfile).
    exists a', w'. split_and!; try done; [rewrite Hbn, Hblk, !length_app; lia|].
    rewrite bool_decide_eq_false_2; [done|by destruct FB, bs].
Qed.

(** [r] is the outcome of a write that added [e] to what was written before. *)
Definition wrote (lim : option Z) (a : EVFILE) (name : list Z) (FB BB : list block) (e : list Z)
    (r : res (Z * EVFILE * world)) : Prop :=
  ∃ a' w' FB' BB', r = Ret (S_SUCCESS, a', w') ∧ writing lim a' w' name FB' BB' ∧ stays a a' ∧
    events (FB' ++ BB') = events (FB ++ BB) ++ [e] ∧
    Z.of_nat (length (FB' ++ BB')) ≤ Z.of_nat (length (FB ++ BB)) + 1.

(** The event goes to a buffer that was emptied. *)
Lemma wrote_after_flush lim a w name FB BB e (bigger : bool) :
  writing lim a w name FB BB → event_ok e →
  Z.of_nat (length FB) + Z.of_nat (length BB) + 2 < 2147483648 →
  (bigger = false → Z.of_nat (length e) + 16 ≤ a_bufSize a) →
  wrote lim a name FB BB e (
    '(status, a, w) ← evFlush a w;
    if negb (status =? S_SUCCESS) then Ret (status, a, w) else
    '(split, a, w) ← Ret (0, a, w);
    if split =? S_FAILURE then Ret (S_FAILURE, a, w) else
    '(status, a, w) ← (if bigger then expandBuffer a w (4 * (Z.of_nat (length e) + 16))
                       else Ret (S_SUCCESS, a, w));
    if negb (status =? S_SUCCESS) then Ret (status, a, w) else
    '(a, w) ← resetBuffer a w;
    write_in_block a w e (Z.of_nat (length e)) false).
Proof.
  intros Hwt He Hbig Hsmall.
  destruct (flush_any lim a w name FB BB Hwt ltac:(lia))
    as (a1 & w1 & -> & Hf1 & Hc1 & Hw1 & Hs1 & _ & Hblk1 & Hsz1 & _). step.
  change (negb (S_SUCCESS =? S_SUCCESS)) with false. cbn iota. step.
  change (0 =? S_FAILURE) with false. cbn iota.
  assert (∃ a2 w2, (if bigger then expandBuffer a1 w1 (4 * (Z.of_nat (length e) + 16))
                    else Ret (S_SUCCESS, a1, w1)) = Ret (S_SUCCESS, a2, w2) ∧
            configured a2 w2 ∧ holds_words a2 (w_heap w2) [] ∧ frame a1 a2 ∧
            a_blknum a2 = a_blknum a1 ∧ Z.of_nat (length e) + 16 ≤ a_bufSize a2 ∧
            w_files w2 = w_files w1) as (a2 & w2 & -> & Hc2 & Hw2 & Hfr2 & Hblk2 & Hsz2 & Hfl2).
  { destruct bigger.
    - apply expandBuffer_ok; try done. destruct He as (_ & _ & ? & ?). lia.
    - exists a1, w1. split_and!; try done. rewrite Hsz1. by apply Hsmall. }
  step. change (negb (S_SUCCESS =? S_SUCCESS)) with false. cbn iota.
  destruct (resetBuffer_ok a2 w2 [] Hc2 Hw2) as (a3 & h3 & -> & Hfresh & Hk3). step.
  pose proof (configured_kept _ _ _ h3 Hc2 Hk3) as Hc3.
  rewrite length_app in Hblk1.
  destruct (write_in_block_fresh a3 (w2 <| w_heap := h3 |>) (a_blknum a2) e)
    as (a4 & h4 & -> & Hfill & Hk4); [done|done|done|lia|lia| |].
  { destruct Hk3 as (_ & _ & -> & _). lia. }
  eexists _, _, (FB ++ BB), [[e]]. split; [done|].
  pose proof (configured_kept _ _ _ h4 Hc3 Hk4) as Hc4. proj. split_and!.
  - split; try done.
    + exact (wt_name _ _ _ _ _ _ Hwt).
    + apply (flushed_frame a1 _ w1); [|done|done].
      eapply frame_trans; [done|]. eapply frame_trans; [apply Hk3|apply Hk4].
    + rewrite length_app, <- Hblk1, <- Hblk2. by apply (buffered_filled _ _ _ [] [e]).
    + apply (fits_stays _ a _ BB); [apply Hwt|done|].
      rewrite (fr_target _ _ (proj1 Hk4)), (fr_target _ _ (proj1 Hk3)), (fr_target _ _ Hfr2).
      apply Hs1.
    + apply Forall_app. split; [exact (wt_blocks _ _ _ _ _ _ Hwt)|]. apply Forall_singleton.
      by eapply filled_block_ok; [exact Hc4|exact Hfill|apply Forall_singleton].
  - eapply stays_trans; [done|]. apply stays_frame. eapply frame_trans; [done|].
    eapply frame_trans; [apply Hk3|apply Hk4].
  - by rewrite (events_app (FB ++ BB)).
  - rewrite (length_app (FB ++ BB)). cbn. lia.
Qed.

(** The three answers of [room_for] to a file writer. *)
Lemma room_for_cases a e BB hdr h num w :
  configured a w → buffered a h num BB → event_ok e →
  room_for a (4 * Z.of_nat (length e)) hdr =
  if a_bufSize a <? Z.of_nat (length e) + 16 then RoomExpand
  else if a_bufSize a <? blocks_words BB + 8 + Z.of_nat (length e) + (if hdr then 8 else 0)
       then RoomFlush else RoomYes.
Proof.
  intros [] Hb (_ & _ & _ & He). pose proof (blocks_words_nonneg BB).
  destruct (buffered_words _ _ _ _ Hb) as (_ & _ & Hbytes).
  assert (blocks_words BB + 8 ≤ a_bufSize a) as Hfit.
  { destruct Hb as [Hb|bs cur Hb]; [change (blocks_words []) with 0; lia|].
    pose proof (fl_room _ _ _ _ _ Hb). lia. }
  unfold room_for. rewrite cf_rw. change (EV_WRITEFILE =? EV_WRITEBUF) with false. cbn iota.
  change (4 * EV_HDSIZ) with 32. rewrite Hbytes.
  rewrite (u32_small (4 * a_bufSize a)), (u32_small (_ + 2 * 32)), (u32_small (_ + 32)),
    (u32_small (_ - _)) by lia.
  destruct hdr; cbn [negb andb orb]; rewrite ?orb_false_r; zcase.
Qed.

Lemma wrote_in_block lim a a' w h FB BB BB' name e r :
  writing lim a w name FB BB → r = Ret (S_SUCCESS, a', w <| w_heap := h |>) → kept a a' →
  buffered a' h (1 + Z.of_nat (length FB)) BB' → BB' ≠ [] → Forall block_ok BB' →
  events BB' = events BB ++ [e] → Z.of_nat (length BB') ≤ Z.of_nat (length BB) + 1 →
  wrote lim a name FB BB e r.
Proof.
  intros Hwt -> Hk Hb Hne Hok He Hl. pose proof Hwt as [Hn Hc Hf _ _ _].
  exists a', (w <| w_heap := h |>), FB, BB'. split_and!; [done| | | |].
  - split; [done|by eapply configured_kept|apply (flushed_frame a _ w); [apply Hk|done|done]
           |exact Hb| |].
    { apply (fits_stays _ a _ BB); [apply Hwt|done|apply Hk]. }
    pose proof (wt_blocks _ _ _ _ _ _ Hwt) as H. apply Forall_app in H as [? _]. by apply Forall_app.
  - apply stays_frame, Hk.
  - by rewrite !events_app, He, app_assoc.
  - rewrite !length_app. lia.
Qed.

(** The three ways an event goes to the buffer as it is. *)
Lemma wrote_to_buffer lim a w name FB BB e hdr :
  writing lim a w name FB BB → event_ok e →
  Z.of_nat (length FB) + Z.of_nat (length BB) + 2 < 2147483648 →
  Z.of_nat (length e) + 16 ≤ a_bufSize a →
  blocks_words BB + 8 + Z.of_nat (length e) + (if hdr : bool then 8 else 0) ≤ a_bufSize a →
  (BB = [] → hdr = false) →
  wrote lim a name FB BB e (write_in_block a w e (Z.of_nat (length e)) hdr).
Proof.
  intros Hwt He Hbig Hx Hy Hfr. pose proof Hwt as [_ Hc _ Hb _ Hok].
  apply Forall_app in Hok as [_ Hok]. pose proof (cf_size _ _ Hc) as Hsz.
  destruct Hb as [Hb|bs cur Hb].
  - rewrite (Hfr eq_refl).
    destruct (write_in_block_fresh a w _ e Hc Hb He) as (a' & h' & Hr & Hfill & Hk); [lia..|].
    apply (wrote_in_block lim _ a' w h' _ _ ([] ++ [[e]]) _ _ _ Hwt Hr Hk); try done.
    + by constructor.
    + pose proof (configured_kept _ _ _ h' Hc Hk) as Hc'.
      apply Forall_singleton.
        by eapply filled_block_ok; [exact Hc'|exact Hfill|apply Forall_singleton].
  - rewrite blocks_words_snoc in Hy. pose proof (fl_bytes _ _ _ _ _ Hb) as Hbytes.
    rewrite length_app in Hbig. cbn [length] in Hbig.
    apply Forall_app in Hok as [Hok Hcur]. pose proof (Forall_inv Hcur) as Hcur'.
    destruct hdr.
    + destruct (write_in_block_new a w _ bs cur e Hc Hb He) as (a' & h' & Hr & Hfill & Hk); [lia..|].
      pose proof (configured_kept _ _ _ h' Hc Hk) as Hc'.
      apply (wrote_in_block lim _ a' w h' _ _ ((bs ++ [cur]) ++ [[e]]) _ _ _ Hwt Hr Hk).
      * by constructor.
      * by destruct bs.
      * apply Forall_app. split; [apply Forall_app; split; [exact Hok|exact Hcur]|].
        apply Forall_singleton.
        by eapply filled_block_ok; [exact Hc'|exact Hfill|apply Forall_singleton].
      * by rewrite (events_app (bs ++ [cur])).
      * rewrite (length_app (bs ++ [cur])). cbn. lia.
    + destruct (write_in_block_same a w _ bs cur e Hc Hb He) as (a' & h' & Hr & Hfill & Hk); [lia..|].
      pose proof (configured_kept _ _ _ h' Hc Hk) as Hc'.
      apply (wrote_in_block lim _ a' w h' _ _ (bs ++ [cur ++ [e]]) _ _ _ Hwt Hr Hk).
      * by constructor.
      * by destruct bs.
      * apply Forall_app. split; [done|]. apply Forall_singleton.
        eapply filled_block_ok; [exact Hc'|exact Hfill|]. apply Forall_app. split; [apply Hcur'|].
        by apply Forall_singleton.
      * rewrite !events_app. unfold events. cbn. by rewrite !app_nil_r, app_assoc.
      * rewrite !length_app. cbn. lia.
Qed.

(** [write_event] succeeds and adds its event after all those written before, whether it
    goes to the current block, to another block, or to an emptied and possibly bigger
    buffer. *)
Lemma write_event_ok lim a w name FB BB e :
  writing lim a w name FB BB → event_ok e → within lim e →
  Z.of_nat (length FB) + Z.of_nat (length BB) + 2 < 2147483648 →
  wrote lim a name FB BB e (write_event a w e).
Proof.
  intros Hwt He Hlim Hbig. pose proof Hwt as [Hn Hc Hf Hb Hfr Hok].
  destruct He as (Hhead & Hu & Hle & Hlt). assert (event_ok e) as He by done.
  unfold write_event, first_word. rewrite Hhead. step. cbn zeta. change (2 * EV_HDSIZ) with 16.
  replace (u32 (Z.of_nat (length e) - 1 + 1)) with (Z.of_nat (length e)) by (rewrite u32_small; lia).
  rewrite !(u32_small (4 * _)) by lia.
  unfold splits_file. rewrite (cf_splitting _ _ Hc). cbn [negb]. step. cbn [andb].
  set (hdr := needs_new_header a (Z.of_nat (length e))).
  rewrite (room_for_cases a e BB hdr _ _ w Hc Hb He).
  destruct (Z.ltb_spec (a_bufSize a) (Z.of_nat (length e) + 16)) as [Hx|Hx].
  { exact (wrote_after_flush lim a w name FB BB e true Hwt He Hbig ltac:(done)). }
  destruct (Z.ltb_spec (a_bufSize a)
    (blocks_words BB + 8 + Z.of_nat (length e) + (if hdr then 8 else 0))) as [Hy|Hy].
  { exact (wrote_after_flush lim a w name FB BB e false Hwt He Hbig ltac:(done)). }
  cbn [andb orb]. step. change (negb (S_SUCCESS =? S_SUCCESS)) with false. cbn iota. step.
  change (0 =? S_FAILURE) with false. cbn iota. change (negb (0 =? 0)) with false. cbn [andb].
  change (negb (S_SUCCESS =? S_SUCCESS)) with false. cbn iota. step. cbn iota.
  apply wrote_to_buffer; try done. intros ->. inversion Hb as [Hfs|bs cur _ Heq]; [|by destruct bs].
  unfold hdr, needs_new_header. pose proof (cf_evMax _ _ Hc). pose proof (cf_size _ _ Hc).
  rewrite (fs_blksiz _ _ _ Hfs), (fs_count _ _ _ Hfs), u32_small by lia.
  assert (Z.of_nat (length e) + 8 ≤ a_blkSizeTarget a) by
    (destruct lim; cbn in Hfr, Hlim; [|specialize (Hfr eq_refl)]; lia).
  replace (_ <=? _) with true by zcase. by replace (_ <? _) with true by zcase.
Qed.
