(* ===== verification/EvioReader.v ===== *)
(** * The reader takes the events of a file in order

    [reading] states where a reader of a file is: the events left in its buffer and the
    blocks left in the file.  [evGetNewBuffer] moves a block from the one to the other,
    in a bigger buffer if it must; the read functions take one event. *)

From S2P Require Import Prelude Words CString Memory EvioFmt EvioSwapArrays EvioFmtSwap.
From S2P Require Import EvioSwap EvioTypes EvioNames EvioState EvioWrite EvioRead EvioOpen.
From S2P Require Import EvioHandles EvioBlocks EvioWriter.

(** ** Whole words from a stream *)

Lemma fread_words w f name pre ws post :
  f_name f = name → w_files w !! name = Some (bytes_of (pre ++ ws ++ post)) →
  f_pos f = 4 * Z.of_nat (length pre) →
  fread w f (4 * Z.of_nat (length ws)) =
  (bytes_of ws, f <| f_pos := 4 * Z.of_nat (length (pre ++ ws)) |>).
Proof.
  intros Hn Hf Hp. unfold fread. rewrite Hn, Hf. cbn [default]. unfold id.
  assert (take (Z.to_nat (4 * Z.of_nat (length ws)))
            (drop (Z.to_nat (f_pos f)) (bytes_of (pre ++ ws ++ post))) = bytes_of ws) as ->.
  { replace (Z.to_nat (f_pos f)) with (4 * length pre)%nat by lia.
    replace (Z.to_nat _) with (4 * length ws)%nat by lia.
    by rewrite drop_bytes_of, drop_app_length, take_bytes_of, take_app_length. }
  rewrite length_bytes_of. replace (_ <? _) with false by zcase. f_equal.
  unfold update. cbn. rewrite orb_false_r, length_app. f_equal. lia.
Qed.

(** The bytes of whole words replace the words they are read over. *)
Lemma hwrite_bytes_words h o pre old post ws :
  h !! o = Some (pre ++ old ++ post) → length old = length ws → Forall u32_ok ws →
  hwrite_bytes h (Ptr o (Z.of_nat (length pre))) (bytes_of ws) =
  Ret (<[o := pre ++ ws ++ post]> h).
Proof.
  intros Ho Hl Hw. unfold hwrite_bytes. rewrite length_bytes_of.
  replace ((Z.of_nat (4 * length ws) + 3) / 4) with (Z.of_nat (length old)).
  - rewrite (hread_app _ _ _ _ _ Ho). step.
    rewrite drop_ge by (rewrite length_bytes_of; lia). rewrite app_nil_r, words_of_bytes_of by done.
    by rewrite (hwrite_app _ _ _ _ _ _ Ho).
  - apply Z.div_unique with 3; lia.
Qed.

Lemma fread_heap_words w f name pre ws post o hpre old hpost :
  f_name f = name → w_files w !! name = Some (bytes_of (pre ++ ws ++ post)) →
  f_pos f = 4 * Z.of_nat (length pre) → Forall u32_ok ws →
  w_heap w !! o = Some (hpre ++ old ++ hpost) → length old = length ws →
  fread_heap w (Ptr o (Z.of_nat (length hpre))) (4 * Z.of_nat (length ws)) f =
  Ret (4 * Z.of_nat (length ws), f <| f_pos := 4 * Z.of_nat (length (pre ++ ws)) |>,
       w <| w_heap := <[o := hpre ++ ws ++ hpost]> (w_heap w) |>).
Proof.
  intros Hn Hf Hp Hw Ho Hl. unfold fread_heap.
  rewrite (fread_words w f name pre ws post Hn Hf Hp).
  rewrite (hwrite_bytes_words _ _ _ _ _ _ Ho Hl Hw). step. rewrite length_bytes_of. do 3 f_equal. lia.
Qed.

(** ** The state of a reader *)

(** What reading changes nothing of. *)
Record reader (a : EVFILE) (w : world) : Prop := Reader {
  rd_rw : a_rw a = EV_READFILE;
  rd_version : a_version a = 4;
  rd_swapped : a_byte_swapped a = false;
  rd_random : a_randomAccess a = false;
  rd_off : p_off (a_buf a) = 0;
  rd_obj : 0 < p_obj (a_buf a) < w_brk w;
  rd_mem : w_mem w = []
}.

(** In the buffer the events [evs] are left, in the file the blocks [bs], the first of
    which has the number [num], and the last header. *)
Record reading (a : EVFILE) (w : world) (name : list Z) (evs : list (list Z)) (num : Z)
    (bs : list block) : Prop := Reading {
  rg_reader : reader a w;
  rg_last : a_isLastBlock a = false;
  rg_file : ∃ f pre, a_file a = Some f ∧ f_name f = name ∧ f_eof f = false ∧
    f_pos f = 4 * Z.of_nat (length pre) ∧
    w_files w !! name =
      Some (bytes_of (pre ++ enc_blocks num bs ++ last_header (num + Z.of_nat (length bs))));
  rg_buf : ∃ pre post, w_heap w !! p_obj (a_buf a) = Some (pre ++ concat evs ++ post) ∧
    Z.of_nat (length (pre ++ concat evs ++ post)) = a_bufSize a ∧
    a_next a = Ptr (p_obj (a_buf a)) (Z.of_nat (length pre));
  rg_left : a_left a = Z.of_nat (length (concat evs));
  rg_size : 8 ≤ a_bufSize a < 1073741824;
  rg_events : Forall event_ok evs;
  rg_blocks : Forall block_ok bs;
  rg_num : 0 ≤ num ∧ num + Z.of_nat (length bs) < 4294967296
}.

(** At the end, the last header has been read. *)
Record finished (a : EVFILE) (w : world) : Prop := Finished {
  fn_reader : reader a w;
  fn_last : a_isLastBlock a = true;
  fn_left : a_left a = 0
}.

(** ** The next block *)

(** A buffer that is too small is replaced; the header it holds is copied. *)
Lemma grow_ok a w (H post : list Z) :
  reader a w → w_heap w !! p_obj (a_buf a) = Some (H ++ post) → length H = 8%nat →
  Z.of_nat (length (H ++ post)) = a_bufSize a → a_bufSize a < 1073741824 →
  8 ≤ a_blksiz a < 1073741824 →
  ∃ a1 w1 post1,
    bigger_buffer a w 8 = Ret (true, a1, w1) ∧
    w_heap w1 !! p_obj (a_buf a1) = Some (H ++ post1) ∧
    Z.of_nat (length (H ++ post1)) = a_bufSize a1 ∧ a_blksiz a ≤ a_bufSize a1 < 1073741824 ∧
    reader a1 w1 ∧ a1 = a <| a_bufSize := a_bufSize a1 |> <| a_buf := a_buf a1 |> ∧
    w_files w1 = w_files w.
Proof.
  intros [] Ho HH Hl Hs Hb. unfold bigger_buffer. destruct (Z.ltb_spec (a_bufSize a) (a_blksiz a)) as [Hx|Hx].
  2: { exists a, w, post. split_and!; try done. by destruct a. }
  rewrite u32_small, Z.mul_comm, Z.div_mul by lia. unfold halloc. rewrite rd_mem0. cbn [malloc_ok negb].
  unfold is_null. proj. replace (w_brk w =? 0) with false by zcase.
  change (u32 (4 * 8) / 4) with (Z.of_nat 8). rewrite <- HH.
  rewrite (hread_start _ _ H post); [|by rewrite lookup_insert_ne by lia|done]. step.
  set (n := Z.to_nat (a_blksiz a)).
  assert (8 ≤ n)%nat as Hn by lia.
  rewrite (hwrite_start _ (Ptr (w_brk w) 0) (replicate 8 0) (replicate (n - 8) 0)); proj;
    [|rewrite lookup_insert_eq, <- replicate_add; by replace (8 + (n - 8))%nat with n by lia
     |done|by rewrite HH]. step.
  eexists _, _, (replicate (n - 8) 0). split; [done|]. unfold hfree. proj.
  split_and!; try done; try lia.
  - by rewrite lookup_delete_ne, lookup_insert_eq by lia.
  - rewrite length_app, length_replicate. lia.
  - split; proj; try done; lia.
Qed.

(** Words of the file read into the buffer. *)
Lemma read_part_ok a w f name pre ws rest hpre old hpost pipe prev :
  a_rw a = EV_READFILE → p_off (a_buf a) = 0 → a_file a = Some f → f_name f = name →
  f_eof f = false → f_err f = false → f_pos f = 4 * Z.of_nat (length pre) →
  w_files w !! name = Some (bytes_of (pre ++ ws ++ rest)) → Forall u32_ok ws →
  w_heap w !! p_obj (a_buf a) = Some (hpre ++ old ++ hpost) → length old = length ws →
  read_block_part a w (Z.of_nat (length hpre)) (4 * Z.of_nat (length ws)) pipe prev =
  Ret (None, 4 * Z.of_nat (length ws),
       a <| a_file := Some (f <| f_pos := 4 * Z.of_nat (length (pre ++ ws)) |>) |>,
       w <| w_heap := <[p_obj (a_buf a) := hpre ++ ws ++ hpost]> (w_heap w) |>).
Proof.
  intros Hrw Hoff Hf Hn He Herr Hp Hfile Hu Ho Hl. unfold read_block_part, padd.
  rewrite Hrw, Hf, Hoff, Z.add_0_l. change (EV_READFILE =? EV_READFILE) with true. cbn iota. step.
  rewrite (fread_heap_words _ _ _ _ _ _ _ _ _ _ Hn Hfile Hp Hu Ho Hl). step. proj. by rewrite He, Herr.
Qed.

Lemma read_block_header_ok a w f name pre (H rest old post : list Z) :
  reader a w → a_file a = Some f → f_name f = name → f_eof f = false →
  f_pos f = 4 * Z.of_nat (length pre) →
  w_files w !! name = Some (bytes_of (pre ++ H ++ rest)) → Forall u32_ok H → length H = 8%nat →
  w_heap w !! p_obj (a_buf a) = Some (old ++ post) → length old = 8%nat →
  read_block_header a w =
  Ret (None, 32, a <| a_file := Some (clearerr f <| f_pos := 4 * Z.of_nat (length (pre ++ H)) |>) |>,
       w <| w_heap := <[p_obj (a_buf a) := H ++ post]> (w_heap w) |>).
Proof.
  intros [] Hf Hn He Hp Hfile Hu HH Ho Hold. unfold read_block_header.
  rewrite rd_rw0, Hf. cbn [fmap option_fmap option_map]. rewrite He.
  change (EV_READFILE =? EV_READFILE) with true. rewrite bool_decide_eq_false_2 by done.
  cbn [andb]. cbn iota. cbn zeta. change (4 * EV_HDSIZ) with 32.
  change 0 with (Z.of_nat (length (@nil Z))) at 1.
  replace 32 with (4 * Z.of_nat (length H)) at 1 by (rewrite HH; done).
  rewrite (read_part_ok _ w (clearerr f) name pre H rest [] old post); proj; try done;
    [|by rewrite Hf|by rewrite Hold]. step.
  rewrite HH. change (4 * Z.of_nat 8) with 32. rewrite Z.eqb_refl. cbn [negb]. cbn iota.
  proj. rewrite rd_swapped0. step. by destruct w, a.
Qed.

(** The words after the header, in the same or a bigger buffer. *)
Lemma read_block_rest_ok a w f name pre (H body rest post : list Z) nBytes :
  reader a w → a_file a = Some f → f_name f = name → f_eof f = false → f_err f = false →
  f_pos f = 4 * Z.of_nat (length pre) →
  w_files w !! name = Some (bytes_of (pre ++ body ++ rest)) → Forall u32_ok body →
  w_heap w !! p_obj (a_buf a) = Some (H ++ post) → length H = 8%nat →
  Z.of_nat (length (H ++ post)) = a_bufSize a → a_bufSize a < 1073741824 →
  head H = Some (8 + Z.of_nat (length body)) → 8 + Z.of_nat (length body) < 1073741824 →
  ∃ a' w' post', read_block_rest a w 8 nBytes = Ret (None, a', w') ∧
    a' = a <| a_blksiz := 8 + Z.of_nat (length body) |> <| a_bufSize := a_bufSize a' |>
           <| a_buf := a_buf a' |>
           <| a_file := Some (f <| f_pos := 4 * Z.of_nat (length (pre ++ body)) |>) |> ∧
    reader a' w' ∧ w_files w' = w_files w ∧
    w_heap w' !! p_obj (a_buf a') = Some (H ++ body ++ post') ∧
    Z.of_nat (length (H ++ body ++ post')) = a_bufSize a' ∧ 8 ≤ a_bufSize a' < 1073741824.
Proof.
  intros Hrd Hf Hn He Herr Hp Hfile Hu Ho HH Hl Hs Hlen Hmax. unfold read_block_rest.
  pose proof Hrd as [].
  assert (hget (w_heap w) (a_buf a) EV_HD_BLKSIZ = Ret (8 + Z.of_nat (length body))) as ->.
  { replace (a_buf a) with (Ptr (p_obj (a_buf a)) (Z.of_nat (length (@nil Z)))).
    - apply (hget_app _ _ [] H post 0); [done|]. by destruct H.
    - destruct (a_buf a). cbn in *. by rewrite rd_off0. }
  step. set (a0 := a <| a_blksiz := _ |>).
  destruct (grow_ok a0 w H post) as (a1 & w1 & post1 & -> & Ho1 & Hl1 & Hs1 & Hrd1 & Ha1 & Hw1);
    unfold a0 in *; proj; try done; try lia.
  step. cbn [negb]. cbn iota. cbn [update a_blksiz] in Hs1.
  assert (a_blksiz a1 = 8 + Z.of_nat (length body)) as -> by (by rewrite Ha1).
  replace (8 + Z.of_nat (length body) - 8) with (Z.of_nat (length body)) by lia.
  rewrite u32_small by lia.
  assert (a_file a1 = Some f) as Hf1 by (by rewrite Ha1).
  rewrite <- (take_drop (length body) post1) in Ho1.
  assert (length body <= length post1)%nat as Hge by (rewrite length_app in Hl1; lia).
  pose proof (read_part_ok a1 w1 f name pre body rest H (take (length body) post1)
    (drop (length body) post1) false nBytes) as Hpart.
  rewrite HH in Hpart. change (Z.of_nat 8) with 8 in Hpart.
  rewrite Hpart; try done; [|apply Hrd1|apply Hrd1|by rewrite Hw1|by rewrite length_take, Nat.min_l].
  step.
  rewrite Z.eqb_refl. cbn [negb]. cbn iota.
  eexists _, _, (drop (length body) post1). split; [done|]. proj. split_and!.
  - rewrite Ha1. done.
  - destruct Hrd1. split; proj; done.
  - done.
  - by rewrite lookup_insert_eq.
  - rewrite <- Hl1, !length_app, length_drop. lia.
  - lia.
  - lia.
Qed.

(** What is noted of a block whose header is in the buffer. *)
Lemma start_block_ok a w len num count ver post n :
  reader a w → a_isLastBlock a = false →
  w_heap w !! p_obj (a_buf a) = Some (hdr len num count ver ++ post) →
  a_blksiz a = 8 + n → 0 ≤ n < 1073741824 →
  ∃ a', start_block a w 8 =
          Ret (if n <? 1 then (if isLastBlockInt ver then EOF else S_EVFILE_UNXPTDEOF)
               else S_SUCCESS, a', w) ∧
    a' = a <| a_blknum := a_blknum a' |> <| a_blkNumDiff := a_blkNumDiff a' |>
           <| a_isLastBlock := isLastBlockInt ver |> <| a_next := Ptr (p_obj (a_buf a)) 8 |>
           <| a_left := n |>.
Proof.
  intros [] Hlast Ho Hb Hn. unfold start_block.
  assert (a_buf a = Ptr (p_obj (a_buf a)) (Z.of_nat (length (@nil Z)))) as Hbuf
    by (destruct (a_buf a); cbn in *; by rewrite rd_off0).
  assert (hget (w_heap w) (a_buf a) EV_HD_BLKNUM = Ret num) as Hnum
    by (rewrite Hbuf; by apply (hget_app _ _ [] (hdr len num count ver) post 1)).
  assert (isLastBlock (w_heap w) (a_buf a) = Ret (isLastBlockInt ver)) as Hl
    by (rewrite Hbuf; by apply (isLastBlock_hdr _ _ [] len num count ver post)).
  set (a1 := a <| a_blknum ::= _ |>). change (a_buf a1) with (a_buf a). rewrite Hnum. step.
  set (a2 := if negb (num =? _) then _ else a1).
  assert (a2 = a <| a_blknum := a_blknum a1 |> <| a_blkNumDiff := a_blkNumDiff a2 |>) as E2
    by (unfold a2, a1; case_match; by destruct a).
  clearbody a2. rewrite E2. proj. rewrite Hl. step. rewrite rd_version0.
  change (3 <? 4) with true. cbn [andb].
  assert (∀ v, (if isLastBlockInt ver then a <| a_blknum := a_blknum a1 |> <| a_blkNumDiff := v |>
                     <| a_isLastBlock := true |>
                else a <| a_blknum := a_blknum a1 |> <| a_blkNumDiff := v |>) =
               a <| a_blknum := a_blknum a1 |> <| a_blkNumDiff := v |>
                 <| a_isLastBlock := isLastBlockInt ver |>) as E3
    by (intros v; destruct (isLastBlockInt ver); [done|]; unfold update;
        cbn; by rewrite Hlast).
  rewrite !E3. proj. rewrite rd_version0. change (4 <? 4) with false. cbn iota. step. proj.
  rewrite Hb, u32_small by lia. replace (8 + n - 8) with n by lia.
  unfold padd. rewrite rd_off0.
  destruct (n <? 1); eexists; (split; [reflexivity|]); by destruct a.
Qed.

(** A whole block read from a stream. *)
Lemma evGetNewBuffer_ok a w name f pre body rest l num count ver :
  reader a w → a_isLastBlock a = false → a_file a = Some f → f_name f = name → f_eof f = false →
  f_pos f = 4 * Z.of_nat (length pre) →
  let H := hdr (8 + Z.of_nat (length body)) num count ver in
  w_files w !! name = Some (bytes_of (pre ++ H ++ body ++ rest)) →
  w_heap w !! p_obj (a_buf a) = Some l → Z.of_nat (length l) = a_bufSize a →
  8 ≤ a_bufSize a < 1073741824 → 8 + Z.of_nat (length body) < 1073741824 →
  Forall u32_ok H → Forall u32_ok body →
  ∃ a' w' f' post,
    evGetNewBuffer a w =
      Ret (if Z.of_nat (length body) <? 1
           then (if isLastBlockInt ver then EOF else S_EVFILE_UNXPTDEOF) else S_SUCCESS, a', w') ∧
    reader a' w' ∧ a_isLastBlock a' = isLastBlockInt ver ∧ a_file a' = Some f' ∧
    f_name f' = name ∧ f_eof f' = false ∧
    f_pos f' = 4 * Z.of_nat (length (pre ++ H ++ body)) ∧ w_files w' = w_files w ∧
    w_heap w' !! p_obj (a_buf a') = Some (H ++ body ++ post) ∧
    Z.of_nat (length (H ++ body ++ post)) = a_bufSize a' ∧ 8 ≤ a_bufSize a' < 1073741824 ∧
    a_next a' = Ptr (p_obj (a_buf a')) 8 ∧ a_left a' = Z.of_nat (length body) ∧
    a_lock a' = a_lock a.
Proof.
  intros Hrd Hlast Hf Hfn Hfe Hfp H Hfile Hl Hll Hsz Hmax Hu1 Hu2.
  assert (length H = 8%nat) as H8 by done. pose proof (rd_version _ _ Hrd) as Hver.
  unfold evGetNewBuffer. rewrite Hver, Hlast. change (3 <? 4) with true. cbn [andb]. cbn iota.
  rewrite <- (take_drop 8 l) in Hl.
  rewrite (read_block_header_ok a w f name pre H (body ++ rest) (take 8 l) (drop 8 l)); try done;
    [|rewrite length_take; lia]. step. proj.
  set (a1 := a <| a_file := _ |>). set (w1 := w <| w_heap := _ |>).
  assert (w_heap w1 !! p_obj (a_buf a1) = Some (H ++ drop 8 l)) as Hl1
    by (unfold w1, a1; proj; by rewrite lookup_insert_eq).
  assert (a_buf a1 = Ptr (p_obj (a_buf a1)) 0) as Hb1.
  { pose proof (rd_off _ _ Hrd) as Hoff. unfold a1. proj. destruct (a_buf a). cbn in *. by rewrite Hoff. }
  assert (hget (w_heap w1) (a_buf a1) EV_HD_HDSIZ = Ret 8) as Hhs.
  { rewrite Hb1. by apply (hget_app _ _ [] H (drop 8 l) 2). }
  change (hget (<[p_obj (a_buf a):=H ++ drop 8 l]> (w_heap w)) (a_buf a) EV_HD_HDSIZ)
    with (hget (w_heap w1) (a_buf a1) EV_HD_HDSIZ). rewrite Hhs. step.
  unfold read_extra_header. change (EV_HDSIZ <? 8) with false. cbn iota. step.
  destruct (read_block_rest_ok a1 w1 (clearerr f <| f_pos := 4 * Z.of_nat (length (pre ++ H)) |>) name
              (pre ++ H) H body rest (drop 8 l) 32)
    as (a2 & w2 & post & -> & Ha2 & Hrd2 & Hw2 & Ho2 & Hl2 & Hs2); try done.
  { by destruct Hrd. }
  { unfold w1. proj. by rewrite <- app_assoc. }
  { unfold a1. proj. rewrite <- Hll, length_app, H8, length_drop. lia. }
  { unfold a1. proj. lia. }
  step. destruct (start_block_ok a2 w2 (8 + Z.of_nat (length body)) num count ver (body ++ post)
                    (Z.of_nat (length body))) as (a3 & -> & Ha3); try done; try lia;
    [by rewrite Ha2|by rewrite Ha2|].
  eexists _, w2, (clearerr f <| f_pos := 4 * Z.of_nat (length (pre ++ H)) |>
                    <| f_pos := 4 * Z.of_nat (length ((pre ++ H) ++ body)) |>), post.
  split; [reflexivity|]. rewrite <- (app_assoc pre). split_and!; try (rewrite Ha3, Ha2; done); try done.
  - destruct Hrd2. rewrite Ha3. by split.
  - rewrite Ha3, Ha2, <- (app_assoc pre). done.
  - rewrite Ha3. proj. lia.
  - rewrite Ha3. proj. lia.
Qed.

(** ** One event *)

Lemma enc_blocks_cons num b bs :
  enc_blocks num (b :: bs) = hdr (block_words b) num (Z.of_nat (length b)) EV_VERSION ++
                             concat b ++ enc_blocks (num + 1) bs.
Proof. cbn [enc_blocks]. unfold enc_block. by rewrite <- app_assoc. Qed.

Lemma concat_events_pos (b : list (list Z)) :
  b ≠ [] → Forall event_ok b → (1 <= length (concat b))%nat.
Proof.
  intros Hne Hb. destruct b as [|e b]; [done|]. inversion Hb as [|? ? (_ & _ & He & _)]; subst.
  cbn. rewrite length_app. lia.
Qed.

(** The next block comes to the buffer. *)
Lemma next_block_more a w name num b bs :
  reading a w name [] num (b :: bs) →
  ∃ a' w', evGetNewBuffer a w = Ret (S_SUCCESS, a', w') ∧ reading a' w' name b (num + 1) bs ∧
    a_lock a' = a_lock a.
Proof.
  intros [Hrd Hlast (f & pre & Hf & Hn & He & Hp & Hfile) (pre' & post & Ho & Hlen & _) _ Hsz _ Hbs [Hn0 Hn1]].
  apply Forall_cons_1 in Hbs as [Hb Hbs]. pose proof Hb as (Hne & Hev & Hbw).
  cbn [length] in Hn1, Hfile. rewrite enc_blocks_cons, <- !app_assoc in Hfile.
  pose proof (events_short b Hev) as Hshort. pose proof (block_words_ge b) as Hge.
  destruct (evGetNewBuffer_ok a w name f pre (concat b)
    (enc_blocks (num + 1) bs ++ last_header (num + Z.of_nat (S (length bs)))) _ num
    (Z.of_nat (length b)) EV_VERSION Hrd Hlast Hf Hn He Hp Hfile Ho Hlen Hsz Hbw)
    as (a' & w' & f' & post' & Hr & Hrd' & Hl' & Hf' & Hn' & He' & Hp' & Hw' & Ho' & Hlen' & Hsz' & Hnx & Hlf & Hlk).
  { unfold block_words in Hshort, Hbw. apply u32_ok_hdr; unfold u32_ok; try lia. done. }
  { by apply u32_ok_events. }
  pose proof (concat_events_pos b Hne Hev) as Hpos. rewrite Hr.
  replace (_ <? 1) with false by zcase. exists a', w'. split_and!; try done. split; try done.
  - exists f', (pre ++ hdr (8 + Z.of_nat (length (concat b))) num (Z.of_nat (length b)) EV_VERSION ++ concat b).
    split_and!; try done. rewrite Hw', Hfile, <- !app_assoc. unfold block_words.
    do 7 f_equal. lia.
  - eexists _, post'. split_and!; [exact Ho'|exact Hlen'|exact Hnx].
  - lia.
Qed.

(** There is no next block. *)
Lemma next_block_end a w name num :
  reading a w name [] num [] →
  ∃ a' w', evGetNewBuffer a w = Ret (EOF, a', w') ∧ finished a' w' ∧ a_lock a' = a_lock a.
Proof.
  intros [Hrd Hlast (f & pre & Hf & Hn & He & Hp & Hfile) (pre' & post & Ho & Hlen & _) _ Hsz _ _ [Hn0 Hn1]].
  cbn [length enc_blocks app] in *. rewrite Z.add_0_r in *.
  destruct (evGetNewBuffer_ok a w name f pre [] [] _ num 0 last_ver Hrd Hlast Hf Hn He Hp Hfile Ho Hlen Hsz)
    as (a' & w' & f' & post' & Hr & Hrd' & Hl' & _ & _ & _ & _ & _ & _ & _ & _ & _ & Hlf & Hlk).
  { done. }
  { apply u32_ok_hdr; unfold u32_ok; try done. }
  { constructor. }
  exists a', w'. by split_and!.
Qed.

(** What is left of the file is [evs]. *)
Definition pending (a : EVFILE) (w : world) (name : list Z) (evs : list (list Z)) : Prop :=
  (∃ now num bs, reading a w name now num bs ∧ evs = now ++ events bs) ∨
  (finished a w ∧ evs = []).

(** Before an event is taken there is a block with it in the buffer. *)
Lemma next_block_ok a w name e evs :
  pending a w name (e :: evs) →
  ∃ a' w' now num bs, next_block a w = Ret (S_SUCCESS, a', w') ∧
    reading a' w' name (e :: now) num bs ∧ evs = now ++ events bs ∧ a_lock a' = a_lock a.
Proof.
  unfold next_block. intros [(now & num & bs & Hr & He)|[_ He]]; [|done].
  rewrite (rg_left _ _ _ _ _ _ Hr). destruct now as [|e' now].
  - change (Z.of_nat (length (concat [])) <? 1) with true. cbn iota.
    destruct bs as [|b bs]; [done|].
    pose proof (Forall_inv (rg_blocks _ _ _ _ _ _ Hr)) as (Hne & _).
    destruct b as [|e' b]; [done|]. cbn in He. injection He as <- ->.
    destruct (next_block_more a w name num (e :: b) bs Hr) as (a' & w' & Hg & Hr' & Hl).
    exists a', w', b, (num + 1), bs. by split_and!.
  - cbn in He. injection He as <- ->.
    pose proof (concat_events_pos (e :: now) ltac:(done) (rg_events _ _ _ _ _ _ Hr)).
    replace (_ <? 1) with false by zcase. by exists a, w, now, num, bs.
Qed.

Lemma next_block_eof a w name :
  pending a w name [] →
  ∃ a' w', next_block a w = Ret (EOF, a', w') ∧ pending a' w' name [] ∧ a_lock a' = a_lock a.
Proof.
  unfold next_block. intros [(now & num & bs & Hr & He)|[Hf _]].
  - rewrite (rg_left _ _ _ _ _ _ Hr). destruct now as [|]; [|done].
    destruct bs as [|b bs].
    + destruct (next_block_end a w name num Hr) as (a' & w' & Hg & Hr' & Hl).
      exists a', w'. split_and!; try done. by right.
    + pose proof (Forall_inv (rg_blocks _ _ _ _ _ _ Hr)) as (Hne & _). by destruct b.
  - destruct Hf as [Hrd Hlast Hleft]. exists a, w. rewrite Hleft. change (0 <? 1) with true. cbn iota.
    unfold evGetNewBuffer. rewrite (rd_version _ _ Hrd), Hlast. change (3 <? 4) with true. cbn [andb].
    split_and!; try done. by right.
Qed.

Lemma next_event_len_ok a w name e now num bs :
  reading a w name (e :: now) num bs → next_event_len a (w_heap w) = Ret (Z.of_nat (length e)).
Proof.
  intros [Hrd _ _ (pre & post & Ho & _ & Hn) _ _ Hev _ _]. unfold next_event_len.
  pose proof (Forall_inv Hev) as (Hh & _ & Hl & Hmax). cbn [concat] in Ho.
  rewrite <- app_assoc in Ho. rewrite Hn. change 0 with (Z.of_nat 0).
  rewrite (hget_app _ _ pre e _ 0 (Z.of_nat (length e) - 1) Ho) by (by destruct e). step.
  rewrite (rd_swapped _ _ Hrd), u32_small by lia. f_equal. lia.
Qed.

(** An event that is in the buffer is copied and the position moves behind it. *)
Definition behind (a : EVFILE) (e : list Z) : EVFILE :=
  a <| a_next ::= λ p, padd p (Z.of_nat (length e)) |>
    <| a_left ::= λ x, u32 (x - Z.of_nat (length e)) |>.

Lemma behind_ok a w name e now num bs :
  reading a w name (e :: now) num bs →
  hread (w_heap w) (a_next a) (Z.of_nat (length e)) = Ret e ∧
  reading (behind a e) w name now num bs.
Proof.
  intros Hr. pose proof Hr as [Hrd Hlast Hfile (pre & post & Ho & Hlen & Hn) Hleft Hsz Hev Hbs Hnum].
  cbn [concat] in Ho, Hlen, Hleft. rewrite <- app_assoc in Ho, Hlen. rewrite length_app in Hleft.
  split.
  - rewrite Hn. by eapply hread_app.
  - split; try done.
    + by destruct Hrd.
    + exists (pre ++ e), post. unfold behind. proj. rewrite <- app_assoc.
      split_and!; try done. rewrite Hn. unfold padd. cbn. by rewrite length_app, Nat2Z.inj_add.
    + unfold behind. proj. rewrite !length_app in Hlen. rewrite Hleft, u32_small by lia. lia.
    + by apply Forall_inv_tail in Hev.
Qed.

Lemma copy_event_ok fuel cap a w name e now num bs :
  reading a w name (e :: now) num bs → Z.of_nat (length e) ≤ cap →
  copy_event (S (S fuel)) cap a w (Z.of_nat (length e)) [] = Ret (S_SUCCESS, e, behind a e, w).
Proof.
  intros Hr Hcap. pose proof (behind_ok a w name e now num bs Hr) as [Hread _].
  pose proof (Forall_inv (rg_events _ _ _ _ _ _ Hr)) as (_ & _ & Hl & Hmax).
  pose proof (rg_left _ _ _ _ _ _ Hr) as Hleft. cbn [concat] in Hleft. rewrite length_app in Hleft.
  cbn [copy_event]. replace (0 <? Z.of_nat (length e)) with true by zcase.
  unfold next_block. replace (a_left a <? 1) with false by zcase. step.
  change (negb (S_SUCCESS =? S_SUCCESS)) with false. cbn iota.
  replace (Z.of_nat (length e) <=? a_left a) with true by zcase. rewrite Hread. step.
  cbn [length]. replace (cap <? _) with false by zcase. rewrite Z.sub_diag. done.
Qed.

(** ** The read functions *)

(** The handle [h] reads the file [name], of which [evs] are left; nobody uses it. *)
Definition reads_file (L : lib) (w : world) (h : Z) (name : list Z) (evs : list (list Z)) : Prop :=
  wf_lib L ∧ ∃ a, slot L h (Some a) (RW 0 false) ∧ a_lock a = false ∧ pending a w name evs.

Lemma pending_reader a w name evs : pending a w name evs → reader a w.
Proof. intros [(now & num & bs & Hr & _)|[Hf _]]; [apply Hr|apply Hf]. Qed.

Lemma pending_lock a w name evs b :
  pending a w name evs → pending (a <| a_lock := b |>) w name evs.
Proof.
  intros [(now & num & bs & [[] ? ? ? ? ? ? ? ?] & He)|[[[]] He]]; [left|right].
  - exists now, num, bs. split; [|done]. split; try done.
  - split; [|done]. split; try done.
Qed.

Lemma reader_reads a w : reader a w → reads a = true ∧ a_randomAccess a = false.
Proof. intros []. unfold reads. by rewrite rd_rw0. Qed.


Section read_functions.
Context {L : lib} {h : Z} {a : EVFILE} (S : slot L h (Some a) (RW 0 false)).

(** The handle is locked for reading, and then its structure. *)
Let L1 := put_lock L h (RW 1 false).
Let S1 : slot L1 h (Some a) (RW 1 false) := slot_put_lock S (RW 1 false).

Lemma lock_for_read : handleReadLock L h = Ret L1 ∧ get_handle L1 h = Ret (Some a).
Proof. split; [by rewrite (handleReadLock_slot S)|by rewrite (get_handle_slot S1)]. Qed.

Lemma unlock_after_read a' :
  set_handle L1 h (Some a') = Ret (put_handle L1 h (Some a')) ∧
  handleReadUnlock (put_handle L1 h (Some a')) h = Ret (put_handle L h (Some a')).
Proof.
  split; [by rewrite (set_handle_slot S1)|].
  rewrite (handleReadUnlock_slot (slot_put_handle S1 (Some a'))).
  f_equal. exact (put_lock_back S (Some a') (RW 1 false)).
Qed.
End read_functions.

Ltac leave_read S a :=
  let E1 := fresh in let E2 := fresh in
  destruct (unlock_after_read S a) as [E1 E2]; rewrite E1; step; rewrite E2; step; clear E1 E2.

(** An event that fits is copied to the array of the caller; nothing else of the array
    changes. *)
Lemma evRead_next fuel L w h name e evs dst buflen :
  reads_file L w h name (e :: evs) → (2 ≤ fuel)%nat → 3 ≤ buflen ≤ Z.of_nat (length dst) →
  Z.of_nat (length e) ≤ buflen →
  ∃ L' w', evRead fuel L w h (Some dst) buflen =
             Ret (S_SUCCESS, Some (e ++ drop (length e) dst), L', w') ∧
           reads_file L' w' h name evs.
Proof.
  intros (HL & a & S & Hlk & Hp) Hfuel Hbuf He. destruct fuel as [|[|fuel]]; [lia..|].
  unfold evRead. rewrite (bad_handle_slot S). replace (buflen <? 3) with false by zcase.
  destruct (lock_for_read S) as [-> Hget]. step. rewrite Hget. step.
  destruct (reader_reads _ _ (pending_reader _ _ _ _ Hp)) as [-> ->]. cbn [negb orb].
  unfold mutexLock. rewrite Hlk. step.
  destruct (next_block_ok _ _ _ _ _ (pending_lock _ _ _ _ true Hp))
    as (a' & w' & now & num & bs & -> & Hr & -> & _). step.
  change (negb (S_SUCCESS =? S_SUCCESS)) with false. cbn iota.
  pose proof (rd_swapped _ _ (rg_reader _ _ _ _ _ _ Hr)) as Hsw. rewrite Hsw. cbn [negb]. cbn iota.
  rewrite (next_event_len_ok _ _ _ _ _ _ _ Hr). step. replace (buflen <? _) with false by zcase.
  rewrite (copy_event_ok _ _ _ _ _ _ _ _ _ Hr) by lia. step.
  change (negb (S_SUCCESS =? S_SUCCESS)) with false. cbn iota.
  leave_read S (mutexUnlock (behind a' e)).
  change (a_byte_swapped (behind a' e)) with (a_byte_swapped a'). rewrite Hsw. step.
  eexists _, w'. split; [done|]. split; [by eapply wf_put_handle|].
  eexists. split; [exact (slot_put_handle S _)|]. split; [done|].
  apply pending_lock. left. exists now, num, bs. by apply behind_ok in Hr as [_ Hr].
Qed.

(** An event that does not fit stays in the file. *)
Lemma evRead_trunc fuel L w h name e evs dst buflen :
  reads_file L w h name (e :: evs) → 3 ≤ buflen < Z.of_nat (length e) →
  ∃ L' w', evRead fuel L w h (Some dst) buflen = Ret (S_EVFILE_TRUNC, Some dst, L', w') ∧
           reads_file L' w' h name (e :: evs).
Proof.
  intros (HL & a & S & Hlk & Hp) Hbuf.
  unfold evRead. rewrite (bad_handle_slot S). replace (buflen <? 3) with false by zcase.
  destruct (lock_for_read S) as [-> Hget]. step. rewrite Hget. step.
  destruct (reader_reads _ _ (pending_reader _ _ _ _ Hp)) as [-> ->]. cbn [negb orb].
  unfold mutexLock. rewrite Hlk. step.
  destruct (next_block_ok _ _ _ _ _ (pending_lock _ _ _ _ true Hp))
    as (a' & w' & now & num & bs & -> & Hr & -> & _). step.
  change (negb (S_SUCCESS =? S_SUCCESS)) with false. cbn iota.
  pose proof (rd_swapped _ _ (rg_reader _ _ _ _ _ _ Hr)) as Hsw. rewrite Hsw. cbn [negb]. cbn iota.
  rewrite (next_event_len_ok _ _ _ _ _ _ _ Hr). step. replace (buflen <? _) with true by zcase.
  leave_read S (mutexUnlock a').
  eexists _, w'. split; [done|]. split; [by eapply wf_put_handle|].
  eexists. split; [exact (slot_put_handle S _)|]. split; [done|].
  apply pending_lock. left. by exists (e :: now), num, bs.
Qed.

Lemma evRead_eof fuel L w h name dst buflen :
  reads_file L w h name [] → 3 ≤ buflen →
  ∃ L' w', evRead fuel L w h (Some dst) buflen = Ret (EOF, Some dst, L', w') ∧
           reads_file L' w' h name [].
Proof.
  intros (HL & a & S & Hlk & Hp) Hbuf.
  unfold evRead. rewrite (bad_handle_slot S). replace (buflen <? 3) with false by zcase.
  destruct (lock_for_read S) as [-> Hget]. step. rewrite Hget. step.
  destruct (reader_reads _ _ (pending_reader _ _ _ _ Hp)) as [-> ->]. cbn [negb orb].
  unfold mutexLock. rewrite Hlk. step.
  destruct (next_block_eof _ _ _ (pending_lock _ _ _ _ true Hp)) as (a' & w' & -> & Hp' & _). step.
  change (negb (EOF =? S_SUCCESS)) with true. cbn iota.
  leave_read S (mutexUnlock a').
  eexists _, w'. split; [done|]. split; [by eapply wf_put_handle|].
  eexists. split; [exact (slot_put_handle S _)|]. split; [done|].
  by apply pending_lock.
Qed.

Lemma evReadAlloc_next fuel L w h name e evs :
  reads_file L w h name (e :: evs) → (2 ≤ fuel)%nat →
  ∃ L' w', evReadAlloc fuel L w h true = Ret (S_SUCCESS, Some (e, Z.of_nat (length e)), L', w') ∧
           reads_file L' w' h name evs.
Proof.
  intros (HL & a & S & Hlk & Hp) Hfuel. destruct fuel as [|[|fuel]]; [lia..|].
  unfold evReadAlloc. rewrite (bad_handle_slot S).
  destruct (lock_for_read S) as [-> Hget]. step. rewrite Hget. step. unfold evReadAllocImpl.
  destruct (reader_reads _ _ (pending_reader _ _ _ _ Hp)) as [-> ->]. cbn [negb].
  unfold mutexLock. rewrite Hlk. step.
  destruct (next_block_ok _ _ _ _ _ (pending_lock _ _ _ _ true Hp))
    as (a' & w' & now & num & bs & -> & Hr & -> & _). step.
  change (negb (S_SUCCESS =? S_SUCCESS)) with false. cbn iota.
  pose proof (rg_reader _ _ _ _ _ _ Hr) as Hrd.
  rewrite (next_event_len_ok _ _ _ _ _ _ _ Hr). step.
  rewrite (alloc_ok_mem w') by apply Hrd. cbn [negb]. cbn iota.
  pose proof (Forall_inv (rg_events _ _ _ _ _ _ Hr)) as (_ & _ & Hl & Hmax).
  rewrite u32_small, Z.mul_comm, Z.div_mul by lia.
  rewrite (copy_event_ok _ _ _ _ _ _ _ _ _ Hr) by lia. step.
  change (negb (S_SUCCESS =? S_SUCCESS)) with false. cbn iota.
  change (a_byte_swapped (mutexUnlock (behind a' e))) with (a_byte_swapped a').
  rewrite (rd_swapped _ _ Hrd). step.
  leave_read S (mutexUnlock (behind a' e)).
  eexists _, w'. split; [done|]. split; [by eapply wf_put_handle|].
  eexists. split; [exact (slot_put_handle S _)|]. split; [done|].
  apply pending_lock. left. exists now, num, bs. by apply behind_ok in Hr as [_ Hr].
Qed.

(** The event is where the pointer that is returned points. *)
Lemma evReadNoCopy_next L w h name e evs :
  reads_file L w h name (e :: evs) →
  ∃ p L' w', evReadNoCopy L w h true = Ret (S_SUCCESS, Some (p, Z.of_nat (length e)), L', w') ∧
             hread (w_heap w') p (Z.of_nat (length e)) = Ret e ∧ reads_file L' w' h name evs.
Proof.
  intros (HL & a & S & Hlk & Hp). unfold evReadNoCopy. rewrite (bad_handle_slot S). cbn [negb].
  destruct (lock_for_read S) as [-> Hget]. step. rewrite Hget. step.
  pose proof (pending_reader _ _ _ _ Hp) as Hrd.
  rewrite (rd_version _ _ Hrd). change (4 <? 4) with false. cbn iota.
  destruct (reader_reads _ _ Hrd) as [-> ->]. cbn [negb orb].
  unfold mutexLock. rewrite Hlk. step.
  destruct (next_block_ok _ _ _ _ _ (pending_lock _ _ _ _ true Hp))
    as (a' & w' & now & num & bs & -> & Hr & -> & _). step.
  change (negb (S_SUCCESS =? S_SUCCESS)) with false. cbn iota.
  rewrite (next_event_len_ok _ _ _ _ _ _ _ Hr). step.
  rewrite (rd_swapped _ _ (rg_reader _ _ _ _ _ _ Hr)). step.
  fold (behind a' e). leave_read S (mutexUnlock (behind a' e)).
  destruct (behind_ok _ _ _ _ _ _ _ Hr) as [Hread Hr'].
  eexists _, _, (w' <| w_heap := w_heap w' |>). split; [done|]. split; [exact Hread|].
  split; [by eapply wf_put_handle|].
  eexists. split; [exact (slot_put_handle S _)|]. split; [done|].
  apply pending_lock. left. exists now, num, bs. split; [|done].
  assert (w' <| w_heap := w_heap w' |> = w') as -> by (by destruct w'). done.
Qed.
