(* ===== verification/EvioSession.v ===== *)
(** * Files written and read through the interface

    The specification of a writer is that it has a list of events to which [evWrite] adds
    one, and of a reader that it has a list of events of which each read takes the
    first.  Both are stated as interfaces, which the handles of files implement; the
    last section composes opening, writing, closing, opening again and reading. *)

From S2P Require Import Prelude Words CString Memory EvioFmt EvioSwapArrays EvioFmtSwap.
From S2P Require Import EvioSwap EvioTypes EvioNames EvioState EvioWrite EvioRead EvioOpen.
From S2P Require Import EvioHandles EvioBlocks EvioClient EvioWriter EvioFlush EvioReader.

(** ** Opening a file for writing *)

(** The handle [h] writes the file [name]; [evs] were written so far. *)
Definition writes_file (lim : option Z) (L : lib) (w : world) (h : Z) (name : list Z) (evs : list (list Z)) : Prop :=
  wf_lib L ∧ ∃ a FB BB, slot L h (Some a) (RW 0 false) ∧ a_lock a = false ∧
    a_randomAccess a = false ∧ writing lim a w name FB BB ∧ events (FB ++ BB) = evs ∧
    Z.of_nat (length (FB ++ BB)) ≤ Z.of_nat (length evs).

(** Nothing goes wrong outside: allocations, openings and writes succeed. *)
Record no_faults (w : world) : Prop := NoFaults {
  nf_mem : w_mem w = []; nf_io : w_io w = []; nf_brk : 0 < w_brk w
}.

(** The structure and the world when a new buffer of the writer has its last header. *)
Lemma start_writing_ok fuel a w f name :
  o_medium f = UseFile → no_faults w → plain_name name → a_rw a = EV_WRITEFILE → a_append a = 0 →
  a_splitting a = false → a_wroteDictionary a = false → 0 < a_blkEvMax a →
  a_bufSize a = a_bufRealSize a → 16 ≤ a_bufRealSize a < 1073741824 →
  a_blkSizeTarget a = a_bufSize a → a_blksiz a = 8 → a_blkEvCount a = 0 → a_bytesToBuf a = 32 →
  a_eventsToBuf a = 0 → flushed a w name [] →
  ∃ a' w', start_writing fuel a w f = Ret (None, a', w') ∧
    hget (w_heap w') (a_buf a') EV_HD_BLKNUM = Ret 1 ∧ w_mem w' = [] ∧ a_lock a' = a_lock a ∧
    a_randomAccess a' = a_randomAccess a ∧
    ∀ h lim, (∀ M, lim = Some M → 0 ≤ M ∧ M + 8 ≤ a_blkSizeTarget a ≤ EV_BLOCKSIZE_MAX) →
      writing lim (a' <| a_blknum := 1 |> <| a_handle := h |>) w' name [] [].
Proof.
  intros Hm [] Hn Hrw Happ Hsp Hd Hev Hbs Hsz Htg Hbl Hct Hby Hevs Hf. unfold start_writing. rewrite Hm.
  unfold halloc. rewrite nf_mem0. cbn [malloc_ok negb]. unfold is_null. proj.
  replace (w_brk w =? 0) with false by zcase.
  set (n := Z.to_nat (a_bufRealSize a)). assert (16 <= n)%nat as Hn16 by lia.
  replace n with (8 + (n - 8))%nat by lia. rewrite replicate_add.
  unfold initLastBlockHeader.
  rewrite (hwrite_start _ (Ptr (w_brk w) 0) (replicate 8 0) (replicate (n - 8) 0)); proj;
    [|by rewrite lookup_insert_eq|done|done]. step. cbn iota.
  unfold toAppendPosition. proj. rewrite Happ. change (0 =? 0) with true. cbn iota. step.
  change (negb (S_SUCCESS =? S_SUCCESS)) with false. cbn iota.
  eexists _, _. split; [reflexivity|]. proj. rewrite insert_insert_eq.
  change [8; 1; EV_HDSIZ; 0; 0; Z.lor EV_VERSION EV_LASTBLOCK_MASK; 0; EV_MAGIC] with (last_header 1).
  split_and!; try done.
  - apply (hget_app _ _ [] (last_header 1) (replicate (n - 8) 0) 1); [|done]. by rewrite lookup_insert_eq.
  - intros h lim Hlim. assert (holds_words (a <| a_buf := Ptr (w_brk w) 0 |>)
      (<[w_brk w := last_header 1 ++ replicate (n - 8) 0]> (w_heap w)) (last_header 1)) as Hw.
    { split; [done|]. exists (replicate (n - 8) 0). proj. rewrite lookup_insert_eq. split; [done|].
      rewrite length_app, length_replicate. cbn. lia. }
    split; try done.
    + split; proj; try done; lia.
    + inversion Hf; [|done]. by apply flushed_none.
    + apply buffered_fresh. by split.
    + destruct lim as [M|]; cbn; [by apply Hlim|]. intros _. proj. lia.
Qed.

(** The limit of a new writer, whose target size is the default. *)
Definition lim_ok (lim : option Z) : Prop := ∀ M, lim = Some M → 0 ≤ M ∧ M + 8 ≤ EV_BLOCKSIZE_V4.

Lemma evOpen_write lim getenv fuel L w name :
  lim_ok lim → wf_lib L → no_faults w → plain_name name → name ≠ [] → (1 ≤ fuel)%nat →
  ∃ h L' w', evOpen getenv fuel L w (Some name) (cs "w") true = Ret (S_SUCCESS, Some h, L', w') ∧
    writes_file lim L' w' h name [].
Proof.
  intros Hlim HL Hw Hn Hne Hfuel. pose proof Hw as [Hmem Hio Hbrk].
  pose proof Hn as (Hp & Hd & Hdash & Hbar & Htrim & Hlen).
  unfold evOpen. change (strcaseeq (cs "w") "w" || _) with true. cbn iota. unfold evOpenImpl. cbn [negb].
  change (parse_flags (cs "w")) with (Some (OpenFlags UseFile false false false false)).
  cbn [o_medium o_reading s_name]. rewrite bool_decide_eq_false_2 by done. cbn iota.
  rewrite alloc_ok_mem by done. cbn [negb default]. cbn iota. unfold id. rewrite Htrim. step. cbn [default].
  unfold id. rewrite alloc_ok_mem by done. cbn [negb]. cbn iota. unfold open_writing. cbn [o_append].
  unfold open_destination. cbn [o_medium o_append o_splitting].
  rewrite bool_decide_eq_false_2 by done.
  assert (is_pipe name = false) as ->.
  { destruct name as [|c name]; [done|]. cbn in Hbar |- *. apply Z.eqb_neq. congruence. }
  rewrite Hmem, base_name by done. step. cbn iota.
  cbn [orb]. set (a := structInit <| a_append := 0 |> <| a_rw := _ |> <| a_splitting := _ |>
                         <| a_baseFileName := _ |> <| a_specifierCount := _ |>).
  destruct (start_writing_ok fuel a (w <| w_mem := [] |>) (OpenFlags UseFile false false false false) name)
    as (a' & w' & -> & Hnum & Hm' & Hlk & Hrnd & Hwr); try done; [by apply flushed_none|].
  step. cbn [andb]. cbn iota. rewrite Hnum. step.
  destruct (register_handle_ok L w' (a' <| a_blknum := 1 |>) HL Hm') as (h & L' & -> & Hslot & HL').
  step. exists h, L', w'. split; [done|]. split; [done|].
  eexists _, [], []. split; [exact Hslot|]. split_and!; try done. apply Hwr. intros M HM. destruct (Hlim M HM). by split.
Qed.

(** ** Writing *)

Lemma writing_lock lim a w name FB BB b :
  writing lim a w name FB BB → writing lim (a <| a_lock := b |>) w name FB BB.
Proof.
  intros [Hn [] Hf Hb Hfr Hok]. split; try done.
  - destruct Hf; [by apply flushed_none|by eapply flushed_some].
  - destruct Hb as [[]|bs cur []]; constructor; by split.
Qed.

Lemma writing_append lim a w name FB BB : writing lim a w name FB BB → a_append a = 0.
Proof. intros Hwr. by destruct (wt_config _ _ _ _ _ _ Hwr). Qed.
Lemma writing_rw lim a w name FB BB : writing lim a w name FB BB → a_rw a = EV_WRITEFILE.
Proof. intros Hwr. by destruct (wt_config _ _ _ _ _ _ Hwr). Qed.

Lemma evWrite_file lim L w h name evs e :
  writes_file lim L w h name evs → event_ok e → within lim e → Z.of_nat (length evs) + 2 < 2147483648 →
  ∃ L' w', evWrite L w h (Some e) = Ret (S_SUCCESS, L', w') ∧
           writes_file lim L' w' h name (evs ++ [e]).
Proof.
  intros (HL & a & FB & BB & S & Hlk & Hrnd & Hwr & Hev & Hlen) He Hlim Hbig.
  unfold evWrite, evWriteImpl. rewrite (bad_handle_slot S).
  destruct (lock_for_read S) as [-> Hget]. step. rewrite Hget. step.
  rewrite (writing_append _ _ _ _ _ _ Hwr), (writing_rw _ _ _ _ _ _ Hwr). cbn [Z.eqb negb andb EV_WRITEFILE].
  change (4 =? 4) with true. cbn [negb andb]. cbn iota.
  unfold mutexLock. rewrite Hlk. step. rewrite length_app in Hlen.
  destruct (write_event_ok _ _ w name FB BB e (writing_lock _ _ _ _ _ _ true Hwr) He Hlim ltac:(lia))
    as (a' & w' & FB' & BB' & -> & Hwr' & [] & Hev' & Hlen'). step.
  leave_read S (mutexUnlock a'). eexists _, w'. split; [done|].
  split; [by eapply wf_put_handle|]. eexists _, FB', BB'. split; [exact (slot_put_handle S _)|]. split_and!; try done.
  - proj. unfold mutexUnlock. proj. by rewrite st_random.
  - by apply writing_lock.
  - by rewrite Hev', Hev.
  - rewrite !length_app in *. cbn. lia.
Qed.

(** ** Closing *)

Lemma close_file_ok a w :
  a_rw a = EV_WRITEFILE ∨ a_rw a = EV_READFILE → a_randomAccess a = false → w_io w = [] →
  ∃ w', close_file a w = (S_SUCCESS, w') ∧ w_files w' = w_files w ∧ w_mem w' = w_mem w ∧
        w_io w' = [] ∧ w_brk w' = w_brk w.
Proof.
  intros Hrw Hrnd Hio. unfold close_file.
  replace ((a_rw a =? EV_WRITEFILE) || (a_rw a =? EV_READFILE)) with true by (by destruct Hrw as [->| ->]).
  rewrite Hrnd. destruct (a_file a); [|by exists w]. unfold io_ok. rewrite Hio. cbn [malloc_ok].
  eexists. split; [done|]. by proj.
Qed.

(** The place of a handle that is closed is free, and its lock as it was. *)
Lemma close_handle L h oa :
  slot L h oa (RW 0 false) → l_getHandleMutex L = false →
  (L ← getHandleLock (put_lock L h (RW 0 true));
   L ← set_handle L h None;
   handleWriteUnlock (getHandleUnlock L) h) = Ret (put_handle L h None).
Proof.
  intros S Hm. unfold getHandleLock. change (l_getHandleMutex (put_lock L h _)) with (l_getHandleMutex L).
  rewrite Hm. step.
  pose proof (slot_mutex _ _ _ _ true (slot_put_lock S (RW 0 true))) as S1.
  rewrite (set_handle_slot S1). step. set (L2 := getHandleUnlock _).
  assert (slot L2 h None (RW 0 true)) as S2 by exact (slot_mutex _ _ _ _ false (slot_put_handle S1 None)).
  rewrite (handleWriteUnlock_slot S2). f_equal. cbn [rw_readers].
  rewrite <- (put_lock_back S None (RW 0 true)). unfold L2. f_equal.
  unfold getHandleUnlock, put_handle, update. cbn. by rewrite <- Hm.
Qed.

(** The file has everything that was written, in blocks; if nothing was, there is no file. *)
Lemma evClose_file lim L w h name evs :
  writes_file lim L w h name evs → Z.of_nat (length evs) < 2147483648 →
  ∃ L' w', evClose L w h = Ret (S_SUCCESS, L', w') ∧ wf_lib L' ∧ handle_at L' h = None ∧ no_faults w' ∧
    if bool_decide (evs = []) then w_files w' = w_files w
    else ∃ bs, w_files w' !! name = Some (bytes_of (enc_file bs)) ∧ events bs = evs ∧
               Forall block_ok bs ∧ Z.of_nat (length bs) ≤ Z.of_nat (length evs).
Proof.
  intros (HL & a & FB & BB & S & Hlk & Hrnd & Hwr & Hev & Hlen) Hbig.
  unfold evClose. rewrite (bad_handle_slot S), (handleWriteLock_slot S) by done. step.
  rewrite (get_handle_slot (slot_put_lock S _)). step.
  rewrite (writing_rw _ _ _ _ _ _ Hwr). cbn [orb]. change (EV_WRITEFILE =? EV_WRITEFILE) with true.
  cbn [orb]. cbn iota.
  destruct (flush_any lim a w name FB BB Hwr) as
    (a1 & w1 & Hfl & Hf1 & Hc1 & Hw1 & Hst & Hbuf1 & _ & _ & Hfile); [rewrite length_app in Hlen; lia|].
  rewrite Hfl. step. unfold send_last_block. rewrite (cf_rw _ _ Hc1).
  change ((EV_WRITEFILE =? EV_WRITEPIPE) || _) with false. cbn iota. step. cbn iota.
  destruct (close_file_ok a1 w1) as (w2 & -> & Hw2f & Hw2m & Hw2i & Hw2b);
    [left; apply Hc1|by rewrite (st_random _ _ Hst)|apply Hc1|].
  set (w3 := if _ : bool then hfree w2 _ else w2).
  assert (w_files w3 = w_files w1 ∧ no_faults w3) as [Hw3 Hnf].
  { destruct Hc1. unfold w3. destruct (negb _ && negb _); (split; [exact Hw2f|split; cbn; [congruence|done|lia]]). }
  pose proof (close_handle L h (Some a) S (wf_mutex _ HL)) as Hcl.
  apply res_bind_ret in Hcl as (La & -> & Hcl). step.
  apply res_bind_ret in Hcl as (Lb & -> & Hcl). step. rewrite Hcl. step.
  eexists _, w3. split_and!; [done|by eapply wf_put_handle| |done|].
  { destruct (slot_put_handle S None) as [Hr (l & Hl & Hn) _]. unfold handle_at. rewrite Hl, Hn.
    by replace (h <? 1) with false by zcase. }
  assert (evs = [] ↔ FB ++ BB = []) as Hiff.
  { split; [|by intros E; rewrite <- Hev, E]. intros ->. destruct (FB ++ BB) as [|b bs] eqn:E; [done|].
    pose proof (wt_blocks _ _ _ _ _ _ Hwr) as Hok. rewrite E in Hok. destruct (Forall_inv Hok) as [Hne _].
    by destruct b. }
  rewrite Hw3. rewrite (bool_decide_ext _ _ Hiff). case_bool_decide; [done|].
  exists (FB ++ BB). split_and!; try done. apply Hwr.
Qed.

(** ** Opening a file for reading *)

Lemma check_header_ok len num count :
  u32_ok len → u32_ok num → u32_ok count →
  check_header (bytes_of (hdr len num count EV_VERSION)) = Some (false, 4, 8).
Proof.
  intros Hl Hn Hc. unfold check_header. rewrite length_bytes_of.
  change (negb (Z.of_nat (4 * length (hdr len num count EV_VERSION)) =? 4 * EV_HDSIZ)) with false. cbn iota.
  rewrite words_of_bytes_of by (by apply u32_ok_hdr). reflexivity.
Qed.

(** The first block is brought to a new buffer. *)
Lemma read_first_block_ok a w f fl name len num count body rest :
  o_medium f = UseFile → no_faults w → a_byte_swapped a = false → a_file a = Some fl →
  f_name fl = name → f_pos fl = 32 → len = 8 + Z.of_nat (length body) → len < 1073741824 →
  let H := hdr len num count EV_VERSION in
  w_files w !! name = Some (bytes_of (H ++ body ++ rest)) → Forall u32_ok body →
  ∃ a' w' size post,
    read_first_block a w f H = Ret (None, a', w') ∧
    a' = a <| a_blksiz := len |> <| a_bufSize := size |> <| a_buf := Ptr (w_brk w) 0 |>
           <| a_file := Some (fl <| f_pos := 4 * Z.of_nat (length (H ++ body)) |>) |> ∧
    w' = w <| w_mem := [] |> <| w_brk := Z.succ (w_brk w) |>
           <| w_heap := <[w_brk w := H ++ body ++ post]> (w_heap w) |> ∧
    Z.of_nat (length (H ++ body ++ post)) = size ∧ 8 ≤ size < 1073741824.
Proof.
  intros Hm [] Hsw Hf Hn Hp Hlen Hmax H Hfile Hu. unfold read_first_block. rewrite Hsw.
  change (default 0 (H !! Z.to_nat EV_HD_BLKSIZ)) with len. cbn zeta.
  set (size := if len <? EV_BLOCKSIZE_MIN then EV_BLOCKSIZE_MIN else len).
  assert (len ≤ size < 1073741824) as Hsize.
  { unfold size. destruct (Z.ltb_spec len EV_BLOCKSIZE_MIN); unfold EV_BLOCKSIZE_MIN in *; lia. }
  proj. rewrite (u32_small (4 * size)), Z.mul_comm, Z.div_mul by lia.
  unfold halloc. rewrite nf_mem0. cbn [malloc_ok negb]. unfold is_null. proj.
  replace (w_brk w =? 0) with false by zcase.
  set (n := Z.to_nat size). assert (8 + length body <= n)%nat as Hn8 by lia.
  set (post := replicate (n - 8 - length body) 0).
  assert (replicate n 0 = replicate 8 0 ++ replicate (length body) 0 ++ post) as ->.
  { unfold post. rewrite <- !replicate_add. f_equal. lia. }
  rewrite map_id.
  rewrite (hwrite_start _ (Ptr (w_brk w) 0) (replicate 8 0) (replicate (length body) 0 ++ post)); proj;
    [|by rewrite lookup_insert_eq|done|done]. step. rewrite Hm, Hf. step.
  replace (u32 (4 * (len - EV_HDSIZ))) with (4 * Z.of_nat (length body))
    by (change EV_HDSIZ with 8; rewrite u32_small; lia).
  unfold padd. proj. change (0 + EV_HDSIZ) with (Z.of_nat (length H)).
  rewrite (fread_heap_words _ fl name H body rest (w_brk w) H (replicate (length body) 0) post); proj;
    try done; [|by rewrite lookup_insert_eq|by rewrite length_replicate]. step.
  rewrite Z.eqb_refl. cbn [negb]. cbn iota. eexists _, _, size, post. split; [reflexivity|]. split_and!.
  - done.
  - unfold update. cbn. by rewrite !insert_insert_eq.
  - unfold post. rewrite !length_app, length_replicate. cbn. lia.
  - lia.
  - lia.
Qed.

Lemma start_first_block_ok fuel a w o len num count rest :
  a_version a = 4 → a_buf a = Ptr o 0 →
  w_heap w !! o = Some (hdr len num count EV_VERSION ++ rest) → 8 ≤ len < 1073741824 →
  start_first_block fuel a w 8 =
  Ret (a <| a_next := Ptr o 8 |> <| a_left := len - 8 |> <| a_isLastBlock := false |>, w).
Proof.
  intros Hv Hb Ho Hlen. unfold start_first_block. rewrite Hv, Hb. change (4 <? 4) with false. cbn iota.
  assert (∀ i v, hdr len num count EV_VERSION !! i = Some v → hget (w_heap w) (Ptr o 0) (Z.of_nat i) = Ret v)
    as Hget by (intros i v; by apply (hget_app _ o [] _ rest)).
  change EV_HD_BLKSIZ with (Z.of_nat 0). rewrite (Hget O len) by done. step.
  unfold isLastBlock, hasDictionary. change EV_HD_VER with (Z.of_nat 5).
  rewrite (Hget 5%nat EV_VERSION) by done. step.
  change (hasDictionaryInt EV_VERSION) with false. cbn iota. rewrite u32_small by lia. done.
Qed.

(** The reader after the first block, which leaves the others in the file. *)
Lemma first_reading fuel a w f fl name b bs :
  o_medium f = UseFile → no_faults w → a_rw a = EV_READFILE → a_byte_swapped a = false →
  a_version a = 4 → a_randomAccess a = false → a_file a = Some fl → f_name fl = name →
  f_eof fl = false → f_pos fl = 32 → Forall block_ok (b :: bs) →
  Z.of_nat (length (b :: bs)) < 4294967290 →
  w_files w !! name = Some (bytes_of (enc_file (b :: bs))) →
  ∃ a' w',
    ('(early, a, w) ← read_first_block a w f (hdr (block_words b) 1 (Z.of_nat (length b)) EV_VERSION);
     match early with
     | Some _ => Ret (early, a, w)
     | None => '(a, w) ← start_first_block fuel a w 8; Ret (None, a, w)
     end) = Ret (None, a', w') ∧
    hget (w_heap w') (a_buf a') EV_HD_BLKNUM = Ret 1 ∧ w_mem w' = [] ∧ a_lock a' = a_lock a ∧
    ∀ h, reading (a' <| a_blknum := 1 |> <| a_handle := h |>) w' name b 2 bs.
Proof.
  intros Hm Hw Hrw Hsw Hv Hrnd Hf Hn He Hp Hok Hbig Hfile. pose proof Hw as [Hmem _ Hbrk].
  apply Forall_cons_1 in Hok as [Hb Hok]. pose proof Hb as (Hbne & Hev & Hbw).
  pose proof (block_words_ge b). unfold enc_file in Hfile. rewrite enc_blocks_cons, <- !app_assoc in Hfile.
  set (H1 := hdr (block_words b) 1 (Z.of_nat (length b)) EV_VERSION) in *.
  destruct (read_first_block_ok a w f fl name (block_words b) 1 (Z.of_nat (length b)) (concat b) _
     Hm Hw Hsw Hf Hn Hp eq_refl Hbw Hfile (u32_ok_events _ Hev)) as (a1 & w1 & size & post & Hrfb & Ha1 & Hw1 & Hsz & Hbound).
  fold H1 in Hrfb, Ha1, Hw1, Hsz. rewrite Hrfb. step. cbn iota beta. clear Hrfb.
  assert (w_heap w1 !! w_brk w = Some (H1 ++ concat b ++ post)) as Ho
    by (rewrite Hw1; proj; by rewrite lookup_insert_eq).
  assert (a_buf a1 = Ptr (w_brk w) 0) as Hbuf by (by rewrite Ha1).
  rewrite (start_first_block_ok fuel a1 w1 _ _ _ _ _) by (done || by rewrite Ha1 || lia). step.
  eexists _, w1. split; [reflexivity|]. split_and!.
  - proj. rewrite Hbuf. exact (hget_app _ _ [] H1 (concat b ++ post) 1 1 Ho eq_refl).
  - by rewrite Hw1.
  - by rewrite Ha1.
  - intros h. subst a1 w1. split; proj; try done.
    + split; proj; try done. lia.
    + eexists _, (H1 ++ concat b). split_and!; [done|done|done|done|].
      proj. rewrite Hfile, <- app_assoc. cbn [length].
      do 6 f_equal. lia.
    + exists H1, post. by split_and!.
    + unfold block_words. lia.
    + cbn [length] in Hbig. lia.
Qed.

Lemma evOpen_read getenv fuel L w name bs :
  wf_lib L → no_faults w → plain_name name → bs ≠ [] → Forall block_ok bs →
  Z.of_nat (length bs) < 4294967290 → w_files w !! name = Some (bytes_of (enc_file bs)) →
  ∃ h L' w', evOpen getenv fuel L w (Some name) (cs "r") true = Ret (S_SUCCESS, Some h, L', w') ∧
    reads_file L' w' h name (events bs).
Proof.
  intros HL Hw Hn Hne Hok Hbig Hfile. pose proof Hw as [Hmem Hio Hbrk].
  pose proof Hn as (Hp & Hd & Hdash & Hbar & Htrim & Hlen).
  destruct bs as [|b bs]; [done|]. apply Forall_cons_1 in Hok as [Hb Hok].
  pose proof Hb as (Hbne & Hev & Hbw). pose proof (events_short b Hev). pose proof (block_words_ge b).
  pose proof Hfile as Hfile0. unfold enc_file in Hfile. rewrite enc_blocks_cons, <- !app_assoc in Hfile.
  set (H1 := hdr (block_words b) 1 (Z.of_nat (length b)) EV_VERSION) in *.
  unfold evOpen. change (strcaseeq (cs "r") "w" || strcaseeq (cs "r") "s" || strcaseeq (cs "r") "r")
    with true. cbn [orb]. cbn iota. unfold evOpenImpl. cbn [negb].
  change (parse_flags (cs "r")) with (Some (OpenFlags UseFile true false false false)).
  cbn [o_medium o_reading s_name]. rewrite bool_decide_eq_false_2 by done. cbn iota.
  rewrite alloc_ok_mem by done. cbn [negb default]. cbn iota. unfold id. rewrite Htrim. step. cbn [default].
  unfold id. rewrite alloc_ok_mem by done. cbn [negb]. cbn iota.
  unfold open_reading, open_source. cbn [o_medium o_random].
  rewrite bool_decide_eq_false_2 by done.
  assert (is_pipe name = false) as ->.
  { destruct name as [|c name]; [done|]. cbn in Hbar |- *. apply Z.eqb_neq. congruence. }
  unfold fopen_r. rewrite Hfile. step. cbn iota. proj.
  change (4 * EV_HDSIZ) with (4 * Z.of_nat (length H1)).
  rewrite (fread_words w (mkFILE name 0 false false) name [] H1 _ eq_refl Hfile eq_refl). step. cbn iota beta.
  assert (u32_ok (block_words b) ∧ u32_ok (Z.of_nat (length b))) as [Hu1 Hu2] by (unfold u32_ok; lia).
  pose proof (check_header_ok _ 1 _ Hu1 ltac:(done) Hu2) as Hch. fold H1 in Hch. rewrite Hch. cbn iota beta.
  rewrite words_of_bytes_of by (by apply u32_ok_hdr).
  set (a0 := structInit <| a_rw := _ |> <| a_randomAccess := _ |> <| a_file := _ |> <| a_file := _ |>
               <| a_byte_swapped := _ |> <| a_version := _ |>).
  destruct (first_reading fuel a0 w (OpenFlags UseFile true false false false) (mkFILE name 32 false false)
     name b bs eq_refl Hw eq_refl eq_refl eq_refl eq_refl eq_refl eq_refl eq_refl eq_refl
     (Forall_cons_2 _ _ _ Hb Hok) Hbig Hfile0) as (a1 & w1 & Hrun & Hnum & Hm1 & Hlk & Hr).
  fold H1 in Hrun. rewrite Hrun. step. cbn iota beta. cbn [andb]. cbn iota. rewrite Hnum. step.
  destruct (register_handle_ok L w1 (a1 <| a_blknum := 1 |>) HL Hm1) as (h & L' & -> & Hslot & HL'). step.
  exists h, L', w1. split; [done|]. split; [done|]. eexists. split; [exact Hslot|]. split; [exact Hlk|].
  left. exists b, 2, bs. split; [apply Hr|done].
Qed.

(** ** Handles of files implement the interfaces *)

#[export] Instance file_writer lim name :
  EventWriter (λ e, event_ok e ∧ within lim e) (λ L w h, writes_file lim L w h name).
Proof.
  intros L w h evs e HW [He Hl] Hmax. unfold max_events in Hmax. apply evWrite_file; [done|done|done|lia].
Qed.

#[export] Instance file_reader name : EventReader (λ L w h, reads_file L w h name).
Proof.
  split.
  - intros. by apply evRead_next.
  - intros. by apply evRead_trunc.
  - intros. by apply evRead_eof.
  - intros. by apply evReadAlloc_next.
  - intros. by apply evReadNoCopy_next.
Qed.

(** ** A whole session *)

(** Open the file [name], write [evs], close it; the statuses of the calls. *)
Definition write_session (getenv : list Z → option (list Z)) (fuel : nat) (L : lib) (w : world)
    (name : list Z) (evs : list event) : res (Z * list Z * Z * lib * world) :=
  '(opened, h, L, w) ← evOpen getenv fuel L w (Some name) (cs "w") true;
  '(written, L, w) ← write_all L w (default 0 h) evs;
  '(closed, L, w) ← evClose L w (default 0 h);
  Ret (opened, written, closed, L, w).

(** Open it again and read with the calls [cs], and once more at the end. *)
Definition read_session (getenv : list Z → option (list Z)) (fuel : nat) (L : lib) (w : world)
    (name : list Z) (cs : list read_call) : res (Z * list (Z * event) * Z * lib * world) :=
  '(opened, h, L, w) ← evOpen getenv fuel L w (Some name) (CString.cs "r") true;
  '(l, L, w) ← read_all fuel L w (default 0 h) cs;
  '(last, _, L, w) ← evRead fuel L w (default 0 h) (Some (replicate 3 0)) 3;
  Ret (opened, l, last, L, w).

Lemma write_session_ok getenv fuel L w name evs :
  wf_lib L → no_faults w → plain_name name → name ≠ [] → (1 ≤ fuel)%nat →
  Forall event_ok evs → Z.of_nat (length evs) ≤ max_events →
  ∃ L' w', write_session getenv fuel L w name evs =
             Ret (S_SUCCESS, map (λ _, S_SUCCESS) evs, S_SUCCESS, L', w') ∧
    wf_lib L' ∧ no_faults w' ∧
    (evs ≠ [] → ∃ bs, w_files w' !! name = Some (bytes_of (enc_file bs)) ∧ events bs = evs ∧
                      Forall block_ok bs ∧ Z.of_nat (length bs) ≤ Z.of_nat (length evs)).
Proof.
  intros HL Hw Hn Hne Hf Hev Hmax. unfold write_session.
  destruct (evOpen_write None getenv fuel L w name ltac:(done) HL Hw Hn Hne Hf) as (h & L1 & w1 & -> & HW). step.
  cbn [default]. unfold id.
  destruct (write_all_ok (W:=λ L w h, writes_file None L w h name) L1 w1 h [] evs HW)
    as (L2 & w2 & -> & HW2); [by eapply Forall_impl|done|]. step. unfold max_events in Hmax.
  destruct (evClose_file None L2 w2 h name evs HW2) as (L3 & w3 & -> & HL3 & _ & Hw3 & Hfile); [lia|]. step.
  exists L3, w3. split_and!; try done. intros Hevs. by rewrite bool_decide_eq_false_2 in Hfile.
Qed.

Lemma read_session_ok getenv fuel L w name bs cs :
  wf_lib L → no_faults w → plain_name name → bs ≠ [] → Forall block_ok bs → (2 ≤ fuel)%nat →
  Z.of_nat (length bs) < 4294967290 → w_files w !! name = Some (bytes_of (enc_file bs)) →
  Forall2 call_ok cs (events bs) →
  ∃ L' w', read_session getenv fuel L w name cs =
             Ret (S_SUCCESS, map (λ e, (S_SUCCESS, e)) (events bs), EOF, L', w').
Proof.
  intros HL Hw Hn Hne Hok Hf Hbig Hfile Hcs.
  destruct (evOpen_read getenv fuel L w name bs HL Hw Hn Hne Hok Hbig Hfile) as (h & L2 & w2 & Hop & HR).
  destruct (read_all_ok (R:=λ L w h, reads_file L w h name) fuel L2 w2 h (events bs) [] cs)
    as (L3 & w3 & Hrd & HR3); [by rewrite app_nil_r|by apply events_ok|done|done|].
  destruct (evRead_eof fuel L3 w3 h name (replicate 3 0) 3 HR3 ltac:(done)) as (L4 & w4 & He & _).
  exists L4, w4. unfold read_session. rewrite Hop. step. cbn [default]. unfold id.
  rewrite Hrd. step. by rewrite He.
Qed.

(** C1: What is written to a file is what is read from it.  From any good state of the
    library, when nothing outside fails: opening a file, writing any events and closing
    it succeed; opening it again and reading it with any mixture of [evRead] (with arrays
    the events fit in), [evReadAlloc] and [evReadNoCopy] gives the same events in the same
    order, however they were put in blocks and flushed, and the next read reports the end
    of the file. *)
Theorem file_roundtrip (getenv : list Z → option (list Z)) (fuel : nat) (L : lib) (w : world)
    (name : list Z) (evs : list event) (cs : list read_call) :
  wf_lib L → no_faults w → plain_name name → name ≠ [] → (2 ≤ fuel)%nat →
  Forall event_ok evs → evs ≠ [] → Z.of_nat (length evs) ≤ max_events → Forall2 call_ok cs evs →
  ∃ L1 w1 L2 w2,
    write_session getenv fuel L w name evs =
      Ret (S_SUCCESS, map (λ _, S_SUCCESS) evs, S_SUCCESS, L1, w1) ∧
    read_session getenv fuel L1 w1 name cs =
      Ret (S_SUCCESS, map (λ e, (S_SUCCESS, e)) evs, EOF, L2, w2).
Proof.
  intros HL Hw Hn Hne Hf Hev Hevs Hmax Hcs.
  destruct (write_session_ok getenv fuel L w name evs HL Hw Hn Hne ltac:(lia) Hev Hmax)
    as (L1 & w1 & Hws & HL1 & Hw1 & Hfile).
  destruct (Hfile Hevs) as (bs & Hbs & <- & Hok & Hlen). unfold max_events in Hmax.
  destruct (read_session_ok getenv fuel L1 w1 name bs cs HL1 Hw1 Hn ltac:(intros E; by rewrite E in Hevs) Hok Hf ltac:(lia)
              Hbs Hcs) as (L2 & w2 & Hrd).
  by exists L1, w1, L2, w2.
Qed.

(** A world with no files, and three events of which the second is the longest. *)
Definition empty_world : world := World ∅ 1 ∅ ∅ [] [] 0.
Definition some_events : list event := [[1; 0x10]; [3; 0x20; 7; 4294967295]; [2; 0; 5]].
Definition some_calls : list read_call := [Copy 3; Alloc; InPlace].

Lemma no_faults_empty : no_faults empty_world.
Proof. by split. Qed.
Lemma plain_name_example : plain_name (cs "run.dat").
Proof. unfold plain_name. split_and!; try (by vm_compute); apply (bool_decide_unpack _); by vm_compute. Qed.

Lemma file_roundtrip_witness :
  ∃ L1 w1 L2 w2,
    write_session (λ _, None) 2 lib_start empty_world (cs "run.dat") some_events =
      Ret (S_SUCCESS, map (λ _, S_SUCCESS) some_events, S_SUCCESS, L1, w1) ∧
    read_session (λ _, None) 2 L1 w1 (cs "run.dat") some_calls =
      Ret (S_SUCCESS, map (λ e, (S_SUCCESS, e)) some_events, EOF, L2, w2).
Proof.
  apply (file_roundtrip (λ _, None) 2 lib_start empty_world (cs "run.dat") some_events some_calls).
  - by apply wf_start.
  - exact no_faults_empty.
  - exact plain_name_example.
  - discriminate.
  - lia.
  - apply (bool_decide_unpack _). vm_compute. exact I.
  - discriminate.
  - vm_compute. discriminate.
  - repeat constructor; cbn; lia.
Defined.
