(* ===== verification/EvioRandom.v ===== *)
(** * Counting the events of a file, and reading them in any order

    [getEventCount] goes from header to header; [generatePointerTable] notes where each
    event of a mapped file starts, and [evReadRandom] returns its pointer. *)

From S2P Require Import Prelude Words CString Memory EvioFmt EvioSwapArrays EvioFmtSwap.
From S2P Require Import EvioSwap EvioTypes EvioNames EvioState EvioWrite EvioRead EvioOpen.
From S2P Require Import EvioHandles EvioBlocks EvioClient EvioWriter EvioFlush EvioReader.
From S2P Require Import EvioSession.

(** ** Counting *)

(** The words of the blocks [bs], the first of which has the number [num], and the last
    header. *)
Definition enc_rest (num : Z) (bs : list block) : list Z :=
  enc_blocks num bs ++ last_header (num + Z.of_nat (length bs)).

Lemma enc_rest_cons num b bs :
  enc_rest num (b :: bs) =
  hdr (block_words b) num (Z.of_nat (length b)) EV_VERSION ++ concat b ++ enc_rest (num + 1) bs.
Proof.
  unfold enc_rest. rewrite enc_blocks_cons, <- !app_assoc. do 4 f_equal. cbn [length]. lia.
Qed.

Lemma events_cons b bs : events (b :: bs) = b ++ events bs.
Proof. done. Qed.

Lemma count_blocks_ok fuel a w f name pre num bs c :
  a_rw a = EV_READFILE → a_byte_swapped a = false → a_file a = Some f → f_name f = name →
  f_pos f = 4 * Z.of_nat (length pre) → a_eventCount a = c →
  w_files w !! name = Some (bytes_of (pre ++ enc_rest num bs)) → Forall block_ok bs →
  0 ≤ num → num + Z.of_nat (length bs) < 4294967296 → 0 ≤ c →
  c + Z.of_nat (length (events bs)) < 4294967296 → (length bs < fuel)%nat →
  ∃ f', count_blocks fuel a w 0 =
    Ret (None, a <| a_eventCount := c + Z.of_nat (length (events bs)) |> <| a_file := Some f' |>, w) ∧
    f_name f' = name.
Proof.
  intros Hrw Hsw Hf Hn Hp Hc Hfile Hok Hn0. revert num a f pre c fuel Hrw Hsw Hf Hn Hp Hc Hfile Hn0.
  induction Hok as [|b bs (Hne & Hev & Hbw) Hok IH];
    intros num a f pre c fuel Hrw Hsw Hf Hn Hp Hc Hfile Hn0 Hmax Hc0 Hcm Hfuel;
    (destruct fuel as [|fuel]; [cbn in Hfuel; lia|]).
  - cbn [count_blocks]. rewrite Hrw. change (EV_READFILE =? EV_READBUF) with false. cbn iota.
    rewrite Hf. step. rewrite Hsw.
    assert (enc_rest num [] = last_header num) as Hrest by (unfold enc_rest; cbn; by rewrite Z.add_0_r).
    rewrite Hrest in Hfile. rewrite <- (app_nil_r (last_header num)) in Hfile.
    change (4 * EV_HDSIZ) with (4 * Z.of_nat (length (last_header num))).
    rewrite (fread_words w f name pre _ [] Hn Hfile Hp). rewrite length_bytes_of.
    change (negb (Z.of_nat (4 * length (last_header num)) =? 4 * Z.of_nat (length (last_header num))))
      with false. cbn iota. step. rewrite map_id.
    cbn [length] in Hmax. rewrite words_of_bytes_of by (apply u32_ok_hdr; unfold u32_ok; try done; lia).
    change (default 0 (last_header num !! Z.to_nat EV_HD_VER)) with last_ver.
    change (isLastBlockInt last_ver) with true. cbn iota.
    change (default 0 (last_header num !! Z.to_nat EV_HD_COUNT)) with 0.
    exists (f <| f_pos := 4 * Z.of_nat (length (pre ++ last_header num)) |>). split; [|done].
    change (Z.of_nat (length (events []))) with 0. rewrite !Z.add_0_r.
    apply (f_equal (λ a, Ret (None, a, w))). unfold update. cbn.
    by rewrite Hc, Z.add_0_r, u32_small by lia.
  - cbn [count_blocks]. rewrite Hrw. change (EV_READFILE =? EV_READBUF) with false. cbn iota.
    rewrite Hf. step. rewrite Hsw. rewrite enc_rest_cons in Hfile.
    set (H := hdr (block_words b) num (Z.of_nat (length b)) EV_VERSION) in *.
    change (4 * EV_HDSIZ) with (4 * Z.of_nat (length H)).
    rewrite (fread_words w f name pre H _ Hn Hfile Hp). rewrite length_bytes_of.
    change (negb (Z.of_nat (4 * length H) =? 4 * Z.of_nat (length H))) with false. cbn iota. step.
    rewrite map_id. pose proof (events_short b Hev). pose proof (block_words_ge b).
    cbn [length] in Hmax, Hfuel. rewrite events_cons, length_app in Hcm.
    rewrite words_of_bytes_of by (apply u32_ok_hdr; unfold u32_ok; try done; lia).
    change (default 0 (H !! Z.to_nat EV_HD_VER)) with EV_VERSION.
    change (isLastBlockInt EV_VERSION) with false. cbn iota.
    change (default 0 (H !! Z.to_nat EV_HD_COUNT)) with (Z.of_nat (length b)).
    change (default 0 (H !! Z.to_nat EV_HD_BLKSIZ)) with (block_words b).
    proj. step. unfold fseek. proj. change EV_HDSIZ with 8. rewrite (u32_small (4 * _)) by lia.
    replace (_ <? 0) with false by zcase. cbn [negb]. cbn iota.
    destruct (IH (num + 1) (a <| a_file := Some (f <| f_pos := 4 * Z.of_nat (length (pre ++ H)) |>) |>
                 <| a_eventCount ::= λ x, u32 (x + Z.of_nat (length b)) |>
                 <| a_file := Some (f <| f_pos := 4 * Z.of_nat (length (pre ++ H)) + 4 * (block_words b - 8) |>
                                      <| f_eof := false |>) |>)
                (f <| f_pos := 4 * Z.of_nat (length (pre ++ H)) + 4 * (block_words b - 8) |>
                   <| f_eof := false |>) (pre ++ H ++ concat b) (c + Z.of_nat (length b)) fuel)
      as (f' & Hr & Hn'); proj; try done; try lia.
    + rewrite !length_app. unfold block_words. lia.
    + rewrite Hc. apply u32_small. lia.
    + by rewrite Hfile, <- !app_assoc.
    + eexists. split; [|exact Hn']. etrans; [exact Hr|].
      apply (f_equal (λ a, Ret (None, a, w))). 
      assert (c + Z.of_nat (length (events (b :: bs))) =
              c + Z.of_nat (length b) + Z.of_nat (length (events bs))) as ->
        by (rewrite events_cons, length_app; lia). done.
Qed.

(** The number of events of a file that is being read is found by going over all its
    headers, and the place where the reader is in the file does not change: the same
    events are left to be read. *)
Theorem event_count_correct (fuel : nat) (a : EVFILE) (w : world) (name : list Z) (evs : list event)
    (num : Z) (rest bs : list block) :
  reading a w name evs num rest → a_eventCount a = 0 →
  w_files w !! name = Some (bytes_of (enc_file bs)) → Forall block_ok bs →
  Z.of_nat (length (events bs)) < 4294967296 → Z.of_nat (length bs) < 4294967295 →
  (length bs < fuel)%nat →
  ∃ a', getEventCount fuel a w = Ret (S_SUCCESS, Some (Z.of_nat (length (events bs))), a', w) ∧
        reading a' w name evs num rest.
Proof.
  intros Hr Hc Hfile Hok Hev Hbs Hfuel.
  pose proof Hr as [Hrd Hlast (f & pre & Hf & Hn & He & Hp & Hw) Hbuf Hleft Hsz Hevs Hbks Hnum].
  pose proof (rd_rw _ _ Hrd) as Hrw. unfold getEventCount. rewrite Hrw. cbn [orb].
  change ((EV_READFILE =? EV_WRITESOCK) || _ || _ || _) with false. cbn iota.
  rewrite (rd_random _ _ Hrd), Hc. change (0 <? 0) with false. cbn iota.
  change ((EV_READFILE =? EV_WRITEBUF) || _) with false. rewrite andb_false_r. cbn iota.
  change (EV_READFILE =? EV_READBUF) with false. cbn iota. rewrite Hf. step.
  change (snd (fseek f 0)) with (f <| f_pos := 0 |> <| f_eof := false |>).
  destruct (count_blocks_ok fuel (a <| a_file := Some (f <| f_pos := 0 |> <| f_eof := false |>) |>) w
              (f <| f_pos := 0 |> <| f_eof := false |>) name [] 1 bs 0)
    as (f' & Hcount & Hn'); try done; try lia; [by destruct Hrd|].
  rewrite Z.add_0_l in Hcount. rewrite Hcount. step. cbn iota. proj. step.
  assert (0 ≤ f_pos f) as Hpos by lia. unfold fseek. replace (f_pos f <? 0) with false by zcase.
  cbn [snd]. eexists. split; [reflexivity|]. split; proj; try done.
  - by destruct Hrd.
  - by exists (f' <| f_pos := f_pos f |> <| f_eof := false |>), pre.
Qed.

Lemma event_count_correct_witness :
  let words := enc_file [[[1; 0x10]; [1; 0x11]]; [[1; 0x12]]] in
  let a := structInit <| a_rw := EV_READFILE |> <| a_file := Some (mkFILE [1] 48 false false) |>
             <| a_buf := Ptr 1 0 |> <| a_next := Ptr 1 10 |> <| a_left := 2 |> <| a_bufSize := 12 |> in
  let w := World {[ 1 := take 12 words ]} 2 {[ [1] := bytes_of words ]} ∅ [] [] 0 in
  ∃ a', getEventCount 3 a w = Ret (S_SUCCESS, Some 3, a', w) ∧
        reading a' w [1] [[1; 0x11]] 2 [[[1; 0x12]]].
Proof.
  cbn zeta. set (bs := [[[1; 0x10]; [1; 0x11]]; [[1; 0x12]]]).
  apply (event_count_correct 3 _ _ [1] [[1; 0x11]] 2 [[[1; 0x12]]] bs).
  - split; try done; try lia.
    + eexists _, (enc_blocks 1 (take 1 bs)). by split_and!.
    + by exists (take 10 (enc_file bs)), [].
    + apply (bool_decide_unpack _). by vm_compute.
    + apply (bool_decide_unpack _). by vm_compute.
  - done.
  - done.
  - apply (bool_decide_unpack _). by vm_compute.
  - done.
  - done.
  - cbn. lia.
Defined.

(** ** Random access *)

(** The event [e] is at [p]. *)
Definition event_at (h : heap) (o : Z) (p : ptr) (e : event) : Prop :=
  ∃ pre post, h !! o = Some (pre ++ e ++ post) ∧ p = Ptr o (Z.of_nat (length pre)).

Lemma event_at_read h o p e :
  event_at h o p e → event_ok e →
  hread h p (Z.of_nat (length e)) = Ret e ∧ hget h p 0 = Ret (Z.of_nat (length e) - 1).
Proof.
  intros (pre & post & Ho & ->) (Hh & _). split; [by eapply hread_app|].
  apply (hget_app _ _ pre e post 0 _ Ho). by destruct e.
Qed.

(** The pointers of the events of a block are added to the table. *)
Lemma table_events_ok h o w pre evs post np tbl :
  h !! o = Some (pre ++ concat evs ++ post) → Forall event_ok evs → w_mem w = [] →
  Z.of_nat (length (pre ++ concat evs ++ post)) < 2305843009213693952 →
  ∃ ps np', table_events (length evs) h false w (Ptr o (Z.of_nat (length pre)))
      (4 * Z.of_nat (length (concat evs ++ post))) np tbl =
      Ret (None, Ptr o (Z.of_nat (length (pre ++ concat evs))), 4 * Z.of_nat (length post), np',
           tbl ++ ps, w) ∧ Forall2 (event_at h o) ps evs.
Proof.
  intros Ho Hev Hm. revert pre np tbl Ho. induction Hev as [|e evs He Hev IH]; intros pre np tbl Ho Hlen.
  - exists [], np. cbn. by rewrite !app_nil_r.
  - pose proof He as (Hh & _ & Hl & Hmax). cbn [concat] in Ho, Hlen |- *.
    rewrite <- !app_assoc in Ho, Hlen. cbn [length table_events].
    rewrite !length_app in Hlen.
    replace (_ <? 8) with false by (rewrite !length_app; zcase).
    assert (event_at h o (Ptr o (Z.of_nat (length pre))) e) as Hat by (by eexists pre, _).
    destruct (event_at_read _ _ _ _ Hat He) as [_ ->]. step.
    rewrite Z.sub_add, (u32_small (Z.of_nat (length e))), (u32_small (4 * _)) by lia.
    set (np1 := if np <=? _ then np + 10000 else np).
    assert (∀ b : bool, (if b then alloc_ok w else (true, w)) = (true, w)) as Hal
      by (intros []; [by apply alloc_ok_mem|done]). rewrite Hal. cbn [negb]. cbn iota.
    destruct (IH (pre ++ e) np1 (tbl ++ [Ptr o (Z.of_nat (length pre))])) as (ps & np' & Hr & Hps).
    { by rewrite <- app_assoc. }
    { rewrite !length_app. lia. }
    exists (Ptr o (Z.of_nat (length pre)) :: ps), np'. split; [|by constructor].
    unfold padd. proj. rewrite <- Nat2Z.inj_add, <- length_app.
    replace (u64 (_ - _)) with (4 * Z.of_nat (length (concat evs ++ post)))
      by (unfold u64; rewrite Z.mod_small; rewrite !length_app; lia).
    rewrite Hr. by rewrite <- !app_assoc.
Qed.

Lemma table_blocks_ok fuel h o w pre num bs np tbl first :
  h !! o = Some (pre ++ enc_rest num bs) → Forall block_ok bs → w_mem w = [] →
  Z.of_nat (length (pre ++ enc_rest num bs)) < 2305843009213693952 → (length bs < fuel)%nat →
  ∃ ps, table_blocks fuel h false w (Ptr o (Z.of_nat (length pre)))
      (4 * Z.of_nat (length (enc_rest num bs))) np tbl first = Ret (None, tbl ++ ps, w) ∧
    Forall2 (event_at h o) ps (events bs).
Proof.
  intros Ho Hok Hm. revert pre num np tbl fuel Ho.
  induction Hok as [|b bs (Hne & Hev & Hbw) Hok IH]; intros pre num np tbl fuel Ho Hlen Hfuel;
    (destruct fuel as [|fuel]; [cbn in Hfuel; lia|]); cbn [table_blocks].
  - assert (enc_rest num [] = last_header num ++ []) as Hrest
      by (unfold enc_rest; cbn [enc_blocks length app]; by rewrite Z.add_0_r, app_nil_r).
    rewrite Hrest in *.
    assert (∀ i v, last_header num !! i = Some v → hget h (Ptr o (Z.of_nat (length pre))) (Z.of_nat i) = Ret v)
      as Hget by (intros i v; by apply hget_app with (post := [])).
    change EV_HD_VER with (Z.of_nat 5). change EV_HD_HDSIZ with (Z.of_nat 2).
    change EV_HD_COUNT with (Z.of_nat 3).
    rewrite (Hget 5%nat last_ver), (Hget 2%nat 8), (Hget 3%nat 0) by done. step.
    change (hasDictionaryInt last_ver) with false. cbn [andb]. step.
    change (Z.to_nat (s32 0)) with O. cbn [table_events]. step.
    change (isLastBlockInt last_ver) with true. cbn iota. exists []. by rewrite app_nil_r.
  - rewrite enc_rest_cons in *. set (H := hdr (block_words b) num (Z.of_nat (length b)) EV_VERSION) in *.
    assert (∀ i v, H !! i = Some v → hget h (Ptr o (Z.of_nat (length pre))) (Z.of_nat i) = Ret v)
      as Hget by (intros i v; by eapply hget_app).
    change EV_HD_VER with (Z.of_nat 5). change EV_HD_HDSIZ with (Z.of_nat 2).
    change EV_HD_COUNT with (Z.of_nat 3).
    rewrite (Hget 5%nat EV_VERSION), (Hget 2%nat 8), (Hget 3%nat (Z.of_nat (length b))) by done. step.
    change (hasDictionaryInt EV_VERSION) with false. cbn [andb]. step.
    pose proof (events_short b Hev). pose proof (block_words_ge b). cbn [length] in Hfuel.
    assert (Z.to_nat (s32 (Z.of_nat (length b))) = length b) as ->.
    { unfold s32. rewrite u32_small by lia. replace (_ <? 2147483648) with true by zcase. lia. }
    rewrite !length_app in Hlen.
    assert (length H = 8%nat) as H8 by done.
    destruct (table_events_ok h o w (pre ++ H) b (enc_rest (num + 1) bs) np tbl) as (ps & np' & Hr & Hps);
      [by rewrite <- app_assoc|done|done|rewrite !length_app; lia|].
    unfold padd. proj. rewrite length_app, H8, Nat2Z.inj_add in Hr. change (Z.of_nat 8) with 8 in Hr.
    replace (u64 (_ - _)) with (4 * Z.of_nat (length (concat b ++ enc_rest (num + 1) bs))).
    2: { unfold u64. change (u32 (4 * 8)) with 32. rewrite Z.mod_small; rewrite !length_app; lia. }
    rewrite Hr. step. change (isLastBlockInt EV_VERSION) with false. cbn iota.
    destruct (IH ((pre ++ H) ++ concat b) (num + 1) np' (tbl ++ ps) fuel) as (ps' & Hr' & Hps').
    + by rewrite <- !app_assoc.
    + rewrite !length_app. lia.
    + lia.
    + rewrite Hr'. exists (ps ++ ps'). rewrite app_assoc. split; [done|]. by apply Forall2_app.
Qed.

Lemma u32_ok_enc_blocks num bs :
  Forall block_ok bs → 0 ≤ num → num + Z.of_nat (length bs) < 4294967296 →
  Forall u32_ok (enc_blocks num bs).
Proof.
  intros Hok. revert num. induction Hok as [|b bs Hb Hok IH]; intros num Hn Hmax; [constructor|].
  cbn [length enc_blocks] in *. apply Forall_app. split.
  - apply u32_ok_enc_block; [done|unfold u32_ok; lia|]. apply events_short. apply Hb.
  - apply IH; lia.
Qed.

Lemma u32_ok_enc_file bs :
  Forall block_ok bs → Z.of_nat (length bs) < 4294967290 → Forall u32_ok (enc_file bs).
Proof.
  intros Hok Hmax. apply Forall_app. split; [apply u32_ok_enc_blocks; [done|lia|lia]|].
  apply u32_ok_hdr; unfold u32_ok; try done; lia.
Qed.

(** A handle for random access: its table points to the events. *)
Definition random_access (L : lib) (w : world) (h : Z) (evs : list event) : Prop :=
  ∃ a o ps, slot L h (Some a) (RW 0 false) ∧ a_rw a = EV_READFILE ∧ a_version a = 4 ∧
    a_randomAccess a = true ∧ a_byte_swapped a = false ∧ a_lock a = false ∧
    a_pTable a = Some ps ∧ a_eventCount a = Z.of_nat (length ps) ∧ 0 < o ∧
    Forall2 (event_at (w_heap w) o) ps evs.

Lemma open_table fuel a w bs :
  a_randomAccess a = true → a_rw a = EV_READFILE → a_byte_swapped a = false → p_off (a_mmapFile a) = 0 →
  w_heap w !! p_obj (a_mmapFile a) = Some (enc_file bs) → w_mem w = [] →
  a_mmapFileSize a = 4 * Z.of_nat (length (enc_file bs)) → Forall block_ok bs →
  Z.of_nat (length (enc_file bs)) < 2305843009213693952 → (length bs < fuel)%nat →
  ∃ ps, generatePointerTable fuel a w =
          Ret (S_SUCCESS, a <| a_pTable := Some ps |> <| a_eventCount := Z.of_nat (length ps) |>, w) ∧
        Forall2 (event_at (w_heap w) (p_obj (a_mmapFile a))) ps (events bs).
Proof.
  intros Hrnd Hrw Hsw Hoff Ho Hm Hsize Hok Hlen Hfuel. unfold generatePointerTable.
  rewrite Hrnd. cbn [negb]. cbn iota. rewrite alloc_ok_mem by done.
  rewrite Hrw. change (EV_READFILE =? EV_READBUF) with false. cbn iota.
  destruct (a_mmapFile a) as [o off]. cbn [p_obj p_off] in *. subst off.
  destruct (table_blocks_ok fuel (w_heap w) o w [] 1 bs 10000 [] true) as (ps & Hr & Hps); [done..|].
  rewrite Hsw, Hsize. change (Ptr o 0) with (Ptr o (Z.of_nat (length (@nil Z)))).
  change (enc_file bs) with (enc_rest 1 bs). rewrite Hr. step. cbn [negb andb]. cbn iota.
  by exists ps.
Qed.

Lemma evOpen_random getenv fuel L w name bs :
  wf_lib L → no_faults w → plain_name name → bs ≠ [] → Forall block_ok bs →
  Z.of_nat (length bs) < 4294967290 → Z.of_nat (length (enc_file bs)) < 2305843009213693952 →
  (length bs < fuel)%nat → w_files w !! name = Some (bytes_of (enc_file bs)) →
  ∃ h L' w', evOpen getenv fuel L w (Some name) (cs "ra") true = Ret (S_SUCCESS, Some h, L', w') ∧
    random_access L' w' h (events bs).
Proof.
  intros HL Hw Hn Hne Hok Hbig Hsmall Hfuel Hfile. pose proof Hw as [Hmem Hio Hbrk].
  pose proof Hn as (Hp & Hd & Hdash & Hbar & Htrim & Hlen).
  unfold evOpen. change (strcaseeq (cs "ra") "w" || strcaseeq (cs "ra") "s" || strcaseeq (cs "ra") "r"
    || strcaseeq (cs "ra") "a" || strcaseeq (cs "ra") "ra") with true. cbn iota.
  unfold evOpenImpl. cbn [negb].
  change (parse_flags (cs "ra")) with (Some (OpenFlags UseFile true false false true)).
  cbn [o_medium o_reading s_name]. rewrite bool_decide_eq_false_2 by done. cbn iota.
  rewrite alloc_ok_mem by done. cbn [negb default]. cbn iota. unfold id. rewrite Htrim. step. cbn [default].
  unfold id. rewrite alloc_ok_mem by done. cbn [negb]. cbn iota.
  unfold open_reading, open_source. cbn [o_medium o_random].
  rewrite bool_decide_eq_false_2 by done.
  assert (is_pipe name = false) as ->.
  { destruct name as [|c name]; [done|]. cbn in Hbar |- *. apply Z.eqb_neq. congruence. }
  unfold memoryMapFile. rewrite Hfile. unfold halloc. rewrite Hmem. cbn [malloc_ok negb]. cbn iota.
  unfold is_null. proj. replace (w_brk w =? 0) with false by zcase. step.
  change (negb (S_SUCCESS =? S_SUCCESS)) with false. cbn iota. step. cbn iota. proj.
  rewrite words_of_bytes_of by (by apply u32_ok_enc_file).
  destruct bs as [|b bs]; [done|]. clear Hne.
  pose proof Hok as Hok0. apply Forall_cons_1 in Hok0 as [Hb Hok0]. pose proof Hb as (Hbne & Hev & Hbw).
  pose proof (events_short b Hev). pose proof (block_words_ge b).
  set (H1 := hdr (block_words b) 1 (Z.of_nat (length b)) EV_VERSION).
  assert (enc_file (b :: bs) = H1 ++ concat b ++ enc_rest 2 bs) as Henc by apply (enc_rest_cons 1).
  change EV_HDSIZ with (Z.of_nat (length H1)).
  rewrite (hread_start _ (Ptr (w_brk w) 0) H1 (concat b ++ enc_rest 2 bs)); proj;
    [|by rewrite lookup_insert_eq, Henc|done]. step. cbn iota beta.
  assert (u32_ok (block_words b) ∧ u32_ok (Z.of_nat (length b))) as [Hu1 Hu2] by (unfold u32_ok; lia).
  pose proof (check_header_ok _ 1 _ Hu1 ltac:(done) Hu2) as Hch. fold H1 in Hch. rewrite Hch. cbn iota beta.
  change (4 <? 4) with false. cbn iota.
  set (a0 := structInit <| a_rw := _ |> <| a_randomAccess := _ |> <| a_mmapFile := _ |>
               <| a_mmapFileSize := _ |> <| a_byte_swapped := _ |> <| a_version := _ |>).
  set (w1 := w <| w_mem := _ |> <| w_heap ::= _ |> <| w_brk ::= _ |> <| w_heap ::= _ |>).
  destruct (open_table fuel a0 w1 (b :: bs) eq_refl eq_refl eq_refl eq_refl) as (ps & Hr & Hps).
  { unfold w1. proj. by rewrite lookup_insert_eq. }
  { done. }
  { unfold a0. proj. rewrite length_bytes_of. lia. }
  { done. }
  { done. }
  { done. }
  rewrite Hr. step. change (negb (S_SUCCESS =? S_SUCCESS)) with false. cbn iota. cbn [andb]. cbn iota. step.
  destruct (register_handle_ok L w1 (a0 <| a_pTable := Some ps |> <| a_eventCount := Z.of_nat (length ps) |>
              <| a_blknum := 1 |>) HL eq_refl) as (h & L' & Hreg & Hslot & HL').
  change (a_blknum (a0 <| a_pTable := Some ps |> <| a_eventCount := Z.of_nat (length ps) |>)) with 1.
  rewrite Hreg. step. exists h, L', w1. split; [done|].
  eexists _, (w_brk w), ps. split; [exact Hslot|]. by split_and!.
Qed.

Lemma evReadRandom_at L w h evs i e :
  random_access L w h evs → Forall event_ok evs → Z.of_nat (length evs) < 4294967296 →
  evs !! i = Some e →
  ∃ p, evReadRandom L w h true (Z.of_nat i + 1) = Ret (S_SUCCESS, Some (p, Z.of_nat (length e)), L, w) ∧
       hread (w_heap w) p (Z.of_nat (length e)) = Ret e.
Proof.
  intros (a & o & ps & S & Hrw & Hv & Hrnd & Hsw & Hlk & Htb & Hcnt & Ho & Hps) Hev Hlen Hi.
  destruct (Forall2_lookup_r _ _ _ _ _ Hps Hi) as (p & Hp & Hat).
  pose proof (Forall_lookup_1 _ _ _ _ Hev Hi) as He. pose proof He as (_ & _ & Hl & Hmax).
  destruct (event_at_read _ _ _ _ Hat He) as [Hread Hget]. exists p. split; [|done].
  pose proof (lookup_lt_Some _ _ _ Hp) as Hlt. rewrite <- (Forall2_length Hps) in Hlen.
  unfold evReadRandom. cbn [negb]. rewrite (bad_handle_slot S).
  destruct (lock_for_read S) as [-> Hg]. step. rewrite Hg. step. cbn zeta.
  rewrite Hv, Hrw, Hrnd, Htb, Hcnt. change (4 <? 4) with false.
  change ((negb (EV_READFILE =? EV_READFILE) && _) || negb true) with false. cbn iota.
  replace (_ <? Z.of_nat i + 1) with false by zcase.
  rewrite Z.add_simpl_r, u32_small by lia.
  rewrite (aget_ok ps (Z.of_nat i) p) by (lia || by rewrite Nat2Z.id). step.
  assert (is_null p = false) as ->.
  { destruct Hat as (pre & post & _ & ->). unfold is_null. proj. apply Z.eqb_neq. lia. }
  unfold mutexLock. rewrite Hlk. step. rewrite Hget. step. proj. rewrite Hsw. step.
  leave_read S (mutexUnlock (a <| a_lock := true |>)).
  replace (u32 (Z.of_nat (length e) - 1 + 1)) with (Z.of_nat (length e)) by (rewrite u32_small; lia).
  assert (mutexUnlock (a <| a_lock := true |>) = a) as ->
    by (unfold mutexUnlock, update; destruct a; cbn in *; by rewrite Hlk).
  rewrite (put_handle_same S). by destruct w.
Qed.

(** C2: A file opened for random access gives its events in any order: event number [n] is
    the [n]th of those its blocks hold, found in place and whole; a number past the last
    one is refused.  Number 0, which the code does not exclude, reads the table out of its
    bounds. *)
Theorem random_access_correct (getenv : list Z → option (list Z)) (fuel : nat) (L : lib) (w : world)
    (name : list Z) (bs : list block) :
  wf_lib L → no_faults w → plain_name name → bs ≠ [] → Forall block_ok bs →
  Z.of_nat (length bs) < 4294967290 → Z.of_nat (length (enc_file bs)) < 2305843009213693952 →
  Z.of_nat (length (events bs)) < 4294967295 → (length bs < fuel)%nat →
  w_files w !! name = Some (bytes_of (enc_file bs)) →
  ∃ h L' w', evOpen getenv fuel L w (Some name) (cs "ra") true = Ret (S_SUCCESS, Some h, L', w') ∧
    (∀ i e, events bs !! i = Some e →
       ∃ p, evReadRandom L' w' h true (Z.of_nat i + 1) =
              Ret (S_SUCCESS, Some (p, Z.of_nat (length e)), L', w') ∧
            hread (w_heap w') p (Z.of_nat (length e)) = Ret e) ∧
    (∀ n, Z.of_nat (length (events bs)) < n →
       evReadRandom L' w' h true n = Ret (S_FAILURE, None, L', w')) ∧
    evReadRandom L' w' h true 0 = Undef.
Proof.
  intros HL Hw Hn Hne Hok Hbig Hsmall Hev Hfuel Hfile.
  destruct (evOpen_random getenv fuel L w name bs HL Hw Hn Hne Hok Hbig Hsmall Hfuel Hfile)
    as (h & L' & w' & Hop & HR).
  exists h, L', w'. split; [done|]. split.
  { intros i e Hi. apply (evReadRandom_at _ _ _ (events bs)); try done; [by apply events_ok|lia]. }
  destruct HR as (a & o & ps & S & Hrw & Hv & Hrnd & Hsw & Hlk & Htb & Hcnt & Ho & Hps).
  pose proof (Forall2_length Hps) as Hlen.
  assert (∀ n, evReadRandom L' w' h true n =
      if Z.of_nat (length ps) <? n then Ret (S_FAILURE, None, L', w')
      else evReadRandom L' w' h true n) as Hcase.
  { intros n. destruct (Z.of_nat (length ps) <? n) eqn:E; [|done].
    unfold evReadRandom. cbn [negb]. rewrite (bad_handle_slot S).
    destruct (lock_for_read S) as [-> Hg]. step. rewrite Hg. step. cbn zeta.
    rewrite Hv, Hrw, Hrnd, Htb, Hcnt. change (4 <? 4) with false.
    change ((negb (EV_READFILE =? EV_READFILE) && _) || negb true) with false. cbn iota. rewrite E.
    rewrite (handleReadUnlock_slot (slot_put_lock S _)). step. by rewrite (put_lock_same S). }
  split.
  - intros n Hgt. rewrite Hcase. by replace (_ <? n) with true by zcase.
  - unfold evReadRandom. cbn [negb]. rewrite (bad_handle_slot S).
    destruct (lock_for_read S) as [-> Hg]. step. rewrite Hg. step. cbn zeta.
    rewrite Hv, Hrw, Hrnd, Htb, Hcnt. change (4 <? 4) with false.
    change ((negb (EV_READFILE =? EV_READFILE) && _) || negb true) with false. cbn iota.
    replace (_ <? 0) with false by zcase. unfold aget.
    change (u32 (0 - 1)) with 4294967295. change (4294967295 <? 0) with false. cbn iota.
    by rewrite lookup_ge_None_2 by lia.
Qed.

Lemma random_access_correct_witness :
  let bs := [[[1; 0x10]; [2; 0x11; 5]]; [[1; 0x12]]] in
  let w := empty_world <| w_files := {[ cs "run.dat" := bytes_of (enc_file bs) ]} |> in
  ∃ h L' w', evOpen (λ _, None) 3 lib_start w (Some (cs "run.dat")) (cs "ra") true =
               Ret (S_SUCCESS, Some h, L', w') ∧
    (∀ i e, events bs !! i = Some e →
       ∃ p, evReadRandom L' w' h true (Z.of_nat i + 1) =
              Ret (S_SUCCESS, Some (p, Z.of_nat (length e)), L', w') ∧
            hread (w_heap w') p (Z.of_nat (length e)) = Ret e) ∧
    (∀ n, Z.of_nat (length (events bs)) < n →
       evReadRandom L' w' h true n = Ret (S_FAILURE, None, L', w')) ∧
    evReadRandom L' w' h true 0 = Undef.
Proof.
  cbn zeta. apply random_access_correct.
  - by apply wf_start.
  - by split.
  - exact plain_name_example.
  - discriminate.
  - apply (bool_decide_unpack _). vm_compute. exact I.
  - reflexivity.
  - reflexivity.
  - reflexivity.
  - cbn. lia.
  - reflexivity.
Defined.
