(* ===== verification/EvioTuning.v ===== *)
(** * A writer whose parameters are changed

    Control requests keep a file writer what it is: whatever sequence of writes and
    requests a client makes, the file has all the events, as long as the target size of
    blocks is not made smaller than the events.  When it is, the first event of a file can
    be lost. *)

From S2P Require Import Prelude Words CString Memory EvioFmt EvioSwapArrays EvioFmtSwap.
From S2P Require Import EvioSwap EvioTypes EvioNames EvioState EvioWrite EvioRead EvioOpen.
From S2P Require Import EvioControl EvioHandles EvioBlocks EvioClient EvioWriter EvioFlush.
From S2P Require Import EvioReader EvioSession.

(** ** Requests on the structure *)

Lemma writing_start M a w name FB BB :
  writing (Some M) a w name FB BB → a_blknum a = 1 →
  FB = [] ∧ BB = [] ∧ fresh a (w_heap w) 1.
Proof.
  intros [_ _ _ Hb _ _] H1. destruct (buffered_words _ _ _ _ Hb) as (_ & Hn & _).
  destruct FB; [|cbn in Hn; lia]. destruct BB; [|cbn in Hn; lia]. split_and!; try done.
  inversion Hb as [Hf|bs cur _ Heq]; [exact Hf|by destruct bs].
Qed.

(** Another buffer, or another size of it, with a last header in it. *)
Lemma writing_buffer M a w name w' b hd r s l t :
  writing (Some M) a w name [] [] → fresh a (w_heap w) 1 →
  p_off b = 0 → 0 < p_obj b < w_brk w' →
  (∃ tail, w_heap w' !! p_obj b = Some (last_header 1 ++ tail) ∧ Z.of_nat (length (last_header 1 ++ tail)) = r) →
  hd = Ptr (p_obj b) 0 → 16 ≤ s ≤ r → r < 1073741824 → 0 ≤ M ∧ M + 8 ≤ t ≤ EV_BLOCKSIZE_MAX →
  w_files w' = w_files w → w_mem w' = [] → w_io w' = [] →
  writing (Some M) (a <| a_buf := b |> <| a_currentHeader := hd |> <| a_bufRealSize := r |>
                      <| a_bufSize := s |> <| a_left := l |> <| a_blkSizeTarget := t |>
                      <| a_next := padd b EV_HDSIZ |>) w' name [] [].
Proof.
  intros [Hn Hc Hf _ _ _] [] Hoff Hobj (tail & Hw & Hlen) -> Hs Hr Ht Hfiles Hm Hio.
  split; [done| | | |exact Ht|done].
  - destruct Hc. by split.
  - inversion Hf; [|done]. by apply flushed_none.
  - apply buffered_fresh. split; try done.
    + split; [done|]. by exists tail.
    + unfold padd. proj. by rewrite Hoff.
Qed.

Lemma writing_params lim a w name FB BB m r t s :
  writing lim a w name FB BB → 0 < m → (FB = [] → 1 ≤ r < 2147483648) →
  writing lim (a <| a_blkEvMax := m |> <| a_runNumber := r |> <| a_runType := t |>
                 <| a_split := s |>) w name FB BB.
Proof.
  intros [Hn [] Hf Hb Hfit Hok] Hm Hr. split; try done.
  - destruct Hf; [apply flushed_none; auto|by eapply flushed_some].
  - destruct Hb as [[]|bs cur []]; constructor; by split.
Qed.

(** A buffer of the size asked for, with a last header. *)
Lemma replace_buffer_ok a w n :
  no_faults w → 16 ≤ n < 1073741824 → p_obj (a_buf a) ≠ w_brk w →
  ∃ w', replace_buffer a w n =
          Ret (S_SUCCESS, a <| a_buf := Ptr (w_brk w) 0 |> <| a_currentHeader := Ptr (w_brk w) 0 |>
                            <| a_bufRealSize := n |>, w') ∧
    no_faults w' ∧ w_files w' = w_files w ∧ w_brk w' = w_brk w + 1 ∧
    ∃ tail, w_heap w' !! w_brk w = Some (last_header 1 ++ tail) ∧
            Z.of_nat (length (last_header 1 ++ tail)) = n.
Proof.
  intros [Hm Hio Hbrk] Hn Hne. unfold replace_buffer, halloc, hfree. rewrite Hm. cbn [malloc_ok negb].
  rewrite (u32_small (4 * n)), (Z.mul_comm 4), Z.div_mul by lia. unfold is_null. proj.
  replace (w_brk w =? 0) with false by zcase.
  replace (Z.to_nat n) with (8 + Z.to_nat (n - 8))%nat by lia. rewrite replicate_add.
  set (tail := replicate (Z.to_nat (n - 8)) 0). unfold initLastBlockHeader.
  rewrite (hwrite_start _ (Ptr (w_brk w) 0) (replicate 8 0) tail); proj; [|
    by rewrite lookup_delete_ne, lookup_insert_eq by done|done|done]. step.
  eexists. split; [reflexivity|]. proj. split_and!; [by split; proj; try done; lia|done|done|].
  exists tail. rewrite lookup_insert_eq. split; [done|].
  rewrite length_app. unfold tail. rewrite length_replicate. cbn. lia.
Qed.

Definition keeps (a a' : EVFILE) : Prop :=
  a_lock a' = a_lock a ∧ a_randomAccess a' = a_randomAccess a.

(** A request that may be refused leaves the structure a writer with what it had. *)
Definition tuned (M : Z) (a : EVFILE) (w : world) (name : list Z) (FB BB : list block)
    (r : res (Z * ioctl_out * EVFILE * world)) : Prop :=
  ∃ st out a' w', r = Ret (st, out, a', w') ∧ writing (Some M) a' w' name FB BB ∧ keeps a a'.

Lemma tuned_same M a w name FB BB st out :
  writing (Some M) a w name FB BB → tuned M a w name FB BB (Ret (st, out, a, w)).
Proof. intros. by exists st, out, a, w. Qed.

Lemma may_resize_cases M a w name FB BB b :
  writing (Some M) a w name FB BB →
  may_resize a b = false ∨
  may_resize a b = true ∧ FB = [] ∧ BB = [] ∧ fresh a (w_heap w) 1.
Proof.
  intros Hw. unfold may_resize. rewrite (writing_rw _ _ _ _ _ _ Hw), (writing_append _ _ _ _ _ _ Hw).
  destruct (Z.eqb_spec (a_blknum a) 1) as [H1|H1]; [|by left].
  destruct (writing_start _ _ _ _ _ _ Hw H1) as (-> & -> & Hf). right. split; [|done].
  by rewrite (fs_count _ _ _ Hf).
Qed.

Lemma set_block_size_ok M a w name FB BB v :
  writing (Some M) a w name FB BB → u32_ok v → M + 8 ≤ v →
  tuned M a w name FB BB (set_block_size a w (ArgNum v)).
Proof.
  intros Hw Hv HM. unfold set_block_size.
  destruct (may_resize_cases M a w name FB BB true Hw) as [->|(-> & -> & -> & Hf)];
    [by apply tuned_same|]. cbn [negb arg_num]. step.
  destruct (v =? _); [by apply tuned_same|]. destruct (Z.ltb_spec v EV_BLOCKSIZE_MIN); [by apply tuned_same|].
  destruct (Z.ltb_spec EV_BLOCKSIZE_MAX v); [by apply tuned_same|]. unfold EV_BLOCKSIZE_MIN, EV_BLOCKSIZE_MAX in *.
  pose proof (wt_config _ _ _ _ _ _ Hw) as Hc. pose proof (cf_size _ _ Hc) as Hsz.
  pose proof (cf_obj _ _ Hc) as Hobj. destruct (fs_words _ _ _ Hf) as (Hoff & Htail).
  assert (0 ≤ M ∧ M + 8 ≤ v ≤ EV_BLOCKSIZE_MAX) as Hfit
    by (destruct (wt_fits _ _ _ _ _ _ Hw); unfold EV_BLOCKSIZE_MAX; lia).
  rewrite (u32_small (v + _)), (u32_small (v - _)) by (unfold EV_HDSIZ; lia). rewrite (cf_rw _ _ Hc).
  change (negb (EV_WRITEFILE =? EV_WRITEBUF)) with true. rewrite !andb_true_r.
  destruct (Z.ltb_spec (a_bufRealSize a) (v + EV_HDSIZ)) as [Hr|Hr].
  - destruct (replace_buffer_ok a w (v + EV_HDSIZ)) as (w' & -> & [] & Hfl & Hbrk & Hw');
      [split; (apply Hc || lia)|unfold EV_HDSIZ; lia|lia|]. step. cbn iota.
    eexists _, _, _, w'. split; [reflexivity|]. split; [|done].
    apply (writing_buffer M a w name w' (Ptr (w_brk w) 0)); try done; proj; unfold EV_HDSIZ in *; lia.
  - assert (∀ s, 16 ≤ s ≤ a_bufRealSize a → tuned M a w name [] [] (Ret (S_SUCCESS, OutNone,
      a <| a_bufSize := s |> <| a_left := v - EV_HDSIZ |> <| a_blkSizeTarget := v |>
        <| a_next := padd (a_buf a) EV_HDSIZ |>, w))) as Hdone.
    { intros s Hs. eexists _, _, _, w. split; [reflexivity|]. split; [|done].
      apply (writing_buffer M a w name w (a_buf a) (a_currentHeader a) (a_bufRealSize a) s);
        try done; (apply Hc || apply Hf || lia). }
    destruct (Z.ltb_spec (a_bufSize a) (v + EV_HDSIZ)) as [Hs|Hs]; step; cbn iota.
    + apply Hdone. unfold EV_HDSIZ in *. lia.
    + apply (Hdone (a_bufSize a)). lia.
Qed.

Lemma set_buffer_size_ok M a w name FB BB v :
  writing (Some M) a w name FB BB → u32_ok v →
  tuned M a w name FB BB (set_buffer_size a w (ArgNum v)).
Proof.
  intros Hw Hv. unfold set_buffer_size.
  destruct (may_resize_cases M a w name FB BB false Hw) as [->|(-> & -> & -> & Hf)];
    [by apply tuned_same|]. cbn [negb arg_num]. step. pose proof (wt_fits _ _ _ _ _ _ Hw) as Hfit.
  assert (u32_ok (a_blkSizeTarget a + 8)) as Hu
    by (destruct Hfit; unfold u32_ok, EV_BLOCKSIZE_MAX in *; lia). change EV_HDSIZ with 8.
  rewrite (u32_id (_ + 8) Hu). destruct (v =? _); [by apply tuned_same|].
  destruct (Z.ltb_spec v (a_blkSizeTarget a + 8)); [by apply tuned_same|].
  destruct (Z.ltb_spec (EV_BLOCKSIZE_MAX + 8) v); [by apply tuned_same|].
  pose proof (wt_config _ _ _ _ _ _ Hw) as Hc. pose proof (cf_size _ _ Hc) as Hsz.
  pose proof (cf_obj _ _ Hc) as Hobj. destruct (fs_words _ _ _ Hf) as (Hoff & Htail).
  rewrite (cf_rw _ _ Hc). change (negb (EV_WRITEFILE =? EV_WRITEBUF)) with true. rewrite andb_true_r.
  destruct (Z.ltb_spec (a_bufRealSize a) v) as [Hr|Hr].
  - destruct (replace_buffer_ok a w v) as (w' & -> & [] & Hfl & Hbrk & Hw');
      [split; (apply Hc || lia)|unfold EV_BLOCKSIZE_MAX in *; destruct Hfit; lia|lia|]. step. cbn iota.
    eexists _, _, _, w'. split; [reflexivity|]. split; [|done].
    apply (writing_buffer M a w name w' (Ptr (w_brk w) 0) (Ptr (w_brk w) 0) v v (u32 (v - 8))
             (a_blkSizeTarget a));
      try done; proj; unfold EV_BLOCKSIZE_MAX in *; destruct Hfit; lia.
  - step. cbn iota. eexists _, _, _, w. split; [reflexivity|]. split; [|done].
    apply (writing_buffer M a w name w (a_buf a) (a_currentHeader a) (a_bufRealSize a) v
             (u32 (v - 8)) (a_blkSizeTarget a)); try done; (apply Hc || apply Hf || (destruct Hfit; lia)).
Qed.

(** More of the heap is used, but not the buffer. *)
Lemma writing_heap lim a w w' name FB BB :
  writing lim a w name FB BB → w_heap w' !! p_obj (a_buf a) = w_heap w !! p_obj (a_buf a) →
  w_files w' = w_files w → w_mem w' = [] → w_io w' = [] → w_brk w ≤ w_brk w' →
  writing lim a w' name FB BB.
Proof.
  intros [Hn [] Hf Hb Hfit Hok] Hh Hfiles Hm Hio Hbrk. split; try done.
  - split; try done. lia.
  - destruct Hf; [by apply flushed_none|]. eapply flushed_some; try done. by rewrite Hfiles.
  - assert (∀ l, holds_words a (w_heap w) l → holds_words a (w_heap w') l) as Hw.
    { intros l (Ho & tail & Hl). split; [done|]. exists tail. by rewrite Hh. }
    destruct Hb as [[]|bs cur []]; constructor; split; auto.
Qed.

Lemma buffer_header a w name FB BB lim :
  writing lim a w name FB BB →
  ∃ l post, w_heap w !! p_obj (a_buf a) = Some (l ++ post) ∧ p_off (a_buf a) = 0 ∧ length l = 8%nat ∧
            ∃ v, l !! 5%nat = Some v.
Proof.
  intros Hw. destruct (buffered_words _ _ _ _ (wt_buffer _ _ _ _ _ _ Hw)) as ((Ho & tail & Hl & Hlen) & _).
  pose proof (cf_size _ _ (wt_config _ _ _ _ _ _ Hw)) as Hsz. set (m := _ ++ tail) in *.
  assert (length (take 8 m) = 8%nat) as H8 by (rewrite length_take; lia).
  exists (take 8 m), (drop 8 m). rewrite take_drop. split_and!; try done.
  destruct (lookup_lt_is_Some_2 (take 8 m) 5) as [v Hv]; [lia|]. by exists v.
Qed.

(** ** Requests of a client *)

Inductive tuning :=
| BlockSize (v : Z) | BufferSize (v : Z) | MaxEvents (v : Z) | RunNumber (v : Z)
| SplitSize (v : Z) | RunType (s : option (list Z)) | Version | Header | Count.

Definition request (t : tuning) : list Z * option ioctl_arg :=
  match t with
  | BlockSize v => (cs "B", Some (ArgNum v))
  | BufferSize v => (cs "W", Some (ArgNum v))
  | MaxEvents v => (cs "N", Some (ArgNum v))
  | RunNumber v => (cs "R", Some (ArgNum v))
  | SplitSize v => (cs "S", Some (ArgNum v))
  | RunType s => (cs "T", ArgText <$> s)
  | Version => (cs "V", Some ArgPlace)
  | Header => (cs "H", Some ArgPlace)
  | Count => (cs "E", Some ArgPlace)
  end.

(** The target size leaves room for events of [M] words, and run numbers are those of an
    [int]. *)
Definition tuning_ok (M : Z) (t : tuning) : Prop :=
  match t with
  | BlockSize v => u32_ok v ∧ M + 8 ≤ v
  | BufferSize v | MaxEvents v => u32_ok v
  | RunNumber v => 0 ≤ v < 2147483648
  | _ => True
  end.

#[export] Instance tuning_ok_dec M t : Decision (tuning_ok M t).
Proof. unfold tuning_ok, u32_ok. destruct t; apply _. Defined.

Lemma runs_number lim a w name FB BB :
  writing lim a w name FB BB → FB = [] → 1 ≤ a_runNumber a < 2147483648.
Proof. intros [_ _ Hf _ _ _] ->. by inversion Hf. Qed.

Lemma request_ok M fuel a w name FB BB t :
  writing (Some M) a w name FB BB → tuning_ok M t →
  tuned M a w name FB BB
    (ioctl_request fuel a w (default 0 (head (fst (request t)))) (snd (request t))).
Proof.
  intros Hw Ht. pose proof (wt_config _ _ _ _ _ _ Hw) as Hc. pose proof (cf_evMax _ _ Hc) as Hm.
  pose proof (runs_number _ _ _ _ _ _ Hw) as Hr.
  assert (∀ m r s n, 0 < m → (FB = [] → 1 ≤ r < 2147483648) → tuned M a w name FB BB
    (Ret (S_SUCCESS, OutNone, a <| a_blkEvMax := m |> <| a_runNumber := r |> <| a_runType := s |>
                                <| a_split := n |>, w))) as Hset.
  { intros m r s n Hm' Hr'. eexists _, _, _, w. split; [reflexivity|]. split; [|done].
    by apply writing_params. }
  destruct (buffer_header _ _ _ _ _ _ Hw) as (l & post & Hl & Hoff & H8 & v5 & Hv5).
  destruct t as [v|v|v|v|v|s| | |]; cbn [tuning_ok] in Ht.
  - change (ioctl_request _ _ _ _ _) with (set_block_size a w (ArgNum v)). destruct Ht. by apply set_block_size_ok.
  - change (ioctl_request _ _ _ _ _) with (set_buffer_size a w (ArgNum v)). by apply set_buffer_size_ok.
  - change (ioctl_request _ _ _ _ _) with (set_max_events a w (ArgNum v)).
    unfold set_max_events. cbn [arg_num]. step. destruct (Z.ltb_spec v 1); [by apply tuned_same|].
    apply (Hset _ (a_runNumber a) (a_runType a) (a_split a)); [|done].
    unfold EV_EVENTS_MAX. destruct (_ <? v); lia.
  - change (ioctl_request _ _ _ _ _) with (set_run_number a w (ArgNum v)).
    unfold set_run_number. cbn [arg_num]. step. destruct (Z.ltb_spec v 1); [by apply tuned_same|].
    apply (Hset (a_blkEvMax a) v (a_runType a) (a_split a)); [done|lia].
  - change (ioctl_request _ _ _ _ _) with (set_split_size a w (ArgNum v)).
    unfold set_split_size. cbn [arg_num]. step. cbn zeta. case_match; [by apply tuned_same|].
    by apply (Hset (a_blkEvMax a) (a_runNumber a) (a_runType a)).
  - change (ioctl_request _ _ _ _ _) with (set_run_type a w (ArgText <$> s)).
    destruct s as [s|]; cbn [fmap option_fmap option_map set_run_type].
    + rewrite alloc_ok_mem by apply Hc. cbn [negb].
      by apply (Hset (a_blkEvMax a) (a_runNumber a) (Some s) (a_split a)).
    + by apply (Hset (a_blkEvMax a) (a_runNumber a) None (a_split a)).
  - change (ioctl_request _ _ _ _ _) with (get_version a w). unfold get_version.
    destruct (a_buf a) as [o off] eqn:Eb. cbn in Hl, Hoff. subst off. change EV_HD_VER with (Z.of_nat 5).
    erewrite (hget_app _ o [] l post) by done. step. by apply tuned_same.
  - change (ioctl_request _ _ _ _ _) with (get_header a w). unfold get_header, halloc.
    rewrite (cf_mem _ _ Hc). cbn [malloc_ok negb]. unfold is_null. proj.
    pose proof (cf_obj _ _ Hc) as Hobj. replace (w_brk w =? 0) with false by zcase.
    change EV_HDSIZ with (Z.of_nat 8). rewrite <- H8 at 2.
    rewrite (hread_start _ _ l post); [|proj; by rewrite lookup_insert_ne by lia|done]. step.
    change (Z.to_nat (Z.of_nat 8)) with 8%nat. rewrite <- (app_nil_r (replicate 8 0)).
    rewrite (hwrite_start _ (Ptr (w_brk w) 0) (replicate 8 0) []); proj;
      [|by rewrite lookup_insert_eq|done|by rewrite length_replicate]. step.
    eexists _, _, _, _. split; [reflexivity|]. split; [|done].
    apply (writing_heap _ _ w); try done; proj; [|apply Hc|lia].
    by rewrite !lookup_insert_ne by lia.
  - change (ioctl_request _ _ _ _ _) with (get_event_count fuel a w). unfold get_event_count, getEventCount.
    rewrite (cf_rw _ _ Hc), (cf_append _ _ Hc). 
    change ((EV_WRITEFILE =? EV_WRITESOCK) || _ || _ || _) with false. cbn iota.
    change ((0 =? 0) && _) with true. cbn iota.
    destruct (a_randomAccess a); [|destruct (0 <? a_eventCount a)]; step; by apply tuned_same.
Qed.

(** The write lock of a place, taken and given back around a change of its structure. *)
Lemma leave_write L h a k a' :
  slot L h (Some a) k → k = RW 0 false →
  (L1 ← set_handle (put_lock L h (RW 0 true)) h (Some a'); handleWriteUnlock L1 h) =
  Ret (put_handle L h (Some a')).
Proof.
  intros S ->. pose proof (slot_put_lock S (RW 0 true)) as S1. rewrite (set_handle_slot S1). step.
  rewrite (handleWriteUnlock_slot (slot_put_handle S1 _)). f_equal. apply (put_lock_back S).
Qed.

Lemma evIoctl_tuning M fuel L w h name evs t :
  writes_file (Some M) L w h name evs → tuning_ok M t →
  ∃ st out L' w', evIoctl fuel L w h (Some (fst (request t))) (snd (request t)) =
                    Ret (st, out, L', w') ∧ writes_file (Some M) L' w' h name evs.
Proof.
  intros (HL & a & FB & BB & S & Hlk & Hrnd & Hwr & Hev & Hlen) Ht.
  unfold evIoctl. rewrite (bad_handle_slot S), (handleWriteLock_slot S eq_refl). step.
  rewrite (get_handle_slot (slot_put_lock S _)). step.
  destruct (request_ok M fuel a w name FB BB t Hwr Ht) as (st & out & a' & w' & -> & Hwr' & Hk1 & Hk2).
  step. pose proof (leave_write L h a _ a' S eq_refl) as Hl.
  apply res_bind_ret in Hl as (L1 & -> & Hl). step. rewrite Hl. step.
  eexists _, _, _, _. split; [done|]. split; [by eapply wf_put_handle|].
  exists a', FB, BB. split; [exact (slot_put_handle S _)|]. split_and!; congruence || done.
Qed.

(** ** Sessions *)

Inductive writer_call := Put (e : event) | Tune (t : tuning).

Definition call_within (M : Z) (c : writer_call) : Prop :=
  match c with Put e => event_ok e ∧ Z.of_nat (length e) ≤ M | Tune t => tuning_ok M t end.

#[export] Instance call_within_dec M c : Decision (call_within M c).
Proof. destruct c; apply _. Defined.

Definition puts (cs : list writer_call) : list event :=
  omap (λ c, match c with Put e => Some e | Tune _ => None end) cs.

(** The calls one after the other; the statuses of the writes. *)
Fixpoint write_calls (fuel : nat) (L : lib) (w : world) (h : Z) (cs : list writer_call)
  : res (list Z * lib * world) :=
  match cs with
  | [] => Ret ([], L, w)
  | Put e :: cs =>
      '(status, L, w) ← evWrite L w h (Some e);
      '(l, L, w) ← write_calls fuel L w h cs;
      Ret (status :: l, L, w)
  | Tune t :: cs =>
      '(_, _, L, w) ← evIoctl fuel L w h (Some (fst (request t))) (snd (request t));
      write_calls fuel L w h cs
  end.

Definition tuned_session (getenv : list Z → option (list Z)) (fuel : nat) (L : lib) (w : world)
    (name : list Z) (cs : list writer_call) : res (Z * list Z * Z * lib * world) :=
  '(opened, h, L, w) ← evOpen getenv fuel L w (Some name) (CString.cs "w") true;
  '(written, L, w) ← write_calls fuel L w (default 0 h) cs;
  '(closed, L, w) ← evClose L w (default 0 h);
  Ret (opened, written, closed, L, w).

Lemma write_calls_ok M fuel L w h name evs cs :
  writes_file (Some M) L w h name evs → Forall (call_within M) cs →
  Z.of_nat (length evs) + Z.of_nat (length (puts cs)) ≤ max_events →
  ∃ L' w', write_calls fuel L w h cs = Ret (map (λ _, S_SUCCESS) (puts cs), L', w') ∧
           writes_file (Some M) L' w' h name (evs ++ puts cs).
Proof.
  intros HW Hcs. revert L w evs HW. induction Hcs as [|c cs Hc _ IH]; intros L w evs HW Hmax.
  { exists L, w. by rewrite app_nil_r. }
  destruct c as [e|t]; cbn [write_calls puts omap list_omap] in *; fold (puts cs) in *.
  - destruct Hc as [He Hle]. cbn [length] in Hmax. unfold max_events in *.
    destruct (evWrite_file (Some M) L w h name evs e HW He Hle ltac:(lia)) as (L1 & w1 & -> & HW1). step.
    destruct (IH L1 w1 _ HW1) as (L2 & w2 & -> & HW2); [rewrite length_app; cbn; lia|].
    exists L2, w2. by rewrite <- app_assoc in HW2.
  - destruct (evIoctl_tuning M fuel L w h name evs t HW Hc) as (st & out & L1 & w1 & -> & HW1). step.
    apply (IH L1 w1 _ HW1 Hmax).
Qed.



Definition some_requests : list writer_call :=
  [Tune (BlockSize 512); Tune (BufferSize 4096); Tune (RunNumber 7); Put [1; 0x10]; Tune (MaxEvents 1);
   Tune Count; Put [3; 0x20; 7; 4294967295]; Tune (BlockSize 1024); Tune (RunType (Some (cs "cosmic")));
   Put [2; 0; 5]; Tune Header].


(** ** Blocks made smaller *)

(** All the statuses of a session and of reading its file again. *)
Definition write_and_read (getenv : list Z → option (list Z)) (fuel : nat) (L : lib) (w : world)
    (name : list Z) (cs : list writer_call) (rcs : list read_call)
  : res (Z * list Z * Z * (Z * list (Z * event) * Z)) :=
  '(opened, written, closed, L, w) ← tuned_session getenv fuel L w name cs;
  '(opened', l, last, L, w) ← read_session getenv fuel L w name rcs;
  Ret (opened, written, closed, (opened', l, last)).

(** 300 words. *)
Definition long_event : event := 299 :: replicate 299 7.

(** The first event of a file is lost when it is longer than the size blocks were set
    to: every call succeeds, but the event is written after a block that is marked as the
    last one, and reading the file gives its end at once.  Without the request, or with an
    event before, it is read back. *)
Theorem long_first_event_lost :
  write_and_read (λ _, None) 2 lib_start empty_world (cs "run.dat")
    [Tune (BlockSize 256); Put long_event] [] =
    Ret (S_SUCCESS, [S_SUCCESS], S_SUCCESS, (S_SUCCESS, [], EOF)) ∧
  write_and_read (λ _, None) 2 lib_start empty_world (cs "run.dat") [Put long_event] [Copy 300] =
    Ret (S_SUCCESS, [S_SUCCESS], S_SUCCESS, (S_SUCCESS, [(S_SUCCESS, long_event)], EOF)) ∧
  write_and_read (λ _, None) 2 lib_start empty_world (cs "run.dat")
    [Tune (BlockSize 256); Put [1; 2]; Put long_event] [Copy 3; Copy 300] =
    Ret (S_SUCCESS, [S_SUCCESS; S_SUCCESS], S_SUCCESS,
         (S_SUCCESS, [(S_SUCCESS, [1; 2]); (S_SUCCESS, long_event)], EOF)).
Proof. split_and!; vm_compute; reflexivity. Qed.
