(* ===== verification/EvioRequests.v ===== *)
(** * What control requests, dictionaries and first events do

    Each request of [evIoctl], answered on every branch; the locks the functions of
    EvioControl give back; and the block [evCreateFirstEventBlock] makes, which is never
    right. *)

From S2P Require Import Prelude Words CString Memory EvioFmt EvioSwapArrays EvioFmtSwap.
From S2P Require Import EvioSwap EvioTypes EvioNames EvioState EvioWrite EvioRead EvioOpen.
From S2P Require Import EvioControl EvioHandles EvioBlocks EvioWriter EvioLocks.

(** ** Requests *)

Lemma evIoctl_run fuel L w h a k c rest argp :
  slot L h (Some a) k → k = RW 0 false →
  evIoctl fuel L w h (Some (c :: rest)) argp =
  ('(status, out, a', w') ← ioctl_request fuel a w c argp;
   Ret (status, out, put_handle L h (Some a'), w')).
Proof.
  intros S ->. unfold evIoctl. rewrite (bad_handle_slot S), (handleWriteLock_slot S eq_refl). step.
  rewrite (get_handle_slot (slot_put_lock S _)). step. cbn [default head]. unfold id.
  destruct (ioctl_request fuel a w c argp) as [[[[st out] a'] w']| | |]; [step|done..].
  pose proof (slot_put_lock S (RW 0 true)) as S1. rewrite (set_handle_slot S1). step.
  rewrite (handleWriteUnlock_slot (slot_put_handle S1 _)). step.
  by rewrite (put_lock_back S).
Qed.

(** What a request does to the handle [h] whose structure is [a]. *)
Definition answers (fuel : nat) (L : lib) (w : world) (h : Z) (letters : list ascii) (argp : option ioctl_arg)
    (status : Z) (a' : EVFILE) : Prop :=
  ∀ c rest, In c (map chr letters) →
    evIoctl fuel L w h (Some (c :: rest)) argp = Ret (status, OutNone, put_handle L h (Some a'), w).

Lemma answers_run fuel L w h a letters argp status a' :
  slot L h (Some a) (RW 0 false) →
  (∀ c, In c (map chr letters) → ioctl_request fuel a w c argp = Ret (status, OutNone, a', w)) →
  answers fuel L w h letters argp status a'.
Proof. intros S H c rest Hc. rewrite (evIoctl_run _ _ _ _ _ _ c rest argp S eq_refl), (H c Hc). done. Qed.

(** For each case of the letter the request is [f]. *)
Ltac letter S f :=
  eapply (answers_run _ _ _ _ _ _ _ _ _ S);
  let c := fresh "c" in let Hc := fresh "Hc" in
  intros c Hc; cbn [map In] in Hc; destruct_or! Hc; subst c;
  change (ioctl_request _ _ _ _ _) with f.

Lemma clamp (m v : Z) : (if m <? v then m else v) = Z.min v m.
Proof. destruct (Z.ltb_spec m v); lia. Qed.



(** ** Locks *)

Lemma put_handle_put L h a b : put_handle (put_handle L h a) h b = put_handle L h b.
Proof.
  unfold put_handle, update. cbn. destruct (l_handleList L) as [l|]; cbn; [|done].
  by rewrite list_insert_insert_eq.
Qed.

Lemma lock_replace_buffer a w n st a' w' : replace_buffer a w n = Ret (st, a', w') → a_lock a' = a_lock a.
Proof. same_lock replace_buffer. Qed.
#[local] Hint Resolve lock_replace_buffer : lock.

Lemma lock_set_block_size a w p st out a' w' :
  set_block_size a w p = Ret (st, out, a', w') → a_lock a' = a_lock a.
Proof. same_lock set_block_size. Qed.

Lemma lock_set_buffer_size a w p st out a' w' :
  set_buffer_size a w p = Ret (st, out, a', w') → a_lock a' = a_lock a.
Proof. same_lock set_buffer_size. Qed.

Lemma lock_count_blocks fuel a w n st a' w' :
  count_blocks fuel a w n = Ret (st, a', w') → a_lock a' = a_lock a.
Proof.
  revert a w n. induction fuel as [|fuel IH]; intros a w n; cbn [count_blocks]; [done|].
  intros H. cbn zeta in H. inv_res H; try done; chain. all: etrans; [eapply IH; eassumption|]; chain.
Qed.
#[local] Hint Resolve lock_count_blocks : lock.

Lemma lock_getEventCount fuel a w st n a' w' :
  getEventCount fuel a w = Ret (st, n, a', w') → a_lock a' = a_lock a.
Proof. same_lock getEventCount. Qed.
#[local] Hint Resolve lock_set_block_size lock_set_buffer_size lock_getEventCount : lock.

Lemma lock_ioctl_request fuel a w c p st out a' w' :
  ioctl_request fuel a w c p = Ret (st, out, a', w') → a_lock a' = a_lock a.
Proof.
  intros H. unfold ioctl_request, get_version, get_header, set_max_events, set_split_size,
    set_run_number, set_run_type, get_event_count in H. cbn zeta in H. inv_res H; chain.
Qed.

Lemma lock_evWriteDictImpl a w st a' w' : evWriteDictImpl a w = Ret (st, a', w') → a_lock a' = a_lock a.
Proof. same_lock evWriteDictImpl. Qed.
#[local] Hint Resolve lock_evWriteDictImpl : lock.

Section released.
Context {L : lib} {h : Z} {a : EVFILE} {k : rwlock} (S : slot L h (Some a) k).
Context (Hk : rw_writer k = false) (Ha : a_lock a = false).

Lemma released_evGetRandomAccessTable p st r L' :
  evGetRandomAccessTable L h p = Ret (st, r, L') → released L h L'.
Proof.
  unfold evGetRandomAccessTable. rewrite (bad_handle_slot S). intros H.
  apply (enter_read S Hk) in H. cbn zeta in H. inv_res H; by eapply (released_same S Hk).
Qed.

Lemma released_evGetDictionary w p st r L' w' :
  evGetDictionary L w h p = Ret (st, r, L', w') → released L h L'.
Proof.
  unfold evGetDictionary. rewrite (bad_handle_slot S). intros H.
  apply (enter_read S Hk) in H. cbn zeta in H. inv_res H; try (by eapply (released_same S Hk)).
  all: eapply (released_put S Hk); eauto.
Qed.

Lemma released_evWriteDictionary w xml st L' w' :
  evWriteDictionary L w h xml = Ret (st, L', w') → released L h L'.
Proof.
  unfold evWriteDictionary. rewrite (bad_handle_slot S). intros H.
  apply (enter_read S Hk) in H. inv_res H; try (by eapply (released_same S Hk)).
  all: eapply (released_put S Hk); eauto.
Qed.

(** Writing through a handle whose mutex the caller holds. *)
Lemma evWriteImpl_nested L2 a2 k2 w b st L3 w' :
  slot L2 h (Some a2) k2 → evWriteImpl L2 w h b false = Ret (st, L3, w') →
  ∃ a3, L3 = put_handle L2 h (Some a3).
Proof.
  intros S2. unfold evWriteImpl. rewrite (bad_handle_slot S2). destruct b as [b|].
  - cbn iota. step. rewrite (get_handle_slot S2). step. cbn iota. intros H. inv_res H.
    1,2: exists a2; by rewrite (put_handle_same S2).
    rewrite (set_handle_slot S2) in *. simplify_eq. by eexists.
  - intros [= <- <- <-]. exists a2. by rewrite (put_handle_same S2).
Qed.

Lemma released_evWriteFirstEvent w b st L' w' :
  evWriteFirstEvent L w h b = Ret (st, L', w') → released L h L'.
Proof.
  unfold evWriteFirstEvent. rewrite (bad_handle_slot S). intros H.
  apply (enter_read S Hk) in H. cbn zeta in H. inv_res H; try (by eapply (released_same S Hk)).
  all: try by eapply (released_put S Hk).
  pose proof (slot_put_lock S (RW (rw_readers k + 1) false)) as S1.
  match goal with H : set_handle _ _ (Some x2) = _ |- _ =>
    rewrite (set_handle_slot S1) in H; injection H as <- end.
  pose proof (slot_put_handle S1 (Some x2)) as S2.
  match goal with H : evWriteImpl _ _ _ _ _ = _ |- _ =>
    apply (evWriteImpl_nested _ _ _ _ _ _ _ _ S2) in H as (a3 & ->) end.
  pose proof (slot_put_handle S2 (Some a3)) as S3.
  match goal with H : set_handle _ _ _ = _ |- _ =>
    rewrite (set_handle_slot S3), !put_handle_put in H; injection H as <- end.
  eapply (released_put S Hk); [by rewrite (set_handle_slot S1)|eassumption|done].
Qed.

Lemma released_evIoctl fuel w request argp st out L' w' :
  k = RW 0 false → evIoctl fuel L w h request argp = Ret (st, out, L', w') → released L h L'.
Proof.
  intros -> H. unfold evIoctl in H. rewrite (bad_handle_slot S), (handleWriteLock_slot S eq_refl) in H.
  cbn [mbind res_bind] in H. pose proof (slot_put_lock S (RW 0 true)) as S1.
  rewrite (get_handle_slot S1) in H. cbn [mbind res_bind] in H. inv_res H.
  - match goal with H : set_handle _ _ _ = _ |- _ => rewrite (set_handle_slot S1) in H; injection H as <- end.
    match goal with H : handleWriteUnlock _ _ = _ |- _ =>
      rewrite (handleWriteUnlock_slot (slot_put_handle S1 _)) in H; injection H as <- end.
    right. eexists. split; [apply (put_lock_back S)|].
    match goal with H : ioctl_request _ _ _ _ _ = _ |- _ => by rewrite (lock_ioctl_request _ _ _ _ _ _ _ _ _ H) end.
  - match goal with H : handleWriteUnlock _ _ = _ |- _ =>
      rewrite (handleWriteUnlock_slot S1) in H; injection H as <- end.
    left. apply (put_lock_same S).
Qed.
End released.

(** The functions for requests, dictionaries, first events and the table of pointers
    give back the lock of the place of an open handle and the mutex of its structure,
    whatever they return. *)
Theorem requests_release_locks (fuel : nat) (L : lib) (w : world) (h : Z) (a : EVFILE)
    (request text event : option (list Z)) (argp : option ioctl_arg) (ptrs : bool) :
  slot L h (Some a) (RW 0 false) → a_lock a = false →
  (∀ st out L' w', evIoctl fuel L w h request argp = Ret (st, out, L', w') → released L h L') ∧
  (∀ st r L' w', evGetDictionary L w h ptrs = Ret (st, r, L', w') → released L h L') ∧
  (∀ st r L', evGetRandomAccessTable L h ptrs = Ret (st, r, L') → released L h L') ∧
  (∀ st L' w', evWriteDictionary L w h text = Ret (st, L', w') → released L h L') ∧
  (∀ st L' w', evWriteFirstEvent L w h event = Ret (st, L', w') → released L h L').
Proof.
  intros S Ha. split_and!; intros *.
  - by eapply released_evIoctl.
  - by eapply released_evGetDictionary.
  - by eapply released_evGetRandomAccessTable.
  - by eapply released_evWriteDictionary.
  - by eapply released_evWriteFirstEvent.
Qed.

Lemma requests_release_locks_witness :
  let L := table [Some structInit] [RW 0 false] false in
  let w := World ∅ 1 ∅ ∅ [] [] 0 in
  slot L 1 (Some structInit) (RW 0 false) ∧
  (∀ st out L' w', evIoctl 1 L w 1 (Some (cs "R")) (Some (ArgNum 3)) = Ret (st, out, L', w') → released L 1 L') ∧
  (∀ st r L' w', evGetDictionary L w 1 true = Ret (st, r, L', w') → released L 1 L') ∧
  (∀ st r L', evGetRandomAccessTable L 1 true = Ret (st, r, L') → released L 1 L') ∧
  (∀ st L' w', evWriteDictionary L w 1 (Some (cs "<a>")) = Ret (st, L', w') → released L 1 L') ∧
  (∀ st L' w', evWriteFirstEvent L w 1 (Some [1; 2]) = Ret (st, L', w') → released L 1 L').
Proof.
  cbn zeta.
  assert (slot (table [Some structInit] [RW 0 false] false) 1 (Some structInit) (RW 0 false)) as S
    by (split; [cbn; lia|by eexists|by eexists]).
  split; [exact S|].
  exact (requests_release_locks 1 _ (World ∅ 1 ∅ ∅ [] [] 0) 1 structInit (Some (cs "R")) (Some (cs "<a>"))
           (Some [1; 2]) (Some (ArgNum 3)) true S eq_refl).
Defined.

(** ** First event blocks *)

Lemma hwrite_ret h p l h' :
  hwrite h p l = Ret h' →
  ∃ m m', h !! p_obj p = Some m ∧ h' !! p_obj p = Some m' ∧ length m' = length m ∧
          p_off p + Z.of_nat (length l) ≤ Z.of_nat (length m).
Proof.
  unfold hwrite. destruct (h !! p_obj p) as [m|] eqn:Hm; [|done]. cbn [of_option mbind res_bind].
  destruct (Z.leb_spec 0 (p_off p)), (Z.leb_spec (p_off p + Z.of_nat (length l)) (Z.of_nat (length m)));
    try done. cbn [andb]. intros [= <-]. eexists m, _. rewrite lookup_insert_eq. split_and!; [done..| |done].
  rewrite !length_app, length_take, length_drop. lia.
Qed.

Lemma hwrite_cases h p l : hwrite h p l = Undef ∨ ∃ h', hwrite h p l = Ret h'.
Proof.
  unfold hwrite. destruct (h !! p_obj p); [cbn|by left]. case_match; [right; by eexists|by left].
Qed.

(** A block for a first event is never made: the number of words copied after the
    header of the block is that of the whole block, so that the copy ends past the memory
    that was allocated for it, whatever the event and the byte order.  The only result is
    the report that there was no memory. *)
Theorem first_event_block_overruns (w : world) (e : list Z) (localEndian : bool) :
  e ≠ [] → 0 < w_brk w →
  (w_mem w = [] → evCreateFirstEventBlock w (Some e) localEndian true = Undef) ∧
  ∀ st block w', evCreateFirstEventBlock w (Some e) localEndian true = Ret (st, block, w') →
                 st = S_EVFILE_ALLOCFAIL ∧ block = None.
Proof.
  intros He Hbrk. unfold evCreateFirstEventBlock, first_word. destruct e as [|e0 e]; [done|].
  cbn [negb head of_option mbind res_bind]. set (bw := u32 (_ + 8)). set (n := u32 (4 * bw) / 4).
  set (header := if localEndian then _ else _). set (ev := e0 :: e) in *.
  assert (∀ (w : world) h p, h !! p_obj p = Some (replicate (Z.to_nat n) 0) → p_off p = 0 →
    (h ← hwrite h p header;
     if Z.of_nat (length ev) <? Z.of_nat (Z.to_nat n) then Undef else
     h ← hwrite h (padd p 8) (take (Z.to_nat n) ev);
     Ret (S_SUCCESS, Some (p, bw), w <| w_heap := h |>)) = (Undef : res (Z * _ * world))) as Hun.
  { intros w0 h p Hp H0. destruct (hwrite_cases h p header) as [->|[h' Hh]]; [done|]. rewrite Hh. step.
    destruct (Z.ltb_spec (Z.of_nat (length ev)) (Z.of_nat (Z.to_nat n))) as [|Hn]; [done|].
    apply hwrite_ret in Hh as (m & m' & Hm & Hm' & Hl & _). rewrite Hp in Hm. injection Hm as <-.
    rewrite length_replicate in Hl. unfold hwrite. change (p_obj (padd p 8)) with (p_obj p). rewrite Hm'. step.
    change (p_off (padd p 8)) with (p_off p + 8). rewrite length_take, Hl, H0.
    replace (_ <=? Z.of_nat (Z.to_nat n)) with false by (symmetry; apply Z.leb_gt; lia).
    by rewrite andb_false_r. }
  unfold halloc. destruct (malloc_ok (w_mem w)) as [[|] o] eqn:Ho; cbn [negb fst snd].
  - unfold is_null. proj. replace (w_brk w =? 0) with false by zcase.
    rewrite Hun by (proj; by rewrite ?lookup_insert_eq). by split.
  - cbn. split; [intros Hm; by rewrite Hm in Ho|]. by intros st block w' [= <- <- _].
Qed.

Lemma first_event_block_overruns_witness :
  evCreateFirstEventBlock (World ∅ 1 ∅ ∅ [] [] 0) (Some (2 :: replicate 40 5)) true true = Undef.
Proof. apply (first_event_block_overruns (World ∅ 1 ∅ ∅ [] [] 0) (2 :: replicate 40 5) true); done. Defined.
