(* ===== verification/EtTypes.v ===== *)
(** * The ET system: events, lists and stations (et-16.1: et.h, et_private.h, et_init.c)

    An ET system keeps a fixed number of events in shared memory.  Each event is in one
    list of one station, or belongs to the attachment that took it, or is being moved by
    the thread of a station.  The memory of events is a finite map from their places in
    the array [id->events]; a pointer to an event is its place, [None] is NULL.  The
    pointers of user processes differ from those of the system by a constant, which the
    macros ET_PEVENT2USR and ET_PEVENT2ET add and take away: both stand for the place. *)

From S2P Require Import Prelude Words.

(** ** Constants *)

Definition ET_STATION_SELECT_INTS : Z := 6.
Definition ET_GRANDCENTRAL : nat := 0.

Definition ET_STATION_UNUSED : Z := 0.
Definition ET_STATION_CREATING : Z := 1.
Definition ET_STATION_IDLE : Z := 2.
Definition ET_STATION_ACTIVE : Z := 3.

Definition ET_STATION_USER_MULTI : Z := 0.
Definition ET_STATION_NONBLOCKING : Z := 0.
Definition ET_STATION_BLOCKING : Z := 1.

Definition ET_STATION_SELECT_ALL : Z := 1.
Definition ET_STATION_SELECT_MATCH : Z := 2.
Definition ET_STATION_SELECT_USER : Z := 3.
Definition ET_STATION_SELECT_RROBIN : Z := 4.
Definition ET_STATION_SELECT_EQUALCUE : Z := 5.

Definition ET_STATION_RESTORE_OUT : Z := 0.
Definition ET_STATION_RESTORE_IN : Z := 1.
Definition ET_STATION_RESTORE_GC : Z := 2.
Definition ET_STATION_RESTORE_REDIST : Z := 3.

Definition ET_STATION_SERIAL : Z := 0.
Definition ET_STATION_PARALLEL : Z := 1.

Definition ET_OK : Z := 0.
Definition ET_ERROR : Z := -1.
Definition ET_ERROR_TOOMANY : Z := -2.
Definition ET_ERROR_EXISTS : Z := -3.
Definition ET_ERROR_WAKEUP : Z := -4.
Definition ET_ERROR_TIMEOUT : Z := -5.
Definition ET_ERROR_EMPTY : Z := -6.
Definition ET_ERROR_BUSY : Z := -7.
Definition ET_ERROR_DEAD : Z := -8.
Definition ET_ERROR_CLOSED : Z := -18.

Definition ET_LOW : Z := 0.
Definition ET_HIGH : Z := 1.
Definition ET_SYS : Z := -1.
Definition ET_END : Z := -1.
Definition ET_NEWHEAD : Z := -2.
Definition ET_EVENT_TEMP : Z := 1.
Definition ET_EVENT_NORMAL : Z := 0.
Definition ET_EVENT_NEW : Z := 1.
Definition ET_EVENT_USED : Z := 0.
Definition ET_SLEEP : Z := 0.
Definition ET_TIMED : Z := 1.
Definition ET_ASYNC : Z := 2.
Definition ET_WAIT_MASK : Z := 3.
Definition ET_DATA_OK : Z := 0.
Definition ET_DATA_POSSIBLY_CORRUPT : Z := 2.

Definition ET_FIX_READ : Z := 0.
Definition ET_FIX_DUMP : Z := 1.

Definition ET_STRUCT_OK : Z := 1.
Definition ET_THREAD_KEEP : Z := 0.
Definition ET_THREAD_KILL : Z := 1.
Definition ET_STATNAME_LENGTH : Z := 48.
Definition ET_FUNCNAME_LENGTH : Z := 48.
Definition ET_FILENAME_LENGTH : Z := 100.
Definition ET_ATTACHMENTS_MAX : Z := 100.
Definition ET_STATION_CUE : Z := 10.
Definition ET_STATION_PRESCALE : Z := 1.
Definition ET_LANG_C : Z := 0.
Definition ET_LANG_JAVA : Z := 2.

(** ** Events *)

(** The fields of an event that the lists and stations use; its data, and where these
    are, are not among them. *)
Record et_event := mkEvent {
  e_next : option nat; e_length : Z; e_memsize : Z; e_modify : Z; e_priority : Z; e_owner : Z;
  e_temp : Z; e_age : Z; e_datastatus : Z; e_group : Z; e_control : list Z
}.

#[export] Instance eta_et_event : Eta et_event := λ e, mkEvent
  (e_next e) (e_length e) (e_memsize e) (e_modify e) (e_priority e) (e_owner e) (e_temp e)
  (e_age e) (e_datastatus e) (e_group e) (e_control e).

Definition et_init_event : et_event :=
  mkEvent None 0 0 0 ET_LOW ET_SYS ET_EVENT_NORMAL ET_EVENT_NEW ET_DATA_OK 0 (replicate 6 0).

(** Owner and group are kept. *)
Definition et_init_event_ (e : et_event) : et_event :=
  et_init_event <| e_owner := e_owner e |> <| e_group := e_group e |>.

Notation evs := (gmap nat et_event).
Notation last := list.last.

(** Reading and changing the event a pointer points to. *)
Definition ev (m : evs) (p : option nat) : res et_event := i ← of_option p; of_option (m !! i).
Definition ev_set (m : evs) (p : option nat) (f : et_event → et_event) : res evs :=
  i ← of_option p; e ← of_option (m !! i); Ret (<[i := f e]> m).

(** ** Lists *)

Record et_list := mkList {
  li_cnt : Z; li_lasthigh : Z; li_events_try : Z; li_events_in : Z; li_events_out : Z;
  li_first : option nat; li_last : option nat; li_lock : bool
}.

#[export] Instance eta_et_list : Eta et_list := λ l, mkList
  (li_cnt l) (li_lasthigh l) (li_events_try l) (li_events_in l) (li_events_out l)
  (li_first l) (li_last l) (li_lock l).

Definition fresh_list : et_list := mkList 0 0 0 0 0 None None false.

(** All but the mutex is set. *)
Definition et_init_llist (pl : et_list) : et_list := fresh_list <| li_lock := li_lock pl |>.

(** The mutex of a list: whether it is held. *)
Definition et_llist_lock (pl : et_list) : res et_list :=
  if li_lock pl then Blocked else Ret (pl <| li_lock := true |>).
Definition et_llist_unlock (pl : et_list) : et_list := pl <| li_lock := false |>.

(** What a crashed reader or writer leaves for the repair of the list. *)
Record et_fixin := mkFixin {
  fi_first : option nat; fi_eventsin : Z; fi_start : Z; fi_cnt : Z; fi_num : Z; fi_call : Z
}.
#[export] Instance eta_et_fixin : Eta et_fixin := λ f, mkFixin
  (fi_first f) (fi_eventsin f) (fi_start f) (fi_cnt f) (fi_num f) (fi_call f).

Record et_fixout := mkFixout { fo_start : Z; fo_cnt : Z; fo_num : Z }.
#[export] Instance eta_et_fixout : Eta et_fixout := λ f, mkFixout (fo_start f) (fo_cnt f) (fo_num f).

(** ** Stations *)

Record et_stat_config := mkStatConfig {
  c_flow_mode : Z; c_user_mode : Z; c_restore_mode : Z; c_block_mode : Z; c_prescale : Z;
  c_cue : Z; c_select_mode : Z; c_select : list Z;
  c_init : Z; c_fname : list Z; c_lib : list Z; c_classs : list Z
}.
#[export] Instance eta_et_stat_config : Eta et_stat_config := λ c, mkStatConfig
  (c_flow_mode c) (c_user_mode c) (c_restore_mode c) (c_block_mode c) (c_prescale c)
  (c_cue c) (c_select_mode c) (c_select c) (c_init c) (c_fname c) (c_lib c) (c_classs c).

(** Links between stations are their places in the array, -1 for none. *)
Record et_station := mkStation {
  s_num : Z; s_next : Z; s_prev : Z; s_nextparallel : Z; s_prevparallel : Z; s_waslast : Z;
  s_name : list Z; s_fixin : et_fixin; s_fixout : et_fixout; s_status : Z; s_nattachments : Z;
  s_config : et_stat_config; s_in : et_list; s_out : et_list;
  s_conductor : Z; s_att : list Z; s_mutex : bool
}.
#[export] Instance eta_et_station : Eta et_station := λ s, mkStation
  (s_num s) (s_next s) (s_prev s) (s_nextparallel s) (s_prevparallel s) (s_waslast s)
  (s_name s) (s_fixin s) (s_fixout s) (s_status s) (s_nattachments s)
  (s_config s) (s_in s) (s_out s) (s_conductor s) (s_att s) (s_mutex s).

Definition default_config : et_stat_config :=
  mkStatConfig ET_STATION_SERIAL ET_STATION_USER_MULTI ET_STATION_RESTORE_OUT ET_STATION_BLOCKING
    ET_STATION_PRESCALE ET_STATION_CUE ET_STATION_SELECT_ALL (replicate 6 (-1)) ET_STRUCT_OK [] [] [].

Definition fresh_station : et_station :=
  mkStation (-1) (-1) (-1) (-1) (-1) 0 [] (mkFixin None 0 0 0 0 ET_FIX_READ) (mkFixout 0 0 0)
    ET_STATION_UNUSED 0 default_config fresh_list fresh_list ET_THREAD_KEEP
    (replicate (Z.to_nat ET_ATTACHMENTS_MAX) (-1)) false.

(** All but the mutexes is set. *)
Definition et_init_station (ps : et_station) : et_station :=
  fresh_station <| s_in := et_init_llist (s_in ps) |> <| s_out := et_init_llist (s_out ps) |>
    <| s_mutex := s_mutex ps |>.

(** ** Attachments and the system *)

Record et_attach := mkAttach {
  at_num : Z; at_stat : Z; at_status : Z; at_blocked : Z; at_quit : Z; at_events_put : Z;
  at_events_get : Z; at_events_dump : Z; at_events_make : Z; at_proc : Z; at_sleep : Z
}.
#[export] Instance eta_et_attach : Eta et_attach := λ a, mkAttach
  (at_num a) (at_stat a) (at_status a) (at_blocked a) (at_quit a) (at_events_put a)
  (at_events_get a) (at_events_dump a) (at_events_make a) (at_proc a) (at_sleep a).

Definition ET_ATT_UNUSED : Z := 0.
Definition ET_ATT_ACTIVE : Z := 1.
Definition ET_ATT_CONTINUE : Z := 0.
Definition ET_ATT_QUIT : Z := 1.
Definition ET_ATT_UNBLOCKED : Z := 0.
Definition ET_ATT_BLOCKED : Z := 1.
Definition ET_ATT_NOSLEEP : Z := 0.
Definition ET_ATT_SLEEP : Z := 1.

Definition et_init_attachment : et_attach :=
  mkAttach (-1) (-1) ET_ATT_UNUSED ET_ATT_UNBLOCKED ET_ATT_CONTINUE 0 0 0 0 (-1) ET_ATT_NOSLEEP.

(** What a process has attached. *)
Record et_proc := mkProc { p_nattachments : Z; p_att : list Z }.
#[export] Instance eta_et_proc : Eta et_proc := λ p, mkProc (p_nattachments p) (p_att p).

(** Configuration ([y_max_...], [y_nevents], [y_event_size], [y_groupCount], [y_hz]) and state
    of the system with its stations, attachments, processes, events, histogram and mutexes. *)
Record et_system := mkSys {
  y_nevents : Z; y_event_size : Z; y_max_temps : Z; y_max_stations : Z; y_max_attachments : Z;
  y_nstations : Z; y_ntemps : Z; y_nattachments : Z; y_stat_tail : Z;
  y_events : evs; y_stats : list et_station; y_attach : list et_attach; y_histogram : list Z;
  y_proc : list et_proc; y_groupCount : Z; y_hz : Z; y_stat_mutex : bool; y_mutex : bool
}.
#[export] Instance eta_et_system : Eta et_system := λ y, mkSys
  (y_nevents y) (y_event_size y) (y_max_temps y) (y_max_stations y) (y_max_attachments y)
  (y_nstations y) (y_ntemps y) (y_nattachments y) (y_stat_tail y)
  (y_events y) (y_stats y) (y_attach y) (y_histogram y)
  (y_proc y) (y_groupCount y) (y_hz y) (y_stat_mutex y) (y_mutex y).

(** Projections of updated records. *)
Ltac fields :=
  cbn [update e_next e_length e_memsize e_modify e_priority e_owner e_temp e_age
       e_datastatus e_group e_control li_cnt li_lasthigh li_events_try li_events_in
       li_events_out li_first li_last li_lock fi_first fi_eventsin fi_start fi_cnt fi_num
       fi_call fo_start fo_cnt fo_num c_flow_mode c_user_mode c_restore_mode c_block_mode
       c_prescale c_cue c_select_mode c_select c_init c_fname c_lib c_classs s_num s_next s_prev s_nextparallel
       s_prevparallel s_waslast s_name s_fixin s_fixout s_status s_nattachments s_config
       s_in s_out s_conductor s_att s_mutex at_num at_stat at_status at_blocked at_quit at_events_put at_events_get
       at_events_dump at_events_make at_proc at_sleep p_nattachments p_att y_nevents y_event_size y_max_temps y_max_stations
       y_max_attachments y_nstations y_ntemps y_nattachments y_stat_tail y_events y_stats
       y_attach y_histogram y_proc y_groupCount y_hz y_stat_mutex y_mutex].
