(* ===== verification/EtLists.v ===== *)
(** * Lists of events (et-16.1/src/libsrc/et_readwrite.c, lines 669-2001)

    The operations on the input and output lists of stations.  Each runs with the mutex of
    its list held, which the operations of the system have from their caller and those of
    stations take and give back; signals to waiting threads are left out.  An array of event pointers is
    the list of its elements; loops over [next] pointers are [Fixpoint]s on the number of
    events the C code follows. *)

From S2P Require Import Prelude Words EtTypes.

(** ** Walking along a list *)

(** The pointers to [n] events from [p] on. *)
Fixpoint follow (m : evs) (p : option nat) (n : nat) : res (list nat) :=
  match n with
  | O => Ret []
  | S n => i ← of_option p; e ← of_option (m !! i); l ← follow m (e_next e) n; Ret (i :: l)
  end.

(** [p = p->next], [n] times. *)
Fixpoint walk (m : evs) (p : option nat) (n : nat) : res (option nat) :=
  match n with O => Ret p | S n => e ← ev m p; walk m (e_next e) n end.

(** [pe[i-1]->next = pe[i]] along an array. *)
Fixpoint link (m : evs) (pe : list nat) : res evs :=
  match pe with
  | a :: ((b :: _) as t) => m ← ev_set m (Some a) (λ e, e <| e_next := Some b |>); link m t
  | _ => Ret m
  end.

(** ** The lists of the system *)

Definition et_llist_read (m : evs) (pl : et_list) : res (Z * list nat * et_list) :=
  if li_cnt pl =? 0 then Ret (ET_ERROR, [], pl) else
  pe ← follow m (li_first pl) (Z.to_nat (li_cnt pl));
  Ret (li_cnt pl, pe,
       pl <| li_first := None |> <| li_cnt := 0 |> <| li_lasthigh := 0 |>
          <| li_events_out ::= λ x, u64 (x + li_cnt pl) |>).

Definition et_llist_write_gc (nevents_max : Z) (m : evs) (pl : et_list) (pe : list nat)
  : res (Z * evs * et_list) :=
  let num := Z.of_nat (length pe) in
  if nevents_max - li_cnt pl <? num then Ret (ET_ERROR, m, pl) else
  p0 ← of_option (head pe);
  '(m, pl) ← (if li_cnt pl =? 0 then Ret (m, pl <| li_first := Some p0 |>)
              else m ← ev_set m (li_last pl) (λ e, e <| e_next := Some p0 |>); Ret (m, pl));
  m ← link m pe;
  Ret (ET_OK, m, pl <| li_last := last pe |> <| li_events_in ::= λ x, u64 (x + num) |>
                    <| li_cnt ::= λ x, x + num |>).

(** From [p] on, at most [n] events: the first that is not of high priority, the last that
    is, and the number of those passed. *)
Fixpoint scan_high (m : evs) (p lasthigh : option nat) (high_cnt : Z) (n : nat)
  : res (option nat * option nat * Z) :=
  match n with
  | O => Ret (p, lasthigh, high_cnt)
  | S n =>
      e ← ev m p;
      if e_priority e =? ET_HIGH then scan_high m (e_next e) p (high_cnt + 1) n
      else Ret (p, lasthigh, high_cnt)
  end.

(** The events of high priority at the start of the array [pe] are chained after [prev],
    each pointing to [after]; the number of them. *)
Fixpoint add_high (m : evs) (prev : nat) (pe : list nat) (after : option nat) : res (evs * nat) :=
  match pe with
  | [] => Ret (m, O)
  | b :: pe =>
      e ← ev m (Some b);
      if negb (e_priority e =? ET_HIGH) then Ret (m, O) else
      m ← ev_set m (Some prev) (λ e, e <| e_next := Some b |>);
      m ← ev_set m (Some b) (λ e, e <| e_next := after |>);
      '(m, n) ← add_high m b pe after;
      Ret (m, S n)
  end.

(** Lines 1564-1577: the array is put at the end. *)
Definition write_end (m : evs) (pl : et_list) (p0 : nat) (pe : list nat) : res (evs * et_list) :=
  '(m, pl) ← (if li_cnt pl =? 0 then Ret (m, pl <| li_first := Some p0 |>)
              else m ← ev_set m (li_last pl) (λ e, e <| e_next := Some p0 |>); Ret (m, pl));
  m ← link m pe;
  plast ← of_option (last pe);
  Ret (m, pl <| li_last := Some plast |>).

(** Lines 1579-1635: events of high priority go after those of the list, the others to
    its end.  [pe] are the [num] pointers that are written, of which [p0] is the first. *)
Definition write_high (m : evs) (pl : et_list) (p0 : nat) (pe : list nat) : res (evs * et_list) :=
  '(pevent, pe_lasthigh, high_cnt) ← scan_high m (li_first pl) None 0 (Z.to_nat (li_cnt pl));
  '(m, pl) ←
    (match pe_lasthigh with
     | Some _ =>
         h ← ev m pe_lasthigh;
         m ← ev_set m (Some p0) (λ e, e <| e_next := e_next h |>);
         m ← ev_set m pe_lasthigh (λ e, e <| e_next := Some p0 |>);
         Ret (m, pl)
     | None =>
         m ← ev_set m (Some p0) (λ e, e <| e_next := li_first pl |>);
         Ret (m, pl <| li_first := Some p0 |>)
     end);
  '(m, k) ← add_high m p0 (tail pe) pevent;
  let num_high := S k in
  let pl := if high_cnt =? li_cnt pl then pl <| li_last := pe !! k |> else pl in
  if (num_high <? length pe)%nat then
    m ← link m (drop num_high pe);
    m ← ev_set m (li_last pl) (λ e, e <| e_next := pe !! num_high |>);
    Ret (m, pl <| li_last := last pe |>)
  else Ret (m, pl).

(** The number of events written. *)
Definition et_llist_write (nevents_max : Z) (m : evs) (pl : et_list) (pe : list nat)
  : res (Z * evs * et_list) :=
  let num := Z.min (Z.of_nat (length pe)) (nevents_max - li_cnt pl) in
  p0 ← of_option (head pe);
  e0 ← ev m (Some p0);
  let pe := take (Z.to_nat num) pe in
  '(m, pl) ← (if (e_priority e0 =? ET_LOW) || (li_cnt pl =? 0) then write_end m pl p0 pe
              else write_high m pl p0 pe);
  Ret (num, m, pl <| li_events_in ::= λ x, u64 (x + num) |> <| li_cnt ::= λ x, x + num |>).

(** ** Lists of a station: writing *)

(** Lines 689-696 and 903-909: information for the repair, and an empty list has no first
    event. *)
Definition start_out (s : et_station) (num : Z) : et_station :=
  let pl := s_out s in
  let pl := if li_cnt pl =? 0 then pl <| li_first := None |> else pl in
  s <| s_out := pl |>
    <| s_fixout ::= λ f, f <| fo_cnt := li_cnt pl |> <| fo_num := num |>
                           <| fo_start ::= λ x, x + 1 |> |>.
Definition end_out (s : et_station) (pl : et_list) : et_station :=
  s <| s_out := et_llist_unlock pl |> <| s_fixout ::= λ f, f <| fo_start ::= λ x, x - 1 |> |>.

(** An event of high priority goes after the last of high priority of a list that is not
    empty (lines 732-753 and 943-959); the last event of the list then. *)
Definition put_high (m : evs) (pl : et_list) (last lasthigh : option nat) (x : nat)
  : res (evs * et_list * option nat) :=
  match lasthigh with
  | None =>
      m ← ev_set m (Some x) (λ e, e <| e_next := li_first pl |>);
      Ret (m, pl <| li_first := Some x |>, last)
  | Some _ =>
      if bool_decide (lasthigh = last) then
        m ← ev_set m last (λ e, e <| e_next := Some x |>);
        Ret (m, pl <| li_last := Some x |>, Some x)
      else
        h ← ev m lasthigh;
        m ← ev_set m (Some x) (λ e, e <| e_next := e_next h |>);
        m ← ev_set m lasthigh (λ e, e <| e_next := Some x |>);
        Ret (m, pl, last)
  end.

(** Lines 689-743: the event is put where its priority says. *)
Definition put_one (m : evs) (pl : et_list) (pe : nat) : res (evs * et_list) :=
  e ← ev m (Some pe);
  if li_cnt pl =? 0 then
    Ret (m, pl <| li_first := Some pe |> <| li_last := Some pe |>
               <| li_lasthigh ::= λ x, if e_priority e =? ET_HIGH then 1 else x |>)
  else if e_priority e =? ET_LOW then
    m ← ev_set m (li_last pl) (λ e, e <| e_next := Some pe |>);
    Ret (m, pl <| li_last := Some pe |>)
  else
    pe_lasthigh ← (if li_lasthigh pl =? 0 then Ret None
                   else walk m (li_first pl) (Z.to_nat (li_lasthigh pl - 1)));
    '(m, pl, _) ← put_high m pl (li_last pl) pe_lasthigh pe;
    Ret (m, pl <| li_lasthigh ::= λ x, x + 1 |>).

Definition et_station_write (nevents : Z) (m : evs) (s : et_station) (pe : nat)
  : res (Z * evs * et_station) :=
  pl ← et_llist_lock (s_out s);
  if nevents <=? li_cnt pl then Ret (ET_ERROR, m, s <| s_out := et_llist_unlock pl |>) else
  let s := start_out (s <| s_out := pl |>) 1 in
  '(m, pl) ← put_one m (s_out s) pe;
  m ← ev_set m (Some pe) (λ e, e <| e_owner := ET_SYS |>);
  Ret (ET_OK, m, end_out s (pl <| li_cnt ::= λ x, x + 1 |>)).

(** The loop of [et_station_nwrite]: [last] and [lasthigh] are the last event, and the last
    of high priority, of the list. *)
Fixpoint nwrite_loop (m : evs) (pl : et_list) (last lasthigh : option nat) (pe : list nat)
  : res (evs * et_list) :=
  match pe with
  | [] => Ret (m, pl)
  | x :: pe =>
      e ← ev m (Some x);
      '(m, pl, last, lasthigh) ←
        (if e_priority e =? ET_LOW then
           m ← ev_set m last (λ e, e <| e_next := Some x |>);
           Ret (m, pl <| li_last := Some x |>, Some x, lasthigh)
         else
           '(m, pl, last) ← put_high m pl last lasthigh x;
           Ret (m, pl <| li_lasthigh ::= λ x, x + 1 |>, last, Some x));
      m ← ev_set m (Some x) (λ e, e <| e_owner := ET_SYS |>);
      nwrite_loop m (pl <| li_cnt ::= λ x, x + 1 |>) last lasthigh pe
  end.

Definition et_station_nwrite (nevents : Z) (m : evs) (s : et_station) (pe : list nat)
  : res (Z * evs * et_station) :=
  let num := Z.of_nat (length pe) in
  match pe with
  | [] => Ret (ET_OK, m, s)
  | p0 :: rest =>
      pl ← et_llist_lock (s_out s);
      if nevents - li_cnt pl <? num then Ret (ET_ERROR, m, s <| s_out := et_llist_unlock pl |>) else
      let s := start_out (s <| s_out := pl |>) num in
      let pl := s_out s in
      '(m, pl, lasthigh, pe) ←
        (if li_cnt pl =? 0 then
           m ← ev_set m (Some p0) (λ e, e <| e_owner := ET_SYS |>);
           e ← ev m (Some p0);
           let pl := pl <| li_first := Some p0 |> <| li_last := Some p0 |>
                        <| li_cnt ::= λ x, x + 1 |> in
           Ret (if e_priority e =? ET_HIGH then (m, pl <| li_lasthigh := 1 |>, Some p0, rest)
                else (m, pl, None, rest))
         else if negb (li_lasthigh pl =? 0) then
           h ← walk m (li_first pl) (Z.to_nat (li_lasthigh pl - 1));
           Ret (m, pl, h, pe)
         else Ret (m, pl, None, pe));
      '(m, pl) ← nwrite_loop m pl (li_last pl) lasthigh pe;
      Ret (ET_OK, m, end_out s pl)
  end.

(** The events after the last one, whatever their priority; [last] points to it. *)
Fixpoint append_loop (m : evs) (pl : et_list) (last : option nat) (pe : list nat) : res (evs * et_list) :=
  match pe with
  | [] => Ret (m, pl)
  | x :: pe =>
      m ← ev_set m last (λ e, e <| e_next := Some x |>);
      m ← ev_set m (Some x) (λ e, e <| e_owner := ET_SYS |>);
      append_loop m (pl <| li_last := Some x |> <| li_cnt ::= λ x, x + 1 |>) (Some x) pe
  end.

(** What [et_station_nwriteNoPri] and [et_station_ndump] have in common. *)
Definition append_all (m : evs) (pl : et_list) (p0 : nat) (rest : list nat) : res (evs * et_list) :=
  if li_cnt pl =? 0 then
    m ← ev_set m (Some p0) (λ e, e <| e_owner := ET_SYS |>);
    append_loop m (pl <| li_first := Some p0 |> <| li_last := Some p0 |>
                      <| li_cnt ::= λ x, x + 1 |>) (Some p0) rest
  else append_loop m pl (li_last pl) (p0 :: rest).

Definition et_station_nwriteNoPri (nevents : Z) (m : evs) (s : et_station) (pe : list nat)
  : res (Z * evs * et_station) :=
  let num := Z.of_nat (length pe) in
  match pe with
  | [] => Ret (ET_OK, m, s)
  | p0 :: rest =>
      pl ← et_llist_lock (s_out s);
      if nevents - li_cnt pl <? num then Ret (ET_ERROR, m, s <| s_out := et_llist_unlock pl |>) else
      let s := start_out (s <| s_out := pl |>) num in
      '(m, pl) ← append_all m (s_out s) p0 rest;
      Ret (ET_OK, m, end_out s pl)
  end.

(** ** The input list of GrandCentral: dumping *)

Definition start_in (s : et_station) (num : Z) : et_station :=
  let pl := s_in s in
  let pl := if li_cnt pl =? 0 then pl <| li_first := None |> else pl in
  s <| s_in := pl |>
    <| s_fixin ::= λ f, f <| fi_eventsin := li_events_in pl |> <| fi_cnt := li_cnt pl |>
                          <| fi_num := num |> <| fi_call := ET_FIX_DUMP |>
                          <| fi_start ::= λ x, x + 1 |> |>.
Definition end_in (s : et_station) (pl : et_list) : et_station :=
  s <| s_in := et_llist_unlock pl |> <| s_fixin ::= λ f, f <| fi_start ::= λ x, x - 1 |> |>.

Definition et_station_dump (nevents : Z) (m : evs) (s : et_station) (pe : nat)
  : res (Z * evs * et_station) :=
  pl ← et_llist_lock (s_in s);
  if nevents <=? li_cnt pl then Ret (ET_ERROR, m, s <| s_in := et_llist_unlock pl |>) else
  let s := start_in (s <| s_in := pl |>) 1 in
  let pl := s_in s in
  '(m, pl) ← (if li_cnt pl =? 0 then Ret (m, pl <| li_first := Some pe |>)
              else m ← ev_set m (li_last pl) (λ e, e <| e_next := Some pe |>); Ret (m, pl));
  m ← ev_set m (Some pe) (λ e, e <| e_owner := ET_SYS |>);
  Ret (ET_OK, m, end_in s (pl <| li_last := Some pe |> <| li_cnt ::= λ x, x + 1 |>
                              <| li_events_in ::= λ x, u64 (x + 1) |>)).

Definition et_station_ndump (nevents : Z) (m : evs) (s : et_station) (pe : list nat)
  : res (Z * evs * et_station) :=
  let num := Z.of_nat (length pe) in
  match pe with
  | [] => Ret (ET_OK, m, s)
  | p0 :: rest =>
      pl ← et_llist_lock (s_in s);
      if nevents - li_cnt pl <? num then Ret (ET_ERROR, m, s <| s_in := et_llist_unlock pl |>) else
      let s := start_in (s <| s_in := pl |>) num in
      '(m, pl) ← append_all m (s_in s) p0 rest;
      Ret (ET_OK, m, end_in s pl)
  end.

(** ** Input lists: taking events *)

Fixpoint take_events (m : evs) (p : option nat) (att : Z) (n : nat)
  : res (list nat * option nat * evs) :=
  match n with
  | O => Ret ([], p, m)
  | S n =>
      i ← of_option p;
      e ← of_option (m !! i);
      '(l, q, m) ← take_events (<[i := e <| e_owner := att |>]> m) (e_next e) att n;
      Ret (i :: l, q, m)
  end.

(** Lines 1161-1185, with the mutex held and at least one event in the list. *)
Definition nread_take (m : evs) (s : et_station) (att num : Z) : res (list nat * evs * et_station) :=
  let pl := s_in s in
  let num := Z.min num (li_cnt pl) in
  '(pe, first, m) ← take_events m (li_first pl) att (Z.to_nat num);
  Ret (pe, m,
       s <| s_in := et_llist_unlock (pl <| li_first := first |> <| li_cnt ::= λ x, x - num |>) |>
         <| s_fixin ::= λ f, f <| fi_num := num |> <| fi_cnt := li_cnt pl |> <| fi_call := ET_FIX_READ |>
                               <| fi_first := None |> |>).

(** The loop over the [n] events from [pev] on, of which those of the group are taken out
    of the list until there are [num]. *)
Fixpoint group_loop (m : evs) (pl : et_list) (pev prev : option nat) (att group : Z)
    (num : nat) (acc : list nat) (n : nat) : res (list nat * evs * et_list) :=
  match n with
  | O => Ret (acc, m, pl)
  | S n =>
      i ← of_option pev;
      e ← of_option (m !! i);
      if negb (e_group e =? group) then group_loop m pl (e_next e) pev att group num acc n else
      let m := <[i := e <| e_owner := att |>]> m in
      '(m, pl) ← (match prev with
                  | None => Ret (m, pl <| li_first := e_next e |>)
                  | Some _ => m ← ev_set m prev (λ p, p <| e_next := e_next e |>); Ret (m, pl)
                  end);
      let pl := if bool_decide (li_last pl = pev) then pl <| li_last := prev |> else pl in
      let acc := acc ++ [i] in
      if (num <=? length acc)%nat then Ret (acc, m, pl)
      else group_loop m pl (e_next e) prev att group num acc n
  end.

(** Lines 1298-1343, with the mutex held. *)
Definition nread_group_take (m : evs) (s : et_station) (att num group : Z)
  : res (list nat * evs * et_station) :=
  let pl := s_in s in
  let num := Z.min num (li_cnt pl) in
  '(pe, m, pl') ← group_loop m pl (li_first pl) None att group (Z.to_nat num) [] (Z.to_nat (li_cnt pl));
  Ret (pe, m,
       s <| s_in := et_llist_unlock (pl' <| li_cnt ::= λ x, x - Z.of_nat (length pe) |>) |>
         <| s_fixin ::= λ f, f <| fi_num := num |> <| fi_cnt := li_cnt pl |> <| fi_call := ET_FIX_READ |>
                               <| fi_first := None |> |>).

(** ** Restoring events *)

Fixpoint own_all (m : evs) (pe : list nat) : res evs :=
  match pe with
  | [] => Ret m
  | i :: pe => m ← ev_set m (Some i) (λ e, e <| e_owner := ET_SYS |>); own_all m pe
  end.

(** Lines 1933-1951 and 1979-1993: a chain of events of low priority, from [p0] to [pn], goes
    before those of the list, after [after] or at the start. *)
Definition put_lows (m : evs) (pl : et_list) (after pfirstlow : option nat) (p0 : nat) (pn : option nat)
  : res (evs * et_list) :=
  match pfirstlow with
  | None =>
      m ← ev_set m (li_last pl) (λ e, e <| e_next := Some p0 |>);
      Ret (m, pl <| li_last := pn |>)
  | Some _ =>
      '(m, pl) ← (match after with
                  | Some _ => m ← ev_set m after (λ e, e <| e_next := Some p0 |>); Ret (m, pl)
                  | None => Ret (m, pl <| li_first := Some p0 |>)
                  end);
      m ← ev_set m pn (λ e, e <| e_next := pfirstlow |>);
      Ret (m, pl)
  end.

(** The list, and the number of events written. *)
Definition et_restore (nevents_max : Z) (m : evs) (pl : et_list) (pe : list nat)
  : res (Z * evs * et_list * Z) :=
  pl ← et_llist_lock pl;
  if nevents_max <=? li_cnt pl then Ret (ET_ERROR, m, et_llist_unlock pl, 0) else
  let num := Z.min (Z.of_nat (length pe)) (nevents_max - li_cnt pl) in
  let pe := take (Z.to_nat num) pe in
  '(pfirstlow, plasthigh, high_cnt) ←
    (if li_cnt pl =? 0 then Ret (None, None, 0)
     else scan_high m (li_first pl) None 0 (Z.to_nat (li_cnt pl)));
  let pfirstlow := if high_cnt =? li_cnt pl then None else pfirstlow in
  m ← own_all m pe;
  p0 ← of_option (head pe);
  e0 ← ev m (Some p0);
  '(m, pl) ←
    (if li_cnt pl =? 0 then
       m ← link m pe;
       Ret (m, pl <| li_first := Some p0 |> <| li_last := last pe |>)
     else if e_priority e0 =? ET_LOW then
       m ← link m pe;
       put_lows m pl plasthigh pfirstlow p0 (last pe)
     else
       let pfirst := li_first pl in
       m ← ev_set m (Some p0) (λ e, e <| e_next := pfirst |>);
       let pl := pl <| li_first := Some p0 |> in
       '(m, k) ← add_high m p0 (tail pe) pfirst;
       let lows := drop (S k) pe in
       match lows with
       | [] => Ret (m, pl)
       | q0 :: _ =>
           m ← link m lows;
           put_lows m pl (match plasthigh with Some _ => plasthigh | None => pe !! k end)
             pfirstlow q0 (last pe)
       end);
  Ret (ET_OK, m, et_llist_unlock (pl <| li_cnt ::= λ x, x + num |>), num).
