(* ===== verification/EtSegments.v ===== *)
(** * Linked events as sequences

    [linked] states that the [next] pointers of some events make them a chain.  It is about
    one of three parts of the memory of events: the pointers ([nexts]), the owners
    ([owners]) and all that the operations on lists keep ([core]). *)

From S2P Require Import Prelude Words EtTypes EtLists.

(** ** Three parts of the memory *)

Definition nexts (m : evs) : gmap nat (option nat) := e_next <$> m.
Definition owners (m : evs) : gmap nat Z := e_owner <$> m.
Definition core (m : evs) : evs := (λ e, e <| e_next := None |> <| e_owner := ET_SYS |>) <$> m.

Definition known (m : evs) (l : list nat) : Prop := Forall (λ i, is_Some (m !! i)) l.

Definition is_high (m : evs) (i : nat) : bool :=
  match m !! i with Some e => e_priority e =? ET_HIGH | None => false end.
Definition in_group (m : evs) (g : Z) (i : nat) : bool :=
  match m !! i with Some e => e_group e =? g | None => false end.

(** Priorities are one of the two. *)
Definition prios_ok (m : evs) : Prop :=
  map_Forall (λ _ e, e_priority e = ET_LOW ∨ e_priority e = ET_HIGH) m.

Lemma core_lookup m m' i : core m' = core m → is_Some (m !! i) → is_Some (m' !! i).
Proof.
  intros Hc [e He]. assert (core m' !! i = core m !! i) as H by by rewrite Hc.
  unfold core in H. rewrite !lookup_fmap, He in H. destruct (m' !! i); [by eexists|done].
Qed.

Lemma known_core m m' l : core m' = core m → known m l → known m' l.
Proof. intros Hc. apply Forall_impl. intros i. by apply core_lookup. Qed.

Lemma is_high_core m m' i : core m' = core m → is_high m' i = is_high m i.
Proof.
  intros Hc. assert (core m' !! i = core m !! i) as H by by rewrite Hc. unfold core in H.
  rewrite !lookup_fmap in H. unfold is_high.
  destruct (m' !! i) as [e'|], (m !! i) as [e|]; try done. cbn in H. by destruct e', e; simplify_eq/=.
Qed.

Lemma in_group_core m m' g i : core m' = core m → in_group m' g i = in_group m g i.
Proof.
  intros Hc. assert (core m' !! i = core m !! i) as H by by rewrite Hc. unfold core in H.
  rewrite !lookup_fmap in H. unfold in_group.
  destruct (m' !! i) as [e'|], (m !! i) as [e|]; try done. cbn in H. by destruct e', e; simplify_eq/=.
Qed.

Lemma prios_ok_core m m' : core m' = core m → prios_ok m → prios_ok m'.
Proof.
  intros Hc H i e' He'. assert (core m' !! i = core m !! i) as Hi by by rewrite Hc.
  unfold core in Hi. rewrite !lookup_fmap, He' in Hi. destruct (m !! i) as [e|] eqn:He; [|done].
  specialize (H i e He). destruct e', e; simplify_eq/=; done.
Qed.

(** What storing a pointer or an owner does to the three parts. *)
Lemma set_next m i p :
  is_Some (m !! i) →
  ∃ m', ev_set m (Some i) (λ e, e <| e_next := p |>) = Ret m' ∧
        nexts m' = <[i := p]> (nexts m) ∧ owners m' = owners m ∧ core m' = core m.
Proof.
  intros [e He]. unfold ev_set. cbn. rewrite He. cbn. eexists. split; [done|].
  unfold nexts, owners, core. rewrite !fmap_insert. cbn. split; [done|].
  split; apply insert_id; rewrite lookup_fmap, He; by destruct e.
Qed.

Lemma set_owner m i o :
  is_Some (m !! i) →
  ∃ m', ev_set m (Some i) (λ e, e <| e_owner := o |>) = Ret m' ∧
        nexts m' = nexts m ∧ owners m' = <[i := o]> (owners m) ∧ core m' = core m.
Proof.
  intros [e He]. unfold ev_set. cbn. rewrite He. cbn. eexists. split; [done|].
  unfold nexts, owners, core. rewrite !fmap_insert. cbn. split; [|split; [done|]];
    apply insert_id; rewrite lookup_fmap, He; by destruct e.
Qed.

Lemma ev_known m i : is_Some (m !! i) → ∃ e, ev m (Some i) = Ret e ∧ m !! i = Some e.
Proof. intros [e He]. exists e. unfold ev. cbn. by rewrite He. Qed.

Lemma nexts_lookup m i e : m !! i = Some e → nexts m !! i = Some (e_next e).
Proof. intros He. unfold nexts. by rewrite lookup_fmap, He. Qed.

(** ** Chains *)

Implicit Types N : gmap nat (option nat).

Fixpoint linked N (l : list nat) : Prop :=
  match l with
  | [] => True
  | a :: t => (∃ p, N !! a = Some p ∧ match t with [] => True | b :: _ => p = Some b end) ∧ linked N t
  end.

Lemma linked_known m l : linked (nexts m) l → known m l.
Proof.
  induction l as [|a l IH]; [constructor|]. intros [(p & Hp & _) Hl]. constructor; [|by apply IH].
  unfold nexts in Hp. rewrite lookup_fmap in Hp. by destruct (m !! a).
Qed.

Lemma linked_app N l1 l2 :
  linked N (l1 ++ l2) ↔
  linked N l1 ∧ linked N l2 ∧ ∀ a b, last l1 = Some a → head l2 = Some b → N !! a = Some (Some b).
Proof.
  induction l1 as [|a l1 IH]; cbn [app linked].
  { split; [intros H; split_and!; done|tauto]. }
  rewrite IH. destruct l1 as [|b l1]; cbn [app].
  - split.
    + intros [(p & Hp & Hm) (_ & H2 & _)]. split_and!; [|done..|].
      * by exists p.
      * intros ? b [= <-] Hb. destruct l2; [done|]. cbn in Hb. simplify_eq. done.
    + intros ([(p & Hp & _) _] & H2 & H). split; [|split_and!; try done].
      destruct l2 as [|b l2]; [by exists p|]. exists (Some b). split; [by apply (H a b)|done].
  - rewrite last_cons_cons. split.
    + intros [Ha (H1 & H2 & H)]. by split_and!.
    + intros ([Ha H1] & H2 & H). by split_and!.
Qed.

Lemma linked_frame N N' l : (∀ i, i ∈ l → N' !! i = N !! i) → linked N l → linked N' l.
Proof.
  induction l as [|a l IH]; [done|]. intros Hf [Ha Hl]. split.
  - rewrite Hf by left. done.
  - apply IH; [|done]. intros i Hi. apply Hf. by right.
Qed.

(** Storing a pointer in an event that is not in the chain, or is its last one. *)
Lemma linked_insert N l a p :
  linked N l → NoDup l → (a ∈ l → last l = Some a) → linked (<[a := p]> N) l.
Proof.
  induction l as [|b l IH]; [done|]. intros [Hb Hl] [Hnb Hnd]%list.NoDup_cons Hlast. split.
  - destruct (decide (b = a)) as [->|Hne].
    + rewrite lookup_insert_eq. eexists. split; [done|]. destruct l as [|c l]; [done|].
      exfalso. apply Hnb. assert (last (c :: l) = Some a) as H.
      { rewrite <- (last_cons_cons a). apply Hlast. by left. }
      by apply last_Some_elem_of in H.
    + by rewrite lookup_insert_ne.
  - apply IH; [done..|]. intros Ha. destruct l as [|c l]; [by apply elem_of_nil in Ha|].
    rewrite <- (last_cons_cons b). apply Hlast. by right.
Qed.

Lemma linked_insert_out N l a p : linked N l → a ∉ l → linked (<[a := p]> N) l.
Proof.
  intros Hl Ha. eapply linked_frame; [|exact Hl]. intros i Hi. rewrite lookup_insert_ne; [done|].
  by intros ->.
Qed.

(** ** Walking along a chain *)

Lemma follow_linked m l rest :
  linked (nexts m) (l ++ rest) → follow m (head (l ++ rest)) (length l) = Ret l.
Proof.
  induction l as [|a l IH]; [done|]. cbn [app linked head follow length]. intros [(p & Hp & Hm) Hl].
  unfold nexts in Hp. rewrite lookup_fmap in Hp. destruct (m !! a) as [e|] eqn:He; [|done].
  cbn. rewrite He. cbn. injection Hp as <-. destruct l as [|b l]; [done|].
  cbn [app] in Hm. rewrite Hm. change (Some b) with (head ((b :: l) ++ rest)). by rewrite (IH Hl).
Qed.

Lemma walk_linked m l k :
  linked (nexts m) l → (k < length l)%nat → walk m (head l) k = Ret (l !! k).
Proof.
  revert l. induction k as [|k IH]; intros [|a l] Hl Hk; cbn in Hk; try lia; [done|].
  cbn [walk head]. destruct Hl as [(p & Hp & Hm) Hl]. unfold nexts in Hp. rewrite lookup_fmap in Hp.
  destruct (m !! a) as [e|] eqn:He; [|done]. unfold ev. cbn. rewrite He. cbn. injection Hp as <-.
  destruct l as [|b l]; [cbn in Hk; lia|]. rewrite Hm. apply (IH (b :: l)); [done|cbn in *; lia].
Qed.

(** The events of high priority at the start of a chain. *)
Fixpoint high_prefix (m : evs) (l : list nat) : list nat :=
  match l with
  | a :: l => if is_high m a then a :: high_prefix m l else []
  | [] => []
  end.

Definition lows (m : evs) (l : list nat) : list nat := drop (length (high_prefix m l)) l.

Lemma high_prefix_lows m l : high_prefix m l ++ lows m l = l.
Proof.
  unfold lows. induction l as [|a l IH]; [done|]. cbn. destruct (is_high m a); [|done].
  cbn. by rewrite IH.
Qed.

Lemma high_prefix_sub m l : high_prefix m l ⊆ l.
Proof. intros i Hi. rewrite <- (high_prefix_lows m l). apply elem_of_app. by left. Qed.

Lemma lows_sub m l : lows m l ⊆ l.
Proof. intros i Hi. rewrite <- (high_prefix_lows m l). apply elem_of_app. by right. Qed.

Lemma high_prefix_high m l : Forall (λ i, is_high m i = true) (high_prefix m l).
Proof. induction l as [|a l IH]; cbn; [constructor|]. destruct (is_high m a) eqn:E; by constructor. Qed.

Lemma high_prefix_app m hs l :
  Forall (λ i, is_high m i = true) hs → high_prefix m (hs ++ l) = hs ++ high_prefix m l.
Proof. induction 1 as [|a hs Ha _ IH]; [done|]. cbn. by rewrite Ha, IH. Qed.

Lemma high_prefix_low m l : Forall (λ i, is_high m i = false) l → high_prefix m l = [].
Proof. destruct 1 as [|a l Ha _]; [done|]. cbn. by rewrite Ha. Qed.

Lemma high_prefix_core m m' l : core m' = core m → high_prefix m' l = high_prefix m l.
Proof. intros Hc. induction l as [|a l IH]; [done|]. cbn. by rewrite (is_high_core m m' a Hc), IH. Qed.

Lemma lows_core m m' l : core m' = core m → lows m' l = lows m l.
Proof. intros Hc. unfold lows. by rewrite (high_prefix_core m m'). Qed.

(** The first event that is not of high priority is the one the last of high priority
    points to. *)
Lemma scan_high_linked m l acc c :
  linked (nexts m) l →
  ∃ p, scan_high m (head l) acc c (length l) =
         Ret (p, match last (high_prefix m l) with Some a => Some a | None => acc end,
              c + Z.of_nat (length (high_prefix m l))) ∧
       (∀ a, last (high_prefix m l) = Some a → nexts m !! a = Some p) ∧
       (high_prefix m l = [] → p = head l).
Proof.
  revert acc c. induction l as [|a l IH]; intros acc c Hl; cbn [scan_high high_prefix head length].
  { exists None. rewrite Z.add_0_r. by split. }
  pose proof (linked_known _ _ Hl) as Hk. apply Forall_cons_1 in Hk as [Ha _].
  destruct (ev_known _ _ Ha) as (e & -> & He). cbn [mbind res_bind]. unfold is_high at 1 2 3 4. rewrite He.
  destruct Hl as [(p & Hp & Hm) Hl]. pose proof Hp as Hp'.
  rewrite (nexts_lookup _ _ _ He) in Hp. injection Hp as Hp.
  destruct (e_priority e =? ET_HIGH) eqn:Hpri.
  - destruct l as [|b l].
    + cbn [scan_high high_prefix length last]. exists (e_next e). split_and!; [do 2 f_equal; lia| |done].
      intros ? [= <-]. congruence.
    + rewrite Hp, Hm. change (Some b) with (head (b :: l)).
      destruct (IH (Some a) (c + 1) Hl) as (q & -> & Hq & Hq0). exists q.
      destruct (high_prefix m (b :: l)) as [|d t] eqn:E.
      * split_and!; [do 2 f_equal; cbn; lia| |done]. intros ? [= <-]. rewrite Hq0 by done. by rewrite Hp', Hm.
      * split_and!; [|intros z; rewrite last_cons_cons; apply Hq|done]. rewrite last_cons_cons.
        do 2 f_equal; [f_equal|cbn; lia]. destruct (last (d :: t)) eqn:El; [done|].
        by apply last_None in El.
  - exists (Some a). cbn [length last]. rewrite Z.add_0_r. done.
Qed.

(** ** Chaining an array *)

Lemma link_cons m a b pe :
  link m (a :: b :: pe) = (m ← ev_set m (Some a) (λ e, e <| e_next := Some b |>); link m (b :: pe)).
Proof. done. Qed.

Lemma link_ok m pe :
  known m pe → NoDup pe →
  ∃ m', link m pe = Ret m' ∧ linked (nexts m') pe ∧ owners m' = owners m ∧ core m' = core m ∧
        ∀ i, (i ∉ pe ∨ last pe = Some i) → nexts m' !! i = nexts m !! i.
Proof.
  revert m. induction pe as [|a pe IH]; intros m Hk Hnd; [by exists m|].
  apply Forall_cons_1 in Hk as [Ha Hk]. apply list.NoDup_cons in Hnd as [Hna Hnd].
  destruct pe as [|b pe].
  { exists m. split_and!; try done. destruct Ha as [e He]. cbn. rewrite (nexts_lookup _ _ _ He). by eauto. }
  rewrite link_cons. destruct (set_next m a (Some b) Ha) as (m1 & -> & Hn & Ho & Hc). cbn [mbind res_bind].
  destruct (IH m1) as (m2 & -> & Hl & Ho2 & Hc2 & Hf); [by eapply known_core|done|].
  assert (nexts m2 !! a = Some (Some b)) as Hab.
  { rewrite Hf, Hn, lookup_insert_eq by by left. done. }
  exists m2. split_and!; [done| |congruence|congruence|].
  - split; [|done]. rewrite Hab. by eexists.
  - intros i Hi. rewrite last_cons_cons in Hi.
    assert (i ≠ a) as Hne.
    { intros ->. destruct Hi as [Hi|Hi]; [apply Hi; by left|]. apply last_Some_elem_of in Hi. by apply Hna. }
    rewrite Hf, Hn, lookup_insert_ne by (done || (destruct Hi as [Hi|Hi]; [left; intros H; apply Hi; by right|by right])).
    done.
Qed.

(** The events of high priority of an array, chained after [prev]. *)
Lemma add_high_ok m prev pe after :
  known m (prev :: pe) → NoDup (prev :: pe) → nexts m !! prev = Some after →
  ∃ m', add_high m prev pe after = Ret (m', length (high_prefix m pe)) ∧
        linked (nexts m') (prev :: high_prefix m pe) ∧
        (∀ z, last (prev :: high_prefix m pe) = Some z → nexts m' !! z = Some after) ∧
        owners m' = owners m ∧ core m' = core m ∧
        ∀ i, i ∉ prev :: high_prefix m pe → nexts m' !! i = nexts m !! i.
Proof.
  revert m prev. induction pe as [|b pe IH]; intros m prev Hk Hnd Hp.
  { exists m. cbn. split_and!; try done; [by eexists|]. by intros z [= <-]. }
  cbn [add_high high_prefix]. apply Forall_cons_1 in Hk as [Hprev Hk].
  pose proof Hk as [Hb _]%Forall_cons_1. apply list.NoDup_cons in Hnd as [Hnp Hnd].
  destruct (ev_known _ _ Hb) as (e & -> & He). cbn [mbind res_bind].
  assert (is_high m b = (e_priority e =? ET_HIGH)) as Hh by (unfold is_high; by rewrite He). rewrite Hh.
  destruct (e_priority e =? ET_HIGH); cbn [negb].
  2:{ exists m. cbn. split_and!; try done; [by eexists|]. by intros z [= <-]. }
  destruct (set_next m prev (Some b) Hprev) as (m1 & -> & Hn1 & Ho1 & Hc1). cbn [mbind res_bind].
  assert (is_Some (m1 !! b)) as Hb1 by by eapply core_lookup.
  destruct (set_next m1 b after Hb1) as (m2 & -> & Hn2 & Ho2 & Hc2). cbn [mbind res_bind].
  assert (core m2 = core m) as Hc by congruence.
  pose proof (high_prefix_core m m2 pe Hc) as Hhp.
  destruct (IH m2 b) as (m3 & -> & Hl & Hlast & Ho & Hc3 & Hf);
    [by eapply known_core|done|by rewrite Hn2, lookup_insert_eq|]. rewrite Hhp in *.
  cbn [mbind res_bind]. assert (prev ∉ b :: high_prefix m pe) as Hnp'.
  { intros H. apply Hnp. rewrite <- (high_prefix_lows m pe). set_solver. }
  exists m3. split_and!; try congruence.
  - done.
  - split; [|done]. rewrite Hf, Hn2, Hn1 by done.
    rewrite lookup_insert_ne, lookup_insert_eq by set_solver. by eexists.
  - intros z Hz. rewrite last_cons_cons in Hz. by apply Hlast.
  - intros i Hi. rewrite Hf by set_solver. rewrite Hn2, Hn1, !lookup_insert_ne by set_solver. done.
Qed.
