(* ===== verification/EtListSpec.v ===== *)
(** * What the operations on lists do to the sequence of events

    A list of the system stands for the sequence of its events.  Writing merges, so that
    events of high priority come first and those of a priority keep their order;
    restoring merges the other way round; dumping appends; reading takes from the front.
    None of them touches the pointers of events of other lists, and only the owners of the
    events that move change. *)

From S2P Require Import Prelude Words EtTypes EtLists EtSegments.

(** ** Lists and their sequences *)

Record spans (m : evs) (pl : et_list) (l : list nat) : Prop := Spans {
  sp_nodup : NoDup l;
  sp_linked : linked (nexts m) l;
  sp_first : l ≠ [] → li_first pl = head l;
  sp_last : l ≠ [] → li_last pl = last l
}.

Definition in_list (m : evs) (pl : et_list) (l : list nat) : Prop :=
  li_cnt pl = Z.of_nat (length l) ∧ spans m pl l.

Definition merge (m : evs) (l pe : list nat) : list nat :=
  high_prefix m l ++ high_prefix m pe ++ lows m l ++ lows m pe.

(** Events of high priority come first. *)
Definition sorted (m : evs) (l : list nat) : Prop := Forall (λ i, is_high m i = false) (lows m l).

(** Outside of [L] the pointers are the same; what is neither pointer nor owner is the
    same everywhere. *)
Definition moves (m m' : evs) (L : list nat) : Prop :=
  core m' = core m ∧ ∀ i, i ∉ L → nexts m' !! i = nexts m !! i.

Lemma moves_refl m L : moves m m L.
Proof. done. Qed.

Lemma moves_trans m1 m2 m3 L : moves m1 m2 L → moves m2 m3 L → moves m1 m3 L.
Proof. intros [H1 F1] [H2 F2]. split; [congruence|]. intros i Hi. by rewrite F2, F1. Qed.

Lemma moves_weaken m m' L L' : moves m m' L → L ⊆ L' → moves m m' L'.
Proof. intros [H F] HL. split; [done|]. intros i Hi. apply F. set_solver. Qed.

(** A list none of whose events moves is as it was. *)
Lemma spans_frame m m' pl l L : spans m pl l → moves m m' L → L ## l → spans m' pl l.
Proof.
  intros [] [_ Hf] Hd. split; try done. eapply linked_frame; [|done]. intros i Hi. apply Hf. set_solver.
Qed.

Lemma in_list_frame m m' pl l L : in_list m pl l → moves m m' L → L ## l → in_list m' pl l.
Proof. intros [H Hs] Hm Hd. split; [done|by eapply spans_frame]. Qed.

Lemma spans_known m pl l : spans m pl l → known m l.
Proof. intros []. by eapply linked_known. Qed.

(** Fields of the list that are not its events. *)
Lemma spans_ext m pl pl' l :
  spans m pl l → li_first pl' = li_first pl → li_last pl' = li_last pl → spans m pl' l.
Proof. intros [] H1 H2. by split; rewrite ?H1, ?H2. Qed.

Lemma sorted_core m m' l : core m' = core m → sorted m l → sorted m' l.
Proof.
  intros Hc. unfold sorted. rewrite (lows_core m m') by done. apply Forall_impl. intros i.
  by rewrite (is_high_core m m').
Qed.

Lemma merge_core m m' l pe : core m' = core m → merge m' l pe = merge m l pe.
Proof. intros Hc. unfold merge. by rewrite !(high_prefix_core m m'), !(lows_core m m') by done. Qed.

Lemma merge_perm m l pe : merge m l pe ≡ₚ l ++ pe.
Proof.
  unfold merge. rewrite <- (high_prefix_lows m l) at 3. rewrite <- (high_prefix_lows m pe) at 3.
  rewrite <- !app_assoc. f_equiv. rewrite !app_assoc. f_equiv. apply Permutation_app_comm.
Qed.

Lemma high_prefix_merge m l pe :
  sorted m l → sorted m pe → high_prefix m (merge m l pe) = high_prefix m l ++ high_prefix m pe.
Proof.
  intros Hl Hpe. unfold merge. rewrite app_assoc, high_prefix_app by (apply Forall_app; split; apply high_prefix_high).
  rewrite (high_prefix_low m (lows m l ++ lows m pe)) by (by apply Forall_app). by rewrite app_nil_r.
Qed.

Lemma lows_merge m l pe : sorted m l → sorted m pe → lows m (merge m l pe) = lows m l ++ lows m pe.
Proof.
  intros Hl Hpe. unfold lows at 1. rewrite high_prefix_merge by done. unfold merge.
  by rewrite app_assoc, drop_app_length.
Qed.

Lemma merge_sorted m l pe : sorted m l → sorted m pe → sorted m (merge m l pe).
Proof. intros Hl Hpe. unfold sorted. rewrite lows_merge by done. by apply Forall_app. Qed.

Lemma sorted_single m x : sorted m [x].
Proof. unfold sorted, lows. cbn. destruct (is_high m x) eqn:E; cbn; by repeat constructor. Qed.

Lemma merge_nil_l m pe : merge m [] pe = pe.
Proof. unfold merge. cbn. apply high_prefix_lows. Qed.

Lemma merge_nil_r m l : merge m l [] = l.
Proof. unfold merge. change (high_prefix m l ++ lows m l ++ [] = l). rewrite app_nil_r. apply high_prefix_lows. Qed.

Lemma merge_low m l pe : high_prefix m pe = [] → merge m l pe = l ++ pe.
Proof.
  intros Hh. unfold merge. rewrite Hh. cbn. unfold lows at 2. rewrite Hh. cbn.
  by rewrite app_assoc, high_prefix_lows.
Qed.

(** ** Putting a chain into a list *)

(** The chain [H] goes between [l1] and [l2]. *)
Lemma insert_chain m m' pl pl' l1 l2 H :
  spans m pl (l1 ++ l2) → NoDup (l1 ++ l2 ++ H) → H ≠ [] → core m' = core m → linked (nexts m') H →
  (∀ z, last l1 = Some z → nexts m' !! z = Some (head H)) →
  (∀ y b, last H = Some y → head l2 = Some b → nexts m' !! y = Some (Some b)) →
  (∀ i, i ∉ H → last l1 ≠ Some i → nexts m' !! i = nexts m !! i) →
  li_first pl' = match l1 with [] => head H | _ => li_first pl end →
  li_last pl' = match l2 with [] => last H | _ => li_last pl end →
  spans m' pl' (l1 ++ H ++ l2) ∧ moves m m' (l1 ++ l2 ++ H).
Proof.
  intros [Hnd Hl Hf Hla] Hnd2 HH Hc HlH Hz Hy Hframe Hfirst Hlast.
  apply linked_app in Hl as (Hl1 & Hl2 & _).
  assert (∀ i, i ∈ l1 → i ∉ l2 ∧ i ∉ H) as Hd1.
  { apply list.NoDup_app in Hnd2 as (_ & Hd & _). intros i Hi. specialize (Hd i Hi). set_solver. }
  assert (∀ i, i ∈ l2 → i ∉ H) as Hd2.
  { apply list.NoDup_app in Hnd2 as (_ & _ & Hnd2). by apply list.NoDup_app in Hnd2 as (_ & Hd & _). }
  split.
  2:{ split; [done|]. intros i Hi. apply Hframe; [set_solver|]. intros E%last_Some_elem_of. set_solver. }
  assert (linked (nexts m') l1) as Hl1'.
  { destruct (decide (l1 = [])) as [->|Hne]; [done|]. destruct (last l1) as [z|] eqn:Ez;
      [|by apply last_None in Ez]. destruct (last_Some l1 z) as [[l0 ->] _]; [done|].
    apply list.NoDup_app in Hnd as (Hnd & _). apply list.NoDup_app in Hnd as (_ & Hd & _).
    apply linked_app in Hl1 as (H1 & _ & H3). apply linked_app.
    assert (∀ i, i ∈ l0 → nexts m' !! i = nexts m !! i) as Hfr.
    { intros i Hi. apply Hframe; [apply Hd1; set_solver|]. intros [= ->]. apply (Hd i Hi). by left. }
    split_and!; [by eapply linked_frame| |].
    - cbn. rewrite (Hz z eq_refl). by eauto.
    - intros a b Ha Hb. rewrite Hfr; [by apply H3|by apply last_Some_elem_of]. }
  assert (linked (nexts m') l2) as Hl2'.
  { eapply linked_frame; [|exact Hl2]. intros i Hi. apply Hframe; [by apply Hd2|].
    intros E%last_Some_elem_of. by apply (Hd1 i) in E as [? _]. }
  split.
  - apply (NoDup_Permutation_proper _ (l1 ++ l2 ++ H)); [|done]. f_equiv. apply Permutation_app_comm.
  - apply linked_app. split_and!; [done| |].
    + apply linked_app. by split_and!.
    + intros a b Ha Hb. rewrite head_app in Hb. destruct H as [|h H]; [done|]. cbn in Hb. simplify_eq.
      by apply Hz.
  - intros _. rewrite Hfirst. destruct l1 as [|a l1]; [by destruct H|]. by rewrite Hf.
  - intros _. rewrite Hlast, app_assoc, last_app. destruct l2 as [|b l2].
    + rewrite last_app. cbn. destruct (last H) eqn:E; [done|]. by apply last_None in E.
    + rewrite Hla by by destruct l1. rewrite last_app.
      destruct (last (b :: l2)) eqn:E; [done|]. by apply last_None in E.
Qed.

(** ** Writing at the end *)

(** The list when [pe] was put at its end, or is all it has. *)
Definition with_end (pl : et_list) (l pe : list nat) : et_list :=
  pl <| li_first := match l with [] => head pe | _ => li_first pl end |> <| li_last := last pe |>.

Lemma attach_ok m pl l pe p0 :
  in_list m pl l → NoDup (l ++ pe) → known m pe → head pe = Some p0 →
  ∃ m1 pl1 m',
    (if li_cnt pl =? 0 then Ret (m, pl <| li_first := Some p0 |>)
     else m ← ev_set m (li_last pl) (λ e, e <| e_next := Some p0 |>); Ret (m, pl)) = Ret (m1, pl1) ∧
    link m1 pe = Ret m' ∧ pl1 <| li_last := last pe |> = with_end pl l pe ∧
    spans m' (with_end pl l pe) (l ++ pe) ∧ moves m m' (l ++ pe) ∧ owners m' = owners m.
Proof.
  intros [Hcnt Hs] Hnd Hk Hp. pose proof Hnd as (_ & Hdis & Hndp)%list.NoDup_app.
  assert (pe ≠ []) as Hne by by intros ->.
  destruct (decide (l = [])) as [->|Hl].
  - cbn in Hcnt. rewrite Hcnt, Z.eqb_refl. destruct (link_ok m pe Hk Hndp) as (m' & Hlink & Hlk & Ho & Hc & Hf).
    exists m, (pl <| li_first := Some p0 |>), m'. destruct (insert_chain m m' pl (with_end pl [] pe) [] [] pe)
      as [H Hm]; try done.
    { intros i Hi _. apply Hf. by left. }
    rewrite app_nil_r in H. cbn [app] in *. split_and!; try done. unfold with_end. by rewrite Hp.
  - destruct (last l) as [z|] eqn:Ez; [|by apply last_None in Ez].
    assert (z ∈ l) as Hzl by by apply last_Some_elem_of.
    replace (li_cnt pl =? 0) with false by (rewrite Hcnt; destruct l; [done|cbn; zcase]).
    rewrite (sp_last _ _ _ Hs Hl), Ez.
    assert (is_Some (m !! z)) as Hzm.
    { pose proof (spans_known _ _ _ Hs) as Hkl. unfold known in Hkl. rewrite Forall_forall in Hkl.
      apply Hkl. by apply list_elem_of_In. }
    destruct (set_next m z (Some p0) Hzm) as (m1 & -> & Hn1 & Ho1 & Hc1). step.
    destruct (link_ok m1 pe) as (m' & Hlink & Hlk & Ho & Hc & Hf); [by eapply known_core|done|].
    exists m1, pl, m'. assert (core m' = core m) as Hcc by congruence.
    assert (with_end pl l pe = pl <| li_last := last pe |>) as Hwe by (unfold with_end; by destruct l, pl).
    destruct (insert_chain m m' pl (with_end pl l pe) l [] pe) as [H Hm]; rewrite ?app_nil_r; try done.
    + intros z' Hz'. assert (z' = z) as -> by congruence. rewrite Hf by (left; by apply Hdis). by rewrite Hn1, lookup_insert_eq, Hp.
    + intros i Hi Hzi. rewrite Hf by (by left). rewrite Hn1. apply lookup_insert_ne. congruence.
    + rewrite app_nil_r in H. cbn [app] in Hm. split_and!; try done; congruence.
Qed.

Lemma et_llist_write_gc_ok nevents m pl l pe :
  in_list m pl l → NoDup (l ++ pe) → known m pe → pe ≠ [] →
  Z.of_nat (length l + length pe) ≤ nevents →
  ∃ m' pl', et_llist_write_gc nevents m pl pe = Ret (ET_OK, m', pl') ∧
    in_list m' pl' (l ++ pe) ∧ moves m m' (l ++ pe) ∧ owners m' = owners m ∧
    li_lock pl' = li_lock pl ∧ li_lasthigh pl' = li_lasthigh pl ∧
    li_events_in pl' = u64 (li_events_in pl + Z.of_nat (length pe)).
Proof.
  intros Hl Hnd Hk Hne Hle. pose proof Hl as [Hcnt _]. unfold et_llist_write_gc. rewrite Hcnt.
  replace (_ <? _) with false by (symmetry; apply Z.ltb_ge; lia).
  destruct pe as [|p0 pe]; [done|]. set (pes := p0 :: pe) in *.
  change (of_option (head pes)) with (Ret p0). step.
  destruct (attach_ok m pl l pes p0 Hl Hnd Hk eq_refl) as (m1 & pl1 & m' & H1 & H2 & Hpl & Hs & Hm & Ho).
  rewrite Hcnt in H1. cbn [mbind res_bind] in H1. rewrite H1. step. rewrite H2. step.
  eexists _, _. split; [done|]. rewrite Hpl. split_and!; try done.
  split; [|eapply spans_ext; [exact Hs|done|done]]. fields. unfold with_end. fields.
  rewrite Hcnt, length_app. lia.
Qed.

(** ** Writing by priority *)

(** Only the ends of the list are changed. *)
Definition same_ends (pl pl' : et_list) : Prop :=
  pl' = pl <| li_first := li_first pl' |> <| li_last := li_last pl' |>.

Lemma same_ends_refl pl : same_ends pl pl.
Proof. by destruct pl. Qed.

Lemma same_ends_trans pl1 pl2 pl3 : same_ends pl1 pl2 → same_ends pl2 pl3 → same_ends pl1 pl3.
Proof. unfold same_ends. destruct pl1, pl2, pl3. fields. intros [=] [=]. by subst. Qed.

Lemma lookup_high_prefix m p0 pe :
  (p0 :: pe) !! length (high_prefix m pe) = last (p0 :: high_prefix m pe).
Proof.
  rewrite last_lookup. cbn [length pred].
  assert (p0 :: pe = (p0 :: high_prefix m pe) ++ lows m pe) as H by (cbn; by rewrite high_prefix_lows).
  rewrite H at 1. apply lookup_app_l. cbn. lia.
Qed.

Lemma lookup_lows m p0 pe : (p0 :: pe) !! S (length (high_prefix m pe)) = head (lows m pe).
Proof.
  assert (p0 :: pe = (p0 :: high_prefix m pe) ++ lows m pe) as H by (cbn; by rewrite high_prefix_lows).
  rewrite H at 1. rewrite lookup_app_r by (cbn; lia). cbn. rewrite Nat.sub_diag. by destruct (lows m pe).
Qed.

(** The block of high priority, [H], goes after [hl], the events of high priority of the
    list; [m1] is the memory with its first event in place. *)
Lemma put_high_first m pl l p p0 lh :
  lh = last (high_prefix m l) → spans m pl l → l ≠ [] → p0 ∉ l → is_Some (m !! p0) →
  (∀ a, last (high_prefix m l) = Some a → nexts m !! a = Some p) →
  (high_prefix m l = [] → p = head l) →
  ∃ m1 pl1,
    (match lh with
     | Some _ =>
         h ← ev m lh;
         m ← ev_set m (Some p0) (λ e, e <| e_next := e_next h |>);
         m ← ev_set m lh (λ e, e <| e_next := Some p0 |>);
         Ret (m, pl)
     | None =>
         m ← ev_set m (Some p0) (λ e, e <| e_next := li_first pl |>);
         Ret (m, pl <| li_first := Some p0 |>)
     end) = Ret (m1, pl1) ∧ core m1 = core m ∧ owners m1 = owners m ∧ nexts m1 !! p0 = Some p ∧
    (∀ z, last (high_prefix m l) = Some z → nexts m1 !! z = Some (Some p0)) ∧
    (∀ i, i ≠ p0 → last (high_prefix m l) ≠ Some i → nexts m1 !! i = nexts m !! i) ∧
    pl1 = pl <| li_first := match high_prefix m l with [] => Some p0 | _ => li_first pl end |>.
Proof.
  intros -> Hs Hl Hp0 Hk Hz H0. pose proof (high_prefix_lows m l) as Hdec.
  destruct (last (high_prefix m l)) as [z|] eqn:Ez.
  - assert (z ∈ l) as Hzl by (rewrite <- Hdec; apply elem_of_app; left; by apply last_Some_elem_of).
    assert (is_Some (m !! z)) as Hzm.
    { pose proof (spans_known _ _ _ Hs) as Hkl. unfold known in Hkl. rewrite Forall_forall in Hkl.
      apply Hkl. by apply list_elem_of_In. }
    destruct (ev_known _ _ Hzm) as (e & -> & He). step.
    specialize (Hz z eq_refl). rewrite (nexts_lookup _ _ _ He) in Hz. injection Hz as ->.
    destruct (set_next m p0 p Hk) as (m1 & -> & Hn1 & Ho1 & Hc1). step.
    assert (is_Some (m1 !! z)) as Hzm1 by by eapply core_lookup.
    destruct (set_next m1 z (Some p0) Hzm1) as (m2 & -> & Hn2 & Ho2 & Hc2). step.
    assert (z ≠ p0) as Hne by by intros ->.
    exists m2, pl. split_and!; try congruence.
    + by rewrite Hn2, Hn1, lookup_insert_ne, lookup_insert_eq by done.
    + intros z' [= <-]. by rewrite Hn2, lookup_insert_eq.
    + intros i Hi Hi'. rewrite Hn2, Hn1, !lookup_insert_ne by congruence. done.
    + destruct (high_prefix m l); [done|by destruct pl].
  - apply last_None in Ez. rewrite Ez in *.
    destruct (set_next m p0 (li_first pl) Hk) as (m1 & -> & Hn1 & Ho1 & Hc1). step.
    rewrite (sp_first _ _ _ Hs Hl), <- H0 in Hn1 by done.
    eexists m1, _. split_and!; try done.
    + by rewrite Hn1, lookup_insert_eq.
    + intros i Hi _. by rewrite Hn1, lookup_insert_ne.
Qed.

(** The lows of the array go to the end of a list that is not empty. *)
Lemma put_lows_end m pl l pe :
  spans m pl l → l ≠ [] → pe ≠ [] → NoDup (l ++ pe) → known m pe →
  ∃ m1 m', link m pe = Ret m1 ∧
    ev_set m1 (li_last pl) (λ e, e <| e_next := head pe |>) = Ret m' ∧
    spans m' (pl <| li_last := last pe |>) (l ++ pe) ∧ moves m m' (l ++ pe) ∧ owners m' = owners m.
Proof.
  intros Hs Hl Hne Hnd Hk. pose proof Hnd as (_ & Hdis & Hndp)%list.NoDup_app.
  destruct (link_ok m pe Hk Hndp) as (m1 & Hlink & Hlk & Ho & Hc & Hf).
  destruct (last l) as [z|] eqn:Ez; [|by apply last_None in Ez].
  assert (z ∈ l) as Hzl by by apply last_Some_elem_of.
  assert (is_Some (m1 !! z)) as Hzm.
  { eapply core_lookup; [done|]. pose proof (spans_known _ _ _ Hs) as Hkl. unfold known in Hkl.
    rewrite Forall_forall in Hkl. apply Hkl. by apply list_elem_of_In. }
  destruct (set_next m1 z (head pe) Hzm) as (m2 & Hset & Hn2 & Ho2 & Hc2).
  assert (core m2 = core m) as Hcc by congruence.
  exists m1, m2. rewrite (sp_last _ _ _ Hs Hl), Ez.
  destruct (insert_chain m m2 pl (pl <| li_last := last pe |>) l [] pe) as [H Hm];
    rewrite ?app_nil_r; try done.
  - rewrite Hn2. apply linked_insert_out; [done|by apply Hdis].
  - intros z' Hz'. assert (z' = z) as -> by congruence. by rewrite Hn2, lookup_insert_eq.
  - intros i Hi Hzi. rewrite Hn2, lookup_insert_ne by congruence. apply Hf. by left.
  - by destruct l.
  - rewrite app_nil_r in H. cbn [app] in Hm. split_and!; try done; congruence.
Qed.

(** The block [p0] and the events of high priority of [pe] after those of the list; [after]
    is the first event of the list that is not of high priority. *)
Lemma put_highs m pl l p0 pe lh after :
  lh = last (high_prefix m l) → spans m pl l → l ≠ [] → NoDup (l ++ p0 :: pe) → known m (p0 :: pe) →
  (∀ a, last (high_prefix m l) = Some a → nexts m !! a = Some after) →
  (high_prefix m l = [] → after = head l) →
  ∃ m1 m' pl1,
    (match lh with
     | Some _ =>
         h ← ev m lh;
         m ← ev_set m (Some p0) (λ e, e <| e_next := e_next h |>);
         m ← ev_set m lh (λ e, e <| e_next := Some p0 |>);
         Ret (m, pl)
     | None =>
         m ← ev_set m (Some p0) (λ e, e <| e_next := li_first pl |>);
         Ret (m, pl <| li_first := Some p0 |>)
     end) = Ret (m1, pl1) ∧
    add_high m1 p0 pe after = Ret (m', length (high_prefix m pe)) ∧
    (∀ pl2, li_first pl2 = li_first pl1 →
            li_last pl2 = match lows m l with [] => last (p0 :: high_prefix m pe) | _ => li_last pl1 end →
            spans m' pl2 (high_prefix m l ++ (p0 :: high_prefix m pe) ++ lows m l)) ∧
    moves m m' (l ++ p0 :: high_prefix m pe) ∧ owners m' = owners m ∧ same_ends pl pl1.
Proof.
  intros Hlh Hs Hl Hnd Hk Hz H0. pose proof Hnd as (Hndl & Hdis & Hndp)%list.NoDup_app.
  assert (p0 ∉ l) as Hp0 by (intros H; apply (Hdis p0 H); by left).
  pose proof Hk as [Hp0k _]%Forall_cons_1.
  destruct (put_high_first m pl l after p0 lh Hlh Hs Hl Hp0 Hp0k Hz H0)
    as (m1 & pl1 & Hrun & Hc1 & Ho1 & Hn0 & Hnz & Hf1 & Hpl1).
  destruct (add_high_ok m1 p0 pe after) as (m2 & Hadd & Hl2 & Hla2 & Ho2 & Hc2 & Hf2);
    [by eapply known_core|done|done|].
  rewrite (high_prefix_core m m1) in * by done.
  pose proof (high_prefix_lows m l) as Hdec. pose proof (high_prefix_lows m pe) as Hdecp.
  set (H := p0 :: high_prefix m pe) in *. assert (H ⊆ p0 :: pe) as Hsub.
  { intros i [->|Hi]%elem_of_cons; [by left|right; by eapply high_prefix_sub]. }
  assert (∀ i, i ∈ l → i ∉ H) as HdisH by (intros i Hi Hi'; by eapply Hdis, Hsub).
  assert (NoDup (high_prefix m l ++ lows m l ++ H)) as Hnd3.
  { rewrite app_assoc, Hdec. apply list.NoDup_app. split_and!; [done|done|]. unfold H.
    rewrite <- Hdecp in Hndp. rewrite app_comm_cons in Hndp. by apply list.NoDup_app in Hndp as (? & _). }
  assert (∀ z, last (high_prefix m l) = Some z → z ∈ l) as Hzl.
  { intros z E%last_Some_elem_of. by eapply high_prefix_sub. }
  assert (p0 ∈ H) as HpH by by left.
  assert (core m2 = core m) as Hcc by congruence.
  exists m1, m2, pl1. split_and!; [done|done| |split; [done|]|congruence|].
  - intros pl2 Hfirst Hlast. subst pl1. fields. rewrite <- Hdec in Hs.
    destruct (insert_chain m m2 pl pl2 (high_prefix m l) (lows m l) H) as [Hres _]; try done.
    + intros z E. rewrite Hf2; [by apply Hnz|]. by apply HdisH, Hzl.
    + intros y b Hy Hb. rewrite (Hla2 y Hy). f_equal.
      destruct (high_prefix m l) as [|h t] eqn:Eh.
      * rewrite (H0 eq_refl), <- Hdec. done.
      * destruct (last (h :: t)) as [z|] eqn:Ez; [|by apply last_None in Ez].
        pose proof (sp_linked _ _ _ Hs) as (_ & _ & Hj)%linked_app. specialize (Hj z b Ez Hb).
        rewrite (Hz z eq_refl) in Hj. by injection Hj.
    + intros i Hi Hzi. rewrite Hf2 by done. apply Hf1; [by intros ->|done].
  - intros i [Hi1 Hi2]%not_elem_of_app. rewrite Hf2 by done. apply Hf1; [by intros ->|].
    intros E. by apply Hi1, Hzl.
  - subst pl1. by destruct pl.
Qed.

Lemma write_high_ok m pl l p0 pe :
  in_list m pl l → l ≠ [] → NoDup (l ++ p0 :: pe) → known m (p0 :: pe) → is_high m p0 = true →
  ∃ m' pl', write_high m pl p0 (p0 :: pe) = Ret (m', pl') ∧
    spans m' pl' (merge m l (p0 :: pe)) ∧ moves m m' (l ++ p0 :: pe) ∧
    owners m' = owners m ∧ same_ends pl pl'.
Proof.
  intros [Hcnt Hs] Hl Hnd Hk Hhigh. unfold write_high. rewrite Hcnt, Nat2Z.id, (sp_first _ _ _ Hs Hl).
  destruct (scan_high_linked m l None 0 (sp_linked _ _ _ Hs)) as (p & -> & Hz & H0). step.
  destruct (put_highs m pl l p0 pe (match last (high_prefix m l) with Some a => Some a | None => None end) p)
    as (m1 & m2 & pl1 & Hput & Hadd & Hsp & Hm2 & Ho2 & He1); try done.
  { by destruct (last (high_prefix m l)). }
  rewrite (sp_first _ _ _ Hs Hl) in Hput. cbn [mbind res_bind] in Hput. rewrite Hput. step. clear Hput.
  change (tail (p0 :: pe)) with pe. rewrite Hadd. step. rewrite lookup_high_prefix, lookup_lows.
  pose proof (high_prefix_lows m l) as Hdec. pose proof (high_prefix_lows m pe) as Hdecp.
  assert (li_cnt pl1 = Z.of_nat (length l)) as Hcnt1 by (rewrite He1; exact Hcnt).
  set (pl2 := if _ =? _ then _ else pl1).
  assert (same_ends pl1 pl2 ∧ li_first pl2 = li_first pl1 ∧
          li_last pl2 = match lows m l with [] => last (p0 :: high_prefix m pe) | _ => li_last pl1 end)
    as (He2 & Hf2 & Hla2).
  { assert (length l = length (high_prefix m l) + length (lows m l))%nat as Hlen
      by (rewrite <- length_app; by rewrite Hdec).
    unfold pl2. rewrite Hcnt1, Z.add_0_l, Hlen. destruct (lows m l) as [|b t]; [rewrite Nat.add_0_r, Z.eqb_refl; by destruct pl1|].
    replace (_ =? _) with false by (symmetry; apply Z.eqb_neq; cbn; lia). by destruct pl1. }
  specialize (Hsp pl2 Hf2 Hla2).
  assert (merge m l (p0 :: pe) = (high_prefix m l ++ (p0 :: high_prefix m pe) ++ lows m l) ++ lows m pe) as Hmerge.
  { unfold merge, lows at 2. cbn [high_prefix]. rewrite Hhigh. cbn. fold (lows m pe).
    rewrite <- app_assoc. cbn. by rewrite <- app_assoc. }
  pose proof (merge_perm m l (p0 :: pe)) as Hperm. rewrite Hmerge in *.
  assert (drop (S (length (high_prefix m pe))) (p0 :: pe) = lows m pe) as -> by done.
  assert (length (p0 :: pe) = S (length (high_prefix m pe) + length (lows m pe))) as ->
    by (rewrite <- length_app, Hdecp; done).
  assert (same_ends pl pl2) as Hends by by eapply same_ends_trans.
  assert (moves m m2 (l ++ p0 :: pe)) as Hmv.
  { eapply moves_weaken; [exact Hm2|]. intros i. rewrite !elem_of_app, !elem_of_cons.
    pose proof (high_prefix_sub m pe i). tauto. }
  destruct (lows m pe) as [|q lp] eqn:Elp.
  - rewrite app_nil_r. replace (_ <? _)%nat with false by (symmetry; apply Nat.ltb_ge; cbn; lia).
    by exists m2, pl2.
  - replace (_ <? _)%nat with true by (symmetry; apply Nat.ltb_lt; cbn; lia).
    destruct (put_lows_end m2 pl2 _ (q :: lp) Hsp) as (m3 & m4 & -> & Hset & Hs4 & Hm4 & Ho4).
    + by destruct (high_prefix m l).
    + done.
    + by rewrite Hperm.
    + eapply known_core; [apply Hm2|]. apply Forall_cons_1 in Hk as [_ Hk]. rewrite <- Hdecp in Hk.
      by apply Forall_app in Hk as [_ ?].
    + step. rewrite Hset. step. eexists m4, _. split; [done|].
      assert (last (p0 :: pe) = last (q :: lp)) as ->.
      { rewrite <- Hdecp, app_comm_cons, last_app. destruct (last (q :: lp)) eqn:E; [done|].
        by apply last_None in E. }
      split_and!; [done| |congruence|].
      * eapply moves_trans; [exact Hmv|]. eapply moves_weaken; [exact Hm4|]. intros i. by rewrite Hperm.
      * rewrite Hends. by destruct pl.
Qed.

(** Lines 1564-1635, whatever the priorities are. *)
Lemma write_any_ok m pl l p0 pe e0 :
  in_list m pl l → NoDup (l ++ p0 :: pe) → known m (p0 :: pe) → prios_ok m → m !! p0 = Some e0 →
  ∃ m' pl',
    (if (e_priority e0 =? ET_LOW) || (li_cnt pl =? 0) then write_end m pl p0 (p0 :: pe)
     else write_high m pl p0 (p0 :: pe)) = Ret (m', pl') ∧
    spans m' pl' (merge m l (p0 :: pe)) ∧ moves m m' (l ++ p0 :: pe) ∧
    owners m' = owners m ∧ same_ends pl pl'.
Proof.
  intros Hl Hnd Hk Hpr He0. destruct ((e_priority e0 =? ET_LOW) || (li_cnt pl =? 0)) eqn:Hc.
  - assert (merge m l (p0 :: pe) = l ++ p0 :: pe) as ->.
    { apply orb_true_iff in Hc as [Hc|Hc]; apply Z.eqb_eq in Hc.
      - apply merge_low. cbn. unfold is_high. by rewrite He0, Hc.
      - destruct Hl as [Hcnt _]. rewrite Hcnt in Hc. destruct l; [apply merge_nil_l|cbn in Hc; lia]. }
    destruct (attach_ok m pl l (p0 :: pe) p0 Hl Hnd Hk eq_refl) as (m1 & pl1 & m' & H1 & H2 & Hpl & Hs & Hm & Ho).
    unfold write_end. cbn [mbind res_bind] in H1. rewrite H1. step. rewrite H2. step.
    destruct (last (p0 :: pe)) as [z|] eqn:Ez; [|by apply last_None in Ez].
    cbn [of_option]. step. eexists _, _. split; [done|]. rewrite Hpl. split_and!; try done.
  - apply orb_false_iff in Hc as [Hc1 Hc2]. apply write_high_ok; try done.
    + intros ->. destruct Hl as [Hcnt _]. by rewrite Hcnt in Hc2.
    + unfold is_high. rewrite He0. destruct (Hpr _ _ He0) as [H|H]; rewrite H in *; done.
Qed.

Lemma et_llist_write_ok nevents m pl l pe :
  in_list m pl l → NoDup (l ++ pe) → known m pe → pe ≠ [] → prios_ok m →
  Z.of_nat (length l + length pe) ≤ nevents →
  ∃ m' pl', et_llist_write nevents m pl pe = Ret (Z.of_nat (length pe), m', pl') ∧
    in_list m' pl' (merge m l pe) ∧ moves m m' (l ++ pe) ∧ owners m' = owners m ∧
    li_lock pl' = li_lock pl ∧ li_lasthigh pl' = li_lasthigh pl ∧
    li_events_in pl' = u64 (li_events_in pl + Z.of_nat (length pe)).
Proof.
  intros Hl Hnd Hk Hne Hpr Hle. pose proof Hl as [Hcnt _]. destruct pe as [|p0 pe]; [done|].
  unfold et_llist_write. change (of_option (head (p0 :: pe))) with (Ret p0). step.
  pose proof Hk as [Hp0 _]%Forall_cons_1. destruct (ev_known _ _ Hp0) as (e0 & -> & He0). step.
  rewrite Hcnt. replace (Z.min _ _) with (Z.of_nat (length (p0 :: pe))) by lia.
  rewrite Nat2Z.id, firstn_all, <- Hcnt.
  destruct (write_any_ok m pl l p0 pe e0 Hl Hnd Hk Hpr He0) as (m' & pl' & -> & Hs & Hm & Ho & He). step.
  assert (li_cnt pl' = li_cnt pl ∧ li_lock pl' = li_lock pl ∧ li_lasthigh pl' = li_lasthigh pl ∧
          li_events_in pl' = li_events_in pl) as (H1 & H2 & H3 & H4) by (rewrite He; done).
  eexists _, _. split; [done|]. fields. rewrite H4. split_and!; try done.
  split; [|by eapply spans_ext]. fields. rewrite H1, Hcnt, (Permutation_length (merge_perm m l (p0 :: pe))), length_app. lia.
Qed.

(** ** Reading *)

Lemma et_llist_read_ok m pl l :
  in_list m pl l → l ≠ [] →
  et_llist_read m pl =
    Ret (Z.of_nat (length l), l,
         pl <| li_first := None |> <| li_cnt := 0 |> <| li_lasthigh := 0 |>
            <| li_events_out ::= λ x, u64 (x + li_cnt pl) |>).
Proof.
  intros [Hcnt Hs] Hl. unfold et_llist_read. rewrite Hcnt.
  replace (_ =? _) with false by (symmetry; apply Z.eqb_neq; destruct l; [done|cbn; lia]).
  rewrite Nat2Z.id, (sp_first _ _ _ Hs Hl).
  pose proof (follow_linked m l []) as Hf. rewrite app_nil_r in Hf. rewrite Hf by apply Hs. done.
Qed.

Lemma et_llist_read_empty m pl : li_cnt pl = 0 → et_llist_read m pl = Ret (ET_ERROR, [], pl).
Proof. intros Hcnt. unfold et_llist_read. by rewrite Hcnt. Qed.
