(* ===== verification/EtStationSpec.v ===== *)
(** * What the operations on the lists of a station do to their sequences

    Attachments write to the output list of their station and read from its input list.
    The field [lasthigh] of an output list is the number of its events of high priority. *)

From S2P Require Import Prelude Words EtTypes EtLists EtSegments EtListSpec.

(** An output list: events of high priority come first, and are counted. *)
Record out_list (m : evs) (pl : et_list) (l : list nat) : Prop := OutList {
  ol_list : in_list m pl l;
  ol_sorted : sorted m l;
  ol_lasthigh : li_lasthigh pl = Z.of_nat (length (high_prefix m l))
}.

(** ** Single events *)

Lemma spans_nexts m m' pl l : spans m pl l → nexts m' = nexts m → spans m' pl l.
Proof. intros [] H. split; try done. by rewrite H. Qed.

Lemma spans_single m pl x :
  is_Some (m !! x) → li_first pl = Some x → li_last pl = Some x → spans m pl [x].
Proof.
  intros [e He] Hf Hl. split; try done; [apply NoDup_singleton|]. split; [|done].
  rewrite (nexts_lookup _ _ _ He). eauto.
Qed.

Lemma append_one m pl l x :
  spans m pl l → l ≠ [] → x ∉ l → is_Some (m !! x) →
  ∃ m', ev_set m (li_last pl) (λ e, e <| e_next := Some x |>) = Ret m' ∧
    spans m' (pl <| li_last := Some x |>) (l ++ [x]) ∧ moves m m' (l ++ [x]) ∧ owners m' = owners m.
Proof.
  intros Hs Hl Hx Hk. destruct (put_lows_end m pl l [x]) as (m1 & m' & [= ->] & H); try done.
  - apply list.NoDup_app. split_and!; [apply Hs|set_solver|apply NoDup_singleton].
  - by constructor.
  - by exists m'.
Qed.

Lemma merge_high m l x : is_high m x = true → merge m l [x] = high_prefix m l ++ x :: lows m l.
Proof. intros H. unfold merge, lows at 2. cbn. rewrite H. cbn. by rewrite app_nil_r. Qed.

Lemma scan_after m pl l :
  spans m pl l →
  ∃ p, (∀ a, last (high_prefix m l) = Some a → nexts m !! a = Some p) ∧
       (high_prefix m l = [] → p = head l).
Proof. intros Hs. destruct (scan_high_linked m l None 0 (sp_linked _ _ _ Hs)) as (p & _ & H). by exists p. Qed.

Lemma last_lows m l z :
  NoDup l → last (high_prefix m l) = Some z → (last l = Some z ↔ lows m l = []).
Proof.
  intros Hnd Hz. pose proof (high_prefix_lows m l) as Hdec. rewrite <- Hdec in Hnd |- * at 1.
  apply list.NoDup_app in Hnd as (_ & Hd & _). rewrite last_app. split; [|by intros ->].
  destruct (last (lows m l)) as [y|] eqn:Ey; [|by apply last_None in Ey].
  intros [= ->]. exfalso. eapply Hd; by apply last_Some_elem_of.
Qed.

(** With events of low priority in the list, or no other ones. *)
Lemma put_high_between m pl l x :
  spans m pl l → lows m l ≠ [] → x ∉ l → is_Some (m !! x) →
  ∃ m' pl',
    (match last (high_prefix m l) with
     | Some _ =>
         h ← ev m (last (high_prefix m l));
         m1 ← ev_set m (Some x) (λ e, e <| e_next := e_next h |>);
         m2 ← ev_set m1 (last (high_prefix m l)) (λ e, e <| e_next := Some x |>);
         Ret (m2, pl)
     | None =>
         m1 ← ev_set m (Some x) (λ e, e <| e_next := li_first pl |>);
         Ret (m1, pl <| li_first := Some x |>)
     end) = Ret (m', pl') ∧
    spans m' pl' (high_prefix m l ++ x :: lows m l) ∧
    moves m m' (l ++ [x]) ∧ owners m' = owners m ∧ same_ends pl pl'.
Proof.
  intros Hs Hlows Hx Hk. destruct (scan_after m pl l Hs) as (p & Hz & H0).
  assert (l ≠ []) as Hl by by intros ->.
  destruct (put_highs m pl l x [] _ p eq_refl Hs Hl) as (m1 & m2 & pl1 & Hrun & [= ->] & Hsp & Hm & Ho & He);
    try done.
  - apply list.NoDup_app. split_and!; [apply Hs|set_solver|apply NoDup_singleton].
  - by constructor.
  - exists m2, pl1. split; [exact Hrun|]. split_and!; try done. apply Hsp; [done|]. by destruct (lows m l).
Qed.

Lemma put_high_ok m pl l x :
  spans m pl l → l ≠ [] → x ∉ l → is_high m x = true → is_Some (m !! x) →
  ∃ m' pl', put_high m pl (last l) (last (high_prefix m l)) x = Ret (m', pl', last (merge m l [x])) ∧
    spans m' pl' (merge m l [x]) ∧ moves m m' (l ++ [x]) ∧ owners m' = owners m ∧ same_ends pl pl'.
Proof.
  intros Hs Hl Hx Hh Hk. rewrite merge_high by done. unfold put_high.
  pose proof (high_prefix_lows m l) as Hdec.
  assert (lows m l ≠ [] → last (high_prefix m l ++ x :: lows m l) = last l) as Hlast.
  { intros Hne. rewrite <- Hdec at 3. rewrite !last_app, last_cons.
    destruct (last (lows m l)) eqn:E; [done|]. by apply last_None in E. }
  destruct (last (high_prefix m l)) as [z|] eqn:Ez.
  - case_bool_decide as Hzl.
    + symmetry in Hzl. pose proof (proj1 (last_lows m l z (sp_nodup _ _ _ Hs) Ez) Hzl) as Hlow.
      rewrite <- (sp_last _ _ _ Hs Hl). destruct (append_one m pl l x Hs Hl Hx Hk) as (m' & -> & H1 & H2 & H3). step.
      rewrite Hlow, app_nil_r in *. rewrite Hdec, last_snoc. eexists _, _. split_and!; done.
    + assert (lows m l ≠ []) as Hne by (intros H; apply Hzl; symmetry; by apply (last_lows m l z (sp_nodup _ _ _ Hs) Ez)).
      destruct (put_high_between m pl l x Hs Hne Hx Hk) as (m' & pl' & Hrun & H). rewrite Ez in Hrun.
      exists m', pl'. split; [|done]. rewrite Hlast by done.
      apply res_bind_ret in Hrun as (h & Hh1 & Hrun). rewrite Hh1. step.
      apply res_bind_ret in Hrun as (m1 & Hm1 & Hrun). rewrite Hm1. step.
      apply res_bind_ret in Hrun as (m2 & Hm2 & [= -> ->]). by rewrite Hm2.
  - assert (lows m l ≠ []) as Hne by (apply last_None in Ez; rewrite Ez in Hdec; cbn in Hdec; by rewrite Hdec).
    destruct (put_high_between m pl l x Hs Hne Hx Hk) as (m' & pl' & Hrun & H). rewrite Ez in Hrun.
    exists m', pl'. split; [|done]. rewrite Hlast by done.
    apply res_bind_ret in Hrun as (m1 & Hm1 & [= -> <-]). by rewrite Hm1.
Qed.

(** ** Writing to an output list *)

Lemma out_list_core m m' pl pl' l :
  out_list m pl l → core m' = core m → nexts m' = nexts m → li_cnt pl' = li_cnt pl →
  li_first pl' = li_first pl → li_last pl' = li_last pl → li_lasthigh pl' = li_lasthigh pl →
  out_list m' pl' l.
Proof.
  intros [[Hc Hs] Hso Hla] Hco Hn H1 H2 H3 H4. split.
  - split; [by rewrite H1|]. eapply spans_ext; [|done..]. by eapply spans_nexts.
  - by eapply sorted_core.
  - by rewrite H4, (high_prefix_core m m').
Qed.

(** One more event in the list. *)
Lemma out_list_snoc m m' pl pl' l x :
  out_list m pl l → core m' = core m → spans m' pl' (merge m l [x]) →
  li_cnt pl' = li_cnt pl + 1 →
  li_lasthigh pl' = li_lasthigh pl + (if is_high m x then 1 else 0) →
  out_list m' pl' (merge m l [x]).
Proof.
  intros [[Hc Hs] Hso Hla] Hco Hs' H1 H2.
  split.
  - split; [|done]. rewrite H1, Hc, (Permutation_length (merge_perm m l [x])), length_app. cbn. lia.
  - eapply sorted_core, merge_sorted; try done. apply sorted_single.
  - rewrite H2, (high_prefix_core m m'), Hla by done.
    rewrite high_prefix_merge, length_app by (done || apply sorted_single).
    cbn. destruct (is_high m x); cbn; lia.
Qed.

(** What writing keeps of a list. *)
Definition kept (pl pl' : et_list) : Prop :=
  li_lock pl' = li_lock pl ∧ li_events_try pl' = li_events_try pl ∧
  li_events_in pl' = li_events_in pl ∧ li_events_out pl' = li_events_out pl.

Lemma same_ends_kept pl pl' :
  same_ends pl pl' → kept pl pl' ∧ li_cnt pl' = li_cnt pl ∧ li_lasthigh pl' = li_lasthigh pl.
Proof. unfold kept. by intros ->. Qed.

Lemma kept_after_trans pl1 pl2 pl3 : kept pl1 pl2 → kept pl2 pl3 → kept pl1 pl3.
Proof. unfold kept. intuition congruence. Qed.

Lemma high_of_priority m x e :
  prios_ok m → m !! x = Some e → is_high m x = negb (e_priority e =? ET_LOW) ∧
  (e_priority e =? ET_HIGH) = negb (e_priority e =? ET_LOW).
Proof. intros Hp He. unfold is_high. rewrite He. by destruct (Hp x e He) as [-> | ->]. Qed.

Lemma in_list_empty m pl l : in_list m pl l → (li_cnt pl =? 0) = bool_decide (l = []).
Proof. intros [-> _]. by destruct l. Qed.

(** The last event of high priority, found by counting. *)
Lemma find_lasthigh m pl l :
  out_list m pl l → l ≠ [] →
  (if li_lasthigh pl =? 0 then Ret None else walk m (li_first pl) (Z.to_nat (li_lasthigh pl - 1))) =
    Ret (last (high_prefix m l)).
Proof.
  intros [[_ Hs] _ Hla] Hl. rewrite Hla. destruct (high_prefix m l) as [|h t] eqn:Eh; [done|].
  replace (_ =? 0) with false by (symmetry; apply Z.eqb_neq; cbn; lia).
  rewrite (sp_first _ _ _ Hs Hl). replace (Z.to_nat _) with (length t) by (cbn; lia).
  pose proof (f_equal length (high_prefix_lows m l)) as H. rewrite length_app, Eh in H. cbn in H.
  rewrite walk_linked by (apply Hs || lia). rewrite <- (high_prefix_lows m l), Eh.
  rewrite lookup_app_l, last_lookup by (cbn; lia). done.
Qed.

Lemma put_one_ok m pl l x :
  out_list m pl l → x ∉ l → is_Some (m !! x) → prios_ok m →
  ∃ m' pl', put_one m pl x = Ret (m', pl') ∧ spans m' pl' (merge m l [x]) ∧
    moves m m' (l ++ [x]) ∧ owners m' = owners m ∧ kept pl pl' ∧ li_cnt pl' = li_cnt pl ∧
    li_lasthigh pl' = li_lasthigh pl + (if is_high m x then 1 else 0).
Proof.
  intros [Hin Hso Hla] Hx Hk Hpr. unfold put_one. destruct (ev_known _ _ Hk) as (e & -> & He). step.
  destruct (high_of_priority m x e Hpr He) as [Hh Hhp]. rewrite Hhp, (in_list_empty m pl l Hin).
  pose proof Hin as [Hcnt Hs]. case_bool_decide as Hl.
  - subst l. cbn in Hla. rewrite merge_nil_l. eexists _, _. split; [done|]. fields. rewrite Hla, Hh.
    split_and!; try done. by apply spans_single.
  - rewrite Hh. destruct (e_priority e =? ET_LOW) eqn:Hlow; cbn [negb] in *.
    + destruct (append_one m pl l x Hs Hl Hx Hk) as (m' & -> & H1 & H2 & H3). step.
      eexists _, _. split; [done|]. rewrite merge_low by (cbn; by rewrite Hh). fields.
      split_and!; try done. lia.
    + rewrite (find_lasthigh m pl l) by done.
      step. rewrite (sp_last _ _ _ Hs Hl).
      destruct (put_high_ok m pl l x Hs Hl Hx) as (m' & pl' & -> & H1 & H2 & H3 & H4); [by rewrite Hh|done|]. step.
      apply same_ends_kept in H4 as (H4 & H5 & H6). eexists _, _. split; [done|]. fields. rewrite H6.
      split_and!; try done. by eapply spans_ext.
Qed.

(** The owners when the events [pe] are given to [o]. *)
Definition give (o : Z) (pe : list nat) (O : gmap nat Z) : gmap nat Z := foldl (λ O i, <[i := o]> O) O pe.

(** What writing to the output list of a station keeps of it. *)
Definition out_written (s s' : et_station) : Prop :=
  s' = s <| s_out := s_out s' |> <| s_fixout := s_fixout s' |> ∧
  kept (s_out s) (s_out s') ∧ fo_start (s_fixout s') = fo_start (s_fixout s).

Lemma in_list_cnt m pl l : in_list m pl l → li_cnt pl = Z.of_nat (length l).
Proof. by intros []. Qed.

(** The station with its output list locked, and the information for the repair. *)
Lemma start_out_list m s l num :
  in_list m (s_out s) l → li_lock (s_out s) = false →
  let s1 := start_out (s <| s_out := s_out s <| li_lock := true |> |>) num in
  in_list m (s_out s1) l ∧ li_lasthigh (s_out s1) = li_lasthigh (s_out s) ∧
  kept (s_out s <| li_lock := true |>) (s_out s1) ∧
  s1 = s <| s_out := s_out s1 |> <| s_fixout := s_fixout s1 |> ∧
  fo_start (s_fixout s1) = fo_start (s_fixout s) + 1.
Proof.
  intros [Hcnt [Hnd Hl Hf Hla]] Hlock. unfold start_out. fields. rewrite Hcnt. unfold kept.
  destruct l as [|a l]; cbn; fields; split_and!; done.
Qed.

Lemma start_out_ok m s l num :
  out_list m (s_out s) l → li_lock (s_out s) = false →
  let s1 := start_out (s <| s_out := s_out s <| li_lock := true |> |>) num in
  out_list m (s_out s1) l ∧ kept (s_out s <| li_lock := true |>) (s_out s1) ∧
  s1 = s <| s_out := s_out s1 |> <| s_fixout := s_fixout s1 |> ∧
  fo_start (s_fixout s1) = fo_start (s_fixout s) + 1.
Proof.
  intros [Hin Hso Hlh] Hlock s1. destruct (start_out_list m s l num Hin Hlock) as (H1 & H2 & H3).
  split; [|done]. split; [done..|]. unfold s1. by rewrite H2.
Qed.

Lemma end_out_ok s s1 pl :
  li_lock (s_out s) = false → kept (s_out s <| li_lock := true |>) pl →
  s1 = s <| s_out := s_out s1 |> <| s_fixout := s_fixout s1 |> →
  fo_start (s_fixout s1) = fo_start (s_fixout s) + 1 → out_written s (end_out s1 pl).
Proof.
  intros Hlock Hk Hs1 Hst. unfold out_written, end_out, kept in *. fields. rewrite Hst.
  split_and!; [|symmetry; exact Hlock|tauto..|lia]. clear -Hs1. destruct s1, s.
  unfold update in *. cbn in *. injection Hs1 as. by subst.
Qed.

Lemma et_station_write_ok nevents m s l x :
  out_list m (s_out s) l → li_lock (s_out s) = false → x ∉ l → is_Some (m !! x) → prios_ok m →
  Z.of_nat (length l) < nevents →
  ∃ m' s', et_station_write nevents m s x = Ret (ET_OK, m', s') ∧
    out_list m' (s_out s') (merge m l [x]) ∧ moves m m' (l ++ [x]) ∧
    owners m' = give ET_SYS [x] (owners m) ∧ out_written s s'.
Proof.
  intros Hout Hlock Hx Hk Hpr Hlt. unfold et_station_write, et_llist_lock. rewrite Hlock. step. fields.
  rewrite (in_list_cnt _ _ _ (ol_list _ _ _ Hout)).
  replace (_ <=? _) with false by (symmetry; apply Z.leb_gt; lia).
  destruct (start_out_ok m s l 1 Hout Hlock) as (Hout1 & Hk1 & Hs1 & Hst). set (s1 := start_out _ 1) in *.
  destruct (put_one_ok m (s_out s1) l x Hout1 Hx Hk Hpr) as (m1 & pl1 & -> & H1 & H2 & H3 & H4 & H5 & H6). step.
  assert (is_Some (m1 !! x)) as Hkx by (eapply core_lookup; [apply H2|done]).
  destruct (set_owner m1 x ET_SYS Hkx) as (m2 & -> & Hn & Ho & Hc). step.
  assert (core m2 = core m) as Hcc by (rewrite Hc; apply H2).
  eexists _, _. split; [done|]. destruct H2 as [H2 Hf]. split_and!.
  - unfold end_out, et_llist_unlock. fields. eapply out_list_snoc; [exact Hout1|done| |fields; lia|fields; done]. eapply spans_ext; [eapply spans_nexts; [exact H1|done]|done..].
  - split; [done|]. intros i Hi. rewrite Hn. by apply Hf.
  - rewrite Ho, H3. done.
  - apply end_out_ok; try done. eapply kept_after_trans; [exact Hk1|]. by eapply kept_after_trans; [exact H4|].
Qed.

(** ** Writing several events *)

(** The events are put into the list one after the other. *)
Definition insert_all (m : evs) (l pe : list nat) : list nat := foldl (λ l x, merge m l [x]) l pe.

Lemma insert_all_core m m' l pe : core m' = core m → insert_all m' l pe = insert_all m l pe.
Proof.
  intros Hc. revert l. induction pe as [|x pe IH]; intros l; [done|]. cbn.
  rewrite (merge_core m m') by done. apply IH.
Qed.

(** The order that results: events of high priority first, those of a priority in the
    order in which they came. *)
Lemma insert_all_eq m l pe :
  sorted m l →
  insert_all m l pe =
    (high_prefix m l ++ filter (λ x, is_high m x = true) pe) ++
    (lows m l ++ filter (λ x, is_high m x = false) pe).
Proof.
  revert l. induction pe as [|x pe IH]; intros l Hl.
  { cbn. by rewrite !app_nil_r, high_prefix_lows. }
  pose proof (sorted_single m x) as Hx. cbn [insert_all foldl]. fold (insert_all m (merge m l [x]) pe).
  rewrite IH, high_prefix_merge, lows_merge by (done || by apply merge_sorted).
  rewrite !filter_cons. unfold lows at 2. cbn. destruct (is_high m x); cbn; by rewrite <- ?app_assoc, ?app_nil_r.
Qed.

Lemma insert_all_perm m l pe : insert_all m l pe ≡ₚ l ++ pe.
Proof.
  revert l. induction pe as [|x pe IH]; intros l; cbn; [by rewrite app_nil_r|].
  fold (insert_all m (merge m l [x]) pe). rewrite IH, merge_perm, <- app_assoc. done.
Qed.

Lemma give_cons o x pe O : give o (x :: pe) O = give o pe (<[x := o]> O).
Proof. done. Qed.

Lemma nwrite_loop_ok m pl l pe :
  out_list m pl l → l ≠ [] → NoDup (l ++ pe) → known m pe → prios_ok m →
  ∃ m' pl', nwrite_loop m pl (last l) (last (high_prefix m l)) pe = Ret (m', pl') ∧
    out_list m' pl' (insert_all m l pe) ∧ moves m m' (l ++ pe) ∧
    owners m' = give ET_SYS pe (owners m) ∧ kept pl pl'.
Proof.
  revert m pl l. induction pe as [|x pe IH]; intros m pl l Hout Hl Hnd Hk Hpr; [by exists m, pl|].
  apply Forall_cons_1 in Hk as [Hx Hk]. cbn [nwrite_loop].
  assert (x ∉ l) as Hxl by (apply list.NoDup_app in Hnd as (_ & Hd & _); intros H; apply (Hd x H); by left).
  destruct (ev_known _ _ Hx) as (e & -> & He). cbn [mbind res_bind].
  destruct (high_of_priority m x e Hpr He) as [Hh _].
  pose proof (ol_list _ _ _ Hout) as [Hcnt Hs]. pose proof (ol_sorted _ _ _ Hout) as Hso.
  assert (∃ m1 pl1,
    (if e_priority e =? ET_LOW then
       m' ← ev_set m (last l) (λ e, e <| e_next := Some x |>);
       Ret (m', pl <| li_last := Some x |>, Some x, last (high_prefix m l))
     else
 '(m', pl', last) ← put_high m pl (last l) (last (high_prefix m l)) x;
       Ret (m', pl' <| li_lasthigh ::= λ x, x + 1 |>, last, Some x)) =
      Ret (m1, pl1, last (merge m l [x]), last (high_prefix m (merge m l [x]))) ∧
    spans m1 pl1 (merge m l [x]) ∧ moves m m1 (l ++ [x]) ∧ owners m1 = owners m ∧ kept pl pl1 ∧
    li_cnt pl1 = li_cnt pl ∧ li_lasthigh pl1 = li_lasthigh pl + (if is_high m x then 1 else 0)) as
    (m1 & pl1 & Hrun & H1 & H2 & H3 & H4 & H5 & H6).
  { rewrite high_prefix_merge by (done || apply sorted_single). cbn [high_prefix]. rewrite Hh.
    destruct (e_priority e =? ET_LOW) eqn:Hlow; cbn [negb] in *.
    - destruct (append_one m pl l x Hs Hl Hxl Hx) as (m' & Hset & H1 & H2 & H3).
      rewrite (sp_last _ _ _ Hs Hl) in Hset. rewrite Hset. cbn [mbind res_bind].
      rewrite merge_low by (cbn; by rewrite Hh). rewrite last_snoc, app_nil_r.
      eexists _, _. split; [done|]. fields. split_and!; try done. lia.
    - destruct (put_high_ok m pl l x Hs Hl Hxl Hh Hx) as (m' & pl' & -> & H1 & H2 & H3 & H4).
      cbn [mbind res_bind]. apply same_ends_kept in H4 as (H4 & H5 & H6). rewrite last_snoc.
      eexists _, _. split; [done|]. fields. rewrite H6. split_and!; try done. by eapply spans_ext. }
  rewrite Hrun. cbn [mbind res_bind].
  assert (core m1 = core m) as Hc1 by apply H2.
  assert (is_Some (m1 !! x)) as Hx1 by by eapply core_lookup.
  destruct (set_owner m1 x ET_SYS Hx1) as (m2 & -> & Hn & Ho & Hc). cbn [mbind res_bind].
  assert (core m2 = core m) as Hcc by congruence.
  rewrite <- (high_prefix_core m m2) by done.
  pose proof (merge_perm m l [x]) as Hperm.
  destruct (IH m2 (pl1 <| li_cnt ::= λ x, x + 1 |>) (merge m l [x])) as (m3 & pl3 & -> & G1 & G2 & G3 & G4).
  - eapply out_list_snoc; [exact Hout|done| |fields; lia|fields; done].
    eapply spans_ext; [eapply spans_nexts; [exact H1|done]|done..].
  - intros E. rewrite E in Hperm. apply Permutation_nil_l in Hperm. by destruct l.
  - rewrite Hperm, <- app_assoc. done.
  - by eapply known_core.
  - by eapply prios_ok_core.
  - eexists _, _. split; [done|]. split_and!.
    + by rewrite (insert_all_core m m2) in G1.
    + eapply moves_trans; [|eapply moves_weaken; [exact G2|intros i; rewrite Hperm, <- app_assoc; done]].
      split; [done|]. intros i Hi. rewrite Hn. apply H2. clear -Hi. set_solver.
    + by rewrite G3, Ho, H3.
    + eapply kept_after_trans; [exact H4|]. done.
Qed.

Lemma nwrite_body_ok m pl l p0 rest :
  out_list m pl l → NoDup (l ++ p0 :: rest) → known m (p0 :: rest) → prios_ok m →
  ∃ m1 pl1 lasthigh pe1 m' pl',
    (if li_cnt pl =? 0 then
       m ← ev_set m (Some p0) (λ e, e <| e_owner := ET_SYS |>);
       e ← ev m (Some p0);
       let pl := pl <| li_first := Some p0 |> <| li_last := Some p0 |> <| li_cnt ::= λ x, x + 1 |> in
       Ret (if e_priority e =? ET_HIGH then (m, pl <| li_lasthigh := 1 |>, Some p0, rest)
            else (m, pl, None, rest))
     else if negb (li_lasthigh pl =? 0) then
       h ← walk m (li_first pl) (Z.to_nat (li_lasthigh pl - 1));
       Ret (m, pl, h, p0 :: rest)
     else Ret (m, pl, None, p0 :: rest)) = Ret (m1, pl1, lasthigh, pe1) ∧
    nwrite_loop m1 pl1 (li_last pl1) lasthigh pe1 = Ret (m', pl') ∧
    out_list m' pl' (insert_all m l (p0 :: rest)) ∧ moves m m' (l ++ p0 :: rest) ∧
    owners m' = give ET_SYS (p0 :: rest) (owners m) ∧ kept pl pl'.
Proof.
  intros Hout Hnd Hk Hpr. pose proof (ol_list _ _ _ Hout) as Hin. pose proof Hin as [Hcnt Hs].
  rewrite (in_list_empty m pl l Hin). case_bool_decide as Hl.
  - subst l. pose proof Hk as [Hp0 Hkr]%Forall_cons_1.
    destruct (set_owner m p0 ET_SYS Hp0) as (m1 & -> & Hn & Ho & Hc). step.
    assert (is_Some (m1 !! p0)) as Hp1 by by eapply core_lookup.
    assert (prios_ok m1) as Hpr1 by by eapply prios_ok_core.
    destruct (ev_known _ _ Hp1) as (e & -> & He). step.
    destruct (high_of_priority m1 p0 e Hpr1 He) as [Hh Hhp]. rewrite <- Hh in Hhp. rewrite Hhp.
    pose proof (ol_lasthigh _ _ _ Hout) as Hla. cbn in Hla, Hcnt.
    set (pl0 := pl <| li_first := Some p0 |> <| li_last := Some p0 |> <| li_cnt ::= λ x, x + 1 |>).
    set (pl1 := if is_high m1 p0 then pl0 <| li_lasthigh := 1 |> else pl0).
    assert (li_first pl1 = Some p0 ∧ li_last pl1 = Some p0 ∧ li_cnt pl1 = 1 ∧ kept pl pl1 ∧
            li_lasthigh pl1 = Z.of_nat (length (high_prefix m1 [p0]))) as (G1 & G2 & G3 & G4 & G5).
    { unfold pl1, pl0. cbn [high_prefix]. destruct (is_high m1 p0); fields; rewrite ?Hcnt, ?Hla; done. }
    assert (out_list m1 pl1 [p0]) as Hout1.
    { split; [split; [done|by apply spans_single]|apply sorted_single|done]. }
    destruct (nwrite_loop_ok m1 pl1 [p0] rest Hout1) as (m' & pl' & Hrun & H1 & H2 & H3 & H4);
      [done|done|by eapply known_core|done|].
    exists m1, pl1, (last (high_prefix m1 [p0])), rest, m', pl'. split_and!.
    + unfold pl1. cbn [high_prefix]. by destruct (is_high m1 p0).
    + rewrite G2. exact Hrun.
    + rewrite (insert_all_core m m1) in H1 by done. cbn [insert_all foldl]. rewrite merge_nil_l. exact H1.
    + destruct H2 as [H2 Hf]. split; [congruence|]. intros i Hi. rewrite Hf, Hn by done. done.
    + by rewrite H3, Ho.
    + by eapply kept_after_trans.
  - pose proof (find_lasthigh m pl l Hout Hl) as Hfind.
    destruct (nwrite_loop_ok m pl l (p0 :: rest) Hout Hl Hnd Hk Hpr) as (m' & pl' & Hrun & H).
    exists m, pl, (last (high_prefix m l)), (p0 :: rest), m', pl'.
    rewrite (sp_last _ _ _ Hs Hl). split; [|done]. destruct (li_lasthigh pl =? 0); cbn [negb].
    + by injection Hfind as <-.
    + by rewrite Hfind.
Qed.

Lemma et_station_nwrite_ok nevents m s l pe :
  out_list m (s_out s) l → li_lock (s_out s) = false → NoDup (l ++ pe) → known m pe → prios_ok m →
  Z.of_nat (length l + length pe) ≤ nevents →
  ∃ m' s', et_station_nwrite nevents m s pe = Ret (ET_OK, m', s') ∧
    out_list m' (s_out s') (insert_all m l pe) ∧ moves m m' (l ++ pe) ∧
    owners m' = give ET_SYS pe (owners m) ∧ out_written s s'.
Proof.
  intros Hout Hlock Hnd Hk Hpr Hle. destruct pe as [|p0 rest].
  { exists m, s. split_and!; try done. by destruct s. }
  unfold et_station_nwrite, et_llist_lock. rewrite Hlock. step. fields.
  rewrite (in_list_cnt _ _ _ (ol_list _ _ _ Hout)).
  replace (_ <? _) with false by (symmetry; apply Z.ltb_ge; lia).
  set (n := Z.of_nat (length (p0 :: rest))).
  destruct (start_out_ok m s l n Hout Hlock) as (Hout1 & Hk1 & Hs1 & Hst). set (s1 := start_out _ n) in *.
  destruct (nwrite_body_ok m (s_out s1) l p0 rest Hout1 Hnd Hk Hpr)
    as (m1 & pl1 & lh & pe1 & m' & pl' & Hrun & Hloop & H1 & H2 & H3 & H4).
  cbn [mbind res_bind] in Hrun. rewrite Hrun. step. rewrite Hloop. step.
  exists m', (end_out s1 pl'). split_and!; try done.
  - unfold end_out, et_llist_unlock. fields. by eapply out_list_core.
  - apply end_out_ok; try done. by eapply kept_after_trans.
Qed.

(** ** Appending, whatever the priorities *)

Lemma append_loop_ok m pl l pe :
  in_list m pl l → l ≠ [] → NoDup (l ++ pe) → known m pe →
  ∃ m' pl', append_loop m pl (last l) pe = Ret (m', pl') ∧ in_list m' pl' (l ++ pe) ∧
    moves m m' (l ++ pe) ∧ owners m' = give ET_SYS pe (owners m) ∧ kept pl pl' ∧
    li_lasthigh pl' = li_lasthigh pl.
Proof.
  revert m pl l. induction pe as [|x pe IH]; intros m pl l [Hcnt Hs] Hl Hnd Hk.
  { exists m, pl. rewrite app_nil_r. by split_and!. }
  apply Forall_cons_1 in Hk as [Hx Hk]. cbn [append_loop].
  assert (x ∉ l) as Hxl by (apply list.NoDup_app in Hnd as (_ & Hd & _); intros H; apply (Hd x H); by left).
  destruct (append_one m pl l x Hs Hl Hxl Hx) as (m1 & Hset & H1 & H2 & H3).
  rewrite (sp_last _ _ _ Hs Hl) in Hset. rewrite Hset. cbn [mbind res_bind]. destruct H2 as [Hc1 H2].
  assert (is_Some (m1 !! x)) as Hx1 by by eapply core_lookup.
  destruct (set_owner m1 x ET_SYS Hx1) as (m2 & -> & Hn & Ho & Hc). cbn [mbind res_bind].
  assert (core m2 = core m) as Hcc by congruence.
  destruct (IH m2 (pl <| li_last := Some x |> <| li_cnt ::= λ x, x + 1 |>) (l ++ [x])) as (m3 & pl3 & Hrun & G1 & G2 & G3 & G4 & G5).
  - split; [fields; rewrite Hcnt, length_app; cbn; lia|].
    eapply spans_ext; [eapply spans_nexts; [exact H1|done]|done..].
  - by destruct l.
  - by rewrite <- app_assoc.
  - by eapply known_core.
  - rewrite last_snoc in Hrun. rewrite <- app_assoc in G1, G2. exists m3, pl3. split_and!; try done.
    + eapply moves_trans; [|exact G2]. split; [done|]. intros i Hi. rewrite Hn. apply H2. clear -Hi. set_solver.
    + by rewrite G3, Ho, H3.
Qed.

Lemma append_all_ok m pl l p0 rest :
  in_list m pl l → NoDup (l ++ p0 :: rest) → known m (p0 :: rest) →
  ∃ m' pl', append_all m pl p0 rest = Ret (m', pl') ∧ in_list m' pl' (l ++ p0 :: rest) ∧
    moves m m' (l ++ p0 :: rest) ∧ owners m' = give ET_SYS (p0 :: rest) (owners m) ∧ kept pl pl' ∧
    li_lasthigh pl' = li_lasthigh pl.
Proof.
  intros Hin Hnd Hk. pose proof Hin as [Hcnt Hs]. unfold append_all. rewrite (in_list_empty m pl l Hin).
  case_bool_decide as Hl; [subst l|rewrite (sp_last _ _ _ Hs Hl); by apply append_loop_ok].
  pose proof Hk as [Hp0 Hkr]%Forall_cons_1. cbn [app] in *.
  destruct (set_owner m p0 ET_SYS Hp0) as (m1 & -> & Hn & Ho & Hc). step.
  set (pl1 := pl <| li_first := Some p0 |> <| li_last := Some p0 |> <| li_cnt ::= λ x, x + 1 |>).
  destruct (append_loop_ok m1 pl1 [p0] rest) as (m' & pl' & Hrun & H1 & H2 & H3 & H4 & H5); try done.
  - split; [unfold pl1; fields; by rewrite Hcnt|]. apply spans_single; [by eapply core_lookup|done..].
  - by eapply known_core.
  - exists m', pl'. split_and!; try done.
    + destruct H2 as [H2 Hf]. split; [congruence|]. intros i Hi. by rewrite Hf, Hn.
    + by rewrite H3, Ho.
Qed.

Lemma et_station_nwriteNoPri_ok nevents m s l pe :
  in_list m (s_out s) l → li_lock (s_out s) = false → NoDup (l ++ pe) → known m pe →
  Z.of_nat (length l + length pe) ≤ nevents →
  ∃ m' s', et_station_nwriteNoPri nevents m s pe = Ret (ET_OK, m', s') ∧
    in_list m' (s_out s') (l ++ pe) ∧ moves m m' (l ++ pe) ∧
    owners m' = give ET_SYS pe (owners m) ∧ out_written s s' ∧
    li_lasthigh (s_out s') = li_lasthigh (s_out s).
Proof.
  intros Hin Hlock Hnd Hk Hle. destruct pe as [|p0 rest].
  { exists m, s. rewrite app_nil_r. split_and!; try done. by destruct s. }
  unfold et_station_nwriteNoPri, et_llist_lock. rewrite Hlock. step. fields. rewrite (in_list_cnt _ _ _ Hin).
  replace (_ <? _) with false by (symmetry; apply Z.ltb_ge; lia).
  set (n := Z.of_nat (length (p0 :: rest))).
  destruct (start_out_list m s l n Hin Hlock) as (Hin1 & Hla & Hk1 & Hs1 & Hst). set (s1 := start_out _ n) in *.
  destruct (append_all_ok m (s_out s1) l p0 rest Hin1 Hnd Hk) as (m' & pl' & -> & H1 & H2 & H3 & H4 & H5). step.
  exists m', (end_out s1 pl'). split_and!; try done.
  - unfold end_out, et_llist_unlock. fields. destruct H1 as [H1 H1']. split; [done|]. by eapply spans_ext.
  - apply end_out_ok; try done. by eapply kept_after_trans.
  - unfold end_out, et_llist_unlock. fields. congruence.
Qed.

(** ** Dumping *)

(** What dumping to the input list of GrandCentral keeps of the station, when the count of
    the events that came in increases by [k]. *)
Definition in_written (s s' : et_station) (k : Z) : Prop :=
  s' = s <| s_in := s_in s' |> <| s_fixin := s_fixin s' |> ∧
  kept (s_in s <| li_events_in ::= λ x, if k =? 0 then x else u64 (x + k) |>) (s_in s') ∧
  fi_start (s_fixin s') = fi_start (s_fixin s) ∧ li_lasthigh (s_in s') = li_lasthigh (s_in s).

Lemma start_in_ok m s l num :
  in_list m (s_in s) l → li_lock (s_in s) = false →
  let s1 := start_in (s <| s_in := s_in s <| li_lock := true |> |>) num in
  in_list m (s_in s1) l ∧ kept (s_in s <| li_lock := true |>) (s_in s1) ∧
  s1 = s <| s_in := s_in s1 |> <| s_fixin := s_fixin s1 |> ∧
  fi_start (s_fixin s1) = fi_start (s_fixin s) + 1 ∧ li_lasthigh (s_in s1) = li_lasthigh (s_in s).
Proof.
  intros [Hcnt [Hnd Hl Hf Hla]] Hlock. unfold start_in. fields. rewrite Hcnt. unfold kept.
  destruct l as [|a l]; cbn; fields; split_and!; done.
Qed.

Lemma end_in_ok s s1 pl k :
  li_lock (s_in s) = false →
  kept (s_in s <| li_lock := true |> <| li_events_in ::= λ x, if k =? 0 then x else u64 (x + k) |>) pl →
  s1 = s <| s_in := s_in s1 |> <| s_fixin := s_fixin s1 |> →
  fi_start (s_fixin s1) = fi_start (s_fixin s) + 1 → li_lasthigh pl = li_lasthigh (s_in s) →
  in_written s (end_in s1 pl) k.
Proof.
  intros Hlock Hk Hs1 Hst Hla. unfold in_written, end_in, kept in *. fields. rewrite Hst.
  split_and!; [|symmetry; exact Hlock|tauto..|lia|exact Hla]. clear -Hs1. destruct s1, s.
  unfold update in *. cbn in *. injection Hs1 as. by subst.
Qed.

Lemma et_station_dump_ok nevents m s l x :
  in_list m (s_in s) l → li_lock (s_in s) = false → x ∉ l → is_Some (m !! x) →
  Z.of_nat (length l) < nevents →
  ∃ m' s', et_station_dump nevents m s x = Ret (ET_OK, m', s') ∧
    in_list m' (s_in s') (l ++ [x]) ∧ moves m m' (l ++ [x]) ∧
    owners m' = give ET_SYS [x] (owners m) ∧ in_written s s' 1.
Proof.
  intros Hin Hlock Hx Hk Hlt. unfold et_station_dump, et_llist_lock. rewrite Hlock. step. fields.
  rewrite (in_list_cnt _ _ _ Hin). replace (_ <=? _) with false by (symmetry; apply Z.leb_gt; lia).
  destruct (start_in_ok m s l 1 Hin Hlock) as (Hin1 & Hk1 & Hs1 & Hst & Hla). set (s1 := start_in _ 1) in *.
  pose proof Hin1 as [Hcnt1 Hsp1].
  assert (NoDup (l ++ [x])) as Hnd.
  { apply list.NoDup_app. split_and!; [apply Hsp1|set_solver|apply NoDup_singleton]. }
  destruct (attach_ok m (s_in s1) l [x] x Hin1 Hnd) as (m1 & pl1 & m' & Hrun & [= ->] & Hpl & Hsp & Hm & Ho);
    [by constructor|done|].
  cbn [mbind res_bind] in Hrun. rewrite Hrun. step. destruct Hm as [Hc Hf].
  assert (is_Some (m' !! x)) as Hkx by by eapply core_lookup.
  destruct (set_owner m' x ET_SYS Hkx) as (m2 & -> & Hn & Ho2 & Hc2). step.
  eexists _, _. split; [done|]. change (last [x]) with (Some x) in Hpl. rewrite Hpl.
  split_and!.
  - unfold end_in, et_llist_unlock. fields. split.
    + unfold with_end. fields. rewrite Hcnt1, length_app. cbn. lia.
    + eapply spans_ext; [eapply spans_nexts; [exact Hsp|done]|done..].
  - split; [congruence|]. intros i Hi. rewrite Hn. by apply Hf.
  - rewrite Ho2, Ho. done.
  - destruct Hk1 as (K1 & K2 & K3 & K4). apply end_in_ok; try done; [].
    split_and!; [exact K1|exact K2| |exact K4]. unfold with_end. fields. by rewrite K3.
Qed.

Lemma et_station_ndump_ok nevents m s l pe :
  in_list m (s_in s) l → li_lock (s_in s) = false → NoDup (l ++ pe) → known m pe →
  Z.of_nat (length l + length pe) ≤ nevents →
  ∃ m' s', et_station_ndump nevents m s pe = Ret (ET_OK, m', s') ∧
    in_list m' (s_in s') (l ++ pe) ∧ moves m m' (l ++ pe) ∧
    owners m' = give ET_SYS pe (owners m) ∧ in_written s s' 0.
Proof.
  intros Hin Hlock Hnd Hk Hle. destruct pe as [|p0 rest].
  { exists m, s. rewrite app_nil_r. split_and!; try done. by destruct s. }
  unfold et_station_ndump, et_llist_lock. rewrite Hlock. step. fields. rewrite (in_list_cnt _ _ _ Hin).
  replace (_ <? _) with false by (symmetry; apply Z.ltb_ge; lia).
  set (n := Z.of_nat (length (p0 :: rest))).
  destruct (start_in_ok m s l n Hin Hlock) as (Hin1 & Hk1 & Hs1 & Hst & Hla). set (s1 := start_in _ n) in *.
  destruct (append_all_ok m (s_in s1) l p0 rest Hin1 Hnd Hk) as (m' & pl' & -> & H1 & H2 & H3 & H4 & H5). step.
  exists m', (end_in s1 pl'). split_and!; try done.
  - unfold end_in, et_llist_unlock. fields. destruct H1 as [H1 H1']. split; [done|]. by eapply spans_ext.
  - apply end_in_ok; try done; [|congruence]. by eapply kept_after_trans.
Qed.
