(* ===== verification/EtReadSpec.v ===== *)
(** * What taking events from an input list does to its sequence

    A reader gets the first events of the list, or the first ones of a group; the others
    stay in their order. *)

From S2P Require Import Prelude Words EtTypes EtLists EtSegments EtListSpec EtStationSpec.

(** ** Taking from the front *)

Lemma linked_next m a b l : linked (nexts m) (a :: b :: l) → ∃ e, m !! a = Some e ∧ e_next e = Some b.
Proof.
  intros [(p & Hp & ->) _]. unfold nexts in Hp. rewrite lookup_fmap in Hp.
  destruct (m !! a) as [e|] eqn:He; [|done]. cbn in Hp. exists e. split; [done|]. congruence.
Qed.

Lemma take_events_ok m l att n :
  linked (nexts m) l → NoDup l → (n ≤ length l)%nat →
  ∃ q m', take_events m (head l) att n = Ret (take n l, q, m') ∧ ((n < length l)%nat → q = l !! n) ∧
    nexts m' = nexts m ∧ core m' = core m ∧ owners m' = give att (take n l) (owners m).
Proof.
  revert m l. induction n as [|n IH]; intros m l Hl Hnd Hle.
  { exists (head l), m. split_and!; try done. intros _. by destruct l. }
  destruct l as [|a l]; [cbn in Hle; lia|]. apply list.NoDup_cons in Hnd as [_ Hnd].
  pose proof (linked_known _ _ Hl) as [[e He] _]%Forall_cons_1. cbn [take_events head of_option mbind res_bind].
  rewrite He. cbn [of_option mbind res_bind].
  destruct (set_owner m a att ltac:(eauto)) as (m1 & Hset & Hn & Ho & Hc).
  unfold ev_set in Hset. cbn in Hset. rewrite He in Hset. cbn in Hset. injection Hset as ->.
  destruct l as [|b l].
  - assert (n = O) as -> by (cbn in Hle; lia). cbn. eexists _, m1. split_and!; try done. intros Hlt. cbn in Hlt. lia.
  - destruct (linked_next _ _ _ _ Hl) as (e' & He' & Hnx). assert (e' = e) as -> by congruence. rewrite Hnx.
    destruct Hl as [_ Hl]. destruct (IH m1 (b :: l)) as (q & m2 & Hrun & H1 & H2 & H3 & H4);
      [by rewrite Hn|done|cbn in *; lia|].
    cbn [head] in Hrun. rewrite Hrun. cbn [mbind res_bind]. exists q, m2. split_and!; try congruence; [done| |].
    + intros Hlt. cbn. apply H1. cbn in *. lia.
    + by rewrite H4, Ho.
Qed.

(** What taking [k] events keeps of the station. *)
Definition in_taken (s s' : et_station) : Prop :=
  s' = s <| s_in := s_in s' |> <| s_fixin := s_fixin s' |> ∧ li_lock (s_in s') = false ∧
  li_events_in (s_in s') = li_events_in (s_in s) ∧ li_events_out (s_in s') = li_events_out (s_in s) ∧
  li_events_try (s_in s') = li_events_try (s_in s) ∧ li_lasthigh (s_in s') = li_lasthigh (s_in s) ∧
  fi_start (s_fixin s') = fi_start (s_fixin s) ∧ fi_first (s_fixin s') = None.

Lemma nread_take_ok m s l att num :
  in_list m (s_in s) l → l ≠ [] → 0 < num →
  ∃ m' s', nread_take m s att num = Ret (take (Z.to_nat num) l, m', s') ∧
    in_list m' (s_in s') (drop (Z.to_nat num) l) ∧ nexts m' = nexts m ∧ core m' = core m ∧
    owners m' = give att (take (Z.to_nat num) l) (owners m) ∧ in_taken s s'.
Proof.
  intros [Hcnt Hs] Hl Hnum. unfold nread_take. rewrite (sp_first _ _ _ Hs Hl), Hcnt.
  set (k := Z.to_nat (Z.min num (Z.of_nat (length l)))).
  assert (k ≤ length l)%nat as Hk by lia.
  assert (take (Z.to_nat num) l = take k l ∧ drop (Z.to_nat num) l = drop k l) as [-> ->].
  { destruct (decide (Z.to_nat num ≤ length l)%nat) as [Hle|Hgt].
    - by replace k with (Z.to_nat num) by lia.
    - replace k with (length l) by lia. by rewrite !take_ge, !drop_ge by lia. }
  destruct (take_events_ok m l att k (sp_linked _ _ _ Hs) (sp_nodup _ _ _ Hs) Hk) as (q & m' & -> & Hq & Hn & Hc & Ho).
  step. eexists m', _. split; [done|]. unfold et_llist_unlock. split_and!; try done; [].
  split; fields; [rewrite Hcnt, length_drop; lia|]. destruct Hs as [Hnd Hlk Hf Hla].
  rewrite <- (take_drop k l) in Hnd, Hlk. apply linked_app in Hlk as (_ & Hlk & _).
  apply list.NoDup_app in Hnd as (_ & _ & Hnd).
  split; fields; [done|by rewrite Hn| |]; intros Hne.
  - rewrite Hq; [rewrite <- (Nat.add_0_r k) at 1; rewrite <- lookup_drop; by destruct (drop k l)|]. destruct (decide (k < length l)%nat) as [H|H]; [done|].
    by rewrite drop_ge in Hne by lia.
  - rewrite Hla by done. rewrite <- (take_drop k l) at 1. rewrite last_app.
    destruct (last (drop k l)) eqn:E; [done|]. by apply last_None in E.
Qed.

(** ** Taking the events of a group *)

(** The first [n] events of group [g], and what is left of the list. *)
Fixpoint split_group (m : evs) (g : Z) (n : nat) (l : list nat) : list nat * list nat :=
  match n, l with
  | S n', a :: l =>
      if in_group m g a then let '(t, r) := split_group m g n' l in (a :: t, r)
      else let '(t, r) := split_group m g n l in (t, a :: r)
  | _, _ => ([], l)
  end.

Lemma split_group_core m m' g n l : core m' = core m → split_group m' g n l = split_group m g n l.
Proof.
  intros Hc. revert n. induction l as [|a l IH]; intros [|n]; cbn; try done.
  rewrite (in_group_core m m') by done. destruct (in_group m g a); by rewrite IH.
Qed.

Lemma split_group_perm m g n l :
  (split_group m g n l).1 ++ (split_group m g n l).2 ≡ₚ l.
Proof.
  revert n. induction l as [|a l IH]; intros [|n]; cbn; try done.
  destruct (in_group m g a).
  - specialize (IH n). destruct (split_group m g n l). cbn in *. by rewrite IH.
  - specialize (IH (S n)). destruct (split_group m g (S n) l). cbn in *. by rewrite <- Permutation_middle, IH.
Qed.

(** All of the group are taken when as many are asked for as the list has. *)
Lemma split_group_all m g n n' l :
  (length l ≤ n)%nat → (length l ≤ n')%nat → split_group m g n l = split_group m g n' l.
Proof.
  revert n n'. induction l as [|a l IH]; intros n n' H H'; cbn in H, H'; [by destruct n, n'|].
  destruct n as [|n], n' as [|n']; try lia. cbn.
  destruct (in_group m g a); [by rewrite (IH n n') by lia|by rewrite (IH (S n) (S n')) by lia].
Qed.

(** The event [i] is taken out of the list. *)
Lemma unlink_ok m pl k1 i r e :
  spans m pl (k1 ++ i :: r) → m !! i = Some e →
  ∃ m1 pl1,
    (match last k1 with
     | None => Ret (m, pl <| li_first := e_next e |>)
     | Some _ => m1 ← ev_set m (last k1) (λ p, p <| e_next := e_next e |>); Ret (m1, pl)
     end) = Ret (m1, pl1) ∧
    spans m1 (if bool_decide (li_last pl1 = Some i) then pl1 <| li_last := last k1 |> else pl1) (k1 ++ r) ∧
    (∀ j, j ∉ k1 → nexts m1 !! j = nexts m !! j) ∧ core m1 = core m ∧ owners m1 = owners m ∧
    same_ends pl pl1.
Proof.
  intros [Hnd Hlk Hf Hla] He.
  assert (NoDup (k1 ++ r)) as Hnd' by (by rewrite <- Permutation_middle in Hnd; apply list.NoDup_cons in Hnd as [_ ?]).
  assert (li_last pl = last (i :: r)) as Hlast.
  { rewrite Hla, last_app by by destruct k1. destruct (last (i :: r)) eqn:E; [done|]. by apply last_None in E. }
  pose proof Hnd as (_ & Hd & [Hir _]%list.NoDup_cons)%list.NoDup_app.
  pose proof Hlk as (Hlk1 & Hlk2 & Hj)%linked_app.
  assert (∀ b, head r = Some b → e_next e = Some b) as Hnx.
  { intros b Hb. destruct r as [|b' r]; [done|]. destruct (linked_next _ _ _ _ Hlk2) as (e' & He' & H).
    cbn in Hb. congruence. }
  assert (∀ m1 pl1, (∀ j, last k1 ≠ Some j → nexts m1 !! j = nexts m !! j) →
            (∀ z, last k1 = Some z → nexts m1 !! z = Some (e_next e)) →
            li_first pl1 = (match k1 with [] => e_next e | _ => li_first pl end) → li_last pl1 = li_last pl →
            spans m1 (if bool_decide (li_last pl1 = Some i) then pl1 <| li_last := last k1 |> else pl1) (k1 ++ r))
    as Hspans.
  { intros m1 pl1 Hfr Hz Hf1 Hla1.
    assert (linked (nexts m1) (k1 ++ r)) as Hl.
    { destruct (last k1) as [z|] eqn:Ez.
      - destruct (last_Some k1 z) as [[k0 ->] _]; [done|]. apply list.NoDup_app in Hnd' as (Hndk & Hdr & _).
        apply list.NoDup_app in Hndk as (_ & Hdk & _). apply linked_app. split_and!.
        + apply linked_app in Hlk1 as (H1 & _ & H3). apply linked_app.
          assert (∀ j, j ∈ k0 → nexts m1 !! j = nexts m !! j) as Hfr0.
          { intros j Hj'. apply Hfr. intros [= ->]. apply (Hdk j Hj'). by left. }
          split_and!; [by eapply linked_frame|split; [rewrite (Hz z eq_refl); eauto|done]|].
          intros a b Ha Hb. rewrite Hfr0; [by apply H3|by apply last_Some_elem_of].
        + destruct Hlk2 as [_ Hlk2]. eapply linked_frame; [|exact Hlk2]. intros j Hjr. apply Hfr.
          intros [= ->]. apply (Hdr j); [apply elem_of_app; right; by left|done].
        + intros a b Ha Hb. rewrite last_snoc in Ha. injection Ha as <-. rewrite (Hz z eq_refl). by rewrite (Hnx b Hb).
      - apply last_None in Ez as ->. destruct Hlk2 as [_ Hlk2]. eapply linked_frame; [|exact Hlk2].
        intros j _. by apply Hfr. }
    split.
    - done.
    - done.
    - intros Hne. transitivity (li_first pl1); [by case_bool_decide|]. rewrite Hf1.
      destruct k1 as [|a k1]; [|by apply Hf]. destruct r as [|b r]; [done|]. by apply Hnx.
    - intros Hne. rewrite Hla1, Hlast. destruct r as [|b r].
      + rewrite bool_decide_eq_true_2, app_nil_r by done. done.
      + rewrite bool_decide_eq_false_2.
        * rewrite Hla1, Hlast, last_app, last_cons_cons. destruct (last (b :: r)) eqn:E; [done|]. by apply last_None in E.
        * rewrite last_cons_cons. intros E%last_Some_elem_of. by apply Hir. }
  destruct (last k1) as [z|] eqn:Ez.
  - pose proof (linked_known _ _ Hlk1) as Hkz. unfold known in Hkz. rewrite Forall_forall in Hkz.
    destruct (set_next m z (e_next e)) as (m1 & Hset & Hn & Ho & Hc).
    { apply Hkz, list_elem_of_In. by apply last_Some_elem_of. }
    rewrite Hset. cbn [mbind res_bind]. exists m1, pl. split_and!; try done.
    + apply Hspans; [|by intros z' [= <-]; rewrite Hn, lookup_insert_eq|by destruct k1|done].
      intros j Hj'. rewrite Hn, lookup_insert_ne by congruence. done.
    + intros j Hj'. rewrite Hn, lookup_insert_ne; [done|]. intros ->. apply Hj'. by apply last_Some_elem_of.
    + apply same_ends_refl.
  - apply last_None in Ez as ->. eexists m, _. split_and!; try done. by apply Hspans.
Qed.

Lemma same_ends_set_last pl pl' p : same_ends pl pl' → same_ends pl (pl' <| li_last := p |>).
Proof. unfold same_ends. intros ->. by destruct pl. Qed.

Lemma group_loop_ok m pl p k1 r acc att g num :
  spans m pl (k1 ++ r) → (length acc < num)%nat → (r ≠ [] → p = head r) →
  ∃ m' pl',
    group_loop m pl p (last k1) att g num acc (length r) =
      Ret (acc ++ (split_group m g (num - length acc) r).1, m', pl') ∧
    spans m' pl' (k1 ++ (split_group m g (num - length acc) r).2) ∧ moves m m' (k1 ++ r) ∧
    owners m' = give att (split_group m g (num - length acc) r).1 (owners m) ∧ same_ends pl pl'.
Proof.
  revert m pl p k1 acc. induction r as [|i r IH]; intros m pl p k1 acc Hs Hlt Hp.
  { destruct (num - length acc)%nat; cbn; rewrite app_nil_r; exists m, pl;
      split_and!; try done; try apply same_ends_refl. }
  rewrite (Hp ltac:(done)).
  pose proof (spans_known _ _ _ Hs) as [_ [[e He] _]%Forall_cons_1]%Forall_app.
  cbn [group_loop head length of_option mbind res_bind]. rewrite He. cbn [of_option mbind res_bind].
  replace (num - length acc)%nat with (S (num - length acc - 1)) by lia. cbn [split_group].
  assert (in_group m g i = (e_group e =? g)) as -> by (unfold in_group; by rewrite He).
  assert (r ≠ [] → e_next e = head r) as Hnx.
  { intros Hr. destruct r as [|b r]; [done|]. pose proof (sp_linked _ _ _ Hs) as (_ & Hl & _)%linked_app.
    destruct (linked_next _ _ _ _ Hl) as (e' & He' & H). cbn. congruence. }
  destruct (e_group e =? g); cbn [negb].
  - destruct (set_owner m i att ltac:(eauto)) as (m1 & Hset & Hn1 & Ho1 & Hc1).
    unfold ev_set in Hset. cbn in Hset. rewrite He in Hset. cbn in Hset. injection Hset as ->.
    assert (spans m1 pl (k1 ++ i :: r)) as Hs1 by by eapply spans_nexts.
    assert (∃ e1, m1 !! i = Some e1) as [e1 He1] by (eapply core_lookup; [exact Hc1|by eexists]).
    assert (e_next e1 = e_next e) as Hee.
    { pose proof (nexts_lookup _ _ _ He1) as H. rewrite Hn1, (nexts_lookup _ _ _ He) in H. congruence. }
    destruct (unlink_ok m1 pl k1 i r e1 Hs1 He1) as (m2 & pl2 & Hrun & Hs2 & Hf2 & Hc2 & Ho2 & He2).
    rewrite Hee in Hrun. rewrite Hrun. cbn [mbind res_bind]. clear Hrun.
    set (pl3 := if bool_decide (li_last pl2 = Some i) then pl2 <| li_last := last k1 |> else pl2) in *.
    assert (same_ends pl pl3) as He3 by (unfold pl3; case_bool_decide; [by apply same_ends_set_last|done]).
    assert (core m2 = core m) as Hcc by congruence.
    rewrite length_app, Nat.add_1_r. destruct (num <=? S (length acc))%nat eqn:Hle.
    + apply Nat.leb_le in Hle. replace (num - length acc - 1)%nat with O by lia.
      exists m2, pl3. destruct r; cbn; split_and!; try done; try congruence;
        split; try done; intros j Hj; rewrite Hf2, Hn1 by (clear -Hj; set_solver); done.
    + apply Nat.leb_gt in Hle.
      destruct (IH m2 pl3 (e_next e) k1 (acc ++ [i]) Hs2) as (m3 & pl4 & Hrun & G1 & G2 & G3 & G4);
        [rewrite length_app; cbn; lia|done|].
      rewrite length_app in Hrun, G1, G3. cbn [length] in Hrun, G1, G3.
      replace (num - (length acc + 1))%nat with (num - length acc - 1)%nat in * by lia.
      rewrite (split_group_core m m2) in * by done. rewrite Hrun.
      destruct (split_group m g (num - length acc - 1) r) as [t rest]. cbn in *. rewrite <- app_assoc.
      exists m3, pl4. split_and!; try done.
      * eapply moves_trans; [|eapply moves_weaken; [exact G2|clear; set_solver]].
        split; [done|]. intros j Hj. rewrite Hf2, Hn1 by (clear -Hj; set_solver). done.
      * by rewrite G3, Ho2, Ho1.
      * by eapply same_ends_trans.
  - destruct (IH m pl (e_next e) (k1 ++ [i]) acc) as (m' & pl' & Hrun & G1 & G2 & G3 & G4);
      [by rewrite <- app_assoc|done|done|].
    rewrite last_snoc in Hrun.
    assert (num - length acc = S (num - length acc - 1))%nat as E by lia.
    rewrite E in Hrun, G1, G3. rewrite Hrun. clear Hrun E.
    destruct (split_group m g (S (num - length acc - 1)) r) as [t rest]. cbn [fst snd] in *.
    rewrite <- !app_assoc in *. by exists m', pl'.
Qed.

Lemma nread_group_take_ok m s l att num g :
  in_list m (s_in s) l → l ≠ [] → 0 < num →
  let '(t, r) := split_group m g (Z.to_nat num) l in
  ∃ m' s', nread_group_take m s att num g = Ret (t, m', s') ∧ in_list m' (s_in s') r ∧
    moves m m' l ∧ owners m' = give att t (owners m) ∧ in_taken s s'.
Proof.
  intros [Hcnt Hs] Hl Hnum. unfold nread_group_take. rewrite Hcnt.
  assert (split_group m g (Z.to_nat num) l = split_group m g (Z.to_nat (Z.min num (Z.of_nat (length l)))) l) as ->.
  { destruct (decide (num ≤ Z.of_nat (length l))) as [H|H]; [by rewrite Z.min_l|].
    rewrite Z.min_r, Nat2Z.id by lia. apply split_group_all; lia. }
  set (k := Z.to_nat (Z.min num _)). rewrite Nat2Z.id.
  destruct (group_loop_ok m (s_in s) (li_first (s_in s)) [] l [] att g k Hs) as (m' & pl' & Hrun & G1 & G2 & G3 & G4).
  { assert (length l ≠ O) by (by destruct l). unfold k. cbn. lia. }
  { intros _. by rewrite (sp_first _ _ _ Hs Hl). }
  cbn [app last length] in *. rewrite Nat.sub_0_r in *. rewrite Hrun.
  pose proof (split_group_perm m g k l) as Hperm. destruct (split_group m g k l) as [t r]. cbn in *.
  step. eexists m', _. split; [done|]. split_and!; try done.
  - unfold et_llist_unlock. split; fields.
    + rewrite G4. fields. rewrite Hcnt, <- (Permutation_length Hperm), length_app. lia.
    + by eapply spans_ext.
  - unfold in_taken, et_llist_unlock. fields. rewrite G4. by fields.
Qed.
