(* ===== verification/EtRestoreSpec.v ===== *)
(** * What restoring events does to the sequence of a list

    Events of a process that detached or crashed go back before those of the list: they
    are merged as in writing, with the roles of the two exchanged. *)

From S2P Require Import Prelude Words EtTypes EtLists EtSegments EtListSpec EtStationSpec.

Lemma own_all_ok m pe :
  known m pe →
  ∃ m', own_all m pe = Ret m' ∧ nexts m' = nexts m ∧ core m' = core m ∧
        owners m' = give ET_SYS pe (owners m).
Proof.
  revert m. induction pe as [|x pe IH]; intros m Hk; [by exists m|]. apply Forall_cons_1 in Hk as [Hx Hk].
  cbn [own_all]. destruct (set_owner m x ET_SYS Hx) as (m1 & -> & Hn & Ho & Hc). cbn [mbind res_bind].
  destruct (IH m1) as (m2 & -> & Hn2 & Hc2 & Ho2); [by eapply known_core|].
  exists m2. split_and!; try congruence. by rewrite Ho2, Ho.
Qed.

(** A chain [L] goes between [A] and [B]; [m0] is the memory before it was chained. *)
Lemma put_lows_ok m0 m pl A B L q0 after pfirstlow :
  spans m0 pl (A ++ B) → A ++ B ≠ [] → NoDup (A ++ B ++ L) → head L = Some q0 →
  linked (nexts m) L → core m = core m0 → owners m = owners m0 →
  (∀ i, i ∉ L → nexts m !! i = nexts m0 !! i) →
  pfirstlow = head B → after = last A →
  ∃ m' pl', put_lows m pl after pfirstlow q0 (last L) = Ret (m', pl') ∧ spans m' pl' (A ++ L ++ B) ∧
    moves m0 m' (A ++ B ++ L) ∧ owners m' = owners m0 ∧ same_ends pl pl'.
Proof.
  intros Hs Hne Hnd Hq Hlk Hc Ho Hf -> ->. unfold put_lows. pose proof Hs as [_ _ Hfirst Hlast].
  assert (L ≠ []) as HL by by intros ->.
  assert (∀ i, i ∈ A ++ B → i ∉ L ∧ is_Some (m !! i)) as Hout.
  { intros i Hi. split.
    - rewrite app_assoc in Hnd. apply list.NoDup_app in Hnd as (_ & Hd & _). by apply Hd.
    - eapply core_lookup; [exact Hc|]. pose proof (spans_known _ _ _ Hs) as Hk. unfold known in Hk.
      rewrite Forall_forall in Hk. by apply Hk, list_elem_of_In. }
  destruct (last L) as [y|] eqn:Ey; [|by apply last_None in Ey].
  assert (y ∈ L) as HyL by by apply last_Some_elem_of.
  assert (is_Some (m !! y)) as Hym.
  { pose proof (linked_known _ _ Hlk) as Hk. unfold known in Hk. rewrite Forall_forall in Hk. by apply Hk, list_elem_of_In. }
  assert (NoDup L) as HndL by (rewrite app_assoc in Hnd; by apply list.NoDup_app in Hnd as (_ & _ & ?)).
  destruct B as [|b B]; cbn [head].
  - rewrite app_nil_r in *. destruct (last A) as [z|] eqn:Ez; [|by apply last_None in Ez].
    rewrite Hlast by done. destruct (Hout z) as [HzL Hzm]; [by apply last_Some_elem_of|].
    destruct (set_next m z (Some q0) Hzm) as (m1 & -> & Hn1 & Ho1 & Hc1). step.
    eexists m1, _. split; [done|].
    destruct (insert_chain m0 m1 pl (pl <| li_last := Some y |>) A [] L) as [H1 H2]; rewrite ?app_nil_r; try done.
    + by rewrite Hc1.
    + rewrite Hn1. by apply linked_insert_out.
    + intros z' Hz'. rewrite Hz' in Ez. injection Ez as ->. by rewrite Hn1, lookup_insert_eq, Hq.
    + intros i Hi Hz'. rewrite Hn1, lookup_insert_ne by congruence. by apply Hf.
    + by destruct A.
    + rewrite app_nil_r in H1. cbn [app] in H2. split_and!; try done; by rewrite Ho1.
  - assert (∃ m1 pl1,
      (match last A with
       | Some _ => m1 ← ev_set m (last A) (λ e, e <| e_next := Some q0 |>); Ret (m1, pl)
       | None => Ret (m, pl <| li_first := Some q0 |>)
       end) = Ret (m1, pl1) ∧ (∀ z, last A = Some z → nexts m1 !! z = Some (Some q0)) ∧
      (∀ i, last A ≠ Some i → nexts m1 !! i = nexts m !! i) ∧ core m1 = core m ∧ owners m1 = owners m ∧
      pl1 = pl <| li_first := match A with [] => Some q0 | _ => li_first pl end |>)
      as (m1 & pl1 & Hrun & Hz1 & Hf1 & Hc1 & Ho1 & Hpl1).
    { destruct (last A) as [z|] eqn:Ez.
      - destruct (Hout z) as [HzL Hzm]; [apply elem_of_app; left; by apply last_Some_elem_of|].
        destruct (set_next m z (Some q0) Hzm) as (m1 & -> & Hn1 & Ho1 & Hc1). step.
        exists m1, pl. split_and!; try done.
        + intros z' [= <-]. by rewrite Hn1, lookup_insert_eq.
        + intros i Hi. rewrite Hn1, lookup_insert_ne by congruence. done.
        + destruct A; [done|by destruct pl].
      - apply last_None in Ez as ->. by eexists m, _. }
    cbn [mbind res_bind] in Hrun. rewrite Hrun. step. clear Hrun.
    assert (is_Some (m1 !! y)) as Hy1 by by eapply core_lookup.
    destruct (set_next m1 y (Some b) Hy1) as (m2 & -> & Hn2 & Ho2 & Hc2). step.
    assert (∀ z, last A = Some z → z ∉ L) as HzL.
    { intros z E%last_Some_elem_of. apply Hout, elem_of_app. by left. }
    exists m2, pl1. split; [done|].
    destruct (insert_chain m0 m2 pl pl1 A (b :: B) L) as [H1 H2]; try done.
    + congruence.
    + rewrite Hn2. apply linked_insert; [|done|done]. eapply linked_frame; [|exact Hlk].
      intros i Hi. apply Hf1. intros E. by apply (HzL i E).
    + intros z Ez. rewrite Hn2, lookup_insert_ne, Hq; [by apply Hz1|]. intros ->. by apply (HzL z Ez).
    + intros y' b' Hy' [= <-]. assert (y' = y) as -> by congruence. by rewrite Hn2, lookup_insert_eq.
    + intros i Hi Hzi. rewrite Hn2, lookup_insert_ne by (intros ->; done). rewrite Hf1 by done. by apply Hf.
    + rewrite Hpl1. fields. by destruct A.
    + rewrite Hpl1. by fields.
    + split_and!; try done; [congruence|]. rewrite Hpl1. by destruct pl.
Qed.

(** Events of high priority before those of the list. *)
Lemma put_front_ok m pl l p0 pe :
  spans m pl l → l ≠ [] → NoDup (l ++ p0 :: pe) → known m (p0 :: pe) →
  ∃ m1 m', ev_set m (Some p0) (λ e, e <| e_next := li_first pl |>) = Ret m1 ∧
    add_high m1 p0 pe (li_first pl) = Ret (m', length (high_prefix m pe)) ∧
    spans m' (pl <| li_first := Some p0 |>) ((p0 :: high_prefix m pe) ++ l) ∧
    moves m m' (l ++ p0 :: high_prefix m pe) ∧ owners m' = owners m.
Proof.
  intros Hs Hl Hnd Hk. pose proof Hk as [Hp0 _]%Forall_cons_1.
  destruct (set_next m p0 (li_first pl) Hp0) as (m1 & Hset & Hn1 & Ho1 & Hc1).
  pose proof Hnd as (Hndl & Hdis & Hndp)%list.NoDup_app.
  destruct (add_high_ok m1 p0 pe (li_first pl)) as (m2 & Hadd & Hlk & Hla & Ho2 & Hc2 & Hf);
    [by eapply known_core|done|by rewrite Hn1, lookup_insert_eq|].
  rewrite (high_prefix_core m m1) in * by done. exists m1, m2.
  assert (core m2 = core m) as Hcc by congruence.
  assert (p0 :: high_prefix m pe ⊆ p0 :: pe) as Hsub.
  { intros i [->|Hi]%elem_of_cons; [by left|right; by eapply high_prefix_sub]. }
  destruct (insert_chain m m2 pl (pl <| li_first := Some p0 |>) [] l (p0 :: high_prefix m pe)) as [H1 H2]; try done.
  - cbn [app]. apply list.NoDup_app. split_and!; [done|intros i Hi Hi'; by eapply Hdis, Hsub|].
    rewrite <- (high_prefix_lows m pe), app_comm_cons in Hndp. by apply list.NoDup_app in Hndp as (? & _).
  - intros y b Hy Hb. rewrite (Hla y Hy), (sp_first _ _ _ Hs Hl). by rewrite Hb.
  - intros i Hi _. rewrite Hf, Hn1, lookup_insert_ne by (done || (intros ->; apply Hi; by left)). done.
  - fields. by destruct l.
  - split_and!; try done. congruence.
Qed.

Lemma scan_restore_ok m pl l :
  in_list m pl l →
  ∃ p a, (if li_cnt pl =? 0 then Ret (None, None, 0)
          else scan_high m (li_first pl) None 0 (Z.to_nat (li_cnt pl))) =
           Ret (p, a, Z.of_nat (length (high_prefix m l))) ∧
    (if Z.of_nat (length (high_prefix m l)) =? li_cnt pl then None else p) = head (lows m l) ∧
    a = last (high_prefix m l).
Proof.
  intros Hin. pose proof Hin as [Hcnt Hs]. rewrite (in_list_empty m pl l Hin). case_bool_decide as Hl.
  { subst l. exists None, None. cbn. by destruct (_ =? _). }
  rewrite Hcnt, Nat2Z.id, (sp_first _ _ _ Hs Hl).
  destruct (scan_high_linked m l None 0 (sp_linked _ _ _ Hs)) as (p & -> & Hz & H0).
  eexists p, _. split; [done|]. split; [|by destruct (last (high_prefix m l))].
  pose proof (high_prefix_lows m l) as Hdec. pose proof (f_equal length Hdec) as Hlen. rewrite length_app in Hlen.
  destruct (lows m l) as [|b t] eqn:El.
  { cbn in Hlen. replace (_ =? _) with true by (symmetry; apply Z.eqb_eq; lia). done. }
  replace (_ =? _) with false by (symmetry; apply Z.eqb_neq; cbn in Hlen; lia).
  destruct (last (high_prefix m l)) as [z|] eqn:Ez.
  - specialize (Hz z eq_refl). pose proof (sp_linked _ _ _ Hs) as Hlk. rewrite <- Hdec in Hlk.
    apply linked_app in Hlk as (_ & _ & Hj). specialize (Hj z b Ez eq_refl). cbn. congruence.
  - apply last_None in Ez. rewrite (H0 Ez), <- Hdec, Ez. done.
Qed.

(** Lines 1917-1999: the body, for a list that is not empty or is. *)
Lemma restore_body_ok m pl l p0 pe e0 pfirstlow plasthigh :
  in_list m pl l → NoDup (l ++ p0 :: pe) → known m (p0 :: pe) → prios_ok m → m !! p0 = Some e0 →
  pfirstlow = head (lows m l) → plasthigh = last (high_prefix m l) →
  ∃ m' pl',
    (if li_cnt pl =? 0 then
       m1 ← link m (p0 :: pe);
       Ret (m1, pl <| li_first := Some p0 |> <| li_last := last (p0 :: pe) |>)
     else if e_priority e0 =? ET_LOW then
       m1 ← link m (p0 :: pe);
       put_lows m1 pl plasthigh pfirstlow p0 (last (p0 :: pe))
     else
       let pfirst := li_first pl in
       m1 ← ev_set m (Some p0) (λ e, e <| e_next := pfirst |>);
       let pl := pl <| li_first := Some p0 |> in
       '(m2, k) ← add_high m1 p0 (tail (p0 :: pe)) pfirst;
       let lows := drop (S k) (p0 :: pe) in
       match lows with
       | [] => Ret (m2, pl)
       | q0 :: _ =>
           m3 ← link m2 lows;
           put_lows m3 pl (match plasthigh with Some _ => plasthigh | None => (p0 :: pe) !! k end)
             pfirstlow q0 (last (p0 :: pe))
       end) = Ret (m', pl') ∧
    spans m' pl' (merge m (p0 :: pe) l) ∧ moves m m' (l ++ p0 :: pe) ∧ owners m' = owners m ∧
    same_ends pl pl'.
Proof.
  intros Hin Hnd Hk Hpr He0 -> ->. pose proof Hin as [Hcnt Hs]. rewrite (in_list_empty m pl l Hin).
  pose proof (high_prefix_lows m l) as Hdec. pose proof (high_prefix_lows m pe) as Hdecp.
  pose proof Hnd as (Hndl & Hdis & Hndp)%list.NoDup_app.
  case_bool_decide as Hl.
  { subst l. destruct (attach_ok m pl [] (p0 :: pe) p0 Hin Hnd Hk eq_refl) as (m1 & pl1 & m' & H1 & H2 & H3 & H4 & H5 & H6).
    rewrite (in_list_empty m pl [] Hin) in H1. cbn in H1. injection H1 as <- <-. rewrite H2. step.
    rewrite H3, merge_nil_r. eexists _, _. split_and!; done. }
  destruct (high_of_priority m p0 e0 Hpr He0) as [Hh _]. destruct (e_priority e0 =? ET_LOW); cbn [negb] in Hh.
  - destruct (link_ok m (p0 :: pe) Hk Hndp) as (m1 & -> & Hlk & Ho & Hc & Hf). step.
    rewrite <- Hdec in Hs, Hnd. rewrite <- app_assoc in Hnd.
    destruct (put_lows_ok m m1 pl _ _ (p0 :: pe) p0 (last (high_prefix m l)) (head (lows m l)) Hs ltac:(by rewrite Hdec) Hnd eq_refl Hlk Hc Ho)
      as (m' & pl' & Hrun & H1 & H2 & H3); try done.
    { intros i Hi. apply Hf. by left. }
    exists m', pl'. split; [exact Hrun|]. rewrite app_assoc, Hdec in H2. split_and!; try done; [|apply H3..].
    unfold merge, lows at 1. cbn [high_prefix]. rewrite Hh. exact H1.
  - cbn zeta. destruct (put_front_ok m pl l p0 pe Hs Hl Hnd Hk) as (m1 & m2 & -> & Hadd & Hs2 & Hm2 & Ho2).
    cbn [mbind res_bind tail]. rewrite Hadd. cbn [mbind res_bind].
    change (drop (S (length (high_prefix m pe))) (p0 :: pe)) with (lows m pe).
    rewrite lookup_high_prefix. set (H := p0 :: high_prefix m pe) in *.
    assert (merge m (p0 :: pe) l = H ++ high_prefix m l ++ lows m pe ++ lows m l) as ->.
    { unfold merge, lows at 1. cbn [high_prefix]. rewrite Hh. done. }
    assert (moves m m2 (l ++ p0 :: pe)) as Hm2'.
    { eapply moves_weaken; [exact Hm2|]. intros i. unfold H. rewrite !elem_of_app, !elem_of_cons.
      pose proof (high_prefix_sub m pe i). tauto. }
    destruct (lows m pe) as [|q lp] eqn:Elp.
    { cbn [app]. rewrite Hdec. eexists m2, _. split_and!; done. }
    destruct Hm2 as [Hc2 Hf2].
    assert (NoDup (q :: lp) ∧ (∀ i, i ∈ H → i ∉ q :: lp)) as [Hndq HdH].
    { rewrite <- Hdecp, app_comm_cons in Hndp. apply list.NoDup_app in Hndp as (_ & ? & ?). done. }
    destruct (link_ok m2 (q :: lp)) as (m3 & Hlink & Hlk & Ho3 & Hc3 & Hf3); [|done|].
    { eapply known_core; [exact Hc2|]. apply Forall_cons_1 in Hk as [_ Hk]. rewrite <- Hdecp in Hk. by apply Forall_app in Hk as [_ ?]. }
    rewrite Hlink. cbn [mbind res_bind]. rewrite <- Hdec, app_assoc in Hs2.
    assert (NoDup ((H ++ high_prefix m l) ++ lows m l ++ q :: lp)) as Hnd4.
    { rewrite app_assoc, <- (app_assoc H), Hdec. apply list.NoDup_app. split_and!; [|intros i|done].
      - pose proof (sp_nodup _ _ _ Hs2) as G. by rewrite <- app_assoc, Hdec in G.
      - intros [Hi|Hi]%elem_of_app; [by apply HdH|]. intros Hi'. apply (Hdis i Hi). right. rewrite <- Hdecp.
        apply elem_of_app. by right. }
    assert (last (p0 :: pe) = last (q :: lp)) as ->.
    { rewrite <- Hdecp, app_comm_cons, last_app. destruct (last (q :: lp)) eqn:E; [done|]. by apply last_None in E. }
    destruct (put_lows_ok m2 m3 (pl <| li_first := Some p0 |>) _ _ (q :: lp) q
                (match last (high_prefix m l) with Some _ => last (high_prefix m l) | None => last H end)
                (head (lows m l)) Hs2) as (m4 & pl4 & Hrun & G1 & G2 & G3 & G4); try done.
    { intros i Hi. apply Hf3. by left. }
    { rewrite last_app. by destruct (last (high_prefix m l)). }
    exists m4, pl4. split; [exact Hrun|]. rewrite <- app_assoc in G1. split_and!; try done; try congruence.
    eapply moves_trans; [exact Hm2'|]. eapply moves_weaken; [exact G2|].
    rewrite app_assoc, <- (app_assoc H), Hdec. intros i. rewrite <- Hdecp. unfold H.
    rewrite !elem_of_app, !elem_of_cons, !elem_of_app, !elem_of_cons. tauto.
Qed.

Lemma et_restore_ok nevents m pl l pe :
  in_list m pl l → li_lock pl = false → NoDup (l ++ pe) → known m pe → pe ≠ [] → prios_ok m →
  Z.of_nat (length l + length pe) ≤ nevents →
  ∃ m' pl', et_restore nevents m pl pe = Ret (ET_OK, m', pl', Z.of_nat (length pe)) ∧
    in_list m' pl' (merge m pe l) ∧ moves m m' (l ++ pe) ∧
    owners m' = give ET_SYS pe (owners m) ∧ kept pl pl' ∧ li_lasthigh pl' = li_lasthigh pl.
Proof.
  intros Hin Hlock Hnd Hk Hne Hpr Hle. unfold et_restore, et_llist_lock. rewrite Hlock. step.
  pose proof Hin as [Hcnt Hs]. destruct pe as [|p0 pe]; [done|].
  set (pl1 := pl <| li_lock := true |>). assert (in_list m pl1 l) as Hin1.
  { split; [exact Hcnt|]. by eapply spans_ext. }
  assert (li_cnt pl1 = Z.of_nat (length l)) as Hcnt1 by exact Hcnt.
  replace (nevents <=? li_cnt pl1) with false by (rewrite Hcnt1; symmetry; apply Z.leb_gt; cbn in Hle; lia).
  replace (Z.min (Z.of_nat (length (p0 :: pe))) (nevents - li_cnt pl1)) with (Z.of_nat (length (p0 :: pe)))
    by (rewrite Hcnt1; lia).
  rewrite Nat2Z.id, firstn_all.
  destruct (scan_restore_ok m pl1 l Hin1) as (p & a & Hscan & Hp & Ha).
  rewrite Hscan. step. rewrite Hp.
  destruct (own_all_ok m (p0 :: pe) Hk) as (m1 & -> & Hn1 & Hc1 & Ho1). step.
  change (of_option (head (p0 :: pe))) with (Ret p0). step.
  assert (known m1 (p0 :: pe)) as Hk1 by by eapply known_core.
  pose proof Hk1 as [Hp0 _]%Forall_cons_1. destruct (ev_known _ _ Hp0) as (e0 & -> & He0). step.
  assert (in_list m1 pl1 l) as Hin2 by (split; [exact Hcnt|]; destruct Hin1; by eapply spans_nexts).
  destruct (restore_body_ok m1 pl1 l p0 pe e0 (head (lows m l)) a Hin2 Hnd Hk1)
    as (m2 & pl2 & Hrun & H1 & H2 & H3 & H4); try done;
    [by eapply prios_ok_core|by rewrite (lows_core m m1)|by rewrite (high_prefix_core m m1)|].
  cbn [mbind res_bind] in Hrun. rewrite Hrun. step.
  apply same_ends_kept in H4 as (H4 & H5 & H6). eexists _, _. split; [done|]. destruct H2 as [H2 Hf2].
  unfold et_llist_unlock, kept in *. fields. split_and!; try done; try tauto.
  - split; fields.
    + rewrite H5, (Permutation_length (merge_perm m _ _)), length_app. unfold pl1. fields. rewrite Hcnt. lia.
    + rewrite (merge_core m m1) in H1 by done. by eapply spans_ext.
  - split; [congruence|]. intros i Hi. by rewrite Hf2, Hn1.
  - by rewrite H3, Ho1.
Qed.
