(* ===== verification/EtQueues.v ===== *)
(** * The lists of a station as queues

    The output list is two queues, one per priority, that are taken together; the theorems
    are about any sequence of operations, so the definitions above them are those of the
    abstract machine.  Input lists are queues from which readers take events, in order or
    of their group, and to which events that were taken go back. *)

From S2P Require Import Prelude Words EtTypes EtLists EtSegments EtListSpec EtStationSpec EtReadSpec EtRestoreSpec.

(** ** Two queues *)

Inductive out_op :=
| Write (x : nat)
| WriteAll (pe : list nat)
| ReadAll.

Record queues := mkQueues { q_high : list nat; q_low : list nat }.

Definition enqueue (high : nat → bool) (q : queues) (x : nat) : queues :=
  if high x then mkQueues (q_high q ++ [x]) (q_low q) else mkQueues (q_high q) (q_low q ++ [x]).

Definition queued (q : queues) : list nat := q_high q ++ q_low q.

(** What an operation gives and leaves. *)
Definition queue_step (high : nat → bool) (q : queues) (op : out_op) : list nat * queues :=
  match op with
  | Write x => ([], enqueue high q x)
  | WriteAll pe => ([], foldl (enqueue high) q pe)
  | ReadAll => (queued q, mkQueues [] [])
  end.

(** The events that are written are not in the queue, and there is room for them. *)
Definition allowed (K : list nat) (nevents : Z) (q : queues) (op : out_op) : Prop :=
  let pe := match op with Write x => [x] | WriteAll pe => pe | ReadAll => [] end in
  NoDup (queued q ++ pe) ∧ pe ⊆ K ∧ Z.of_nat (length (queued q) + length pe) ≤ nevents.

Fixpoint queue_run (high : nat → bool) (q : queues) (ops : list out_op) : list (list nat) :=
  match ops with
  | [] => []
  | op :: ops => let '(l, q) := queue_step high q op in l :: queue_run high q ops
  end.

Fixpoint all_allowed (high : nat → bool) (K : list nat) (nevents : Z) (q : queues) (ops : list out_op) : Prop :=
  match ops with
  | [] => True
  | op :: ops => allowed K nevents q op ∧ all_allowed high K nevents (queue_step high q op).2 ops
  end.

(** ** The list does the same *)

(** What the conductor does with its list locked: nothing when it is empty. *)
Definition out_step (nevents : Z) (m : evs) (s : et_station) (op : out_op) : res (list nat * evs * et_station) :=
  match op with
  | Write x => '(_, m, s) ← et_station_write nevents m s x; Ret ([], m, s)
  | WriteAll pe => '(_, m, s) ← et_station_nwrite nevents m s pe; Ret ([], m, s)
  | ReadAll =>
      pl ← et_llist_lock (s_out s);
      if li_cnt pl <? 1 then Ret ([], m, s) else
      '(_, pe, pl) ← et_llist_read m pl;
      Ret (pe, m, s <| s_out := et_llist_unlock pl |>)
  end.

Fixpoint out_run (nevents : Z) (m : evs) (s : et_station) (ops : list out_op) : res (list (list nat)) :=
  match ops with
  | [] => Ret []
  | op :: ops => '(l, m, s) ← out_step nevents m s op; r ← out_run nevents m s ops; Ret (l :: r)
  end.

(** The list of the station stands for the two queues. *)
Record stands_for (high : nat → bool) (K : list nat) (m : evs) (s : et_station) (q : queues) : Prop := StandsFor {
  sf_list : out_list m (s_out s) (queued q);
  sf_lock : li_lock (s_out s) = false;
  sf_high : high_prefix m (queued q) = q_high q;
  sf_prio : ∀ x, x ∈ K → is_high m x = high x;
  sf_known : known m K;
  sf_prios : prios_ok m
}.

Lemma sf_lows high K m s q : stands_for high K m s q → lows m (queued q) = q_low q.
Proof. intros H. unfold lows. rewrite (sf_high _ _ _ _ _ H). apply drop_app_length. Qed.

(** Putting events into the list, and into the queues. *)
Lemma insert_enqueue high K m s q pe :
  stands_for high K m s q → pe ⊆ K →
  insert_all m (queued q) pe = queued (foldl (enqueue high) q pe) ∧
  high_prefix m (queued (foldl (enqueue high) q pe)) = q_high (foldl (enqueue high) q pe).
Proof.
  intros Hs Hpe. pose proof (sf_prio _ _ _ _ _ Hs) as Hprio.
  assert (sorted m (queued q)) as Hso by apply (sf_list _ _ _ _ _ Hs).
  assert (q_low q = lows m (queued q)) as Hlow by (symmetry; by eapply sf_lows).
  pose proof (sf_high _ _ _ _ _ Hs) as Hhigh. clear Hs.
  revert q Hso Hlow Hhigh. induction pe as [|x pe IH]; intros q Hso Hlow Hhigh; [done|].
  assert (is_high m x = high x) as Hx by (apply Hprio, Hpe; by left).
  assert (merge m (queued q) [x] = queued (enqueue high q x)) as Hm.
  { unfold merge, enqueue. rewrite Hhigh, <- Hlow. unfold lows, queued. cbn [high_prefix]. rewrite Hx.
    destruct (high x); cbn; by rewrite ?app_nil_r, <- ?app_assoc. }
  cbn [insert_all foldl]. rewrite Hm. apply IH.
  - intros z Hz. apply Hpe. by right.
  - rewrite <- Hm. apply merge_sorted; [done|apply sorted_single].
  - rewrite <- Hm, lows_merge by (done || apply sorted_single). unfold enqueue, lows at 2. cbn. rewrite Hx.
    destruct (high x); cbn; by rewrite ?app_nil_r, Hlow.
  - rewrite <- Hm, high_prefix_merge by (done || apply sorted_single). unfold enqueue. cbn. rewrite Hx.
    destruct (high x); cbn; by rewrite ?app_nil_r, Hhigh.
Qed.

Lemma step_refines high K nevents m s q op :
  stands_for high K m s q → allowed K nevents q op →
  ∃ m' s', out_step nevents m s op = Ret ((queue_step high q op).1, m', s') ∧
    stands_for high K m' s' (queue_step high q op).2.
Proof.
  intros Hs (Hnd & Hsub & Hle).
  assert (∀ pe m' s', pe ⊆ K → core m' = core m → out_list m' (s_out s') (insert_all m (queued q) pe) →
            out_written s s' → stands_for high K m' s' (foldl (enqueue high) q pe)) as Hdone.
  { intros pe m' s' Hpe Hc Hout Hw. destruct (insert_enqueue high K m s q pe Hs Hpe) as [Hq Hh]. rewrite Hq in Hout.
    destruct Hw as (_ & (Hlk & _) & _). split; [done|by rewrite Hlk; apply Hs|by rewrite (high_prefix_core m m')| | |].
    - intros x Hx. rewrite (is_high_core m m') by done. by apply (sf_prio _ _ _ _ _ Hs).
    - eapply known_core; [done|apply Hs].
    - eapply prios_ok_core; [done|apply Hs]. }
  assert (∀ pe, pe ⊆ K → known m pe) as Hkn.
  { intros pe Hpe. pose proof (sf_known _ _ _ _ _ Hs) as Hk. unfold known in *. rewrite Forall_forall in Hk.
    apply Forall_forall. intros x Hx. apply Hk, list_elem_of_In, Hpe, list_elem_of_In, Hx. }
  destruct op as [x|pe|]; cbn [out_step queue_step fst snd].
  - pose proof Hnd as (_ & Hd & _)%list.NoDup_app.
    destruct (et_station_write_ok nevents m s (queued q) x) as (m' & s' & -> & H1 & [H2 _] & _ & H4); try apply Hs.
    + intros Hx. apply (Hd x Hx). by left.
    + specialize (Hkn [x] Hsub). by apply Forall_cons_1 in Hkn as [? _].
    + cbn in Hle. lia.
    + exists m', s'. split; [done|]. by apply (Hdone [x]).
  - destruct (et_station_nwrite_ok nevents m s (queued q) pe) as (m' & s' & -> & H1 & [H2 _] & _ & H4);
      try apply Hs; try done; [by apply Hkn|].
    exists m', s'. split; [done|]. by apply Hdone.
  - unfold et_llist_lock. rewrite (sf_lock _ _ _ _ _ Hs). cbn [mbind res_bind].
    pose proof (ol_list _ _ _ (sf_list _ _ _ _ _ Hs)) as Hin. pose proof Hin as [Hcnt Hsp].
    change (li_cnt (s_out s <| li_lock := true |>)) with (li_cnt (s_out s)). rewrite Hcnt.
    destruct (decide (queued q = [])) as [Hq|Hq].
    + rewrite Hq. cbn. exists m, s. split; [done|]. destruct Hs as [H1 H2 H3 H4 H5 H6]. rewrite Hq in H1. by split.
    + replace (_ <? 1) with false by (symmetry; apply Z.ltb_ge; destruct (queued q); [done|cbn; lia]).
      rewrite (et_llist_read_ok m (s_out s <| li_lock := true |>) (queued q)); [|split; [exact Hcnt|by eapply spans_ext]|done].
      cbn [mbind res_bind]. eexists _, _. split; [done|]. destruct Hs as [H1 H2 H3 H4 H5 H6]. split; try done.
      split; [|constructor|done]. split; [done|]. split; try done. constructor.
Qed.

(** C13: the output list is a queue with two priorities.  Any sequence of writes of one or
    several events by attachments, and of reads of all events by the conductor, gives what
    it gives on two queues, of which that of high priority is read first. *)
Theorem output_list_refines high K nevents m s q ops :
  stands_for high K m s q → all_allowed high K nevents q ops →
  out_run nevents m s ops = Ret (queue_run high q ops).
Proof.
  revert m s q. induction ops as [|op ops IH]; intros m s q Hs Hall; [done|]. destruct Hall as [Hop Hall].
  destruct (step_refines high K nevents m s q op Hs Hop) as (m' & s' & Hrun & Hs'). cbn [out_run queue_run].
  rewrite Hrun. destruct (queue_step high q op) as [l q']. cbn [fst snd mbind res_bind] in *.
  by rewrite (IH m' s' q' Hs' Hall).
Qed.

(** Events of both priorities that are in no list. *)
Definition loose_events : evs :=
  list_to_map ((λ i, (i, et_init_event <| e_priority := if Nat.odd i then ET_HIGH else ET_LOW |> <| e_owner := 2 |>
                           <| e_group := if (i <? 2)%nat then 1 else 2 |>)) <$> seq 0 4).

Lemma output_list_refines_witness :
  out_run 4 loose_events fresh_station [Write 0; WriteAll [1; 2]; ReadAll; WriteAll [2; 0]; Write 3; ReadAll]%nat =
    Ret [[]; []; [1; 0; 2]; []; []; [3; 2; 0]]%nat.
Proof.
  refine (output_list_refines Nat.odd (seq 0 4) 4 loose_events fresh_station (mkQueues [] []) _ _ _).
  - split; try done.
    + split; [|constructor|done]. split; [done|]. split; try done. constructor.
    + intros x Hx. apply elem_of_seq in Hx. assert (x = 0 ∨ x = 1 ∨ x = 2 ∨ x = 3)%nat as [->|[->|[->| ->]]] by lia; reflexivity.
    + apply (bool_decide_unpack _). vm_compute. exact I.
    + apply (bool_decide_unpack _). vm_compute. exact I.
  - cbn. unfold allowed. cbn.
    repeat split; try lia; try (apply (bool_decide_unpack _); vm_compute; exact I);
      (intros x Hx; repeat (apply elem_of_cons in Hx as [->|Hx]); try (apply elem_of_seq; lia); by apply elem_of_nil in Hx).
Defined.

(** ** Input lists *)

(** The station, as far as its input list goes. *)
Definition unlocked_in (s s' : et_station) : Prop :=
  s' = s <| s_in := s_in s' |> <| s_fixin := s_fixin s' |> ∧ li_lock (s_in s') = false.

Lemma split_group_fst m g n l : (split_group m g n l).1 = take n (filter (λ x, in_group m g x = true) l).
Proof.
  revert n. induction l as [|a l IH]; intros [|n]; try done. cbn [split_group]. rewrite filter_cons.
  destruct (in_group m g a).
  - rewrite decide_True by done. cbn [take]. rewrite <- IH. by destruct (split_group m g n l).
  - rewrite decide_False by done. rewrite <- IH. by destruct (split_group m g (S n) l).
Qed.

Lemma split_group_snd m g n l : (split_group m g n l).2 `sublist_of` l.
Proof.
  revert n. induction l as [|a l IH]; intros [|n]; try done. cbn [split_group].
  destruct (in_group m g a).
  - specialize (IH n). destruct (split_group m g n l). by apply sublist_cons.
  - specialize (IH (S n)). destruct (split_group m g (S n) l). by apply sublist_skip.
Qed.

(** A reader of a group gets the first [num] events of the group, or all if there are
    fewer, in the order of the list, and owns them; the other events stay in the list in
    their order, and no event is lost. *)
Theorem group_read_takes m s l att num g :
  in_list m (s_in s) l → l ≠ [] → 0 < num →
  ∃ m' s' rest, nread_group_take m s att num g =
      Ret (take (Z.to_nat num) (filter (λ x, in_group m g x = true) l), m', s') ∧
    in_list m' (s_in s') rest ∧ rest `sublist_of` l ∧
    take (Z.to_nat num) (filter (λ x, in_group m g x = true) l) ++ rest ≡ₚ l ∧
    owners m' = give att (take (Z.to_nat num) (filter (λ x, in_group m g x = true) l)) (owners m) ∧
    core m' = core m ∧ unlocked_in s s'.
Proof.
  intros Hin Hl Hnum. pose proof (nread_group_take_ok m s l att num g Hin Hl Hnum) as H.
  pose proof (split_group_fst m g (Z.to_nat num) l) as H1. pose proof (split_group_snd m g (Z.to_nat num) l) as H2.
  pose proof (split_group_perm m g (Z.to_nat num) l) as H3. destruct (split_group _ _ _ _) as [t r].
  cbn [fst snd] in *. rewrite <- H1. destruct H as (m' & s' & Hrun & G1 & [G2 _] & G3 & G4 & G5 & _).
  by exists m', s', r.
Qed.

Lemma group_read_takes_witness :
  let m := list_to_map ((λ i, (i, et_init_event <| e_next := if (i <? 3)%nat then Some (S i) else None |>
                                    <| e_group := if Nat.even i then 2 else 1 |>)) <$> seq 0 4) in
  let s := fresh_station <| s_in := fresh_list <| li_cnt := 4 |> <| li_first := Some 0%nat |> <| li_last := Some 3%nat |> |> in
  ∃ m' s' rest, nread_group_take m s 5 3 1 = Ret ([1; 3]%nat, m', s') ∧ in_list m' (s_in s') rest ∧
    rest `sublist_of` seq 0 4 ∧ [1; 3]%nat ++ rest ≡ₚ seq 0 4 ∧ owners m' = give 5 [1; 3]%nat (owners m) ∧
    core m' = core m ∧ unlocked_in s s'.
Proof.
  intros m s. refine (group_read_takes m s (seq 0 4) 5 3 1 _ _ _); [|done|lia].
  split; [done|]. split; try done; [apply NoDup_seq|]. vm_compute. repeat (first [exact I | reflexivity | split | eexists]).
Defined.

(** Taking from the front of a list in order, and merging back. *)
Lemma merge_take_drop m l k : sorted m l → merge m (take k l) (drop k l) = l.
Proof.
  intros Hs. pose proof (high_prefix_lows m l) as Hdec. set (h := high_prefix m l) in *. set (w := lows m l) in *.
  assert (Forall (λ i, is_high m i = true) h) as Hh by apply high_prefix_high.
  assert (Forall (λ i, is_high m i = false) w) as Hw by exact Hs.
  assert (∀ a b, Forall (λ i, is_high m i = true) a → Forall (λ i, is_high m i = false) b →
            high_prefix m (a ++ b) = a ∧ lows m (a ++ b) = b) as Hparts.
  { intros a b Ha Hb. assert (high_prefix m (a ++ b) = a) as E.
    { rewrite high_prefix_app, high_prefix_low, app_nil_r by done. done. }
    split; [done|]. unfold lows. rewrite E. apply drop_app_length. }
  rewrite <- Hdec, take_app, drop_app. unfold merge.
  destruct (Hparts (take k h) (take (k - length h) w)) as [-> ->]; [by apply Forall_take|by apply Forall_take|].
  destruct (Hparts (drop k h) (drop (k - length h) w)) as [-> ->]; [by apply Forall_drop|by apply Forall_drop|].
  destruct (decide (k ≤ length h)%nat) as [Hk|Hk].
  - replace (k - length h)%nat with O by lia. cbn. rewrite app_assoc, take_drop. done.
  - rewrite (take_ge h), (drop_ge h) by lia. cbn. by rewrite take_drop.
Qed.

(** Events that an attachment took from an input list, and that are put back because it
    detached or crashed, are in the list as before, if it had events of high priority
    first and nothing else happened to it; the system owns them again. *)
Theorem restore_undoes_read nevents m s l att num :
  in_list m (s_in s) l → l ≠ [] → sorted m l → 0 < num → prios_ok m → Z.of_nat (length l) ≤ nevents →
  ∃ pe m1 s1 m2 pl, nread_take m s att num = Ret (pe, m1, s1) ∧
    et_restore nevents m1 (s_in s1) pe = Ret (ET_OK, m2, pl, Z.of_nat (length pe)) ∧
    in_list m2 pl l ∧ core m2 = core m ∧ owners m2 = give ET_SYS pe (give att pe (owners m)).
Proof.
  intros Hin Hl Hso Hnum Hpr Hle.
  destruct (nread_take_ok m s l att num Hin Hl Hnum) as (m1 & s1 & Hread & H1 & H2 & H3 & H4 & H5).
  set (k := Z.to_nat num) in *. pose proof (sp_nodup _ _ _ (proj2 Hin)) as Hnd.
  assert (take k l ++ drop k l ≡ₚ drop k l ++ take k l) as Hp by apply Permutation_app_comm.
  rewrite take_drop in Hp. pose proof (spans_known _ _ _ (proj2 Hin)) as Hk.
  destruct (et_restore_ok nevents m1 (s_in s1) (drop k l) (take k l)) as (m2 & pl & Hrun & G1 & [G2 _] & G3 & _).
  - done.
  - apply H5.
  - by rewrite <- Hp.
  - eapply known_core; [exact H3|]. by apply Forall_take.
  - intros E. apply (f_equal length) in E. rewrite length_take in E. destruct l; [done|]. cbn in E. unfold k in E. lia.
  - by eapply prios_ok_core.
  - rewrite <- length_app, <- Hp. done.
  - exists (take k l), m1, s1, m2, pl. rewrite (merge_core m m1), merge_take_drop in G1 by done.
    split_and!; [done|done|done|congruence|by rewrite G3, H4].
Qed.

Lemma restore_undoes_read_witness :
  let m := list_to_map ((λ i, (i, et_init_event <| e_next := if (i <? 3)%nat then Some (S i) else None |>
                                    <| e_priority := if (i <? 1)%nat then ET_HIGH else ET_LOW |>)) <$> seq 0 4) in
  let s := fresh_station <| s_in := fresh_list <| li_cnt := 4 |> <| li_first := Some 0%nat |> <| li_last := Some 3%nat |> |> in
  ∃ pe m1 s1 m2 pl, nread_take m s 5 2 = Ret (pe, m1, s1) ∧
    et_restore 4 m1 (s_in s1) pe = Ret (ET_OK, m2, pl, Z.of_nat (length pe)) ∧
    in_list m2 pl (seq 0 4) ∧ core m2 = core m ∧ owners m2 = give ET_SYS pe (give 5 pe (owners m)).
Proof.
  intros m s. apply restore_undoes_read; try done.
  - split; [done|]. split; try done; [apply NoDup_seq|]. vm_compute. repeat (first [exact I | reflexivity | split | eexists]).
  - apply (bool_decide_unpack _). vm_compute. exact I.
  - apply (bool_decide_unpack _). vm_compute. exact I.
Defined.
