(* ===== verification/EtShellSort.v ===== *)
(** * Sorting by Shell's method (et-16.1/src/libsrc/et_system.c, shellSort)

    The arrays [a] and [b] are moved together and are one array of pairs here.  Indexes run
    from 1, as the comment of the routine says. *)

From Stdlib Require Import Sorting.Sorted.
From S2P Require Import Prelude Words.

(** ** Definitions *)

Definition cell := (Z * Z)%type.

Definition at_ (l : list cell) (i : nat) : res cell := of_option (match i with O => None | S i => l !! i end).
Definition put_at (l : list cell) (i : nat) (x : cell) : res (list cell) :=
  _ ← at_ l i; Ret (<[(i - 1)%nat := x]> l).

(** [while (a[j-inc] > v) ...] and the stores that follow it; [j] decreases. *)
Fixpoint sift (l : list cell) (x : cell) (inc j fuel : nat) : res (list cell) :=
  match fuel with
  | O => NoFuel
  | S fuel =>
      y ← at_ l (j - inc);
      if fst x <? fst y then
        l ← put_at l j y;
        let j := (j - inc)%nat in
        if (j <=? inc)%nat then put_at l j x else sift l x inc j fuel
      else put_at l j x
  end.

(** [for (i = ...; i <= n; i++)], [k] times. *)
Fixpoint sort_pass (l : list cell) (inc i k : nat) : res (list cell) :=
  match k with
  | O => Ret l
  | S k => x ← at_ l i; l ← sift l x inc i i; sort_pass l inc (S i) k
  end.

Fixpoint grow_inc (n inc fuel : nat) : res nat :=
  match fuel with
  | O => NoFuel
  | S fuel => let inc := (inc * 3 + 1)%nat in if (inc <=? n)%nat then grow_inc n inc fuel else Ret inc
  end.

Fixpoint sort_passes (l : list cell) (inc fuel : nat) : res (list cell) :=
  match fuel with
  | O => NoFuel
  | S fuel =>
      let inc := (inc / 3)%nat in
      l ← sort_pass l inc (S inc) (length l - inc);
      if (1 <? inc)%nat then sort_passes l inc fuel else Ret l
  end.

Definition shellSort (l : list cell) : res (list cell) :=
  inc ← grow_inc (length l) 1 (S (length l));
  sort_passes l inc inc.

Example shellSort_example :
  shellSort [(5, 1); (2, 2); (9, 3); (2, 4); (0, 5); (7, 6)] =
    Ret [(0, 5); (2, 2); (2, 4); (5, 1); (7, 6); (9, 3)].
Proof. reflexivity. Qed.

(** ** Moving keeps the cells *)

(** The array whose hole at [j] is filled with [x]. *)
Definition filled (l : list cell) (j : nat) (x : cell) : list cell := <[(j - 1)%nat := x]> l.

Lemma at_lt l i : (1 ≤ i ≤ length l)%nat → ∃ x, at_ l i = Ret x ∧ l !! (i - 1)%nat = Some x.
Proof.
  intros [H1 H2]. destruct i as [|i]; [lia|]. destruct (lookup_lt_is_Some_2 l i) as [x Hx]; [lia|].
  exists x. replace (S i - 1)%nat with i by lia. unfold at_. rewrite Hx. by split.
Qed.

Lemma put_at_lt l i x : (1 ≤ i ≤ length l)%nat → put_at l i x = Ret (filled l i x).
Proof. intros H. unfold put_at. by destruct (at_lt l i H) as (y & -> & _). Qed.

Lemma length_filled l j x : length (filled l j x) = length l.
Proof. apply length_insert. Qed.

(** A cell moves to the hole, and leaves one. *)
Lemma filled_filled l i j x y :
  (1 ≤ i)%nat → (1 ≤ j ≤ length l)%nat → i ≠ j → l !! (i - 1)%nat = Some y →
  filled (filled l j y) i x ≡ₚ filled l j x.
Proof.
  intros Hi Hj Hne Hy. unfold filled.
  rewrite <- (Permutation_insert_swap (<[(j - 1)%nat := x]> l) (j - 1) (i - 1) x y).
  - by rewrite list_insert_insert_eq.
  - apply list_lookup_insert_eq. lia.
  - rewrite list_lookup_insert_ne by lia. done.
Qed.

Lemma sift_perm l x inc j fuel :
  (1 ≤ inc)%nat → (inc < j ≤ length l)%nat → (j ≤ fuel)%nat →
  ∃ l', sift l x inc j fuel = Ret l' ∧ l' ≡ₚ filled l j x.
Proof.
  revert l j. induction fuel as [|fuel IH]; intros l j Hinc Hj Hf; [lia|]. cbn [sift].
  destruct (at_lt l (j - inc)) as (y & -> & Hy); [lia|]. cbn [mbind res_bind].
  destruct (_ <? _); [|rewrite put_at_lt by lia; by eexists].
  rewrite put_at_lt by lia. cbn [mbind res_bind].
  assert (∀ l', l' ≡ₚ filled (filled l j y) (j - inc) x → l' ≡ₚ filled l j x) as Hp.
  { intros l' ->. apply filled_filled; lia || done. }
  destruct (_ <=? _)%nat eqn:Hle.
  - rewrite put_at_lt by (rewrite length_filled; lia). eexists. split; [done|]. by apply Hp.
  - apply Nat.leb_gt in Hle. destruct (IH (filled l j y) (j - inc)%nat) as (l' & -> & Hl');
      [done|rewrite length_filled; lia|lia|]. exists l'. split; [done|]. by apply Hp.
Qed.

Lemma sort_pass_perm l inc i k :
  (1 ≤ inc)%nat → (inc < i)%nat → (i + k ≤ S (length l))%nat →
  ∃ l', sort_pass l inc i k = Ret l' ∧ l' ≡ₚ l.
Proof.
  revert l i. induction k as [|k IH]; intros l i Hinc Hi Hk; [by exists l|]. cbn [sort_pass].
  destruct (at_lt l i) as (x & -> & Hx); [lia|]. cbn [mbind res_bind].
  destruct (sift_perm l x inc i i) as (l1 & -> & H1); [lia..|]. cbn [mbind res_bind].
  unfold filled in H1. rewrite list_insert_id in H1 by done.
  destruct (IH l1 (S i)) as (l2 & -> & H2); [lia..|rewrite H1; lia|]. exists l2. split; [done|]. by rewrite H2.
Qed.

(** ** The last pass sorts *)

Fixpoint insert_back (x : cell) (rl : list cell) : list cell :=
  match rl with
  | [] => [x]
  | y :: rl => if fst x <? fst y then y :: insert_back x rl else x :: y :: rl
  end.
Definition insert_last (l : list cell) (x : cell) : list cell := reverse (insert_back x (reverse l)).

Lemma insert_last_snoc l y x :
  insert_last (l ++ [y]) x = if fst x <? fst y then insert_last l x ++ [y] else l ++ [y; x].
Proof.
  unfold insert_last. rewrite reverse_snoc. cbn [insert_back]. destruct (_ <? _).
  - by rewrite reverse_cons.
  - by rewrite !reverse_cons, reverse_involutive, <- app_assoc.
Qed.

Notation ordered := (StronglySorted (λ a b : cell, fst a ≤ fst b)).

Lemma ordered_app l1 l2 :
  ordered (l1 ++ l2) ↔ ordered l1 ∧ ordered l2 ∧ Forall (λ a, Forall (λ b, fst a ≤ fst b) l2) l1.
Proof.
  induction l1 as [|a l1 IH]; cbn; [split; [by repeat constructor|tauto]|]. split.
  - intros H. apply StronglySorted_inv in H as [H1 H2]. apply IH in H1 as (H1 & H3 & H4).
    apply Forall_app in H2 as [H2 H5]. split_and!; [by constructor|done|by constructor].
  - intros (H1 & H2 & H3). apply StronglySorted_inv in H1 as [H1 H4]. apply Forall_cons_1 in H3 as [H3 H5].
    constructor; [apply IH; by split_and!|by apply Forall_app].
Qed.

Lemma insert_last_perm l x : insert_last l x ≡ₚ l ++ [x].
Proof.
  induction l as [|y l IH] using rev_ind; [done|]. rewrite insert_last_snoc. destruct (_ <? _).
  - rewrite IH, <- !app_assoc. f_equiv. apply Permutation_swap.
  - by rewrite <- app_assoc.
Qed.

Lemma insert_last_ordered l x : ordered l → ordered (insert_last l x).
Proof.
  induction l as [|y l IH] using rev_ind; intros Hl; [by repeat constructor|].
  apply ordered_app in Hl as (Hl & _ & Hy). rewrite insert_last_snoc. destruct (fst x <? fst y) eqn:E.
  - apply Z.ltb_lt in E. apply ordered_app. split_and!; [by apply IH|by repeat constructor|].
    rewrite (insert_last_perm l x). apply Forall_app. split; [done|]. repeat constructor. lia.
  - apply Z.ltb_ge in E. apply ordered_app. split_and!; [done|by repeat constructor|].
    eapply Forall_impl; [|exact Hy]. intros a Ha. apply Forall_cons_1 in Ha as [Ha _]. repeat constructor; lia.
Qed.

Lemma sift_one P h T x fuel :
  P ≠ [] → (length P < fuel)%nat →
  sift (P ++ h :: T) x 1 (S (length P)) fuel = Ret (insert_last P x ++ T).
Proof.
  revert h T fuel. induction P as [|y P IH] using rev_ind; intros h T fuel HP Hf; [done|].
  rewrite length_app in *. cbn [length] in *. destruct fuel as [|fuel]; [lia|]. cbn [sift].
  rewrite insert_last_snoc, <- app_assoc. cbn [app].
  assert (∀ z, put_at (P ++ y :: h :: T) (S (length P + 1)) z = Ret (P ++ y :: z :: T)) as Hput.
  { intros z. rewrite put_at_lt by (rewrite length_app; cbn; lia). unfold filled.
    rewrite insert_app_r_alt by lia. by replace (S (length P + 1) - 1 - length P)%nat with 1%nat by lia. }
  replace (at_ _ (S (length P + 1) - 1)) with (Ret y).
  2:{ replace (S (length P + 1) - 1)%nat with (S (length P)) by lia. unfold at_.
      rewrite lookup_app_r, Nat.sub_diag by lia. done. }
  cbn [mbind res_bind]. rewrite Hput. destruct (_ <? _); [|rewrite Hput, <- app_assoc; done].
  cbn [mbind res_bind]. replace (S (length P + 1) - 1)%nat with (S (length P)) by lia. rewrite <- app_assoc. cbn [app].
  destruct P as [|z P].
  - cbn. done.
  - replace (_ <=? 1)%nat with false by (symmetry; apply Nat.leb_gt; cbn; lia). apply IH; [done|lia].
Qed.

Lemma sort_pass_one P T :
  P ≠ [] → sort_pass (P ++ T) 1 (S (length P)) (length T) = Ret (foldl insert_last P T).
Proof.
  revert P. induction T as [|x T IH]; intros P HP; [by rewrite app_nil_r|]. cbn [sort_pass length foldl].
  replace (at_ _ _) with (Ret x) by (unfold at_; rewrite lookup_app_r, Nat.sub_diag by lia; done).
  cbn [mbind res_bind]. rewrite sift_one by (done || lia). cbn [mbind res_bind].
  replace (S (S (length P))) with (S (length (insert_last P x))).
  - apply IH. intros E. pose proof (insert_last_perm P x) as H. rewrite E in H.
    apply Permutation_nil_l in H. by destruct P.
  - rewrite insert_last_perm, length_app. cbn. lia.
Qed.

Lemma foldl_insert_last P T :
  ordered P → ordered (foldl insert_last P T).
Proof. revert P. induction T as [|x T IH]; intros P HP; [done|]. by apply IH, insert_last_ordered. Qed.

(** ** The increments *)

Fixpoint increment (k : nat) : nat := match k with O => 1 | S k => increment k * 3 + 1 end.

Lemma increment_gt k : (k < increment k)%nat.
Proof. induction k as [|k IH]; cbn; lia. Qed.

Lemma increment_div k : (increment (S k) / 3)%nat = increment k.
Proof. cbn [increment]. rewrite Nat.add_comm, Nat.div_add by lia. done. Qed.

Lemma grow_inc_ok n k fuel :
  (n < k + fuel)%nat → (1 ≤ fuel)%nat → ∃ k', grow_inc n (increment k) fuel = Ret (increment (S k')).
Proof.
  revert k. induction fuel as [|fuel IH]; intros k Hk Hf; [lia|]. cbn [grow_inc].
  change (increment k * 3 + 1)%nat with (increment (S k)). destruct (_ <=? _)%nat eqn:Hle; [|by exists k].
  apply Nat.leb_le in Hle. pose proof (increment_gt (S k)). apply (IH (S k)); lia.
Qed.

Lemma last_pass l : ∃ l', sort_pass l 1 2 (length l - 1) = Ret l' ∧ l' ≡ₚ l ∧ ordered l'.
Proof.
  destruct l as [|x T]; [exists []; split_and!; done || constructor|].
  destruct (sort_pass_perm (x :: T) 1 2 (length (x :: T) - 1)) as (l' & Hl' & Hp); [lia..|cbn; lia|].
  pose proof (sort_pass_one [x] T ltac:(done)) as H. cbn [length app Nat.sub] in *. rewrite Nat.sub_0_r in *.
  rewrite H in Hl'. injection Hl' as <-. eexists. split_and!; [done|done|].
  apply foldl_insert_last. by repeat constructor.
Qed.

Lemma sort_passes_ok l k fuel :
  (k < fuel)%nat → ∃ l', sort_passes l (increment (S k)) fuel = Ret l' ∧ l' ≡ₚ l ∧ ordered l'.
Proof.
  revert l fuel. induction k as [|k IH]; intros l fuel Hf; (destruct fuel as [|fuel]; [lia|]);
    cbn [sort_passes]; rewrite increment_div.
  - change (increment 0) with 1%nat. destruct (last_pass l) as (l' & -> & H). by exists l'.
  - replace (1 <? increment (S k))%nat with true
      by (symmetry; apply Nat.ltb_lt; pose proof (increment_gt (S k)); lia).
    assert (∃ l1, sort_pass l (increment (S k)) (S (increment (S k))) (length l - increment (S k)) = Ret l1 ∧ l1 ≡ₚ l)
      as (l1 & -> & Hp).
    { destruct (decide (increment (S k) ≤ length l)%nat) as [H|H].
      - apply sort_pass_perm; pose proof (increment_gt (S k)); lia.
      - replace (length l - increment (S k))%nat with O by lia. by exists l. }
    cbn [mbind res_bind]. destruct (IH l1 fuel) as (l' & -> & Hp' & Ho); [lia|]. exists l'.
    split_and!; [done|by rewrite Hp'|done].
Qed.

(** The sort always ends and gives the cells of the array in the order of their keys. *)
Lemma shellSort_ok l : ∃ l', shellSort l = Ret l' ∧ l' ≡ₚ l ∧ ordered l'.
Proof.
  unfold shellSort. change 1%nat with (increment 0).
  destruct (grow_inc_ok (length l) 0 (S (length l))) as (k & ->); [lia..|]. cbn [mbind res_bind].
  apply sort_passes_ok. pose proof (increment_gt (S k)). lia.
Qed.
