(* ===== verification/EtEqualCue.v ===== *)
(** * Sharing events between stations with equal cues (et_system.c, lines 2114-2208)

    Stations with the fewest events in their input lists get events until they have as many
    as the next ones, and so on; what is left is shared evenly. *)

From S2P Require Import Prelude Words EtShellSort.

(** ** Definitions *)

(** [inListCount[i] + numEvents[place[i]-1]]. *)
Definition given (num : list Z) (c : cell) : res Z := of_option (num !! Z.to_nat (snd c - 1)).

(** Lines 2165-2175: how many cues have [min] events, and the next higher one. *)
Fixpoint same_cue (cells : list cell) (num : list Z) (min : Z) : res (Z * option Z) :=
  match cells with
  | [] => Ret (0, None)
  | c :: cells =>
      x ← given num c;
      if min =? fst c + x then '(k, higher) ← same_cue cells num min; Ret (k + 1, higher)
      else Ret (0, Some (fst c))
  end.

(** Lines 2187-2194 and 2202-2204: [per] events for each, one more for the first [extra]. *)
Fixpoint dole (cells : list cell) (num : list Z) (per extra : Z) : res (list Z) :=
  match cells with
  | [] => Ret num
  | c :: cells =>
      x ← given num c;
      dole cells (<[Z.to_nat (snd c - 1) := x + (if 0 <? extra then per + 1 else per)]> num) per (extra - 1)
  end.

(** Lines 2163-2208, with the bound [fuel] on the number of rounds. *)
Fixpoint dole_loop (cells : list cell) (num : list Z) (min events_left doled : Z) (fuel : nat) : res (list Z) :=
  if negb (doled <? events_left) then Ret num else
  match fuel with
  | O => NoFuel
  | S fuel =>
      '(same, higher) ← same_cue cells num min;
      let next := default 0 higher in
      if (same =? Z.of_nat (length cells)) || (events_left - doled <? (next - min) * same) then
        if same =? 0 then Undef else
        let toput := events_left - doled in
        dole (take (Z.to_nat same) cells) num (toput / same) (toput mod same)
      else
        num ← dole (take (Z.to_nat same) cells) num (next - min) 0;
        dole_loop cells num next events_left (doled + (next - min) * same) fuel
  end.

(** Lines 2115-2208: the number of events for each of the active stations, whose input
    lists have [counts] events. *)
Definition equal_cue (counts : list Z) (events_left : Z) : res (list Z) :=
  cells ← shellSort (zip counts (Z.of_nat <$> seq 1 (length counts)));
  c ← of_option (head cells);
  dole_loop cells (replicate (length counts) 0) (fst c) events_left 0 (length counts).

Example equal_cue_example : equal_cue [7; 2; 4; 2] 9 = Ret [0; 4; 1; 4].
Proof. reflexivity. Qed.

(** ** What is given *)

Fixpoint total (l : list Z) : Z := match l with [] => 0 | x :: l => x + total l end.

Lemma total_insert l i x y : l !! i = Some x → total (<[i := y]> l) = total l - x + y.
Proof.
  revert i. induction l as [|z l IH]; intros [|i] H; cbn in H; try done.
  - injection H as ->. cbn. lia.
  - change (z + total (<[i := y]> l) = z + total l - x + y). rewrite (IH i) by done. lia.
Qed.

Lemma total_replicate n : total (replicate n 0) = 0.
Proof. induction n; cbn; lia. Qed.

(** Cells whose places are those of different elements of an array of [n]. *)
Definition places_ok (n : nat) (cells : list cell) : Prop :=
  NoDup cells.*2 ∧ Forall (λ c : cell, 1 ≤ snd c ≤ Z.of_nat n) cells.

Definition got (num : list Z) (c : cell) : Z := default 0 (num !! Z.to_nat (snd c - 1)).

Lemma given_got n cells num c :
  places_ok n cells → length num = n → c ∈ cells → given num c = Ret (got num c).
Proof.
  intros [_ Hp] Hlen Hc. rewrite Forall_forall in Hp. specialize (Hp c (proj1 (list_elem_of_In _ _) Hc)).
  unfold given, got. destruct (lookup_lt_is_Some_2 num (Z.to_nat (snd c - 1))) as [x ->]; [lia|done].
Qed.

Lemma places_ok_app n l1 l2 :
  places_ok n (l1 ++ l2) ↔
  places_ok n l1 ∧ places_ok n l2 ∧ ∀ c d, c ∈ l1 → d ∈ l2 → snd c ≠ snd d.
Proof.
  unfold places_ok. rewrite fmap_app, list.NoDup_app, Forall_app. split.
  - intros [(H1 & H2 & H3) [H4 H5]]. split_and!; try done. intros c d Hc Hd E.
    apply (H2 (snd c)); [|rewrite E]; by apply list_elem_of_fmap_2.
  - intros ([H1 H2] & [H3 H4] & H5). split_and!; try done. intros x Hx Hy.
    apply list_elem_of_fmap in Hx as (c & -> & Hc). apply list_elem_of_fmap in Hy as (d & E & Hd).
    by apply (H5 c d).
Qed.

Lemma dole_none cells num per e1 e2 : e1 ≤ 0 → e2 ≤ 0 → dole cells num per e1 = dole cells num per e2.
Proof.
  revert num e1 e2. induction cells as [|c cells IH]; intros num e1 e2 H1 H2; [done|]. cbn.
  destruct (given num c); cbn; try done. replace (0 <? e1) with false by (symmetry; apply Z.ltb_ge; lia).
  replace (0 <? e2) with false by (symmetry; apply Z.ltb_ge; lia). apply IH; lia.
Qed.

(** Each of the cells gets [per], or one more. *)
Lemma dole_ok n cells num per extra :
  places_ok n cells → length num = n → 0 ≤ extra ≤ Z.of_nat (length cells) →
  ∃ num', dole cells num per extra = Ret num' ∧ length num' = n ∧
    total num' = total num + per * Z.of_nat (length cells) + extra ∧
    (∀ c, c ∈ cells → got num' c = got num c + per ∨ (0 < extra ∧ got num' c = got num c + per + 1)) ∧
    (∀ i, Forall (λ c : cell, Z.to_nat (snd c - 1) ≠ i) cells → num' !! i = num !! i).
Proof.
  revert num extra. induction cells as [|c cells IH]; intros num extra Hp Hlen He.
  { cbn in *. exists num. split_and!; try done; [lia|]. by intros c Hc%elem_of_nil. }
  cbn [dole]. rewrite (given_got n (c :: cells)) by (done || by left). cbn [mbind res_bind].
  destruct Hp as [[Hn Hnd]%list.NoDup_cons [Hc Hp]%Forall_cons_1]. set (i := Z.to_nat (snd c - 1)).
  destruct (lookup_lt_is_Some_2 num i) as [x Hx]; [lia|]. set (y := got num c + _).
  assert (got num c = x) as Hg by (unfold got; fold i; by rewrite Hx).
  set (num1 := <[i := y]> num). assert (length num1 = n) as Hlen1 by (unfold num1; by rewrite length_insert).
  assert (total num1 = total num + (if 0 <? extra then per + 1 else per)) as Ht.
  { unfold num1, y. rewrite (total_insert _ _ x) by done. lia. }
  assert (got num1 c = y) as Hg1 by (unfold got, num1; fold i; rewrite list_lookup_insert_eq by lia; done).
  assert (Forall (λ d : cell, Z.to_nat (snd d - 1) ≠ i) cells) as Hi.
  { apply Forall_forall. intros d Hd%list_elem_of_In E. apply Hn.
    rewrite Forall_forall in Hp. specialize (Hp d (proj1 (list_elem_of_In _ _) Hd)).
    assert (snd c = snd d) as -> by lia. by apply list_elem_of_fmap_2. }
  assert (∀ d, d ∈ cells → got num1 d = got num d) as Hgd.
  { intros d Hd. unfold got, num1. rewrite list_lookup_insert_ne; [done|]. rewrite Forall_forall in Hi.
    intros E. by apply (Hi d (proj1 (list_elem_of_In _ _) Hd)). }
  destruct (IH num1 (if 0 <? extra then extra - 1 else 0)) as (num2 & Hrun & G1 & G2 & G3 & G4);
    [by split|done|destruct (0 <? extra) eqn:E; cbn in He; lia|].
  assert (dole cells num1 per (extra - 1) = Ret num2) as ->.
  { destruct (0 <? extra) eqn:E; [exact Hrun|]. apply Z.ltb_ge in E. rewrite (dole_none _ _ _ (extra - 1) 0) by lia. exact Hrun. }
  exists num2. split_and!; [done|done| | |].
  - rewrite G2, Ht. cbn [length]. destruct (0 <? extra) eqn:E; cbn in He; lia.
  - intros d [->|Hd]%elem_of_cons.
    + assert (got num2 c = y) as ->.
      { unfold got. fold i. rewrite G4 by done. exact Hg1. }
      unfold y. destruct (0 <? extra) eqn:E; [|by left]. right. apply Z.ltb_lt in E. lia.
    + rewrite <- (Hgd d Hd). destruct (G3 d Hd) as [H|[H1 H2]]; [by left|].
      right. split; [|done]. destruct (0 <? extra) eqn:E; lia.
  - intros j [Hj Hjs]%Forall_cons_1. rewrite G4 by done. unfold num1. by rewrite list_lookup_insert_ne.
Qed.

(** ** The rounds *)

Record levelled (n : nat) (A B : list cell) (num : list Z) (min doled : Z) : Prop := Levelled {
  lv_places : places_ok n (A ++ B);
  lv_ordered : ordered B;
  lv_some : A ≠ [];
  lv_length : length num = n;
  lv_total : total num = doled;
  lv_same : ∀ c, c ∈ A → fst c ≤ min ∧ fst c + got num c = min;
  lv_higher : ∀ c, c ∈ B → min < fst c ∧ got num c = 0
}.

(** What the rounds lead to: no station that got events has two more than another one. *)
Definition fair (cells : list cell) (num : list Z) : Prop :=
  (∀ c, c ∈ cells → 0 ≤ got num c) ∧
  ∀ c d, c ∈ cells → d ∈ cells → 0 < got num c → fst c + got num c ≤ fst d + got num d + 1.

Lemma levelled_fair n A B num min doled : levelled n A B num min doled → fair (A ++ B) num.
Proof.
  intros [_ _ _ _ _ HA HB]. split.
  - intros c [Hc|Hc]%elem_of_app; [destruct (HA c Hc); lia|destruct (HB c Hc); lia].
  - intros c d [Hc|Hc]%elem_of_app Hd; [|destruct (HB c Hc); lia]. intros _. destruct (HA c Hc) as [_ ->].
    apply elem_of_app in Hd as [Hd|Hd]; [destruct (HA d Hd); lia|destruct (HB d Hd); lia].
Qed.

Lemma same_cue_ok n A B num min doled :
  levelled n A B num min doled →
  same_cue (A ++ B) num min = Ret (Z.of_nat (length A), fst <$> head B).
Proof.
  intros [Hp _ _ Hlen _ HA HB].
  assert (∀ c, c ∈ A ++ B → given num c = Ret (got num c)) as Hg by (intros c Hc; by eapply given_got).
  clear Hp Hlen. induction A as [|a A IH]; cbn [app length same_cue].
  - destruct B as [|b B]; [done|]. cbn [same_cue app]. rewrite Hg by by left. cbn [mbind res_bind].
    destruct (HB b ltac:(by left)) as [H1 ->]. replace (_ =? _) with false by (symmetry; apply Z.eqb_neq; lia). done.
  - rewrite Hg by by left. cbn [mbind res_bind]. destruct (HA a ltac:(by left)) as [_ H].
    replace (_ =? _) with true by (symmetry; apply Z.eqb_eq; lia).
    rewrite IH; [|intros c Hc; apply HA; by right|intros c Hc; apply Hg; by right].
    cbn [mbind res_bind]. do 2 f_equal. lia.
Qed.

Lemma got_other n A B num num' c :
  places_ok n (A ++ B) → c ∈ B →
  (∀ i, Forall (λ c : cell, Z.to_nat (snd c - 1) ≠ i) A → num' !! i = num !! i) → got num' c = got num c.
Proof.
  intros ([_ HA] & [_ HB] & Hne)%places_ok_app Hc H. unfold got. rewrite H; [done|].
  apply Forall_forall. intros d Hd E. apply (Hne d c); [by apply list_elem_of_In|done|].
  rewrite Forall_forall in HA. specialize (HA d Hd). rewrite Forall_forall in HB.
  specialize (HB c (proj1 (list_elem_of_In _ _) Hc)). lia.
Qed.

Lemma split_level v l :
  ordered l → Forall (λ c : cell, v ≤ fst c) l →
  ∃ l1 l2, l = l1 ++ l2 ∧ (∀ c, c ∈ l1 → fst c = v) ∧ (∀ c, c ∈ l2 → v < fst c) ∧
           (∀ b, head l = Some b → fst b = v → l1 ≠ []).
Proof.
  induction l as [|b l IH]; intros Ho Hv.
  { exists [], []. split_and!; try done; by intros c Hc%elem_of_nil. }
  apply Sorted.StronglySorted_inv in Ho as [Ho Hb]. apply Forall_cons_1 in Hv as [Hbv Hv].
  destruct (decide (fst b = v)) as [E|E].
  - destruct (IH Ho Hv) as (l1 & l2 & -> & H1 & H2 & _). exists (b :: l1), l2. split_and!; try done.
    intros c [->|Hc]%elem_of_cons; [done|by apply H1].
  - exists [], (b :: l). split_and!; try done; [by intros c Hc%elem_of_nil| |by intros ? [= <-]].
    intros c [->|Hc]%elem_of_cons; [lia|]. rewrite Forall_forall in Hb.
    specialize (Hb c (proj1 (list_elem_of_In _ _) Hc)). lia.
Qed.

(** The last round: what is left does not fill the lowest cues. *)
Lemma last_round n A B num min doled left :
  levelled n A B num min doled → doled < left →
  (∀ b, head B = Some b → left - doled < (fst b - min) * Z.of_nat (length A)) →
  let k := Z.of_nat (length A) in
  ∃ num', dole A num ((left - doled) / k) ((left - doled) mod k) = Ret num' ∧
    length num' = n ∧ total num' = left ∧ fair (A ++ B) num'.
Proof.
  intros [Hp Ho HA0 Hlen Ht HA HB] Hlt Hnx k.
  assert (0 < k) as Hk by (unfold k; destruct A; [done|cbn; lia]).
  set (t := left - doled) in *. pose proof (Z.mod_pos_bound t k Hk) as Hm. pose proof (Z.div_mod t k ltac:(lia)) as Hd.
  pose proof Hp as (HpA & _ & _)%places_ok_app.
  destruct (dole_ok n A num (t / k) (t mod k) HpA Hlen) as (num' & -> & H1 & H2 & H3 & H4); [lia|].
  exists num'. split_and!; [done|done|unfold k in *; lia|].
  assert (0 ≤ t / k) as Hq by (apply Z.div_pos; lia).
  assert (∀ c, c ∈ B → min + t / k + 1 ≤ fst c) as HBk.
  { intros c Hc. destruct B as [|b B]; [by apply elem_of_nil in Hc|]. specialize (Hnx b eq_refl).
    assert (t / k < fst b - min) by (apply Z.div_lt_upper_bound; lia).
    apply Sorted.StronglySorted_inv in Ho as [_ Hb]. apply elem_of_cons in Hc as [->|Hc]; [lia|].
    rewrite Forall_forall in Hb. specialize (Hb c (proj1 (list_elem_of_In _ _) Hc)). lia. }
  assert (∀ c, c ∈ B → got num' c = 0) as HB0.
  { intros c Hc. rewrite (got_other n A B num num' c Hp Hc H4). by apply HB. }
  assert (∀ c, c ∈ A → 0 ≤ got num' c ∧ min + t / k ≤ fst c + got num' c ≤ min + t / k + 1) as HAk.
  { intros c Hc. destruct (HA c Hc) as [G1 G2]. destruct (H3 c Hc) as [H|[_ H]]; lia. }
  split.
  - intros c [Hc|Hc]%elem_of_app; [by apply HAk|by rewrite HB0].
  - intros c d [Hc|Hc]%elem_of_app Hd'; [|rewrite HB0 by done; lia]. intros _. destruct (HAk c Hc) as [_ Hc'].
    apply elem_of_app in Hd' as [Hd'|Hd']; [destruct (HAk d Hd'); lia|]. rewrite (HB0 d) by done. specialize (HBk d Hd'). lia.
Qed.

(** A round that fills the lowest cues to the level of the next ones. *)
Lemma fill_round n A b B num min doled :
  levelled n A (b :: B) num min doled → 
  let k := Z.of_nat (length A) in
  ∃ num' A' B', dole A num (fst b - min) 0 = Ret num' ∧ A ++ b :: B = A' ++ B' ∧
    levelled n A' B' num' (fst b) (doled + (fst b - min) * k) ∧ (length B' ≤ length B)%nat.
Proof.
  intros [Hp Ho HA0 Hlen Ht HA HB] k. pose proof Hp as (HpA & _ & _)%places_ok_app.
  destruct (dole_ok n A num (fst b - min) 0 HpA Hlen) as (num' & -> & H1 & H2 & H3 & H4); [lia|].
  assert (∀ c, c ∈ b :: B → got num' c = 0) as HB0.
  { intros c Hc. rewrite (got_other n A (b :: B) num num' c Hp Hc H4). by apply HB. }
  destruct (split_level (fst b) (b :: B) Ho) as (l1 & l2 & HBeq & Hl1 & Hl2 & Hne).
  { apply Sorted.StronglySorted_inv in Ho as [_ Hb]. constructor; [lia|done]. }
  specialize (Hne b eq_refl eq_refl). exists num', (A ++ l1), l2. rewrite <- app_assoc, <- HBeq.
  destruct (HB b ltac:(by left)) as [Hmin _]. split_and!; [done|done| |].
  - split.
    + by rewrite <- app_assoc, <- HBeq.
    + rewrite HBeq in Ho. by apply ordered_app in Ho as (_ & ? & _).
    + by destruct A.
    + done.
    + rewrite H2, Ht. unfold k. lia.
    + intros c [Hc|Hc]%elem_of_app.
      * destruct (HA c Hc) as [G1 G2]. destruct (H3 c Hc) as [H|[H _]]; lia.
      * rewrite (Hl1 c Hc), HB0; [lia|]. rewrite HBeq. apply elem_of_app. by left.
    + intros c Hc. split; [by apply Hl2|]. apply HB0. rewrite HBeq. apply elem_of_app. by right.
  - apply (f_equal length) in HBeq. rewrite length_app in HBeq. destruct l1; [done|]. cbn in HBeq. lia.
Qed.

Lemma dole_loop_ok n A B num min doled left fuel :
  levelled n A B num min doled → doled ≤ left → (length B < fuel)%nat →
  ∃ num', dole_loop (A ++ B) num min left doled fuel = Ret num' ∧
    length num' = n ∧ total num' = left ∧ fair (A ++ B) num'.
Proof.
  revert A B num min doled. induction fuel as [|fuel IH]; intros A B num min doled Hlv Hle Hf; [lia|].
  cbn [dole_loop]. destruct (doled <? left) eqn:Hlt; cbn [negb].
  2:{ apply Z.ltb_ge in Hlt. assert (doled = left) as -> by lia. exists num. split_and!; [done|apply Hlv|apply Hlv|].
      by eapply levelled_fair. }
  apply Z.ltb_lt in Hlt. rewrite (same_cue_ok n A B num min doled Hlv). cbn [mbind res_bind].
  assert (A ≠ []) as HA by apply Hlv. rewrite Nat2Z.id, take_app_length.
  replace (Z.of_nat (length A) =? 0) with false by (symmetry; apply Z.eqb_neq; destruct A; [done|cbn; lia]).
  destruct (_ || _) eqn:Hc.
  - apply (last_round n A B num min doled left Hlv Hlt). intros b Hb.
    apply orb_true_iff in Hc as [Hc|Hc].
    + apply Z.eqb_eq in Hc. rewrite length_app in Hc. destruct B; [done|cbn in Hc; lia].
    + apply Z.ltb_lt in Hc. rewrite Hb in Hc. exact Hc.
  - apply orb_false_iff in Hc as [Hc1 Hc2]. apply Z.eqb_neq in Hc1. apply Z.ltb_ge in Hc2.
    destruct B as [|b B]; [rewrite app_nil_r in Hc1; done|]. change (default 0 (fst <$> head (b :: B))) with (fst b) in *.
    destruct (fill_round n A b B num min doled Hlv) as (num' & A' & B' & -> & Heq & Hlv' & Hlen).
    cbn [mbind res_bind]. rewrite Heq. apply IH; [exact Hlv'|lia|cbn in Hf; lia].
Qed.

(** ** The whole *)

Lemma zip_places counts :
  let cells := zip counts (Z.of_nat <$> seq 1 (length counts)) in
  places_ok (length counts) cells ∧
  ∀ i x, counts !! i = Some x → (x, Z.of_nat (S i)) ∈ cells.
Proof.
  set (n := length counts). set (ps := Z.of_nat <$> seq 1 n).
  assert (length ps = n) as Hlen by (unfold ps; by rewrite length_fmap, length_seq).
  cbn. split; [split|].
  - rewrite snd_zip by lia. unfold ps. apply NoDup_fmap_2; [apply _|apply NoDup_seq].
  - apply Forall_forall. intros [x p] Hc%list_elem_of_In. apply elem_of_zip_r in Hc.
    unfold ps in Hc. apply list_elem_of_fmap in Hc as (k & -> & Hk). apply elem_of_seq in Hk. cbn. lia.
  - intros i x Hx. apply list_elem_of_lookup. exists i. apply lookup_zip_with_Some.
    exists x, (Z.of_nat (S i)). split_and!; [done|done|]. unfold ps. rewrite list_lookup_fmap, lookup_seq_lt; [done|].
    by apply lookup_lt_Some in Hx.
Qed.

Lemma equal_cue_ok counts left :
  counts ≠ [] → 0 ≤ left →
  ∃ num, equal_cue counts left = Ret num ∧ length num = length counts ∧ total num = left ∧
    Forall (λ x, 0 ≤ x) num ∧
    ∀ i j ci cj ni nj, counts !! i = Some ci → counts !! j = Some cj → num !! i = Some ni → num !! j = Some nj →
      0 < ni → ci + ni ≤ cj + nj + 1.
Proof.
  intros Hne Hle. unfold equal_cue. destruct (zip_places counts) as [Hp Hin]. set (cells0 := zip _ _) in *.
  destruct (shellSort_ok cells0) as (cells & -> & Hperm & Ho). cbn [mbind res_bind].
  assert (cells ≠ []) as Hc0.
  { intros ->. apply Permutation_nil_l in Hperm. destruct counts; [done|]. unfold cells0 in Hperm. done. }
  destruct cells as [|c cells]; [done|]. cbn [head of_option mbind res_bind].
  set (n := length counts) in *. set (num0 := replicate n 0).
  assert (∀ d, d ∈ c :: cells → got num0 d = 0) as Hz.
  { intros d _. unfold got, num0. destruct (replicate n 0 !! _) eqn:E; [|done].
    apply lookup_replicate_1 in E as [-> _]. done. }
  assert (Forall (λ d : cell, fst c ≤ fst d) (c :: cells)) as Hmin.
  { apply Sorted.StronglySorted_inv in Ho as [_ Hb]. constructor; [lia|done]. }
  destruct (split_level (fst c) (c :: cells) Ho Hmin) as (A & B & Heq & HA & HB & Hne').
  specialize (Hne' c eq_refl eq_refl). rewrite Heq in *.
  assert (levelled n A B num0 (fst c) 0) as Hlv.
  { split.
    - destruct Hp as [Hp1 Hp2]. split; [by rewrite Hperm|by rewrite Hperm].
    - by apply ordered_app in Ho as (_ & ? & _).
    - done.
    - apply length_replicate.
    - apply total_replicate.
    - intros d Hd. rewrite (HA d Hd), Hz; [lia|]. apply elem_of_app. by left.
    - intros d Hd. split; [by apply HB|]. apply Hz, elem_of_app. by right. }
  assert (length B < n)%nat as HBn.
  { apply Permutation_length in Hperm. unfold cells0 in Hperm.
    rewrite length_app, length_zip_with, length_fmap, length_seq in Hperm. destruct A; [done|]. cbn in Hperm. unfold n. lia. }
  destruct (dole_loop_ok n A B num0 (fst c) 0 left n Hlv Hle HBn) as (num & -> & H1 & H2 & [H3 H4]).
  assert (∀ i x, num !! i = Some x → ∃ y, counts !! i = Some y ∧ (y, Z.of_nat (S i)) ∈ A ++ B ∧ got num (y, Z.of_nat (S i)) = x) as Hcell.
  { intros i x Hx. destruct (lookup_lt_is_Some_2 counts i) as [y Hy]; [fold n; rewrite <- H1; by eapply lookup_lt_Some|].
    exists y. split_and!; [done|rewrite Hperm; by apply Hin|]. unfold got. cbn [snd].
    replace (Z.to_nat (Z.of_nat (S i) - 1)) with i by lia. by rewrite Hx. }
  exists num. split_and!; [done|done|done| |].
  - apply Forall_lookup. intros i x Hx. destruct (Hcell i x Hx) as (y & _ & Hy & <-). by apply H3.
  - intros i j ci cj ni nj Hci Hcj Hni Hnj Hpos. destruct (Hcell i ni Hni) as (y & Hy & Hyin & Hyg).
    destruct (Hcell j nj Hnj) as (z & Hz' & Hzin & Hzg). assert (y = ci) as -> by congruence.
    assert (z = cj) as -> by congruence. specialize (H4 _ _ Hyin Hzin). cbn [fst] in H4. lia.
Qed.

(** C19: sharing by cue ends: the sort comes to its last pass, with the input lists in the
    order of their lengths, and no more rounds than there are stations are needed.  All the
    events are given away, none of the numbers is negative, and a station that gets events
    has at the end at most one more than any other. *)
Theorem sharing_ends counts left :
  counts ≠ [] → 0 ≤ left →
  (∃ cells, shellSort (zip counts (Z.of_nat <$> seq 1 (length counts))) = Ret cells ∧
     cells ≡ₚ zip counts (Z.of_nat <$> seq 1 (length counts)) ∧ ordered cells) ∧
  ∃ num, equal_cue counts left = Ret num ∧ length num = length counts ∧ total num = left ∧ Forall (λ x, 0 ≤ x) num ∧
    ∀ i j ci cj ni nj, counts !! i = Some ci → counts !! j = Some cj → num !! i = Some ni → num !! j = Some nj →
      0 < ni → ci + ni ≤ cj + nj + 1.
Proof. intros Hne Hle. split; [apply shellSort_ok|by apply equal_cue_ok]. Qed.

Lemma sharing_ends_witness :
  equal_cue [3; 0; 8; 1; 0] 10 = Ret [0; 4; 0; 2; 4] ∧
  ∃ num, equal_cue [3; 0; 8; 1; 0] 10 = Ret num ∧ length num = 5%nat ∧ total num = 10 ∧ Forall (λ x, 0 ≤ x) num.
Proof.
  split; [vm_compute; reflexivity|].
  destruct (sharing_ends [3; 0; 8; 1; 0] 10) as [_ (num & H1 & H2 & H3 & H4 & _)]; [done|lia|]. by exists num.
Defined.
