(* ===== verification/EtConductor.v ===== *)
(** * The conductor of a station (et-16.1/src/libsrc/et_system.c, lines 1596-2312 and 2447-2465)

    A thread per station takes all events of the output list of its station and puts them
    into the input lists of the stations that follow, the last of which is GrandCentral.
    The other threads and processes work on the lists between any two moments at which the
    conductor gets the mutex of a list: [env k] is what they do before the [k]th one.  The
    events written are also kept in a history, [k_log]. *)

From S2P Require Import Prelude Words EtTypes EtLists EtShellSort EtEqualCue.

(** ** Selecting events *)

(** [et_condition]: words of [select] with even index are compared, others are masks. *)
Fixpoint condition (i : nat) (select control : list Z) : bool :=
  match select, control with
  | s :: select, c :: control =>
      (negb (s =? -1) && (if Nat.even i then s =? c else negb (Z.land s c =? 0)))
      || condition (S i) select control
  | _, _ => false
  end.

Definition et_condition (s : et_station) (e : et_event) : bool :=
  condition 0 (take 6 (c_select (s_config s))) (e_control e).

(** The loops over the array of all events, [all], skip those that were put ([put]); they
    give the array of events to put, the new marks and the count of tries. *)
Fixpoint select_blocking (sel : nat → bool) (prescale try : Z) (all : list nat) (put : list bool)
  : list nat * list bool * Z :=
  match all, put with
  | x :: all, b :: put =>
      if b || negb (sel x) then
        let '(l, p, t) := select_blocking sel prescale try all put in (l, b :: p, t)
      else
        let '(l, p, t) := select_blocking sel prescale (u64 (try + 1)) all put in
        if try mod prescale =? 0 then (x :: l, true :: p, t) else (l, false :: p, t)
  | _, _ => ([], put, try)
  end.

(** At most [j] events. *)
Fixpoint select_nonblocking (sel : nat → bool) (j : Z) (all : list nat) (put : list bool)
  : list nat * list bool :=
  match all, put with
  | x :: all, b :: put =>
      if b || negb (sel x) then
        let '(l, p) := select_nonblocking sel j all put in (l, b :: p)
      else if j - 1 =? 0 then ([x], true :: put)
      else let '(l, p) := select_nonblocking sel (j - 1) all put in (x :: l, true :: p)
  | _, _ => ([], put)
  end.

(** The events that were not put, and the same for the first [n] of them (lines 2272-2281). *)
Fixpoint unput (all : list nat) (put : list bool) : list nat :=
  match all, put with
  | x :: all, b :: put => if b : bool then unput all put else x :: unput all put
  | _, _ => []
  end.

(** ** Round robin *)

(** Lines 2006-2021: [num + 1] events for the first [extra] stations. *)
Fixpoint deal_counts (num extra : Z) (n : nat) : list Z :=
  match n with
  | O => []
  | S n => (if 0 <? extra then num + 1 else num) :: deal_counts num (extra - 1) n
  end.

(** Lines 2024-2030: [cnt] events, from the index [i] on every [n]th. *)
Fixpoint every (all : list nat) (i n : nat) (cnt : nat) : res (list nat) :=
  match cnt with
  | O => Ret []
  | S cnt => x ← of_option (all !! i); l ← every all (i + n) n cnt; Ret (x :: l)
  end.

(** Lines 2031-2050: the same among the events that were not put, [skip] being the number
    of them to pass; the arrays are given from the index [i] on. *)
Fixpoint every_unput (all : list nat) (put : list bool) (skip n cnt : Z) : list nat :=
  match all, put with
  | x :: all, b :: put =>
      if b then every_unput all put skip n cnt
      else if 0 <? skip then every_unput all put (skip - 1) n cnt
      else if cnt - 1 =? 0 then [x]
      else x :: every_unput all put (n - 1) n (cnt - 1)
  | _, _ => []
  end.

(** Lines 2006-2051: the array [putevents], from the station [i] on. *)
Fixpoint deal_events (first : bool) (all : list nat) (put : list bool) (i n : nat) (counts : list Z)
  : res (list nat) :=
  match counts with
  | [] => Ret []
  | c :: counts =>
      l ← (if first then every all i n (Z.to_nat c)
           else Ret (every_unput (drop i all) (drop i put) 0 (Z.of_nat n) c));
      r ← deal_events first all put (S i) n counts;
      Ret (l ++ r)
  end.

(** ** The state of the conductor *)

Record conduct := mkConduct {
  k_sys : et_system; k_tick : nat; k_left : Z; k_put : list bool; k_first : bool;
  k_log : list (nat * list nat)
}.
#[export] Instance eta_conduct : Eta conduct := λ k, mkConduct
  (k_sys k) (k_tick k) (k_left k) (k_put k) (k_first k) (k_log k).

Definition station (y : et_system) (i : nat) : res et_station := of_option (y_stats y !! i).
Definition set_station (y : et_system) (i : nat) (f : et_station → et_station) : et_system :=
  y <| y_stats ::= alter f i |>.

(** ** Walking along the stations *)

Fixpoint group_head (stats : list et_station) (i : nat) (fuel : nat) : res nat :=
  match fuel with
  | O => NoFuel
  | S fuel =>
      s ← of_option (stats !! i);
      if -1 <? s_prevparallel s then group_head stats (Z.to_nat (s_prevparallel s)) fuel else Ret i
  end.

(** The station after [i] in the main list. *)
Definition next_station (stats : list et_station) (i : nat) : res nat :=
  s ← of_option (stats !! i);
  Ret (if s_next s <? 0 then ET_GRANDCENTRAL else Z.to_nat (s_next s)).

(** Lines 1640-1668. *)
Definition first_station (stats : list et_station) (me : nat) : res nat :=
  s ← of_option (stats !! me);
  if c_flow_mode (s_config s) =? ET_STATION_PARALLEL then
    h ← group_head stats me (S (length stats)); next_station stats h
  else next_station stats me.

(** The parallel stations from [i] on. *)
Fixpoint parallels (stats : list et_station) (i : nat) (fuel : nat) : res (list nat) :=
  match fuel with
  | O => NoFuel
  | S fuel =>
      s ← of_option (stats !! i);
      if s_nextparallel s <? 0 then Ret [i]
      else l ← parallels stats (Z.to_nat (s_nextparallel s)) fuel; Ret (i :: l)
  end.

Definition is_active (y : et_system) (i : nat) : bool :=
  match y_stats y !! i with Some s => s_status s =? ET_STATION_ACTIVE | None => false end.

(** ** Distributing events *)

Section Conduct.
  (** What other threads do, and the selection functions that users write. *)
  Context (env : nat → et_system → et_system) (user_select : nat → et_event → bool).
  (** The events that were taken from the output list. *)
  Context (all : list nat).

(** The call of [ps->data.func] on the event [x]. *)
Definition selects (y : et_system) (s : et_station) (i x : nat) : bool :=
  match y_events y !! x with
  | Some e => if c_select_mode (s_config s) =? ET_STATION_SELECT_USER then user_select i e else et_condition s e
  | None => false
  end.

(** The other threads run, then the conductor has the mutex of the input list of [i]. *)
Definition interfere (k : conduct) : conduct :=
  k <| k_sys := env (k_tick k) (k_sys k) |> <| k_tick ::= S |>.
Definition lock_input (k : conduct) (i : nat) : res (conduct * et_station) :=
  let k := interfere k in
  s ← station (k_sys k) i;
  pl ← et_llist_lock (s_in s);
  Ret (k <| k_sys ::= λ y, set_station y i (λ s, s <| s_in := pl |>) |>, s <| s_in := pl |>).
Definition set_input (k : conduct) (i : nat) (pl : et_list) : conduct :=
  k <| k_sys ::= λ y, set_station y i (λ s, s <| s_in := pl |>) |>.

(** The list [pl] of the station, locked, gets the events [pe]; whether all were written. *)
Definition write_input (k : conduct) (i : nat) (pl : et_list) (pe : list nat) (events_left : Z)
  : res (bool * conduct) :=
  '(n, m, pl) ← et_llist_write (y_nevents (k_sys k)) (y_events (k_sys k)) pl pe;
  let k := set_input k i (et_llist_unlock pl) in
  Ret (negb (n =? ET_ERROR) && (Z.of_nat (length pe) <=? n),
       k <| k_sys ::= λ y, y <| y_events := m |> |> <| k_left := events_left |> <| k_log ::= λ l, l ++ [(i, pe)] |>).

(** Lines 1731-1756 and 1860-1888: GrandCentral gets all that is left. *)
Definition put_grandcentral (k : conduct) : res (bool * conduct) :=
  let pe := if k_first k then all else unput all (k_put k) in
  match pe with
  | [] => Ret (true, k)
  | _ =>
      let temps := filter (λ x, (e_temp <$> y_events (k_sys k) !! x) = Some ET_EVENT_TEMP) pe in
      let k := k <| k_sys ::= λ y, y <| y_ntemps ::= λ n, n - Z.of_nat (length temps) |> |> in
      '(k, s) ← lock_input k ET_GRANDCENTRAL;
      '(status, m, pl) ← et_llist_write_gc (y_nevents (k_sys k)) (y_events (k_sys k)) (s_in s) pe;
      let k := set_input k ET_GRANDCENTRAL (et_llist_unlock pl) <| k_sys ::= λ y, y <| y_events := m |> |> in
      if status =? ET_ERROR then Ret (false, k)
      else Ret (true, k <| k_left := 0 |> <| k_log ::= λ l, l ++ [(ET_GRANDCENTRAL, pe)] |>)
  end.

(** Lines 1722-1919: the station [i] gets the events it selects; [false] is the jump to
    [error]. *)
Definition put_station (k : conduct) (i : nat) : res (bool * conduct) :=
  if (i =? ET_GRANDCENTRAL)%nat then put_grandcentral k else
  '(k, s) ← lock_input k i;
  let c := s_config s in
  let pl := s_in s in
  let everything := c_select_mode c =? ET_STATION_SELECT_ALL in
  let sel := if everything then λ _, true else selects (k_sys k) s i in
  let total := Z.of_nat (length all) in
  if everything && (c_block_mode c =? ET_STATION_BLOCKING) && k_first k && (c_prescale c =? 1) then
    write_input k i (pl <| li_events_try ::= λ x, u64 (x + total) |>) all 0
  else
    if (c_block_mode c =? ET_STATION_BLOCKING) && (c_prescale c =? 0) then Undef else
    let '(pe, put, try) :=
      if c_block_mode c =? ET_STATION_BLOCKING then
        select_blocking sel (c_prescale c) (li_events_try pl) all (k_put k)
      else if li_cnt pl <? c_cue c then
        let '(pe, put) := select_nonblocking sel (c_cue c - li_cnt pl) all (k_put k) in
        (pe, put, li_events_try pl)
      else ([], k_put k, li_events_try pl) in
    let k := k <| k_put := put |> in
    let pl := pl <| li_events_try := try |> in
    match pe with
    | [] => Ret (true, set_input k i (et_llist_unlock pl))
    | _ => write_input k i pl pe (k_left k - Z.of_nat (length pe))
    end.

(** The loop over active parallel stations; for a station that is not parallel it is done
    once. *)
Fixpoint put_stations (k : conduct) (l : list nat) : res (bool * conduct) :=
  match l with
  | [] => Ret (true, k)
  | i :: l =>
      '(ok, k) ← put_station k i;
      if negb ok then Ret (false, k) else
      match l with
      | [] => Ret (true, k)
      | _ => let k := k <| k_first := false |> in if 0 <? k_left k then put_stations k l else Ret (true, k)
      end
  end.

(** Lines 1956-1995: the active station after the last one that got an event, which is no
    longer marked; [looking] is [startLooking]. *)
Fixpoint find_start (y : et_system) (l : list nat) (looking : bool) (start : option nat)
  : et_system * option nat :=
  match l with
  | [] => (y, start)
  | i :: l =>
      let '(looking, start) := if is_active y i && looking then (false, Some i) else (looking, start) in
      match y_stats y !! i with
      | Some s =>
          if s_waslast s =? 1 then find_start (set_station y i (λ s, s <| s_waslast := 0 |>)) l true start
          else find_start y l looking start
      | None => find_start y l looking start
      end
  end.

(** The stations from [start] on, then those before it. *)
Fixpoint rotate (start : nat) (before l : list nat) : list nat :=
  match l with
  | [] => before
  | i :: l' => if (i =? start)%nat then l ++ before else rotate start (before ++ [i]) l'
  end.

(** Lines 2056-2110: [c] is [count], and [pes] the rest of [putevents]. *)
Fixpoint deal (k : conduct) (l : list nat) (counts : list Z) (c last : Z) (pes : list nat)
  : res (bool * conduct) :=
  match l, counts with
  | i :: l, n :: counts =>
      let k := if c =? last then k <| k_sys ::= λ y, set_station y i (λ s, s <| s_waslast := 1 |>) |> else k in
      if 0 <? n then
        '(k, s) ← lock_input k i;
        let pe := take (Z.to_nat n) pes in
        '(ok, k) ← write_input k i (s_in s <| li_events_try ::= λ x, u64 (x + n) |>) pe (k_left k - n);
        if negb ok then Ret (false, k) else deal k l counts (c + 1) last (drop (Z.to_nat n) pes)
      else deal k l counts (c + 1) last pes
  | _, _ => Ret (true, k)
  end.

Definition round_robin (k : conduct) (group actives : list nat) : res (bool * conduct) :=
  let n := length actives in
  let '(y, start) := find_start (k_sys k) group false None in
  let k := k <| k_sys := y |> in
  start ← of_option (match start with Some i => Some i | None => head actives end);
  let num := k_left k / Z.of_nat n in
  let extra := k_left k mod Z.of_nat n in
  let counts := deal_counts num extra n in
  let last := if extra =? 0 then Z.of_nat n - 1 else extra - 1 in
  pes ← deal_events (k_first k) all (k_put k) 0 n counts;
  deal k (rotate start [] actives) counts 0 last pes.

(** Lines 2210-2283: [already] is [eventsAlreadyPut]. *)
Fixpoint share (k : conduct) (l : list nat) (counts : list Z) (already : nat) : res (bool * conduct) :=
  match l, counts with
  | i :: l, n :: counts =>
      if n <? 1 then share k l counts already else
      let '(pe, k) :=
        if k_first k then (take (Z.to_nat n) (drop already all), k)
        else let '(pe, put) := select_nonblocking (λ _, true) n all (k_put k) in (pe, k <| k_put := put |>) in
      '(k, s) ← lock_input k i;
      '(ok, k) ← write_input k i (s_in s <| li_events_try ::= λ x, u64 (x + n) |>) pe (k_left k - n);
      if negb ok then Ret (false, k) else share k l counts (already + Z.to_nat n)
  | _, _ => Ret (true, k)
  end.

(** The counts of the input lists are read without the mutexes. *)
Definition equal_cues (k : conduct) (actives : list nat) : res (bool * conduct) :=
  counts ← mapM (λ i, s ← station (k_sys k) i; Ret (li_cnt (s_in s))) actives;
  nums ← equal_cue counts (k_left k);
  share k actives nums 0.

(** Lines 1672-2287: what the station [ps] of the main list, or the group that it heads, gets. *)
Definition visit (k : conduct) (ps : nat) : res (bool * conduct) :=
  let k := interfere k in
  let y := k_sys k in
  s ← station y ps;
  group ← (if c_flow_mode (s_config s) =? ET_STATION_PARALLEL
           then parallels (y_stats y) ps (S (length (y_stats y))) else Ret []);
  let actives := filter (λ i, is_active y i = true) group in
  let parallelIsActive := negb (bool_decide (actives = [])) in
  let mode := c_select_mode (s_config s) in
  let rrobin_equalcue :=
    parallelIsActive && ((mode =? ET_STATION_SELECT_RROBIN) || (mode =? ET_STATION_SELECT_EQUALCUE)) in
  if rrobin_equalcue then
    if mode =? ET_STATION_SELECT_RROBIN then round_robin k group actives else equal_cues k actives
  else if parallelIsActive then put_stations k actives
  else if s_status s =? ET_STATION_ACTIVE then put_stations k [ps]
  else Ret (true, k).

(** Lines 1670-2305: the loop over the stations of the main list, at most [fuel] of them. *)
Fixpoint distribute (k : conduct) (ps : nat) (fuel : nat) : res (bool * conduct) :=
  if negb (0 <? k_left k) then Ret (true, k) else
  match fuel with
  | O => NoFuel
  | S fuel =>
      '(ok, k) ← visit k ps;
      if negb ok then Ret (false, k) else
      if (ps =? ET_GRANDCENTRAL)%nat then Ret (true, k) else
      ps ← next_station (y_stats (k_sys k)) ps;
      distribute (k <| k_first := false |>) ps fuel
  end.

End Conduct.

(** Lines 1596-2312: one turn of the thread of the station [me], whose output list is not
    empty; the system and the history of what was written where. *)
Definition et_conductor (env : nat → et_system → et_system) (user_select : nat → et_event → bool)
    (y : et_system) (me : nat) : res (bool * et_system * list (nat * list nat)) :=
  s ← station y me;
  pl ← et_llist_lock (s_out s);
  '(total, all, pl) ← et_llist_read (y_events y) pl;
  let y := set_station y me (λ s, s <| s_out := et_llist_unlock pl |>) in
  if total <? 0 then Ret (false, y, []) else
  ps ← first_station (y_stats y) me;
  '(ok, k) ← distribute env user_select all (mkConduct y 0 total (replicate (length all) false) true []) ps
               (S (length (y_stats y)));
  Ret (ok, k_sys k, k_log k).
