(* ===== verification/EtRoundRobin.v ===== *)
(** * Sharing events between stations by turns

    When all events go to the stations of a group that take turns, the rearranged array has
    each of them once. *)

From S2P Require Import Prelude Words EtTypes EtLists EtEqualCue EtConductor.

(** ** How many events for each *)

Lemma deal_counts_none num a b n : a ≤ 0 → b ≤ 0 → deal_counts num a n = deal_counts num b n.
Proof.
  revert a b. induction n as [|n IH]; intros a b Ha Hb; [done|]. cbn.
  replace (0 <? a) with false by (symmetry; apply Z.ltb_ge; lia).
  replace (0 <? b) with false by (symmetry; apply Z.ltb_ge; lia). f_equal. apply IH; lia.
Qed.

Lemma deal_counts_ok num extra n :
  0 ≤ num → 0 ≤ extra ≤ Z.of_nat n →
  length (deal_counts num extra n) = n ∧ Forall (λ x, 0 ≤ x) (deal_counts num extra n) ∧
  total (deal_counts num extra n) = num * Z.of_nat n + extra.
Proof.
  revert extra. induction n as [|n IH]; intros extra Hn He; [cbn; split_and!; [done|constructor|lia]|].
  cbn [deal_counts length total]. destruct (0 <? extra) eqn:E.
  - apply Z.ltb_lt in E. destruct (IH (extra - 1)) as (H1 & H2 & H3); [lia..|].
    split_and!; [by rewrite H1|constructor; [lia|done]|lia].
  - apply Z.ltb_ge in E. assert (extra = 0) as -> by lia.
    rewrite (deal_counts_none num (0 - 1) 0) by lia.
    destruct (IH 0) as (H1 & H2 & H3); [lia..|]. split_and!; [by rewrite H1|by constructor|lia].
Qed.

Lemma deal_counts_lookup num extra n a :
  (a < n)%nat → deal_counts num extra n !! a = Some (if Z.of_nat a <? extra then num + 1 else num).
Proof.
  revert extra a. induction n as [|n IH]; intros extra [|a] Ha; [lia..|done|]. cbn. rewrite IH by lia.
  replace (Z.of_nat (S a) <? extra) with (Z.of_nat a <? extra - 1); [done|].
  apply eq_true_iff_eq. rewrite !Z.ltb_lt. lia.
Qed.

(** ** Which events *)

Definition column (i n cnt : nat) : list nat := (λ k, i + k * n)%nat <$> seq 0 cnt.

Fixpoint columns (i n : nat) (counts : list Z) : list nat :=
  match counts with
  | [] => []
  | c :: counts => column i n (Z.to_nat c) ++ columns (S i) n counts
  end.

Lemma elem_of_columns i n counts j :
  j ∈ columns i n counts ↔
  ∃ a c k, counts !! a = Some c ∧ (k < Z.to_nat c)%nat ∧ j = (i + a + k * n)%nat.
Proof.
  revert i. induction counts as [|c counts IH]; intros i; cbn [columns].
  { split; [by intros Hj%elem_of_nil|]. by intros (a & c & k & Ha & _). }
  rewrite elem_of_app, IH. unfold column. rewrite list_elem_of_fmap. split.
  - intros [(k & -> & Hk)|(a & c' & k & Ha & Hk & ->)].
    + apply elem_of_seq in Hk. exists O, c, k. split_and!; [done|lia|lia].
    + exists (S a), c', k. split_and!; [done|done|lia].
  - intros ([|a] & c' & k & Ha & Hk & ->).
    + injection Ha as ->. left. exists k. split; [lia|]. apply elem_of_seq. lia.
    + right. exists a, c', k. split_and!; [done|done|lia].
Qed.

Lemma columns_nodup i n counts : (i + length counts ≤ n)%nat → NoDup (columns i n counts).
Proof.
  revert i. induction counts as [|c counts IH]; intros i Hn; [constructor|]. cbn [columns length] in *.
  apply list.NoDup_app. split_and!; [| |apply IH; lia].
  - unfold column. apply NoDup_fmap_2_strong; [|apply NoDup_seq]. intros x y _ _ E.
    apply (Nat.mul_cancel_r _ _ n); lia.
  - intros j Hj Hj'. apply elem_of_columns in Hj' as (a & c' & k & Ha & _ & ->). apply lookup_lt_Some in Ha.
    unfold column in Hj. apply list_elem_of_fmap in Hj as (k' & E & _).
    assert ((S i + a) mod n = i mod n)%nat as H.
    { rewrite <- (Nat.Div0.mod_add (S i + a) k n), <- (Nat.Div0.mod_add i k' n). by rewrite E. }
    rewrite !Nat.mod_small in H by lia. lia.
Qed.

Lemma every_ok all i n cnt :
  (∀ k, (k < cnt)%nat → (i + k * n < length all)%nat) →
  every all i n cnt = Ret ((λ j, all !!! j) <$> column i n cnt).
Proof.
  revert i. induction cnt as [|cnt IH]; intros i Hk; [done|]. cbn [every].
  destruct (lookup_lt_is_Some_2 all i) as [x Hx]; [specialize (Hk O ltac:(lia)); lia|].
  rewrite Hx. cbn [of_option mbind res_bind]. rewrite IH.
  2:{ intros k Hlt. specialize (Hk (S k) ltac:(lia)). lia. }
  cbn [mbind res_bind]. unfold column. rewrite <- (cons_seq cnt 0), fmap_cons, fmap_cons. f_equal. f_equal.
  - rewrite Nat.add_0_r. by rewrite list_lookup_total_alt, Hx.
  - rewrite <- fmap_S_seq, <- !list_fmap_compose. apply list_fmap_ext. intros j k _. cbn. f_equal. lia.
Qed.

Lemma deal_events_columns all put i n counts :
  (∀ j, j ∈ columns i n counts → (j < length all)%nat) →
  deal_events true all put i n counts = Ret ((λ j, all !!! j) <$> columns i n counts).
Proof.
  revert i. induction counts as [|c counts IH]; intros i Hj; [done|]. cbn [deal_events columns] in *.
  rewrite every_ok.
  - cbn [mbind res_bind]. rewrite IH by (intros j Hin; apply Hj, elem_of_app; by right). cbn [mbind res_bind].
    by rewrite fmap_app.
  - intros k Hk. apply Hj, elem_of_app. left. unfold column. apply list_elem_of_fmap. exists k.
    split; [done|]. apply elem_of_seq. lia.
Qed.

Lemma lookup_total_seq (all : list nat) : (λ j, all !!! j) <$> seq 0 (length all) = all.
Proof.
  apply list_eq. intros i. rewrite list_lookup_fmap. destruct (decide (i < length all)%nat) as [H|H].
  - rewrite lookup_seq_lt by done. cbn. destruct (lookup_lt_is_Some_2 all i H) as [x Hx].
    by rewrite list_lookup_total_alt, Hx.
  - rewrite lookup_seq_ge by lia. cbn. symmetry. apply lookup_ge_None. lia.
Qed.

Lemma deal_events_perm all put n :
  (0 < n)%nat →
  let counts := deal_counts (Z.of_nat (length all / n)) (Z.of_nat (length all mod n)) n in
  ∃ pes, deal_events true all put 0 n counts = Ret pes ∧ pes ≡ₚ all.
Proof.
  intros Hn counts. set (L := length all) in *.
  assert (columns 0 n counts ≡ₚ seq 0 L) as Hp.
  { pose proof (Nat.div_mod_eq L n) as Hd. pose proof (Nat.mod_upper_bound L n ltac:(lia)) as Hm.
    destruct (deal_counts_ok (Z.of_nat (L / n)) (Z.of_nat (L mod n)) n) as (Hlen & _); [lia..|].
    apply NoDup_Permutation; [apply columns_nodup; unfold counts; rewrite Hlen; lia|apply NoDup_seq|].
    intros j. rewrite elem_of_columns, elem_of_seq. split.
    - intros (a & c & k & Ha & Hk & ->). pose proof (lookup_lt_Some _ _ _ Ha) as Hlt. unfold counts in Ha, Hlt.
      rewrite Hlen in Hlt. rewrite deal_counts_lookup in Ha by done. injection Ha as <-.
      split; [lia|]. destruct (_ <? _) eqn:E.
      + apply Z.ltb_lt in E. assert (k ≤ L / n)%nat by lia. nia.
      + apply Z.ltb_ge in E. assert (S k ≤ L / n)%nat by lia. nia.
    - intros [_ Hj]. pose proof (Nat.div_mod_eq j n) as Hdj. pose proof (Nat.mod_upper_bound j n ltac:(lia)) as Hmj.
      eexists (j mod n)%nat, _, (j / n)%nat. split; [by apply deal_counts_lookup|]. split; [|lia].
      assert (j / n ≤ L / n)%nat by (apply Nat.Div0.div_le_mono; lia).
      destruct (_ <? _) eqn:E; [lia|]. apply Z.ltb_ge in E. assert (j / n ≠ L / n)%nat; [|lia]. intros E'. rewrite E' in Hdj. lia. }
  eexists. split.
  - apply deal_events_columns. intros j Hj. rewrite Hp in Hj. apply elem_of_seq in Hj. lia.
  - rewrite Hp. unfold L. by rewrite lookup_total_seq.
Qed.

(** ** Whose turn it is *)

Lemma rotate_perm start before l :
  start ∈ l → rotate start before l ≡ₚ before ++ l.
Proof.
  revert before. induction l as [|i l IH]; intros before Hin; [by apply elem_of_nil in Hin|]. cbn [rotate].
  destruct (i =? start)%nat eqn:E; [apply Permutation_app_comm|].
  apply Nat.eqb_neq in E. apply elem_of_cons in Hin as [->|Hin]; [done|]. rewrite IH by done. by rewrite <- app_assoc.
Qed.
