(* ===== verification/EtSystemInv.v ===== *)
(** * The lists of a system, and events in flight

    [wf y Q F]: the lists of the stations of [y], first the input lists and then the output
    lists, stand for the sequences [Q]; none of them is locked, those of output are
    sorted, and the events [F], which a conductor holds, are in none of them.  The
    events that are in a list or in flight are those that the system owns: each of the
    others belongs to the attachment that took it. *)

From S2P Require Import Prelude Words EtTypes EtLists EtSegments EtListSpec EtStationSpec EtConductor.

Definition lists (y : et_system) : list et_list := (s_in <$> y_stats y) ++ (s_out <$> y_stats y).
(** The places of the lists of the station [i]. *)
Notation out_place y i := (length (y_stats y) + i)%nat.

(** The order of an output list. *)
Definition in_order (m : evs) (pl : et_list) (q : list nat) : Prop :=
  sorted m q ∧ li_lasthigh pl = Z.of_nat (length (high_prefix m q)).

Record wf (y : et_system) (Q : list (list nat)) (F : list nat) : Prop := Wf {
  wf_lists : Forall2 (λ pl q, in_list (y_events y) pl q ∧ li_lock pl = false) (lists y) Q;
  wf_outs k pl q : (length (y_stats y) ≤ k)%nat → lists y !! k = Some pl → Q !! k = Some q →
    in_order (y_events y) pl q;
  wf_nodup : NoDup (concat Q ++ F);
  wf_known : known (y_events y) F;
  wf_prios : prios_ok (y_events y);
  wf_places : 0 ≤ y_nevents y ∧ dom (y_events y) ⊆ (set_seq 0 (Z.to_nat (y_nevents y)) : gset nat);
  wf_owner x e : y_events y !! x = Some e → x ∈ concat Q ++ F ↔ e_owner e = ET_SYS;
  wf_owners x e : y_events y !! x = Some e → e_owner e ≠ ET_SYS → 0 ≤ e_owner e < Z.of_nat (length (y_attach y));
  wf_histogram : Z.of_nat (length (y_histogram y)) = y_nevents y + 1
}.

(** The number, status and station of each attachment; the number is -1 when it is not used. *)
Definition seats (y : et_system) : list (Z * Z * Z) := (λ a, (at_num a, at_status a, at_stat a)) <$> y_attach y.

(** What stays as it is in the rest of the system. *)
Definition sizes (y : et_system) :=
  (y_max_stations y, y_max_attachments y, y_nstations y, y_stat_tail y, length (y_attach y), length (y_histogram y),
   (λ p, length (p_att p)) <$> y_proc y, y_stat_mutex y, y_mutex y).
Definition frames (y y' : et_system) : Prop := y_nevents y' = y_nevents y ∧ sizes y' = sizes y.

Lemma sizes_attach y y' : sizes y' = sizes y → length (y_attach y') = length (y_attach y).
Proof. unfold sizes. congruence. Qed.
Lemma sizes_histogram y y' : sizes y' = sizes y → length (y_histogram y') = length (y_histogram y).
Proof. unfold sizes. congruence. Qed.
Lemma sizes_mutex y y' : sizes y' = sizes y → y_mutex y' = y_mutex y.
Proof. unfold sizes. congruence. Qed.

Lemma frames_refl y : frames y y.
Proof. done. Qed.

Lemma frames_trans y1 y2 y3 : frames y1 y2 → frames y2 y3 → frames y1 y3.
Proof. intros [? ?] [? ?]. split; congruence. Qed.

(** ** The places of the lists *)

Lemma lists_length y : length (lists y) = (length (y_stats y) + length (y_stats y))%nat.
Proof. unfold lists. by rewrite length_app, !length_fmap. Qed.

Lemma lists_in y i s : y_stats y !! i = Some s → lists y !! i = Some (s_in s).
Proof.
  intros Hs. unfold lists. rewrite lookup_app_l; [by rewrite list_lookup_fmap, Hs|].
  rewrite length_fmap. by eapply lookup_lt_Some.
Qed.

Lemma lists_out y i s : y_stats y !! i = Some s → lists y !! out_place y i = Some (s_out s).
Proof.
  intros Hs. unfold lists. rewrite lookup_app_r by (rewrite length_fmap; lia). rewrite length_fmap.
  replace (_ - _)%nat with i by lia. by rewrite list_lookup_fmap, Hs.
Qed.

Lemma list_fmap_alter_same {A B} (f : A → B) (g : A → A) (l : list A) i : (∀ x, f (g x) = f x) → f <$> alter g i l = f <$> l.
Proof.
  intros H. apply list_eq. intros j. rewrite !list_lookup_fmap. destruct (decide (j = i)) as [->|Hne].
  - rewrite list_lookup_alter_eq. destruct (l !! i); [|done]. cbn. by rewrite H.
  - by rewrite list_lookup_alter_ne.
Qed.

Lemma list_fmap_alter_to {A B} (f : A → B) (g : A → A) (l : list A) i x :
  is_Some (l !! i) → (∀ z, l !! i = Some z → f (g z) = x) → f <$> alter g i l = <[i := x]> (f <$> l).
Proof.
  intros [z Hz] H. apply list_eq. intros j. rewrite list_lookup_fmap. destruct (decide (j = i)) as [->|Hne].
  - rewrite list_lookup_alter_eq, Hz, list_lookup_insert_eq by (rewrite length_fmap; by eapply lookup_lt_Some).
    cbn. f_equal. by apply H.
  - by rewrite list_lookup_alter_ne, list_lookup_insert_ne, list_lookup_fmap.
Qed.

(** Stations change, but not their lists. *)
Lemma lists_set y i f :
  (∀ s, s_in (f s) = s_in s) → (∀ s, s_out (f s) = s_out s) → lists (set_station y i f) = lists y.
Proof. intros H1 H2. unfold lists, set_station. fields. by rewrite !list_fmap_alter_same. Qed.

Lemma lists_set_in y i s f pl :
  y_stats y !! i = Some s → s_in (f s) = pl → (∀ s, s_out (f s) = s_out s) →
  lists (set_station y i f) = <[i := pl]> (lists y).
Proof.
  intros Hs H1 H2. unfold lists, set_station. fields. rewrite (list_fmap_alter_same s_out) by done.
  rewrite (list_fmap_alter_to s_in f (y_stats y) i pl); [|by eexists|by intros z Hz; simplify_eq].
  rewrite insert_app_l; [done|]. rewrite length_fmap. by eapply lookup_lt_Some.
Qed.

Lemma lists_set_out y i s f pl :
  y_stats y !! i = Some s → s_out (f s) = pl → (∀ s, s_in (f s) = s_in s) →
  lists (set_station y i f) = <[out_place y i := pl]> (lists y).
Proof.
  intros Hs H1 H2. unfold lists, set_station. fields. rewrite (list_fmap_alter_same s_in) by done.
  rewrite (list_fmap_alter_to s_out f (y_stats y) i pl); [|by eexists|by intros z Hz; simplify_eq].
  rewrite <- (length_fmap s_in (y_stats y)). by rewrite insert_app_r.
Qed.

(** ** Counting events *)

Lemma known_length (m : evs) l : NoDup l → known m l → (length l ≤ size m)%nat.
Proof.
  intros Hnd Hk. rewrite <- size_dom, <- (size_list_to_set (C := gset nat) l) by done.
  apply subseteq_size. intros i Hi%elem_of_list_to_set. apply elem_of_dom. unfold known in Hk.
  rewrite Forall_forall in Hk. by apply Hk, list_elem_of_In.
Qed.

Lemma wf_size y Q F : wf y Q F → Z.of_nat (size (y_events y)) ≤ y_nevents y.
Proof.
  intros Hw. destruct (wf_places _ _ _ Hw) as [Hn Hd]. apply subseteq_size in Hd.
  rewrite size_dom, size_set_seq in Hd. lia.
Qed.

Lemma concat_insert_perm {A} (Q : list (list A)) i q q' :
  Q !! i = Some q → concat (<[i := q']> Q) ++ q ≡ₚ concat Q ++ q'.
Proof.
  revert i. induction Q as [|p Q IH]; intros [|i] H; try done.
  - injection H as ->. cbn. rewrite <- !app_assoc.
    rewrite (Permutation_app_comm q'), (Permutation_app_comm q (concat Q ++ q')), <- !app_assoc.
    f_equiv. apply Permutation_app_comm.
  - change (concat (<[S i := q']> (p :: Q))) with (p ++ concat (<[i := q']> Q)). cbn [concat].
    rewrite <- !app_assoc. f_equiv. by apply IH.
Qed.

Lemma wf_at y Q F k pl :
  wf y Q F → lists y !! k = Some pl → ∃ q, Q !! k = Some q ∧ in_list (y_events y) pl q ∧ li_lock pl = false.
Proof. intros Hw Hs. destruct (Forall2_lookup_l _ _ _ _ _ (wf_lists _ _ _ Hw) Hs) as (q & Hq & H1 & H2). by exists q. Qed.

Lemma wf_list y Q F i s :
  wf y Q F → y_stats y !! i = Some s →
  ∃ q, Q !! i = Some q ∧ in_list (y_events y) (s_in s) q ∧ li_lock (s_in s) = false.
Proof. intros Hw Hs. eapply wf_at; [exact Hw|by apply lists_in]. Qed.

Lemma wf_out y Q F i s :
  wf y Q F → y_stats y !! i = Some s →
  ∃ q, Q !! out_place y i = Some q ∧ out_list (y_events y) (s_out s) q ∧ li_lock (s_out s) = false.
Proof.
  intros Hw Hs. pose proof (lists_out _ _ _ Hs) as Hl. destruct (wf_at _ _ _ _ _ Hw Hl) as (q & Hq & Hin & Hlock).
  exists q. split; [done|]. split; [|done]. destruct (wf_outs _ _ _ Hw (out_place y i) _ _ ltac:(lia) Hl Hq) as [H1 H2]. by split.
Qed.

Lemma wf_length y Q F : wf y Q F → length Q = (length (y_stats y) + length (y_stats y))%nat.
Proof. intros Hw. rewrite <- (Forall2_length (wf_lists _ _ _ Hw)). apply lists_length. Qed.

Lemma wf_known_all y Q F : wf y Q F → known (y_events y) (concat Q ++ F).
Proof.
  intros Hw. apply Forall_app. split; [|apply Hw]. pose proof (wf_lists _ _ _ Hw) as H. clear Hw.
  induction H as [|s q ss Q [[_ Hs] _] _ IH]; cbn; [constructor|]. apply Forall_app. split; [|done].
  by eapply spans_known.
Qed.

(** The number of events of a list and in flight. *)
Lemma wf_count y Q F i q : wf y Q F → Q !! i = Some q → Z.of_nat (length q + length F) ≤ y_nevents y.
Proof.
  intros Hw Hq. pose proof (known_length _ _ (wf_nodup _ _ _ Hw) (wf_known_all _ _ _ Hw)) as H.
  pose proof (wf_size _ _ _ Hw). rewrite length_app in H.
  assert (length q ≤ length (concat Q))%nat; [|lia]. clear -Hq. revert i Hq.
  induction Q as [|p Q IH]; intros [|i] Hq; try done; cbn; rewrite length_app.
  - injection Hq as ->. lia.
  - specialize (IH i Hq). lia.
Qed.

Lemma wf_disjoint y Q F i q : wf y Q F → Q !! i = Some q → NoDup (q ++ F).
Proof.
  intros Hw Hq. pose proof (wf_nodup _ _ _ Hw) as H. apply list_elem_of_split_length in Hq as (Q1 & Q2 & -> & _).
  rewrite concat_app in H. cbn in H. rewrite <- !app_assoc in H. apply list.NoDup_app in H as (_ & _ & H).
  rewrite (Permutation_app_comm (concat Q2)), app_assoc in H. by apply list.NoDup_app in H as (? & _).
Qed.

(** Two different lists, and the events in flight, have nothing in common. *)
Lemma wf_apart y Q F i j q q' : wf y Q F → Q !! i = Some q → Q !! j = Some q' → i ≠ j → (q ++ F) ## q'.
Proof.
  intros Hw Hq Hq' Hne x Hx Hx'. pose proof (wf_nodup _ _ _ Hw) as H.
  assert (∀ (Q : list (list nat)) i j q q', Q !! i = Some q → Q !! j = Some q' → (i < j)%nat → NoDup (concat Q) →
            x ∈ q → x ∈ q' → False) as Hlt.
  { clear. intros Q i j q q' Hq Hq' Hij Hnd Hx Hx'. apply list_elem_of_split_length in Hq as (Q1 & Q2 & -> & ->).
    rewrite lookup_app_r in Hq' by lia. rewrite concat_app in Hnd. apply list.NoDup_app in Hnd as (_ & _ & Hnd).
    cbn in Hnd. apply list.NoDup_app in Hnd as (_ & Hd & _). apply (Hd x Hx).
    destruct (j - length Q1)%nat as [|k] eqn:E; [lia|]. cbn in Hq'.
    apply list_elem_of_In, in_concat. exists q'. split; [by eapply list_elem_of_In, list_elem_of_lookup_2|by apply list_elem_of_In]. }
  apply elem_of_app in Hx as [Hx|Hx].
  - apply list.NoDup_app in H as (H & _). destruct (decide (i < j)%nat); [by eapply (Hlt Q i j)|].
    eapply (Hlt Q j i); try done; lia.
  - apply list.NoDup_app in H as (_ & Hd & _). apply (Hd x); [|done].
    apply list_elem_of_In, in_concat. exists q'. split; [by eapply list_elem_of_In, list_elem_of_lookup_2|by apply list_elem_of_In].
Qed.

(** ** The shape of the stations *)

(** Idle and active stations are in use. *)
Definition in_use (s : et_station) : Prop := s_status s = ET_STATION_IDLE ∨ s_status s = ET_STATION_ACTIVE.
#[export] Instance in_use_dec s : Decision (in_use s).
Proof. unfold in_use. apply _. Defined.

Definition phase (s : et_station) : Z := if decide (in_use s) then ET_STATION_IDLE else s_status s.

Lemma phase_used s : in_use s ↔ phase s = ET_STATION_IDLE.
Proof. unfold phase. destruct (decide (in_use s)) as [H|H]; [done|]. split; [done|]. by left. Qed.

Lemma phase_unused s : s_status s = ET_STATION_UNUSED ↔ phase s = ET_STATION_UNUSED.
Proof. unfold phase. destruct (decide (in_use s)) as [[H|H]|H]; [by rewrite H..|done]. Qed.

(** What makes the chains of stations, and the configurations. *)
Definition place_of (s : et_station) : Z * list Z * Z * (Z * Z * Z * Z) * et_stat_config :=
  (s_num s, s_name s, phase s, (s_prev s, s_next s, s_prevparallel s, s_nextparallel s), s_config s).

(** What the threads of conductors and attachments leave as it is while a conductor has
    its transfer mutex: the places and configurations, the mutexes, and which parallel
    stations are active; GrandCentral is always active. *)
Definition shape_of (s : et_station) : (Z * list Z * Z * (Z * Z * Z * Z) * et_stat_config) * Z * nat * bool :=
  (place_of s, if c_flow_mode (s_config s) =? ET_STATION_PARALLEL then s_status s else 0, length (s_att s), s_mutex s).

Lemma place_config s s' : place_of s' = place_of s → s_config s' = s_config s.
Proof. unfold place_of. congruence. Qed.
Definition shape (y : et_system) := shape_of <$> y_stats y.

Lemma shape_lookup y y' i s :
  shape y' = shape y → y_stats y !! i = Some s → ∃ s', y_stats y' !! i = Some s' ∧ shape_of s' = shape_of s.
Proof.
  intros Hsh Hs. assert (shape y' !! i = shape y !! i) as H by by rewrite Hsh. unfold shape in H.
  rewrite !list_lookup_fmap, Hs in H. destruct (y_stats y' !! i) as [s'|]; [|done]. exists s'. split; [done|].
  cbn [fmap option_fmap option_map] in H. congruence.
Qed.

Lemma shape_length y y' : shape y' = shape y → length (y_stats y') = length (y_stats y).
Proof. intros H. apply (f_equal length) in H. unfold shape in H. by rewrite !length_fmap in H. Qed.

Lemma shape_set y i f : (∀ s, shape_of (f s) = shape_of s) → shape (set_station y i f) = shape y.
Proof.
  intros Hf. unfold shape, set_station. fields. apply list_eq. intros j. rewrite !list_lookup_fmap.
  destruct (decide (j = i)) as [->|Hne].
  - rewrite list_lookup_alter_eq. destruct (y_stats y !! i); [|done]. cbn. by rewrite Hf.
  - by rewrite list_lookup_alter_ne.
Qed.

(** ** Steps *)

Lemma give_lookup o pe O x : give o pe O !! x = if decide (x ∈ pe) then Some o else O !! x.
Proof.
  revert O. induction pe as [|i pe IH]; intros O; [by rewrite decide_False by apply not_elem_of_nil|].
  rewrite give_cons, IH. destruct (decide (x ∈ pe)) as [H|H]; [by rewrite decide_True by by right|].
  destruct (decide (x = i)) as [->|Hne]; [by rewrite lookup_insert_eq, decide_True by by left|].
  rewrite lookup_insert_ne by done. by rewrite decide_False by (intros [?|?]%elem_of_cons; done).
Qed.

Lemma elem_of_concat (Q : list (list nat)) i q x : Q !! i = Some q → x ∈ q → x ∈ concat Q.
Proof.
  intros Hq Hx. apply list_elem_of_In, in_concat. exists q.
  split; [by eapply list_elem_of_In, list_elem_of_lookup_2|by apply list_elem_of_In].
Qed.

(** The events of the lists and those in flight belong to the system. *)
Lemma system_owner y Q F x : wf y Q F → x ∈ concat Q ++ F → owners (y_events y) !! x = Some ET_SYS.
Proof.
  intros Hw Hx. pose proof (wf_known_all _ _ _ Hw) as Hk. unfold known in Hk. rewrite list.Forall_forall in Hk.
  destruct (Hk x Hx) as [e He]. unfold owners. rewrite lookup_fmap, He. cbn. f_equal. by apply (wf_owner _ _ _ Hw x e He).
Qed.

Lemma flight_owner y Q F x : wf y Q F → x ∈ F → owners (y_events y) !! x = Some ET_SYS.
Proof. intros Hw Hx. eapply system_owner; [exact Hw|]. apply elem_of_app. by right. Qed.

Lemma list_owner y Q F k q x : wf y Q F → Q !! k = Some q → x ∈ q → owners (y_events y) !! x = Some ET_SYS.
Proof. intros Hw Hq Hx. eapply system_owner; [exact Hw|]. apply elem_of_app. left. by eapply elem_of_concat. Qed.

(** Attachments whose events others leave alone. *)
Class Sparing := sparing : Z → Prop.

Definition spared {K : Sparing} (m m' : evs) : Prop :=
  ∀ x o, sparing o → o ≠ ET_SYS → owners m !! x = Some o → owners m' !! x = Some o.

Lemma spared_refl {K : Sparing} m : spared m m.
Proof. by intros x o _ _. Qed.
#[export] Hint Resolve spared_refl : core.

Lemma spared_owners {K : Sparing} m m' : owners m' = owners m → spared m m'.
Proof. intros H x o _ _. by rewrite H. Qed.

Lemma spared_give {K : Sparing} a pe m m' :
  owners m' = give a pe (owners m) →
  (∀ x, x ∈ pe → owners m !! x = Some ET_SYS ∨ ∃ o, owners m !! x = Some o ∧ ¬ sparing o) → spared m m'.
Proof.
  intros Ho Hpe x o HK Hne Hx. rewrite Ho, give_lookup. destruct (decide (x ∈ pe)) as [H|H]; [|done].
  destruct (Hpe x H) as [H1|(o' & H1 & H2)]; congruence.
Qed.

Lemma core_dom m m' : core m' = core m → dom m' = dom m.
Proof. intros Hc. assert (dom (core m') = dom (core m)) as H by by rewrite Hc. unfold core in H. by rewrite !dom_fmap_L in H. Qed.


Lemma in_order_core m m' pl q : core m' = core m → in_order m pl q → in_order m' pl q.
Proof.
  intros Hc [H1 H2]. split; [by eapply sorted_core|]. by rewrite (high_prefix_core m m').
Qed.

(** One list becomes [pl], which stands for [q']; the events [P] come in from the
    attachments, and the events [T] go to the attachment [a]. *)
Lemma wf_step y y' Q F k q pl q' F' P T a :
  wf y Q F → Q !! k = Some q → lists y' = <[k := pl]> (lists y) → frames y y' →
  in_list (y_events y') pl q' → li_lock pl = false →
  ((length (y_stats y) ≤ k)%nat → in_order (y_events y') pl q') →
  moves (y_events y) (y_events y') (q ++ F ++ P) → q' ++ F' ++ T ≡ₚ q ++ F ++ P →
  NoDup P → P ## concat Q ++ F → known (y_events y) P →
  owners (y_events y') = give a T (give ET_SYS P (owners (y_events y))) →
  (T ≠ [] → 0 ≤ a < Z.of_nat (length (y_attach y))) →
  wf y' (<[k := q']> Q) F'.
Proof.
  intros Hw Hq Hl [Hn Hsz] Hin Hlock Hord Hm Hp HndP HdP HkP Ho Ha. pose proof Hm as [Hc Hf].
  pose proof (sizes_attach _ _ Hsz) as Hatt. pose proof (sizes_histogram _ _ Hsz) as Hhi.
  pose proof (concat_insert_perm Q k q q' Hq) as Hcp.
  assert (k < length Q)%nat as Hk by by eapply lookup_lt_Some.
  pose proof (Forall2_length (wf_lists _ _ _ Hw)) as HlenQ.
  assert (length (y_stats y') = length (y_stats y)) as Hlen.
  { pose proof (lists_length y) as H1. pose proof (lists_length y') as H2. rewrite Hl, length_insert in H2. lia. }
  assert (concat (<[k := q']> Q) ++ F' ++ T ≡ₚ concat Q ++ F ++ P) as Hall.
  { apply (Permutation_app_inv_r q). rewrite <- app_assoc, (Permutation_app_comm (F' ++ T)), app_assoc, Hcp, <- app_assoc, Hp.
    rewrite (Permutation_app_comm q), <- !app_assoc. done. }
  assert (NoDup (concat Q ++ F ++ P)) as HndA.
  { rewrite app_assoc. apply list.NoDup_app. split; [apply Hw|split; [|done]]. intros x Hx HxP. by apply (HdP x). }
  assert (known (y_events y) (concat Q ++ F ++ P)) as HkA.
  { rewrite app_assoc. apply Forall_app. split; [by eapply wf_known_all|done]. }
  assert (NoDup (concat (<[k := q']> Q) ++ F' ++ T)) as HndA' by by rewrite Hall.
  assert (known (y_events y') (concat (<[k := q']> Q) ++ F' ++ T)) as HkA'.
  { eapply known_core; [exact Hc|]. unfold known. by rewrite Hall. }
  split.
  - rewrite Hl. pose proof (wf_lists _ _ _ Hw) as H. apply Forall2_same_length_lookup.
    split; [by rewrite !length_insert|]. intros j pl1 p Hpl1 Hp1. destruct (decide (j = k)) as [->|Hne].
    + rewrite list_lookup_insert_eq in Hpl1 by by rewrite HlenQ. rewrite list_lookup_insert_eq in Hp1 by done. by simplify_eq.
    + rewrite list_lookup_insert_ne in Hpl1 by done. rewrite list_lookup_insert_ne in Hp1 by done.
      destruct (Forall2_lookup_lr _ _ _ _ _ _ H Hpl1 Hp1) as [H1 H2]. split; [|done].
      eapply in_list_frame; [exact H1|exact Hm|]. intros x Hx Hxp. rewrite app_assoc, elem_of_app in Hx. destruct Hx as [Hx|Hx].
      * by eapply (wf_apart y Q F k j q p).
      * apply (HdP x Hx). apply elem_of_app. left. by eapply elem_of_concat.
  - rewrite Hlen, Hl. intros j pl1 p Hj Hpl1 Hp1. destruct (decide (j = k)) as [->|Hne].
    + rewrite list_lookup_insert_eq in Hpl1 by by rewrite HlenQ. rewrite list_lookup_insert_eq in Hp1 by done. simplify_eq. by apply Hord.
    + rewrite list_lookup_insert_ne in Hpl1 by done. rewrite list_lookup_insert_ne in Hp1 by done.
      eapply in_order_core; [exact Hc|]. by eapply (wf_outs _ _ _ Hw).
  - rewrite app_assoc in HndA'. by apply list.NoDup_app in HndA' as (? & _).
  - rewrite app_assoc in HkA'. apply Forall_app in HkA' as [HkA' _]. by apply Forall_app in HkA' as [_ ?].
  - eapply prios_ok_core; [exact Hc|apply Hw].
  - rewrite Hn, (core_dom _ _ Hc). apply Hw.
  - intros x e He. assert (owners (y_events y') !! x = Some (e_owner e)) as Hx by (unfold owners; by rewrite lookup_fmap, He).
    rewrite Ho, !give_lookup in Hx. rewrite app_assoc in HndA', Hall. apply list.NoDup_app in HndA' as (_ & Hd & _).
    destruct (decide (x ∈ T)) as [HT|HT].
    { injection Hx as Hx. rewrite <- Hx. split; [intros H; by destruct (Hd x H)|]. intros ->.
      destruct T; [by apply elem_of_nil in HT|]. unfold ET_SYS in Ha. destruct Ha; [done|lia]. }
    assert (x ∈ (concat (<[k := q']> Q) ++ F') ++ T ↔ x ∈ concat Q ++ F ++ P) as Hel by by rewrite Hall.
    destruct (decide (x ∈ P)) as [HP|HP].
    { injection Hx as Hx. rewrite <- Hx. split; [done|]. intros _.
      assert (x ∈ (concat (<[k := q']> Q) ++ F') ++ T) as H by (apply Hel; rewrite !elem_of_app; tauto).
      apply elem_of_app in H as [?|?]; done. }
    unfold owners in Hx. rewrite lookup_fmap in Hx. destruct (y_events y !! x) as [e0|] eqn:He0; [|done]. injection Hx as Hx.
    rewrite <- Hx, <- (wf_owner _ _ _ Hw x e0 He0). revert Hel. rewrite !elem_of_app. tauto.
  - intros x e He Hne. assert (owners (y_events y') !! x = Some (e_owner e)) as Hx by (unfold owners; by rewrite lookup_fmap, He).
    rewrite Ho, !give_lookup in Hx. rewrite Hatt.
    destruct (decide (x ∈ T)) as [HT|_]; [injection Hx as <-; apply Ha; by intros ->; apply elem_of_nil in HT|].
    destruct (decide (x ∈ P)); [congruence|]. unfold owners in Hx. rewrite lookup_fmap in Hx.
    destruct (y_events y !! x) as [e0|] eqn:He0; [|done]. injection Hx as Hx. rewrite <- Hx in *. by eapply wf_owners.
  - rewrite Hhi, Hn. apply Hw.
Qed.

(** What the invariant says nothing about changes. *)
Lemma wf_moved y y' Q F :
  y_events y' = y_events y → lists y' = lists y → length (y_stats y') = length (y_stats y) →
  y_nevents y' = y_nevents y → length (y_attach y') = length (y_attach y) →
  length (y_histogram y') = length (y_histogram y) → wf y Q F → wf y' Q F.
Proof.
  intros He Hl Hs Hn Ha Hh []. split; rewrite ?He, ?Hl, ?Hs, ?Hn, ?Ha, ?Hh; done.
Qed.

Lemma wf_same y y' Q F :
  y_events y' = y_events y → y_stats y' = y_stats y → frames y y' → wf y Q F → wf y' Q F.
Proof.
  intros He Hs [Hn Hsz]. apply wf_moved; unfold lists; rewrite ?Hs; try done;
    [by apply sizes_attach|by apply sizes_histogram].
Qed.

(** The order of the events in flight does not matter. *)
Lemma wf_perm y Q F F' : wf y Q F → F ≡ₚ F' → wf y Q F'.
Proof.
  intros [] HF. split; try done.
  - by rewrite <- HF.
  - unfold known in *. by rewrite <- HF.
  - intros x e He. rewrite <- HF. by apply wf_owner0.
Qed.

(** A station changes, but not its lists. *)
Lemma wf_set y Q F i f :
  wf y Q F → (∀ s, s_in (f s) = s_in s) → (∀ s, s_out (f s) = s_out s) → wf (set_station y i f) Q F.
Proof.
  intros [] H1 H2. split; try done.
  - by rewrite lists_set.
  - intros k pl q. rewrite lists_set by done. unfold set_station at 1. fields. rewrite length_alter. apply wf_outs0.
Qed.

(** The input list of the station [i] becomes [pl], which stands for [q']; its events and
    [F'] are those of before. *)
Lemma wf_update y Q F i s q m pl q' F' :
  wf y Q F → y_stats y !! i = Some s → Q !! i = Some q →
  in_list m pl q' → li_lock pl = false → moves (y_events y) m (q ++ F) → q' ++ F' ≡ₚ q ++ F →
  owners m = owners (y_events y) →
  wf (set_station y i (λ s, s <| s_in := pl |>) <| y_events := m |>) (<[i := q']> Q) F'.
Proof.
  intros Hw Hs Hq Hin Hlock Hm Hp Ho.
  apply (wf_step y _ Q F i q pl q' F' [] [] 0); rewrite ?app_nil_r; try done.
  - change (lists (set_station y i (λ s, s <| s_in := pl |>)) = <[i := pl]> (lists y)). by eapply lists_set_in.
  - intros Hle. apply lookup_lt_Some in Hs. lia.
  - constructor.
  - intros x Hx. by apply elem_of_nil in Hx.
  - constructor.
Qed.
