(* ===== verification/EtConductorSpec.v ===== *)
(** * Events are neither lost nor doubled on their way between stations

    Whatever the other threads do to the lists in between, as long as they keep them in
    order, a conductor puts each of the events that it holds into exactly one list.  The
    sections follow the ways in which stations get their events: by selection, by turns
    and by equal cues. *)

From S2P Require Import Prelude Words EtTypes EtLists EtSegments EtListSpec EtStationSpec.
From S2P Require Import EtShellSort EtEqualCue EtConductor EtRoundRobin EtSystemInv.

(** ** Selections *)

Lemma select_blocking_ok sel prescale try all put :
  length put = length all →
  let '(l, p, _) := select_blocking sel prescale try all put in
  length p = length all ∧ l ++ unput all p ≡ₚ unput all put ∧ Forall (λ x, sel x = true) l.
Proof.
  revert try put. induction all as [|x all IH]; intros try [|b put] Hlen; try done.
  injection Hlen as Hlen. cbn [select_blocking unput]. destruct (b || negb (sel x)) eqn:Hc.
  - specialize (IH try put Hlen). destruct (select_blocking sel prescale try all put) as [[l p] t].
    destruct IH as (H1 & H2 & H3). cbn [unput length]. split_and!; [by rewrite H1| |done].
    destruct b; [done|]. by rewrite <- Permutation_middle, H2.
  - apply orb_false_iff in Hc as [-> Hs]. apply negb_false_iff in Hs.
    specialize (IH (u64 (try + 1)) put Hlen). destruct (select_blocking sel prescale _ all put) as [[l p] t].
    destruct IH as (H1 & H2 & H3). destruct (_ =? 0); cbn [unput length app]; split_and!; try (by rewrite H1); try done.
    + by rewrite H2.
    + by constructor.
    + by rewrite <- Permutation_middle, H2.
Qed.

Lemma select_nonblocking_ok sel j all put :
  length put = length all → 0 < j →
  let '(l, p) := select_nonblocking sel j all put in
  length p = length all ∧ l ++ unput all p ≡ₚ unput all put ∧ Forall (λ x, sel x = true) l ∧
  Z.of_nat (length l) ≤ j.
Proof.
  revert j put. induction all as [|x all IH]; intros j [|b put] Hlen Hj; try done; [cbn; split_and!; done || lia|].
  injection Hlen as Hlen. cbn [select_nonblocking unput]. destruct (b || negb (sel x)) eqn:Hc.
  - specialize (IH j put Hlen Hj). destruct (select_nonblocking sel j all put) as [l p].
    destruct IH as (H1 & H2 & H3 & H4). cbn [unput length]. split_and!; [by rewrite H1| |done|done].
    destruct b; [done|]. by rewrite <- Permutation_middle, H2.
  - apply orb_false_iff in Hc as [-> Hs]. apply negb_false_iff in Hs. destruct (j - 1 =? 0) eqn:Hj1.
    + cbn [unput length app]. split_and!; [by rewrite Hlen|done|by constructor|lia].
    + apply Z.eqb_neq in Hj1. specialize (IH (j - 1) put Hlen ltac:(lia)).
      destruct (select_nonblocking sel (j - 1) all put) as [l p]. destruct IH as (H1 & H2 & H3 & H4).
      cbn [unput length app]. split_and!; [by rewrite H1|by rewrite H2|by constructor|lia].
Qed.

(** Without a condition, the first ones. *)
Lemma select_first n all put :
  length put = length all → (1 ≤ n ≤ length (unput all put))%nat →
  let '(l, p) := select_nonblocking (λ _, true) (Z.of_nat n) all put in
  length p = length all ∧ l = take n (unput all put) ∧ unput all p = drop n (unput all put).
Proof.
  revert n put. induction all as [|x all IH]; intros n [|b put] Hlen Hn; try done; [cbn in Hn; lia|].
  injection Hlen as Hlen. cbn [select_nonblocking unput]. destruct b; cbn [orb negb].
  - specialize (IH n put Hlen Hn). destruct (select_nonblocking _ _ all put) as [l p].
    destruct IH as (H1 & H2 & H3). cbn [unput length]. by rewrite H1.
  - destruct n as [|n]; [lia|]. cbn [unput length] in Hn. destruct n as [|n].
    + change (Z.of_nat 1 - 1 =? 0) with true. cbn [unput length take drop]. by rewrite Hlen.
    + replace (_ =? 0) with false by (symmetry; apply Z.eqb_neq; lia).
      replace (Z.of_nat (S (S n)) - 1) with (Z.of_nat (S n)) by lia.
      specialize (IH (S n) put Hlen ltac:(lia)). destruct (select_nonblocking _ _ all put) as [l p].
      destruct IH as (H1 & H2 & H3). cbn [unput length take drop] in *. by rewrite H1, H2.
Qed.

Lemma unput_none all : unput all (replicate (length all) false) = all.
Proof. induction all as [|x all IH]; [done|]. cbn. by rewrite IH. Qed.

(** ** Interference *)

Section Sparing.
  Context {K : Sparing}.

(** What the steps of all threads keep. *)
Record keeps (y y' : et_system) : Prop := Keeps {
  kp_shape : shape y' = shape y;
  kp_active : is_active y ET_GRANDCENTRAL = true → is_active y' ET_GRANDCENTRAL = true;
  kp_frames : frames y y';
  kp_seats att n v i : sparing att → 0 ≤ att → n ≠ -1 → seats y !! Z.to_nat att = Some (n, v, i) →
    seats y' !! Z.to_nat att = Some (n, v, i);
  kp_spared : spared (y_events y) (y_events y')
}.

Lemma keeps_refl y : keeps y y.
Proof. by split. Qed.

#[local] Hint Resolve keeps_refl : core.

Lemma keeps_trans y1 y2 y3 : keeps y1 y2 → keeps y2 y3 → keeps y1 y3.
Proof. intros [H1 G1 F1 A1 S1] [H2 G2 F2 A2 S2].
  split; [congruence|auto|by eapply frames_trans|by eauto|]. intros x o Ho Hne Hx. auto. Qed.

Lemma keeps_set y i f :
  (∀ s, shape_of (f s) = shape_of s) → (∀ s, s_status (f s) = s_status s) → keeps y (set_station y i f).
Proof.
  intros H1 H2. split; [by apply shape_set| |done|done|done]. unfold is_active, set_station. fields.
  destruct (decide (ET_GRANDCENTRAL = i)) as [<-|Hne].
  - rewrite list_lookup_alter_eq. destruct (y_stats y !! ET_GRANDCENTRAL) as [s|]; [|done]. cbn. by rewrite H2.
  - by rewrite list_lookup_alter_ne.
Qed.

Lemma set_station_twice y i f g : (∀ s, g (f s) = g s) → set_station (set_station y i f) i g = set_station y i g.
Proof.
  intros H. unfold set_station. fields. destruct y. unfold update. cbn. f_equal.
  apply list_eq. intros j. destruct (decide (j = i)) as [->|Hne].
  - rewrite !list_lookup_alter_eq. destruct (y_stats !! i); [|done]. cbn. by rewrite H.
  - by rewrite !list_lookup_alter_ne.
Qed.

Lemma set_station_ext y i s f g : y_stats y !! i = Some s → f s = g s → set_station y i f = set_station y i g.
Proof.
  intros Hs H. unfold set_station. destruct y. unfold update. cbn in *. f_equal. apply list_eq. intros j.
  destruct (decide (j = i)) as [->|Hne]; [by rewrite !list_lookup_alter_eq, Hs; cbn; rewrite H|by rewrite !list_lookup_alter_ne].
Qed.

(** The other threads keep the lists in order and leave the events in flight alone. *)
Class Interference (env : nat → et_system → et_system) : Prop := {
  env_wf k y Q F : wf y Q F → (∃ Q', wf (env k y) Q' F) ∧ keeps y (env k y)
}.

(** ** The events a conductor holds *)

Section Holds.
  Context (env : nat → et_system → et_system) `{!Interference env}.
  Context (user_select : nat → et_event → bool) (all F0 : list nat).

(** [F] are the events that are still to be put, [F0] those that others have in flight. *)
Record holds (k : conduct) (Q : list (list nat)) (F : list nat) : Prop := Holds {
  h_wf : wf (k_sys k) Q (F ++ F0);
  h_log : concat (snd <$> k_log k) ++ F ≡ₚ all;
  h_left : k_left k = Z.of_nat (length F)
}.

(** The marks tell which events are still to be put. *)
Definition marks (k : conduct) (F : list nat) : Prop :=
  F ≠ [] → length (k_put k) = length all ∧ unput all (k_put k) = F.

Lemma interfere_ok k Q F : holds k Q F → ∃ Q', holds (interfere env k) Q' F ∧ keeps (k_sys k) (k_sys (interfere env k)).
Proof.
  intros []. destruct (env_wf (k_tick k) (k_sys k) Q (F ++ F0) h_wf0) as [(Q' & HQ) Hk]. exists Q'.
  split; [|exact Hk]. by split.
Qed.

Lemma keeps_lookup y y' i s :
  keeps y y' → y_stats y !! i = Some s → ∃ s', y_stats y' !! i = Some s' ∧ shape_of s' = shape_of s.
Proof. intros [H]. by apply shape_lookup. Qed.

Lemma keeps_input y i pl : keeps y (set_station y i (λ s, s <| s_in := pl |>)).
Proof. by apply keeps_set. Qed.

Lemma keeps_written y i pl m :
  owners m = owners (y_events y) → keeps y (set_station y i (λ s, s <| s_in := pl |>) <| y_events := m |>).
Proof. intros Ho. destruct (keeps_input y i pl) as [H1 H2 H3 H4 _]. split; try done. by apply spared_owners. Qed.

(** The mutex of the list of a station is taken, after the others ran. *)
Lemma lock_input_ok k Q F i s0 :
  holds k Q F → y_stats (k_sys k) !! i = Some s0 →
  ∃ k1 Q' s q, lock_input env k i =
      Ret (set_input k1 i (s_in s <| li_lock := true |>), s <| s_in := s_in s <| li_lock := true |> |>) ∧
    holds k1 Q' F ∧ keeps (k_sys k) (k_sys k1) ∧ k_put k1 = k_put k ∧ k_first k1 = k_first k ∧
    k_log k1 = k_log k ∧ k_left k1 = k_left k ∧
    y_stats (k_sys k1) !! i = Some s ∧ shape_of s = shape_of s0 ∧ Q' !! i = Some q ∧
    in_list (y_events (k_sys k1)) (s_in s) q.
Proof.
  intros Hh Hs0. destruct (interfere_ok k Q F Hh) as (Q' & Hh' & Hk).
  destruct (keeps_lookup _ _ _ _ Hk Hs0) as (s & Hs & Hsh).
  destruct (wf_list _ _ _ _ _ (h_wf _ _ _ Hh') Hs) as (q & Hq & Hin & Hlock).
  exists (interfere env k), Q', s, q. split_and!; try done.
  unfold lock_input, station, et_llist_lock. rewrite Hs. cbn [of_option mbind res_bind]. rewrite Hlock. done.
Qed.

Lemma write_ok y k1 Q F i s q pe F' pl l1 left :
  wf y Q (F ++ F0) → y_stats y !! i = Some s → Q !! i = Some q →
  li_cnt pl = li_cnt (s_in s) → li_first pl = li_first (s_in s) → li_last pl = li_last (s_in s) →
  k_sys k1 = set_station y i (λ s, s <| s_in := l1 |>) → pe ≠ [] → F ≡ₚ pe ++ F' →
  ∃ k2 Q', write_input k1 i pl pe left = Ret (true, k2) ∧ wf (k_sys k2) Q' (F' ++ F0) ∧ k_left k2 = left ∧
    k_log k2 = k_log k1 ++ [(i, pe)] ∧ k_put k2 = k_put k1 ∧ k_first k2 = k_first k1 ∧ keeps y (k_sys k2).
Proof.
  intros Hw Hs Hq H1 H2 H3 Hsys Hne Hp0.
  assert (F ++ F0 ≡ₚ pe ++ F' ++ F0) as Hp by (by rewrite Hp0, <- app_assoc).
  set (FF := F ++ F0) in *. destruct (wf_list _ _ _ _ _ Hw Hs) as (q' & Hq' & Hin & Hlock).
  assert (q' = q) as -> by congruence. clear Hq'.
  assert (in_list (y_events y) pl q) as Hinpl.
  { destruct Hin as [Hc Hsp]. split; [congruence|]. by eapply spans_ext. }
  pose proof (wf_disjoint _ _ _ _ _ Hw Hq) as Hnd. pose proof (wf_count _ _ _ _ _ Hw Hq) as Hcnt.
  assert (NoDup (q ++ pe) ∧ known (y_events y) pe) as [Hndp Hkp].
  { split.
    - rewrite Hp, app_assoc in Hnd. by apply list.NoDup_app in Hnd as (? & _).
    - pose proof (wf_known _ _ _ Hw) as Hk. unfold known in *. rewrite Hp in Hk. by apply Forall_app in Hk as [? _]. }
  assert (length FF = length pe + length (F' ++ F0))%nat as HlenF by (rewrite Hp; apply length_app).
  destruct (et_llist_write_ok (y_nevents y) (y_events y) pl q pe Hinpl Hndp Hkp Hne (wf_prios _ _ _ Hw))
    as (m & pl' & Hrun & Hin' & Hm & Ho & _); [lia|].
  assert (wf (set_station y i (λ s, s <| s_in := et_llist_unlock pl' |>) <| y_events := m |>)
            (<[i := merge (y_events y) q pe]> Q) (F' ++ F0)) as Hw'.
  { eapply wf_update; try done.
    - destruct Hin' as [Hc Hsp]. split; [exact Hc|]. by eapply spans_ext.
    - eapply moves_weaken; [exact Hm|]. rewrite Hp. clear. set_solver.
    - rewrite merge_perm, Hp. by rewrite <- !app_assoc. }
  unfold write_input. rewrite Hsys. change (y_nevents (set_station y i _)) with (y_nevents y).
  change (y_events (set_station y i _)) with (y_events y). rewrite Hrun. cbn [mbind res_bind].
  eexists _, _. split.
  { do 2 f_equal. apply andb_true_iff. split; [apply negb_true_iff, Z.eqb_neq|apply Z.leb_le]; unfold ET_ERROR; lia. }
  unfold set_input. cbn [update k_sys k_left k_log k_put k_first]. rewrite Hsys, set_station_twice by done.
  split_and!; try done. exact (keeps_written y i (et_llist_unlock pl') m Ho).
Qed.

(** The state after a write. *)
Lemma holds_written k1 k2 Q2 F F' i pe :
  concat (snd <$> k_log k1) ++ F ≡ₚ all → F ≡ₚ pe ++ F' → wf (k_sys k2) Q2 (F' ++ F0) →
  k_left k2 = Z.of_nat (length F') → k_log k2 = k_log k1 ++ [(i, pe)] → holds k2 Q2 F'.
Proof.
  intros Hlog Hp Hw Hl Hlg. split; try done. rewrite Hlg, fmap_app, concat_app. cbn.
  by rewrite app_nil_r, <- app_assoc, <- Hp.
Qed.

(** Events are selected for the station. *)
Lemma put_some k Q F i s q pe p try :
  holds k Q F → y_stats (k_sys k) !! i = Some s → Q !! i = Some q →
  length p = length all → pe ++ unput all p ≡ₚ F →
  ∃ k' Q' F',
    (match pe with
     | [] => Ret (true, set_input (set_input k i (s_in s <| li_lock := true |>) <| k_put := p |>) i
                          (et_llist_unlock (s_in s <| li_lock := true |> <| li_events_try := try |>)))
     | _ => write_input (set_input k i (s_in s <| li_lock := true |>) <| k_put := p |>) i
              (s_in s <| li_lock := true |> <| li_events_try := try |>) pe (k_left k - Z.of_nat (length pe))
     end) = Ret (true, k') ∧ holds k' Q' F' ∧ marks k' F' ∧ keeps (k_sys k) (k_sys k') ∧ k_first k' = k_first k.
Proof.
  intros Hh Hs Hq Hlen Hp. pose proof (h_wf _ _ _ Hh) as Hw.
  destruct pe as [|x pe].
  - cbn [app] in Hp. eexists _, (<[i := q]> Q), (unput all p). split; [done|].
    destruct (wf_list _ _ _ _ _ Hw Hs) as (q' & Hq' & Hin & Hlock). assert (q' = q) as -> by congruence.
    unfold set_input. cbn [update k_sys k_left k_log k_put k_first]. rewrite set_station_twice by done.
    split_and!; [|done|by apply keeps_input|done]. split; cbn [update k_sys k_left k_log k_put k_first].
    + pose proof (wf_update (k_sys k) Q (F ++ F0) i s q (y_events (k_sys k))
        (et_llist_unlock (s_in s <| li_lock := true |> <| li_events_try := try |>)) q (unput all p ++ F0) Hw Hs Hq) as H.
      rewrite set_station_twice by done. destruct Hin as [Hc Hsp]. apply H; [|done|apply moves_refl|by rewrite Hp|done].
      split; [exact Hc|]. by eapply spans_ext.
    + rewrite Hp. apply Hh.
    + rewrite (Permutation_length Hp). apply Hh.
  - set (pe' := x :: pe) in *.
    destruct (write_ok (k_sys k) (set_input k i (s_in s <| li_lock := true |>) <| k_put := p |>) Q F i s q pe' (unput all p)
      (s_in s <| li_lock := true |> <| li_events_try := try |>) (s_in s <| li_lock := true |>)
      (k_left k - Z.of_nat (length pe')) Hw Hs Hq)
      as (k2 & Q2 & Hrun & Hw2 & Hleft & Hlog & Hput & Hfirst & Hkeep); try done.
    exists k2, Q2, (unput all p). split_and!; try done; [|intros _; rewrite Hput; done].
    eapply holds_written; [apply Hh|symmetry; exact Hp|exact Hw2| |exact Hlog].
    rewrite Hleft, (h_left _ _ _ Hh), <- Hp, length_app. lia.
Qed.

Lemma put_station_ok k Q F i s0 :
  holds k Q F → marks k F → F ≠ [] → (k_first k = true → F = all) → y_stats (k_sys k) !! i = Some s0 →
  i ≠ ET_GRANDCENTRAL → c_prescale (s_config s0) ≠ 0 →
  ∃ k' Q' F', put_station env user_select all k i = Ret (true, k') ∧ holds k' Q' F' ∧ marks k' F' ∧
    keeps (k_sys k) (k_sys k') ∧ k_first k' = k_first k.
Proof.
  intros Hh Hmk HF Hfirst Hs0 Hi Hpre. unfold put_station. rewrite (proj2 (Nat.eqb_neq _ _) Hi).
  destruct (lock_input_ok k Q F i s0 Hh Hs0)
    as (k1 & Q1 & s & q & -> & Hh1 & Hk1 & Hput1 & Hf1 & Hl1 & Hle1 & Hs & Hsh & Hq & Hin).
  cbn [mbind res_bind]. rewrite <- Hf1 in Hfirst. set (s1 := s <| s_in := _ |>).
  assert (s_config s1 = s_config s0) as Hc by (unfold shape_of, place_of in Hsh; unfold s1; fields; congruence). rewrite Hc.
  change (s_in s1) with (s_in s <| li_lock := true |>).
  change (k_put (set_input k1 i (s_in s <| li_lock := true |>))) with (k_put k1).
  change (k_first (set_input k1 i (s_in s <| li_lock := true |>))) with (k_first k1).
  set (sel := if c_select_mode _ =? ET_STATION_SELECT_ALL then _ else _).
  destruct (Hmk HF) as [Hplen Hpun]. rewrite <- Hput1 in Hplen, Hpun.
  destruct ((c_select_mode (s_config s0) =? ET_STATION_SELECT_ALL) && (c_block_mode (s_config s0) =? ET_STATION_BLOCKING)
            && k_first k1 && (c_prescale (s_config s0) =? 1)) eqn:Hall.
  - apply andb_true_iff in Hall as [Hall _]. apply andb_true_iff in Hall as [_ Hf]. specialize (Hfirst Hf). subst F.
    destruct (write_ok (k_sys k1) (set_input k1 i (s_in s <| li_lock := true |>)) Q1 all i s q all []
      (s_in s <| li_lock := true |> <| li_events_try ::= λ x, u64 (x + Z.of_nat (length all)) |>)
      (s_in s <| li_lock := true |>) 0 (h_wf _ _ _ Hh1) Hs Hq)
      as (k2 & Q2 & Hrun & Hw2 & Hleft & Hlog & Hput & Hfirst & Hkeep); try done; [by rewrite app_nil_r|].
    exists k2, Q2, []. rewrite Hrun. split_and!; [done| |done|by eapply keeps_trans|by rewrite Hfirst].
    eapply holds_written; [apply Hh1|by rewrite app_nil_r|exact Hw2|done|exact Hlog].
  - replace (_ && (c_prescale _ =? 0)) with false
      by (symmetry; apply andb_false_iff; right; by apply Z.eqb_neq).
    set (res := if c_block_mode _ =? ET_STATION_BLOCKING then _ else _).
    assert (let '(pe, p, try) := res in length p = length all ∧ pe ++ unput all p ≡ₚ F) as Hres.
    { unfold res. destruct (_ =? ET_STATION_BLOCKING).
      - pose proof (select_blocking_ok sel (c_prescale (s_config s0)) (li_events_try (s_in s <| li_lock := true |>)) all (k_put k1) Hplen) as H.
        destruct (select_blocking _ _ _ _ _) as [[l p] t]. destruct H as (H1 & H2 & _). by rewrite H2, Hpun.
      - destruct (_ <? _) eqn:Hlt; [|by rewrite <- Hpun]. apply Z.ltb_lt in Hlt.
        pose proof (select_nonblocking_ok sel (c_cue (s_config s0) - li_cnt (s_in s <| li_lock := true |>)) all (k_put k1) Hplen) as H.
        destruct (select_nonblocking _ _ _ _) as [l p]. destruct H as (H1 & H2 & _); [lia|]. by rewrite H2, Hpun. }
    destruct res as [[pe p] try]. destruct Hres as [Hlen Hp].
    destruct (put_some k1 Q1 F i s q pe p try Hh1 Hs Hq Hlen Hp) as (k' & Q' & F' & Hrun & H1 & H2 & H3 & H4).
    exists k', Q', F'. split; [exact Hrun|]. split_and!; [done|done|by eapply keeps_trans|congruence].
Qed.

Lemma holds_ntemps k Q F f : holds k Q F → holds (k <| k_sys ::= λ y, y <| y_ntemps ::= f |> |>) Q F.
Proof. intros [[] H1 H2]. by split. Qed.

Lemma write_gc_ok y Q F s q l1 :
  wf y Q (F ++ F0) → y_stats y !! ET_GRANDCENTRAL = Some s → Q !! ET_GRANDCENTRAL = Some q → F ≠ [] →
  ∃ m pl Q', et_llist_write_gc (y_nevents y) (y_events y) (s_in s <| li_lock := true |>) F = Ret (ET_OK, m, pl) ∧
    let y' := set_station (set_station y ET_GRANDCENTRAL (λ s, s <| s_in := l1 |>)) ET_GRANDCENTRAL
                (λ s, s <| s_in := et_llist_unlock pl |>) <| y_events := m |> in
    wf y' Q' F0 ∧ keeps y y'.
Proof.
  intros Hw Hs Hq HF. destruct (wf_list _ _ _ _ _ Hw Hs) as (q' & Hq' & [Hc Hsp] & Hlock).
  assert (q' = q) as -> by congruence. pose proof (wf_count _ _ _ _ _ Hw Hq) as Hcnt.
  assert (in_list (y_events y) (s_in s <| li_lock := true |>) q) as Hin by (split; [exact Hc|]; by eapply spans_ext).
  pose proof (wf_disjoint _ _ _ _ _ Hw Hq) as Hnd. rewrite app_assoc in Hnd. apply list.NoDup_app in Hnd as (Hnd & _).
  pose proof (wf_known _ _ _ Hw) as Hk. apply Forall_app in Hk as [Hk _]. rewrite length_app in Hcnt.
  destruct (et_llist_write_gc_ok (y_nevents y) (y_events y) _ q F Hin Hnd Hk HF)
    as (m & pl & Hrun & [Hc' Hsp'] & Hm & Ho & _); [lia|].
  exists m, pl, (<[ET_GRANDCENTRAL := q ++ F]> Q). split; [exact Hrun|]. cbn zeta. rewrite set_station_twice by done.
  split; [|exact (keeps_written y ET_GRANDCENTRAL (et_llist_unlock pl) m Ho)].
  eapply wf_update; try done; [split; [exact Hc'|]; by eapply spans_ext| |by rewrite <- app_assoc].
  eapply moves_weaken; [exact Hm|]. clear. set_solver.
Qed.

Lemma put_grandcentral_ok k Q F s0 :
  holds k Q F → marks k F → F ≠ [] → (k_first k = true → F = all) → y_stats (k_sys k) !! ET_GRANDCENTRAL = Some s0 →
  ∃ k' Q', put_grandcentral env all k = Ret (true, k') ∧ holds k' Q' [] ∧ keeps (k_sys k) (k_sys k').
Proof.
  intros Hh Hmk HF Hfirst Hs0. unfold put_grandcentral.
  assert ((if k_first k then all else unput all (k_put k)) = F) as ->.
  { destruct (k_first k); [by rewrite Hfirst|]. by apply Hmk. }
  destruct F as [|x F]; [done|]. set (F1 := x :: F) in *. cbn zeta. set (f := λ n, n - _).
  pose proof (holds_ntemps k Q F1 f Hh) as Hh0. set (k0 := k <| k_sys ::= _ |>) in *.
  destruct (lock_input_ok k0 Q F1 ET_GRANDCENTRAL s0 Hh0 Hs0)
    as (k1 & Q1 & s & q & -> & Hh1 & Hk1 & Hput1 & Hf1 & Hl1 & Hle1 & Hs & Hsh & Hq & Hin).
  cbn [mbind res_bind]. set (l1 := s_in s <| li_lock := true |>).
  destruct (write_gc_ok (k_sys k1) Q1 F1 s q l1 (h_wf _ _ _ Hh1) Hs Hq HF) as (m & pl & Q' & Hrun & Hw & Hk).
  change (y_nevents (k_sys (set_input k1 ET_GRANDCENTRAL l1))) with (y_nevents (k_sys k1)).
  change (y_events (k_sys (set_input k1 ET_GRANDCENTRAL l1))) with (y_events (k_sys k1)).
  change (s_in (s <| s_in := l1 |>)) with l1. fold l1 in Hrun. rewrite Hrun. cbn [mbind res_bind].
  change (ET_OK =? ET_ERROR) with false. cbn iota. eexists _, Q'. split; [done|].
  split; [|eapply keeps_trans; [|exact Hk]; eapply keeps_trans; [|exact Hk1]; by split]. split; try done.
  cbn [update k_log]. rewrite fmap_app, concat_app. cbn. rewrite !app_nil_r. apply Hh1.
Qed.

(** A station, not GrandCentral, with a prescale. *)
Definition station_ok (y : et_system) (i : nat) : Prop :=
  i ≠ ET_GRANDCENTRAL ∧ ∃ s, y_stats y !! i = Some s ∧ c_prescale (s_config s) ≠ 0.

Lemma station_ok_keeps y y' i : keeps y y' → station_ok y i → station_ok y' i.
Proof.
  intros Hk (Hne & s & Hs & Hp). split; [done|]. destruct (keeps_lookup _ _ _ _ Hk Hs) as (s' & Hs' & Hsh).
  exists s'. split; [exact Hs'|]. unfold shape_of, place_of in Hsh. congruence.
Qed.

Lemma put_stations_ok k Q F l :
  holds k Q F → marks k F → F ≠ [] → (k_first k = true → F = all) →
  Forall (station_ok (k_sys k)) l →
  ∃ k' Q' F', put_stations env user_select all k l = Ret (true, k') ∧ holds k' Q' F' ∧ marks k' F' ∧
    keeps (k_sys k) (k_sys k').
Proof.
  revert k Q F. induction l as [|i l IH]; intros k Q F Hh Hmk HF Hfirst Hl; [by exists k, Q, F|].
  apply Forall_cons_1 in Hl as [(Hi & s & Hs & Hpre) Hl]. cbn [put_stations].
  destruct (put_station_ok k Q F i s Hh Hmk HF Hfirst Hs Hi Hpre) as (k1 & Q1 & F1 & -> & Hh1 & Hmk1 & Hk1 & _).
  cbn [mbind res_bind negb]. destruct l as [|j l]; [by exists k1, Q1, F1|]. cbn zeta.
  change (k_left (k1 <| k_first := false |>)) with (k_left k1).
  destruct (0 <? k_left k1) eqn:Hleft.
  2:{ exists (k1 <| k_first := false |>), Q1, F1. split_and!; [done| |done|done]. destruct Hh1. by split. }
  apply Z.ltb_lt in Hleft. destruct (IH (k1 <| k_first := false |>) Q1 F1) as (k2 & Q2 & F2 & Hrun & H1 & H2 & H3).
  - destruct Hh1. by split.
  - done.
  - intros ->. rewrite (h_left _ _ _ Hh1) in Hleft. done.
  - done.
  - eapply Forall_impl; [|exact Hl]. intros i'. by apply station_ok_keeps.
  - exists k2, Q2, F2. split_and!; [exact Hrun|done|done|by eapply keeps_trans].
Qed.

(** ** Equal cues *)

Definition exists_station (y : et_system) (i : nat) : Prop := is_Some (y_stats y !! i).

Lemma exists_keeps y y' i : keeps y y' → exists_station y i → exists_station y' i.
Proof. intros Hk [s Hs]. destruct (keeps_lookup _ _ _ _ Hk Hs) as (s' & Hs' & _). by exists s'. Qed.

(** [n] events, [pe], for the station [i]. *)
Lemma give_ok k Q F i pe F' n :
  holds k Q F → exists_station (k_sys k) i → pe ≠ [] → F ≡ₚ pe ++ F' → n = Z.of_nat (length pe) →
  ∃ k1 s k2 Q2, lock_input env k i = Ret (k1, s) ∧
    write_input k1 i (s_in s <| li_events_try ::= λ x, u64 (x + n) |>) pe (k_left k1 - n) = Ret (true, k2) ∧
    holds k2 Q2 F' ∧ keeps (k_sys k) (k_sys k2) ∧ k_first k2 = k_first k ∧ k_put k2 = k_put k.
Proof.
  intros Hh [s0 Hs0] Hne Hp Hn.
  destruct (lock_input_ok k Q F i s0 Hh Hs0)
    as (k1 & Q1 & s & q & Hlock & Hh1 & Hk1 & Hput1 & Hf1 & Hl1 & Hle1 & Hs & Hsh & Hq & Hin).
  set (l1 := s_in s <| li_lock := true |>) in *. set (left := k_left (set_input k1 i l1) - n).
  destruct (write_ok (k_sys k1) (set_input k1 i l1) Q1 F i s q pe F' (l1 <| li_events_try ::= λ x, u64 (x + n) |>) l1 left
    (h_wf _ _ _ Hh1) Hs Hq) as (k2 & Q2 & Hrun & Hw2 & Hleft & Hlog & Hput & Hfirst & Hkeep); try done.
  eexists _, _, k2, Q2. split; [exact Hlock|]. split; [exact Hrun|].
  split_and!; [|by eapply keeps_trans|by rewrite Hfirst|by rewrite Hput].
  eapply holds_written; [apply Hh1|exact Hp|exact Hw2| |exact Hlog].
  rewrite Hleft. unfold left. change (k_left (set_input k1 i l1)) with (k_left k1).
  rewrite (h_left _ _ _ Hh1), Hp, length_app. lia.
Qed.

Lemma share_ok k Q F l counts already :
  holds k Q F → (if k_first k then F = drop already all else marks k F) →
  Forall (exists_station (k_sys k)) l → length counts = length l → Forall (λ x, 0 ≤ x) counts →
  total counts = Z.of_nat (length F) →
  ∃ k' Q', share env all k l counts already = Ret (true, k') ∧ holds k' Q' [] ∧ keeps (k_sys k) (k_sys k').
Proof.
  revert k Q F counts already. induction l as [|i l IH]; intros k Q F [|n counts] already Hh Hm Hl Hlen Hpos Htot; try done.
  { cbn in Htot. assert (F = []) as -> by (destruct F; [done|cbn in Htot; lia]). by exists k, Q. }
  apply Forall_cons_1 in Hl as [Hi Hl]. apply Forall_cons_1 in Hpos as [Hn Hpos]. injection Hlen as Hlen.
  cbn [share total] in *. assert (0 ≤ total counts) as Ht0.
  { clear -Hpos. induction Hpos; cbn; lia. }
  destruct (n <? 1) eqn:Hn1.
  { apply Z.ltb_lt in Hn1. apply (IH k Q F); try done. lia. }
  apply Z.ltb_ge in Hn1. set (d := Z.to_nat n). assert (n = Z.of_nat d) as Hnd by lia.
  assert (d ≤ length F)%nat as Hd by lia.
  set (sel := if k_first k then _ else _).
  assert (∃ k0, sel = (take d F, k0) ∧ holds k0 Q F ∧ k_sys k0 = k_sys k ∧ k_first k0 = k_first k ∧
            (if k_first k then drop d F = drop (already + d) all else marks k0 (drop d F)))
    as (k0 & -> & Hh0 & Hsys & Hf0 & Hm0).
  { unfold sel. destruct (k_first k) eqn:Hf.
    - subst F. exists k. rewrite drop_drop. by split_and!.
    - assert (F ≠ []) as HF by (intros ->; cbn in Hd; lia). destruct (Hm HF) as [Hplen Hpun].
      pose proof (select_first d all (k_put k) Hplen) as H. rewrite Hpun in H. rewrite Hnd.
      specialize (H ltac:(lia)). clear sel.
      destruct (select_nonblocking (λ _, true) (Z.of_nat d) all (k_put k)) as [pe p].
      destruct H as (H1 & -> & H2).
      eexists. split; [done|]. split_and!; [destruct Hh; by split|done|exact Hf|]. intros _. by split. }
  assert (exists_station (k_sys k0) i) as Hi0 by by rewrite Hsys.
  destruct (give_ok k0 Q F i (take d F) (drop d F) n Hh0 Hi0) as (k1 & s & k2 & Q2 & -> & Hrun & Hh2 & Hk2 & Hf2 & Hp2).
  - intros E. apply (f_equal length) in E. rewrite length_take in E. cbn in E. lia.
  - by rewrite take_drop.
  - rewrite length_take. lia.
  - cbn [mbind res_bind]. rewrite Hrun. cbn [mbind res_bind negb]. rewrite Hsys in Hk2.
    destruct (IH k2 Q2 (drop d F) counts (already + d)%nat Hh2) as (k3 & Q3 & Hrun3 & Hh3 & Hk3).
    + rewrite Hf2, Hf0. destruct (k_first k); [done|]. unfold marks in *. by rewrite Hp2.
    + eapply Forall_impl; [|exact Hl]. intros j. by apply exists_keeps.
    + done.
    + done.
    + rewrite length_drop. lia.
    + exists k3, Q3. split_and!; [exact Hrun3|done|by eapply keeps_trans].
Qed.

Lemma mapM_ret {A B} (f : A → res B) l :
  Forall (λ x, ∃ y, f x = Ret y) l → ∃ ys, mapM f l = Ret ys ∧ length ys = length l.
Proof.
  induction 1 as [|x l (y & Hy) _ (ys & IH & Hlen)]; [by exists []|]. exists (y :: ys). cbn.
  rewrite Hy. cbn. rewrite IH. cbn. by rewrite Hlen.
Qed.

Lemma equal_cues_ok k Q F actives :
  holds k Q F → marks k F → F ≠ [] → (k_first k = true → F = all) →
  actives ≠ [] → Forall (exists_station (k_sys k)) actives →
  ∃ k' Q', equal_cues env all k actives = Ret (true, k') ∧ holds k' Q' [] ∧ keeps (k_sys k) (k_sys k').
Proof.
  intros Hh Hm HF Hfirst Hne Hl. unfold equal_cues.
  assert (∃ counts, mapM (λ i, s ← station (k_sys k) i; Ret (li_cnt (s_in s))) actives = Ret counts ∧
            length counts = length actives) as (counts & -> & Hlen).
  { apply mapM_ret. eapply Forall_impl; [|exact Hl]. intros i [s Hs]. unfold station. rewrite Hs. by eexists. }
  cbn [mbind res_bind]. rewrite (h_left _ _ _ Hh).
  destruct (equal_cue_ok counts (Z.of_nat (length F))) as (nums & -> & H1 & H2 & H3 & _);
    [by intros ->; destruct actives|lia|].
  cbn [mbind res_bind]. apply (share_ok k Q F); try done; [|congruence].
  destruct (k_first k); [|done]. by rewrite Hfirst.
Qed.

(** ** Round robin *)

(** A station changes, but not its lists. *)
Lemma holds_set k Q F i f :
  holds k Q F → (∀ s, s_in (f s) = s_in s) → (∀ s, s_out (f s) = s_out s) → holds (k <| k_sys ::= λ y, set_station y i f |>) Q F.
Proof. intros [Hw H1 H2] Hf Hf'. split; try done. by apply wf_set. Qed.

Lemma deal_ok k Q F l counts c last pes :
  holds k Q F → F ≡ₚ pes → Forall (exists_station (k_sys k)) l → length counts = length l →
  Forall (λ x, 0 ≤ x) counts → total counts = Z.of_nat (length pes) →
  ∃ k' Q', deal env k l counts c last pes = Ret (true, k') ∧ holds k' Q' [] ∧ keeps (k_sys k) (k_sys k').
Proof.
  revert k Q F counts c pes.
  induction l as [|i l IH]; intros k Q F [|n counts] c pes Hh Hp Hl Hlen Hpos Htot; try done.
  { cbn in Htot. assert (pes = []) as -> by (destruct pes; [done|cbn in Htot; lia]).
    apply Permutation_nil_r in Hp as ->. by exists k, Q. }
  apply Forall_cons_1 in Hl as [Hi Hl]. apply Forall_cons_1 in Hpos as [Hn Hpos]. injection Hlen as Hlen.
  cbn [deal total] in *. assert (0 ≤ total counts) as Ht0 by (clear -Hpos; induction Hpos; cbn; lia).
  set (k0 := if c =? last then _ else k).
  assert (holds k0 Q F ∧ keeps (k_sys k) (k_sys k0)) as [Hh0 Hk0].
  { unfold k0. destruct (c =? last); [|done]. split; [by apply holds_set|by apply keeps_set]. }
  assert (Forall (exists_station (k_sys k0)) l) as Hl0.
  { eapply Forall_impl; [|exact Hl]. intros j. by apply exists_keeps. }
  destruct (0 <? n) eqn:Hn0.
  - apply Z.ltb_lt in Hn0.
    destruct (give_ok k0 Q F i (take (Z.to_nat n) pes) (drop (Z.to_nat n) pes) n Hh0) as (k1 & s & k2 & Q2 & -> & Hrun & Hh2 & Hk2 & _).
    + by eapply exists_keeps.
    + intros E. apply (f_equal length) in E. rewrite length_take in E. cbn in E. lia.
    + by rewrite take_drop.
    + rewrite length_take. lia.
    + cbn [mbind res_bind]. rewrite Hrun. cbn [mbind res_bind negb].
      destruct (IH k2 Q2 (drop (Z.to_nat n) pes) counts (c + 1) (drop (Z.to_nat n) pes) Hh2) as (k3 & Q3 & Hrun3 & Hh3 & Hk3);
        try done.
      * eapply Forall_impl; [|exact Hl0]. intros j. by apply exists_keeps.
      * rewrite length_drop. lia.
      * exists k3, Q3. split_and!; [exact Hrun3|done|]. eapply keeps_trans; [exact Hk0|by eapply keeps_trans].
  - apply Z.ltb_ge in Hn0. destruct (IH k0 Q F counts (c + 1) pes) as (k3 & Q3 & Hrun3 & Hh3 & Hk3); try done; [lia|].
    exists k3, Q3. split_and!; [exact Hrun3|done|by eapply keeps_trans].
Qed.

Lemma find_start_ok y Q F l looking start :
  wf y Q F → (∀ i, start = Some i → is_active y i = true) →
  let '(y', start') := find_start y l looking start in
  wf y' Q F ∧ keeps y y' ∧ y_events y' = y_events y ∧
  (∀ i, start' = Some i → (start = Some i ∨ i ∈ l) ∧ is_active y i = true).
Proof.
  revert y looking start. induction l as [|i l IH]; intros y looking start Hw Hstart; cbn [find_start].
  { split_and!; try done. intros i Hi. split; [by left|by apply Hstart]. }
  set (p := if is_active y i && looking then _ else _).
  assert (∃ looking1 start1, p = (looking1, start1) ∧
    ∀ j, start1 = Some j → (start = Some j ∨ j = i) ∧ is_active y j = true) as (looking1 & start1 & -> & Hs1).
  { unfold p. destruct (is_active y i && looking) eqn:E; eexists _, _; (split; [done|]).
    - intros j [= <-]. apply andb_true_iff in E as [E _]. split; [by right|done].
    - intros j Hj. split; [by left|by apply Hstart]. }
  assert (∀ s1 (y1 : et_system) lk, wf y1 Q F → keeps y y1 → y_events y1 = y_events y → s1 = start1 →
            (∀ j, is_active y1 j = is_active y j) →
            let '(y', start') := find_start y1 l lk s1 in
            wf y' Q F ∧ keeps y y' ∧ y_events y' = y_events y ∧
            (∀ j, start' = Some j → (start = Some j ∨ j ∈ i :: l) ∧ is_active y j = true)) as Hrec.
  { intros s1 y1 lk Hw1 Hk1 He1 -> Ha1.
    assert (∀ j, start1 = Some j → is_active y1 j = true) as Hs2 by (intros j Hj; rewrite Ha1; by apply Hs1).
    specialize (IH y1 lk start1 Hw1 Hs2). destruct (find_start y1 l lk start1) as [y' start'].
    destruct IH as (G1 & G2 & G3 & G4). split_and!; [done|by eapply keeps_trans|congruence|].
    intros j Hj. destruct (G4 j Hj) as [[Hj1|Hj1] Hj2]; rewrite Ha1 in Hj2; (split; [|done]).
    - destruct (Hs1 j Hj1) as [[H| ->] _]; [by left|right; by left].
    - right. by right. }
  destruct (y_stats y !! i) as [s|] eqn:Hs; [|by apply Hrec]. destruct (s_waslast s =? 1); [|by apply Hrec].
  apply Hrec; [by apply wf_set|by apply keeps_set|done|done|].
  intros j. unfold is_active, set_station. fields. destruct (decide (j = i)) as [->|Hne].
  - rewrite list_lookup_alter_eq, Hs. done.
  - by rewrite list_lookup_alter_ne.
Qed.

Lemma round_robin_ok k Q F group actives :
  holds k Q F → k_first k = true → F = all → actives = filter (λ i, is_active (k_sys k) i = true) group →
  actives ≠ [] → Forall (exists_station (k_sys k)) group → k_left k = Z.of_nat (length all) →
  ∃ k' Q', round_robin env all k group actives = Ret (true, k') ∧ holds k' Q' [] ∧ keeps (k_sys k) (k_sys k').
Proof.
  intros Hh Hf HF Hact Hne Hg Hleft. unfold round_robin.
  pose proof (find_start_ok (k_sys k) Q (F ++ F0) group false None (h_wf _ _ _ Hh) ltac:(done)) as Hfs.
  destruct (find_start (k_sys k) group false None) as [y' start']. destruct Hfs as (Hw' & Hk' & He' & Hs').
  set (n := length actives). assert (0 < n)%nat as Hn by (unfold n; destruct actives; [done|cbn; lia]).
  assert (Forall (exists_station (k_sys k)) actives) as Hex.
  { subst actives. apply Forall_forall. intros i Hi%list_elem_of_In%list_elem_of_filter.
    rewrite Forall_forall in Hg. apply Hg, list_elem_of_In. by destruct Hi. }
  assert (∃ start, of_option (match start' with Some i => Some i | None => head actives end) = Ret start ∧ start ∈ actives)
    as (start & -> & Hstart).
  { destruct start' as [i|].
    - exists i. split; [done|]. destruct (Hs' i eq_refl) as [[?|Hi] Ha]; [done|]. subst actives. by apply list_elem_of_filter.
    - destruct actives as [|i t]; [done|]. exists i. split; [done|by left]. }
  cbn zeta. cbn [mbind res_bind]. change (k_left (k <| k_sys := y' |>)) with (k_left k).
  change (k_first (k <| k_sys := y' |>)) with (k_first k). change (k_put (k <| k_sys := y' |>)) with (k_put k).
  rewrite Hleft, Hf, <- Nat2Z.inj_div, <- Nat2Z.inj_mod.
  destruct (deal_events_perm all (k_put k) n Hn) as (pes & -> & Hp). cbn [mbind res_bind].
  pose proof (Nat.mod_upper_bound (length all) n ltac:(lia)) as Hm. pose proof (Nat.div_mod_eq (length all) n) as Hd.
  destruct (deal_counts_ok (Z.of_nat (length all / n)) (Z.of_nat (length all mod n)) n) as (H1 & H2 & H3); [lia..|].
  assert (holds (k <| k_sys := y' |>) Q F) as Hh' by (destruct Hh; by split).
  destruct (deal_ok (k <| k_sys := y' |>) Q F (rotate start [] actives)
    (deal_counts (Z.of_nat (length all / n)) (Z.of_nat (length all mod n)) n) 0
    (if Z.of_nat (length all mod n) =? 0 then Z.of_nat n - 1 else Z.of_nat (length all mod n) - 1) pes Hh')
    as (k2 & Q2 & Hrun & Hh2 & Hk2).
  - by rewrite HF, Hp.
  - rewrite rotate_perm by done. cbn [app]. eapply Forall_impl; [|exact Hex]. intros i. by apply exists_keeps.
  - rewrite H1. by rewrite (Permutation_length (rotate_perm _ _ _ Hstart)).
  - done.
  - rewrite H3, (Permutation_length Hp). nia.
  - exists k2, Q2. split_and!; [exact Hrun|done|by eapply keeps_trans].
Qed.

(** ** Along the stations *)

Definition takes_turns (y : et_system) (i : nat) : Prop :=
  ∃ s, y_stats y !! i = Some s ∧ c_flow_mode (s_config s) = ET_STATION_PARALLEL ∧
       c_select_mode (s_config s) = ET_STATION_SELECT_RROBIN.

(** The stations of a group that [i] heads. *)
Definition group_ok (y : et_system) (i : nat) : Prop :=
  (∃ s, y_stats y !! i = Some s ∧ c_flow_mode (s_config s) ≠ ET_STATION_PARALLEL) ∨
  ∃ g, parallels (y_stats y) i (S (length (y_stats y))) = Ret g ∧ Forall (station_ok y) g.

(** The main list from a station on, back to GrandCentral. *)
Fixpoint route (y : et_system) (l : list nat) : Prop :=
  match l with
  | [] => False
  | i :: l =>
      match l with
      | [] => i = ET_GRANDCENTRAL
      | j :: _ => station_ok y i ∧ group_ok y i ∧ next_station (y_stats y) i = Ret j
      end ∧ (l = [] ∨ route y l)
  end.

Definition grandcentral_ok (y : et_system) : Prop :=
  is_active y ET_GRANDCENTRAL = true ∧
  ∃ s, y_stats y !! ET_GRANDCENTRAL = Some s ∧ c_flow_mode (s_config s) = ET_STATION_SERIAL.

Lemma next_keeps y y' i : keeps y y' → next_station (y_stats y') i = next_station (y_stats y) i.
Proof.
  intros Hk. unfold next_station. destruct (y_stats y !! i) as [s|] eqn:Hs.
  - destruct (keeps_lookup _ _ _ _ Hk Hs) as (s' & -> & Hsh). cbn. unfold shape_of, place_of in Hsh.
    assert (s_next s' = s_next s) as -> by congruence. done.
  - apply lookup_ge_None in Hs. rewrite <- (shape_length _ _ (kp_shape _ _ Hk)) in Hs.
    apply lookup_ge_None in Hs. by rewrite Hs.
Qed.

Lemma group_head_keeps y y' i fuel : keeps y y' → group_head (y_stats y') i fuel = group_head (y_stats y) i fuel.
Proof.
  intros Hk. revert i. induction fuel as [|fuel IH]; intros i; [done|]. cbn.
  destruct (y_stats y !! i) as [s|] eqn:Hs.
  - destruct (keeps_lookup _ _ _ _ Hk Hs) as (s' & -> & Hsh). cbn. unfold shape_of, place_of in Hsh.
    assert (s_prevparallel s' = s_prevparallel s) as -> by congruence. by rewrite IH.
  - apply lookup_ge_None in Hs. rewrite <- (shape_length _ _ (kp_shape _ _ Hk)) in Hs.
    apply lookup_ge_None in Hs. by rewrite Hs.
Qed.

Lemma first_station_keeps y y' i : keeps y y' → first_station (y_stats y') i = first_station (y_stats y) i.
Proof.
  intros Hk. unfold first_station. destruct (y_stats y !! i) as [s|] eqn:Hs.
  - destruct (keeps_lookup _ _ _ _ Hk Hs) as (s' & -> & Hsh). cbn [of_option mbind res_bind]. unfold shape_of, place_of in Hsh.
    assert (s_config s' = s_config s) as -> by congruence.
    rewrite (group_head_keeps y y'), (shape_length _ _ (kp_shape _ _ Hk)), (next_keeps y y') by done.
    destruct (c_flow_mode (s_config s) =? ET_STATION_PARALLEL); [|done]. destruct (group_head _ _ _); cbn [mbind res_bind]; try done. by apply next_keeps.
  - apply lookup_ge_None in Hs. rewrite <- (shape_length _ _ (kp_shape _ _ Hk)) in Hs.
    apply lookup_ge_None in Hs. by rewrite Hs.
Qed.

Lemma parallels_keeps y y' i fuel : keeps y y' → parallels (y_stats y') i fuel = parallels (y_stats y) i fuel.
Proof.
  intros Hk. revert i. induction fuel as [|fuel IH]; intros i; [done|]. cbn.
  destruct (y_stats y !! i) as [s|] eqn:Hs.
  - destruct (keeps_lookup _ _ _ _ Hk Hs) as (s' & -> & Hsh). cbn. unfold shape_of, place_of in Hsh.
    assert (s_nextparallel s' = s_nextparallel s) as -> by congruence. by rewrite IH.
  - apply lookup_ge_None in Hs. rewrite <- (shape_length _ _ (kp_shape _ _ Hk)) in Hs.
    apply lookup_ge_None in Hs. by rewrite Hs.
Qed.

Lemma group_ok_keeps y y' i : keeps y y' → group_ok y i → group_ok y' i.
Proof.
  intros Hk [(s & Hs & Hf)|(g & Hg & Hl)].
  - left. destruct (keeps_lookup _ _ _ _ Hk Hs) as (s' & Hs' & Hsh). exists s'. split; [done|].
    unfold shape_of, place_of in Hsh. congruence.
  - right. exists g. rewrite (parallels_keeps y y'), (shape_length _ _ (kp_shape _ _ Hk)) by done. split; [done|].
    eapply Forall_impl; [|exact Hl]. intros j. by apply station_ok_keeps.
Qed.

Lemma route_keeps y y' l : keeps y y' → route y l → route y' l.
Proof.
  intros Hk. induction l as [|i l IH]; [done|]. cbn. intros [Hi Hl]. split.
  - destruct l as [|j l]; [done|]. destruct Hi as (H1 & H2 & H3). rewrite (next_keeps y y') by done.
    split_and!; [by eapply station_ok_keeps|by eapply group_ok_keeps|done].
  - destruct Hl as [Hl|Hl]; [by left|right; by apply IH].
Qed.

Lemma turns_keeps y y' i : keeps y y' → takes_turns y' i → takes_turns y i.
Proof.
  intros Hk (s' & Hs' & H1 & H2). destruct (y_stats y !! i) as [s|] eqn:Hs.
  - destruct (keeps_lookup _ _ _ _ Hk Hs) as (s1 & Hs1 & Hsh). exists s. assert (s1 = s') as -> by congruence.
    unfold shape_of, place_of in Hsh. split_and!; [done|congruence|congruence].
  - apply lookup_ge_None in Hs. rewrite <- (shape_length _ _ (kp_shape _ _ Hk)) in Hs.
    apply lookup_ge_None in Hs. congruence.
Qed.

Lemma grandcentral_keeps y y' : keeps y y' → grandcentral_ok y → grandcentral_ok y'.
Proof.
  intros Hk (Ha & s & Hs & Hf). split; [by apply Hk|].
  destruct (keeps_lookup _ _ _ _ Hk Hs) as (s' & Hs' & Hsh). exists s'. split; [done|].
  unfold shape_of, place_of in Hsh. congruence.
Qed.

(** GrandCentral gets what is left. *)
Lemma visit_grandcentral k Q F :
  holds k Q F → marks k F → F ≠ [] → (k_first k = true → F = all) → grandcentral_ok (k_sys k) →
  ∃ k' Q', visit env user_select all k ET_GRANDCENTRAL = Ret (true, k') ∧ holds k' Q' [] ∧ keeps (k_sys k) (k_sys k').
Proof.
  intros Hh Hm HF Hfirst Hgc. destruct (interfere_ok k Q F Hh) as (Q1 & Hh1 & Hk1).
  pose proof (grandcentral_keeps _ _ Hk1 Hgc) as (Ha & s & Hs & Hf).
  unfold visit, station. cbn zeta. rewrite Hs. cbn [of_option mbind res_bind]. rewrite Hf.
  change (ET_STATION_SERIAL =? ET_STATION_PARALLEL) with false. cbn iota. cbn [mbind res_bind].
  unfold is_active in Ha. rewrite Hs in Ha. cbn. rewrite Ha.
  destruct (put_grandcentral_ok (interfere env k) Q1 F s Hh1 Hm HF Hfirst Hs) as (k2 & Q2 & Hrun & Hh2 & Hk2).
  cbn in Hrun. rewrite Hrun. cbn. exists k2, Q2. split_and!; [done|done|by eapply keeps_trans].
Qed.

Lemma visit_ok k Q F i :
  holds k Q F → marks k F → F ≠ [] → (k_first k = true → F = all) → station_ok (k_sys k) i → group_ok (k_sys k) i →
  (k_first k = true ∨ ¬ takes_turns (k_sys k) i) →
  ∃ k' Q' F', visit env user_select all k i = Ret (true, k') ∧ holds k' Q' F' ∧ marks k' F' ∧ keeps (k_sys k) (k_sys k').
Proof.
  intros Hh Hm HF Hfirst Hok Hg Hturn. destruct (interfere_ok k Q F Hh) as (Q1 & Hh1 & Hk1).
  pose proof (station_ok_keeps _ _ _ Hk1 Hok) as Hok1. pose proof (group_ok_keeps _ _ _ Hk1 Hg) as Hg1.
  assert (k_first (interfere env k) = true ∨ ¬ takes_turns (k_sys (interfere env k)) i) as Hturn1.
  { destruct Hturn as [H|H]; [by left|right]. intros Ht. apply H. by eapply turns_keeps. }
  assert (∀ k1, keeps (k_sys (interfere env k)) (k_sys k1) → keeps (k_sys k) (k_sys k1)) as Htr
    by (intros k1; by apply keeps_trans).
  unfold visit. cbn zeta. set (k1 := interfere env k) in *. assert (marks k1 F) as Hm1 by exact Hm.
  assert (k_first k1 = true → F = all) as Hfirst1 by exact Hfirst.
  clearbody k1. clear Hh Hm Hfirst Hok Hg Hturn Hk1 Q. pose proof Hok1 as (Hne & s & Hs & Hpre).
  unfold station. rewrite Hs. cbn [of_option mbind res_bind].
  assert (∃ g, (if c_flow_mode (s_config s) =? ET_STATION_PARALLEL then
             parallels (y_stats (k_sys k1)) i (S (length (y_stats (k_sys k1)))) else Ret []) = Ret g ∧
             Forall (station_ok (k_sys k1)) g ∧ (g ≠ [] → c_flow_mode (s_config s) = ET_STATION_PARALLEL))
    as (g & -> & Hgl & Hgp).
  { destruct (_ =? ET_STATION_PARALLEL) eqn:Hp; [|by exists []]. apply Z.eqb_eq in Hp.
    destruct Hg1 as [(s' & Hs' & Hf)|(g & Hg & Hl)]; [congruence|by exists g]. }
  cbn [mbind res_bind]. set (actives := filter _ g).
  assert (Forall (station_ok (k_sys k1)) actives) as Hal.
  { unfold actives. apply Forall_forall. intros j [_ Hj]%list_elem_of_In%list_elem_of_filter.
    rewrite Forall_forall in Hgl. by apply Hgl, list_elem_of_In. }
  assert (∀ l, Forall (station_ok (k_sys k1)) l → Forall (exists_station (k_sys k1)) l) as Hex.
  { intros l. apply Forall_impl. intros j (_ & s' & Hs' & _). by exists s'. }
  destruct (bool_decide (actives = [])) eqn:Hact; cbn [negb andb].
  - destruct (s_status s =? ET_STATION_ACTIVE); [|exists k1, Q1, F; split_and!; [done..|by apply Htr]].
    destruct (put_stations_ok k1 Q1 F [i] Hh1 Hm1 HF Hfirst1) as (k2 & Q2 & F2 & Hrun & H1 & H2 & H3);
      [constructor; [exact Hok1|constructor]|]. exists k2, Q2, F2. split_and!; [done..|by apply Htr].
  - apply bool_decide_eq_false in Hact. assert (g ≠ []) as Hgne by by intros ->. specialize (Hgp Hgne).
    destruct (c_select_mode (s_config s) =? ET_STATION_SELECT_RROBIN) eqn:Hrr; cbn [orb].
    + apply Z.eqb_eq in Hrr. destruct Hturn1 as [Hf|Ht]; [|exfalso; apply Ht; by exists s].
      pose proof (h_left _ _ _ Hh1) as Hleft. rewrite (Hfirst1 Hf) in Hleft.
      destruct (round_robin_ok k1 Q1 F g actives) as (k2 & Q2 & Hrun & H1 & H2); try done; [by apply Hfirst1|by apply Hex|].
      exists k2, Q2, []. split_and!; [done|done|done|by apply Htr].
    + destruct (_ =? ET_STATION_SELECT_EQUALCUE).
      * destruct (equal_cues_ok k1 Q1 F actives) as (k2 & Q2 & Hrun & H1 & H2); try done; [by apply Hex|].
        exists k2, Q2, []. split_and!; [done|done|done|by apply Htr].
      * destruct (put_stations_ok k1 Q1 F actives) as (k2 & Q2 & F2 & Hrun & H1 & H2 & H3); try done.
        exists k2, Q2, F2. split_and!; [done..|by apply Htr].
Qed.

Lemma distribute_ok k Q F i l fuel :
  holds k Q F → marks k F → (k_first k = true → F = all) → grandcentral_ok (k_sys k) →
  route (k_sys k) (i :: l) → (k_first k = true ∨ ¬ takes_turns (k_sys k) i) →
  Forall (λ j, ¬ takes_turns (k_sys k) j) l → (length l < fuel)%nat →
  ∃ k' Q', distribute env user_select all k i fuel = Ret (true, k') ∧ holds k' Q' [] ∧ keeps (k_sys k) (k_sys k').
Proof.
  revert k Q F i l. induction fuel as [|fuel IH]; intros k Q F i l Hh Hm Hfirst Hgc Hr Hturn Hl Hfuel; [lia|].
  cbn [distribute]. destruct (0 <? k_left k) eqn:Hleft; cbn [negb].
  2:{ apply Z.ltb_ge in Hleft. rewrite (h_left _ _ _ Hh) in Hleft. destruct F; [|cbn in Hleft; lia]. by exists k, Q. }
  apply Z.ltb_lt in Hleft. assert (F ≠ []) as HF by (intros ->; rewrite (h_left _ _ _ Hh) in Hleft; done).
  destruct Hr as [Hi Hr]. destruct l as [|j l].
  - subst i. destruct (visit_grandcentral k Q F Hh Hm HF Hfirst Hgc) as (k' & Q' & -> & H1 & H2).
    cbn. by exists k', Q'.
  - destruct Hi as (Hok & Hg & Hnext). destruct Hr as [?|Hr]; [done|].
    destruct (visit_ok k Q F i Hh Hm HF Hfirst Hok Hg Hturn) as (k1 & Q1 & F1 & -> & Hh1 & Hm1 & Hk1).
    cbn [mbind res_bind negb]. rewrite (proj2 (Nat.eqb_neq _ _) (proj1 Hok)).
    rewrite (next_keeps _ _ i Hk1), Hnext. cbn [mbind res_bind].
    apply Forall_cons_1 in Hl as [Hj Hl].
    destruct (IH (k1 <| k_first := false |>) Q1 F1 j l) as (k2 & Q2 & Hrun & H1 & H2); try done.
    + destruct Hh1. by split.
    + by eapply grandcentral_keeps.
    + by eapply route_keeps.
    + right. intros Ht. apply Hj. by eapply turns_keeps.
    + eapply Forall_impl; [|exact Hl]. intros x Hx Ht. apply Hx. by eapply turns_keeps.
    + cbn in Hfuel. lia.
    + exists k2, Q2. split_and!; [exact Hrun|done|by eapply keeps_trans].
Qed.
End Holds.

(** ** One turn of a conductor *)

(** The output list of a station is taken by its conductor. *)
Lemma wf_flight y Q F me s all :
  wf y Q F → y_stats y !! me = Some s → Q !! out_place y me = Some all →
  wf (set_station y me (λ s, s <| s_out := et_llist_unlock
        (s_out s <| li_lock := true |> <| li_first := None |> <| li_cnt := 0 |> <| li_lasthigh := 0 |>
           <| li_events_out ::= λ x, u64 (x + li_cnt (s_out s)) |>) |>))
     (<[out_place y me := []]> Q) (all ++ F).
Proof.
  intros Hw Hs Hq. set (f := λ s, s <| s_out := _ |>).
  apply (wf_step y _ Q F (out_place y me) all (s_out (f s)) [] (all ++ F) [] [] 0); rewrite ?app_nil_r; try done.
  - by eapply lists_set_out.
  - split; [done|]. split; [constructor|done|done|done].
  - intros _. split; [constructor|done].
  - constructor.
  - intros x Hx. by apply elem_of_nil in Hx.
  - constructor.
Qed.

Lemma conductor_ok env user_select `{!Interference env} y me s all Q F i l :
  y_stats y !! me = Some s → wf y Q F → Q !! out_place y me = Some all → all ≠ [] →
  first_station (y_stats y) me = Ret i → route y (i :: l) → grandcentral_ok y →
  Forall (λ j, ¬ takes_turns y j) l → (length l ≤ length (y_stats y))%nat →
  ∃ y' log Q', et_conductor env user_select y me = Ret (true, y', log) ∧
    concat (snd <$> log) ≡ₚ all ∧ wf y' Q' F ∧ keeps y y'.
Proof.
  intros Hs Hw0 Hq Hne Hfirst Hr Hgc Hl Hlen. unfold et_conductor, station, et_llist_lock. rewrite Hs.
  destruct (wf_out _ _ _ _ _ Hw0 Hs) as (q & Hq' & [Hin _ _] & Hlock). assert (q = all) as -> by congruence.
  cbn [of_option mbind res_bind]. rewrite Hlock. cbn [mbind res_bind].
  assert (in_list (y_events y) (s_out s <| li_lock := true |>) all) as Hin'.
  { destruct Hin as [H1 H2]. split; [exact H1|]. by eapply spans_ext. }
  rewrite (et_llist_read_ok _ _ _ Hin' Hne). cbn [mbind res_bind].
  replace (_ <? 0) with false by (symmetry; apply Z.ltb_ge; lia).
  set (y1 := set_station y me _).
  assert (wf y1 (<[out_place y me := []]> Q) (all ++ F)) as Hw.
  { pose proof (wf_flight y Q F me s all Hw0 Hs Hq) as H. unfold y1. erewrite set_station_ext; [exact H|exact Hs|done]. }
  assert (keeps y y1) as Hk1 by by apply keeps_set.
  assert (first_station (y_stats y1) me = Ret i) as -> by by rewrite (first_station_keeps y y1).
  cbn [mbind res_bind]. set (k := mkConduct _ _ _ _ _ _).
  destruct (distribute_ok env user_select all F k (<[out_place y me := []]> Q) all i l (S (length (y_stats y1)))) as (k' & Q' & Hrun & Hh & Hk); try done.
  - intros _. unfold k. cbn [k_put]. split; [apply length_replicate|apply unput_none].
  - by eapply grandcentral_keeps.
  - by eapply route_keeps.
  - by left.
  - eapply Forall_impl; [|exact Hl]. intros j Hj Ht. apply Hj. by eapply turns_keeps.
  - rewrite (shape_length _ _ (kp_shape _ _ Hk1)). lia.
  - rewrite Hrun. cbn [mbind res_bind]. eexists _, _, Q'. split; [done|].
    pose proof (h_log _ _ _ _ _ Hh) as Hlog. rewrite app_nil_r in Hlog.
    split_and!; [exact Hlog|apply (h_wf _ _ _ _ _ Hh)|by eapply keeps_trans].
Qed.
End Sparing.
