(* ===== verification/EtDistribution.v ===== *)
(** * Distributing events: the theorems, and systems they apply to *)

From S2P Require Import Prelude Words EtTypes EtLists EtSegments EtListSpec EtStationSpec EtReadSpec.
From S2P Require Import EtShellSort EtEqualCue EtConductor EtRoundRobin EtSystemInv EtConductorSpec.

#[export] Instance quiet_interferes {K : Sparing} : Interference (λ _ y, y).
Proof. split. intros k y Q F Hw. split; [by exists Q|apply keeps_refl]. Qed.

(** ** One turn of a conductor *)


(** ** Examples *)

(** Events chained one after the other. *)
Definition chain_of (l : list nat) : evs :=
  list_to_map (zip l (map (λ p, et_init_event <| e_next := p |>) (map Some (tail l) ++ [None]))).

Definition list_of (l : list nat) : et_list :=
  fresh_list <| li_cnt := Z.of_nat (length l) |> <| li_first := head l |> <| li_last := last l |>.

Definition configured (flow block prescale cue mode : Z) : et_stat_config :=
  mkStatConfig flow ET_STATION_USER_MULTI ET_STATION_RESTORE_OUT block prescale cue mode (replicate 6 (-1)) ET_STRUCT_OK [] [] [].

Definition a_station (num next prev nextparallel prevparallel : Z) (c : et_stat_config) : et_station :=
  fresh_station <| s_num := num |> <| s_next := next |> <| s_prev := prev |>
    <| s_nextparallel := nextparallel |> <| s_prevparallel := prevparallel |>
    <| s_status := ET_STATION_ACTIVE |> <| s_config := c |>.

(** GrandCentral, a station that takes at most [cue] events, and two parallel ones that get
    the rest; GrandCentral has the events 0 to 3 in its output list and 4 to 7 in its input
    list. *)
Definition small_system (cue mode : Z) : et_system :=
  mkSys 8 1000 4 4 4 4 0 0 2 (chain_of (seq 0 4) ∪ chain_of (seq 4 4))
    [ a_station 0 1 (-1) (-1) (-1) (configured ET_STATION_SERIAL ET_STATION_BLOCKING 1 10 ET_STATION_SELECT_ALL)
        <| s_out := list_of (seq 0 4) |> <| s_in := list_of (seq 4 4) |>;
      a_station 1 2 0 (-1) (-1) (configured ET_STATION_SERIAL ET_STATION_NONBLOCKING 1 cue ET_STATION_SELECT_ALL);
      a_station 2 (-1) 1 3 (-1) (configured ET_STATION_PARALLEL ET_STATION_BLOCKING 1 10 mode);
      a_station 3 (-1) (-1) (-1) 2 (configured ET_STATION_PARALLEL ET_STATION_BLOCKING 1 10 mode) ]
    (replicate 4 et_init_attachment) (replicate 9 0) [] 0 100 false false.

(** The events of all attachments are left alone. *)
#[local] Instance spare_all : Sparing := λ _, True.

(** Proofs by evaluation. *)
Ltac decided := apply (bool_decide_unpack _); vm_compute; exact I.
Ltac check_links := vm_compute; repeat (first [exact I | reflexivity | split | eexists]).

Lemma listed m pl l : pl = list_of l → NoDup l → linked (nexts m) l → in_list m pl l.
Proof. intros -> Hn Hl. split; [done|]. by split. Qed.

Lemma small_wf cue mode : wf (small_system cue mode) [seq 4 4; []; []; []; seq 0 4; []; []; []] [].
Proof.
  assert (∀ l m, l = [] → in_list m fresh_list l ∧ li_lock fresh_list = false) as Hnil.
  { intros l m ->. split; [|done]. apply listed; [done|constructor|exact I]. }
  split.
  - constructor; [split; [|done]; apply listed; [done|decided|check_links]|]. do 3 (constructor; [by apply Hnil|]).
    constructor; [split; [|done]; apply listed; [done|decided|check_links]|]. do 3 (constructor; [by apply Hnil|]).
    constructor.
  - intros k pl q Hk Hpl Hq. cbn in Hk. do 4 (destruct k as [|k]; [lia|]).
    do 4 (destruct k as [|k]; [injection Hpl as <-; injection Hq as <-; split; [decided|vm_compute; reflexivity]|]). done.
  - decided.
  - decided.
  - decided.
  - vm_compute. done.
  - set (m := y_events _). set (L := _ ++ _).
    assert (map_Forall (λ x e, x ∈ L ↔ e_owner e = ET_SYS) m) as H by decided. exact H.
  - set (m := y_events _). intros x e He Hne.
    assert (map_Forall (λ x e, e_owner e = ET_SYS) m) as H by decided. by destruct (Hne (H x e He)).
  - done.
Qed.

Lemma small_route cue mode : route (small_system cue mode) [1; 2; 0]%nat.
Proof.
  assert (∀ i, (0 < i < 4)%nat → station_ok (small_system cue mode) i) as Hok.
  { intros i Hi. split; [unfold ET_GRANDCENTRAL; lia|].
    assert (i = 1 ∨ i = 2 ∨ i = 3)%nat as [->|[->| ->]] by lia; eexists; (split; [reflexivity|done]). }
  cbn [route]. split_and!; try (apply Hok; lia); try done.
  - left. eexists. split; [reflexivity|done].
  - right. split_and!; try (apply Hok; lia); try done; [|by right; split; [|left]].
    right. exists [2; 3]%nat. split; [reflexivity|]. repeat constructor; apply Hok; lia.
Qed.


