(* ===== verification/EtChains.v ===== *)
(** * The chains of stations (et-16.1/src/libsrc/et_station.c, lines 40-315)

    Stations are in a main list that starts with GrandCentral, linked by [next] and [prev];
    a station of the main list that is parallel heads a group, linked by [nextparallel] and
    [prevparallel].  A link is the number of a station, -1 for none. *)

From S2P Require Import Prelude Words EtTypes EtConductor.

(** ** Definitions *)

(** [etid->grandcentral + i]: its fields are read, or changed. *)
Definition at_station (y : et_system) (i : Z) : res et_station :=
  if i <? 0 then Undef else station y (Z.to_nat i).
Definition set_at (y : et_system) (i : Z) (f : et_station → et_station) : res et_system :=
  _ ← at_station y i; Ret (set_station y (Z.to_nat i) f).

(** Behind the station [stat_id] there is the tail of the list, which becomes [t], or the
    station [next], which gets [q] before it (lines 57-64 and 80-87). *)
Definition join_next (y : et_system) (stat_id : nat) (next t q : Z) : res et_system :=
  if y_stat_tail y =? Z.of_nat stat_id then Ret (y <| y_stat_tail := t |>)
  else set_at y next (λ s, s <| s_prev := q |>).

(** Lines 54-65 and 116-126: out of the main list. *)
Definition unlink_main (y : et_system) (ps : et_station) (stat_id : nat) : res et_system :=
  previous ← at_station y (s_prev ps);
  y ← join_next y stat_id (s_next ps) (s_num previous) (s_num previous);
  set_at y (s_prev ps) (λ s, s <| s_next := s_next ps |>).

(** Lines 68-86: the next parallel station takes its place in the main list. *)
Definition hand_over (y : et_system) (ps : et_station) (stat_id : nat) : res et_system :=
  y ← set_at y (s_nextparallel ps)
        (λ s, s <| s_prev := s_prev ps |> <| s_next := s_next ps |> <| s_prevparallel := -1 |>);
  nextparallel ← at_station y (s_nextparallel ps);
  y ← join_next y stat_id (s_next ps) (s_num nextparallel) (s_nextparallel ps);
  set_at y (s_prev ps) (λ s, s <| s_next := s_nextparallel ps |>).

(** The parallel station [next], if it is one, gets [q] before it (lines 95-98 and 211-214). *)
Definition join_parallel (y : et_system) (next q : Z) : res et_system :=
  if -1 <? next then set_at y next (λ s, s <| s_prevparallel := q |>) else Ret y.

(** Lines 92-108: out of its group. *)
Definition unlink_parallel (y : et_system) (ps : et_station) : res et_system :=
  previous ← at_station y (s_prevparallel ps);
  y ← join_parallel y (s_nextparallel ps) (s_num previous);
  y ← set_at y (s_prevparallel ps) (λ s, s <| s_nextparallel := s_nextparallel ps |>);
  if s_waslast ps =? 1 then set_at y (s_prevparallel ps) (λ s, s <| s_waslast := 1 |>) else Ret y.

Definition station_remove (y : et_system) (stat_id : nat) : res et_system :=
  ps ← station y stat_id;
  if c_flow_mode (s_config ps) =? ET_STATION_PARALLEL then
    if -1 <? s_prev ps then
      if s_nextparallel ps <? 0 then unlink_main y ps stat_id else hand_over y ps stat_id
    else unlink_parallel y ps
  else unlink_main y ps stat_id.

Definition et_station_compare_parallel (group config : et_stat_config) : bool :=
  let special c := (c_select_mode c =? ET_STATION_SELECT_RROBIN) || (c_select_mode c =? ET_STATION_SELECT_EQUALCUE) in
  if negb (c_flow_mode group =? c_flow_mode config) then false else
  if ((c_select_mode group =? ET_STATION_SELECT_RROBIN) && negb (c_select_mode config =? ET_STATION_SELECT_RROBIN)) ||
     ((c_select_mode group =? ET_STATION_SELECT_EQUALCUE) && negb (c_select_mode config =? ET_STATION_SELECT_EQUALCUE))
  then false else
  if special group &&
     (negb (c_block_mode group =? c_block_mode config) || negb (c_prescale group =? c_prescale config))
  then false else
  if negb (special group) && special config then false else true.

(** Lines 208-216: between [p] and the parallel station [next], if there is one. *)
Definition insert_behind (y : et_system) (i : nat) (num p next : Z) : res (Z * et_system) :=
  s ← at_station y p;
  let y := set_station y i (λ ps, ps <| s_nextparallel := next |> <| s_prevparallel := s_num s |>) in
  y ← join_parallel y next num;
  y ← set_at y p (λ s, s <| s_nextparallel := num |>);
  Ret (ET_OK, y).

(** Lines 197-218: behind the parallel station [p], the [counter]th of the group, or later. *)
Fixpoint insert_parallel (y : et_system) (i : nat) (num counter p parallelposition : Z) (fuel : nat)
  : res (Z * et_system) :=
  match fuel with
  | O => NoFuel
  | S fuel =>
      s ← at_station y p;
      let nextparallel := s_nextparallel s in
      if (counter =? parallelposition) || (nextparallel <? 0) then insert_behind y i num p nextparallel
      else insert_parallel y i num (counter + 1) nextparallel parallelposition fuel
  end.

(** Lines 139-146 and 168-173: behind [previous], at the end. *)
Definition insert_end (y : et_system) (i : nat) (num previous : Z) : res (Z * et_system) :=
  p ← at_station y previous;
  let y := set_station y i (λ ps, ps <| s_prev := s_num p |>) <| y_stat_tail := num |> in
  y ← set_at y previous (λ s, s <| s_next := num |>);
  Ret (ET_OK, y).

(** Lines 222-227: between [previous] and [next]. *)
Definition insert_between (y : et_system) (i : nat) (num previous next : Z) : res (Z * et_system) :=
  p ← at_station y previous;
  let y := set_station y i (λ ps, ps <| s_next := next |> <| s_prev := s_num p |>) in
  y ← set_at y next (λ s, s <| s_prev := num |>);
  y ← set_at y previous (λ s, s <| s_next := num |>);
  Ret (ET_OK, y).

(** Lines 149-232: [previous] is the station of the place [counter - 1]. *)
Fixpoint insert_loop (y : et_system) (i : nat) (ps : et_station) (counter previous position parallelposition : Z)
    (fuel : nat) : res (Z * et_system) :=
  match fuel with
  | O => NoFuel
  | S fuel =>
      p ← at_station y previous;
      let next := s_next p in
      if next <? 0 then insert_end y i (s_num ps) previous else
      if counter =? position then
        pnext ← at_station y next;
        if (c_flow_mode (s_config ps) =? ET_STATION_PARALLEL) &&
           (c_flow_mode (s_config pnext) =? ET_STATION_PARALLEL) && negb (parallelposition =? ET_NEWHEAD) then
          if negb (et_station_compare_parallel (s_config pnext) (s_config ps)) then Ret (ET_ERROR, y) else
          if parallelposition =? 0 then Ret (ET_ERROR, y) else
          insert_parallel y i (s_num ps) 1 next parallelposition (S (length (y_stats y)))
        else insert_between y i (s_num ps) previous next
      else insert_loop y i ps (counter + 1) next position parallelposition fuel
  end.

Definition station_insert (y : et_system) (i : nat) (position parallelposition : Z) : res (Z * et_system) :=
  ps ← station y i;
  if y_nstations y <? 3 then insert_end y i (s_num ps) 0
  else insert_loop y i ps 1 0 position parallelposition (S (length (y_stats y))).

(** Lines 285-307: the place of the station [i] behind the parallel station [p]. *)
Fixpoint find_parallel (y : et_system) (i : nat) (p counter : Z) (fuel : nat) : res (option Z) :=
  match fuel with
  | O => NoFuel
  | S fuel =>
      s ← at_station y p;
      let np := s_nextparallel s in
      if np <? 0 then Ret None else if np =? Z.of_nat i then Ret (Some counter)
      else find_parallel y i np (counter + 1) fuel
  end.

(** Lines 263-311. *)
Fixpoint find_main (y : et_system) (i : nat) (previous position : Z) (fuel : nat) : res (option (Z * Z)) :=
  match fuel with
  | O => NoFuel
  | S fuel =>
      p ← at_station y previous;
      let next := s_next p in
      if next <? 0 then Ret None else
      if next =? Z.of_nat i then Ret (Some (position, 0)) else
      pnext ← at_station y next;
      r ← (if c_flow_mode (s_config pnext) =? ET_STATION_PARALLEL
           then find_parallel y i next 1 (S (length (y_stats y))) else Ret None);
      match r with
      | Some q => Ret (Some (position, q))
      | None => find_main y i next (position + 1) fuel
      end
  end.

(** Position and parallel position, or [None] with ET_ERROR. *)
Definition station_find (y : et_system) (i : nat) : res (option (Z * Z)) :=
  if (i =? ET_GRANDCENTRAL)%nat then Ret (Some (0, 0)) else
  if y_nstations y <? 2 then Ret None else find_main y i 0 1 (S (length (y_stats y))).

(** ** Doubly linked segments

    [dseg f g p l n]: the elements of [l] are linked forwards by [f] and backwards by [g];
    the first has [p] before it and the last [n] behind it. *)

Implicit Types f g : nat → option Z.

Definition first_of (l : list nat) (n : Z) : Z := from_option Z.of_nat n (head l).
Definition last_of (l : list nat) (p : Z) : Z := from_option Z.of_nat p (last l).

Fixpoint dseg f g (p : Z) (l : list nat) (n : Z) : Prop :=
  match l with
  | [] => True
  | i :: l => g i = Some p ∧ f i = Some (first_of l n) ∧ dseg f g (Z.of_nat i) l n
  end.

Lemma last_of_cons i l p : last_of (i :: l) p = last_of l (Z.of_nat i).
Proof. unfold last_of. destruct l; [done|]. by rewrite last_cons_cons; destruct (last _) eqn:E; [|destruct (last_None (n :: l)) as [H _]; naive_solver]. Qed.

Lemma first_of_app l1 l2 n : first_of (l1 ++ l2) n = first_of l1 (first_of l2 n).
Proof. by destruct l1. Qed.
Lemma last_of_app l1 l2 p : last_of (l1 ++ l2) p = last_of l2 (last_of l1 p).
Proof. revert p. induction l1 as [|i l1 IH]; intros p; [done|]. cbn [app]. by rewrite !last_of_cons. Qed.

Lemma dseg_app f g p l1 l2 n :
  dseg f g p (l1 ++ l2) n ↔ dseg f g p l1 (first_of l2 n) ∧ dseg f g (last_of l1 p) l2 n.
Proof.
  revert p. induction l1 as [|i l1 IH]; intros p; [cbn; tauto|]. cbn [app dseg].
  rewrite IH, first_of_app, last_of_cons. tauto.
Qed.

Lemma dseg_frame f g f' g' p l n :
  (∀ k, k ∈ l → f' k = f k ∧ g' k = g k) → dseg f g p l n → dseg f' g' p l n.
Proof.
  revert p. induction l as [|i l IH]; intros p Hf; [done|]. intros (Hg & Hi & Hl).
  destruct (Hf i) as [E1 E2]; [by left|]. cbn. rewrite E1, E2. split; [done|split; [done|]].
  apply IH; [|done]. intros k Hk. apply Hf. by right.
Qed.

(** The same with another end: the last element points elsewhere. *)
Lemma dseg_new_end f g f' p l n n' :
  NoDup l → (∀ k, k ∈ l → last l ≠ Some k → f' k = f k) → (∀ k, last l = Some k → f' k = Some n') →
  dseg f g p l n → dseg f' g p l n'.
Proof.
  revert p. induction l as [|i l IH]; intros p Hnd Hf He; [done|]. intros (Hg & Hi & Hl).
  apply list.NoDup_cons in Hnd as [Hni Hnd]. destruct l as [|j l].
  - cbn. split_and!; [done| |done]. by rewrite (He i).
  - rewrite last_cons_cons in Hf, He. split; [done|split].
    + rewrite Hf; [done|by left|]. intros Hl'. apply Hni. by apply last_Some_elem_of in Hl'.
    + apply IH; try done. intros k Hk. apply Hf. by right.
Qed.

Lemma dseg_new_start f g g' p p' l n :
  NoDup l → (∀ k, k ∈ l → head l ≠ Some k → g' k = g k) → (∀ k, head l = Some k → g' k = Some p') →
  dseg f g p l n → dseg f g' p' l n.
Proof.
  destruct l as [|i l]; [done|]. intros [Hni Hnd]%list.NoDup_cons Hf Hs (Hg & Hi & Hl).
  split; [by apply Hs|split; [done|]]. eapply dseg_frame; [|done]. intros k Hk. split; [done|].
  apply Hf; [by right|]. intros [= <-]. done.
Qed.

(** A part of the segment is replaced by another one. *)
Lemma dseg_splice f g f' g' p n l1 m m' l2 :
  dseg f g p (l1 ++ m ++ l2) n → NoDup (l1 ++ m ++ l2) →
  (∀ k, k ∈ l1 → (last l1 ≠ Some k → f' k = f k) ∧ g' k = g k) →
  (∀ k, k ∈ l2 → f' k = f k ∧ (head l2 ≠ Some k → g' k = g k)) →
  (∀ k, last l1 = Some k → f' k = Some (first_of (m' ++ l2) n)) →
  (∀ k, head l2 = Some k → g' k = Some (last_of (l1 ++ m') p)) →
  dseg f' g' (last_of l1 p) m' (first_of l2 n) →
  dseg f' g' p (l1 ++ m' ++ l2) n.
Proof.
  rewrite !dseg_app. intros (H1 & _ & H2) (Hn1 & _ & (_ & _ & Hn2)%list.NoDup_app)%list.NoDup_app Hf1 Hf2 He Hs Hm.
  split_and!; [|done|].
  - apply (dseg_new_end f _ _ _ _ (first_of (m ++ l2) n)); [done| |done|].
    + intros k Hk Hl. by apply Hf1.
    + eapply dseg_frame; [|exact H1]. intros k Hk. split; [done|]. by apply Hf1.
  - rewrite <- last_of_app. apply (dseg_new_start _ g _ (last_of m (last_of l1 p))); [done| |done|].
    + intros k Hk Hh. by apply Hf2.
    + eapply dseg_frame; [|exact H2]. intros k Hk. split; [|done]. by apply Hf2.
Qed.

Lemma dseg_lookup f g p l1 i l2 n :
  dseg f g p (l1 ++ i :: l2) n → g i = Some (last_of l1 p) ∧ f i = Some (first_of l2 n).
Proof. rewrite dseg_app. cbn. tauto. Qed.
