(* ===== verification/EtChainSpec.v ===== *)
(** * Taking stations out of the chains and putting them in

    [chained y G]: behind GrandCentral the main list has a group of stations for each element
    of [G], in this order; a station that is not parallel is a group of its own. *)

From S2P Require Import Prelude Words EtTypes EtConductor EtChains.

(** ** Fields of stations *)

Definition fld {A} (F : et_station → A) (y : et_system) (k : nat) : option A := F <$> y_stats y !! k.
Notation nxt := (fld s_next).
Notation prv := (fld s_prev).
Notation nxp := (fld s_nextparallel).
Notation prp := (fld s_prevparallel).

Definition parallel (y : et_system) (i : nat) : Prop :=
  (λ c, c_flow_mode c) <$> fld s_config y i = Some ET_STATION_PARALLEL.

(** Everything but the links. *)
Definition unlinked (s : et_station) : et_station :=
  s <| s_next := 0 |> <| s_prev := 0 |> <| s_nextparallel := 0 |> <| s_prevparallel := 0 |> <| s_waslast := 0 |>.
Definition relinks (y y' : et_system) : Prop :=
  unlinked <$> y_stats y' = unlinked <$> y_stats y ∧
  y' = y <| y_stats := y_stats y' |> <| y_stat_tail := y_stat_tail y' |>.

Lemma relinks_refl y : relinks y y.
Proof. split; [done|]. by destruct y. Qed.

Lemma relinks_trans y1 y2 y3 : relinks y1 y2 → relinks y2 y3 → relinks y1 y3.
Proof. intros [H1 E1] [H2 E2]. split; [congruence|]. rewrite E2, E1. by destruct y1. Qed.

Lemma relinks_set y i f : (∀ s, unlinked (f s) = unlinked s) → relinks y (set_station y i f).
Proof.
  intros Hf. split; [|by destruct y]. unfold set_station. fields. apply list_eq. intros j.
  rewrite !list_lookup_fmap. destruct (decide (j = i)) as [->|Hne].
  - rewrite list_lookup_alter_eq. destruct (y_stats y !! i); [|done]. cbn. by rewrite Hf.
  - by rewrite list_lookup_alter_ne.
Qed.

Lemma relinks_tail y t : relinks y (y <| y_stat_tail := t |>).
Proof. split; [done|]. by destruct y. Qed.

Lemma relinks_fld {A} (F : et_station → A) y y' k :
  relinks y y' → (∀ s, F (unlinked s) = F s) → fld F y' k = fld F y k.
Proof.
  intros [H _] HF. unfold fld. assert ((F <$> (unlinked <$> y_stats y')) !! k = (F <$> (unlinked <$> y_stats y)) !! k) as E by by rewrite H.
  rewrite !list_lookup_fmap in E. destruct (y_stats y' !! k), (y_stats y !! k); cbn in *; try done. by rewrite !HF in E.
Qed.

Lemma relinks_parallel y y' i : relinks y y' → parallel y' i ↔ parallel y i.
Proof. intros H. unfold parallel. by rewrite (relinks_fld s_config y y' i H) by done. Qed.

Lemma relinks_length y y' : relinks y y' → length (y_stats y') = length (y_stats y).
Proof. intros [H _]. apply (f_equal length) in H. by rewrite !length_fmap in H. Qed.

(** ** Reading and setting links *)

Lemma fld_set {A} (F : et_station → A) y j f k :
  fld F (set_station y j f) k = if decide (k = j) then F ∘ f <$> y_stats y !! j else fld F y k.
Proof.
  unfold fld, set_station. fields. destruct (decide (k = j)) as [->|Hne].
  - rewrite list_lookup_alter_eq. by destruct (y_stats y !! j).
  - by rewrite list_lookup_alter_ne.
Qed.

Lemma fld_other {A} (F : et_station → A) y j f k : (∀ s, F (f s) = F s) → fld F (set_station y j f) k = fld F y k.
Proof.
  intros Hf. rewrite fld_set. destruct (decide (k = j)) as [->|]; [|done]. unfold fld.
  destruct (y_stats y !! j); [|done]. cbn. by rewrite Hf.
Qed.

Lemma fld_to {A} (F : et_station → A) y j f k v :
  (∀ s, F (f s) = v) → is_Some (y_stats y !! j) →
  fld F (set_station y j f) k = if decide (k = j) then Some v else fld F y k.
Proof.
  intros Hf [s Hs]. rewrite fld_set. destruct (decide (k = j)) as [->|]; [|done]. rewrite Hs. cbn. by rewrite Hf.
Qed.

Lemma fld_some {A} (F : et_station → A) y k v : fld F y k = Some v → ∃ s, y_stats y !! k = Some s ∧ F s = v.
Proof. unfold fld. destruct (y_stats y !! k) as [s|]; [|done]. cbn. intros [= <-]. by exists s. Qed.

Lemma is_Some_set y i f k : is_Some (y_stats (set_station y i f) !! k) ↔ is_Some (y_stats y !! k).
Proof. unfold set_station. fields. rewrite !lookup_lt_is_Some. by rewrite length_alter. Qed.

Lemma at_station_ok y (k : nat) s : y_stats y !! k = Some s → at_station y (Z.of_nat k) = Ret s.
Proof.
  intros Hs. unfold at_station, station. replace (_ <? 0) with false by (symmetry; apply Z.ltb_ge; lia).
  by rewrite Nat2Z.id, Hs.
Qed.

Lemma set_at_ok y (k : nat) f : is_Some (y_stats y !! k) → set_at y (Z.of_nat k) f = Ret (set_station y k f).
Proof. intros [s Hs]. unfold set_at. rewrite (at_station_ok y k s Hs). cbn. by rewrite Nat2Z.id. Qed.

Lemma fld_tail {A} (F : et_station → A) y t k : fld F (y <| y_stat_tail := t |>) k = fld F y k.
Proof. done. Qed.

(** Computes the fields of a system after links were set. *)
Ltac links :=
  repeat first
    [ erewrite fld_to; [|intros; fields; reflexivity|by fields; rewrite ?is_Some_set; fields; eauto]
    | rewrite fld_other; [|by intros; fields]
    | rewrite fld_tail ].
Ltac decides := repeat (case_decide; simplify_eq/=); try done.

(** ** The invariant *)

Definition main (y : et_system) (l : list nat) : Prop := dseg (nxt y) (prv y) (-1) l (-1).
Definition group (y : et_system) (g : list nat) : Prop := dseg (nxp y) (prp y) (-1) g (-1).
Definition heads (G : list (list nat)) : list nat := (λ g, default O (head g)) <$> G.

Definition members (G : list (list nat)) : list nat := concat (tail <$> G).

Record chained (y : et_system) (G : list (list nat)) : Prop := Chained {
  ch_main : main y (ET_GRANDCENTRAL :: heads G);
  ch_groups : Forall (λ g, g ≠ [] ∧ group y g) G;
  ch_parallel : Forall (λ g, (1 < length g)%nat → Forall (parallel y) g) G;
  ch_members : Forall (λ i, prv y i = Some (-1)) (members G);
  ch_nodup : NoDup (ET_GRANDCENTRAL :: concat G);
  ch_nums : Forall (λ i, fld s_num y i = Some (Z.of_nat i)) (ET_GRANDCENTRAL :: concat G);
  ch_tail : y_stat_tail y = last_of (heads G) 0
}.

Lemma dseg_known f g p l n k : dseg f g p l n → k ∈ l → is_Some (f k) ∧ is_Some (g k).
Proof.
  intros H (l1 & l2 & ->)%list_elem_of_split. apply dseg_lookup in H as [H1 H2].
  split; by eexists.
Qed.

Lemma main_known y l k : main y l → k ∈ l → is_Some (y_stats y !! k).
Proof.
  intros H Hk. destruct (dseg_known _ _ _ _ _ _ H Hk) as [[v (s & Hs & _)%fld_some] _]. by exists s.
Qed.

Lemma last_of_elem l p : l ≠ [] → ∃ k, k ∈ l ∧ last_of l p = Z.of_nat k.
Proof.
  destruct l as [|k l] using rev_ind; [done|]. intros _. exists k. split; [set_solver|]. by rewrite last_of_app.
Qed.

(** The links of a station of a list. *)
Lemma main_links y l1 i l2 s :
  main y (l1 ++ [i] ++ l2) → y_stats y !! i = Some s → s_prev s = last_of l1 (-1) ∧ s_next s = first_of l2 (-1).
Proof.
  intros [H1 H2]%dseg_lookup Hs. apply fld_some in H1 as (s1 & E1 & <-), H2 as (s2 & E2 & <-).
  rewrite Hs in E1, E2. by simplify_eq.
Qed.

Lemma group_links y l1 i l2 s :
  group y (l1 ++ [i] ++ l2) → y_stats y !! i = Some s →
  s_prevparallel s = last_of l1 (-1) ∧ s_nextparallel s = first_of l2 (-1).
Proof.
  intros [H1 H2]%dseg_lookup Hs. apply fld_some in H1 as (s1 & E1 & <-), H2 as (s2 & E2 & <-).
  rewrite Hs in E1, E2. by simplify_eq.
Qed.

(** What is before and behind the middle of a list without repetition. *)
Lemma nodup_middle {A} (l1 l2 : list A) i : NoDup (l1 ++ [i] ++ l2) → i ∉ l1 ∧ i ∉ l2 ∧ (∀ k, k ∈ l1 → k ∉ l2).
Proof.
  intros (_ & H & [Hi _]%list.NoDup_cons)%list.NoDup_app. split_and!; [|done|].
  - intros Hi'. apply (H i Hi'). by left.
  - intros k Hk Hk'. apply (H k Hk). by right.
Qed.

Lemma last_of_other l1 i n l2 p : NoDup (l1 ++ [i] ++ n :: l2) → last_of (l1 ++ [i] ++ n :: l2) p ≠ Z.of_nat i.
Proof.
  intros Hnd. rewrite last_of_app, (last_of_app [i]). intros E.
  destruct (last_of_elem (n :: l2) (last_of [i] (last_of l1 p))) as (k & Hk & E'); [done|].
  assert (k = i) as -> by lia. apply nodup_middle in Hnd as (_ & ? & _). done.
Qed.

(** The station behind [i], if there is one, gets [q] before it. *)
Lemma join_next_ok y l1 i l2 (q : nat) :
  y_stat_tail y = last_of (l1 ++ [i] ++ l2) 0 → NoDup (l1 ++ [i] ++ l2) →
  (∀ n, head l2 = Some n → is_Some (y_stats y !! n)) →
  ∃ y', join_next y i (first_of l2 (-1)) (Z.of_nat q) (Z.of_nat q) = Ret y' ∧ relinks y y' ∧
    y_stat_tail y' = last_of l2 (Z.of_nat q) ∧
    ∀ k, nxt y' k = nxt y k ∧ nxp y' k = nxp y k ∧ prp y' k = prp y k ∧
      prv y' k = if decide (head l2 = Some k) then Some (Z.of_nat q) else prv y k.
Proof.
  intros Ht Hnd Hk. unfold join_next. destruct l2 as [|n l2].
  - rewrite Ht, last_of_app. cbn. rewrite Z.eqb_refl. eexists. split; [done|].
    split; [apply relinks_tail|]. split; [done|]. intros k. by links.
  - replace (_ =? Z.of_nat i) with false by (symmetry; apply Z.eqb_neq; rewrite Ht; by apply last_of_other).
    cbn [first_of from_option head]. specialize (Hk n eq_refl). rewrite set_at_ok by done.
    eexists. split; [done|]. split; [by apply relinks_set|]. split.
    + unfold set_station. fields. by rewrite Ht, !last_of_app, !last_of_cons.
    + intros k. links. split_and!; [done..|]. cbn. decides.
Qed.

Lemma relinks_known y y' k : relinks y y' → is_Some (y_stats y !! k) → is_Some (y_stats y' !! k).
Proof. intros H. rewrite !lookup_lt_is_Some. by rewrite (relinks_length _ _ H). Qed.

(** Between [p] and [l2], [mid] is replaced by [m]. *)
Lemma splice f g f' g' l1 p mid l2 m :
  dseg f g (-1) ((l1 ++ [p]) ++ mid ++ l2) (-1) → NoDup ((l1 ++ [p]) ++ mid ++ l2) →
  (∀ k, k ∈ (l1 ++ [p]) ++ l2 → f' k = if decide (k = p) then Some (first_of (m ++ l2) (-1)) else f k) →
  (∀ k, k ∈ (l1 ++ [p]) ++ l2 →
     g' k = if decide (head l2 = Some k) then Some (last_of ((l1 ++ [p]) ++ m) 0) else g k) →
  dseg f' g' (Z.of_nat p) m (first_of l2 (-1)) →
  dseg f' g' (-1) ((l1 ++ [p]) ++ m ++ l2) (-1).
Proof.
  intros Hm Hnd Hn Hp Hmid.
  assert (∀ k, k ∈ l1 ++ [p] → k ∉ l2) as Hd.
  { apply list.NoDup_app in Hnd as (_ & H & _). intros k Hk Hk2. apply (H k Hk), elem_of_app. by right. }
  eapply dseg_splice with (m := mid) (m' := m); [exact Hm|done|..].
  - intros k Hk. rewrite Hn, Hp, last_snoc by set_solver. split; [intros Hne; decides|].
    case_decide as Hh; [|done]. exfalso. apply (Hd k Hk). destruct l2; simplify_eq/=. by left.
  - intros k Hk. rewrite Hn, Hp by set_solver. split; [|intros Hne; by rewrite decide_False].
    rewrite decide_False; [done|]. intros ->. apply (Hd p); set_solver.
  - intros k. rewrite last_snoc. intros [= <-]. rewrite Hn by set_solver. by rewrite decide_True.
  - intros k Hk. rewrite Hp, decide_True; [|done|].
    + rewrite <- !app_assoc, !last_of_app. cbn. by destruct m.
    + destruct l2; simplify_eq/=. set_solver.
  - by rewrite last_of_app.
Qed.

Lemma unlink_main_ok y s i l1 p l2 :
  y_stats y !! i = Some s → main y ((l1 ++ [p]) ++ [i] ++ l2) → NoDup ((l1 ++ [p]) ++ [i] ++ l2) →
  fld s_num y p = Some (Z.of_nat p) → y_stat_tail y = last_of ((l1 ++ [p]) ++ [i] ++ l2) 0 →
  ∃ y', unlink_main y s i = Ret y' ∧ relinks y y' ∧ main y' ((l1 ++ [p]) ++ l2) ∧
    y_stat_tail y' = last_of ((l1 ++ [p]) ++ l2) 0 ∧
    ∀ k, nxp y' k = nxp y k ∧ prp y' k = prp y k ∧ (k ∉ l2 → prv y' k = prv y k).
Proof.
  intros Hs Hm Hnd Hp Ht. destruct (main_links _ _ _ _ _ Hm Hs) as [Hprev Hnext].
  rewrite last_of_app in Hprev. cbn in Hprev. apply fld_some in Hp as (sp & Hsp & Hp).
  unfold unlink_main. rewrite Hprev, (at_station_ok y p sp Hsp). step. rewrite Hp, Hnext.
  destruct (join_next_ok y (l1 ++ [p]) i l2 p Ht Hnd) as (y1 & -> & Hr & Ht1 & Hl).
  { intros n Hn. eapply main_known; [exact Hm|]. destruct l2; simplify_eq/=. set_solver. }
  assert (is_Some (y_stats y1 !! p)) as Hp1 by (eapply relinks_known; [done|by rewrite Hsp]).
  step. rewrite set_at_ok by done. eexists. split; [done|]. split_and!.
  - eapply relinks_trans; [exact Hr|]. by apply relinks_set.
  - apply (splice (nxt y) (prv y) _ _ l1 p [i] l2 []); [done|done| |..|done]; intros k Hk; links; destruct (Hl k) as (E1 & _ & _ & E2).
    + by rewrite E1.
    + rewrite E2, app_nil_r, last_of_app. done.
  - unfold set_station. fields. rewrite Ht1, !last_of_app. done.
  - intros k. links. destruct (Hl k) as (_ & E1 & E2 & E3). split_and!; [done..|]. intros Hk.
    rewrite E3. case_decide as Hh; [|done]. destruct l2; simplify_eq/=. set_solver.
Qed.

Lemma hand_over_ok y s i l1 p l2 j g :
  y_stats y !! i = Some s → main y ((l1 ++ [p]) ++ [i] ++ l2) → NoDup ((l1 ++ [p]) ++ [i] ++ l2) →
  group y (i :: j :: g) → j ∉ (l1 ++ [p]) ++ [i] ++ l2 → NoDup (j :: g) →
  fld s_num y j = Some (Z.of_nat j) → y_stat_tail y = last_of ((l1 ++ [p]) ++ [i] ++ l2) 0 →
  ∃ y', hand_over y s i = Ret y' ∧ relinks y y' ∧ main y' ((l1 ++ [p]) ++ [j] ++ l2) ∧
    y_stat_tail y' = last_of ((l1 ++ [p]) ++ [j] ++ l2) 0 ∧ group y' (j :: g) ∧
    ∀ k, nxp y' k = nxp y k ∧ (k ≠ j → prp y' k = prp y k) ∧ (k ≠ j → k ∉ l2 → prv y' k = prv y k).
Proof.
  intros Hs Hm Hnd Hg Hj Hndg Hnum Ht. destruct (main_links _ _ _ _ _ Hm Hs) as [Hprev Hnext].
  destruct (group_links y [] i (j :: g) s Hg Hs) as [_ Hnp].
  rewrite last_of_app in Hprev. cbn in Hprev, Hnp. apply fld_some in Hnum as (sj & Hsj & Hnum).
  assert (is_Some (y_stats y !! j)) as Hkj by by rewrite Hsj.
  assert (is_Some (y_stats y !! p)) as Hkp by (eapply main_known; [exact Hm|set_solver]).
  assert (j ≠ p ∧ j ∉ l1 ∧ j ∉ l2) as (Hjp & Hj1 & Hj2) by set_solver.
  unfold hand_over. rewrite Hnp, Hprev, Hnext, set_at_ok by done. step.
  set (f := λ s, s <| s_prev := _ |> <| s_next := _ |> <| s_prevparallel := _ |>).
  rewrite (at_station_ok _ j (f sj)) by (unfold set_station; fields; by rewrite list_lookup_alter_eq, Hsj).
  step. replace (s_num (f sj)) with (Z.of_nat j) by done. subst f.
  edestruct join_next_ok with (l1 := l1 ++ [p]) (l2 := l2) as (y1 & -> & Hr & Ht1 & Hl); [exact Ht|done|..].
  { intros n Hn. apply is_Some_set. eapply main_known; [exact Hm|]. destruct l2; simplify_eq/=. set_solver. }
  assert (is_Some (y_stats y1 !! p)) as Hp1 by (eapply relinks_known; [done|by apply is_Some_set]).
  step. rewrite set_at_ok by done. eexists. split; [done|].
  assert (∀ k, nxp y1 k = nxp y k ∧ prp y1 k = (if decide (k = j) then Some (-1) else prp y k) ∧
            nxt y1 k = (if decide (k = j) then Some (first_of l2 (-1)) else nxt y k) ∧
            prv y1 k = if decide (head l2 = Some k) then Some (Z.of_nat j) else if decide (k = j) then Some (Z.of_nat p) else prv y k)
    as Hl1 by (intros k; destruct (Hl k) as (-> & -> & -> & ->); by links).
  clear Hl. split_and!.
  - eapply relinks_trans; [|by apply relinks_set]. eapply relinks_trans; [|exact Hr]. by apply relinks_set.
  - apply (splice (nxt y) (prv y) _ _ l1 p [i] l2 [j]); [done|done|..]; try intros k Hk; links;
      try (destruct (Hl1 k) as (_ & _ & E1 & E2); rewrite ?E1, ?E2); rewrite ?last_of_app.
    + decides; set_solver.
    + decides; set_solver.
    + destruct (Hl1 j) as (_ & _ & E1 & E2). cbn. split; [|split; [|done]]; links; rewrite ?E1, ?E2; decides.
      by destruct l2; simplify_eq/=; set_solver.
  - unfold set_station. fields. rewrite Ht1, !last_of_app. done.
  - apply (dseg_new_start _ (prp y) _ (Z.of_nat i)); [done| |..|eapply dseg_frame; [|apply Hg]].
    + intros k Hk Hne. links. destruct (Hl1 k) as (_ & E & _ & _). rewrite E. decides.
    + intros k [= <-]. links. destruct (Hl1 j) as (_ & E & _ & _). rewrite E. decides.
    + intros k Hk. split; [|done]. links. apply Hl1.
  - intros k. links. destruct (Hl1 k) as (E1 & E2 & _ & E3). rewrite E1, E2, E3. split; [done|]. split; intros Hk; [decides|].
    intros Hk2. decides. by destruct l2; simplify_eq/=; set_solver.
Qed.

Lemma join_parallel_ok y l2 (q : nat) :
  (∀ n, head l2 = Some n → is_Some (y_stats y !! n)) →
  ∃ y', join_parallel y (first_of l2 (-1)) (Z.of_nat q) = Ret y' ∧ relinks y y' ∧ y_stat_tail y' = y_stat_tail y ∧
    ∀ k, nxt y' k = nxt y k ∧ prv y' k = prv y k ∧ nxp y' k = nxp y k ∧
      prp y' k = if decide (head l2 = Some k) then Some (Z.of_nat q) else prp y k.
Proof.
  intros Hk. unfold join_parallel. destruct l2 as [|n l2]; cbn [first_of from_option head].
  - exists y. split; [done|]. split; [apply relinks_refl|]. split; [done|]. intros k. by cbn.
  - replace (-1 <? _) with true by (symmetry; apply Z.ltb_lt; lia). specialize (Hk n eq_refl).
    rewrite set_at_ok by done. eexists. split; [done|]. split; [by apply relinks_set|]. split; [done|].
    intros k. links. cbn. decides.
Qed.

Lemma unlink_parallel_ok y s i l1 p l2 :
  y_stats y !! i = Some s → group y ((l1 ++ [p]) ++ [i] ++ l2) → NoDup ((l1 ++ [p]) ++ [i] ++ l2) →
  fld s_num y p = Some (Z.of_nat p) →
  ∃ y', unlink_parallel y s = Ret y' ∧ relinks y y' ∧ group y' ((l1 ++ [p]) ++ l2) ∧
    y_stat_tail y' = y_stat_tail y ∧
    ∀ k, nxt y' k = nxt y k ∧ prv y' k = prv y k ∧
      (k ∉ (l1 ++ [p]) ++ l2 → nxp y' k = nxp y k ∧ prp y' k = prp y k).
Proof.
  intros Hs Hm Hnd Hp. destruct (group_links _ _ _ _ _ Hm Hs) as [Hprev Hnext].
  rewrite last_of_app in Hprev. cbn in Hprev. apply fld_some in Hp as (sp & Hsp & Hp).
  assert (is_Some (y_stats y !! p)) as Hkp by by rewrite Hsp.
  unfold unlink_parallel. rewrite Hprev, (at_station_ok y p sp Hsp). step. rewrite Hp, Hnext.
  destruct (join_parallel_ok y l2 p) as (y1 & -> & Hr & Ht & Hl).
  { intros n Hn. destruct (dseg_known _ _ _ _ _ n Hm) as [[v (s' & Hs' & _)%fld_some] _]; [|by exists s'].
    destruct l2; simplify_eq/=. set_solver. }
  assert (is_Some (y_stats y1 !! p)) as Hkp1 by by eapply relinks_known.
  step. rewrite set_at_ok by done. step. set (y2 := set_station y1 p _).
  assert (relinks y y2) as Hr2 by (eapply relinks_trans; [exact Hr|by apply relinks_set]).
  assert (is_Some (y_stats y2 !! p)) as Hkp2 by by eapply relinks_known.
  assert (∃ y3, (if s_waslast s =? 1 then set_at y2 (Z.of_nat p) (λ s, s <| s_waslast := 1 |>) else Ret y2) = Ret y3 ∧
            relinks y2 y3 ∧ y_stat_tail y3 = y_stat_tail y2 ∧
            ∀ k, nxt y3 k = nxt y2 k ∧ prv y3 k = prv y2 k ∧ nxp y3 k = nxp y2 k ∧ prp y3 k = prp y2 k) as (y3 & -> & Hr3 & Ht3 & Hl3).
  { destruct (s_waslast s =? 1); [|by exists y2; split_and!; [|apply relinks_refl| |]].
    rewrite set_at_ok by done. eexists. split; [done|]. split; [by apply relinks_set|]. split; [done|]. intros k. by links. }
  assert (∀ k, nxt y3 k = nxt y k ∧ prv y3 k = prv y k ∧ nxp y3 k = (if decide (k = p) then Some (first_of l2 (-1)) else nxp y k) ∧
            prp y3 k = if decide (head l2 = Some k) then Some (Z.of_nat p) else prp y k) as Hl4.
  { intros k. destruct (Hl3 k) as (-> & -> & -> & ->). subst y2. destruct (Hl k) as (E1 & E2 & E3 & E4). links.
    rewrite E1, E2, E3, E4. done. }
  clear Hl Hl3. eexists. split; [done|]. split_and!.
  - by eapply relinks_trans.
  - apply (splice (nxp y) (prp y) _ _ l1 p [i] l2 []); [done|done| |..|done]; intros k Hk; destruct (Hl4 k) as (_ & _ & E1 & E2).
    + by rewrite E1.
    + by rewrite E2, app_nil_r, last_of_app.
  - rewrite Ht3. subst y2. exact Ht.
  - intros k. destruct (Hl4 k) as (-> & -> & -> & ->). split_and!; [done..|]. intros Hk. split; decides; [set_solver|].
    destruct l2; simplify_eq/=. set_solver.
Qed.

(** ** Taking a station out *)

Lemma heads_app G1 G2 : heads (G1 ++ G2) = heads G1 ++ heads G2.
Proof. apply fmap_app. Qed.
Lemma members_app G1 G2 : members (G1 ++ G2) = members G1 ++ members G2.
Proof. unfold members. by rewrite fmap_app, concat_app. Qed.

Lemma heads_members G : Forall (λ g, g ≠ []) G → heads G ++ members G ≡ₚ concat G.
Proof.
  induction 1 as [|g G Hg _ IH]; [done|]. destruct g as [|i g]; [done|].
  unfold heads, members in *. cbn. rewrite <- IH. f_equiv. rewrite !app_assoc. f_equiv. apply Permutation_app_comm.
Qed.

Lemma chained_nonempty y G : chained y G → Forall (λ g, g ≠ []) G.
Proof. intros H. eapply Forall_impl; [|exact (ch_groups _ _ H)]. by intros g []. Qed.

(** GrandCentral, the heads and the other members of groups are different stations. *)
Lemma chained_distinct y G : chained y G → NoDup ((ET_GRANDCENTRAL :: heads G) ++ members G).
Proof.
  intros H. pose proof (ch_nodup _ _ H) as Hnd. cbn.
  by rewrite (heads_members _ (chained_nonempty _ _ H)).
Qed.

Lemma main_front G : ∃ l1 p, ET_GRANDCENTRAL :: heads G = l1 ++ [p].
Proof. induction (heads G) as [|p l _] using rev_ind; [by exists [], ET_GRANDCENTRAL|]. by exists (ET_GRANDCENTRAL :: l), p. Qed.

Lemma last_of_front l p : last_of (ET_GRANDCENTRAL :: l) p = last_of l 0.
Proof. by rewrite last_of_cons. Qed.

Definition keep_group (g : list nat) : list (list nat) := match g with [] => [] | _ => [g] end.

Lemma groups_frame y y' G :
  (∀ k, k ∈ concat G → nxp y' k = nxp y k ∧ prp y' k = prp y k) →
  Forall (λ g, g ≠ [] ∧ group y g) G → Forall (λ g, g ≠ [] ∧ group y' g) G.
Proof.
  induction G as [|g G IH]; [done|]. intros Hf [[Hg1 Hg2] HG]%list.Forall_cons. constructor.
  - split; [done|]. eapply dseg_frame; [|exact Hg2]. intros k Hk. apply Hf. cbn. set_solver.
  - apply IH; [|done]. intros k Hk. apply Hf. cbn. set_solver.
Qed.

(** What a change of links has to give for the new chain. *)
Lemma chained_relinked y y' G G' :
  chained y G → relinks y y' → main y' (ET_GRANDCENTRAL :: heads G') →
  Forall (λ g, g ≠ [] ∧ group y' g) G' →
  Forall (λ g, (1 < length g)%nat → Forall (parallel y) g) G' →
  Forall (λ i, prv y' i = Some (-1)) (members G') →
  NoDup (ET_GRANDCENTRAL :: concat G') →
  Forall (λ i, fld s_num y i = Some (Z.of_nat i)) (ET_GRANDCENTRAL :: concat G') →
  y_stat_tail y' = last_of (heads G') 0 → chained y' G'.
Proof.
  intros H Hr Hm Hg Hp Hme Hnd Hn Ht. split; try done.
  - eapply Forall_impl; [|exact Hp]. intros g Hg' Hl. eapply Forall_impl; [|by apply Hg'].
    intros k. by apply relinks_parallel.
  - eapply Forall_impl; [|exact Hn]. intros k. by rewrite (relinks_fld s_num y y').
Qed.

Lemma Forall_sub {A} (P : A → Prop) l l' : (∀ x, x ∈ l' → x ∈ l) → Forall P l → Forall P l'.
Proof. rewrite !list.Forall_forall. intros Hs H x Hx. apply H, Hs, Hx. Qed.

Lemma elem_of_heads i G : Forall (λ g, g ≠ []) G → i ∈ heads G → i ∈ concat G.
Proof. intros HG Hi. rewrite <- (heads_members G HG). set_solver. Qed.
Lemma elem_of_members i G : i ∈ members G → i ∈ concat G.
Proof.
  unfold members. induction G as [|g G IH]; [done|]. cbn. rewrite !elem_of_app.
  intros [Hi|Hi]; [|by right; apply IH]. left. destruct g; [done|]. by right.
Qed.

(** The main list around the groups [G2]. *)
Lemma chain_front y G1 G2 :
  chained y (G1 ++ G2) →
  ∃ l1 p, ET_GRANDCENTRAL :: heads G1 = l1 ++ [p] ∧ main y ((l1 ++ [p]) ++ heads G2) ∧
    NoDup ((l1 ++ [p]) ++ heads G2) ∧ fld s_num y p = Some (Z.of_nat p) ∧
    y_stat_tail y = last_of ((l1 ++ [p]) ++ heads G2) 0.
Proof.
  intros H. destruct (main_front G1) as (l1 & p & Hp). exists l1, p. split; [done|]. rewrite <- Hp.
  pose proof (chained_nonempty _ _ H) as Hne. change ((?x :: ?l) ++ ?l') with (x :: (l ++ l')). rewrite <- heads_app.
  split_and!.
  - apply H.
  - pose proof (chained_distinct _ _ H) as Hd. by apply list.NoDup_app in Hd as (? & _).
  - pose proof (ch_nums _ _ H) as Hn. rewrite list.Forall_forall in Hn. apply Hn.
    assert (p ∈ ET_GRANDCENTRAL :: heads G1) as [->|Hpe]%elem_of_cons by (rewrite Hp; set_solver); [by left|].
    right. rewrite concat_app. apply elem_of_app. left. apply elem_of_heads; [|done]. by apply Forall_app in Hne as [? _].
  - rewrite last_of_cons. apply H.
Qed.

(** A station that is a group of its own. *)
Lemma remove_single y s i G1 G2 :
  chained y (G1 ++ [i] :: G2) → y_stats y !! i = Some s →
  ∃ y', unlink_main y s i = Ret y' ∧ relinks y y' ∧ chained y' (G1 ++ G2) ∧
    ∀ k, nxp y' k = nxp y k ∧ prp y' k = prp y k.
Proof.
  intros H Hs. destruct (chain_front y G1 ([i] :: G2) H) as (l1 & p & Hp & Hm & Hnd & Hnp & Ht).
  destruct (unlink_main_ok y s i l1 p (heads G2) Hs Hm Hnd Hnp Ht) as (y' & -> & Hr & Hm' & Ht' & Hk).
  exists y'. split; [done|]. split; [done|]. split; [|intros k; by destruct (Hk k) as (? & ? & _)].
  assert (ET_GRANDCENTRAL :: heads (G1 ++ G2) = (l1 ++ [p]) ++ heads G2) as Hh by by rewrite heads_app, <- Hp.
  apply (chained_relinked y y' (G1 ++ [i] :: G2)); [done|done|by rewrite Hh|..].
  - apply (groups_frame y); [intros k _; destruct (Hk k) as (? & ? & _); done|].
    eapply Forall_sub; [|apply (ch_groups _ _ H)]. set_solver.
  - eapply Forall_sub; [|apply (ch_parallel _ _ H)]. set_solver.
  - pose proof (chained_distinct _ _ H) as Hd. pose proof (ch_members _ _ H) as Hme.
    rewrite list.Forall_forall in *. intros k Hkm. destruct (Hk k) as (_ & _ & ->).
    + apply Hme. rewrite members_app in *. set_solver.
    + intros Hk2. apply list.NoDup_app in Hd as (_ & Hd & _). apply (Hd k); [rewrite heads_app; set_solver|].
      rewrite members_app in *. set_solver.
  - eapply sublist_NoDup; [apply (ch_nodup _ _ H)|]. rewrite !concat_app. cbn. by apply sublist_skip, sublist_app, sublist_cons.
  - eapply Forall_sub; [|apply (ch_nums _ _ H)]. rewrite !concat_app. set_solver.
  - rewrite <- last_of_front with (p := 0), Hh. done.
Qed.

(** A station that heads a group with others. *)
Lemma remove_head y s i j g G1 G2 :
  chained y (G1 ++ (i :: j :: g) :: G2) → y_stats y !! i = Some s →
  ∃ y', hand_over y s i = Ret y' ∧ relinks y y' ∧ chained y' (G1 ++ (j :: g) :: G2).
Proof.
  intros H Hs. destruct (chain_front y G1 ((i :: j :: g) :: G2) H) as (l1 & p & Hp & Hm & Hnd & Hnp & Ht).
  pose proof (chained_distinct _ _ H) as Hd. rewrite members_app in Hd.
  change (members ((i :: j :: g) :: G2)) with ((j :: g) ++ members G2) in Hd.
  assert (ET_GRANDCENTRAL :: heads (G1 ++ (i :: j :: g) :: G2) = (l1 ++ [p]) ++ [i] ++ heads G2) as Hh by by rewrite heads_app, <- Hp.
  rewrite Hh in Hd. apply list.NoDup_app in Hd as (_ & Hd & Hnm).
  pose proof (ch_groups _ _ H) as Hgs. pose proof (ch_nums _ _ H) as Hn. rewrite list.Forall_forall in Hgs; rewrite list.Forall_forall in Hn.
  destruct (hand_over_ok y s i l1 p (heads G2) j g Hs Hm Hnd) as (y' & -> & Hr & Hm' & Ht' & Hg' & Hk).
  - apply Hgs. set_solver.
  - intros Hj. apply (Hd j Hj). set_solver.
  - apply list.NoDup_app in Hnm as (_ & _ & Hnm). by apply list.NoDup_app in Hnm as (? & _).
  - apply Hn. rewrite concat_app. cbn. set_solver.
  - done.
  - exists y'. split; [done|]. split; [done|].
    assert (ET_GRANDCENTRAL :: heads (G1 ++ (j :: g) :: G2) = (l1 ++ [p]) ++ [j] ++ heads G2) as Hh' by by rewrite heads_app, <- Hp.
    pose proof (ch_nodup _ _ H) as Hc. rewrite concat_app in Hc. cbn in Hc.
    assert (j ∉ concat G1 ∧ j ∉ concat G2) as [Hj1 Hj2].
    { apply list.NoDup_cons in Hc as [_ Hc]. rewrite (Permutation_app_comm (concat G1)) in Hc. cbn in Hc.
      apply list.NoDup_cons in Hc as [_ Hc]. apply list.NoDup_cons in Hc as [Hc _]. set_solver. }
    apply (chained_relinked y y' (G1 ++ (i :: j :: g) :: G2)); [done|done|by rewrite Hh'|..].
    + apply Forall_app. split; [|constructor; [done|]]; (apply (groups_frame y); [|eapply Forall_sub; [|apply (ch_groups _ _ H)]; set_solver]);
        intros k Hkc; destruct (Hk k) as (? & E & _); (split; [done|]); apply E; intros ->; done.
    + apply Forall_app. pose proof (ch_parallel _ _ H) as Hpa. rewrite Forall_app, list.Forall_cons in Hpa.
      destruct Hpa as (Hpa1 & Hpa2 & Hpa3). split; [done|]. constructor; [|done]. intros _.
      eapply Forall_sub; [|apply Hpa2; cbn; lia]. set_solver.
    + pose proof (ch_members _ _ H) as Hme. rewrite list.Forall_forall in *. intros k Hkm.
      rewrite members_app in *. cbn [members fmap list_fmap concat tail] in *. fold (members G2) in *.
      assert (k ∈ members G1 ++ g ++ members G2) as Hkm' by done. clear Hkm.
      destruct (Hk k) as (_ & _ & ->).
      * apply Hme. set_solver.
      * intros ->. rewrite (Permutation_app_comm (members G1)) in Hnm. cbn in Hnm. apply list.NoDup_cons in Hnm as [Hnm _]. set_solver.
      * intros Hk2. apply (Hd k); set_solver.
    + eapply sublist_NoDup; [apply (ch_nodup _ _ H)|]. rewrite !concat_app. cbn. by apply sublist_skip, sublist_app, sublist_cons.
    + eapply Forall_sub; [|apply (ch_nums _ _ H)]. rewrite !concat_app. set_solver.
    + rewrite <- last_of_front with (p := 0), Hh'. done.
Qed.

(** A station behind others of its group. *)
Lemma remove_member y s i g1 p g2 G1 G2 :
  chained y (G1 ++ ((g1 ++ [p]) ++ [i] ++ g2) :: G2) → y_stats y !! i = Some s →
  ∃ y', unlink_parallel y s = Ret y' ∧ relinks y y' ∧ chained y' (G1 ++ ((g1 ++ [p]) ++ g2) :: G2).
Proof.
  intros H Hs. set (g := (g1 ++ [p]) ++ [i] ++ g2) in *. set (g' := (g1 ++ [p]) ++ g2).
  pose proof (ch_groups _ _ H) as Hgs. pose proof (ch_nums _ _ H) as Hn. rewrite list.Forall_forall in Hgs; rewrite list.Forall_forall in Hn.
  pose proof (ch_nodup _ _ H) as Hnd. rewrite concat_app in Hnd. cbn [concat] in Hnd.
  assert (NoDup g) as Hndg.
  { apply list.NoDup_cons in Hnd as [_ Hnd]. apply list.NoDup_app in Hnd as (_ & _ & Hnd). by apply list.NoDup_app in Hnd as (? & _). }
  destruct (unlink_parallel_ok y s i g1 p g2) as (y' & -> & Hr & Hg' & Ht & Hk); [done| |done|..].
  { apply Hgs. set_solver. }
  { apply Hn. rewrite concat_app. set_solver. }
  exists y'. split; [done|]. split; [done|].
  assert (heads (G1 ++ g' :: G2) = heads (G1 ++ g :: G2)) as Hh.
  { rewrite !heads_app. f_equal. cbn. f_equal. by destruct g1. }
  assert (∀ k, k ∈ g' → k ∈ g) as Hsub by set_solver.
  apply (chained_relinked y y' (G1 ++ g :: G2)); [done|done|..].
  - rewrite Hh. eapply dseg_frame; [|apply (ch_main _ _ H)]. intros k _. destruct (Hk k) as (-> & -> & _). done.
  - apply Forall_app. split; [|constructor; [split; [by destruct g1|done]|]];
      (apply (groups_frame y); [|eapply Forall_sub; [|apply (ch_groups _ _ H)]; set_solver]);
      intros k Hkc; destruct (Hk k) as (_ & _ & E); apply E; intros Hkg%Hsub.
    + rewrite app_comm_cons in Hnd. apply list.NoDup_app in Hnd as (_ & Hnd & _). apply (Hnd k); set_solver.
    + rewrite app_comm_cons, app_assoc in Hnd. apply list.NoDup_app in Hnd as (_ & Hnd & _). apply (Hnd k); set_solver.
  - apply Forall_app. pose proof (ch_parallel _ _ H) as Hpa. rewrite Forall_app, list.Forall_cons in Hpa.
    destruct Hpa as (Hpa1 & Hpa2 & Hpa3). split; [done|]. constructor; [|done]. intros Hl.
    eapply Forall_sub; [exact Hsub|]. apply Hpa2. unfold g, g' in *. rewrite !length_app in *. cbn. lia.
  - assert (Forall (λ k, prv y k = Some (-1)) (members (G1 ++ g' :: G2))) as Hme.
    { eapply Forall_sub; [|apply (ch_members _ _ H)]. intros k. rewrite !members_app.
      change (members (?x :: ?l)) with (tail x ++ members l). unfold g, g'. destruct g1; set_solver. }
    eapply Forall_impl; [|exact Hme]. intros k Hp. destruct (Hk k) as (_ & -> & _). done.
  - eapply sublist_NoDup; [apply (ch_nodup _ _ H)|]. rewrite !concat_app. cbn [concat].
    apply sublist_skip, sublist_app; [done|]. apply sublist_app; [|done]. apply sublist_app; [done|]. by apply sublist_cons.
  - eapply Forall_sub; [|apply (ch_nums _ _ H)]. intros k. rewrite !concat_app. cbn [concat]. set_solver.
  - rewrite Hh, Ht. apply H.
Qed.

(** The groups without the station [i]; a group with no stations is none. *)
Definition without (i : nat) (G : list (list nat)) : list (list nat) :=
  filter (λ g, g ≠ []) (filter (λ k, k ≠ i) <$> G).

Lemma filter_others i (g : list nat) : i ∉ g → filter (λ k, k ≠ i) g = g.
Proof.
  induction g as [|k g IH]; [done|]. intros Hi. rewrite filter_cons_True by set_solver. f_equal. apply IH. set_solver.
Qed.

Lemma without_others i G : Forall (λ g, g ≠ []) G → i ∉ concat G → without i G = G.
Proof.
  unfold without. induction 1 as [|g G Hg _ IH]; [done|]. intros Hi. cbn [concat] in Hi. rewrite fmap_cons.
  rewrite filter_others by set_solver. rewrite filter_cons_True by done. f_equal. apply IH. set_solver.
Qed.

Lemma without_app i G1 G2 : without i (G1 ++ G2) = without i G1 ++ without i G2.
Proof. unfold without. by rewrite fmap_app, list.filter_app. Qed.

Lemma without_group i g1 g2 : i ∉ g1 → i ∉ g2 →
  without i [g1 ++ i :: g2] = match g1 ++ g2 with [] => [] | g => [g] end.
Proof.
  intros H1 H2. unfold without. rewrite fmap_cons, list.filter_app, (filter_cons_False (λ k, k ≠ i)) by (intros E; by apply E).
  rewrite !filter_others by done. by destruct (g1 ++ g2).
Qed.

Lemma find_station y G i :
  chained y G → i ∈ concat G →
  ∃ G1 g1 g2 G2, G = G1 ++ (g1 ++ i :: g2) :: G2 ∧ i ∉ concat G1 ∧ i ∉ concat G2 ∧ i ∉ g1 ∧ i ∉ g2.
Proof.
  intros H (g & Hg & Hi)%list_elem_of_In%in_concat. apply list_elem_of_In in Hg, Hi.
  apply list_elem_of_split in Hg as (G1 & G2 & ->), Hi as (g1 & g2 & ->).
  exists G1, g1, g2, G2. split; [done|]. pose proof (ch_nodup _ _ H) as Hnd. apply list.NoDup_cons in Hnd as [_ Hnd].
  rewrite concat_app in Hnd. cbn [concat] in Hnd. rewrite <- (app_assoc g1) in Hnd. cbn [app] in Hnd.
  assert (NoDup (i :: (concat G1 ++ g1) ++ g2 ++ concat G2)) as [Hi _]%list.NoDup_cons.
  { by rewrite Permutation_middle, <- app_assoc. }
  set_solver.
Qed.

Lemma station_remove_ok y G i :
  chained y G → i ∈ concat G →
  ∃ y', station_remove y i = Ret y' ∧ relinks y y' ∧ chained y' (without i G).
Proof.
  intros H Hi. destruct (find_station y G i H Hi) as (G1 & g1 & g2 & G2 & -> & Hi1 & Hi2 & Hg1 & Hg2).
  pose proof (chained_nonempty _ _ H) as Hne. rewrite Forall_app, list.Forall_cons in Hne. destruct Hne as (Hne1 & _ & Hne2).
  change (?g :: G2) with ([g] ++ G2). rewrite !without_app, without_group, !without_others by done.
  pose proof (ch_nums _ _ H) as Hn. rewrite list.Forall_forall in Hn.
  destruct (fld_some s_num y i (Z.of_nat i)) as (s & Hs & _); [apply Hn; rewrite concat_app; cbn; set_solver|].
  unfold station_remove, station. rewrite Hs. step.
  pose proof (ch_parallel _ _ H) as Hpa. rewrite Forall_app, list.Forall_cons in Hpa. destruct Hpa as (_ & Hpa & _).
  assert ((1 < length (g1 ++ i :: g2))%nat → c_flow_mode (s_config s) = ET_STATION_PARALLEL) as Hflow.
  { intros Hl. specialize (Hpa Hl). rewrite list.Forall_forall in Hpa. specialize (Hpa i).
    unfold parallel, fld in Hpa. rewrite Hs in Hpa. cbn in Hpa. assert (i ∈ g1 ++ i :: g2) as Hin by set_solver.
    specialize (Hpa Hin). congruence. }
  destruct g1 as [|p g1 _] using rev_ind.
  - assert (0 ≤ s_prev s) as Hprev.
    { destruct (chain_front y G1 ((i :: g2) :: G2) H) as (l1 & p & Hp & Hm & _).
      destruct (main_links y (l1 ++ [p]) i (heads G2) s Hm Hs) as [-> _]. rewrite last_of_app. cbn. lia. }
    destruct (group_links y [] i g2 s) as [_ ->]; [|done|].
    { pose proof (ch_groups _ _ H) as Hg. rewrite list.Forall_forall in Hg. apply (Hg (i :: g2)). set_solver. }
    replace (-1 <? s_prev s) with true by (symmetry; apply Z.ltb_lt; lia).
    destruct g2 as [|j g2].
    + destruct (remove_single y s i G1 G2 H Hs) as (y' & E & Hr & Hc & _). exists y'. split; [|done]. by destruct (_ =? _).
    + destruct (remove_head y s i j g2 G1 G2 H Hs) as (y' & E & Hr & Hc). exists y'. split; [|done].
      rewrite Hflow by (cbn; lia). cbn [first_of from_option head].
      by replace (Z.of_nat j <? 0) with false by (symmetry; apply Z.ltb_ge; lia).
  - assert (s_prev s = -1) as ->.
    { pose proof (ch_members _ _ H) as Hme. rewrite list.Forall_forall in Hme.
      destruct (fld_some s_prev y i (-1)) as (s' & Hs' & <-); [|congruence].
      apply Hme. rewrite members_app. change (members (?x :: ?l)) with (tail x ++ members l). destruct g1; set_solver. }
    rewrite Hflow by (rewrite !length_app; cbn; lia). cbn.
    rewrite <- app_assoc in H. change (p :: i :: g2) with ([p] ++ [i] ++ g2) in H. rewrite app_assoc in H.
    destruct (remove_member y s i g1 p g2 G1 G2 H Hs) as (y' & E & Hr & Hc). exists y'. split; [done|]. split; [done|].
    by destruct g1.
Qed.
