(* ===== verification/EtInsertSpec.v ===== *)
(** * Putting a station into the chains

    [seat_of] is where [station_insert] puts a station, by the configurations of the
    stations and the position asked for, and [seated] the groups that result. *)

From S2P Require Import Prelude Words EtTypes EtConductor EtChains EtChainSpec.

(** ** Where a station goes *)

Inductive seat :=
| AtEnd
| Before (n : nat)
| Behind (n k : nat)
| Refused.

Definition config_of (y : et_system) (i : nat) : et_stat_config := default (s_config fresh_station) (fld s_config y i).
Definition is_parallel (y : et_system) (i : nat) : bool := c_flow_mode (config_of y i) =? ET_STATION_PARALLEL.

(** The place in a group: after as many members as the position says, or at the end. *)
Definition member_place (g : list nat) (parallelposition : Z) : nat :=
  if (1 <=? parallelposition) && (parallelposition <=? Z.of_nat (length g))
  then Z.to_nat parallelposition else length g.

Definition seat_of (y : et_system) (G : list (list nat)) (i : nat) (position parallelposition : Z) : seat :=
  if position <? 1 then AtEnd else
  let n := Z.to_nat (position - 1) in
  match G !! n with
  | None => AtEnd
  | Some g =>
      let h := default O (head g) in
      if is_parallel y i && is_parallel y h && negb (parallelposition =? ET_NEWHEAD) then
        if negb (et_station_compare_parallel (config_of y h) (config_of y i)) then Refused else
        if parallelposition =? 0 then Refused else Behind n (member_place g parallelposition)
      else Before n
  end.

Definition seated (G : list (list nat)) (i : nat) (t : seat) : list (list nat) :=
  match t with
  | AtEnd => G ++ [[i]]
  | Before n => take n G ++ [i] :: drop n G
  | Behind n k => alter (λ g, take k g ++ i :: drop k g) n G
  | Refused => G
  end.

(** What the links of the station have to be before, which [station_insert] does not set. *)
Definition fits (y : et_system) (i : nat) (t : seat) : Prop :=
  match t with
  | AtEnd => nxt y i = Some (-1) ∧ nxp y i = Some (-1) ∧ prp y i = Some (-1)
  | Before _ => nxp y i = Some (-1) ∧ prp y i = Some (-1)
  | Behind _ _ => prv y i = Some (-1)
  | Refused => True
  end.

(** ** The steps *)

(** A station that is in no chain. *)
Record apart (y : et_system) (G : list (list nat)) (i : nat) : Prop := Apart {
  ap_out : i ∉ ET_GRANDCENTRAL :: concat G;
  ap_num : fld s_num y i = Some (Z.of_nat i)
}.

Lemma apart_known y G i : apart y G i → is_Some (y_stats y !! i).
Proof. intros [_ (s & Hs & _)%fld_some]. by exists s. Qed.

Lemma apart_nodup y G1 G2 i :
  chained y (G1 ++ G2) → apart y (G1 ++ G2) i → NoDup (ET_GRANDCENTRAL :: concat (G1 ++ [i] :: G2)).
Proof.
  intros H [Ho _]. pose proof (ch_nodup _ _ H) as Hnd. rewrite !concat_app in *. cbn in *.
  rewrite <- Permutation_middle, Permutation_swap. apply list.NoDup_cons. done.
Qed.

(** A station [i] whose parallel links are unset becomes a group of its own: what the new
    main list needs. *)
Lemma chained_own_group y y' G1 G2 i :
  chained y (G1 ++ G2) → apart y (G1 ++ G2) i → nxp y i = Some (-1) → prp y i = Some (-1) →
  relinks y y' → main y' (ET_GRANDCENTRAL :: heads (G1 ++ [i] :: G2)) →
  y_stat_tail y' = last_of (heads (G1 ++ [i] :: G2)) 0 →
  (∀ k, nxp y' k = nxp y k ∧ prp y' k = prp y k ∧ (k ∉ i :: heads G2 → prv y' k = prv y k)) →
  chained y' (G1 ++ [i] :: G2).
Proof.
  intros H Ha Hn Hp Hr Hm Ht Hk. apply (chained_relinked y y' (G1 ++ G2)); try done.
  - pose proof (ch_groups _ _ H) as Hg. apply Forall_app in Hg as [Hg1 Hg2].
    apply Forall_app. split; [|constructor; [split; [done|]|]].
    + eapply groups_frame; [|exact Hg1]. intros k _. destruct (Hk k) as (? & ? & _). done.
    + cbn. destruct (Hk i) as (-> & -> & _). done.
    + eapply groups_frame; [|exact Hg2]. intros k _. destruct (Hk k) as (? & ? & _). done.
  - pose proof (ch_parallel _ _ H) as Hg. apply Forall_app in Hg as [Hg1 Hg2].
    apply Forall_app. split; [done|]. constructor; [cbn; lia|done].
  - pose proof (chained_distinct _ _ H) as Hd. pose proof (ch_members _ _ H) as Hme.
    rewrite members_app in *. change (members ([i] :: G2)) with (members G2).
    rewrite list.Forall_forall in *. intros k Hkm. destruct (Hk k) as (_ & _ & ->); [by apply Hme|].
    intros [->|Hk2]%elem_of_cons.
    + apply (ap_out _ _ _ Ha). right. apply elem_of_members. by rewrite members_app.
    + apply list.NoDup_app in Hd as (_ & Hd & _). apply (Hd k); [rewrite heads_app; set_solver|done].
  - by eapply apart_nodup.
  - pose proof (ch_nums _ _ H) as Hnum. rewrite !concat_app in *. cbn. rewrite list.Forall_forall in *.
    intros k Hkc. destruct (decide (k = i)) as [->|]; [apply Ha|]. apply Hnum. set_solver.
Qed.

Lemma apart_not_main y G1 G2 i :
  chained y (G1 ++ G2) → apart y (G1 ++ G2) i → i ∉ (ET_GRANDCENTRAL :: heads G1) ++ heads G2.
Proof.
  intros H [Ho _] Hi. apply Ho. apply elem_of_app in Hi.
  pose proof (chained_nonempty _ _ H) as Hne. apply Forall_app in Hne as [H1 H2]. rewrite concat_app.
  destruct Hi as [[->|Hi]%elem_of_cons|Hi]; [by left|..]; right; apply elem_of_app; [left|right]; by apply elem_of_heads.
Qed.

(** The links around [i] between [p], the last of the groups [G1], and the groups [G2]. *)
Lemma chained_inserted y y' G1 G2 i p :
  chained y (G1 ++ G2) → apart y (G1 ++ G2) i → nxp y i = Some (-1) → prp y i = Some (-1) →
  last (ET_GRANDCENTRAL :: heads G1) = Some p → relinks y y' →
  y_stat_tail y' = last_of (heads G2) (Z.of_nat i) →
  (∀ k, nxp y' k = nxp y k ∧ prp y' k = prp y k ∧
    nxt y' k = (if decide (k = p) then Some (Z.of_nat i) else
                if decide (k = i) then Some (first_of (heads G2) (-1)) else nxt y k) ∧
    prv y' k = (if decide (head (heads G2) = Some k) then Some (Z.of_nat i) else
                if decide (k = i) then Some (Z.of_nat p) else prv y k)) →
  chained y' (G1 ++ [i] :: G2).
Proof.
  intros H Ha Hn Hp Hl Hr Ht Hk. destruct (chain_front y G1 G2 H) as (l1 & q & Hq & Hm & Hnd & _ & _).
  rewrite Hq, last_snoc in Hl. injection Hl as ->.
  pose proof (apart_not_main y G1 G2 i H Ha) as Hi. rewrite Hq in Hi.
  apply (chained_own_group y y' G1 G2); try done.
  - rewrite heads_app, app_comm_cons, Hq. change (heads ([i] :: G2)) with ([i] ++ heads G2).
    apply (splice (nxt y) (prv y) _ _ l1 p [] (heads G2)); [done|done|..].
    + intros k Hkm. destruct (Hk k) as (_ & _ & -> & _). decides; set_solver.
    + intros k Hkm. destruct (Hk k) as (_ & _ & _ & ->). rewrite last_of_app. decides; set_solver.
    + destruct (Hk i) as (_ & _ & E1 & E2). split; [|split; [|done]].
      * rewrite E2. decides; destruct (heads G2); simplify_eq/=; set_solver.
      * rewrite E1. decides; set_solver.
  - rewrite heads_app, last_of_app. change (heads ([i] :: G2)) with (i :: heads G2). by rewrite last_of_cons.
  - intros k. destruct (Hk k) as (-> & -> & _ & ->). split_and!; [done..|]. intros Hki. decides; destruct (heads G2); simplify_eq/=; set_solver.
Qed.

Lemma last_known y G1 G2 p :
  chained y (G1 ++ G2) → last (ET_GRANDCENTRAL :: heads G1) = Some p → fld s_num y p = Some (Z.of_nat p).
Proof.
  intros H Hl. destruct (chain_front y G1 G2 H) as (l1 & q & Hq & _ & _ & Hn & _).
  rewrite Hq, last_snoc in Hl. by injection Hl as ->.
Qed.

Lemma apart_last y G1 G2 i p :
  chained y (G1 ++ G2) → apart y (G1 ++ G2) i → last (ET_GRANDCENTRAL :: heads G1) = Some p → i ≠ p.
Proof.
  intros H Ha Hl ->. apply (apart_not_main y G1 G2 p H Ha), elem_of_app. left. by apply last_Some_elem_of.
Qed.

Lemma insert_end_ok y G i p :
  chained y G → apart y G i → fits y i AtEnd → last (ET_GRANDCENTRAL :: heads G) = Some p →
  ∃ y', insert_end y i (Z.of_nat i) (Z.of_nat p) = Ret (ET_OK, y') ∧ relinks y y' ∧ chained y' (G ++ [[i]]).
Proof.
  intros H Ha (Hn & Hnp & Hpp) Hl. rewrite <- (app_nil_r G) in H, Ha. pose proof (apart_known _ _ _ Ha) as Hki.
  pose proof (apart_last _ _ _ _ _ H Ha Hl) as Hip.
  destruct (fld_some _ _ _ _ (last_known _ _ _ _ H Hl)) as (sp & Hsp & Hnum).
  assert (is_Some (y_stats y !! p)) as Hkp by by rewrite Hsp.
  unfold insert_end. rewrite (at_station_ok y p sp Hsp). step. rewrite Hnum.
  rewrite set_at_ok by (fields; by apply is_Some_set). step. eexists. split; [done|].
  split.
  { eapply relinks_trans; [|by apply relinks_set]. eapply relinks_trans; [|apply relinks_tail]. by apply relinks_set. }
  apply (chained_inserted y _ G [] i p); try done.
  - eapply relinks_trans; [|by apply relinks_set]. eapply relinks_trans; [|apply relinks_tail]. by apply relinks_set.
  - intros k. links. decides.
Qed.

Lemma insert_between_ok y G1 G2 i p :
  chained y (G1 ++ G2) → apart y (G1 ++ G2) i → fits y i (Before (length G1)) →
  last (ET_GRANDCENTRAL :: heads G1) = Some p → G2 ≠ [] →
  ∃ y', insert_between y i (Z.of_nat i) (Z.of_nat p) (first_of (heads G2) (-1)) = Ret (ET_OK, y') ∧
    relinks y y' ∧ chained y' (G1 ++ [i] :: G2).
Proof.
  intros H Ha (Hnp & Hpp) Hl Hne. pose proof (apart_known _ _ _ Ha) as Hki.
  pose proof (apart_last _ _ _ _ _ H Ha Hl) as Hip. pose proof (apart_not_main _ _ _ _ H Ha) as Hi.
  destruct (fld_some _ _ _ _ (last_known _ _ _ _ H Hl)) as (sp & Hsp & Hnum).
  assert (is_Some (y_stats y !! p)) as Hkp by by rewrite Hsp.
  destruct (chain_front y G1 G2 H) as (l1 & q & Hq & Hm & Hnd & _ & Ht).
  destruct G2 as [|g G2]; [done|]. change (heads (g :: G2)) with (default O (head g) :: heads G2) in *.
  set (n := default O (head g)) in *.
  assert (is_Some (y_stats y !! n)) as Hkn by (eapply main_known; [exact Hm|set_solver]).
  assert (n ≠ p) as Hnep.
  { intros ->. apply list.NoDup_app in Hnd as (_ & Hnd & _). rewrite <- Hq in Hnd.
    apply (Hnd p); [by apply last_Some_elem_of|by left]. }
  unfold insert_between. rewrite (at_station_ok y p sp Hsp). step. rewrite Hnum. cbn [first_of from_option head].
  rewrite set_at_ok by by apply is_Some_set. step. rewrite set_at_ok by by rewrite !is_Some_set. step.
  eexists. split; [done|]. split; [|apply (chained_inserted y _ G1 (g :: G2) i p); try done].
  1,2: do 2 (eapply relinks_trans; [|by apply relinks_set]); by apply relinks_set.
  - unfold set_station. fields. rewrite Ht, last_of_app. change (heads (g :: G2)) with (n :: heads G2). by rewrite !last_of_cons.
  - intros k. change (heads (g :: G2)) with (n :: heads G2). links. cbn. decides; set_solver.
Qed.

(** The links around [i] between the members [g1], the last of which is [p], and [g2]. *)
Lemma chained_member y y' G1 G2 g1 p g2 i :
  let g := (g1 ++ [p]) ++ g2 in
  chained y (G1 ++ g :: G2) → apart y (G1 ++ g :: G2) i → prv y i = Some (-1) → parallel y i → Forall (parallel y) g →
  relinks y y' → y_stat_tail y' = y_stat_tail y →
  (∀ k, nxt y' k = nxt y k ∧ prv y' k = prv y k ∧
    nxp y' k = (if decide (k = p) then Some (Z.of_nat i) else
                if decide (k = i) then Some (first_of g2 (-1)) else nxp y k) ∧
    prp y' k = (if decide (head g2 = Some k) then Some (Z.of_nat i) else
                if decide (k = i) then Some (Z.of_nat p) else prp y k)) →
  chained y' (G1 ++ ((g1 ++ [p]) ++ i :: g2) :: G2).
Proof.
  intros g H Ha Hpv Hpi Hpg Hr Ht Hk. set (g' := (g1 ++ [p]) ++ i :: g2).
  pose proof (ap_out _ _ _ Ha) as Ho. rewrite concat_app in Ho. cbn [concat] in Ho.
  assert (g' ≡ₚ i :: g) as Hperm by (unfold g', g; by rewrite <- Permutation_middle).
  assert (heads (G1 ++ g' :: G2) = heads (G1 ++ g :: G2)) as Hh.
  { rewrite !heads_app. f_equal. cbn. f_equal. unfold g', g. by destruct g1. }
  assert (NoDup (ET_GRANDCENTRAL :: concat (G1 ++ g' :: G2))) as Hnd'.
  { pose proof (ch_nodup _ _ H) as Hnd. rewrite !concat_app in *. cbn [concat] in *. rewrite Hperm. cbn.
    rewrite <- Permutation_middle, Permutation_swap. by apply list.NoDup_cons. }
  assert (NoDup g') as Hndg.
  { apply list.NoDup_cons in Hnd' as [_ Hnd']. rewrite concat_app in Hnd'.
    apply list.NoDup_app in Hnd' as (_ & _ & Hnd'). by apply list.NoDup_app in Hnd' as (? & _). }
  assert (∀ k, k ∈ concat G1 ∨ k ∈ concat G2 → nxp y' k = nxp y k ∧ prp y' k = prp y k) as Hother.
  { intros k Hkc. assert (k ∉ g') as Hkg.
    { apply list.NoDup_cons in Hnd' as [_ Hnd']. rewrite concat_app in Hnd'. cbn [concat] in Hnd'.
      apply list.NoDup_app in Hnd' as (_ & Hd1 & Hnd'). apply list.NoDup_app in Hnd' as (_ & Hd2 & _).
      intros Hkg. destruct Hkc as [Hkc|Hkc]; [apply (Hd1 k Hkc); set_solver|by apply (Hd2 k Hkg)]. }
    destruct (Hk k) as (_ & _ & -> & ->). unfold g' in Hkg. split; decides; destruct g2; simplify_eq/=; set_solver. }
  apply (chained_relinked y y' (G1 ++ g :: G2)); [done|done|..].
  - rewrite Hh. eapply dseg_frame; [|apply (ch_main _ _ H)]. intros k _. destruct (Hk k) as (-> & -> & _). done.
  - pose proof (ch_groups _ _ H) as Hg. rewrite Forall_app, list.Forall_cons in Hg. destruct Hg as (Hg1 & [_ Hg] & Hg2).
    apply Forall_app. split; [|constructor; [split; [unfold g'; by destruct g1|]|]].
    + eapply groups_frame; [|exact Hg1]. intros k Hkc. apply Hother. by left.
    + change g' with ((g1 ++ [p]) ++ [i] ++ g2). apply (splice (nxp y) (prp y) _ _ g1 p [] g2); [done|..].
      * eapply sublist_NoDup; [exact Hndg|]. by apply sublist_app, sublist_cons.
      * intros k Hkg. destruct (Hk k) as (_ & _ & -> & _). decides; set_solver.
      * intros k Hkg. destruct (Hk k) as (_ & _ & _ & ->). rewrite last_of_app. decides; set_solver.
      * destruct (Hk i) as (_ & _ & E1 & E2). split; [|split; [|done]].
        -- rewrite E2. decides; destruct g2; simplify_eq/=; set_solver.
        -- rewrite E1. decides; set_solver.
    + eapply groups_frame; [|exact Hg2]. intros k Hkc. apply Hother. by right.
  - pose proof (ch_parallel _ _ H) as Hpa. rewrite Forall_app, list.Forall_cons in Hpa. destruct Hpa as (Hpa1 & _ & Hpa2).
    apply Forall_app. split; [done|]. constructor; [|done]. intros _. rewrite Hperm. by constructor.
  - rewrite list.Forall_forall. intros k Hkm. destruct (Hk k) as (_ & -> & _).
    destruct (decide (k = i)) as [->|Hne]; [done|]. pose proof (ch_members _ _ H) as Hme. rewrite list.Forall_forall in Hme.
    apply Hme. rewrite !members_app in *. change (members (?x :: ?l)) with (tail x ++ members l) in *.
    unfold g', g in *. destruct g1; set_solver.
  - done.
  - pose proof (ch_nums _ _ H) as Hn. rewrite list.Forall_forall in *. intros k Hkc.
    destruct (decide (k = i)) as [->|Hne]; [apply Ha|]. apply Hn. rewrite !concat_app in *. cbn [concat] in *.
    rewrite Hperm in Hkc. set_solver.
  - rewrite Hh, Ht. apply H.
Qed.

Lemma member_known y G1 G2 g k :
  chained y (G1 ++ g :: G2) → k ∈ g → fld s_num y k = Some (Z.of_nat k) ∧ is_Some (y_stats y !! k) ∧ group y g.
Proof.
  intros H Hk. assert (fld s_num y k = Some (Z.of_nat k)) as Hn.
  { pose proof (ch_nums _ _ H) as Hn. rewrite list.Forall_forall in Hn. apply Hn. rewrite concat_app. set_solver. }
  split; [done|]. split; [destruct (fld_some _ _ _ _ Hn) as (s & Hs & _); by exists s|].
  pose proof (ch_groups _ _ H) as Hg. rewrite list.Forall_forall in Hg. apply (Hg g). set_solver.
Qed.

Lemma insert_behind_ok y G1 G2 g1 p g2 i :
  let g := (g1 ++ [p]) ++ g2 in
  chained y (G1 ++ g :: G2) → apart y (G1 ++ g :: G2) i → prv y i = Some (-1) → parallel y i → Forall (parallel y) g →
  ∃ y', insert_behind y i (Z.of_nat i) (Z.of_nat p) (first_of g2 (-1)) = Ret (ET_OK, y') ∧
    relinks y y' ∧ chained y' (G1 ++ ((g1 ++ [p]) ++ i :: g2) :: G2).
Proof.
  intros g H Ha Hpv Hpi Hpg. pose proof (apart_known _ _ _ Ha) as Hki.
  destruct (member_known y G1 G2 g p H) as (Hnum & Hkp & Hg); [unfold g; set_solver|].
  destruct (fld_some _ _ _ _ Hnum) as (s & Hs & Hnum').
  assert (i ∉ g) as Hig.
  { intros Hi. apply (ap_out _ _ _ Ha). right. rewrite concat_app. set_solver. }
  unfold insert_behind. rewrite (at_station_ok y p s Hs). step. rewrite Hnum'. set (y1 := set_station y i _).
  assert (relinks y y1) as Hr1 by by apply relinks_set.
  destruct (join_parallel_ok y1 g2 i) as (y2 & -> & Hr2 & Ht2 & Hl2).
  { intros n Hn. eapply relinks_known; [done|]. apply (member_known y G1 G2 g); [done|].
    unfold g. destruct g2; simplify_eq/=. set_solver. }
  step. rewrite set_at_ok by (do 2 (eapply relinks_known; [done|]); done). step. eexists. split; [done|].
  match goal with |- relinks y ?z ∧ _ => assert (relinks y z) as Hr end.
  { eapply relinks_trans; [|by apply relinks_set]. by eapply relinks_trans. }
  split; [done|]. apply (chained_member y _ G1 G2 g1 p g2 i); try done.
  assert (is_Some (y_stats y2 !! p)) as Hkp2 by (do 2 (eapply relinks_known; [done|]); done).
  intros k. destruct (Hl2 k) as (E1 & E2 & E3 & E4). links. rewrite E1, E2, E3, E4. subst y1. links.
  unfold g in Hig. decides; set_solver.
Qed.

Lemma member_next y g1 p g2 s :
  group y ((g1 ++ [p]) ++ g2) → y_stats y !! p = Some s → s_nextparallel s = first_of g2 (-1).
Proof. rewrite <- app_assoc. intros Hg Hs. by apply (group_links y g1 p g2 s Hg). Qed.

Lemma member_place_eq g pp n :
  (pp = Z.of_nat n ∧ (1 ≤ n ≤ length g)%nat) ∨ (n = length g ∧ (pp < 1 ∨ Z.of_nat n < pp)) → member_place g pp = n.
Proof.
  unfold member_place. intros H. destruct (Z.leb_spec 1 pp), (Z.leb_spec pp (Z.of_nat (length g))); cbn; lia.
Qed.

Lemma place_behind g1 (p : nat) g2 i pp :
  member_place ((g1 ++ [p]) ++ g2) pp = S (length g1) →
  let g := (g1 ++ [p]) ++ g2 in
  take (member_place g pp) g ++ i :: drop (member_place g pp) g = (g1 ++ [p]) ++ i :: g2.
Proof.
  intros E g. subst g. rewrite E. assert (length (g1 ++ [p]) = S (length g1)) as El by (rewrite length_app; cbn; lia).
  by rewrite <- El, take_app_length, drop_app_length.
Qed.

(** The walk along a group: [p] is its member number [counter]. *)
Lemma insert_parallel_ok y G1 G2 g1 p g2 i pp fuel :
  let g := (g1 ++ [p]) ++ g2 in
  chained y (G1 ++ g :: G2) → apart y (G1 ++ g :: G2) i → prv y i = Some (-1) → parallel y i → Forall (parallel y) g →
  pp < 1 ∨ Z.of_nat (length g1) < pp → (length g2 < fuel)%nat →
  let k := member_place g pp in
  ∃ y', insert_parallel y i (Z.of_nat i) (Z.of_nat (length g1) + 1) (Z.of_nat p) pp fuel = Ret (ET_OK, y') ∧
    relinks y y' ∧ chained y' (G1 ++ (take k g ++ i :: drop k g) :: G2).
Proof.
  intros g H Ha Hpv Hpi Hpg Hpp Hfuel k. subst k g. revert g1 p fuel H Ha Hpg Hpp Hfuel.
  induction g2 as [|q g2 IH]; intros g1 p [|fuel] H Ha Hpg Hpp Hfuel; try (cbn in Hfuel; lia); cbn [insert_parallel].
  - destruct (member_known y G1 G2 _ p H) as (_ & [s Hs] & Hg); [set_solver|].
    rewrite (at_station_ok y p s Hs). step. rewrite (member_next y g1 p [] s Hg Hs). cbn [first_of from_option head].
    replace ((_ =? pp) || _) with true by (symmetry; apply orb_true_r).
    rewrite place_behind by (apply member_place_eq; rewrite !length_app; cbn [length]; lia).
    by apply (insert_behind_ok y G1 G2 g1 p [] i).
  - destruct (member_known y G1 G2 _ p H) as (_ & [s Hs] & Hg); [set_solver|].
    rewrite (at_station_ok y p s Hs). step. rewrite (member_next y g1 p (q :: g2) s Hg Hs). cbn [first_of from_option head].
    replace (Z.of_nat q <? 0) with false by (symmetry; apply Z.ltb_ge; lia). rewrite orb_false_r.
    destruct (Z.eqb_spec (Z.of_nat (length g1) + 1) pp) as [E|E].
    + rewrite place_behind by (apply member_place_eq; rewrite !length_app; cbn [length]; lia).
      by apply (insert_behind_ok y G1 G2 g1 p (q :: g2) i).
    + change (q :: g2) with ([q] ++ g2) in *. rewrite (app_assoc (g1 ++ [p])) in *.
      replace (Z.of_nat (length g1) + 1 + 1) with (Z.of_nat (length (g1 ++ [p])) + 1) by (rewrite length_app; cbn; lia).
      apply IH; try done; [rewrite length_app; cbn; lia|cbn in Hfuel; lia].
Qed.

(** ** The walk along the main list *)

Lemma config_of_station y i s : y_stats y !! i = Some s → config_of y i = s_config s.
Proof. intros Hs. unfold config_of, fld. by rewrite Hs. Qed.

Lemma is_parallel_spec y i : is_Some (y_stats y !! i) → is_parallel y i = true ↔ parallel y i.
Proof.
  intros [s Hs]. unfold is_parallel, parallel. rewrite (config_of_station y i s Hs). unfold fld. rewrite Hs. cbn.
  rewrite Z.eqb_eq. split; congruence.
Qed.

(** The station of the main list behind [p], the last of [G1]. *)
Lemma last_next y G1 G2 p s :
  chained y (G1 ++ G2) → last (ET_GRANDCENTRAL :: heads G1) = Some p → y_stats y !! p = Some s →
  s_next s = first_of (heads G2) (-1).
Proof.
  intros H Hl Hs. destruct (chain_front y G1 G2 H) as (l1 & q & Hq & Hm & _).
  rewrite Hq, last_snoc in Hl. injection Hl as ->. rewrite <- app_assoc in Hm. by apply (main_links y l1 p (heads G2) s Hm).
Qed.

Lemma group_parallel y G1 G2 g :
  chained y (G1 ++ g :: G2) → is_parallel y (default O (head g)) = true → Forall (parallel y) g.
Proof.
  intros H Hp. pose proof (ch_parallel _ _ H) as Hg. rewrite Forall_app, list.Forall_cons in Hg. destruct Hg as (_ & Hg & _).
  destruct g as [|h [|k g]]; [done| |apply Hg; cbn; lia]. constructor; [|done].
  apply is_parallel_spec; [|done]. apply (member_known y G1 G2 [h]); [done|by left].
Qed.

Lemma length_below (l : list nat) n : NoDup l → Forall (λ i, i < n)%nat l → (length l ≤ n)%nat.
Proof.
  intros Hnd Hl. replace n with (length (seq 0 n)) by apply length_seq. apply NoDup_incl_length; [by apply NoDup_ListNoDup|].
  intros i Hi%list_elem_of_In. rewrite list.Forall_forall in Hl. apply in_seq. specialize (Hl i Hi). lia.
Qed.

Lemma chained_length y G : chained y G → (S (length (concat G)) ≤ length (y_stats y))%nat.
Proof.
  intros H. apply (length_below (ET_GRANDCENTRAL :: concat G)); [apply H|].
  eapply Forall_impl; [|apply (ch_nums _ _ H)]. intros k (s & Hs & _)%fld_some. by eapply lookup_lt_Some.
Qed.

Lemma group_length y G1 G2 g : chained y (G1 ++ g :: G2) → (length g ≤ length (y_stats y))%nat.
Proof. intros H%chained_length. rewrite concat_app, length_app in H. cbn in H. rewrite length_app in H. lia. Qed.

Lemma length_groups (G : list (list nat)) : Forall (λ g, g ≠ []) G → (length G ≤ length (concat G))%nat.
Proof. induction 1 as [|[|i g] G Hg _ IH]; [done..|]. cbn. rewrite length_app. lia. Qed.

(** The refused or accepted place in the group [g], which is behind [G1]. *)
Lemma insert_group_ok y G1 G2 g i s p pp t :
  chained y (G1 ++ g :: G2) → apart y (G1 ++ g :: G2) i → y_stats y !! i = Some s →
  last (ET_GRANDCENTRAL :: heads G1) = Some p →
  t = seat_of y (G1 ++ g :: G2) i (Z.of_nat (length G1) + 1) pp → fits y i t → 0 ≤ pp ∨ pp = ET_END ∨ pp = ET_NEWHEAD →
  ∃ y', (pnext ← at_station y (first_of (heads (g :: G2)) (-1));
         if (c_flow_mode (s_config s) =? ET_STATION_PARALLEL) &&
            (c_flow_mode (s_config pnext) =? ET_STATION_PARALLEL) && negb (pp =? ET_NEWHEAD) then
           if negb (et_station_compare_parallel (s_config pnext) (s_config s)) then Ret (ET_ERROR, y) else
           if pp =? 0 then Ret (ET_ERROR, y) else
           insert_parallel y i (s_num s) 1 (first_of (heads (g :: G2)) (-1)) pp (S (length (y_stats y)))
         else insert_between y i (s_num s) (Z.of_nat p) (first_of (heads (g :: G2)) (-1)))
        = Ret (match t with Refused => ET_ERROR | _ => ET_OK end, y') ∧
    relinks y y' ∧ chained y' (seated (G1 ++ g :: G2) i t) ∧ (t = Refused → y' = y).
Proof.
  intros H Ha Hs Hl -> Hf Hpp. set (h := default O (head g)).
  pose proof (chained_nonempty _ _ H) as Hne. rewrite Forall_app, list.Forall_cons in Hne. destruct Hne as (_ & Hne & _).
  assert (∃ g', g = h :: g') as [g' Eg] by (destruct g; [done|by eexists]).
  destruct (member_known y G1 G2 g h H) as (_ & [sh Hsh] & Hg); [rewrite Eg; by left|].
  assert (s_num s = Z.of_nat i) as Hnum.
  { destruct (fld_some _ _ _ _ (ap_num _ _ _ Ha)) as (s' & Hs' & <-). congruence. }
  change (first_of (heads (g :: G2)) (-1)) with (Z.of_nat h). rewrite (at_station_ok y h sh Hsh), Hnum. step.
  unfold seat_of in *. replace (_ <? 1) with false in * by (symmetry; apply Z.ltb_ge; lia).
  replace (Z.to_nat (Z.of_nat (length G1) + 1 - 1)) with (length G1) in * by lia.
  rewrite lookup_app_r, Nat.sub_diag in * by done. cbn [lookup list_lookup] in *. fold h in Hf |- *.
  unfold is_parallel in *. rewrite (config_of_station y i s Hs), (config_of_station y h sh Hsh) in *.
  destruct ((_ =? _) && (_ =? _) && negb (pp =? ET_NEWHEAD)) eqn:Ejoin.
  - destruct (negb (et_station_compare_parallel _ _)) eqn:Ecmp; [exists y; split_and!; [done|apply relinks_refl|done|done]|].
    destruct (Z.eqb_spec pp 0) as [->|Hp0]; [exists y; split_and!; [done|apply relinks_refl|done|done]|].
    rewrite !andb_true_iff, !Z.eqb_eq, negb_true_iff, Z.eqb_neq in Ejoin. destruct Ejoin as [[Epi Eph] Enh].
    assert (parallel y i) as Hpi by (unfold parallel, fld; rewrite Hs; cbn; by rewrite Epi).
    assert (Forall (parallel y) g) as Hpg.
    { apply (group_parallel y G1 G2); [done|]. fold h. unfold is_parallel. rewrite (config_of_station y h sh Hsh). by apply Z.eqb_eq. }
    destruct (insert_parallel_ok y G1 G2 [] h g' i pp (S (length (y_stats y)))) as (y' & E & Hr & Hc); try done.
    + change (([] ++ [h]) ++ g') with (h :: g'). by rewrite <- Eg.
    + change (([] ++ [h]) ++ g') with (h :: g'). by rewrite <- Eg.
    + change (([] ++ [h]) ++ g') with (h :: g'). by rewrite <- Eg.
    + unfold ET_END, ET_NEWHEAD in *. cbn. lia.
    + assert (length g ≤ length (y_stats y))%nat as Hlg by by eapply group_length.
      rewrite Eg in Hlg. cbn in Hlg. lia.
    + exists y'. split; [exact E|]. split; [done|]. split; [|done]. cbn [seated].
      change (([] ++ [h]) ++ g') with (h :: g') in Hc. rewrite <- Eg in Hc.
      rewrite alter_app_r_alt by done. rewrite Nat.sub_diag. exact Hc.
  - destruct (insert_between_ok y G1 (g :: G2) i p) as (y' & E & Hr & Hc); try done.
    exists y'. split; [exact E|]. split; [done|]. split; [|done]. cbn [seated]. by rewrite take_app_length, drop_app_length.
Qed.

Definition insert_status (t : seat) : Z := match t with Refused => ET_ERROR | _ => ET_OK end.

Lemma insert_loop_ok y G1 G2 i s p pos pp fuel t :
  chained y (G1 ++ G2) → apart y (G1 ++ G2) i → y_stats y !! i = Some s →
  last (ET_GRANDCENTRAL :: heads G1) = Some p → pos < 1 ∨ Z.of_nat (length G1) < pos → (length G2 < fuel)%nat →
  t = seat_of y (G1 ++ G2) i pos pp → fits y i t → 0 ≤ pp ∨ pp = ET_END ∨ pp = ET_NEWHEAD →
  ∃ y', insert_loop y i s (Z.of_nat (length G1) + 1) (Z.of_nat p) pos pp fuel = Ret (insert_status t, y') ∧
    relinks y y' ∧ chained y' (seated (G1 ++ G2) i t) ∧ (t = Refused → y' = y).
Proof.
  intros H Ha Hs Hl Hpos Hfuel Et Hf Hpp.
  assert (s_num s = Z.of_nat i) as Hnum.
  { destruct (fld_some _ _ _ _ (ap_num _ _ _ Ha)) as (s' & Hs' & <-). congruence. }
  revert G1 p fuel H Ha Hl Hpos Hfuel Et.
  induction G2 as [|g G2 IH]; intros G1 p [|fuel] H Ha Hl Hpos Hfuel Et; try (cbn in Hfuel; lia); cbn [insert_loop];
    (destruct (fld_some _ _ _ _ (last_known _ _ _ _ H Hl)) as (sp & Hsp & _)); rewrite (at_station_ok y p sp Hsp); step;
    rewrite (last_next _ _ _ _ _ H Hl Hsp).
  - cbn [heads fmap list_fmap first_of from_option head]. rewrite Hnum. rewrite app_nil_r in *.
    assert (t = AtEnd) as ->.
    { rewrite Et. unfold seat_of. destruct (Z.ltb_spec pos 1); [done|]. by rewrite lookup_ge_None_2 by lia. }
    destruct (insert_end_ok y G1 i p) as (y' & E & Hr & Hc); try done. exists y'. by split_and!.
  - cbn [heads fmap list_fmap first_of from_option head].
    replace (Z.of_nat _ <? 0) with false by (symmetry; apply Z.ltb_ge; lia).
    destruct (Z.eqb_spec (Z.of_nat (length G1) + 1) pos) as [<-|Hne].
    + by apply (insert_group_ok y G1 G2 g i s p pp t).
    + change (g :: G2) with ([g] ++ G2) in *. rewrite (app_assoc G1) in *.
      replace (Z.of_nat (length G1) + 1 + 1) with (Z.of_nat (length (G1 ++ [g])) + 1) by (rewrite length_app; cbn; lia).
      apply IH; try done; [|rewrite length_app; cbn; lia|cbn in Hfuel; lia].
      rewrite heads_app, app_comm_cons. apply last_snoc.
Qed.

(** A station is put where its position says, or refused and nothing changes. *)
Lemma station_insert_ok y G i pos pp t :
  chained y G → apart y G i → y_nstations y = Z.of_nat (length (concat G)) + 2 →
  t = seat_of y G i pos pp → fits y i t → 0 ≤ pp ∨ pp = ET_END ∨ pp = ET_NEWHEAD →
  ∃ y', station_insert y i pos pp = Ret (insert_status t, y') ∧
    relinks y y' ∧ chained y' (seated G i t) ∧ (t = Refused → y' = y).
Proof.
  intros H Ha Hn Et Hf Hpp. destruct (fld_some _ _ _ _ (ap_num _ _ _ Ha)) as (s & Hs & Hnum).
  unfold station_insert, station. rewrite Hs, Hn. step.
  pose proof (chained_nonempty _ _ H) as Hne. apply length_groups in Hne.
  destruct (Z.ltb_spec (Z.of_nat (length (concat G)) + 2) 3).
  - assert (G = []) as -> by (destruct G; cbn in *; [done|lia]).
    assert (t = AtEnd) as -> by (rewrite Et; unfold seat_of; by destruct (pos <? 1)).
    rewrite Hnum. destruct (insert_end_ok y [] i 0) as (y' & E & Hr & Hc); try done. exists y'. by split_and!.
  - pose proof (chained_length _ _ H) as Hlen. apply (insert_loop_ok y [] G i s 0); try done; cbn; lia.
Qed.

(** ** Finding a station *)

Lemma find_parallel_ok y G1 G2 g1 p g2 i g3 fuel :
  let g := (g1 ++ [p]) ++ g2 ++ i :: g3 in
  chained y (G1 ++ g :: G2) → i ∉ g2 → (length g2 < fuel)%nat →
  find_parallel y i (Z.of_nat p) (Z.of_nat (length g1) + 1) fuel = Ret (Some (Z.of_nat (length g1 + 1 + length g2))).
Proof.
  intros g H Hi Hfuel. subst g. revert g1 p fuel H Hi Hfuel.
  induction g2 as [|q g2 IH]; intros g1 p [|fuel] H Hi Hfuel; try (cbn in Hfuel; lia); cbn [find_parallel];
    (destruct (member_known y G1 G2 _ p H) as (_ & [s Hs] & Hg); [set_solver|]);
    rewrite (at_station_ok y p s Hs); step; rewrite (member_next y g1 p _ s Hg Hs); cbn [app first_of from_option head].
  - replace (Z.of_nat i <? 0) with false by (symmetry; apply Z.ltb_ge; lia). rewrite Z.eqb_refl. do 2 f_equal. cbn. lia.
  - replace (Z.of_nat q <? 0) with false by (symmetry; apply Z.ltb_ge; lia).
    replace (Z.of_nat q =? Z.of_nat i) with false by (symmetry; apply Z.eqb_neq; set_solver by lia).
    replace (Z.of_nat (length g1) + 1 + 1) with (Z.of_nat (length (g1 ++ [p])) + 1) by (rewrite length_app; cbn; lia).
    rewrite IH; [do 2 f_equal; rewrite length_app; cbn; lia| |set_solver|cbn in Hfuel; lia].
    change (q :: g2) with ([q] ++ g2) in H. rewrite <- (app_assoc [q]), (app_assoc (g1 ++ [p])) in H. exact H.
Qed.

Lemma find_parallel_none y G1 G2 g1 p g2 i fuel :
  let g := (g1 ++ [p]) ++ g2 in
  chained y (G1 ++ g :: G2) → i ∉ g2 → (length g2 < fuel)%nat →
  find_parallel y i (Z.of_nat p) (Z.of_nat (length g1) + 1) fuel = Ret None.
Proof.
  intros g H Hi Hfuel. subst g. revert g1 p fuel H Hi Hfuel.
  induction g2 as [|q g2 IH]; intros g1 p [|fuel] H Hi Hfuel; try (cbn in Hfuel; lia); cbn [find_parallel];
    (destruct (member_known y G1 G2 _ p H) as (_ & [s Hs] & Hg); [set_solver|]);
    rewrite (at_station_ok y p s Hs); step; rewrite (member_next y g1 p _ s Hg Hs); cbn [app first_of from_option head].
  - done.
  - replace (Z.of_nat q <? 0) with false by (symmetry; apply Z.ltb_ge; lia).
    replace (Z.of_nat q =? Z.of_nat i) with false by (symmetry; apply Z.eqb_neq; intros ->%Nat2Z.inj; apply Hi; by left).
    replace (Z.of_nat (length g1) + 1 + 1) with (Z.of_nat (length (g1 ++ [p])) + 1) by (rewrite length_app; cbn; lia).
    apply IH; [|set_solver|cbn in Hfuel; lia].
    change (q :: g2) with ([q] ++ g2) in H. by rewrite (app_assoc (g1 ++ [p])) in H.
Qed.

Lemma find_main_ok y G1 G2 g1 i g2 G3 p fuel :
  chained y (G1 ++ G2 ++ (g1 ++ i :: g2) :: G3) → i ∉ concat G2 → i ∉ g1 →
  last (ET_GRANDCENTRAL :: heads G1) = Some p → (length G2 < fuel)%nat →
  find_main y i (Z.of_nat p) (Z.of_nat (length G1) + 1) fuel =
    Ret (Some (Z.of_nat (length G1 + length G2) + 1, Z.of_nat (length g1))).
Proof.
  intros H Hi Hi1 Hl Hfuel. revert G1 p fuel H Hl Hfuel.
  induction G2 as [|g G2 IH]; intros G1 p [|fuel] H Hl Hfuel; try (cbn in Hfuel; lia); cbn [find_main];
    (destruct (fld_some _ _ _ _ (last_known _ _ _ _ H Hl)) as (sp & Hsp & _)); rewrite (at_station_ok y p sp Hsp); step;
    rewrite (last_next _ _ _ _ _ H Hl Hsp); cbn [app] in H |- *.
  - destruct g1 as [|h g1]; cbn [app heads fmap list_fmap first_of from_option head default id].
    + replace (Z.of_nat i <? 0) with false by (symmetry; apply Z.ltb_ge; lia). rewrite Z.eqb_refl.
      cbn [length]. by rewrite Nat.add_0_r.
    + destruct (member_known y G1 G3 _ h H) as (_ & [s Hs] & Hg); [set_solver|].
      replace (Z.of_nat h <? 0) with false by (symmetry; apply Z.ltb_ge; lia).
      replace (Z.of_nat h =? Z.of_nat i) with false by (symmetry; apply Z.eqb_neq; intros ->%Nat2Z.inj; set_solver).
      rewrite (at_station_ok y h s Hs). step.
      assert (parallel y h) as Hp.
      { pose proof (ch_parallel _ _ H) as Hpa. rewrite Forall_app, list.Forall_cons in Hpa. destruct Hpa as (_ & Hpa & _).
        assert (Forall (parallel y) ((h :: g1) ++ i :: g2)) as Hpa' by (apply Hpa; cbn; rewrite length_app; cbn; lia).
        by apply list.Forall_cons in Hpa' as [? _]. }
      unfold parallel, fld in Hp. rewrite Hs in Hp. injection Hp as ->. rewrite Z.eqb_refl.
      rewrite (find_parallel_ok y G1 G3 [] h g1 i g2); [step; cbn [length]; do 2 f_equal; f_equal; lia|done|set_solver|].
      pose proof (group_length _ _ _ _ H) as Hlen. cbn in Hlen. rewrite length_app in Hlen. cbn in Hlen. lia.
  - set (h := default O (head g)). change (heads (g :: ?l)) with (h :: heads l). cbn [first_of from_option head].
    pose proof (chained_nonempty _ _ H) as Hne. rewrite Forall_app, list.Forall_cons in Hne. destruct Hne as (_ & Hne & _).
    assert (∃ g', g = h :: g') as [g' Eg] by (destruct g; [done|by eexists]).
    destruct (member_known y G1 _ g h H) as (_ & [s Hs] & Hg); [rewrite Eg; by left|].
    replace (Z.of_nat h <? 0) with false by (symmetry; apply Z.ltb_ge; lia).
    cbn [concat] in Hi. rewrite Eg in Hi.
    replace (Z.of_nat h =? Z.of_nat i) with false by (symmetry; apply Z.eqb_neq; intros ->%Nat2Z.inj; set_solver).
    rewrite (at_station_ok y h s Hs). step.
    assert (find_parallel y i (Z.of_nat h) 1 (S (length (y_stats y))) = Ret None) as Ef.
    { pose proof (group_length _ _ _ _ H) as Hlen. rewrite Eg in Hlen. cbn in Hlen. rewrite Eg in H.
      apply (find_parallel_none y G1 (G2 ++ (g1 ++ i :: g2) :: G3) [] h g'); [done|set_solver|lia]. }
    rewrite Ef. replace (if _ =? _ then _ else _) with (@Ret (option Z) None) by by destruct (_ =? _). step.
    replace (Z.of_nat (length G1) + 1 + 1) with (Z.of_nat (length (G1 ++ [g])) + 1) by (rewrite length_app; cbn; lia).
    rewrite IH; [do 3 f_equal; rewrite length_app; cbn; lia|set_solver|by rewrite <- app_assoc| |cbn in Hfuel; lia].
    rewrite heads_app, app_comm_cons. apply last_snoc.
Qed.

Lemma station_find_ok y G1 g1 i g2 G2 :
  chained y (G1 ++ (g1 ++ i :: g2) :: G2) → 2 ≤ y_nstations y → i ∉ concat G1 → i ∉ g1 →
  station_find y i = Ret (Some (Z.of_nat (length G1) + 1, Z.of_nat (length g1))).
Proof.
  intros H Hn Hi Hi1. unfold station_find.
  assert (i ≠ ET_GRANDCENTRAL) as Hgc.
  { intros ->. pose proof (ch_nodup _ _ H) as Hnd. apply list.NoDup_cons in Hnd as [Hnd _]. apply Hnd. rewrite concat_app. set_solver. }
  destruct (Nat.eqb_spec i ET_GRANDCENTRAL); [done|]. replace (_ <? 2) with false by (symmetry; apply Z.ltb_ge; lia).
  pose proof (chained_length _ _ H) as Hlen. rewrite concat_app, length_app in Hlen. cbn in Hlen.
  pose proof (chained_nonempty _ _ H) as Hne. apply Forall_app in Hne as [Hne _]. apply length_groups in Hne.
  apply (find_main_ok y [] G1 g1 i g2 G2 0); [done..|]. lia.
Qed.
