(* ===== verification/EtAccess.v ===== *)
(** * Access to an ET system (et-16.1: et_id of et_private.h, et_readwrite.c lines 43-209)

    A process that opened a system has an identifier with the shared memory and a lock
    that keeps [et_close] from unmapping it.  The calls modelled are those of a process on
    the host of the system that shares mutexes with it ([locality] is ET_LOCAL).  A mutex
    is a flag in the shared memory; what would wait for ever is [Blocked]. *)

From S2P Require Import Prelude Words EtTypes EtConductor.

(** ** Identifiers *)

(** The lock of the shared memory: readers and whether there is a writer. *)
Record mem_lock := mkMem { ml_readers : nat; ml_writer : bool }.

(** [d_alive] is the answer of [et_alive]. *)
Record et_id := mkId {
  d_alive : bool; d_closed : bool; d_cleanup : Z; d_proc : Z; d_group : Z; d_lang : Z;
  d_mem : mem_lock; d_sys : et_system
}.
#[export] Instance eta_et_id : Eta et_id := λ d, mkId
  (d_alive d) (d_closed d) (d_cleanup d) (d_proc d) (d_group d) (d_lang d) (d_mem d) (d_sys d).

Ltac ids := cbn [update d_alive d_closed d_cleanup d_proc d_group d_lang d_mem d_sys ml_readers ml_writer].

(** ** Locks *)

Definition et_memRead_lock (d : et_id) : res et_id :=
  if ml_writer (d_mem d) then Blocked else Ret (d <| d_mem := mkMem (S (ml_readers (d_mem d))) false |>).
Definition et_memWrite_lock (d : et_id) : res et_id :=
  if ml_writer (d_mem d) || (0 <? ml_readers (d_mem d))%nat then Blocked
  else Ret (d <| d_mem := mkMem 0 true |>).
Definition et_mem_unlock (d : et_id) : et_id :=
  d <| d_mem ::= λ l, if ml_writer l then mkMem (ml_readers l) false else mkMem (pred (ml_readers l)) false |>.

Definition et_station_lock (y : et_system) : res et_system :=
  if y_stat_mutex y then Blocked else Ret (y <| y_stat_mutex := true |>).
Definition et_station_unlock (y : et_system) : et_system := y <| y_stat_mutex := false |>.
Definition et_system_lock (y : et_system) : res et_system :=
  if y_mutex y then Blocked else Ret (y <| y_mutex := true |>).
Definition et_system_unlock (y : et_system) : et_system := y <| y_mutex := false |>.

(** The mutex of a station stops its conductor. *)
Definition et_transfer_lock (ps : et_station) : res et_station :=
  if s_mutex ps then Blocked else Ret (ps <| s_mutex := true |>).
Definition et_transfer_unlock (ps : et_station) : et_station := ps <| s_mutex := false |>.

Definition et_transfer_lock_all (y : et_system) : res et_system :=
  l ← mapM et_transfer_lock (y_stats y); Ret (y <| y_stats := l |>).
Definition et_transfer_unlock_all (y : et_system) : et_system := y <| y_stats ::= fmap et_transfer_unlock |>.

(** ** What the calls have in common *)

(** A dead or closed system is refused; otherwise [body] runs with the memory locked for
    reading.  The result has a status and what is stored through a pointer, if anything. *)
Definition with_memory {A} (d : et_id) (body : et_id → res (Z * option A * et_id)) : res (Z * option A * et_id) :=
  if negb (d_alive d) then Ret (ET_ERROR_DEAD, None, d) else
  d ← et_memRead_lock d;
  if d_closed d then Ret (ET_ERROR_CLOSED, None, et_mem_unlock d) else body d.

(** A return from such a body. *)
Definition leave {A} (d : et_id) (status : Z) (out : option A) : res (Z * option A * et_id) :=
  Ret (status, out, et_mem_unlock d).

(** An attachment of the array [sys->attach], and changing one. *)
Definition attachment (y : et_system) (att : Z) : res et_attach := aget (y_attach y) att.
Definition set_attachment (y : et_system) (att : Z) (f : et_attach → et_attach) : res et_system :=
  a ← attachment y att; l ← aset (y_attach y) att (f a); Ret (y <| y_attach := l |>).

(** ** Lemmas *)

Lemma unlock_read d d1 : et_memRead_lock d = Ret d1 → ml_writer (d_mem d) = false ∧ d1 = d <| d_mem := mkMem (S (ml_readers (d_mem d))) false |>.
Proof. unfold et_memRead_lock. destruct (ml_writer (d_mem d)); [done|]. by intros [= <-]. Qed.

(** The lock is given back: it is as before, whatever happened to the system. *)
Lemma unlock_mem d d1 y : et_memRead_lock d = Ret d1 → et_mem_unlock (d1 <| d_sys := y |>) = d <| d_sys := y |>.
Proof.
  intros [Hw ->]%unlock_read. unfold et_mem_unlock. destruct d as [? ? ? ? ? ? [r w] ?]. cbn in *. by rewrite Hw.
Qed.

Lemma mapM_lock_all l : Forall (λ s, s_mutex s = false) l → mapM et_transfer_lock l = Ret ((λ s, s <| s_mutex := true |>) <$> l).
Proof.
  induction 1 as [|s l Hs _ IH]; [done|]. cbn.
  assert (et_transfer_lock s = Ret (s <| s_mutex := true |>)) as -> by (unfold et_transfer_lock; by rewrite Hs).
  step. by rewrite IH.
Qed.

(** The mutexes of all stations are taken and given back. *)
Lemma transfer_lock_all_ok y :
  Forall (λ s, s_mutex s = false) (y_stats y) →
  et_transfer_lock_all y = Ret (y <| y_stats ::= fmap (λ s, s <| s_mutex := true |>) |>).
Proof. intros H. unfold et_transfer_lock_all. by rewrite mapM_lock_all. Qed.

Lemma unlock_all_free l : Forall (λ s, s_mutex s = false) l → et_transfer_unlock <$> l = l.
Proof. induction 1 as [|s l Hs _ IH]; [done|]. rewrite fmap_cons, IH. f_equal. unfold et_transfer_unlock. destruct s. cbn in *. by subst. Qed.
