(* ===== verification/EtWaiting.v ===== *)
(** * Waiting for events (et-16.1/src/libsrc/et_readwrite.c, lines 759-880 and 1062-1352)

    A reader of an input list waits until there are events in it, until its time is over,
    or not at all.  While it waits others run and it does not hold the mutex of the list:
    a script says what they do until each of its awakenings, and how that came about.
    When the script is at its end nobody wakes the reader any more. *)

From S2P Require Import Prelude Words EtTypes EtLists EtConductor EtAccess.

(** What [pthread_cond_timedwait] returns: 0, ETIMEDOUT or another error. *)
Inductive wake := Woken | TimedOut | BadTime.

(** The awakenings to come, and what the others do before each; without a limit of time
    each is [Woken]. *)
Notation others := (et_system → et_system).
Definition script : Type := list (wake * others).
Definition untimed (ws : script) : script := (λ w, (Woken, w.2)) <$> ws.

(** [*(id->histogram + pl->cnt) += 1] *)
Definition count_inputs (y : et_system) (i : nat) (cnt : Z) : res et_system :=
  if (i =? ET_GRANDCENTRAL)%nat then
    h ← aget (y_histogram y) cnt; l ← aset (y_histogram y) cnt (h + 1); Ret (y <| y_histogram := l |>)
  else Ret y.

(** The mutex of the input list of the station [i]. *)
Definition lock_list (y : et_system) (i : nat) : res et_system :=
  s ← station y i; pl ← et_llist_lock (s_in s); Ret (set_station y i (λ s, s <| s_in := pl |>)).
Definition unlock_list (y : et_system) (i : nat) : et_system :=
  set_station y i (λ s, s <| s_in ::= et_llist_unlock |>).

(** Lines 782-784: the mutex is given back while the attachment waits. *)
Definition cond_wait (y : et_system) (i : nat) (att : Z) (run : others) : res et_system :=
  y ← set_attachment y att (λ a, a <| at_blocked := ET_ATT_BLOCKED |>);
  y ← lock_list (run (unlock_list y i)) i;
  set_attachment y att (λ a, a <| at_blocked := ET_ATT_UNBLOCKED |>).

(** Lines 788-795: whether the attachment is told to return. *)
Definition quits (y : et_system) (i : nat) (att : Z) : res (option et_system) :=
  a ← attachment y att;
  if at_quit a =? ET_ATT_QUIT then
    y ← set_attachment (unlock_list y i) att (λ a, a <| at_quit := ET_ATT_CONTINUE |>); Ret (Some y)
  else Ret None.

(** Lines 781-796, 803-828 and 1223-1239: the loop, with [must] at least once; the rest
    of the script.  The mutex is held when the status is ET_OK. *)
Fixpoint wait_events (y : et_system) (i : nat) (att : Z) (must : bool) (ws : script)
  : res (Z * et_system * script) :=
  s ← station y i;
  if (0 <? li_cnt (s_in s)) && negb must then Ret (ET_OK, y, ws) else
  match ws with
  | [] => Blocked
  | (w, run) :: ws =>
      y ← cond_wait y i att run;
      match w with
      | TimedOut => Ret (ET_ERROR_TIMEOUT, unlock_list y i, ws)
      | BadTime => Ret (ET_ERROR, y, ws)
      | Woken =>
          q ← quits y i att;
          match q with
          | Some y => Ret (ET_ERROR_WAKEUP, y, ws)
          | None => wait_events y i att false ws
          end
      end
  end.

(** Lines 775-859: the input list is not empty and its mutex is held, or the status is an
    error. *)
Definition wait_input (y : et_system) (i : nat) (mode att : Z) (ws : script) : res (Z * et_system * script) :=
  if (mode =? ET_SLEEP) || (mode =? ET_TIMED) then
    y ← lock_list y i;
    s ← station y i;
    y ← count_inputs y i (li_cnt (s_in s));
    wait_events y i att false (if mode =? ET_SLEEP then untimed ws else ws)
  else if mode =? ET_ASYNC then
    s ← station y i;
    if li_lock (s_in s) then Ret (ET_ERROR_BUSY, y, ws) else
    y ← lock_list y i;
    q ← quits y i att;
    match q with
    | Some y => Ret (ET_ERROR_WAKEUP, y, ws)
    | None =>
        y ← count_inputs y i (li_cnt (s_in s));
        if li_cnt (s_in s) <? 1 then Ret (ET_ERROR_EMPTY, unlock_list y i, ws) else Ret (ET_OK, y, ws)
    end
  else Ret (ET_ERROR, y, ws).

(** Lines 861-878. *)
Definition read_take (m : evs) (s : et_station) (att : Z) : res (nat * evs * et_station) :=
  let pl := s_in s in
  i ← of_option (li_first pl);
  e ← ev m (Some i);
  m ← ev_set m (Some i) (λ e, e <| e_owner := att |>);
  Ret (i, m, s <| s_in := et_llist_unlock (pl <| li_first := e_next e |> <| li_cnt ::= λ x, x - 1 |>) |>
               <| s_fixin ::= λ f, f <| fi_num := 1 |> <| fi_cnt := li_cnt pl |> <| fi_call := ET_FIX_READ |>
                                     <| fi_first := None |> |>).

(** The event, if there is no error. *)
Definition et_station_read (y : et_system) (i : nat) (mode att : Z) (ws : script)
  : res (Z * option nat * et_system) :=
  '(status, y, _) ← wait_input y i mode att ws;
  if negb (status =? ET_OK) then Ret (status, None, y) else
  s ← station y i;
  '(pe, m, s) ← read_take (y_events y) s att;
  Ret (ET_OK, Some pe, set_station y i (λ _, s) <| y_events := m |>).

(** At most [num] events. *)
Definition et_station_nread (y : et_system) (i : nat) (mode att : Z) (ws : script) (num : Z)
  : res (Z * list nat * et_system) :=
  if num <? 1 then Ret (ET_OK, [], y) else
  '(status, y, _) ← wait_input y i mode att ws;
  if negb (status =? ET_OK) then Ret (status, [], y) else
  s ← station y i;
  '(pe, m, s) ← nread_take (y_events y) s att num;
  Ret (ET_OK, pe, set_station y i (λ _, s) <| y_events := m |>).

(** Lines 1217-1303: in the modes that wait, not before somebody signals when the list was
    scanned ([scanList] is false). *)
Definition wait_group (y : et_system) (i : nat) (mode att : Z) (scanList : bool) (ws : script)
  : res (Z * et_system * script) :=
  if (mode =? ET_SLEEP) || (mode =? ET_TIMED) then
    y ← lock_list y i;
    s ← station y i;
    y ← (if scanList then count_inputs y i (li_cnt (s_in s)) else Ret y);
    wait_events y i att (negb scanList) (if mode =? ET_SLEEP then untimed ws else ws)
  else wait_input y i mode att ws.

(** Lines 1216-1348. *)
Fixpoint read_group_loop (y : et_system) (i : nat) (mode att : Z) (ws : script) (num group : Z)
    (scanList : bool) (fuel : nat) : res (Z * list nat * et_system) :=
  match fuel with
  | O => NoFuel
  | S fuel =>
      '(status, y, ws) ← wait_group y i mode att scanList ws;
      if negb (status =? ET_OK) then Ret (status, [], y) else
      s ← station y i;
      let num := Z.min num (li_cnt (s_in s)) in
      '(pe, m, s) ← nread_group_take (y_events y) s att num group;
      let y := set_station y i (λ _, s) <| y_events := m |> in
      if bool_decide (pe = []) && negb (mode =? ET_ASYNC) then
        read_group_loop y i mode att ws num group false fuel
      else Ret (ET_OK, pe, y)
  end.

Definition et_station_nread_group (y : et_system) (i : nat) (mode att : Z) (ws : script) (num group : Z)
  : res (Z * list nat * et_system) :=
  if num <? 1 then Ret (ET_OK, [], y) else
  read_group_loop y i mode att ws num group true (S (S (length ws))).
