(* ===== verification/EtDetached.v ===== *)
(** * Events of attachments that leave (et-16.1/src/libsrc/et_readwrite.c, lines 2003-2407)

    When the last attachment leaves a station the events of its input list go to its
    output list; the events that an attachment took and did not write are put back where
    the configuration of its station says.  The allocations of the C code, small arrays of
    pointers, are taken to succeed, and so is the removal of the files of temporary events,
    whose result is not looked at. *)

From S2P Require Import Prelude Words EtTypes EtLists EtConductor EtAccess EtWaiting.

(** An operation of EtLists on the station [i]. *)
Definition run_station (y : et_system) (i : nat) (op : Z → evs → et_station → res (Z * evs * et_station))
  : res (Z * et_system) :=
  s ← station y i;
  '(status, m, s) ← op (y_nevents y) (y_events y) s;
  Ret (status, set_station y i (λ _, s) <| y_events := m |>).

(** [et_restore] on the input list, or on the output list, of the station [i]. *)
Definition restore_input (y : et_system) (i : nat) (pe : list nat) : res (Z * Z * et_system) :=
  s ← station y i;
  '(status, m, pl, n) ← et_restore (y_nevents y) (y_events y) (s_in s) pe;
  Ret (status, n, set_station y i (λ s, s <| s_in := pl |>) <| y_events := m |>).
Definition restore_output (y : et_system) (i : nat) (pe : list nat) : res (Z * et_system) :=
  s ← station y i;
  '(status, m, pl, _) ← et_restore (y_nevents y) (y_events y) (s_out s) pe;
  Ret (status, set_station y i (λ s, s <| s_out := pl |>) <| y_events := m |>).

(** Lines 2064-2071: the station before the group of [i]. *)
Definition station_before (y : et_system) (i : nat) : res nat :=
  h ← group_head (y_stats y) i (S (length (y_stats y)));
  s ← station y h;
  if s_prev s <? 0 then Undef else Ret (Z.to_nat (s_prev s)).

Definition et_flush_events (y : et_system) (att : Z) (stat_id : nat) : res et_system :=
  if (stat_id =? ET_GRANDCENTRAL)%nat then Ret y else
  '(status, pe, y) ← et_station_nread y stat_id ET_ASYNC att [] (y_nevents y);
  if status <? 0 then Ret y else
  ps ← station y stat_id;
  if c_restore_mode (s_config ps) =? ET_STATION_RESTORE_REDIST then
    p ← station_before y stat_id; '(_, y) ← restore_output y p pe; Ret y
  else '(_, y) ← run_station y stat_id (λ n m s, et_station_nwrite n m s pe); Ret y.

(** Lines 2150-2165: the events of the attachment, among those at the places [l] of the
    array: the new ones and the others. *)
Definition owned_by (m : evs) (att : Z) (new : bool) (x : nat) : bool :=
  match m !! x with
  | Some e => (e_owner e =? att) && Bool.eqb (e_age e =? ET_EVENT_NEW) new
  | None => false
  end.
Definition find_owned (m : evs) (att : Z) (n : nat) : list nat * list nat :=
  (filter (λ x, owned_by m att true x = true) (seq 0 n), filter (λ x, owned_by m att false x = true) (seq 0 n)).

(** Lines 2184-2195: those of high priority first. *)
Definition high_first (m : evs) (pe : list nat) : list nat :=
  let high x := match m !! x with Some e => e_priority e =? ET_HIGH | None => false end in
  filter (λ x, high x = true) pe ++ filter (λ x, high x = false) pe.

Definition is_temp (m : evs) (x : nat) : bool :=
  match m !! x with Some e => e_temp e =? ET_EVENT_TEMP | None => false end.

(** Lines 2222-2230: the files of the temporary events are removed, which are no longer
    counted. *)
Definition drop_temps (y : et_system) (pe : list nat) : et_system :=
  y <| y_ntemps ::= λ n, n - Z.of_nat (length (filter (λ x, is_temp (y_events y) x = true) pe)) |>.

(** A loop over an array of events changes the fields of each. *)
Fixpoint each (m : evs) (pe : list nat) (f : et_event → et_event) : res evs :=
  match pe with
  | [] => Ret m
  | x :: pe => m ← ev_set m (Some x) f; each m pe f
  end.
Definition each_event (y : et_system) (pe : list nat) (f : et_event → et_event) : res et_system :=
  m ← each (y_events y) pe f; Ret (y <| y_events := m |>).

Definition corrupt (e : et_event) : et_event := e <| e_datastatus := ET_DATA_POSSIBLY_CORRUPT |>.

(** Lines 2305-2349: to the input list, and what it does not accept to the output list. *)
Definition restore_in (y : et_system) (stat_id : nat) (ordered : list nat) : res (Z * et_system) :=
  '(status, n, y) ← restore_input y stat_id ordered;
  if n <? Z.of_nat (length ordered) then
    run_station y stat_id (λ k m s, et_station_nwrite k m s (drop (Z.to_nat n) ordered))
  else Ret (status, y).

(** Lines 2238-2401: the events that are not new. *)
Definition restore_used (y : et_system) (stat_id : nat) (ordered : list nat) : res (Z * et_system) :=
  ps ← station y stat_id;
  let mode := c_restore_mode (s_config ps) in
  if (mode =? ET_STATION_RESTORE_GC) || (stat_id =? ET_GRANDCENTRAL)%nat then
    run_station (drop_temps y ordered) ET_GRANDCENTRAL (λ n m s, et_station_ndump n m s ordered)
  else if (mode =? ET_STATION_RESTORE_OUT) || ((mode =? ET_STATION_RESTORE_IN) && (s_nattachments ps =? 0)) then
    y ← each_event y ordered corrupt;
    run_station y stat_id (λ n m s, et_station_nwrite n m s ordered)
  else if mode =? ET_STATION_RESTORE_IN then
    y ← each_event y ordered corrupt;
    restore_in y stat_id ordered
  else if mode =? ET_STATION_RESTORE_REDIST then
    y ← each_event y ordered corrupt;
    p ← station_before y stat_id;
    restore_output y p ordered
  else Ret (ET_ERROR, y).

Definition et_restore_events (y : et_system) (att : Z) (stat_id : nat) : res (Z * et_system) :=
  let '(new, used) := find_owned (y_events y) att (Z.to_nat (y_nevents y)) in
  y ← each_event y used (λ e, e <| e_owner := ET_SYS |>);
  let ordered := high_first (y_events y) used in
  '(status, y) ←
    (match new with
     | [] => Ret (ET_OK, y)
     | _ => run_station (drop_temps y new) ET_GRANDCENTRAL (λ n m s, et_station_ndump n m s new)
     end);
  match ordered with
  | [] => Ret (status, y)
  | _ => restore_used y stat_id ordered
  end.
