(* ===== verification/EtStatConfig.v ===== *)
(** * Configurations of stations (et-16.1/src/libsrc/et_statconfig.c)

    A configuration is made by [et_station_config_init] and changed by the functions that
    set one of its fields; a station gets it when it is created, after the check that its
    fields agree with each other.  A [None] is a NULL pointer, a string the list of its
    characters. *)

From S2P Require Import Prelude Words EtTypes EtAccess.

(** ** Setting and getting *)

Definition et_station_config_init (allocated : bool) : Z * option et_stat_config :=
  if allocated then (ET_OK, Some default_config) else (ET_ERROR, None).

(** What the functions that set a field have in common: [ok] is the check of the value. *)
Definition config_set (ok : bool) (f : et_stat_config → et_stat_config) (sc : option et_stat_config)
  : Z * option et_stat_config :=
  match sc with
  | Some c => if c_init c =? ET_STRUCT_OK then if ok then (ET_OK, Some (f c)) else (ET_ERROR, Some c) else (ET_ERROR, Some c)
  | None => (ET_ERROR, None)
  end.

(** What those that get a field have in common: [ptr] tells that there is a place for it. *)
Definition config_get {A} (f : et_stat_config → A) (sc : option et_stat_config) (ptr : bool) : Z * option A :=
  match sc with
  | Some c => if (c_init c =? ET_STRUCT_OK) && ptr then (ET_OK, Some (f c)) else (ET_ERROR, None)
  | None => (ET_ERROR, None)
  end.

Definition block_ok (val : Z) : bool := (val =? ET_STATION_NONBLOCKING) || (val =? ET_STATION_BLOCKING).
Definition flow_ok (val : Z) : bool := (val =? ET_STATION_SERIAL) || (val =? ET_STATION_PARALLEL).
Definition select_ok (val : Z) : bool :=
  (val =? ET_STATION_SELECT_ALL) || (val =? ET_STATION_SELECT_MATCH) || (val =? ET_STATION_SELECT_USER) ||
  (val =? ET_STATION_SELECT_RROBIN) || (val =? ET_STATION_SELECT_EQUALCUE).
Definition restore_ok (val : Z) : bool :=
  (val =? ET_STATION_RESTORE_OUT) || (val =? ET_STATION_RESTORE_IN) || (val =? ET_STATION_RESTORE_GC) ||
  (val =? ET_STATION_RESTORE_REDIST).
(** A string that fits in an array of [n] characters. *)
Definition string_ok (n : Z) (val : option (list Z)) : bool :=
  match val with Some s => Z.of_nat (length s) <=? n - 1 | None => false end.

Definition et_station_config_setblock sc val := config_set (block_ok val) (λ c, c <| c_block_mode := val |>) sc.
Definition et_station_config_getblock sc ptr := config_get c_block_mode sc ptr.
Definition et_station_config_setflow sc val := config_set (flow_ok val) (λ c, c <| c_flow_mode := val |>) sc.
Definition et_station_config_getflow sc ptr := config_get c_flow_mode sc ptr.
Definition et_station_config_setselect sc val := config_set (select_ok val) (λ c, c <| c_select_mode := val |>) sc.
Definition et_station_config_getselect sc ptr := config_get c_select_mode sc ptr.
Definition et_station_config_setuser sc val := config_set (0 <=? val) (λ c, c <| c_user_mode := val |>) sc.
Definition et_station_config_getuser sc ptr := config_get c_user_mode sc ptr.
Definition et_station_config_setrestore sc val := config_set (restore_ok val) (λ c, c <| c_restore_mode := val |>) sc.
Definition et_station_config_getrestore sc ptr := config_get c_restore_mode sc ptr.
Definition et_station_config_setcue sc val := config_set (1 <=? val) (λ c, c <| c_cue := val |>) sc.
Definition et_station_config_getcue sc ptr := config_get c_cue sc ptr.
Definition et_station_config_setprescale sc val := config_set (1 <=? val) (λ c, c <| c_prescale := val |>) sc.
Definition et_station_config_getprescale sc ptr := config_get c_prescale sc ptr.
(** An array of ET_STATION_SELECT_INTS integers. *)
Definition et_station_config_setselectwords sc (val : list Z) := config_set true (λ c, c <| c_select := take 6 val |>) sc.
Definition et_station_config_getselectwords sc ptr := config_get c_select sc ptr.
Definition et_station_config_setfunction sc val :=
  config_set (string_ok ET_FUNCNAME_LENGTH val) (λ c, c <| c_fname := default [] val |>) sc.
Definition et_station_config_getfunction sc ptr := config_get c_fname sc ptr.
Definition et_station_config_setlib sc val :=
  config_set (string_ok ET_FILENAME_LENGTH val) (λ c, c <| c_lib := default [] val |>) sc.
Definition et_station_config_getlib sc ptr := config_get c_lib sc ptr.
Definition et_station_config_setclass sc val :=
  config_set (string_ok ET_FILENAME_LENGTH val) (λ c, c <| c_classs := default [] val |>) sc.
Definition et_station_config_getclass sc ptr := config_get c_classs sc ptr.

(** ** The check *)

Definition by_turns (c : et_stat_config) : bool :=
  (c_select_mode c =? ET_STATION_SELECT_RROBIN) || (c_select_mode c =? ET_STATION_SELECT_EQUALCUE).

(** Lines 762-838, in order. *)
Definition config_agrees (y : et_system) (sc : et_stat_config) : bool :=
  if negb (flow_ok (c_flow_mode sc)) then false else
  if negb (restore_ok (c_restore_mode sc)) then false else
  if (c_user_mode sc <? 0) || (y_max_attachments y <? c_user_mode sc) then false else
  if negb (select_ok (c_select_mode sc)) then false else
  if (c_select_mode sc =? ET_STATION_SELECT_USER) &&
     ((length (c_lib sc) <? 4)%nat || (length (c_fname sc) <? 1)%nat) then false else
  if by_turns sc &&
     ((c_flow_mode sc =? ET_STATION_SERIAL) || (c_block_mode sc =? ET_STATION_NONBLOCKING) ||
      (c_restore_mode sc =? ET_STATION_RESTORE_IN) || negb (c_prescale sc =? 1)) then false else
  if (c_restore_mode sc =? ET_STATION_RESTORE_REDIST) && negb (c_flow_mode sc =? ET_STATION_PARALLEL) then false else
  block_ok (c_block_mode sc).

(** The configuration may be changed: its cue cannot be longer than there are events. *)
Definition et_station_config_check (y : et_system) (sc : et_stat_config) : Z * et_stat_config :=
  if negb (config_agrees y sc) then (ET_ERROR, sc) else
  if c_block_mode sc =? ET_STATION_BLOCKING then
    if c_prescale sc <? 1 then (ET_ERROR, sc) else (ET_OK, sc)
  else if c_cue sc <? 1 then (ET_ERROR, sc)
  else if y_nevents y <? c_cue sc then (ET_OK, sc <| c_cue := y_nevents y |>)
  else (ET_OK, sc).
