(* ===== verification/EtStations.v ===== *)
(** * Calls for stations and attachments (et-16.1/src/libsrc/et_station.c)

    The calls of a process on the host of the system.  Each gives its status, what it
    stores through its last pointer, if anything, and the identifier with the system.  The
    arrays of stations and attachments have their configured lengths. *)

From S2P Require Import Prelude Words CString EtTypes EtLists EtConductor EtChains.
From S2P Require Import EtAccess EtWaiting EtDetached EtStatConfig.

(** ** Information (lines 1420-1806) *)

(** What the calls for a station have in common after the entry: the station must be one
    of the array. *)
Definition with_station {A} (d : et_id) (stat_id : Z) (body : et_id → et_station → res (Z * option A * et_id))
  : res (Z * option A * et_id) :=
  with_memory d (λ d,
    if (stat_id <? 0) || (y_max_stations (d_sys d) <=? stat_id) then leave d ET_ERROR None else
    ps ← station (d_sys d) (Z.to_nat stat_id); body d ps).

Definition stored {A} (ptr : bool) (a : A) : option A := if ptr then Some a else None.

(** A value of a station that is used. *)
Definition used_station {A} (read : et_station → A) (d : et_id) (stat_id : Z) (ptr : bool) :=
  with_station d stat_id (λ d ps,
    if s_status ps =? ET_STATION_UNUSED then leave d ET_ERROR None else leave d ET_OK (stored ptr (read ps))).

Definition et_station_isattached (d : et_id) (stat_id att : Z) : res (Z * option unit * et_id) :=
  with_station d stat_id (λ d ps,
    if (att <? 0) || (y_max_attachments (d_sys d) <=? att) then leave d ET_ERROR None else
    a ← aget (s_att ps) att;
    if a =? att then leave d 1 None else leave d 0 None).

(** Line 1519: the first station in use with the name. *)
Definition named (name : list Z) (s : et_station) : Prop := s_status s ≠ ET_STATION_UNUSED ∧ s_name s = name.
#[export] Instance named_dec name s : Decision (named name s).
Proof. unfold named. apply _. Defined.

Definition et_station_exists (d : et_id) (stat_name : option (list Z)) (ptr : bool) : res (Z * option Z * et_id) :=
  match stat_name with
  | None => Ret (ET_ERROR, None, d)
  | Some name =>
      with_memory d (λ d,
        match list_find (named name) (y_stats (d_sys d)) with
        | Some (num, _) => leave d 1 (stored ptr (Z.of_nat num))
        | None => leave d 0 None
        end)
  end.

Definition et_station_name_to_id (d : et_id) (stat_name : option (list Z)) (ptr : bool) : res (Z * option Z * et_id) :=
  '(status, num, d) ← et_station_exists d stat_name ptr;
  Ret (if status <? 0 then status else if status =? 1 then ET_OK else ET_ERROR, num, d).

Definition et_station_getattachments := used_station s_nattachments.
Definition et_station_getstatus d stat_id (ptr : bool) :=
  with_station d stat_id (λ d ps, leave d ET_OK (stored ptr (s_status ps))).
Definition et_station_getinputcount d stat_id (ptr : bool) :=
  with_station d stat_id (λ d ps, leave d ET_OK (stored ptr (li_cnt (s_in ps)))).
Definition et_station_getoutputcount d stat_id (ptr : bool) :=
  with_station d stat_id (λ d ps, leave d ET_OK (stored ptr (li_cnt (s_out ps)))).

(** ** Creation (lines 365-710) *)

(** Lines 499-513. *)
Definition same_config (a b : et_stat_config) : bool :=
  (c_flow_mode a =? c_flow_mode b) && (c_user_mode a =? c_user_mode b) && (c_block_mode a =? c_block_mode b) &&
  (c_select_mode a =? c_select_mode b) && (c_restore_mode a =? c_restore_mode b) &&
  (c_prescale a =? c_prescale b) && (c_cue a =? c_cue b) &&
  bool_decide (take 6 (c_select a) = take 6 (c_select b)) && negb (c_select_mode a =? ET_STATION_SELECT_USER).

(** et_system.c, lines 1454-1593: the thread of the new station; [starts] tells whether
    the library of its selection function can be loaded and memory allocated. *)
Definition start_conductor (starts : et_station → bool) (y : et_system) : et_system :=
  match list_find (λ s, s_status s = ET_STATION_CREATING) (y_stats y) with
  | Some (i, s) =>
      if starts s then
        set_station y i (λ s, s <| s_status := if (i =? ET_GRANDCENTRAL)%nat then ET_STATION_ACTIVE else ET_STATION_IDLE |>)
      else y
  | None => y
  end.

Definition set_sys (d : et_id) (y : et_system) : et_id := d <| d_sys := y |>.

(** A return with the mutex of stations. *)
Definition leave_station {A} (d : et_id) (y : et_system) (status : Z) (out : option A) :=
  leave (set_sys d (et_station_unlock y)) status out.

(** Lines 537-679, with the locks held. *)
Definition create_new (starts : et_station → bool) (d : et_id) (name : list Z) (sc : et_stat_config)
    (isGrandCentral : bool) (position parallelposition : Z) : res (Z * option Z * et_id) :=
  let y := d_sys d in
  if y_max_stations y <=? y_nstations y then leave_station d y ET_ERROR_TOOMANY None else
  match list_find (λ s, s_status s = ET_STATION_UNUSED) (y_stats y) with
  | None => leave_station d y ET_ERROR None
  | Some (i, _) =>
      let y := set_station (y <| y_nstations ::= λ n, n + 1 |>) i (λ ps,
        et_init_station ps <| s_num := Z.of_nat i |> <| s_name := name |> <| s_config := sc |>
                           <| s_status := ET_STATION_CREATING |>) in
      if isGrandCentral then leave_station d y ET_OK None else
      let y := start_conductor starts y in
      ps ← station y i;
      if negb (s_status ps =? ET_STATION_IDLE) then
        leave_station d (set_station (y <| y_nstations ::= λ n, n - 1 |>) i et_init_station) ET_ERROR None
      else
        y ← et_transfer_lock_all y;
        '(err, y) ← station_insert y i position parallelposition;
        let y := et_transfer_unlock_all y in
        if negb (err =? ET_OK) then
          leave_station d (set_station (y <| y_nstations ::= λ n, n - 1 |>) i (λ ps,
            ps <| s_conductor := ET_THREAD_KILL |> <| s_status := ET_STATION_UNUSED |>)) ET_ERROR None
        else leave_station d y ET_OK (Some (Z.of_nat i))
  end.

(** Lines 490-534: the station [k] has the name. *)
Definition create_existing (d : et_id) (k : Z) (sc : et_stat_config) : res (Z * option Z * et_id) :=
  '(_, status, d) ← et_station_getstatus d k true;
  ps ← station (d_sys d) (Z.to_nat k);
  leave_station d (d_sys d)
    (if negb (bool_decide (status = Some ET_STATION_CREATING)) && same_config (s_config ps) sc
     then ET_OK else ET_ERROR_EXISTS) (Some k).

Definition bad_place (position parallelposition : Z) : bool :=
  (negb (position =? ET_END) && (position <? 0)) ||
  (negb (parallelposition =? ET_END) && negb (parallelposition =? ET_NEWHEAD) && (parallelposition <? 0)).

(** [allocated] is the allocation of the default configuration, when none is given. *)
Definition et_station_create_at (starts : et_station → bool) (allocated : bool) (d : et_id)
    (stat_name : option (list Z)) (sconfig : option et_stat_config) (position parallelposition : Z)
  : res (Z * option Z * et_id) :=
  let refuse := Ret (ET_ERROR, None, d) in
  match stat_name with
  | None => refuse
  | Some name =>
      if ET_STATNAME_LENGTH - 1 <? Z.of_nat (length name) then refuse else
      if bad_place position parallelposition then refuse else
      match (match sconfig with Some c => Some c | None => snd (et_station_config_init allocated) end) with
      | None => refuse
      | Some sc =>
          if negb (c_init sc =? ET_STRUCT_OK) then refuse else
          let isGrandCentral := bool_decide (name = cs "GRAND_CENTRAL") in
          if negb isGrandCentral && (position =? 0) then refuse else
          if negb (d_alive d) && negb isGrandCentral then Ret (ET_ERROR_DEAD, None, d) else
          d ← et_memRead_lock d;
          if d_closed d then leave d ET_ERROR_CLOSED None else
          let '(ok, sc) := et_station_config_check (d_sys d) sc in
          if ok =? ET_ERROR then leave d ET_ERROR None else
          y ← et_station_lock (d_sys d);
          '(r, found, d) ← et_station_exists (set_sys d y) (Some name) true;
          match found with
          | Some k => if r =? 1 then create_existing d k sc
                      else create_new starts d name sc isGrandCentral position parallelposition
          | None => create_new starts d name sc isGrandCentral position parallelposition
          end
      end
  end.

Definition et_station_create starts allocated d stat_name sconfig :=
  et_station_create_at starts allocated d stat_name sconfig ET_END ET_END.

(** ** Removal (lines 726-847) *)

(** [others 0] is what the other threads do while this one yields, [others 1] while it
    sleeps: the conductor of the station may work then. *)
Definition et_station_remove (others : nat → et_system → et_system) (d : et_id) (stat_id : Z)
  : res (Z * option unit * et_id) :=
  if (stat_id <? 0) || (stat_id =? Z.of_nat ET_GRANDCENTRAL) then Ret (ET_ERROR, None, d) else
  with_memory d (λ d,
    let y := d_sys d in
    if y_max_stations y <=? stat_id then leave d ET_ERROR None else
    let i := Z.to_nat stat_id in
    y ← et_station_lock y;
    ps ← station y i;
    if 0 <? s_nattachments ps then leave_station d y ET_ERROR None else
    y ← et_transfer_lock_all y;
    y ← station_remove y i;
    let y := others 0%nat (set_station y i et_transfer_unlock) in
    ps ← station y i;
    let y := if 0 <? li_cnt (s_out ps) then others 1%nat y else y in
    ps ← station y i;
    ps ← et_transfer_lock ps;
    let y := set_station y i (λ _, ps <| s_conductor := ET_THREAD_KILL |> <| s_status := ET_STATION_UNUSED |>) in
    leave_station d (et_transfer_unlock_all y <| y_nstations ::= λ n, n - 1 |>) ET_OK None).

(** ** Attachments (lines 872-1166) *)

(** Lines 991-994 and 1152-1155: what the process of the caller has attached. *)
Definition set_proc (d : et_id) (y : et_system) (att n v : Z) : res et_system :=
  if d_proc d =? ET_SYS then Ret y else
  p ← aget (y_proc y) (d_proc d);
  l ← aset (p_att p) att v;
  ps ← aset (y_proc y) (d_proc d) (mkProc (p_nattachments p + n) l);
  Ret (y <| y_proc := ps |>).

(** Lines 969-1009: the station [i] gets the attachment [my_index]. *)
Definition attach_station (d : et_id) (y : et_system) (i : nat) (my_index : Z) : res et_system :=
  y ← set_attachment (y <| y_nattachments ::= λ n, n + 1 |>) my_index (λ a,
        et_init_attachment <| at_num := my_index |> <| at_proc := d_proc d |> <| at_stat := Z.of_nat i |>
                           <| at_status := ET_ATT_ACTIVE |>);
  y ← set_proc d y my_index 1 my_index;
  let y := et_system_unlock y in
  ps ← station y i;
  l ← aset (s_att ps) my_index my_index;
  let y := set_station y i (λ ps, ps <| s_nattachments ::= λ n, n + 1 |> <| s_att := l |>) in
  if (c_flow_mode (s_config ps) =? ET_STATION_PARALLEL) && negb (s_status ps =? ET_STATION_ACTIVE) then
    y ← et_transfer_lock_all y;
    Ret (et_transfer_unlock_all (set_station y i (λ ps, ps <| s_status := ET_STATION_ACTIVE |>)))
  else Ret (set_station y i (λ ps, ps <| s_status := ET_STATION_ACTIVE |>)).

Definition et_station_attach (d : et_id) (stat_id : Z) (ptr : bool) : res (Z * option Z * et_id) :=
  if (stat_id <? 0) || negb ptr then Ret (ET_ERROR, None, d) else
  with_memory d (λ d,
    let y := d_sys d in
    if y_max_stations y <=? stat_id then leave d ET_ERROR None else
    let i := Z.to_nat stat_id in
    y ← et_station_lock y;
    ps ← station y i;
    if negb (s_status ps =? ET_STATION_ACTIVE) && negb (s_status ps =? ET_STATION_IDLE)
    then leave_station d y ET_ERROR None else
    if (0 <? c_user_mode (s_config ps)) && (c_user_mode (s_config ps) <=? s_nattachments ps)
    then leave_station d y ET_ERROR_TOOMANY None else
    y ← et_system_lock y;
    if y_max_attachments y <=? y_nattachments y then leave_station d (et_system_unlock y) ET_ERROR_TOOMANY None else
    match list_find (λ a, at_num a = -1) (take (Z.to_nat (y_max_attachments y)) (y_attach y)) with
    | None => leave_station d (et_system_unlock y) ET_ERROR None
    | Some (my_index, _) =>
        y ← attach_station d y i (Z.of_nat my_index);
        leave_station d y ET_OK (Some (Z.of_nat my_index))
    end).

(** The locks are those of the caller when the system cleans up. *)
Definition unless_cleanup (d : et_id) (f : et_system → res et_system) (y : et_system) : res et_system :=
  if d_cleanup d =? 1 then Ret y else f y.

(** Lines 1117-1133: the last attachment of the station [i] makes it idle. *)
Definition make_idle (d : et_id) (y : et_system) (att : Z) (i : nat) : res et_system :=
  y ← unless_cleanup d et_transfer_lock_all y;
  let y := set_station y i (λ ps, ps <| s_status := ET_STATION_IDLE |>) in
  y ← unless_cleanup d (λ y, Ret (et_transfer_unlock_all y)) y;
  et_flush_events y att i.

(** Lines 1110-1158: the attachment leaves the station [i]. *)
Definition detach_station (d : et_id) (y : et_system) (att : Z) (i : nat) : res et_system :=
  y ← set_attachment y att (λ a, a <| at_num := -1 |> <| at_status := ET_ATT_UNUSED |>);
  let y := y <| y_nattachments ::= λ n, n - 1 |> in
  ps ← station y i;
  y ← (if (s_nattachments ps =? 1) && negb (i =? ET_GRANDCENTRAL)%nat then make_idle d y att i else Ret y);
  '(_, y) ← et_restore_events y att i;
  ps ← station y i;
  l ← aset (s_att ps) att (-1);
  let y := set_station y i (λ ps, ps <| s_nattachments ::= λ n, n - 1 |> <| s_att := l |>) in
  unless_cleanup d (λ y, y ← set_proc d y att (-1) (-1); Ret (et_station_unlock (et_system_unlock y))) y.

Definition et_station_detach (d : et_id) (att : Z) : res (Z * option unit * et_id) :=
  if (att <? 0) || (ET_ATTACHMENTS_MAX <=? att) then Ret (ET_ERROR, None, d) else
  if negb (d_alive d) then Ret (ET_ERROR_DEAD, None, d) else
  d ← et_memWrite_lock d;
  if d_closed d then leave d ET_ERROR_CLOSED None else
  let y := d_sys d in
  if y_max_attachments y <=? att then leave d ET_ERROR None else
  y ← unless_cleanup d et_station_lock y;
  a ← attachment y att;
  if at_stat a <? 0 then leave_station d y ET_ERROR None else
  y ← unless_cleanup d et_system_lock y;
  y ← detach_station d y att (Z.to_nat (at_stat a));
  leave (set_sys d y) ET_OK None.

(** ** Positions (lines 1192-1397) *)

(** Lines 1266-1281 and 1372-1387: a station that is idle or active, and the locks. *)
Definition with_chain {A} (d : et_id) (stat_id : Z) (body : et_id → et_system → nat → res (Z * option A * et_id)) :=
  with_memory d (λ d,
    let y := d_sys d in
    if y_max_stations y <=? stat_id then leave d ET_ERROR None else
    let i := Z.to_nat stat_id in
    y ← et_station_lock y;
    ps ← station y i;
    if negb (s_status ps =? ET_STATION_IDLE) && negb (s_status ps =? ET_STATION_ACTIVE)
    then leave_station d y ET_ERROR None else
    y ← et_transfer_lock_all y;
    body d y i).

(** Lines 1284-1301, with the locks held. *)
Definition move_station (d : et_id) (y : et_system) (i : nat) (position parallelposition : Z)
  : res (Z * option unit * et_id) :=
  current ← station_find y i;
  y ← station_remove y i;
  '(err, y) ← station_insert y i position parallelposition;
  y ← (if negb (err =? ET_OK) then
         '(p, q) ← of_option current; '(_, y) ← station_insert y i p q; Ret y
       else Ret y);
  leave_station d (et_transfer_unlock_all y) err None.

Definition et_station_setposition (d : et_id) (stat_id position parallelposition : Z) : res (Z * option unit * et_id) :=
  if stat_id <? 0 then Ret (ET_ERROR, None, d) else
  if stat_id =? Z.of_nat ET_GRANDCENTRAL then Ret (if position =? 0 then ET_OK else ET_ERROR, None, d) else
  if bad_place position parallelposition || (position =? 0) then Ret (ET_ERROR, None, d) else
  with_chain d stat_id (λ d y i, move_station d y i position parallelposition).

(** For GrandCentral only the position is stored. *)
Definition et_station_getposition (d : et_id) (stat_id : Z) : res (Z * option (Z * option Z) * et_id) :=
  if stat_id <? 0 then Ret (ET_ERROR, None, d) else
  if stat_id =? Z.of_nat ET_GRANDCENTRAL then Ret (ET_OK, Some (0, None), d) else
  with_chain d stat_id (λ d y i,
    r ← station_find y i;
    let y := et_transfer_unlock_all y in
    match r with
    | Some (p, q) => leave_station d y ET_OK (Some (p, Some q))
    | None => leave_station d y ET_ERROR None
    end).
