(* ===== verification/EtSettings.v ===== *)
(** * Settings of stations, attachments and what a system tells about itself
    (et-16.1/src/libsrc: et_station.c lines 1812-3038, et_attachment.c, et_sysconfig.c lines
    1065-1413, et_data.c lines 58-89)

    The configuration of a station that exists can be read, and parts of it changed, with
    the same checks as when the station is created.  Attachments are woken up; the
    broadcasts that wake the readers of a list are left out: a reader's script
    ([EtWaiting]) says when it wakes.  A process may ask for numbers of the shared memory. *)

From S2P Require Import Prelude Words EtTypes EtLists EtConductor EtAccess EtStatConfig EtStations.

(** ** Getting *)

Definition et_station_getblock := used_station (λ s, c_block_mode (s_config s)).
Definition et_station_getuser := used_station (λ s, c_user_mode (s_config s)).
Definition et_station_getrestore := used_station (λ s, c_restore_mode (s_config s)).
Definition et_station_getprescale := used_station (λ s, c_prescale (s_config s)).
Definition et_station_getcue := used_station (λ s, c_cue (s_config s)).
Definition et_station_getselectwords := used_station (λ s, take 6 (c_select (s_config s))).
Definition et_station_getselect := used_station (λ s, c_select_mode (s_config s)).

(** The names of a selection function, for the languages that have them. *)
Definition selection_name (lang_ok : bool) (read : et_stat_config → list Z) (d : et_id) (stat_id : Z) (ptr : bool) :=
  if negb lang_ok then Ret (ET_ERROR, None, d) else
  with_station d stat_id (λ d ps,
    if s_status ps =? ET_STATION_UNUSED then leave d ET_ERROR None else
    if negb (c_select_mode (s_config ps) =? ET_STATION_SELECT_USER) then leave d ET_ERROR None else
    leave d ET_OK (stored ptr (read (s_config ps)))).
Definition et_station_getlib d := selection_name (negb (d_lang d =? ET_LANG_JAVA)) c_lib d.
Definition et_station_getclass d := selection_name (d_lang d =? ET_LANG_JAVA) c_classs d.
Definition et_station_getfunction d := selection_name (negb (d_lang d =? ET_LANG_JAVA)) c_fname d.

(** ** Setting *)

(** What the functions that set have in common: GrandCentral and the values that [ok]
    refuses are refused first; [fits] is the check with the system and the station. *)
Definition set_config (ok : bool) (fits : et_system → et_station → bool) (with_list : bool)
    (f : et_stat_config → et_stat_config) (d : et_id) (stat_id : Z) : res (Z * option unit * et_id) :=
  if (stat_id =? Z.of_nat ET_GRANDCENTRAL) || negb ok then Ret (ET_ERROR, None, d) else
  with_station d stat_id (λ d ps,
    let y := d_sys d in
    let i := Z.to_nat stat_id in
    if negb (fits y ps) then leave d ET_ERROR None else
    y ← et_station_lock y;
    _ ← (if with_list then et_llist_lock (s_in ps) else Ret (s_in ps));
    leave_station d (set_station y i (λ s, s <| s_config ::= f |>)) ET_OK None).

Definition et_station_setblock d stat_id block :=
  set_config (block_ok block)
    (λ _ ps, negb (by_turns (s_config ps) && (block =? ET_STATION_NONBLOCKING))) false
    (λ c, c <| c_block_mode := block |>) d stat_id.
Definition et_station_setuser d stat_id user :=
  set_config (0 <=? user) (λ _ _, true) false (λ c, c <| c_user_mode := user |>) d stat_id.
Definition et_station_setrestore d stat_id restore :=
  set_config ((restore =? ET_STATION_RESTORE_OUT) || (restore =? ET_STATION_RESTORE_IN) || (restore =? ET_STATION_RESTORE_GC))
    (λ _ ps, negb (by_turns (s_config ps) && (restore =? ET_STATION_RESTORE_IN))) false
    (λ c, c <| c_restore_mode := restore |>) d stat_id.
Definition et_station_setprescale d stat_id prescale :=
  set_config (1 <=? prescale) (λ _ ps, negb (by_turns (s_config ps) && negb (prescale =? 1))) true
    (λ c, c <| c_prescale := prescale |>) d stat_id.
Definition et_station_setcue d stat_id cue :=
  set_config true (λ y _, (1 <=? cue) && (cue <=? y_nevents y)) true (λ c, c <| c_cue := cue |>) d stat_id.
Definition et_station_setselectwords d stat_id (select : list Z) :=
  set_config true (λ _ _, true) true (λ c, c <| c_select := take 6 select |>) d stat_id.

(** ** Waking attachments up, and their counts *)

(** Whether an attachment waits, or is a remote one that makes as if. *)
Definition waits (a : et_attach) : bool :=
  negb ((at_blocked a =? ET_ATT_UNBLOCKED) && (at_sleep a =? ET_ATT_NOSLEEP)).

(** [alive] is not asked for; line 72 reads the array before the check of [att]. *)
Definition et_wakeup_attachment (d : et_id) (att : Z) : res (Z * option unit * et_id) :=
  if att <? 0 then Ret (ET_ERROR, None, d) else
  d ← et_memRead_lock d;
  if d_closed d then leave d ET_ERROR_CLOSED None else
  a ← attachment (d_sys d) att;
  if y_max_attachments (d_sys d) <=? att then leave d ET_ERROR None else
  if negb (waits a) then leave d ET_OK None else
  y ← set_attachment (d_sys d) att (λ a, a <| at_quit := ET_ATT_QUIT |>);
  leave (d <| d_sys := y |>) ET_OK None.

(** Lines 170-181: over the array [ps->data.att]. *)
Fixpoint wakeup_loop (y : et_system) (l : list Z) : res et_system :=
  match l with
  | [] => Ret y
  | att :: l =>
      y ← (if -1 <? att then
             a ← attachment y att;
             if (at_blocked a =? ET_ATT_BLOCKED) || (at_sleep a =? ET_ATT_SLEEP) then
               set_attachment y att (λ a, a <| at_quit := ET_ATT_QUIT |>)
             else Ret y
           else Ret y);
      wakeup_loop y l
  end.

Definition et_wakeup_all (d : et_id) (stat_id : Z) : res (Z * option unit * et_id) :=
  if stat_id <? 0 then Ret (ET_ERROR, None, d) else
  d ← et_memRead_lock d;
  if d_closed d then leave d ET_ERROR_CLOSED None else
  let y := d_sys d in
  if y_max_stations y <=? stat_id then leave d ET_ERROR None else
  ps ← station y (Z.to_nat stat_id);
  y ← wakeup_loop y (take (Z.to_nat (y_max_attachments y)) (s_att ps));
  leave (d <| d_sys := y |>) ET_OK None.

(** The counts of events of an attachment. *)
Definition attachment_count (read : et_attach → Z) (d : et_id) (att_id : Z) (ptr : bool) : res (Z * option Z * et_id) :=
  with_memory d (λ d,
    if (att_id <? 0) || (y_max_attachments (d_sys d) <=? att_id) then leave d ET_ERROR None else
    a ← attachment (d_sys d) att_id;
    leave d ET_OK (if ptr then Some (read a) else None)).
Definition et_attach_geteventsput := attachment_count at_events_put.
Definition et_attach_geteventsget := attachment_count at_events_get.
Definition et_attach_geteventsdump := attachment_count at_events_dump.
Definition et_attach_geteventsmake := attachment_count at_events_make.

(** ** Numbers of the system *)

(** Fields of the shared memory that [et_system] does not have. *)
Record et_info := mkInfo { i_heartbeat : Z; i_mainpid : Z; i_nprocesses : Z; i_max_processes : Z }.

(** What the functions have in common: [init] is whether the identifier is initialised. *)
Definition system_number {A} (read : A) (init ptr : bool) : Z * option A :=
  if negb ptr || negb init then (ET_ERROR, None) else (ET_OK, Some read).

Definition et_system_gettempsmax (d : et_id) := system_number (y_max_temps (d_sys d)).
Definition et_system_getstationsmax (d : et_id) := system_number (y_max_stations (d_sys d)).
Definition et_system_getprocsmax (f : et_info) := system_number (i_max_processes f).
Definition et_system_getattsmax (d : et_id) := system_number (y_max_attachments (d_sys d)).
Definition et_system_getheartbeat (f : et_info) := system_number (i_heartbeat f).
Definition et_system_getpid (f : et_info) := system_number (i_mainpid f).
Definition et_system_getprocs (f : et_info) := system_number (i_nprocesses f).
Definition et_system_getattachments (d : et_id) := system_number (y_nattachments (d_sys d)).
Definition et_system_getstations (d : et_id) := system_number (y_nstations (d_sys d)).
Definition et_system_gettemps (d : et_id) := system_number (y_ntemps (d_sys d)).

(** The first [size] numbers of the histogram, or all of them. *)
Definition et_data_gethistogram (d : et_id) (ptr : bool) (size : Z) : Z * option (list Z) :=
  if negb ptr then (ET_ERROR, None) else
  if size <? 1 then (ET_ERROR, None) else
  let size := if y_nevents (d_sys d) + 1 <? size then y_nevents (d_sys d) + 1 else size in
  (ET_OK, Some (take (Z.to_nat size) (y_histogram (d_sys d)))).
