(* ===== verification/EtEventCalls.v ===== *)
(** * Calls for events (et-16.1/src/libsrc/et_event.c, lines 33-1778)

    An attachment gets new events from GrandCentral and events from the input list of its
    station; it puts them into the output list of its station or dumps them back to
    GrandCentral.  An event larger than those of the system gets a temporary buffer, a
    mapped file. *)

From S2P Require Import Prelude Words EtTypes EtLists EtConductor EtAccess EtWaiting EtDetached EtStations.

(** What the operating system answers when the buffer of a temporary event is made,
    mapped, removed and unmapped, and [et_alive] after a wait. *)
Record answers := mkAnswers {
  temp_create : nat → bool; temp_attach : nat → bool; temp_remove : nat → bool; unmapped : nat → bool;
  still_alive : bool
}.

Section Calls.
  Context (os : answers).

(** ** Temporary events (lines 33-73) *)

Definition et_event_make (y : et_system) (x : nat) (size : Z) : res (Z * et_system) :=
  y ← et_system_lock y;
  if y_max_temps y <=? y_ntemps y then Ret (ET_ERROR_TOOMANY, et_system_unlock y) else
  let y := et_system_unlock (y <| y_ntemps ::= λ n, n + 1 |>) in
  if negb (temp_create os x) then Ret (ET_ERROR, y) else
  m ← ev_set (y_events y) (Some x) (λ e, et_init_event_ e <| e_temp := ET_EVENT_TEMP |>
         <| e_length := size |> <| e_memsize := size |>);
  Ret (ET_OK, y <| y_events := m |>).

(** Lines 273-282: at most [tries] naps, during which others run; whether a temporary event
    is free, and the naps to come. *)
Fixpoint wait_temps (y : et_system) (naps : list others) (tries : nat) : bool * et_system * list others :=
  match tries with
  | O => (false, y, naps)
  | S tries =>
      if y_max_temps y <=? y_ntemps y then
        match naps with
        | [] => wait_temps y [] tries
        | run :: naps => wait_temps (run y) naps tries
        end
      else (true, y, naps)
  end.

(** Lines 263-296: [fuel] is the number of times that the event is made, of which the
    second succeeds or fails for good. *)
Fixpoint make_event (y : et_system) (x : nat) (size : Z) (naps : list others) (fuel : nat)
  : res (Z * et_system * list others) :=
  match fuel with
  | O => NoFuel
  | S fuel =>
      '(status, y) ← et_event_make y x size;
      if negb (status =? ET_ERROR_TOOMANY) then Ret (status, y, naps) else
      let '(free, y, naps) := wait_temps y naps (Z.to_nat (y_hz y * 30)) in
      if free then make_event y x size naps fuel else Ret (ET_ERROR_TOOMANY, y, naps)
  end.

Fixpoint make_events (y : et_system) (pe : list nat) (size : Z) (naps : list others) : res (Z * et_system) :=
  match pe with
  | [] => Ret (ET_OK, y)
  | x :: pe =>
      '(status, y, naps) ← make_event y x size naps 2;
      if negb (status =? ET_OK) then Ret (status, y) else make_events y pe size naps
  end.

(** ** New events (lines 124-885) *)

(** The checks of the arguments that the calls which wait have in common; [deltatime] is a
    pointer to seconds and nanoseconds. *)
Definition wait_of (mode : Z) : Z := Z.land mode ET_WAIT_MASK.
Definition bad_wait (mode : Z) (deltatime : option (Z * Z)) : bool :=
  let wait := wait_of mode in
  (negb (wait =? ET_SLEEP) && negb (wait =? ET_TIMED) && negb (wait =? ET_ASYNC)) ||
  ((wait =? ET_TIMED) && match deltatime with None => true | Some (sec, nsec) => (sec <? 0) || (nsec <? 0) end).

(** Lines 203-215: the reading failed. *)
Definition read_failed (d : et_id) (status : Z) : res (Z * option (list nat) * et_id) :=
  leave d (if (status =? ET_ERROR_WAKEUP) && negb (still_alive os) then ET_ERROR_DEAD else status) None.

Definition et_events_inited (size memsize : Z) (e : et_event) : et_event :=
  et_init_event_ e <| e_length := size |> <| e_memsize := memsize |>.

(** Lines 253-312 and 505-571: buffers for the events. *)
Definition furnish (d : et_id) (att : Z) (pe : list nat) (size : Z) (naps : list others)
  : res (Z * option (list nat) * et_id) :=
  let y := d_sys d in
  '(status, y) ←
    (if y_event_size y <? size then make_events y pe size naps
     else y ← each_event y pe (et_events_inited size (y_event_size y)); Ret (ET_OK, y));
  if negb (status =? ET_OK) then leave (set_sys d y) status None else
  y ← set_attachment y att (λ a, a <| at_events_make ::= λ n, u64 (n + Z.of_nat (length pe)) |>);
  leave (set_sys d y) ET_OK (Some pe).

(** An active attachment reads with [read], and the events get buffers. *)
Definition get_new (d : et_id) (att size : Z) (naps : list others)
    (read : et_system → res (Z * list nat * et_system)) : res (Z * option (list nat) * et_id) :=
  a ← attachment (d_sys d) att;
  if negb (at_status a =? ET_ATT_ACTIVE) then leave d ET_ERROR None else
  '(status, pe, y) ← read (d_sys d);
  let d := set_sys d y in
  if negb (status =? ET_OK) then read_failed d status else furnish d att pe size naps.

(** Lines 748-753: not more temporary events than there can be. *)
Definition not_more_temps (y : et_system) (size num : Z) : Z :=
  if y_event_size y <? size then Z.min num (y_max_temps y) else num.

(** The events, [None] when the pointer [nread] gets 0. *)
Definition et_events_new_group (d : et_id) (att : Z) (ptr : bool) (mode : Z) (deltatime : option (Z * Z))
    (size num group : Z) (ws : script) (naps : list others) : res (Z * option (list nat) * et_id) :=
  if num =? 0 then Ret (ET_OK, None, d) else
  if (att <? 0) || negb ptr || (num <? 0) || (group <? 1) || bad_wait mode deltatime then Ret (ET_ERROR, None, d) else
  with_memory d (λ d,
    if y_groupCount (d_sys d) <? group then leave d ET_ERROR None else
    get_new d att size naps (λ y,
      et_station_nread_group y ET_GRANDCENTRAL (wait_of mode) att ws (not_more_temps y size num) group)).

(** The count of events is not given to the caller. *)
Definition et_event_new_group d att ptr mode deltatime size group ws naps :=
  et_events_new_group d att ptr mode deltatime size 1 group ws naps.

Definition et_events_new (d : et_id) (att : Z) (ptr : bool) (mode : Z) (deltatime : option (Z * Z))
    (size num : Z) (ws : script) (naps : list others) : res (Z * option (list nat) * et_id) :=
  if negb (d_group d =? 0) then et_events_new_group d att ptr mode deltatime size num (d_group d) ws naps else
  if num =? 0 then Ret (ET_OK, None, d) else
  if (att <? 0) || negb ptr || (num <? 0) || bad_wait mode deltatime then Ret (ET_ERROR, None, d) else
  with_memory d (λ d,
    get_new d att size naps (λ y,
      et_station_nread y ET_GRANDCENTRAL (wait_of mode) att ws (not_more_temps y size num))).

Definition et_event_new (d : et_id) (att : Z) (ptr : bool) (mode : Z) (deltatime : option (Z * Z))
    (size : Z) (ws : script) (naps : list others) : res (Z * option (list nat) * et_id) :=
  if negb (d_group d =? 0) then et_event_new_group d att ptr mode deltatime size (d_group d) ws naps else
  if (att <? 0) || negb ptr || bad_wait mode deltatime then Ret (ET_ERROR, None, d) else
  with_memory d (λ d,
    get_new d att size naps (λ y,
      '(status, x, y) ← et_station_read y ET_GRANDCENTRAL (wait_of mode) att ws;
      Ret (status, option_list x, y))).

(** ** Getting events (lines 936-1323) *)

(** Lines 1294-1311: the buffers of temporary events are mapped. *)
Fixpoint attach_buffers (m : evs) (pe : list nat) : res bool :=
  match pe with
  | [] => Ret true
  | x :: pe =>
      e ← ev m (Some x);
      if (e_temp e =? ET_EVENT_TEMP) && negb (temp_attach os x) then Ret false else attach_buffers m pe
  end.

Definition get_events (d : et_id) (att : Z) (read : et_system → nat → res (Z * list nat * et_system))
  : res (Z * option (list nat) * et_id) :=
  a ← attachment (d_sys d) att;
  if negb (at_status a =? ET_ATT_ACTIVE) then leave d ET_ERROR None else
  if at_stat a =? Z.of_nat ET_GRANDCENTRAL then leave d ET_ERROR None else
  if at_stat a <? 0 then Undef else
  '(status, pe, y) ← read (d_sys d) (Z.to_nat (at_stat a));
  let d := set_sys d y in
  if negb (status =? ET_OK) then read_failed d status else
  ok ← attach_buffers (y_events y) pe;
  if negb ok then leave d ET_ERROR None else
  y ← set_attachment y att (λ a, a <| at_events_get ::= λ n, u64 (n + Z.of_nat (length pe)) |>);
  leave (set_sys d y) ET_OK (Some pe).

Definition et_event_get (d : et_id) (att : Z) (ptr : bool) (mode : Z) (deltatime : option (Z * Z)) (ws : script)
  : res (Z * option (list nat) * et_id) :=
  if (att <? 0) || negb ptr || bad_wait mode deltatime then Ret (ET_ERROR, None, d) else
  with_memory d (λ d, get_events d att (λ y i,
    '(status, x, y) ← et_station_read y i (wait_of mode) att ws; Ret (status, option_list x, y))).

Definition et_events_get (d : et_id) (att : Z) (ptr : bool) (mode : Z) (deltatime : option (Z * Z)) (num : Z)
    (ws : script) : res (Z * option (list nat) * et_id) :=
  if num =? 0 then Ret (ET_OK, None, d) else
  if (att <? 0) || negb ptr || (num <? 0) || bad_wait mode deltatime then Ret (ET_ERROR, None, d) else
  with_memory d (λ d, get_events d att (λ y i, et_station_nread y i (wait_of mode) att ws num)).

(** ** Putting events (lines 1356-1565) *)

(** Lines 1505-1524: each event fits in its memory and belongs to the attachment. *)
Fixpoint may_put (m : evs) (att : Z) (pe : list nat) : res bool :=
  match pe with
  | [] => Ret true
  | x :: pe =>
      e ← ev m (Some x);
      if (e_memsize e <? e_length e) || negb (e_owner e =? att) then Ret false else may_put m att pe
  end.

(** Lines 1526-1541: buffers are unmapped and events marked as used; whether all was well. *)
Fixpoint mark_used (m : evs) (pe : list nat) : res (bool * evs) :=
  match pe with
  | [] => Ret (true, m)
  | x :: pe =>
      e ← ev m (Some x);
      if (e_temp e =? ET_EVENT_TEMP) && negb (unmapped os x) then Ret (false, m) else
      m ← ev_set m (Some x) (λ e, e <| e_modify := e_age e |> <| e_age := ET_EVENT_USED |>);
      mark_used m pe
  end.

(** The station of an attachment. *)
Definition station_of (y : et_system) (att : Z) : res nat :=
  a ← attachment y att; if at_stat a <? 0 then Undef else Ret (Z.to_nat (at_stat a)).

Definition et_event_put (d : et_id) (att : Z) (pe : option nat) : res (Z * option unit * et_id) :=
  match pe with
  | None => Ret (ET_ERROR, None, d)
  | Some x =>
      if att <? 0 then Ret (ET_ERROR, None, d) else
      with_memory d (λ d,
        let y := d_sys d in
        e ← ev (y_events y) (Some x);
        if e_memsize e <? e_length e then leave d ET_ERROR None else
        if negb (e_owner e =? att) then leave d ET_ERROR None else
        if (e_temp e =? ET_EVENT_TEMP) && negb (unmapped os x) then leave d ET_ERROR None else
        i ← station_of y att;
        y ← each_event y [x] (λ e, e <| e_age := ET_EVENT_USED |>);
        '(status, y) ← run_station y i (λ n m s, et_station_write n m s x);
        if negb (status =? ET_OK) then
          y ← each_event y [x] (λ e', e' <| e_age := e_age e |>);
          leave (set_sys d y) status None
        else
          y ← set_attachment y att (λ a, a <| at_events_put ::= λ n, u64 (n + 1) |>);
          leave (set_sys d y) ET_OK None)
  end.

Definition et_events_put (d : et_id) (att : Z) (ptr : bool) (pe : list nat) : res (Z * option unit * et_id) :=
  if bool_decide (pe = []) then Ret (ET_OK, None, d) else
  if (att <? 0) || negb ptr then Ret (ET_ERROR, None, d) else
  with_memory d (λ d,
    let y := d_sys d in
    ok ← may_put (y_events y) att pe;
    if negb ok then leave d ET_ERROR None else
    '(ok, m) ← mark_used (y_events y) pe;
    let y := y <| y_events := m |> in
    if negb ok then leave (set_sys d y) ET_ERROR None else
    i ← station_of y att;
    '(status, y) ← run_station y i (λ n m s, et_station_nwrite n m s pe);
    if negb (status =? ET_OK) then
      y ← each_event y pe (λ e, e <| e_age := e_modify e |> <| e_modify := 0 |>);
      leave (set_sys d y) status None
    else
      y ← set_attachment y att (λ a, a <| at_events_put ::= λ n, u64 (n + Z.of_nat (length pe)) |>);
      leave (set_sys d y) ET_OK None).

(** ** Dumping events (lines 1585-1778) *)

Definition count_dumped (y : et_system) (att temps num : Z) : res et_system :=
  y ← (if 0 <? temps then y ← et_system_lock y; Ret (et_system_unlock (y <| y_ntemps ::= λ n, n - temps |>)) else Ret y);
  set_attachment y att (λ a, a <| at_events_dump ::= λ n, u64 (n + num) |>).

Definition et_event_dump (d : et_id) (att : Z) (pe : option nat) : res (Z * option unit * et_id) :=
  match pe with
  | None => Ret (ET_ERROR, None, d)
  | Some x =>
      if att <? 0 then Ret (ET_ERROR, None, d) else
      with_memory d (λ d,
        let y := d_sys d in
        e ← ev (y_events y) (Some x);
        if negb (e_owner e =? att) then leave d ET_ERROR None else
        let temp := e_temp e =? ET_EVENT_TEMP in
        if temp && negb (temp_remove os x) then leave d ET_ERROR None else
        '(status, y) ← run_station y ET_GRANDCENTRAL (λ n m s, et_station_dump n m s x);
        if negb (status =? ET_OK) then
          y ← each_event y [x] (λ e, e <| e_owner := att |>);
          leave (set_sys d y) status None
        else
          y ← count_dumped y att (if temp then 1 else 0) 1;
          leave (set_sys d y) ET_OK None)
  end.

(** Lines 1728-1737 and 1739-1755: the attachment owns all events; the number of temporary
    ones, whose buffers are removed. *)
Fixpoint owns_all (m : evs) (att : Z) (pe : list nat) : res bool :=
  match pe with
  | [] => Ret true
  | x :: pe => e ← ev m (Some x); if negb (e_owner e =? att) then Ret false else owns_all m att pe
  end.
Fixpoint remove_buffers (m : evs) (pe : list nat) (ntemps : Z) : res (option Z) :=
  match pe with
  | [] => Ret (Some ntemps)
  | x :: pe =>
      e ← ev m (Some x);
      if e_temp e =? ET_EVENT_TEMP then
        if temp_remove os x then remove_buffers m pe (ntemps + 1) else Ret None
      else remove_buffers m pe ntemps
  end.

Definition et_events_dump (d : et_id) (att : Z) (ptr : bool) (pe : list nat) : res (Z * option unit * et_id) :=
  if bool_decide (pe = []) then Ret (ET_OK, None, d) else
  if (att <? 0) || negb ptr then Ret (ET_ERROR, None, d) else
  with_memory d (λ d,
    let y := d_sys d in
    ok ← owns_all (y_events y) att pe;
    if negb ok then leave d ET_ERROR None else
    temps ← remove_buffers (y_events y) pe 0;
    match temps with
    | None => leave d ET_ERROR None
    | Some temps =>
        '(status, y) ← run_station y ET_GRANDCENTRAL (λ n m s, et_station_ndump n m s pe);
        if negb (status =? ET_OK) then leave (set_sys d y) status None else
        y ← count_dumped y att temps (Z.of_nat (length pe));
        leave (set_sys d y) ET_OK None
    end).

End Calls.
