(* ===== verification/EtSteps.v ===== *)
(** * Operations of stations as steps of the system

    Each operation on the lists of one station keeps the invariant of the system: events
    go from the attachments, or from those in flight, to a list, or from a list to an
    attachment. *)

From S2P Require Import Prelude Words EtTypes EtLists EtSegments EtListSpec EtStationSpec EtReadSpec EtRestoreSpec.
From S2P Require Import EtConductor EtSystemInv EtConductorSpec EtAccess EtWaiting EtDetached.

Section Sparing.
  Context {K : Sparing}.

(** The events [pe] belong to the attachment [att]. *)
Definition owned (m : evs) (att : Z) (pe : list nat) : Prop := Forall (λ x, e_owner <$> m !! x = Some att) pe.

Lemma owned_known m att pe : owned m att pe → known m pe.
Proof. apply Forall_impl. intros x H. by destruct (m !! x). Qed.

Lemma owned_owners m m' att pe : owners m' = owners m → owned m att pe → owned m' att pe.
Proof.
  intros H. apply Forall_impl. intros x Hx. assert (owners m' !! x = owners m !! x) as Hox by by rewrite H.
  unfold owners in Hox. rewrite !lookup_fmap in Hox. by rewrite Hox.
Qed.

Lemma owned_apart y Q F att pe : wf y Q F → att ≠ ET_SYS → owned (y_events y) att pe → pe ## concat Q ++ F.
Proof.
  intros Hw Ha Ho x Hx Hin. unfold owned in Ho. rewrite Forall_forall in Ho.
  specialize (Ho x ltac:(by apply list_elem_of_In)). destruct (y_events y !! x) as [e|] eqn:He; [|done].
  injection Ho as Ho. apply (wf_owner _ _ _ Hw x e He) in Hin. congruence.
Qed.

Lemma give_id o pe O : (∀ x, x ∈ pe → O !! x = Some o) → give o pe O = O.
Proof.
  intros H. apply map_eq. intros x. rewrite give_lookup. destruct (decide (x ∈ pe)); [|done]. symmetry. by apply H.
Qed.

(** ** Loops over events *)

Lemma each_ok m pe f :
  NoDup pe → known m pe →
  ∃ m', each m pe f = Ret m' ∧ (∀ x, m' !! x = if decide (x ∈ pe) then f <$> m !! x else m !! x).
Proof.
  revert m. induction pe as [|i pe IH]; intros m Hnd Hk.
  { exists m. split; [done|]. intros x. rewrite decide_False; [done|]. apply not_elem_of_nil. }
  apply list.NoDup_cons in Hnd as [Hi Hnd]. apply Forall_cons_1 in Hk as [[e He] Hk]. cbn [each].
  unfold ev_set. cbn [of_option mbind res_bind]. rewrite He. step.
  destruct (IH (<[i := f e]> m) Hnd) as (m' & -> & Hm').
  { eapply Forall_impl; [|exact Hk]. intros x [e' He']. cbv beta. destruct (decide (x = i)) as [->|Hne].
    - rewrite lookup_insert_eq. by eexists.
    - rewrite lookup_insert_ne by done. by eexists. }
  exists m'. split; [done|]. intros x. rewrite Hm'. destruct (decide (x ∈ pe)) as [Hx|Hx].
  - rewrite decide_True by by right. rewrite lookup_insert_ne; [done|]. by intros ->.
  - destruct (decide (x = i)) as [->|Hne].
    + by rewrite decide_True, lookup_insert_eq, He by by left.
    + rewrite lookup_insert_ne by done. rewrite decide_False; [done|]. by intros [?|?]%elem_of_cons.
Qed.

Lemma each_owners m m' (pe : list nat) f :
  (∀ e, e_owner (f e) = e_owner e) →
  (∀ x, m' !! x = if decide (x ∈ pe) then f <$> m !! x else m !! x) → owners m' = owners m.
Proof.
  intros Hf Hm. apply map_eq. intros x. unfold owners. rewrite !lookup_fmap, Hm.
  destruct (decide (x ∈ pe)); [|done]. destruct (m !! x); [|done]. cbn. by rewrite Hf.
Qed.

(** Fields of events that are in no list change. *)
Lemma wf_touch y Q F m :
  wf y Q F → owners m = owners (y_events y) → (∀ x, x ∈ concat Q → m !! x = y_events y !! x) → prios_ok m →
  wf (y <| y_events := m |>) Q F.
Proof.
  intros Hw Ho Hm Hp. pose proof (wf_known_all _ _ _ Hw) as Hka.
  assert (dom m = dom (y_events y)) as Hdom.
  { assert (dom (owners m) = dom (owners (y_events y))) as H by by rewrite Ho. unfold owners in H. by rewrite !dom_fmap_L in H. }
  assert (∀ x, is_Some (y_events y !! x) → is_Some (m !! x)) as Hkn by (intros x; rewrite <- !elem_of_dom; by rewrite Hdom).
  assert (∀ k q, Q !! k = Some q → ∀ x, x ∈ q → m !! x = y_events y !! x) as Hin.
  { intros k q Hq x Hx. apply Hm. by eapply elem_of_concat. }
  pose proof Hw as []. split; fields; try done.
  - apply Forall2_same_length_lookup. split; [by apply Forall2_length in wf_lists|]. intros k pl q Hpl Hq.
    change (lists (y <| y_events := m |>)) with (lists y) in Hpl.
    destruct (Forall2_lookup_lr _ _ _ _ _ _ wf_lists Hpl Hq) as [[H1 []] H3]. split; [|done].
    split; [done|]. split; try done. eapply linked_frame; [|done]. intros x Hx. unfold nexts. rewrite !lookup_fmap.
    by rewrite (Hin k q).
  - intros k pl q Hk Hpl Hq. change (lists (y <| y_events := m |>)) with (lists y) in Hpl.
    destruct (wf_outs k pl q Hk Hpl Hq) as [H1 H2].
    assert (high_prefix m q = high_prefix (y_events y) q) as Hhp.
    { specialize (Hin k q Hq). clear -Hin. induction q as [|x q IH]; [done|]. cbn [high_prefix].
      assert (is_high m x = is_high (y_events y) x) as -> by (unfold is_high; by rewrite Hin by by left).
      destruct (is_high _ x); [|done]. f_equal. apply IH.
      intros z Hz. apply Hin. by right. }
    assert (lows m q = lows (y_events y) q) as Hlo by (unfold lows; by rewrite Hhp).
    split; [|by rewrite Hhp]. unfold sorted in *. rewrite Hlo. rewrite list.Forall_forall in H1 |- *. intros x Hx.
    specialize (H1 x Hx). unfold is_high in *. rewrite (Hin k q Hq); [done|]. by eapply lows_sub.
  - eapply Forall_impl; [|exact wf_known]. intros x. apply Hkn.
  - by rewrite Hdom.
  - intros x e He. assert (owners m !! x = Some (e_owner e)) as Hx by (unfold owners; by rewrite lookup_fmap, He).
    rewrite Ho in Hx. unfold owners in Hx. rewrite lookup_fmap in Hx. destruct (y_events y !! x) as [e0|] eqn:He0; [|done].
    injection Hx as <-. by apply wf_owner.
  - intros x e He. assert (owners m !! x = Some (e_owner e)) as Hx by (unfold owners; by rewrite lookup_fmap, He).
    rewrite Ho in Hx. unfold owners in Hx. rewrite lookup_fmap in Hx. destruct (y_events y !! x) as [e0|] eqn:He0; [|done].
    injection Hx as <-. by apply (wf_owners x).
Qed.

(** Events of an attachment are in flight when the system owns them. *)
Lemma wf_release y Q F m att pe :
  wf y Q F → NoDup pe → att ≠ ET_SYS → owned (y_events y) att pe →
  (∀ x, m !! x = if decide (x ∈ pe) then (λ e, e <| e_owner := ET_SYS |>) <$> y_events y !! x else y_events y !! x) →
  wf (y <| y_events := m |>) Q (pe ++ F).
Proof.
  intros Hw Hnd Ha Ho Hm. pose proof (owned_apart _ _ _ _ _ Hw Ha Ho) as Hap. pose proof (owned_known _ _ _ Ho) as Hk.
  assert (nexts m = nexts (y_events y)) as Hn.
  { apply map_eq. intros x. unfold nexts. rewrite !lookup_fmap, Hm. destruct (decide _); [|done]. by destruct (y_events y !! x). }
  assert (core m = core (y_events y)) as Hc.
  { apply map_eq. intros x. unfold core. rewrite !lookup_fmap, Hm. destruct (decide _); [|done]. by destruct (y_events y !! x). }
  pose proof Hw as []. split; fields; try done.
  - eapply (list.Forall2_impl _ _ _ _ wf_lists). intros pl q [[H1 H2] H3]. split; [|done]. split; [done|]. by eapply spans_nexts.
  - intros k pl q H1 H2 H3. eapply in_order_core; [exact Hc|]. by eapply wf_outs.
  - rewrite app_assoc, (Permutation_app_comm (concat Q)), <- app_assoc. apply list.NoDup_app. split_and!; [done| |done].
    intros x Hx Hx2. by apply (Hap x).
  - apply (known_core (y_events y)); [done|]. by apply Forall_app.
  - by eapply prios_ok_core.
  - by rewrite (core_dom _ _ Hc).
  - intros x e He. rewrite Hm in He. rewrite !elem_of_app. destruct (decide (x ∈ pe)) as [Hx|Hx].
    + destruct (y_events y !! x) as [e0|]; [|done]. injection He as <-. split; [done|]. intros _. right. by left.
    + rewrite <- (wf_owner x e He), elem_of_app. tauto.
  - intros x e He Hne. rewrite Hm in He. destruct (decide (x ∈ pe)) as [Hx|Hx]; [|by eapply wf_owners].
    destruct (y_events y !! x) as [e0|]; [|done]. injection He as <-. by destruct Hne.
Qed.

(** ** Filling lists *)

(** The list at [k], of the station [i], gets the events [pe]: those of [P] from an
    attachment and those of [G], which were in flight. *)
Lemma wf_filled y Q F i s' k q pl m q' pe F' P G att :
  wf y Q F → Q !! k = Some q → lists (set_station y i (λ _, s')) = <[k := pl]> (lists y) →
  in_list m pl q' → li_lock pl = false → ((length (y_stats y) ≤ k)%nat → in_order m pl q') →
  moves (y_events y) m (q ++ pe) → owners m = give ET_SYS pe (owners (y_events y)) → q' ≡ₚ q ++ pe →
  pe ≡ₚ P ++ G → F ≡ₚ G ++ F' → NoDup P → att ≠ ET_SYS → owned (y_events y) att P →
  wf (set_station y i (λ _, s') <| y_events := m |>) (<[k := q']> Q) F'.
Proof.
  intros Hw Hq Hl Hin Hlock Hord Hm Ho Hp Hpe HF Hnd Ha HP.
  apply (wf_step y _ Q F k q pl q' F' P [] 0); rewrite ?app_nil_r; try done.
  - eapply moves_weaken; [exact Hm|]. intros x. rewrite HF, Hpe, !elem_of_app. tauto.
  - rewrite Hp, Hpe, HF, <- !app_assoc. f_equiv. rewrite (Permutation_app_comm P), <- app_assoc. done.
  - by eapply owned_apart.
  - by eapply owned_known.
  - change (owners m = give ET_SYS P (owners (y_events y))). rewrite Ho. apply map_eq. intros x. rewrite !give_lookup.
    destruct (decide (x ∈ P)) as [Hy|Hy]; [by rewrite decide_True by (rewrite Hpe; apply elem_of_app; by left)|].
    destruct (decide (x ∈ pe)) as [Hx|Hx]; [|done]. symmetry. eapply flight_owner; [exact Hw|]. rewrite HF.
    rewrite Hpe in Hx. apply elem_of_app in Hx as [?|?]; [done|]. apply elem_of_app. by left.
Qed.

Lemma lists_in_only y i s s' :
  y_stats y !! i = Some s → s_out s' = s_out s → lists (set_station y i (λ _, s')) = <[i := s_in s']> (lists y).
Proof.
  intros Hs Ho. unfold lists, set_station. fields.
  rewrite (list_fmap_alter_to s_in _ (y_stats y) i (s_in s')) by done.
  rewrite (list_fmap_alter_to s_out _ (y_stats y) i (s_out s)) by (by eexists || by intros z Hz).
  rewrite (list_insert_id (s_out <$> y_stats y)) by by rewrite list_lookup_fmap, Hs.
  rewrite insert_app_l; [done|]. rewrite length_fmap. by eapply lookup_lt_Some.
Qed.

Lemma lists_out_only y i s s' :
  y_stats y !! i = Some s → s_in s' = s_in s →
  lists (set_station y i (λ _, s')) = <[out_place y i := s_out s']> (lists y).
Proof.
  intros Hs Ho. unfold lists, set_station. fields.
  rewrite (list_fmap_alter_to s_out _ (y_stats y) i (s_out s')) by done.
  rewrite (list_fmap_alter_to s_in _ (y_stats y) i (s_in s)) by (by eexists || by intros z Hz).
  rewrite (list_insert_id (s_in <$> y_stats y)) by by rewrite list_lookup_fmap, Hs.
  rewrite <- (length_fmap s_in (y_stats y)). by rewrite insert_app_r.
Qed.

(** Events that come to a list: known, not in it, and there is room. *)
Lemma wf_room y Q F k q pe P G F' att :
  wf y Q F → Q !! k = Some q → pe ≡ₚ P ++ G → F ≡ₚ G ++ F' → NoDup P → att ≠ ET_SYS → owned (y_events y) att P →
  NoDup (q ++ pe) ∧ known (y_events y) pe ∧ Z.of_nat (length q + length pe) ≤ y_nevents y.
Proof.
  intros Hw Hq Hpe HF HndP Ha HP.
  assert (NoDup (concat Q ++ pe) ∧ known (y_events y) (concat Q ++ pe)) as [Hnd Hk].
  { pose proof (wf_nodup _ _ _ Hw) as Hnd. pose proof (wf_known_all _ _ _ Hw) as Hk. split.
    - rewrite Hpe, (Permutation_app_comm P), app_assoc. apply list.NoDup_app. split_and!.
      + rewrite HF, app_assoc in Hnd. by apply list.NoDup_app in Hnd as (? & _).
      + intros x Hx HxP. eapply (owned_apart _ _ _ _ _ Hw Ha HP x HxP). rewrite HF, !elem_of_app in *. tauto.
      + done.
    - unfold known in *. rewrite Hpe. apply Forall_app in Hk as [Hk1 Hk2]. rewrite HF in Hk2. apply Forall_app in Hk2 as [Hk2 _].
      apply Forall_app. split; [done|]. apply Forall_app. split; [by eapply owned_known|done]. }
  pose proof (known_length _ _ Hnd Hk) as Hlen. pose proof (wf_size _ _ _ Hw).
  apply list_elem_of_split_length in Hq as (Q1 & Q2 & -> & _). rewrite concat_app in *. cbn in *.
  assert (((concat Q1 ++ q ++ concat Q2) ++ pe) ≡ₚ (concat Q1 ++ concat Q2) ++ (q ++ pe)) as Hperm.
  { rewrite <- !app_assoc. f_equiv. rewrite (app_assoc q), (Permutation_app_comm q), <- app_assoc. done. }
  split_and!.
  - rewrite Hperm in Hnd. by apply list.NoDup_app in Hnd as (_ & _ & ?).
  - by apply Forall_app in Hk as [_ ?].
  - rewrite Hperm, !length_app in Hlen. lia.
Qed.

(** ** The operations *)

Lemma keeps_station y i s s' m :
  y_stats y !! i = Some s → shape_of s' = shape_of s → s_status s' = s_status s → spared (y_events y) m →
  keeps y (set_station y i (λ _, s') <| y_events := m |>).
Proof.
  intros Hs H1 H2 Hsp. assert (keeps y (set_station y i (λ _, s'))) as [G1 G2 G3 G4 _]; [|by split].
  split; try done.
  - unfold shape, set_station. fields. apply list_eq. intros j. rewrite !list_lookup_fmap.
    destruct (decide (j = i)) as [->|Hij]; [|by rewrite list_lookup_alter_ne].
    rewrite list_lookup_alter_eq, Hs. cbn. by rewrite H1.
  - unfold is_active, set_station. fields. destruct (decide (ET_GRANDCENTRAL = i)) as [<-|Hij].
    + rewrite list_lookup_alter_eq, Hs. cbn. by rewrite H2.
    + by rewrite list_lookup_alter_ne.
Qed.

Lemma keeps_same y y' :
  y_stats y' = y_stats y → owners (y_events y') = owners (y_events y) → frames y y' → seats y' = seats y → keeps y y'.
Proof.
  intros Hs Ho Hf Ha. split; [unfold shape; by rewrite Hs|unfold is_active; by rewrite Hs|done|by rewrite Ha|by apply spared_owners].
Qed.

(** Events of an attachment that is not spared, and events in flight. *)
Lemma filled_spared y Q F F' pe P G att m :
  wf y Q F → pe ≡ₚ P ++ G → F ≡ₚ G ++ F' → owned (y_events y) att P → ¬ sparing att →
  owners m = give ET_SYS pe (owners (y_events y)) → spared (y_events y) m.
Proof.
  intros Hw Hpe HF HP HK Ho. eapply spared_give; [exact Ho|]. intros x Hx. rewrite Hpe in Hx. apply elem_of_app in Hx as [Hx|Hx].
  - right. exists att. split; [|done]. unfold owned in HP. rewrite list.Forall_forall in HP. specialize (HP x Hx).
    unfold owners. rewrite lookup_fmap. by destruct (y_events y !! x).
  - left. eapply flight_owner; [exact Hw|]. rewrite HF. apply elem_of_app. by left.
Qed.

Section Fill.
  Context (y : et_system) (Q : list (list nat)) (F F' pe P G : list nat) (att : Z) (i : nat) (s : et_station).
  Context (Hw : wf y Q F) (Hs : y_stats y !! i = Some s).
  Context (Hpe : pe ≡ₚ P ++ G) (HF : F ≡ₚ G ++ F') (HndP : NoDup P) (Ha : att ≠ ET_SYS) (HP : owned (y_events y) att P).
  Context (HK : ¬ sparing att).

Lemma nwrite_step :
  ∃ y' Q', run_station y i (λ n m s, et_station_nwrite n m s pe) = Ret (ET_OK, y') ∧
    wf y' Q' F' ∧ keeps y y' ∧ y_attach y' = y_attach y ∧
    owners (y_events y') = give ET_SYS pe (owners (y_events y)).
Proof.
  destruct (wf_out _ _ _ _ _ Hw Hs) as (q & Hq & Hout & Hlock).
  destruct (wf_room _ _ _ _ _ _ _ _ _ _ Hw Hq Hpe HF HndP Ha HP) as (Hnd & Hk & Hlen).
  destruct (et_station_nwrite_ok (y_nevents y) (y_events y) s q pe Hout Hlock Hnd Hk (wf_prios _ _ _ Hw) Hlen)
    as (m & s' & Hrun & Hout' & Hm & Ho & (Hs' & (Hl' & _) & _)).
  unfold run_station, station. rewrite Hs. step. rewrite Hrun. step. eexists _, _. split; [done|].
  assert (s_in s' = s_in s) as Hin by (rewrite Hs'; by fields).
  split_and!; [|apply keeps_station with s; [exact Hs|rewrite Hs'; by fields|rewrite Hs'; by fields|
    exact (filled_spared y Q F F' pe P G att m Hw Hpe HF HP HK Ho)]|done|done].
  destruct Hout' as [H1 H2 H3].
  eapply (wf_filled y Q F i s' _ q (s_out s') m (insert_all (y_events y) q pe) pe F' P G att); try done.
  - by eapply lists_out_only.
  - congruence.
  - by rewrite insert_all_perm.
Qed.

Lemma ndump_step :
  i = ET_GRANDCENTRAL →
  ∃ y' Q', run_station y i (λ n m s, et_station_ndump n m s pe) = Ret (ET_OK, y') ∧
    wf y' Q' F' ∧ keeps y y' ∧ y_attach y' = y_attach y ∧
    owners (y_events y') = give ET_SYS pe (owners (y_events y)).
Proof.
  intros _. destruct (wf_list _ _ _ _ _ Hw Hs) as (q & Hq & Hin & Hlock).
  destruct (wf_room _ _ _ _ _ _ _ _ _ _ Hw Hq Hpe HF HndP Ha HP) as (Hnd & Hk & Hlen).
  destruct (et_station_ndump_ok (y_nevents y) (y_events y) s q pe Hin Hlock Hnd Hk Hlen)
    as (m & s' & Hrun & Hin' & Hm & Ho & (Hs' & (Hl' & _) & _)).
  unfold run_station, station. rewrite Hs. step. rewrite Hrun. step. eexists _, _. split; [done|].
  assert (s_out s' = s_out s) as Hout by (rewrite Hs'; by fields).
  split_and!; [|apply keeps_station with s; [exact Hs|rewrite Hs'; by fields|rewrite Hs'; by fields|
    exact (filled_spared y Q F F' pe P G att m Hw Hpe HF HP HK Ho)]|done|done].
  eapply (wf_filled y Q F i s' i q (s_in s') m (q ++ pe) pe F' P G att); try done.
  - by eapply lists_in_only.
  - revert Hl'. fields. cbn. congruence.
  - intros Hle. apply lookup_lt_Some in Hs. lia.
Qed.

Lemma restore_input_step :
  pe ≠ [] →
  ∃ y' Q', restore_input y i pe = Ret (ET_OK, Z.of_nat (length pe), y') ∧
    wf y' Q' F' ∧ keeps y y' ∧ y_attach y' = y_attach y ∧
    owners (y_events y') = give ET_SYS pe (owners (y_events y)).
Proof.
  intros Hne. destruct (wf_list _ _ _ _ _ Hw Hs) as (q & Hq & Hin & Hlock).
  destruct (wf_room _ _ _ _ _ _ _ _ _ _ Hw Hq Hpe HF HndP Ha HP) as (Hnd & Hk & Hlen).
  destruct (et_restore_ok (y_nevents y) (y_events y) (s_in s) q pe Hin Hlock Hnd Hk Hne (wf_prios _ _ _ Hw) Hlen)
    as (m & pl & Hrun & Hin' & Hm & Ho & (Hl' & _) & _).
  unfold restore_input, station. rewrite Hs. step. rewrite Hrun. step. eexists _, _. split; [done|].
  rewrite (set_station_ext y i s _ (λ _, s <| s_in := pl |>) Hs) by done.
  split_and!; [|apply keeps_station with s; [exact Hs|by fields|by fields|
    exact (filled_spared y Q F F' pe P G att m Hw Hpe HF HP HK Ho)]|done|done].
  eapply (wf_filled y Q F i _ i q pl m (merge (y_events y) pe q) pe F' P G att); try done.
  - set (s1 := s <| s_in := pl |>). exact (lists_in_only y i s s1 Hs eq_refl).
  - congruence.
  - intros Hle. apply lookup_lt_Some in Hs. lia.
  - rewrite merge_perm. apply Permutation_app_comm.
Qed.
End Fill.

(** Single events. *)
Lemma write_step y Q F i s x att :
  wf y Q F → y_stats y !! i = Some s → att ≠ ET_SYS → owned (y_events y) att [x] → ¬ sparing att →
  ∃ y' Q', run_station y i (λ n m s, et_station_write n m s x) = Ret (ET_OK, y') ∧
    wf y' Q' F ∧ keeps y y' ∧ y_attach y' = y_attach y ∧
    owners (y_events y') = give ET_SYS [x] (owners (y_events y)).
Proof.
  intros Hw Hs Ha HP HK. destruct (wf_out _ _ _ _ _ Hw Hs) as (q & Hq & Hout & Hlock).
  destruct (wf_room y Q F _ q [x] [x] [] F att Hw Hq) as (Hnd & Hk & Hlen); try done; [apply NoDup_singleton|].
  apply list.NoDup_app in Hnd as (_ & Hd & _). apply Forall_cons_1 in Hk as [Hk _].
  destruct (et_station_write_ok (y_nevents y) (y_events y) s q x Hout Hlock) as (m & s' & Hrun & Hout' & Hm & Ho & (Hs' & (Hl' & _) & _));
    [intros H; apply (Hd x H); by left|done|apply Hw|cbn in Hlen; lia|].
  unfold run_station, station. rewrite Hs. step. rewrite Hrun. step. eexists _, _. split; [done|].
  assert (s_in s' = s_in s) as Hin by (rewrite Hs'; by fields).
  split_and!; [|apply keeps_station with s; [exact Hs|rewrite Hs'; by fields|rewrite Hs'; by fields|
    by eapply (filled_spared y Q F F [x] [x] [] att)]|done|done].
  destruct Hout' as [H1 H2 H3].
  eapply (wf_filled y Q F i s' _ q (s_out s') m (merge (y_events y) q [x]) [x] F [x] [] att); try done.
  - by eapply lists_out_only.
  - congruence.
  - by rewrite merge_perm.
  - apply NoDup_singleton.
Qed.

Lemma dump_step y Q F s x att :
  wf y Q F → y_stats y !! ET_GRANDCENTRAL = Some s → att ≠ ET_SYS → owned (y_events y) att [x] → ¬ sparing att →
  ∃ y' Q', run_station y ET_GRANDCENTRAL (λ n m s, et_station_dump n m s x) = Ret (ET_OK, y') ∧
    wf y' Q' F ∧ keeps y y' ∧ y_attach y' = y_attach y ∧
    owners (y_events y') = give ET_SYS [x] (owners (y_events y)).
Proof.
  intros Hw Hs Ha HP HK. destruct (wf_list _ _ _ _ _ Hw Hs) as (q & Hq & Hin & Hlock).
  destruct (wf_room y Q F _ q [x] [x] [] F att Hw Hq) as (Hnd & Hk & Hlen); try done; [apply NoDup_singleton|].
  apply list.NoDup_app in Hnd as (_ & Hd & _). apply Forall_cons_1 in Hk as [Hk _].
  destruct (et_station_dump_ok (y_nevents y) (y_events y) s q x Hin Hlock) as (m & s' & Hrun & Hin' & Hm & Ho & (Hs' & (Hl' & _) & _));
    [intros H; apply (Hd x H); by left|done|cbn in Hlen; lia|].
  unfold run_station, station. rewrite Hs. step. rewrite Hrun. step. eexists _, _. split; [done|].
  assert (s_out s' = s_out s) as Hout by (rewrite Hs'; by fields).
  split_and!; [|apply keeps_station with s; [exact Hs|rewrite Hs'; by fields|rewrite Hs'; by fields|
    by eapply (filled_spared y Q F F [x] [x] [] att)]|done|done].
  eapply (wf_filled y Q F _ s' ET_GRANDCENTRAL q (s_in s') m (q ++ [x]) [x] F [x] [] att); try done.
  - by eapply lists_in_only.
  - revert Hl'. fields. cbn. congruence.
  - intros Hle. apply lookup_lt_Some in Hs. lia.
  - apply NoDup_singleton.
Qed.

(** ** Emptying lists *)

(** The events [T] leave the input list of a station for an attachment. *)
Lemma wf_taken y Q F j s s' q m q' T att :
  wf y Q F → y_stats y !! j = Some s → Q !! j = Some q → in_list m (s_in s') q' →
  li_lock (s_in s') = false → s_out s' = s_out s → moves (y_events y) m q → q ≡ₚ T ++ q' →
  owners m = give att T (owners (y_events y)) → 0 ≤ att < Z.of_nat (length (y_attach y)) →
  wf (set_station y j (λ _, s') <| y_events := m |>) (<[j := q']> Q) F.
Proof.
  intros Hw Hs Hq Hin Hlock Hout Hm Hp Ho Ha.
  apply (wf_step y _ Q F j q (s_in s') q' F [] T att); rewrite ?app_nil_r; try done.
  - by eapply lists_in_only.
  - intros Hle. apply lookup_lt_Some in Hs. lia.
  - eapply moves_weaken; [exact Hm|]. clear. set_solver.
  - rewrite Hp, (Permutation_app_comm T), <- !app_assoc. f_equiv. apply Permutation_app_comm.
  - constructor.
  - intros x Hx. by apply elem_of_nil in Hx.
  - constructor.
Qed.
End Sparing.
