(* ===== verification/EtWaitSpec.v ===== *)
(** * Readers keep the lists in order

    Whatever the others do while a reader waits, as long as they keep the lists of the
    system in order, the reader gets events from the front of the list as it is then, or
    leaves it as it is. *)

From S2P Require Import Prelude Words EtTypes EtLists EtSegments EtListSpec EtStationSpec EtReadSpec.
From S2P Require Import EtConductor EtSystemInv EtConductorSpec EtAccess EtWaiting EtDetached EtSteps.

Section Sparing.
  Context {K : Sparing}.

(** What others may do. *)
Class Calm (run : others) : Prop := {
  calm_wf y Q F : wf y Q F → (∃ Q', wf (run y) Q' F) ∧ keeps y (run y)
}.

#[export] Instance calm_id : Calm (λ y, y).
Proof. split. intros y Q F Hw. split; [by exists Q|apply keeps_refl]. Qed.

(** The time given is not refused. *)
Definition calm_script (ws : script) : Prop := Forall (λ w, Calm w.2 ∧ w.1 ≠ BadTime) ws.
Definition valid (y : et_system) (att : Z) : Prop := 0 ≤ att < Z.of_nat (length (y_attach y)).

Lemma valid_keeps y y' att : keeps y y' → valid y att → valid y' att.
Proof. intros [_ _ [_ H%sizes_attach] _ _]. unfold valid. by rewrite H. Qed.

(** ** The mutex of the input list *)

(** The mutex is held; without it the system is in order. *)
Record held (y : et_system) (i : nat) (s : et_station) (Q : list (list nat)) (F : list nat) : Prop := Held {
  he_station : y_stats y !! i = Some s;
  he_lock : li_lock (s_in s) = true;
  he_wf : wf (unlock_list y i) Q F
}.

Lemma set_station_id y i s f : y_stats y !! i = Some s → f s = s → set_station y i f = y.
Proof.
  intros Hs Hf. unfold set_station. destruct y. unfold update. cbn in *. f_equal. apply list_eq. intros j.
  destruct (decide (j = i)) as [->|Hne]; [by rewrite list_lookup_alter_eq, Hs; cbn; rewrite Hf|by rewrite list_lookup_alter_ne].
Qed.

Lemma lookup_set_station y i s f : y_stats y !! i = Some s → y_stats (set_station y i f) !! i = Some (f s).
Proof. intros Hs. unfold set_station. fields. by rewrite list_lookup_alter_eq, Hs. Qed.

Lemma set_station_compose y i f g : set_station (set_station y i f) i g = set_station y i (λ s, g (f s)).
Proof.
  unfold set_station. destruct y. unfold update. cbn. f_equal. apply list_eq. intros j.
  destruct (decide (j = i)) as [->|Hne]; [|by rewrite !list_lookup_alter_ne].
  rewrite !list_lookup_alter_eq. by destruct (y_stats !! i).
Qed.

Lemma keeps_list y i h : keeps y (set_station y i (λ s, s <| s_in ::= h |>)).
Proof. by apply keeps_set. Qed.

Lemma lock_list_ok y Q F i s :
  wf y Q F → y_stats y !! i = Some s →
  let s' := s <| s_in := s_in s <| li_lock := true |> |> in
  ∃ y', lock_list y i = Ret y' ∧ held y' i s' Q F ∧ keeps y y' ∧ y_attach y' = y_attach y ∧
    y_histogram y' = y_histogram y.
Proof.
  intros Hw Hs s'. destruct (wf_list _ _ _ _ _ Hw Hs) as (q & Hq & Hin & Hlock).
  unfold lock_list, station. rewrite Hs. step. unfold et_llist_lock. rewrite Hlock. step.
  eexists. split; [done|]. set (h := λ _ : et_list, s_in s <| li_lock := true |>).
  split; [|split; [exact (keeps_list y i h)|done]]. split.
  - by rewrite (lookup_set_station _ _ s).
  - done.
  - unfold unlock_list. rewrite set_station_compose. rewrite (set_station_id y i s); [done|done|].
    unfold et_llist_unlock. destruct s as [? ? ? ? ? ? ? ? ? ? ? ? sin ? ? ? ?]. destruct sin. cbn in *. by subst.
Qed.

(** Other parts of the system may change. *)
Lemma held_same y y' i s Q F :
  y_events y' = y_events y → y_stats y' = y_stats y → frames y y' → held y i s Q F → held y' i s Q F.
Proof.
  intros He Hs Hf [H1 H2 H3]. split; [by rewrite Hs|done|].
  apply (wf_same (unlock_list y i)); [done| |done|done]. unfold unlock_list, set_station. fields. by rewrite Hs.
Qed.

Lemma set_attachment_ok y att f :
  valid y att → (∀ a, at_num (f a) = at_num a) → (∀ a, at_status (f a) = at_status a) → (∀ a, at_stat (f a) = at_stat a) →
  ∃ y', set_attachment y att f = Ret y' ∧ y_events y' = y_events y ∧ y_stats y' = y_stats y ∧ frames y y' ∧ seats y' = seats y.
Proof.
  intros Hv Hf0 Hf1 Hf2. unfold valid in Hv. destruct (lookup_lt_is_Some_2 (y_attach y) (Z.to_nat att)) as [a Ha]; [lia|].
  unfold set_attachment, attachment. rewrite (aget_ok _ _ a) by (lia || done). step. rewrite aset_ok by lia. step.
  eexists. split; [done|]. split_and!; try done; [unfold frames, sizes; fields; by rewrite length_insert|].
  unfold seats. fields. rewrite list_fmap_insert, Hf0, Hf1, Hf2. apply list_insert_id. by rewrite list_lookup_fmap, Ha.
Qed.

Lemma attachment_ok y att : valid y att → ∃ a, attachment y att = Ret a.
Proof.
  intros Hv. unfold valid in Hv. destruct (lookup_lt_is_Some_2 (y_attach y) (Z.to_nat att)) as [a Ha]; [lia|].
  exists a. unfold attachment. by apply aget_ok; [lia|].
Qed.

Lemma held_unlocked y i s Q F : held y i s Q F → wf (unlock_list y i) Q F ∧ keeps y (unlock_list y i).
Proof. intros []. split; [done|apply keeps_list]. Qed.

Lemma keeps_exists y y' i s : keeps y y' → y_stats y !! i = Some s → ∃ s', y_stats y' !! i = Some s'.
Proof. intros [H] Hs. destruct (shape_lookup _ _ _ _ H Hs) as (s' & Hs' & _). by exists s'. Qed.

Lemma cond_wait_ok y i s Q F att run :
  held y i s Q F → valid y att → Calm run →
  ∃ y' s' Q', cond_wait y i att run = Ret y' ∧ held y' i s' Q' F ∧ keeps y y'.
Proof.
  intros Hh Hv Hcalm. unfold cond_wait.
  destruct (set_attachment_ok y att (λ a, a <| at_blocked := ET_ATT_BLOCKED |>) Hv) as (y1 & -> & He1 & Hs1 & Hf1 & Ht1); [done..|]. step.
  pose proof (held_same _ _ _ _ _ _ He1 Hs1 Hf1 Hh) as Hh1. pose proof (keeps_same _ _ Hs1 (f_equal owners He1) Hf1 Ht1) as Hst1.
  destruct (held_unlocked _ _ _ _ _ Hh1) as [Hw2 Hst2].
  destruct (calm_wf _ _ _ Hw2) as [(Q' & Hw3) Hst3]. set (y3 := run (unlock_list y1 i)) in *.
  assert (keeps y y3) as Hst by (eapply keeps_trans; [exact Hst1|]; by eapply keeps_trans).
  destruct (keeps_exists _ _ _ _ Hst (he_station _ _ _ _ _ Hh)) as (s3 & Hs3).
  destruct (lock_list_ok y3 Q' F i s3 Hw3 Hs3) as (y4 & -> & Hh4 & Hst4 & Ha4 & _). step.
  assert (keeps y y4) as Hst' by by eapply keeps_trans.
  destruct (set_attachment_ok y4 att (λ a, a <| at_blocked := ET_ATT_UNBLOCKED |>)) as (y5 & -> & He5 & Hs5 & Hf5 & Ht5);
    [by eapply valid_keeps|done..|].
  eexists _, _, Q'. split; [done|]. split; [by eapply held_same|].
  eapply keeps_trans; [exact Hst'|]. apply keeps_same; [done|by rewrite He5|done|done].
Qed.

Lemma quits_ok y i s Q F att :
  held y i s Q F → valid y att →
  ∃ r, quits y i att = Ret r ∧ (∀ y', r = Some y' → wf y' Q F ∧ keeps y y').
Proof.
  intros Hh Hv. unfold quits. destruct (attachment_ok _ _ Hv) as (a & ->). step.
  destruct (_ =? _); [|by eexists; split; [done|]]. destruct (held_unlocked _ _ _ _ _ Hh) as [Hw Hst].
  destruct (set_attachment_ok (unlock_list y i) att (λ a, a <| at_quit := ET_ATT_CONTINUE |>)) as (y1 & -> & He1 & Hs1 & Hf1 & Ht1); [done..|].
  step. eexists. split; [done|]. intros y' [= <-]. split; [by eapply wf_same|].
  eapply keeps_trans; [exact Hst|]. apply keeps_same; [done|by rewrite He1|done|done].
Qed.

(** ** The loop *)

(** A reader with the mutex of a list that is not empty, or one that gave up. *)
Definition ready (y y' : et_system) (i : nat) (F : list nat) (st : Z) : Prop :=
  keeps y y' ∧
  ((st = ET_OK ∧ ∃ s' Q', held y' i s' Q' F ∧ 0 < li_cnt (s_in s')) ∨
   (st ≠ ET_OK ∧ ∃ Q', wf y' Q' F)).

Lemma ready_after y1 y2 y' i F st : keeps y1 y2 → ready y2 y' i F st → ready y1 y' i F st.
Proof. intros Hst [H1 H2]. split; [by eapply keeps_trans|done]. Qed.

(** The rest of the script. *)
Definition rest (ws ws' : script) : Prop := ∃ used, ws = used ++ ws'.

Lemma calm_rest ws ws' : rest ws ws' → calm_script ws → calm_script ws'.
Proof. intros [u ->] H. by apply Forall_app in H as [_ ?]. Qed.

Lemma wait_events_ok y i s Q F att must ws :
  held y i s Q F → valid y att → calm_script ws →
  wait_events y i att must ws = Blocked ∨
  ∃ st y' ws', wait_events y i att must ws = Ret (st, y', ws') ∧ rest ws ws' ∧
    (must = true → (length ws' < length ws)%nat) ∧ ready y y' i F st.
Proof.
  revert y s Q must. induction ws as [|[w run] ws IH]; intros y s Q must Hh Hv Hc; cbn [wait_events].
  - unfold station. rewrite (he_station _ _ _ _ _ Hh). step. destruct ((0 <? _) && negb must) eqn:E.
    + right. apply andb_true_iff in E as [E E2]. apply negb_true_iff in E2. eexists _, _, _. split; [done|].
      split; [by exists []|]. split; [by rewrite E2|]. split; [apply keeps_refl|]. left. split; [done|].
      exists s, Q. split; [done|lia].
    + by left.
  - unfold station. rewrite (he_station _ _ _ _ _ Hh). step. destruct ((0 <? _) && negb must) eqn:E.
    { right. apply andb_true_iff in E as [E E2]. apply negb_true_iff in E2. eexists _, _, _. split; [done|].
      split; [by exists []|]. split; [by rewrite E2|]. split; [apply keeps_refl|]. left. split; [done|].
      exists s, Q. split; [done|lia]. }
    apply Forall_cons_1 in Hc as [[Hcalm Hbad] Hc]. cbn in Hcalm, Hbad.
    destruct (cond_wait_ok y i s Q F att run Hh Hv Hcalm) as (y1 & s1 & Q1 & -> & Hh1 & Hst1). step.
    assert (valid y1 att) as Hv1 by by eapply valid_keeps.
    destruct (held_unlocked _ _ _ _ _ Hh1) as [Hw1 Hu1].
    destruct w; [| |done].
    + destruct (quits_ok y1 i s1 Q1 F att Hh1 Hv1) as ([y2|] & -> & Hq); step.
      * right. eexists _, _, _. split; [done|]. split; [by exists [(Woken, run)]|]. split; [cbn; lia|].
        destruct (Hq y2 eq_refl) as [Hw2 Hst2]. split; [by eapply keeps_trans|]. right. split; [done|]. by exists Q1.
      * destruct (IH y1 s1 Q1 false Hh1 Hv1 Hc) as [->|(st & y' & ws' & -> & [u ->] & _ & Hr)]; [by left|].
        right. eexists _, _, _. split; [done|]. split; [by exists ((Woken, run) :: u)|]. split; [cbn; rewrite length_app; lia|].
         by eapply ready_after.
    + right. eexists _, _, _. split; [done|]. split; [by exists [(TimedOut, run)]|]. split; [cbn; lia|].
      split; [by eapply keeps_trans|]. right. split; [done|]. by exists Q1.
Qed.

Lemma untimed_calm ws : calm_script ws → calm_script (untimed ws).
Proof. intros H. unfold calm_script, untimed. apply list.Forall_fmap. eapply Forall_impl; [|exact H]. by intros [w run] [H1 _]. Qed.

Lemma untimed_rest ws ws' : rest (untimed ws) ws' → ∃ ws1, rest ws ws1 ∧ ws' = untimed ws1 ∧ length ws' = length ws1.
Proof.
  intros [u Hu]. apply fmap_app_inv in Hu as (u1 & ws1 & -> & -> & ->). exists ws1. split; [by exists u1|].
  split; [done|]. by rewrite length_fmap.
Qed.

Lemma count_inputs_ok y i s Q F :
  held y i s Q F →
  ∃ y', count_inputs y i (li_cnt (s_in s)) = Ret y' ∧ held y' i s Q F ∧ keeps y y' ∧ y_attach y' = y_attach y.
Proof.
  intros Hh. unfold count_inputs. destruct (_ =? _)%nat; [|by exists y; split_and!; [done|done|apply keeps_refl|done]].
  pose proof (he_wf _ _ _ _ _ Hh) as Hw. pose proof (he_station _ _ _ _ _ Hh) as Hs.
  assert (y_stats (unlock_list y i) !! i = Some (s <| s_in ::= et_llist_unlock |>)) as Hs1 by by eapply lookup_set_station.
  destruct (wf_list _ _ _ _ _ Hw Hs1) as (q & Hq & [Hcnt _] & _). change (li_cnt (s_in s) = Z.of_nat (length q)) in Hcnt.
  pose proof (wf_count _ _ _ _ _ Hw Hq) as Hlen. pose proof (wf_histogram _ _ _ Hw) as Hhist.
  change (y_histogram (unlock_list y i)) with (y_histogram y) in Hhist. change (y_nevents (unlock_list y i)) with (y_nevents y) in *.
  destruct (lookup_lt_is_Some_2 (y_histogram y) (Z.to_nat (li_cnt (s_in s)))) as [h Hhh]; [lia|].
  rewrite (aget_ok _ _ h) by (lia || done). step. rewrite aset_ok by lia. step. eexists. split; [done|].
  assert (frames y (y <| y_histogram := <[Z.to_nat (li_cnt (s_in s)) := h + 1]> (y_histogram y) |>)) as Hf.
  { unfold frames, sizes. fields. by rewrite length_insert. }
  split; [by apply (held_same y)|split; [by apply keeps_same|done]].
Qed.

(** ** The modes *)

Section Modes.
  Context (y : et_system) (Q : list (list nat)) (F : list nat) (i : nat) (s : et_station) (att : Z) (ws : script).
  Context (Hw : wf y Q F) (Hs : y_stats y !! i = Some s) (Hv : valid y att) (Hc : calm_script ws).

(** The modes that wait, once the mutex is held. *)
Lemma wait_locked_ok y1 s1 mode must :
  held y1 i s1 Q F → keeps y y1 →
  wait_events y1 i att must (if mode =? ET_SLEEP then untimed ws else ws) = Blocked ∨
  ∃ st y' ws', wait_events y1 i att must (if mode =? ET_SLEEP then untimed ws else ws) = Ret (st, y', ws') ∧
    calm_script ws' ∧ (length ws' <= length ws)%nat ∧ (must = true → (length ws' < length ws)%nat) ∧ ready y y' i F st.
Proof.
  intros Hh Hst. set (ws1 := if mode =? ET_SLEEP then _ else _).
  assert (calm_script ws1 ∧ length ws1 = length ws) as (Hc1 & Hl1).
  { unfold ws1. destruct (_ =? _); [|done]. split; [by apply untimed_calm|apply length_fmap]. }
  destruct (wait_events_ok y1 i s1 Q F att must ws1 Hh (valid_keeps _ _ _ Hst Hv) Hc1)
    as [->|(st & y' & ws' & -> & Hr & Hlt & Hrd)]; [by left|].
  right. exists st, y', ws'. split; [done|]. split; [by eapply calm_rest|]. rewrite Hl1 in Hlt.
  destruct Hr as [u Hu]. rewrite <- Hl1. split; [rewrite Hu, length_app; lia|]. rewrite Hl1. split; [done|]. by eapply ready_after.
Qed.

Lemma wait_group_ok mode scanList :
  (wait_group y i mode att scanList ws = Blocked ∧ mode ≠ ET_ASYNC) ∨
  ∃ st y' ws', wait_group y i mode att scanList ws = Ret (st, y', ws') ∧ calm_script ws' ∧
    (length ws' <= length ws)%nat ∧ (mode ≠ ET_ASYNC → scanList = false → st = ET_OK → (length ws' < length ws)%nat) ∧
    ready y y' i F st.
Proof.
  destruct (lock_list_ok y Q F i s Hw Hs) as (y1 & Hl & Hh1 & Hst1 & Ha1 & _).
  unfold wait_group. destruct ((mode =? ET_SLEEP) || (mode =? ET_TIMED)) eqn:Hm.
  - rewrite Hl. step. unfold station. rewrite (he_station _ _ _ _ _ Hh1). step.
    assert (∃ y2, (if scanList then count_inputs y1 i (li_cnt (s_in (s <| s_in := s_in s <| li_lock := true |> |>))) else Ret y1) = Ret y2 ∧
      held y2 i (s <| s_in := s_in s <| li_lock := true |> |>) Q F ∧ keeps y1 y2) as (y2 & -> & Hh2 & Hst2).
    { destruct scanList; [|by eexists; split_and!; [done|done|apply keeps_refl]].
      destruct (count_inputs_ok _ _ _ _ _ Hh1) as (y2 & -> & Hh2 & Hst2 & _). by exists y2. }
    step. destruct (wait_locked_ok y2 _ mode (negb scanList) Hh2) as [->|(st & y' & ws' & -> & H1 & H2 & H3 & H4)];
      [by eapply keeps_trans|left; split; [done|by intros ->]|]. right. exists st, y', ws'. split_and!; try done.
    intros _ -> _. by apply H3.
  - apply orb_false_iff in Hm as [Hm1 Hm2]. unfold wait_input. rewrite Hm1, Hm2. cbn [orb].
    right. destruct (mode =? ET_ASYNC) eqn:Ha.
    + apply Z.eqb_eq in Ha. unfold station. rewrite Hs. step.
      destruct (wf_list _ _ _ _ _ Hw Hs) as (q & Hq & Hin & Hlock). rewrite Hlock, Hl. step.
      assert (valid y1 att) as Hv1 by by eapply valid_keeps.
      destruct (quits_ok y1 i _ Q F att Hh1 Hv1) as ([y2|] & -> & Hqu); step.
      * destruct (Hqu y2 eq_refl) as [Hw2 Hst2]. eexists _, _, ws. split_and!; try done.
        split; [by eapply keeps_trans|]. right. split; [done|]. by exists Q.
      * change (li_cnt (s_in s)) with (li_cnt (s_in (s <| s_in := s_in s <| li_lock := true |> |>))).
        destruct (count_inputs_ok _ _ _ _ _ Hh1) as (y2 & -> & Hh2 & Hst2 & _). step. destruct (_ <? 1) eqn:E.
        -- eexists _, _, ws. split_and!; try done. destruct (held_unlocked _ _ _ _ _ Hh2) as [Hw2 Hu2].
           split; [eapply keeps_trans; [exact Hst1|]; by eapply keeps_trans|]. right. split; [done|]. by exists Q.
        -- eexists _, _, ws. split_and!; try done. split; [by eapply keeps_trans|]. left. split; [done|].
           eexists _, Q. split; [exact Hh2|]. apply Z.ltb_ge in E. lia.
    + eexists _, _, ws. split_and!; try done. split; [apply keeps_refl|]. right. split; [done|]. by exists Q.
Qed.

Lemma wait_input_group mode : wait_input y i mode att ws = wait_group y i mode att true ws.
Proof. unfold wait_group, wait_input. by destruct ((mode =? ET_SLEEP) || (mode =? ET_TIMED)). Qed.
End Modes.

(** ** Taking events *)

(** A reader with the mutex takes the events [T] of its list, and gives the mutex back. *)
Lemma take_step y i s Q F q T q' m s' att :
  held y i s Q F → valid y att → Q !! i = Some q →
  in_list m (s_in s') q' → moves (y_events y) m q → owners m = give att T (owners (y_events y)) →
  q ≡ₚ T ++ q' → in_taken s s' →
  let y' := set_station y i (λ _, s') <| y_events := m |> in
  (∃ Q', wf y' Q' F) ∧ keeps y y' ∧ NoDup T ∧ owned m att T.
Proof.
  intros [Hs Hlock Hw] Hv Hq Hin Hm Ho Hp (Hs' & Hl' & _) y'.
  assert (y_stats (unlock_list y i) !! i = Some (s <| s_in ::= et_llist_unlock |>)) as Hs1 by by eapply lookup_set_station.
  assert (y' = set_station (unlock_list y i) i (λ _, s') <| y_events := m |>) as Hy'.
  { unfold y', unlock_list. by rewrite set_station_compose. }
  assert (s_out s' = s_out s) as Hout by (rewrite Hs'; by fields).
  destruct (wf_list _ _ _ _ _ Hw Hs1) as (q0 & Hq0 & [_ Hsp] & _). assert (q0 = q) as -> by congruence.
  pose proof (sp_nodup _ _ _ Hsp) as Hnd. rewrite Hp in Hnd. apply list.NoDup_app in Hnd as (HndT & _).
  split; [|split; [|split; [done|]]].
  - eexists. rewrite Hy'. by eapply (wf_taken (unlock_list y i) Q F i _ s' q m q' T att).
  - apply keeps_station with s; [done|rewrite Hs'; by fields|rewrite Hs'; by fields|].
    eapply spared_give; [exact Ho|]. intros x Hx. left. apply (list_owner (unlock_list y i) Q F i q x Hw Hq).
    rewrite Hp. apply elem_of_app. by left.
  - apply Forall_forall. intros x Hx%list_elem_of_In.
    assert (owners m !! x = Some att) as H by (rewrite Ho, give_lookup; by rewrite decide_True).
    unfold owners in H. rewrite lookup_fmap in H. by destruct (m !! x).
Qed.

Lemma held_list y i s Q F :
  held y i s Q F → ∃ q, Q !! i = Some q ∧ in_list (y_events y) (s_in s) q.
Proof.
  intros [Hs Hlock Hw].
  assert (y_stats (unlock_list y i) !! i = Some (s <| s_in ::= et_llist_unlock |>)) as Hs1 by by eapply lookup_set_station.
  destruct (wf_list _ _ _ _ _ Hw Hs1) as (q & Hq & [Hcnt Hsp] & _). exists q. split; [done|]. split; [exact Hcnt|].
  by eapply spans_ext.
Qed.

Lemma nonempty m pl q : in_list m pl q → 0 < li_cnt pl → q ≠ [].
Proof. intros [Hc _] H ->. cbn in Hc. lia. Qed.

(** What a read gives: events that the reader owns now, or a status. *)
Definition got (y : et_system) (F : list nat) (att num : Z) (st : Z) (pe : list nat) (y' : et_system) : Prop :=
  (∃ Q', wf y' Q' F) ∧ keeps y y' ∧ NoDup pe ∧ owned (y_events y') att pe ∧
  (st ≠ ET_OK → pe = []) ∧ Z.of_nat (length pe) ≤ Z.max num 0.

Lemma got_none y y' F att num st : (∃ Q', wf y' Q' F) → keeps y y' → got y F att num st [] y'.
Proof. intros H1 H2. split_and!; try done; [constructor|constructor|cbn; lia]. Qed.

Lemma got_after y1 y2 y' F att num num' st pe :
  keeps y1 y2 → num' ≤ num → got y2 F att num' st pe y' → got y1 F att num st pe y'.
Proof. intros Hst Hn (H1 & H2 & H3 & H4 & H5 & H6). split_and!; try done; [by eapply keeps_trans|lia]. Qed.

(** [read_take] takes one event. *)
Lemma read_take_nread m s l att :
  in_list m (s_in s) l → l ≠ [] →
  ∃ x m' s', read_take m s att = Ret (x, m', s') ∧ nread_take m s att 1 = Ret ([x], m', s').
Proof.
  intros [Hcnt Hsp] Hne. destruct l as [|x l]; [done|]. unfold read_take, nread_take.
  rewrite (sp_first _ _ _ Hsp) by done. rewrite Hcnt. replace (Z.min 1 _) with 1 by (cbn; lia).
  change (Z.to_nat 1) with 1%nat. cbn [head of_option mbind res_bind take_events].
  pose proof (spans_known _ _ _ Hsp) as [[e He] _]%Forall_cons_1. unfold ev, ev_set. cbn [of_option mbind res_bind].
  rewrite He. step. eexists _, _, _. split; [done|]. done.
Qed.

Section Reads.
  Context (y : et_system) (Q : list (list nat)) (F : list nat) (i : nat) (s : et_station) (att : Z) (ws : script).
  Context (Hw : wf y Q F) (Hs : y_stats y !! i = Some s) (Hv : valid y att) (Hc : calm_script ws).

Lemma et_station_nread_ok mode num :
  (et_station_nread y i mode att ws num = Blocked ∧ mode ≠ ET_ASYNC) ∨
  ∃ st pe y', et_station_nread y i mode att ws num = Ret (st, pe, y') ∧ got y F att num st pe y' ∧
    (st = ET_OK → 0 < num → pe ≠ []).
Proof.
  unfold et_station_nread. destruct (num <? 1) eqn:Hnum.
  { right. eexists _, _, _. split; [done|]. split; [|lia]. apply got_none; [by exists Q|apply keeps_refl]. }
  apply Z.ltb_ge in Hnum. rewrite wait_input_group.
  destruct (wait_group_ok y Q F i s att ws Hw Hs Hv Hc mode true) as [[-> H]|(st & y1 & ws1 & -> & _ & _ & _ & Hst & Hr)];
    [by left|right]. step. destruct Hr as [(-> & s1 & Q1 & Hh & Hcnt)|[Hne Hw1]].
  - cbn [negb Z.eqb ET_OK]. unfold station. rewrite (he_station _ _ _ _ _ Hh). step.
    destruct (held_list _ _ _ _ _ Hh) as (q & Hq & Hin). pose proof (nonempty _ _ _ Hin Hcnt) as Hne.
    destruct (nread_take_ok (y_events y1) s1 q att num Hin Hne) as (m & s' & -> & H1 & H2 & H3 & H4 & H5); [lia|]. step.
    destruct (take_step y1 i s1 Q1 F q (take (Z.to_nat num) q) (drop (Z.to_nat num) q) m s' att Hh) as (G1 & G2 & G3 & G4); try done.
    + by eapply valid_keeps.
    + split; [done|]. intros x _. by rewrite H2.
    + by rewrite take_drop.
    + eexists _, _, _. split; [done|]. split.
      * split_and!; try done; [by eapply keeps_trans|]. rewrite length_take. lia.
      * intros _ _. destruct q; [done|]. destruct (Z.to_nat num) eqn:E; [lia|done].
  - replace (st =? ET_OK) with false by (symmetry; by apply Z.eqb_neq). cbn [negb].
    eexists _, _, _. split; [done|]. split; [by apply got_none|done].
Qed.

Lemma et_station_read_ok mode :
  (et_station_read y i mode att ws = Blocked ∧ mode ≠ ET_ASYNC) ∨
  ∃ st pe y', et_station_read y i mode att ws = Ret (st, pe, y') ∧ got y F att 1 st (option_list pe) y' ∧
    (st = ET_OK → is_Some pe).
Proof.
  destruct (et_station_nread_ok mode 1) as [[H Hno]|(st & pe & y' & H & Hg & Hok)];
    unfold et_station_read, et_station_nread in *; cbn [Z.ltb Z.compare Pos.compare Pos.compare_cont] in H;
    rewrite wait_input_group in *.
  - left. split; [|done]. destruct (wait_group y i mode att true ws) as [[[st y1] ws1]| | |] eqn:E; try done.
    step. cbn [mbind res_bind] in H. destruct (negb (st =? ET_OK)) eqn:Est; [done|]. apply negb_false_iff, Z.eqb_eq in Est. subst st.
    destruct (wait_group_ok y Q F i s att ws Hw Hs Hv Hc mode true) as [[E2 _]|(st & y2 & ws2 & E2 & _ & _ & _ & _ & Hr)]; [congruence|].
    rewrite E in E2. injection E2 as <- <- <-. destruct Hr as [(_ & s1 & Q1 & Hh & Hcnt)|[Hne _]]; [|done].
    unfold station in *. rewrite (he_station _ _ _ _ _ Hh) in *. cbn [of_option mbind res_bind] in *.
    destruct (held_list _ _ _ _ _ Hh) as (q & Hq & Hin).
    destruct (read_take_nread (y_events y1) s1 q att Hin (nonempty _ _ _ Hin Hcnt)) as (x & m & s' & Hr1 & Hr2).
    rewrite Hr2 in H. done.
  - right. destruct (wait_group y i mode att true ws) as [[[st1 y1] ws1]| | |] eqn:E; try done.
    step. cbn [mbind res_bind] in H. destruct (negb (st1 =? ET_OK)) eqn:Est.
    { injection H as <- <- <-. exists st1, None, y1. split; [done|]. split; [done|]. intros ->. done. }
    apply negb_false_iff, Z.eqb_eq in Est. subst st1.
    destruct (wait_group_ok y Q F i s att ws Hw Hs Hv Hc mode true) as [[E2 _]|(st2 & y2 & ws2 & E2 & _ & _ & _ & _ & Hr)]; [congruence|].
    rewrite E in E2. injection E2 as <- <- <-. destruct Hr as [(_ & s1 & Q1 & Hh & Hcnt)|[Hne _]]; [|done].
    unfold station in *. rewrite (he_station _ _ _ _ _ Hh) in *. cbn [of_option mbind res_bind] in *.
    destruct (held_list _ _ _ _ _ Hh) as (q & Hq & Hin).
    destruct (read_take_nread (y_events y1) s1 q att Hin (nonempty _ _ _ Hin Hcnt)) as (x & m & s' & Hr1 & Hr2).
    rewrite Hr1. rewrite Hr2 in H. cbn [mbind res_bind] in *. injection H as <- <- <-.
    eexists _, (Some x), _. split; [done|]. split; [exact Hg|done].
Qed.
End Reads.

(** ** Events of a group *)

Lemma split_group_length m g n l : (length (split_group m g n l).1 <= n)%nat.
Proof.
  revert n. induction l as [|a l IH]; intros [|n]; cbn [split_group]; try (cbn; lia).
  destruct (in_group m g a).
  - specialize (IH n). destruct (split_group m g n l). cbn in *. lia.
  - specialize (IH (S n)). destruct (split_group m g (S n) l). cbn in *. lia.
Qed.

(** The scripts are long enough: each scan of the list after the first one needs a signal. *)
Lemma read_group_loop_ok fuel : ∀ y Q F i s att ws mode num group scanList,
  wf y Q F → y_stats y !! i = Some s → valid y att → calm_script ws → 0 < num →
  (length ws + (if scanList : bool then 2 else 1) <= fuel)%nat →
  (read_group_loop y i mode att ws num group scanList fuel = Blocked ∧ mode ≠ ET_ASYNC) ∨
  ∃ st pe y', read_group_loop y i mode att ws num group scanList fuel = Ret (st, pe, y') ∧ got y F att num st pe y'.
Proof.
  induction fuel as [|fuel IH]; intros y Q F i s att ws mode num group scanList Hw Hs Hv Hc Hnum Hfuel;
    [destruct scanList; lia|].
  cbn [read_group_loop].
  destruct (wait_group_ok y Q F i s att ws Hw Hs Hv Hc mode scanList)
    as [[-> ?]|(st & y1 & ws1 & -> & Hc1 & Hlen & Hlt & Hst & Hr)]; [by left|]. step.
  destruct Hr as [(-> & s1 & Q1 & Hh & Hcnt)|[Hne Hw1]].
  2:{ right. replace (st =? ET_OK) with false by (symmetry; by apply Z.eqb_neq). cbn [negb].
      eexists _, _, _. split; [done|]. by apply got_none. }
  cbn [negb Z.eqb ET_OK]. unfold station. rewrite (he_station _ _ _ _ _ Hh). step.
  destruct (held_list _ _ _ _ _ Hh) as (q & Hq & Hin). pose proof (nonempty _ _ _ Hin Hcnt) as Hne.
  assert (0 < Z.min num (li_cnt (s_in s1))) as Hmin by lia.
  pose proof (nread_group_take_ok (y_events y1) s1 q att (Z.min num (li_cnt (s_in s1))) group Hin Hne Hmin) as Hg.
  pose proof (split_group_perm (y_events y1) group (Z.to_nat (Z.min num (li_cnt (s_in s1)))) q) as Hperm.
  pose proof (split_group_length (y_events y1) group (Z.to_nat (Z.min num (li_cnt (s_in s1)))) q) as Hlt2.
  destruct (split_group _ _ _ _) as [T q']. destruct Hg as (m & s' & -> & H1 & H2 & H3 & H4). step. cbn in Hlt2, Hperm.
  destruct (take_step y1 i s1 Q1 F q T q' m s' att Hh) as ((Q2 & G1) & G2 & G3 & G4); try done;
    [by eapply valid_keeps|].
  set (y2 := set_station y1 i (λ _, s') <| y_events := m |>) in *.
  assert (keeps y y2) as Hst2 by by eapply keeps_trans.
  destruct (bool_decide (T = []) && negb (mode =? ET_ASYNC)) eqn:E.
  - apply andb_true_iff in E as [ET Ea]. apply negb_true_iff, Z.eqb_neq in Ea.
    destruct (keeps_exists _ _ _ _ Hst2 Hs) as (s2 & Hs2).
    destruct (IH y2 Q2 F i s2 att ws1 mode (Z.min num (li_cnt (s_in s1))) group false G1 Hs2) as [[-> _]|(st & pe & y' & -> & Hg)];
      [by eapply valid_keeps|done|lia| |by left|].
    + destruct scanList; [lia|]. specialize (Hlt Ea eq_refl eq_refl). lia.
    + right. eexists _, _, _. split; [done|]. eapply got_after; [exact Hst2| |exact Hg]. lia.
  - right. eexists _, _, _. split; [done|]. split_and!; try done; [by exists Q2|lia].
Qed.

Lemma et_station_nread_group_ok y Q F i s att ws mode num group :
  wf y Q F → y_stats y !! i = Some s → valid y att → calm_script ws →
  (et_station_nread_group y i mode att ws num group = Blocked ∧ mode ≠ ET_ASYNC) ∨
  ∃ st pe y', et_station_nread_group y i mode att ws num group = Ret (st, pe, y') ∧ got y F att num st pe y'.
Proof.
  intros Hw Hs Hv Hc. unfold et_station_nread_group. destruct (num <? 1) eqn:Hnum.
  { right. eexists _, _, _. split; [done|]. apply got_none; [by exists Q|apply keeps_refl]. }
  apply Z.ltb_ge in Hnum. eapply read_group_loop_ok; try done; lia.
Qed.
End Sparing.
