(* ===== verification/EtCallSpec.v ===== *)
(** * The calls for events keep the system in order

    Whatever they return, and whatever the others do while they wait, the calls keep the
    invariant of the system, leave the events of other conductors and attachments alone,
    and give back the lock of the shared memory. *)

From S2P Require Import Prelude Words EtTypes EtLists EtSegments EtListSpec EtStationSpec EtReadSpec.
From S2P Require Import EtConductor EtSystemInv EtConductorSpec EtAccess EtWaiting EtDetached EtSteps EtWaitSpec.
From S2P Require Import EtStations EtEventCalls.

(** ** Fewer or more attachments to spare *)

(** The attachment [att] and those of [K]. *)
Definition also (K : Sparing) (att : Z) : Sparing := λ o, o = att ∨ sparing (Sparing := K) o.

Lemma keeps_less (K K' : Sparing) y y' :
  (∀ o, sparing (Sparing := K) o → sparing (Sparing := K') o) → keeps (K := K') y y' → keeps (K := K) y y'.
Proof. intros H [H1 H2 H3 H4 H5]. split; try done; [intros a n v i Ha; by apply H4, H|]. intros x o Ho. apply H5. by apply H. Qed.

Lemma calm_less (K K' : Sparing) run :
  (∀ o, sparing (Sparing := K) o → sparing (Sparing := K') o) → Calm (K := K') run → Calm (K := K) run.
Proof.
  intros H [Hc]. split. intros y Q F Hw. destruct (Hc y Q F Hw) as [H1 H2]. split; [done|]. by eapply keeps_less.
Qed.

Lemma also_calm (K : Sparing) att run : Calm (K := also K att) run → Calm (K := K) run.
Proof. apply calm_less. intros o Ho. by right. Qed.

Lemma spared_owned {K : Sparing} m m' att pe :
  spared m m' → sparing att → att ≠ ET_SYS → owned m att pe → owned m' att pe.
Proof.
  intros Hs Ha Hne Ho. eapply Forall_impl; [|exact Ho]. intros x Hx. cbv beta.
  specialize (Hs x att Ha Hne). unfold owners in Hs. rewrite !lookup_fmap in Hs. by apply Hs.
Qed.

Lemma keeps_owned {K : Sparing} y y' att pe :
  keeps y y' → sparing att → att ≠ ET_SYS → owned (y_events y) att pe → owned (y_events y') att pe.
Proof. intros [_ _ _ _ Hs]. by apply spared_owned. Qed.

(** ** Calls in general *)

(** A body that was entered with the lock leaves, with the post-condition, or waits. *)
Definition settles {A} (d1 : et_id) (r : res (Z * option A * et_id)) (waits : Prop)
    (post : Z → option A → et_system → Prop) : Prop :=
  (r = Blocked ∧ waits) ∨ ∃ st out y', r = leave (set_sys d1 y') st out ∧ post st out y'.

(** A call that returned gave back the lock; [waits] is what it waits for when the memory
    is not locked. *)
Definition returns {A} (d : et_id) (r : res (Z * option A * et_id)) (waits : Prop)
    (post : Z → option A → et_system → Prop) : Prop :=
  (r = Blocked ∧ (et_memRead_lock d = Blocked ∨ waits)) ∨
  ∃ st out y', r = Ret (st, out, set_sys d y') ∧ post st out y'.

Lemma set_sys_id d : set_sys d (d_sys d) = d.
Proof. by destruct d. Qed.
Lemma set_sys_twice d y y' : set_sys (set_sys d y) y' = set_sys d y'.
Proof. by destruct d. Qed.

Section Calls.
  Context {A : Type} {waits : Prop}.
  Implicit Types (post : Z → option A → et_system → Prop).

Lemma settles_leave d1 st out post : post st out (d_sys d1) → settles d1 (leave d1 st out) waits post.
Proof. intros H. right. exists st, out, (d_sys d1). by rewrite set_sys_id. Qed.

Lemma settles_sys d1 y st out post : post st out y → settles d1 (leave (set_sys d1 y) st out) waits post.
Proof. intros H. right. by exists st, out, y. Qed.

Lemma settles_set d1 y r post : settles (set_sys d1 y) r waits post → settles d1 r waits post.
Proof. intros [H|(st & out & y' & H & Hp)]; [by left|]. rewrite set_sys_twice in H. right. by exists st, out, y'. Qed.

Lemma settles_weaken d1 r (waits' : Prop) post post' :
  (waits → waits') → (∀ st out y', post st out y' → post' st out y') → settles d1 r waits post → settles d1 r waits' post'.
Proof. intros Hw Hp [[H1 H2]|(st & out & y' & H & H1)]; [left; auto|]. right. exists st, out, y'. auto. Qed.

Lemma returns_same d st out post : post st out (d_sys d) → returns d (Ret (st, out, d)) waits post.
Proof. intros H. right. exists st, out, (d_sys d). by rewrite set_sys_id. Qed.

(** What the body may rely on. *)
Definition inside_call (d d1 : et_id) : Prop :=
  d_sys d1 = d_sys d ∧ d_proc d1 = d_proc d ∧ d_closed d1 = false ∧ d_alive d1 = true ∧ ml_writer (d_mem d1) = false.

Lemma with_memory_inside d (body : et_id → res (Z * option A * et_id)) post :
  (d_alive d = false → post ET_ERROR_DEAD None (d_sys d)) → (d_closed d = true → post ET_ERROR_CLOSED None (d_sys d)) →
  (∀ d1, inside_call d d1 → settles d1 (body d1) waits post) →
  returns d (with_memory d body) waits post.
Proof.
  intros Hdead Hclosed Hbody. unfold with_memory. destruct (d_alive d) eqn:Halive; [|by apply returns_same, Hdead]. cbn [negb].
  unfold returns. destruct (et_memRead_lock d) as [d1| | |] eqn:Hl; unfold et_memRead_lock in Hl; try (by destruct (ml_writer _));
    [|left; split; [done|by left]]. step.
  assert (d_sys d1 = d_sys d ∧ d_closed d1 = d_closed d ∧ d_proc d1 = d_proc d ∧ d_alive d1 = d_alive d ∧ ml_writer (d_mem d1) = false)
    as (Hs & Hcl & Hpr & Hal & Hwr) by (destruct (ml_writer _); [done|]; by injection Hl as <-).
  pose proof (λ y, unlock_mem d d1 y Hl) as Hu.
  destruct (d_closed d1) eqn:Hc.
  - right. exists ET_ERROR_CLOSED, None, (d_sys d). split; [do 2 f_equal|].
    + rewrite <- (set_sys_id d1) at 1. unfold set_sys. by rewrite Hu, Hs.
    + apply Hclosed. congruence.
  - destruct (Hbody d1) as [[-> H]|(st & out & y' & -> & Hp)]; [split_and!; congruence|left; split; [done|by right]|right].
    exists st, out, y'. split; [|done]. unfold leave, set_sys. by rewrite Hu.
Qed.

Lemma with_memory_ok d (body : et_id → res (Z * option A * et_id)) post :
  (d_alive d = false → post ET_ERROR_DEAD None (d_sys d)) → (d_closed d = true → post ET_ERROR_CLOSED None (d_sys d)) →
  (∀ d1, d_sys d1 = d_sys d → d_proc d1 = d_proc d → d_closed d1 = false → settles d1 (body d1) waits post) →
  returns d (with_memory d body) waits post.
Proof. intros H1 H2 H3. apply with_memory_inside; [done|done|]. intros d1 (?&?&?&_). by apply H3. Qed.

(** A call within another one, which has the lock already. *)
Lemma with_memory_within d (body : et_id → res (Z * option A * et_id)) st out :
  d_alive d = true → d_closed d = false → ml_writer (d_mem d) = false →
  (∀ d1, d_sys d1 = d_sys d → body d1 = leave d1 st out) → with_memory d body = Ret (st, out, d).
Proof.
  intros Ha Hc Hw Hb. unfold with_memory. rewrite Ha. cbn [negb]. unfold et_memRead_lock at 1. rewrite Hw. step.
  change (d_closed (d <| d_mem := _ |>)) with (d_closed d). rewrite Hc, Hb by done. unfold leave, et_mem_unlock.
  destruct d as [? ? ? ? ? ? [rd wr] ?]. cbn in *. by subst.
Qed.
End Calls.

(** ** Buffers for new events *)

(** What each call keeps: the invariant, and the events of the attachments to spare. *)
Definition safe {K : Sparing} (F : list nat) (y y' : et_system) : Prop := (∃ Q', wf y' Q' F) ∧ keeps y y'.

Lemma safe_trans {K : Sparing} F y1 y2 y3 : safe F y1 y2 → safe F y2 y3 → safe F y1 y3.
Proof. intros [_ H1] [? H2]. split; [done|by eapply keeps_trans]. Qed.

Lemma safe_refl {K : Sparing} F y Q : wf y Q F → safe F y y.
Proof. intros Hw. split; [by exists Q|apply keeps_refl]. Qed.

Lemma safe_same {K : Sparing} F y y' Q :
  wf y Q F → y_events y' = y_events y → y_stats y' = y_stats y → frames y y' → seats y' = seats y → safe F y y'.
Proof.
  intros Hw He Hs Hf Ha. split; [exists Q; by eapply wf_same|]. apply keeps_same; [done|by rewrite He|done|done].
Qed.

Section Furnish.
  Context {K : Sparing} (os : answers) (F : list nat) (att : Z) (size : Z).
  Context (Ha : att ≠ ET_SYS) (HKa : sparing att).

(** Fields of events of the attachment change. *)
Lemma safe_touch y Q m pe :
  wf y Q F → owned (y_events y) att pe → owners m = owners (y_events y) →
  (∀ x, x ∉ pe → m !! x = y_events y !! x) → prios_ok m → safe F y (y <| y_events := m |>).
Proof.
  intros Hw Ho Hm Hx Hp. split; [|by apply keeps_same].
  exists Q. apply wf_touch; try done. intros x Hc. apply Hx. intros Hpe.
  apply (owned_apart _ _ _ _ _ Hw Ha Ho x Hpe). apply elem_of_app. by left.
Qed.

Lemma init_prios m m' (pe : list nat) f :
  prios_ok m → (∀ e, e_priority (f e) = ET_LOW ∨ e_priority (f e) = e_priority e) →
  (∀ x, m' !! x = if decide (x ∈ pe) then f <$> m !! x else m !! x) → prios_ok m'.
Proof.
  intros Hp Hf Hm x e1 H1. rewrite Hm in H1. destruct (decide (x ∈ pe)); [|by eapply Hp].
  destruct (m !! x) as [e2|] eqn:H2; [|done]. injection H1 as <-.
  destruct (Hf e2) as [H|H]; rewrite H; [by left|by eapply Hp].
Qed.

Lemma each_event_ok y Q pe f :
  wf y Q F → owned (y_events y) att pe → NoDup pe → (∀ e, e_owner (f e) = e_owner e) →
  (∀ e, e_priority (f e) = ET_LOW ∨ e_priority (f e) = e_priority e) →
  ∃ y', each_event y pe f = Ret y' ∧ safe F y y' ∧ y_attach y' = y_attach y ∧
    owners (y_events y') = owners (y_events y) ∧
    ∀ x, y_events y' !! x = if decide (x ∈ pe) then f <$> y_events y !! x else y_events y !! x.
Proof.
  intros Hw Ho Hnd Hf1 Hf2. destruct (each_ok (y_events y) pe f Hnd (owned_known _ _ _ Ho)) as (m & Hr & Hm).
  pose proof (each_owners _ _ pe f Hf1 Hm) as Hown.
  unfold each_event. rewrite Hr. step. eexists. split; [done|]. split; [|done].
  apply (safe_touch y Q m pe); try done.
  - intros x Hx. rewrite Hm. by rewrite decide_False.
  - exact (init_prios _ _ _ _ (wf_prios _ _ _ Hw) Hf2 Hm).
Qed.

Lemma et_event_make_ok y Q x :
  wf y Q F → owned (y_events y) att [x] →
  (et_event_make os y x size = Blocked ∧ y_mutex y = true) ∨
  ∃ st y', et_event_make os y x size = Ret (st, y') ∧ safe F y y' ∧ (st = ET_ERROR_TOOMANY → y_max_temps y ≤ y_ntemps y).
Proof.
  intros Hw Ho. unfold et_event_make, et_system_lock. destruct (y_mutex y) eqn:Hmu; [by left|right]. step.
  change (y_max_temps (y <| y_mutex := true |>)) with (y_max_temps y).
  change (y_ntemps (y <| y_mutex := true |>)) with (y_ntemps y).
  destruct (_ <=? _) eqn:E.
  - eexists _, _. split; [done|]. split; [|lia]. eapply safe_same; [exact Hw|done|done| |done].
    unfold frames, sizes. fields. by rewrite Hmu.
  - set (y1 := et_system_unlock _). assert (wf y1 Q F ∧ safe F y y1) as [Hw1 Hf1].
    { assert (frames y y1) as Hfr by (unfold frames, sizes, y1; fields; by rewrite Hmu).
      split; [by eapply (wf_same y)|by eapply safe_same]. }
    destruct (negb (temp_create os x)); [eexists _, _; split; [done|]; split; [done|by intros [=]]|].
    set (f := λ e, et_init_event_ e <| e_temp := _ |> <| e_length := size |> <| e_memsize := size |>).
    destruct (each_event_ok y1 Q [x] f Hw1 Ho) as (y2 & Hr & Hf2 & _); try done; [apply NoDup_singleton|by left|].
    unfold each_event in Hr. cbn [each] in Hr. destruct (ev_set (y_events y1) (Some x) f) as [m| | |]; try done.
    cbn [mbind res_bind] in Hr. step. eexists _, _. split; [done|]. injection Hr as <-.
    split; [by eapply safe_trans|by intros [=]].
Qed.

Lemma wait_temps_ok tries : ∀ y Q naps,
  wf y Q F → Forall Calm naps →
  let '(free, y', naps') := wait_temps y naps tries in
  safe F y y' ∧ Forall Calm naps' ∧ (free = true → y_ntemps y' < y_max_temps y').
Proof.
  induction tries as [|tries IH]; intros y Q naps Hw Hn; cbn [wait_temps]; [by split; [eapply safe_refl|]|].
  destruct (_ <=? _) eqn:E; [|split; [by eapply safe_refl|]; split; [done|]; intros _; lia].
  destruct Hn as [|run naps Hs Hn]; [apply (IH y Q []); [done|constructor]|].
  destruct (calm_wf (run := run) y Q F Hw) as [(Q' & Hw') Hst]. specialize (IH (run y) Q' naps Hw' Hn).
  destruct (wait_temps (run y) naps tries) as [[free y'] naps']. destruct IH as (H1 & H2 & H3). split; [|done].
  eapply safe_trans; [|exact H1]. split; [by exists Q'|done].
Qed.

Lemma safe_mutex y y' b : safe F y y' → y_mutex y' = b → y_mutex y = b.
Proof. intros [_ [_ _ [_ H%sizes_mutex] _ _]]. congruence. Qed.

(** Twice is enough. *)
Lemma make_event_ok y Q x naps :
  wf y Q F → owned (y_events y) att [x] → Forall Calm naps →
  (make_event os y x size naps 2 = Blocked ∧ y_mutex y = true) ∨
  ∃ st y' naps', make_event os y x size naps 2 = Ret (st, y', naps') ∧ safe F y y' ∧ Forall Calm naps'.
Proof.
  intros Hw Ho Hn. cbn [make_event].
  destruct (et_event_make_ok y Q x Hw Ho) as [[-> H]|(st & y1 & -> & Hf1 & _)]; [by left|]. step.
  destruct (negb (st =? _)); [right; by eexists _, _, _|]. pose proof Hf1 as [(Q1 & Hw1) Hst1].
  pose proof (wait_temps_ok (Z.to_nat (y_hz y1 * 30)) y1 Q1 naps Hw1 Hn) as Hwt.
  destruct (wait_temps y1 naps _) as [[free y2] naps2]. destruct Hwt as (Hf2 & Hn2 & Hfree).
  assert (safe F y y2) as Hf by by eapply safe_trans.
  destruct free; [|right; by eexists _, _, _]. specialize (Hfree eq_refl). pose proof Hf as [(Q2 & Hw2) Hst2].
  destruct (et_event_make_ok y2 Q2 x Hw2 (keeps_owned _ _ _ _ Hst2 HKa Ha Ho)) as [[-> H]|(st2 & y3 & -> & Hf3 & Htm)];
    [left; split; [done|by eapply safe_mutex]|].
  step. replace (st2 =? ET_ERROR_TOOMANY) with false.
  2:{ symmetry. apply Z.eqb_neq. intros ->. specialize (Htm eq_refl). lia. }
  right. eexists _, _, _. split; [done|]. split; [by eapply safe_trans|done].
Qed.

Lemma make_events_ok pe : ∀ y Q naps,
  wf y Q F → owned (y_events y) att pe → Forall Calm naps →
  (make_events os y pe size naps = Blocked ∧ y_mutex y = true) ∨
  ∃ st y', make_events os y pe size naps = Ret (st, y') ∧ safe F y y'.
Proof.
  induction pe as [|x pe IH]; intros y Q naps Hw Ho Hn; cbn [make_events].
  { right. eexists _, _. split; [done|]. by eapply safe_refl. }
  apply Forall_cons_1 in Ho as [Hx Ho].
  destruct (make_event_ok y Q x naps Hw) as [[-> H]|(st & y1 & naps1 & -> & Hf1 & Hn1)]; [by constructor|done|by left|].
  step. destruct (negb _); [right; by eexists _, _|]. pose proof Hf1 as [(Q1 & Hw1) Hst1].
  destruct (IH y1 Q1 naps1 Hw1 (keeps_owned _ _ _ _ Hst1 HKa Ha Ho) Hn1) as [[-> H]|(st2 & y2 & -> & Hf2)];
    [left; split; [done|by eapply safe_mutex]|].
  right. eexists _, _. split; [done|]. by eapply safe_trans.
Qed.

Lemma count_ok y Q f :
  wf y Q F → valid y att → (∀ a, at_num (f a) = at_num a) → (∀ a, at_status (f a) = at_status a) →
  (∀ a, at_stat (f a) = at_stat a) →
  ∃ y', set_attachment y att f = Ret y' ∧ safe F y y' ∧ y_events y' = y_events y.
Proof.
  intros Hw Hv H0 H1 H2. destruct (set_attachment_ok y att f Hv H0 H1 H2) as (y' & -> & He & Hs & Hf & Ht).
  exists y'. split_and!; [done|by eapply safe_same|done].
Qed.

(** What a call gives: events that the attachment owns now, or a status. *)
Definition received (y : et_system) (num : Z) (st : Z) (out : option (list nat)) (y' : et_system) : Prop :=
  safe F y y' ∧
  ∀ pe, out = Some pe → st = ET_OK ∧ NoDup pe ∧ owned (y_events y') att pe ∧ Z.of_nat (length pe) ≤ num.

Lemma received_none y num st y' : safe F y y' → received y num st None y'.
Proof. by split. Qed.

Lemma furnish_ok d Q pe naps :
  wf (d_sys d) Q F → valid (d_sys d) att → owned (y_events (d_sys d)) att pe → NoDup pe → Forall Calm naps →
  settles d (furnish os d att pe size naps) (y_mutex (d_sys d) = true) (received (d_sys d) (Z.of_nat (length pe))).
Proof.
  intros Hw Hv Ho Hnd Hn. unfold furnish.
  set (r := if y_event_size (d_sys d) <? size then _ else _).
  assert ((r = Blocked ∧ y_mutex (d_sys d) = true) ∨ ∃ st y', r = Ret (st, y') ∧ safe F (d_sys d) y')
    as [[-> H]|(st & y' & -> & Hs)]; [|by left|].
  { unfold r. destruct (_ <? size); [by eapply make_events_ok|right].
    destruct (each_event_ok (d_sys d) Q pe (et_events_inited size (y_event_size (d_sys d))) Hw Ho Hnd) as (y' & -> & Hs & _);
      [done|by left|]. step. by eexists _, _. }
  step. destruct (negb (st =? ET_OK)) eqn:E; [by apply settles_sys, received_none|].
  pose proof Hs as [(Q' & Hw') Hk]. set (f := λ a, a <| at_events_make ::= _ |>).
  destruct (count_ok y' Q' f Hw' (valid_keeps _ _ _ Hk Hv)) as (y2 & -> & Hs2 & He2); [done..|]. step.
  apply settles_sys. split; [by eapply safe_trans|]. intros pe' [= <-]. split_and!; [done|done| |done].
  rewrite He2. by eapply keeps_owned.
Qed.
End Furnish.
