(* ===== verification/EtEventSpec.v ===== *)
(** * Getting, putting and dumping events

    Each call of an attachment that sits at a station keeps the system in order: events
    that it gets leave a list and belong to the attachment, and events that it puts or
    dumps belong to the system again.  The others are those that EtCallSpec describes. *)

From S2P Require Import Prelude Words EtTypes EtLists EtSegments EtListSpec EtStationSpec EtReadSpec.
From S2P Require Import EtConductor EtSystemInv EtConductorSpec EtAccess EtWaiting EtDetached EtSteps EtWaitSpec.
From S2P Require Import EtStations EtEventCalls EtCallSpec.

(** The attachment sits at the station [i]. *)
Definition seated (y : et_system) (att : Z) (i : nat) : Prop :=
  0 ≤ att ∧ (∃ n v, n ≠ -1 ∧ seats y !! Z.to_nat att = Some (n, v, Z.of_nat i)) ∧ (i < length (y_stats y))%nat.

Lemma seated_keeps {K : Sparing} y y' att i :
  keeps y y' → sparing att ∨ y_attach y' = y_attach y → seated y att i → seated y' att i.
Proof.
  intros [H1 _ _ H2 _] Ha (G1 & G2 & G3). unfold seated. rewrite (shape_length _ _ H1). split_and!; [done| |done].
  destruct Ha as [Ha|Ha]; [|unfold seats in *; by rewrite Ha]. destruct G2 as (n & v & Hn & Hv). exists n, v. auto.
Qed.

Lemma seated_attachment y att i :
  seated y att i → ∃ a s, attachment y att = Ret a ∧ at_stat a = Z.of_nat i ∧ y_stats y !! i = Some s.
Proof.
  intros (H1 & (n & v & Hn & H2) & H3). unfold seats in H2. rewrite list_lookup_fmap in H2.
  destruct (y_attach y !! Z.to_nat att) as [a|] eqn:Ha; [|done]. injection H2 as <- <- H2.
  apply lookup_lt_is_Some_2 in H3 as [s Hs]. exists a, s. split_and!; [|done|done]. unfold attachment. by apply aget_ok.
Qed.

Lemma seated_valid y att i : seated y att i → valid y att.
Proof.
  intros (H1 & (n & v & Hn & H2) & H3). apply lookup_lt_Some in H2. unfold seats in H2. rewrite length_fmap in H2.
  unfold valid. lia.
Qed.

Lemma seated_grandcentral y att i : seated y att i → ∃ s, y_stats y !! ET_GRANDCENTRAL = Some s.
Proof. intros (_ & _ & H). apply lookup_lt_is_Some_2. unfold ET_GRANDCENTRAL. lia. Qed.

Lemma seated_not_sys y att i : seated y att i → att ≠ ET_SYS.
Proof. intros (H & _). unfold ET_SYS. lia. Qed.

(** ** Getting events *)

Section Get.
  Context {K : Sparing} (os : answers) (F : list nat) (att : Z) (HKa : sparing att).

(** A way to read events. *)
Definition reads (y : et_system) (num : Z) (waits : Prop) (r : res (Z * list nat * et_system)) : Prop :=
  (r = Blocked ∧ waits) ∨ ∃ st pe y', r = Ret (st, pe, y') ∧ got y F att num st pe y'.

Lemma reads_one y i mode ws Q s :
  wf y Q F → y_stats y !! i = Some s → valid y att → calm_script ws →
  reads y 1 (mode ≠ ET_ASYNC) ('(status, x, y) ← et_station_read y i mode att ws; Ret (status, option_list x, y)).
Proof.
  intros Hw Hs Hv Hws. destruct (et_station_read_ok y Q F i s att ws Hw Hs Hv Hws mode)
    as [[-> H]|(st & pe & y' & -> & Hg & _)]; [by left|right; by eexists _, _, _].
Qed.

Lemma reads_many y i mode ws Q s num :
  wf y Q F → y_stats y !! i = Some s → valid y att → calm_script ws →
  reads y num (mode ≠ ET_ASYNC) (et_station_nread y i mode att ws num).
Proof.
  intros Hw Hs Hv Hws. destruct (et_station_nread_ok y Q F i s att ws Hw Hs Hv Hws mode num)
    as [[-> H]|(st & pe & y' & -> & Hg & _)]; [by left|right; by eexists _, _, _].
Qed.


Lemma get_new_ok d Q i size naps read num waits :
  wf (d_sys d) Q F → seated (d_sys d) att i → Forall Calm naps → reads (d_sys d) num waits (read (d_sys d)) →
  settles d (get_new os d att size naps read) (waits ∨ y_mutex (d_sys d) = true) (received F att (d_sys d) (Z.max num 0)).
Proof.
  intros Hw Hseat Hn Hr. unfold get_new. destruct (seated_attachment _ _ _ Hseat) as (a & s & -> & _). step.
  destruct (negb _); [by apply settles_leave, received_none, (safe_refl F _ Q)|].
  destruct Hr as [[-> H]|(st & pe & y' & -> & (H1 & H2 & H3 & H4 & H5 & H6))]; [left; split; [done|by left]|]. step.
  assert (safe F (d_sys d) y') as Hs by by split.
  destruct (negb (st =? ET_OK)); [unfold read_failed; by apply settles_sys, received_none|].
  destruct H1 as [Q' Hw']. apply (settles_set d y').
  eapply settles_weaken; [| |eapply (furnish_ok os F att size); try done].
  - intros H. right. by eapply safe_mutex.
  - intros st2 out y2 [G1 G2]. split; [by eapply safe_trans|]. intros pe2 E. destruct (G2 pe2 E) as (? & ? & ? & ?). split_and!; try done; lia.
  - by eapply seated_not_sys.
  - eapply valid_keeps; [exact H2|]. by eapply seated_valid.
Qed.

Section Arguments.
  Context (d : et_id) (Q : list (list nat)) (i : nat) (ws : script) (naps : list others).
  Context (Hw : wf (d_sys d) Q F) (Hseat : seated (d_sys d) att i) (Hws : calm_script ws) (Hn : Forall Calm naps).

Lemma nothing_received num st : received F att (d_sys d) num st None (d_sys d).
Proof. by apply received_none, (safe_refl F _ Q). Qed.

Lemma et_events_new_group_ok ptr mode deltatime size num group :
  returns d (et_events_new_group os d att ptr mode deltatime size num group ws naps)
    (wait_of mode ≠ ET_ASYNC ∨ y_mutex (d_sys d) = true)
    (received F att (d_sys d) (Z.max num 0)).
Proof.
  unfold et_events_new_group. destruct (num =? 0); [apply returns_same, nothing_received|].
  destruct (_ || _); [apply returns_same, nothing_received|].
  apply with_memory_ok; [intros _; apply nothing_received..|]. intros d1 Hd1 _ _. rewrite <- Hd1.
  destruct (_ <? group); [apply settles_leave; rewrite Hd1; apply nothing_received|].
  destruct (seated_grandcentral _ _ _ Hseat) as (s & Hs).
  eapply settles_weaken; [exact id| |eapply (get_new_ok d1 Q i size naps _ (not_more_temps (d_sys d1) size num)); rewrite ?Hd1; try done].
  - intros st out y' [H1 H2]. split; [done|]. intros pe E. destruct (H2 pe E) as (? & ? & ? & ?). split_and!; try done.
    unfold not_more_temps in *. destruct (_ <? size); lia.
  - apply (et_station_nread_group_ok (d_sys d) Q F ET_GRANDCENTRAL s); try done. by eapply seated_valid.
Qed.

Lemma et_events_new_ok ptr mode deltatime size num :
  returns d (et_events_new os d att ptr mode deltatime size num ws naps)
    (wait_of mode ≠ ET_ASYNC ∨ y_mutex (d_sys d) = true) (received F att (d_sys d) (Z.max num 0)).
Proof.
  unfold et_events_new. destruct (negb (d_group d =? 0)); [apply et_events_new_group_ok|].
  destruct (num =? 0); [apply returns_same, nothing_received|].
  destruct (_ || _); [apply returns_same, nothing_received|].
  apply with_memory_ok; [intros _; apply nothing_received..|]. intros d1 Hd1 _ _. rewrite <- Hd1.
  destruct (seated_grandcentral _ _ _ Hseat) as (s & Hs).
  eapply settles_weaken; [exact id| |eapply (get_new_ok d1 Q i size naps _ (not_more_temps (d_sys d1) size num)); rewrite ?Hd1; try done].
  - intros st out y' [H1 H2]. split; [done|]. intros pe E. destruct (H2 pe E) as (? & ? & ? & ?). split_and!; try done.
    unfold not_more_temps in *. destruct (_ <? size); lia.
  - eapply reads_many; try done. by eapply seated_valid.
Qed.

Lemma et_event_new_ok ptr mode deltatime size :
  returns d (et_event_new os d att ptr mode deltatime size ws naps)
    (wait_of mode ≠ ET_ASYNC ∨ y_mutex (d_sys d) = true) (received F att (d_sys d) 1).
Proof.
  unfold et_event_new. destruct (negb (d_group d =? 0)); [apply et_events_new_group_ok|].
  destruct (_ || _); [apply returns_same, nothing_received|].
  apply with_memory_ok; [intros _; apply nothing_received..|]. intros d1 Hd1 _ _. rewrite <- Hd1.
  destruct (seated_grandcentral _ _ _ Hseat) as (s & Hs).
  apply (get_new_ok d1 Q i size naps _ 1); rewrite ?Hd1; try done.
  eapply reads_one; try done. by eapply seated_valid.
Qed.

(** Mapping the buffers of temporary events. *)
Lemma attach_buffers_ok m pe : known m pe → ∃ b, attach_buffers os m pe = Ret b.
Proof.
  induction 1 as [|x pe [e He] _ IH]; [by eexists|]. cbn [attach_buffers]. unfold ev. cbn [of_option mbind res_bind].
  rewrite He. step. destruct (_ && _); [by eexists|done].
Qed.

Lemma get_events_ok d1 read num waits :
  d_sys d1 = d_sys d → reads (d_sys d) num waits (read (d_sys d) i) →
  settles d1 (get_events os d1 att read) waits (received F att (d_sys d) (Z.max num 0)).
Proof.
  intros Hd1 Hr. unfold get_events. rewrite Hd1. destruct (seated_attachment _ _ _ Hseat) as (a & s & -> & Hst & _). step.
  destruct (negb _); [apply settles_leave; rewrite Hd1; apply nothing_received|].
  destruct (_ =? _); [apply settles_leave; rewrite Hd1; apply nothing_received|].
  rewrite Hst. replace (_ <? 0) with false by (symmetry; apply Z.ltb_ge; lia). rewrite Nat2Z.id.
  destruct Hr as [[-> H]|(st & pe & y' & -> & (H1 & H2 & H3 & H4 & H5 & H6))]; [by left|]. step.
  assert (safe F (d_sys d) y') as Hs by by split.
  destruct (negb (st =? ET_OK)); [unfold read_failed; by apply settles_sys, received_none|].
  destruct (attach_buffers_ok (y_events y') pe (owned_known _ _ _ H4)) as [b ->]. step.
  destruct (negb b); [by apply settles_sys, received_none|]. destruct H1 as [Q' Hw'].
  set (f := λ a, a <| at_events_get ::= _ |>).
  destruct (count_ok F att y' Q' f Hw' (valid_keeps _ _ _ H2 (seated_valid _ _ _ Hseat))) as (y2 & -> & Hs2 & He2); [done..|]. step.
  rewrite set_sys_twice. apply settles_sys. split; [by eapply safe_trans|]. intros pe' [= <-]. rewrite He2. split_and!; done.
Qed.

Lemma et_event_get_ok ptr mode deltatime :
  returns d (et_event_get os d att ptr mode deltatime ws) (wait_of mode ≠ ET_ASYNC) (received F att (d_sys d) 1).
Proof.
  unfold et_event_get. destruct (_ || _); [apply returns_same, nothing_received|].
  apply with_memory_ok; [intros _; apply nothing_received..|]. intros d1 Hd1 _ _.
  destruct (seated_attachment _ _ _ Hseat) as (a & s & _ & _ & Hs).
  apply (get_events_ok d1 _ 1 _ Hd1). eapply reads_one; try done. by eapply seated_valid.
Qed.

Lemma et_events_get_ok ptr mode deltatime num :
  returns d (et_events_get os d att ptr mode deltatime num ws) (wait_of mode ≠ ET_ASYNC) (received F att (d_sys d) (Z.max num 0)).
Proof.
  unfold et_events_get. destruct (num =? 0); [apply returns_same, nothing_received|].
  destruct (_ || _); [apply returns_same, nothing_received|].
  apply with_memory_ok; [intros _; apply nothing_received..|]. intros d1 Hd1 _ _.
  destruct (seated_attachment _ _ _ Hseat) as (a & s & _ & _ & Hs). apply (get_events_ok d1 _ num _ Hd1).
  eapply reads_many; try done. by eapply seated_valid.
Qed.
End Arguments.
End Get.

(** ** Putting and dumping events *)

Section Give.
  Context {K : Sparing} (os : answers) (F : list nat) (att : Z) (HKa : ¬ sparing att).

(** What a call does with the events [pe] of the attachment: they belong to the system
    again, or the status tells that something stood against it. *)
Definition given (y : et_system) (pe : list nat) (refused : Prop) (st : Z) (out : option unit) (y' : et_system) : Prop :=
  safe F y y' ∧ (st = ET_OK → owned (y_events y') ET_SYS pe) ∧ (st = ET_OK ∨ refused).

Lemma given_refused y pe (refused : Prop) st y' :
  safe F y y' → st ≠ ET_OK → refused → given y pe refused st None y'.
Proof. intros. split; [done|]. split; [done|by right]. Qed.

Lemma given_owned m m' pe : owners m' = give ET_SYS pe (owners m) → owned m' ET_SYS pe.
Proof.
  intros H. apply list.Forall_forall. intros x Hx. assert (owners m' !! x = Some ET_SYS) as Hx'.
  { rewrite H, give_lookup. by rewrite decide_True. }
  unfold owners in Hx'. rewrite lookup_fmap in Hx'. by destruct (m' !! x).
Qed.

(** An event that the attachment may put. *)
Definition fits (m : evs) (x : nat) : Prop :=
  ∃ e, m !! x = Some e ∧ e_length e ≤ e_memsize e ∧ e_owner e = att ∧ (e_temp e = ET_EVENT_TEMP → unmapped os x = true).
(** One that it may dump. *)
Definition droppable (m : evs) (x : nat) : Prop :=
  ∃ e, m !! x = Some e ∧ e_owner e = att ∧ (e_temp e = ET_EVENT_TEMP → temp_remove os x = true).

(** The call may not be made: nobody is there, or an event is refused. *)
Definition stopped (d : et_id) (well : Prop) : Prop := d_alive d = false ∨ d_closed d = true ∨ ¬ well.

Section Arguments.
  Context (d : et_id) (Q : list (list nat)) (i : nat).
  Context (Hw : wf (d_sys d) Q F) (Hseat : seated (d_sys d) att i).

Lemma station_of_ok y : seated y att i → station_of y att = Ret i.
Proof.
  intros Hs. destruct (seated_attachment _ _ _ Hs) as (a & s & Ha & Hst & _). unfold station_of. rewrite Ha. step.
  rewrite Hst. replace (_ <? 0) with false by (symmetry; apply Z.ltb_ge; lia). by rewrite Nat2Z.id.
Qed.

Lemma may_put_ok m pe : 
  known m pe → ∃ b, may_put m att pe = Ret b ∧ 
    (b = true ↔ Forall (λ x, ∃ e, m !! x = Some e ∧ e_length e ≤ e_memsize e ∧ e_owner e = att) pe).
Proof.
  induction 1 as [|x pe [e He] _ (b & IH & Hb)]; [by exists true|]. cbn [may_put]. unfold ev. cbn [of_option mbind res_bind].
  rewrite He. step. destruct (_ || _) eqn:E.
  - exists false. split; [done|]. split; [done|]. intros ((e' & He' & H1 & H2) & _)%list.Forall_cons. rewrite He in He'. injection He' as <-.
    apply orb_true_iff in E as [E|E]; [lia|]. apply negb_true_iff in E. lia.
  - exists b. split; [done|]. rewrite Hb, list.Forall_cons. split; [|tauto]. intros H. split; [|done].
    apply orb_false_iff in E as [E1 E2]. apply negb_false_iff in E2. exists e. split_and!; [done|lia|lia].
Qed.

Lemma owns_all_ok m pe :
  known m pe → ∃ b, owns_all m att pe = Ret b ∧ (b = true ↔ owned m att pe).
Proof.
  induction 1 as [|x pe [e He] _ (b & IH & Hb)]; [exists true; split; [done|]; split; [constructor|done]|]. cbn [owns_all]. unfold ev. cbn [of_option mbind res_bind].
  rewrite He. step. unfold owned in *. setoid_rewrite list.Forall_cons. rewrite He. cbn. destruct (e_owner e =? att) eqn:E.
  - exists b. split; [done|]. rewrite Hb. assert (e_owner e = att) as -> by lia. tauto.
  - exists false. split; [done|]. split; [done|]. intros [[= H] _]. lia.
Qed.

Lemma mark_used_ok pe : ∀ m, NoDup pe → known m pe →
  ∃ b m', mark_used os m pe = Ret (b, m') ∧ owners m' = owners m ∧ (∀ x, x ∉ pe → m' !! x = m !! x) ∧
    (prios_ok m → prios_ok m') ∧
    (b = false → ¬ Forall (λ x, ∃ e, m !! x = Some e ∧ (e_temp e = ET_EVENT_TEMP → unmapped os x = true)) pe).
Proof.
  induction pe as [|x pe IH]; intros m Hnd Hk; [by exists true, m|]. cbn [mark_used].
  apply list.NoDup_cons in Hnd as [Hx Hnd]. apply Forall_cons_1 in Hk as [[e He] Hk].
  unfold ev, ev_set. cbn [of_option mbind res_bind]. rewrite He. step. destruct (_ && _) eqn:E.
  - exists false, m. split_and!; try done. intros _ ((e' & He' & H) & _)%list.Forall_cons. rewrite He in He'. injection He' as <-.
    apply andb_true_iff in E as [E1 E2]. apply Z.eqb_eq in E1. rewrite (H E1) in E2. done.
  - set (e1 := e <| e_modify := _ |> <| e_age := _ |>). destruct (IH (<[x := e1]> m) Hnd) as (b & m' & -> & H1 & H2 & H3 & H4).
    { eapply Forall_impl; [|exact Hk]. intros z [ez Hz]. cbv beta. destruct (decide (z = x)) as [->|Hne].
      - rewrite lookup_insert_eq. by eexists.
      - rewrite lookup_insert_ne by done. by eexists. }
    exists b, m'. split; [done|]. split_and!.
    + rewrite H1. unfold owners. rewrite fmap_insert. apply insert_id. rewrite lookup_fmap, He. done.
    + intros z [Hz Hz']%not_elem_of_cons. rewrite H2 by done. by rewrite lookup_insert_ne.
    + intros Hp. apply H3. intros z ez Hz. destruct (decide (z = x)) as [->|Hne].
      * rewrite lookup_insert_eq in Hz. injection Hz as <-. by apply (Hp x e).
      * rewrite lookup_insert_ne in Hz by done. by apply (Hp z ez).
    + intros Hb Hall. apply list.Forall_cons in Hall as [_ Hall]. apply (H4 Hb). rewrite list.Forall_forall in Hall |- *.
      intros z Hz. destruct (Hall z Hz) as (ez & Hez & H). exists ez. split; [|done]. rewrite lookup_insert_ne; [done|]. by intros ->.
Qed.

(** The count of what was given. *)
Lemma count_given y1 y2 Q2 pe f refused :
  safe F (d_sys d) y1 → wf y2 Q2 F → keeps y1 y2 → owners (y_events y2) = give ET_SYS pe (owners (y_events y1)) →
  (∀ a, at_num (f a) = at_num a) → (∀ a, at_status (f a) = at_status a) →
  (∀ a, at_stat (f a) = at_stat a) →
  ∃ y3, set_attachment y2 att f = Ret y3 ∧ given (d_sys d) pe refused ET_OK None y3.
Proof.
  intros Hs1 Hw2 Hk2 Ho2 Hf0 Hf1 Hf2.
  assert (safe F (d_sys d) y2) as Hs2 by (eapply safe_trans; [exact Hs1|]; split; [by exists Q2|done]).
  destruct (count_ok F att y2 Q2 f Hw2) as (y3 & Hr & Hs3 & He3); [|done..|].
  { eapply valid_keeps; [apply Hs2|]. by eapply seated_valid. }
  exists y3. split; [done|]. split; [by eapply safe_trans|]. split; [|by left]. intros _. rewrite He3. by eapply given_owned.
Qed.

Lemma given_stopped (body : et_id → res (Z * option unit * et_id)) pe (waits w : Prop) :
  (∀ d1, d_sys d1 = d_sys d → (∀ y', safe F (d_sys d) y' → ¬ w → given (d_sys d) pe (stopped d w) ET_ERROR None y') →
    settles d1 (body d1) waits (given (d_sys d) pe (stopped d w))) →
  returns d (with_memory d body) waits (given (d_sys d) pe (stopped d w)).
Proof.
  intros Hb. apply with_memory_ok; [intros Hd; apply given_refused; [by eapply safe_refl|done|by left]|
    intros Hd; apply given_refused; [by eapply safe_refl|done|by right; left]|]. intros d1 Hd1 _ _. apply Hb; [done|].
  intros y' Hs Hw'. apply given_refused; [done|done|by right; right].
Qed.

Lemma et_events_put_ok ptr pe :
  NoDup pe → known (y_events (d_sys d)) pe →
  returns d (et_events_put os d att ptr pe) False
    (given (d_sys d) pe (stopped d (ptr = true ∧ Forall (fits (y_events (d_sys d))) pe))).
Proof.
  intros Hnd Hk. pose proof (safe_refl F _ _ Hw) as Hs0. unfold et_events_put. case_bool_decide as Hne.
  { subst pe. apply returns_same. split; [done|]. split; [constructor|by left]. }
  assert (0 ≤ att) as Hatt by by destruct Hseat. replace (att <? 0) with false by lia. cbn [orb].
  destruct ptr; cbn [negb].
  2:{ apply returns_same, given_refused; [done|done|]. right. right. by intros [? _]. }
  apply given_stopped. intros d1 Hd1 Hno. rewrite Hd1.
  destruct (may_put_ok (y_events (d_sys d)) pe Hk) as (b & -> & Hb). step. destruct b; cbn [negb].
  2:{ apply settles_leave. rewrite Hd1. apply Hno; [done|]. intros [_ Hall]. assert (false = true) as [=]. apply Hb.
      eapply Forall_impl; [|exact Hall]. intros x (e & H1 & H2 & H3 & _). by exists e. }
  apply proj1 in Hb. specialize (Hb eq_refl).
  assert (owned (y_events (d_sys d)) att pe) as Ho.
  { eapply Forall_impl; [|exact Hb]. intros x (e & H1 & H2 & H3). cbv beta. rewrite H1. cbn. by rewrite H3. }
  destruct (mark_used_ok pe (y_events (d_sys d)) Hnd Hk) as (b & m & -> & H1 & H2 & H3 & H4). step.
  assert (safe F (d_sys d) (d_sys d <| y_events := m |>)) as Hs1.
  { eapply (safe_touch F att); try done; [by eapply seated_not_sys|]. apply H3, Hw. }
  destruct b; cbn [negb].
  2:{ apply settles_sys, Hno; [done|]. intros [_ Hall]. apply (H4 eq_refl).
      eapply Forall_impl; [|exact Hall]. intros x (e & G1 & G2 & G3 & G4). by exists e. }
  set (y1 := d_sys d <| y_events := m |>) in *. pose proof Hs1 as [[Q1 Hw1] Hk1].
  pose proof (seated_keeps _ _ _ _ Hk1 (or_intror eq_refl) Hseat) as Hseat1. rewrite (station_of_ok _ Hseat1). step.
  destruct (seated_attachment _ _ _ Hseat1) as (a & s & _ & _ & Hs).
  assert (owned (y_events y1) att pe) as Ho1 by by eapply owned_owners.
  destruct (nwrite_step y1 Q1 F F pe pe [] att i s Hw1 Hs) as (y2 & Q2 & -> & Hw2 & Hk2 & _ & Ho2); try done.
  { by rewrite app_nil_r. }
  { by eapply seated_not_sys. }
  step. set (f := λ a, a <| at_events_put ::= _ |>).
  destruct (count_given y1 y2 Q2 pe f (stopped d (true = true ∧ Forall (fits (y_events (d_sys d))) pe)) Hs1 Hw2 Hk2 Ho2)
    as (y3 & -> & Hg); [done..|]. step. by apply settles_sys.
Qed.

Lemma et_event_put_ok x :
  known (y_events (d_sys d)) [x] →
  returns d (et_event_put os d att (Some x)) False (given (d_sys d) [x] (stopped d (fits (y_events (d_sys d)) x))).
Proof.
  intros [[e He] _]%Forall_cons_1. pose proof (safe_refl F _ _ Hw) as Hs0. unfold et_event_put.
  assert (0 ≤ att) as Hatt by by destruct Hseat. replace (att <? 0) with false by lia.
  apply given_stopped. intros d1 Hd1 Hno. rewrite Hd1. unfold ev. cbn [of_option mbind res_bind]. rewrite He. step.
  assert (∀ e', y_events (d_sys d) !! x = Some e' → e' = e) as Hsame by congruence.
  destruct (_ <? _) eqn:E1; [apply settles_leave; rewrite Hd1; apply Hno; [done|]; intros (e' & ->%Hsame & ? & _); lia|].
  destruct (e_owner e =? att) eqn:E2; cbn [negb];
    [|apply settles_leave; rewrite Hd1; apply Hno; [done|]; intros (e' & ->%Hsame & _ & ? & _); lia].
  destruct (_ && _) eqn:E3.
  { apply settles_leave. rewrite Hd1. apply Hno; [done|]. intros (e' & ->%Hsame & _ & _ & H).
    apply andb_true_iff in E3 as [E3 E4]. rewrite H in E4; [done|lia]. }
  rewrite (station_of_ok _ Hseat). step.
  assert (owned (y_events (d_sys d)) att [x]) as Ho.
  { constructor; [|constructor]. rewrite He. cbn. f_equal. lia. }
  destruct (each_event_ok F att (seated_not_sys _ _ _ Hseat) (d_sys d) Q [x] (λ e, e <| e_age := ET_EVENT_USED |>) Hw Ho)
    as (y1 & -> & Hs1 & Hatt1 & Hown & _); [apply NoDup_singleton|done|by right|]. step. pose proof Hs1 as [[Q1 Hw1] Hk1].
  pose proof (seated_keeps _ _ _ _ Hk1 (or_intror Hatt1) Hseat) as Hseat1. destruct (seated_attachment _ _ _ Hseat1) as (a & s & _ & _ & Hs).
  destruct (write_step y1 Q1 F i s x att Hw1 Hs) as (y2 & Q2 & -> & Hw2 & Hk2 & _ & Ho2); try done;
    [by eapply seated_not_sys|by eapply owned_owners|].
  step. set (f := λ a, a <| at_events_put ::= _ |>).
  destruct (count_given y1 y2 Q2 [x] f (stopped d (fits (y_events (d_sys d)) x)) Hs1 Hw2 Hk2 Ho2)
    as (y3 & -> & Hg); [done..|]. step. by apply settles_sys.
Qed.

(** The number of temporary events, and that of what was dumped. *)
Lemma count_dumped_ok y2 Q2 pe temps num refused :
  wf y2 Q2 F → keeps (d_sys d) y2 → owners (y_events y2) = give ET_SYS pe (owners (y_events (d_sys d))) →
  (count_dumped y2 att temps num = Blocked ∧ y_mutex (d_sys d) = true) ∨
  ∃ y3, count_dumped y2 att temps num = Ret y3 ∧ given (d_sys d) pe refused ET_OK None y3.
Proof.
  intros Hw2 Hk2 Ho2. unfold count_dumped.
  set (r := if 0 <? temps then _ else _).
  assert ((r = Blocked ∧ y_mutex (d_sys d) = true) ∨ ∃ y', r = Ret y' ∧ y_events y' = y_events y2 ∧ safe F y2 y')
    as [[-> H]|(y' & -> & He' & Hs')]; [|by left|right].
  { unfold r. destruct (0 <? temps); [|right; exists y2; split_and!; [done|done|by eapply safe_refl]].
    unfold et_system_lock. destruct (y_mutex y2) eqn:Hmu.
    - left. split; [done|]. destruct Hk2 as [_ _ [_ Hsz%sizes_mutex] _ _]. congruence.
    - right. step. eexists. split; [done|]. split; [done|].
      eapply safe_same; [exact Hw2|done|done| |done]. unfold frames, sizes. fields. by rewrite Hmu. }
  step. pose proof Hs' as [[Q' Hw'] Hk']. set (f := λ a, a <| at_events_dump ::= _ |>).
  apply (count_given (d_sys d) y' Q' pe f refused); try done; [by eapply safe_refl|by eapply keeps_trans|by rewrite He'].
Qed.

Lemma remove_buffers_ok m pe n :
  known m pe → ∃ r, remove_buffers os m pe n = Ret r ∧
    (r = None → ¬ Forall (λ x, ∃ e, m !! x = Some e ∧ (e_temp e = ET_EVENT_TEMP → temp_remove os x = true)) pe).
Proof.
  intros Hk. revert n. induction Hk as [|x pe [e He] _ IH]; intros n; [by eexists|]. cbn [remove_buffers].
  unfold ev. cbn [of_option mbind res_bind]. rewrite He. step.
  assert (∀ n, ∃ r, remove_buffers os m pe n = Ret r ∧
    (r = None → ¬ Forall (λ x, ∃ e, m !! x = Some e ∧ (e_temp e = ET_EVENT_TEMP → temp_remove os x = true)) (x :: pe))) as IH'.
  { intros k. destruct (IH k) as (r & -> & Hr). exists r. split; [done|]. intros Hn [_ H]%list.Forall_cons. by apply (Hr Hn). }
  destruct (_ =? _) eqn:E; [|apply IH']. destruct (temp_remove os x) eqn:E2; [apply IH'|]. exists None. split; [done|].
  intros _ [(e' & He' & H) _]%list.Forall_cons. rewrite He in He'. injection He' as <-. rewrite H in E2; [done|lia].
Qed.

Lemma et_event_dump_ok x :
  known (y_events (d_sys d)) [x] →
  returns d (et_event_dump os d att (Some x)) (y_mutex (d_sys d) = true)
    (given (d_sys d) [x] (stopped d (droppable (y_events (d_sys d)) x))).
Proof.
  intros [[e He] _]%Forall_cons_1. pose proof (safe_refl F _ _ Hw) as Hs0. unfold et_event_dump.
  assert (0 ≤ att) as Hatt by by destruct Hseat. replace (att <? 0) with false by lia.
  apply given_stopped. intros d1 Hd1 Hno. rewrite Hd1. unfold ev. cbn [of_option mbind res_bind]. rewrite He. step.
  assert (∀ e', y_events (d_sys d) !! x = Some e' → e' = e) as Hsame by congruence.
  destruct (e_owner e =? att) eqn:E2; cbn [negb];
    [|apply settles_leave; rewrite Hd1; apply Hno; [done|]; intros (e' & ->%Hsame & ? & _); lia].
  destruct (_ && _) eqn:E3.
  { apply settles_leave. rewrite Hd1. apply Hno; [done|]. intros (e' & ->%Hsame & _ & H).
    apply andb_true_iff in E3 as [E3 E4]. rewrite H in E4; [done|lia]. }
  assert (owned (y_events (d_sys d)) att [x]) as Ho.
  { constructor; [|constructor]. rewrite He. cbn. f_equal. lia. }
  destruct (seated_grandcentral _ _ _ Hseat) as (s & Hs).
  destruct (dump_step (d_sys d) Q F s x att Hw Hs) as (y2 & Q2 & -> & Hw2 & Hk2 & _ & Ho2); try done;
    [by eapply seated_not_sys|].
  step. destruct (count_dumped_ok y2 Q2 [x] (if e_temp e =? ET_EVENT_TEMP then 1 else 0) 1
    (stopped d (droppable (y_events (d_sys d)) x)) Hw2 Hk2 Ho2) as [[-> H]|(y3 & -> & Hg)]; [by left|]. step. by apply settles_sys.
Qed.

Lemma et_events_dump_ok ptr pe :
  NoDup pe → known (y_events (d_sys d)) pe →
  returns d (et_events_dump os d att ptr pe) (y_mutex (d_sys d) = true)
    (given (d_sys d) pe (stopped d (ptr = true ∧ Forall (droppable (y_events (d_sys d))) pe))).
Proof.
  intros Hnd Hk. pose proof (safe_refl F _ _ Hw) as Hs0. unfold et_events_dump. case_bool_decide as Hne.
  { subst pe. apply returns_same. split; [done|]. split; [constructor|by left]. }
  assert (0 ≤ att) as Hatt by by destruct Hseat. replace (att <? 0) with false by lia. cbn [orb].
  destruct ptr; cbn [negb].
  2:{ apply returns_same, given_refused; [done|done|]. right. right. by intros [? _]. }
  apply given_stopped. intros d1 Hd1 Hno. rewrite Hd1.
  destruct (owns_all_ok (y_events (d_sys d)) pe Hk) as (b & -> & Hb). step. destruct b; cbn [negb].
  2:{ apply settles_leave. rewrite Hd1. apply Hno; [done|]. intros [_ Hall]. assert (false = true) as [=]. apply Hb.
      eapply Forall_impl; [|exact Hall]. intros x (e & H1 & H2 & _). cbv beta. rewrite H1. cbn. by rewrite H2. }
  apply proj1 in Hb. specialize (Hb eq_refl).
  destruct (remove_buffers_ok (y_events (d_sys d)) pe 0 Hk) as ([temps|] & -> & Hr); step.
  2:{ apply settles_leave. rewrite Hd1. apply Hno; [done|]. intros [_ Hall]. apply (Hr eq_refl).
      eapply Forall_impl; [|exact Hall]. intros x (e & H1 & _ & H2). by exists e. }
  destruct (seated_grandcentral _ _ _ Hseat) as (s & Hs).
  destruct (ndump_step (d_sys d) Q F F pe pe [] att ET_GRANDCENTRAL s Hw Hs) as (y2 & Q2 & -> & Hw2 & Hk2 & _ & Ho2); try done.
  { by rewrite app_nil_r. }
  { by eapply seated_not_sys. }
  step. destruct (count_dumped_ok y2 Q2 pe temps (Z.of_nat (length pe))
    (stopped d (true = true ∧ Forall (droppable (y_events (d_sys d))) pe)) Hw2 Hk2 Ho2) as [[-> H]|(y3 & -> & Hg)]; [by left|]. step. by apply settles_sys.
Qed.
End Arguments.
End Give.

(** ** Temporary events that are dumped *)

Definition temps_of (m : evs) (pe : list nat) : Z := Z.of_nat (length (filter (λ x, is_temp m x = true) pe)).

Lemma remove_buffers_count os m pe n k : remove_buffers os m pe n = Ret (Some k) → k = n + temps_of m pe.
Proof.
  unfold temps_of. revert n. induction pe as [|x pe IH]; intros n; cbn [remove_buffers]; [intros [= <-]; cbn; lia|].
  unfold ev. step. destruct (m !! x) as [e|] eqn:He; [|done]. step. rewrite filter_cons.
  assert (is_temp m x = (e_temp e =? ET_EVENT_TEMP)) as Et by (unfold is_temp; by rewrite He).
  destruct (e_temp e =? ET_EVENT_TEMP).
  - destruct (temp_remove os x); [|done]. intros ->%IH. rewrite decide_True by by rewrite Et. cbn [length]. lia.
  - intros ->%IH. rewrite decide_False by (by rewrite Et). done.
Qed.

Lemma set_attachment_temps y att f y' : set_attachment y att f = Ret y' → y_ntemps y' = y_ntemps y.
Proof.
  unfold set_attachment. destruct (attachment y att) as [a| | |]; try done. step.
  destruct (aset _ _ _) as [l| | |]; try done. by intros [= <-].
Qed.

Lemma count_dumped_temps y att temps num y' : 0 ≤ temps → count_dumped y att temps num = Ret y' → y_ntemps y' = y_ntemps y - temps.
Proof.
  intros Ht. unfold count_dumped, et_system_lock. destruct (Z.ltb_spec 0 temps) as [Hp|Hp].
  - destruct (y_mutex y); [done|]. step. by intros ->%set_attachment_temps.
  - step. intros ->%set_attachment_temps. lia.
Qed.

Lemma dump_count os d att pe out d' :
  et_events_dump os d att true pe = Ret (ET_OK, out, d') → y_ntemps (d_sys d') = y_ntemps (d_sys d) - temps_of (y_events (d_sys d)) pe.
Proof.
  unfold et_events_dump. destruct (bool_decide_reflect (pe = [])) as [->|_].
  { intros [= <- <-]. unfold temps_of. rewrite filter_nil. cbn [length]. lia. }
  destruct (_ || _); [done|]. unfold with_memory. destruct (d_alive d); [cbn [negb]|done].
  destruct (et_memRead_lock d) as [d1| | |] eqn:E; try done. step. apply unlock_read in E as [_ ->].
  destruct (d_closed _); [done|]. ids. destruct (owns_all _ _ _) as [ok| | |]; try done. step. destruct ok; [cbn [negb]|done].
  destruct (remove_buffers _ _ _ _) as [[temps|]| | |] eqn:Et; try done. step. apply remove_buffers_count in Et.
  unfold run_station. destruct (station _ _) as [s| | |]; try done. step. destruct (et_station_ndump _ _ _ _) as [[[st m] s']| | |]; try done.
  step. destruct (Z.eqb_spec st ET_OK) as [->|Hst]; cbn [negb]; [|by intros [= ? _ _]].
  destruct (count_dumped _ _ _ _) as [y'| | |] eqn:Ec; try done. step. unfold leave. intros [= _ <-].
  apply count_dumped_temps in Ec; [|rewrite Et; unfold temps_of; lia]. rewrite Et in Ec. etrans; [exact Ec|]. cbn. lia.
Qed.
