(* ===== verification/EtDetachSpec.v ===== *)
(** * What becomes of the events of an attachment that leaves

    For the restore modes that put events back into the lists of the station itself, or
    into that of GrandCentral, all events of the attachment are in lists afterwards.  The
    mode that redistributes them through the station before is left out: [et_restore] then
    works on an output list, whose count of events of high priority it does not keep. *)

From S2P Require Import Prelude Words EtTypes EtLists EtSegments EtListSpec EtStationSpec EtReadSpec.
From S2P Require Import EtConductor EtSystemInv EtConductorSpec EtAccess EtWaiting EtDetached EtSteps EtWaitSpec EtCallSpec.

Section Detach.
  Context {K : Sparing} (att : Z) (Ha : att ≠ ET_SYS) (HK : ¬ sparing att).

(** ** The input list of a station without attachments *)

Lemma et_flush_events_ok y Q F i s :
  wf y Q F → y_stats y !! i = Some s → valid y att → c_restore_mode (s_config s) ≠ ET_STATION_RESTORE_REDIST →
  ∃ y', et_flush_events y att i = Ret y' ∧ safe F y y'.
Proof.
  intros Hw Hs Hv Hmode. unfold et_flush_events. destruct (_ =? _)%nat; [exists y; split; [done|by eapply safe_refl]|].
  destruct (et_station_nread_ok y Q F i s att [] Hw Hs Hv ltac:(constructor) ET_ASYNC (y_nevents y))
    as [[_ H]|(st & pe & y1 & -> & ([Q1 Hw1] & Hk1 & Hnd & Ho & _) & _)]; [done|]. step.
  assert (safe F y y1) as Hs1 by (split; [by exists Q1|done]).
  destruct (st <? 0); [by eexists|]. destruct (shape_lookup _ _ _ _ (kp_shape _ _ Hk1) Hs) as (s1 & Hs1' & Hsh).
  unfold station. rewrite Hs1'. step.
  assert (c_restore_mode (s_config s1) = c_restore_mode (s_config s)) as -> by (unfold shape_of, place_of in Hsh; congruence).
  rewrite (proj2 (Z.eqb_neq _ _) Hmode).
  destruct (nwrite_step y1 Q1 F F pe pe [] att i s1 Hw1 Hs1') as (y2 & Q2 & -> & Hw2 & Hk2 & _); try done.
  { by rewrite app_nil_r. }
  step. exists y2. split; [done|]. eapply safe_trans; [exact Hs1|]. split; [by exists Q2|done].
Qed.

(** ** The events of the attachment *)

Lemma find_owned_ok y Q F :
  wf y Q F →
  let '(new, used) := find_owned (y_events y) att (Z.to_nat (y_nevents y)) in
  NoDup new ∧ NoDup used ∧ owned (y_events y) att new ∧ owned (y_events y) att used ∧ new ## used ∧
  ∀ x, owners (y_events y) !! x = Some att → x ∈ new ++ used.
Proof.
  intros Hw. unfold find_owned. set (n := Z.to_nat _).
  assert (∀ b, owned (y_events y) att (filter (λ x, owned_by (y_events y) att b x = true) (seq 0 n))) as Ho.
  { intros b. apply list.Forall_forall. intros x [H _]%list_elem_of_filter. unfold owned_by in H.
    destruct (y_events y !! x) as [e|]; [|done]. apply andb_true_iff in H as [H _]. cbn. f_equal. lia. }
  split_and!; try apply Ho; try (apply list.NoDup_filter, NoDup_seq).
  - intros x [H1 _]%list_elem_of_filter [H2 _]%list_elem_of_filter. unfold owned_by in H1, H2.
    destruct (y_events y !! x) as [e|]; [|done]. apply andb_true_iff in H1 as [_ H1]. apply andb_true_iff in H2 as [_ H2].
    by destruct (_ =? ET_EVENT_NEW).
  - intros x Hx. unfold owners in Hx. rewrite lookup_fmap in Hx. destruct (y_events y !! x) as [e|] eqn:He; [|done].
    injection Hx as Hx. assert (x ∈ seq 0 n) as Hin.
    { destruct (wf_places _ _ _ Hw) as [Hn Hd]. apply elem_of_seq. split; [lia|].
      assert (x ∈ dom (y_events y)) as Hdom by (apply elem_of_dom; by exists e). apply Hd, elem_of_set_seq in Hdom. lia. }
    apply elem_of_app. rewrite !list_elem_of_filter. unfold owned_by. rewrite He, Hx, Z.eqb_refl. cbn [andb].
    destruct (_ =? ET_EVENT_NEW); [by left|by right].
Qed.

Lemma filter_both (f : nat → bool) l : filter (λ x, f x = true) l ++ filter (λ x, f x = false) l ≡ₚ l.
Proof.
  induction l as [|x l IH]; [done|]. rewrite !filter_cons. destruct (f x) eqn:E.
  - rewrite decide_True by done. rewrite decide_False by done. cbn. by rewrite IH.
  - rewrite decide_False by done. rewrite decide_True by done. rewrite <- Permutation_middle. by rewrite IH.
Qed.

Lemma high_first_perm m pe : high_first m pe ≡ₚ pe.
Proof. apply filter_both. Qed.

(** Events in flight change. *)
Lemma flight_touch y Q F f :
  wf y Q F → (∀ e, e_owner (f e) = e_owner e) → (∀ e, e_priority (f e) = e_priority e) → ∀ pe G, F ≡ₚ pe ++ G →
  ∃ y', each_event y pe f = Ret y' ∧ wf y' Q F ∧ keeps y y' ∧ owners (y_events y') = owners (y_events y) ∧
    y_stats y' = y_stats y.
Proof.
  intros Hw Hf1 Hf2 pe G HF. pose proof (wf_nodup _ _ _ Hw) as Hnd. rewrite HF in Hnd.
  apply list.NoDup_app in Hnd as (_ & Hd & Hnd). apply list.NoDup_app in Hnd as (Hnd & _).
  pose proof (wf_known _ _ _ Hw) as Hk. unfold known in Hk. rewrite HF in Hk. apply Forall_app in Hk as [Hk _].
  destruct (each_ok (y_events y) pe f Hnd Hk) as (m & Hr & Hm). pose proof (each_owners _ _ pe f Hf1 Hm) as Ho.
  unfold each_event. rewrite Hr. step. eexists. split; [done|]. split_and!; [|by apply keeps_same|done|done].
  apply wf_touch; try done.
  - intros x Hx. rewrite Hm, decide_False; [done|]. intros H. apply (Hd x Hx). apply elem_of_app. by left.
  - intros x e He. rewrite Hm in He. pose proof (wf_prios _ _ _ Hw x) as Hp.
    destruct (decide (x ∈ pe)); [|by apply Hp]. destruct (y_events y !! x) as [e1|]; [|done]. injection He as <-.
    rewrite Hf2. by apply Hp.
Qed.

(** The result of putting [pe] back. *)
Definition back (F : list nat) (y : et_system) (pe : list nat) (r : res (Z * et_system)) : Prop :=
  ∃ st y' Q', r = Ret (st, y') ∧ wf y' Q' F ∧ keeps y y' ∧ owners (y_events y') = give ET_SYS pe (owners (y_events y)).

Lemma back_after F y1 y2 pe r :
  keeps y1 y2 → owners (y_events y2) = owners (y_events y1) → back F y2 pe r → back F y1 pe r.
Proof.
  intros Hk Ho (st & y' & Q' & Hr & H1 & H2 & H3). exists st, y', Q'. split_and!; [done|done|by eapply keeps_trans|congruence].
Qed.

Lemma drop_temps_ok y Q F pe : wf y Q F → wf (drop_temps y pe) Q F ∧ keeps y (drop_temps y pe).
Proof. intros Hw. split; [by apply (wf_same y)|by apply keeps_same]. Qed.

Definition restorable (mode : Z) : Prop :=
  mode = ET_STATION_RESTORE_GC ∨ mode = ET_STATION_RESTORE_OUT ∨ mode = ET_STATION_RESTORE_IN.

Lemma restore_used_ok y Q F i s ordered :
  wf y Q (ordered ++ F) → ordered ≠ [] → y_stats y !! i = Some s → is_Some (y_stats y !! ET_GRANDCENTRAL) →
  restorable (c_restore_mode (s_config s)) → back F y ordered (restore_used y i ordered).
Proof.
  intros Hw Hne Hs [g Hg] Hmode. unfold restore_used, station. rewrite Hs. step.
  assert (∀ m, owned m att []) as Hnil by constructor. assert (NoDup (A := nat) []) as Hnd by constructor.
  set (F0 := ordered ++ F) in *. assert (F0 ≡ₚ ordered ++ F) as HF by done.
  destruct ((_ =? ET_STATION_RESTORE_GC) || (i =? ET_GRANDCENTRAL)%nat) eqn:E1.
  { destruct (drop_temps_ok y Q F0 ordered Hw) as [Hw1 Hk1]. apply (back_after F y (drop_temps y ordered)); [done|done|].
    destruct (ndump_step (drop_temps y ordered) Q F0 F ordered [] ordered att ET_GRANDCENTRAL g Hw1) as (y2 & Q2 & -> & H1 & H2 & _ & H3);
      try done. by exists ET_OK, y2, Q2. }
  apply orb_false_iff in E1 as [E1 _]. destruct (flight_touch y Q F0 corrupt Hw (λ _, eq_refl) (λ _, eq_refl) ordered F HF)
    as (y1 & -> & Hw1 & Hk1 & Ho1 & Hst1). rewrite <- Hst1 in Hs. step.
  destruct (_ || _) eqn:E2.
  { apply (back_after F y y1); [done|done|].
    destruct (nwrite_step y1 Q F0 F ordered [] ordered att i s Hw1 Hs) as (y2 & Q2 & -> & H1 & H2 & _ & H3); try done.
    by exists ET_OK, y2, Q2. }
  apply orb_false_iff in E2 as [E2 _]. apply Z.eqb_neq in E1, E2. destruct Hmode as [Hmode|[Hmode|Hmode]]; [done|done|].
  rewrite Hmode. cbn [Z.eqb ET_STATION_RESTORE_IN]. apply (back_after F y y1); [done|done|].
  destruct (restore_input_step y1 Q F0 F ordered [] ordered att i s Hw1 Hs) as (y2 & Q2 & Hr & H1 & H2 & _ & H3); try done.
  unfold restore_in. rewrite Hr. step. rewrite Z.ltb_irrefl. by exists ET_OK, y2, Q2.
Qed.

(** No event is owned by the attachment. *)
Definition disowned (y : et_system) : Prop := ∀ x, owners (y_events y) !! x ≠ Some att.

Lemma et_restore_events_ok y Q F i s :
  wf y Q F → y_stats y !! i = Some s → is_Some (y_stats y !! ET_GRANDCENTRAL) → restorable (c_restore_mode (s_config s)) →
  ∃ st y', et_restore_events y att i = Ret (st, y') ∧ safe F y y' ∧ disowned y'.
Proof.
  intros Hw Hs Hg Hmode. unfold et_restore_events. pose proof (find_owned_ok y Q F Hw) as Hfo.
  destruct (find_owned _ _ _) as [new used]. destruct Hfo as (Hn1 & Hn2 & Ho1 & Ho2 & Hap & Hall).
  destruct (each_ok (y_events y) used (λ e, e <| e_owner := ET_SYS |>) Hn2 (owned_known _ _ _ Ho2)) as (m & Hr & Hm).
  unfold each_event. rewrite Hr. step. set (y1 := y <| y_events := m |>).
  pose proof (wf_release y Q F m att used Hw Hn2 Ha Ho2 Hm) as Hw1. fold y1 in Hw1.
  assert (owners m = give ET_SYS used (owners (y_events y))) as Hom.
  { apply map_eq. intros x. rewrite give_lookup. unfold owners. rewrite !lookup_fmap, Hm.
    destruct (decide (x ∈ used)) as [Hx|]; [|done]. pose proof (owned_known _ _ _ Ho2) as Hk. unfold known in Hk.
    rewrite list.Forall_forall in Hk. destruct (Hk x Hx) as [e ->]. done. }
  assert (keeps y y1) as Hk1.
  { split; try done. eapply spared_give; [exact Hom|]. intros x Hx. right. exists att. split; [|done].
    unfold owned in Ho2. rewrite list.Forall_forall in Ho2. unfold owners. rewrite lookup_fmap. by apply Ho2. }
  change (y_events y1) with m in *. set (ordered := high_first m used). pose proof (high_first_perm m used) as Hperm. fold ordered in Hperm.
  assert (owned m att new) as Ho3.
  { apply list.Forall_forall. intros x Hx. rewrite Hm, decide_False; [|intros Hu; by apply (Hap x)].
    unfold owned in Ho1. rewrite list.Forall_forall in Ho1. by apply Ho1. }
  assert (∃ st y2 Q2, (match new with [] => Ret (ET_OK, y1)
     | _ => run_station (drop_temps y1 new) ET_GRANDCENTRAL (λ n m s, et_station_ndump n m s new) end) = Ret (st, y2) ∧
     wf y2 Q2 (used ++ F) ∧ keeps y y2 ∧ owners (y_events y2) = give ET_SYS new (owners m))
    as (st & y2 & Q2 & -> & Hw2 & Hk2 & Hoo).
  { destruct new as [|x new]; [by exists ET_OK, y1, Q|]. set (new' := x :: new) in *.
    destruct (drop_temps_ok y1 Q (used ++ F) new' Hw1) as [Hw1' Hk1']. destruct Hg as [g Hg].
    destruct (ndump_step (drop_temps y1 new') Q (used ++ F) (used ++ F) new' new' [] att ET_GRANDCENTRAL g Hw1')
      as (y2 & Q2 & -> & H1 & H2 & _ & H3); try done.
    - by rewrite app_nil_r.
    - exists ET_OK, y2, Q2. split_and!; [done|done| |done]. eapply keeps_trans; [exact Hk1|]. by eapply keeps_trans. }
  step. assert (∀ O', O' = give ET_SYS ordered (give ET_SYS new (owners m)) → ∀ x, O' !! x ≠ Some att) as Hdis.
  { intros O' -> x. rewrite Hom, !give_lookup. destruct (decide (x ∈ ordered)); [congruence|]. destruct (decide (x ∈ new)) as [|H1]; [congruence|].
    destruct (decide (x ∈ used)) as [|H2]; [congruence|]. intros H. apply Hall in H. apply elem_of_app in H as [?|?]; done. }
  destruct ordered as [|x0 ord] eqn:Eo.
  { apply Permutation_nil in Hperm as ->. exists st, y2. split_and!; [done|split; [by exists Q2|done]|].
    unfold disowned. by apply Hdis. }
  rewrite <- Eo in *. assert (ordered ≠ []) as Hne by by rewrite Eo.
  destruct (shape_lookup _ _ _ _ (kp_shape _ _ Hk2) Hs) as (s2 & Hs2 & Hsh).
  destruct Hg as [g Hg]. destruct (shape_lookup _ _ _ _ (kp_shape _ _ Hk2) Hg) as (g2 & Hg2 & _).
  assert (wf y2 Q2 (ordered ++ F)) as Hw2' by (eapply wf_perm; [exact Hw2|]; by rewrite Hperm).
  destruct (restore_used_ok y2 Q2 F i s2 ordered Hw2' Hne Hs2) as (st3 & y3 & Q3 & -> & Hw3 & Hk3 & Ho3').
  { by exists g2. }
  { unfold shape_of, place_of in Hsh. assert (s_config s2 = s_config s) as -> by congruence. done. }
  exists st3, y3. split_and!; [done|split; [by exists Q3|by eapply keeps_trans]|]. unfold disowned. rewrite Ho3', Hoo. by apply Hdis.
Qed.
End Detach.
