(* ===== verification/EtAttachSpec.v ===== *)
(** * Attachments come and go

    An attachment gets a free place of the table and sits at its station; when it leaves,
    its events are put back and it owns none.  Both keep the system in order.  They do not
    wait for events, but for the mutexes. *)

From S2P Require Import Prelude Words EtTypes EtLists EtSegments EtListSpec EtStationSpec EtReadSpec.
From S2P Require Import EtConductor EtSystemInv EtConductorSpec EtAccess EtWaiting EtDetached EtSteps EtWaitSpec.
From S2P Require Import EtStations EtEventCalls EtCallSpec EtEventSpec EtDetachSpec.

(** ** The sizes of the tables *)

Definition tables (y : et_system) : Prop :=
  y_max_stations y = Z.of_nat (length (y_stats y)) ∧ y_max_attachments y = Z.of_nat (length (y_attach y)) ∧
  Forall (λ s, length (y_attach y) ≤ length (s_att s))%nat (y_stats y) ∧
  Forall (λ p, length (y_attach y) ≤ length (p_att p))%nat (y_proc y).
#[export] Instance tables_dec y : Decision (tables y).
Proof. unfold tables. apply _. Defined.

(** The process of the caller is in the table of processes, or it is the system. *)
Definition known_process (d : et_id) (y : et_system) : Prop :=
  d_proc d = ET_SYS ∨ 0 ≤ d_proc d < Z.of_nat (length (y_proc y)).
#[export] Instance known_process_dec d y : Decision (known_process d y).
Proof. unfold known_process. apply _. Defined.

Lemma tables_keeps {K : Sparing} y y' : keeps y y' → tables y → tables y'.
Proof.
  intros [Hsh _ [_ Hsz] _ _] (H1 & H2 & H3 & H4). unfold sizes in Hsz.
  assert (length (y_attach y') = length (y_attach y)) as Ha by congruence.
  assert ((λ p, length (p_att p)) <$> y_proc y' = (λ p, length (p_att p)) <$> y_proc y) as Hp by congruence.
  unfold tables. rewrite Ha, (shape_length _ _ Hsh). split_and!; [congruence|congruence| |].
  - apply list.Forall_forall. intros s' [i Hi]%list_elem_of_lookup.
    destruct (shape_lookup y' y i s' (eq_sym Hsh) Hi) as (s & Hs & E). rewrite list.Forall_forall in H3.
    specialize (H3 s (list_elem_of_lookup_2 _ _ _ Hs)). unfold shape_of, place_of in E. congruence.
  - apply list.Forall_forall. intros p Hin. apply (list_elem_of_fmap_2 (λ p, length (p_att p))) in Hin. rewrite Hp in Hin.
    apply list_elem_of_fmap in Hin as (p0 & -> & Hin). rewrite list.Forall_forall in H4. by apply H4.
Qed.

(** ** The mutexes of the stations *)

Definition unlocked (y : et_system) : Prop := Forall (λ s, s_mutex s = false) (y_stats y).

Lemma mapM_lock l : Forall (λ s, s_mutex s = false) l ∨ mapM et_transfer_lock l = Blocked.
Proof.
  induction l as [|s l [IH|IH]]; [by left| |].
  - destruct (s_mutex s) eqn:E; [right|left; by constructor]. cbn. unfold et_transfer_lock. by rewrite E.
  - right. cbn. rewrite IH. unfold et_transfer_lock. by destruct (s_mutex s).
Qed.

(** The mutexes of all stations while the station [i] changes. *)
Lemma with_transfer y i f :
  (∀ s, s_mutex (f s) = s_mutex s) →
  (unlocked y ∧ ∃ y1, et_transfer_lock_all y = Ret y1 ∧
     ((∀ s, f (s <| s_mutex := true |>) = f s <| s_mutex := true |>) →
      et_transfer_unlock_all (set_station y1 i f) = set_station y i f)) ∨
  (et_transfer_lock_all y = Blocked ∧ ¬ unlocked y).
Proof.
  intros Hf. destruct (decide (unlocked y)) as [Hu|Hu].
  - left. split; [done|]. rewrite (transfer_lock_all_ok _ Hu). eexists. split; [done|]. intros Hc.
    unfold et_transfer_unlock_all, set_station. destruct y. unfold update. cbn in *. f_equal. apply list_eq. intros j.
    rewrite !list_lookup_fmap. destruct (decide (j = i)) as [->|Hne].
    + rewrite !list_lookup_alter_eq, list_lookup_fmap. destruct (y_stats !! i) as [s|] eqn:Hs; [|done].
      change (Some (et_transfer_unlock (f (s <| s_mutex := true |>))) = Some (f s)). f_equal.
      rewrite Hc. unfold et_transfer_unlock. unfold unlocked in Hu. cbn in Hu. rewrite list.Forall_forall in Hu.
      specialize (Hu s (list_elem_of_lookup_2 _ _ _ Hs)). rewrite <- Hf in Hu. destruct (f s). cbn in *. by subst.
    + rewrite !list_lookup_alter_ne, list_lookup_fmap by done. destruct (y_stats !! j) as [s|] eqn:Hs; [|done].
      change (Some (et_transfer_unlock (s <| s_mutex := true |>)) = Some s). f_equal.
      unfold et_transfer_unlock. unfold unlocked in Hu. cbn in Hu. rewrite list.Forall_forall in Hu.
      specialize (Hu s (list_elem_of_lookup_2 _ _ _ Hs)). destruct s. cbn in *. by subst.
  - right. split; [|done]. destruct (mapM_lock (y_stats y)) as [H|H]; [done|]. unfold et_transfer_lock_all. by rewrite H.
Qed.

(** ** An attachment comes *)

Lemma set_proc_ok d y att n v :
  known_process d y → 0 ≤ att < Z.of_nat (length (y_attach y)) →
  Forall (λ p, length (y_attach y) ≤ length (p_att p))%nat (y_proc y) →
  ∃ ps, set_proc d y att n v = Ret (y <| y_proc := ps |>) ∧
    (λ p, length (p_att p)) <$> ps = (λ p, length (p_att p)) <$> y_proc y.
Proof.
  intros Hd Ha Hp. unfold set_proc. destruct (d_proc d =? ET_SYS) eqn:E.
  { exists (y_proc y). split; [by destruct y|done]. }
  destruct Hd as [Hd|Hd]; [lia|]. destruct (lookup_lt_is_Some_2 (y_proc y) (Z.to_nat (d_proc d))) as [p Hl]; [lia|].
  rewrite (aget_ok _ _ p) by (lia || done). step. rewrite list.Forall_forall in Hp.
  specialize (Hp p (list_elem_of_lookup_2 _ _ _ Hl)). rewrite aset_ok by lia. step. rewrite aset_ok by lia. step.
  eexists. split; [done|]. rewrite list_fmap_insert. apply list_insert_id. rewrite list_lookup_fmap, Hl. cbn. by rewrite length_insert.
Qed.

(** The place [n] of the table of attachments is for a new attachment of the station. *)
Definition newcomer (d : et_id) (i n : nat) : et_attach :=
  et_init_attachment <| at_num := Z.of_nat n |> <| at_proc := d_proc d |> <| at_stat := Z.of_nat i |>
                     <| at_status := ET_ATT_ACTIVE |>.
Definition host (s0 : et_station) (n : nat) (s : et_station) : et_station :=
  s <| s_nattachments ::= λ n, n + 1 |> <| s_att := <[n := Z.of_nat n]> (s_att s0) |> <| s_status := ET_STATION_ACTIVE |>.
Definition attached (d : et_id) (y : et_system) (i n : nat) (s0 : et_station) (ps : list et_proc) : et_system :=
  set_station (et_system_unlock
    (y <| y_nattachments ::= λ n, n + 1 |> <| y_attach := <[n := newcomer d i n]> (y_attach y) |> <| y_proc := ps |>))
    i (host s0 n).

Lemma attach_station_ok d y i n s :
  known_process d y → tables y → y_stats y !! i = Some s → (n < length (y_attach y))%nat →
  (attach_station d y i (Z.of_nat n) = Blocked ∧ ¬ unlocked y) ∨
  ∃ ps, attach_station d y i (Z.of_nat n) = Ret (attached d y i n s ps) ∧
    (λ p, length (p_att p)) <$> ps = (λ p, length (p_att p)) <$> y_proc y.
Proof.
  intros Hd (_ & _ & H3 & H4) Hs Hn. unfold attach_station, set_attachment, attachment.
  change (y_attach (y <| y_nattachments ::= _ |>)) with (y_attach y).
  destruct (lookup_lt_is_Some_2 _ _ Hn) as [a Ha]. rewrite (aget_ok _ _ a) by (lia || by rewrite Nat2Z.id). step.
  rewrite aset_ok by lia. rewrite Nat2Z.id. step. set (y1 := y <| y_nattachments ::= _ |> <| y_attach := _ |>).
  destruct (set_proc_ok d y1 (Z.of_nat n) 1 (Z.of_nat n)) as (ps & -> & Hps); [exact Hd| | |].
  { unfold y1. fields. rewrite length_insert. lia. }
  { unfold y1. fields. by rewrite length_insert. }
  step. set (y2 := et_system_unlock (y1 <| y_proc := ps |>)). assert (y_stats y2 = y_stats y) as Hs2 by done.
  unfold station. rewrite Hs2, Hs. step. rewrite list.Forall_forall in H3. specialize (H3 s (list_elem_of_lookup_2 _ _ _ Hs)).
  rewrite aset_ok by lia. rewrite Nat2Z.id. step. destruct (_ && _).
  - set (y3 := set_station y2 i _).
    set (f := λ s : et_station, s <| s_status := ET_STATION_ACTIVE |>).
    assert (∀ s, s_mutex (f s) = s_mutex s) as Hf by done.
    destruct (with_transfer y3 i f Hf) as [(_ & y4 & -> & H)|[-> H]].
    + right. step. exists ps. split; [|done]. fold f. rewrite H by done. f_equal. unfold y3. by rewrite set_station_compose.
    + left. split; [done|]. intros Hu. apply H. unfold unlocked, y3, set_station. fields. rewrite Hs2.
      by apply list.Forall_alter.
  - right. exists ps. split; [|done]. by rewrite set_station_compose.
Qed.

(** Somebody has one of the mutexes that attaching and detaching need. *)
Definition mutex_held (y : et_system) : Prop := y_stat_mutex y = true ∨ y_mutex y = true ∨ ¬ unlocked y.
Definition serial (y : et_system) (i : nat) : Prop :=
  ∃ s, y_stats y !! i = Some s ∧ c_flow_mode (s_config s) ≠ ET_STATION_PARALLEL.

(** The places and configurations of the stations, their number and the sizes of the tables
    are as before. *)
Definition alike (y y' : et_system) : Prop :=
  place_of <$> y_stats y' = place_of <$> y_stats y ∧ length (y_attach y') = length (y_attach y) ∧
  length (y_proc y') = length (y_proc y) ∧ y_nstations y' = y_nstations y ∧ y_stat_tail y' = y_stat_tail y.

Lemma alike_trans y1 y2 y3 : alike y1 y2 → alike y2 y3 → alike y1 y3.
Proof. intros (?&?&?&?&?) (?&?&?&?&?). split_and!; congruence. Qed.

Lemma keeps_alike {K : Sparing} y y' : keeps y y' → alike y y'.
Proof.
  intros [Hsh _ [_ Hsz] _ _]. unfold sizes in Hsz.
  assert ((λ p, length (p_att p)) <$> y_proc y' = (λ p, length (p_att p)) <$> y_proc y) as Hp by congruence.
  split_and!; [|congruence|apply (f_equal length) in Hp; by rewrite !length_fmap in Hp|congruence|congruence].
  unfold shape in Hsh. apply list_eq. intros i. apply (f_equal (λ l, l !! i)) in Hsh. rewrite !list_lookup_fmap in *.
  destruct (y_stats y' !! i), (y_stats y !! i); try done. cbn in *. unfold shape_of in Hsh. congruence.
Qed.

Lemma alike_station y y' i s :
  alike y y' → y_stats y !! i = Some s → ∃ s', y_stats y' !! i = Some s' ∧ place_of s' = place_of s.
Proof.
  intros [H _] Hs. apply (f_equal (λ l, l !! i)) in H. rewrite !list_lookup_fmap, Hs in H.
  destruct (y_stats y' !! i) as [s'|]; [|done]. exists s'. cbn in H. split; [done|congruence].
Qed.

Lemma alike_serial y y' i : alike y y' → serial y i → serial y' i.
Proof.
  intros Hal (s & Hs & H). destruct (alike_station _ _ _ _ Hal Hs) as (s' & Hs' & E%place_config). exists s'. by rewrite E.
Qed.

Lemma alike_set y i f :
  (∀ s, y_stats y !! i = Some s → place_of (f s) = place_of s) → alike y (set_station y i f).
Proof.
  intros Hf. split; [|done]. unfold set_station. fields. apply list_eq. intros j. rewrite !list_lookup_fmap.
  destruct (decide (j = i)) as [->|Hne]; [|by rewrite list_lookup_alter_ne].
  rewrite list_lookup_alter_eq. destruct (y_stats y !! i) as [s|]; [|done]. cbn. by rewrite Hf.
Qed.

Lemma place_phase s s' : place_of s' = place_of s → phase s' = phase s.
Proof. unfold place_of. congruence. Qed.

Lemma place_used s s' : place_of s' = place_of s → in_use s → in_use s'.
Proof. intros E%place_phase. rewrite !phase_used. congruence. Qed.

Lemma place_status s v :
  in_use s → v = ET_STATION_IDLE ∨ v = ET_STATION_ACTIVE → place_of (s <| s_status := v |>) = place_of s.
Proof.
  intros H Hv. assert (phase (s <| s_status := v |>) = phase s) as E.
  { rewrite (proj1 (phase_used s) H). by apply phase_used. }
  unfold place_of. rewrite E. done.
Qed.

Section Attach.
  Context {K : Sparing} (F : list nat) (d : et_id).

(** What attaching and detaching leave of the system. *)
Definition tidy (y : et_system) (i : nat) (y' : et_system) : Prop :=
  (∃ Q, wf y' Q F) ∧ tables y' ∧ alike y y' ∧ (serial y i → keeps y y') ∧ spared (y_events y) (y_events y').

Lemma tidy_trans y1 i y2 y3 : tidy y1 i y2 → tidy y2 i y3 → tidy y1 i y3.
Proof.
  intros (_ & _ & H1 & H2 & H3) (G1 & G2 & G3 & G4 & G5). split_and!; [done|done| | |].
  - by eapply alike_trans.
  - intros Hs. eapply keeps_trans; [by apply H2|]. apply G4. by eapply alike_serial.
  - intros x o HK Hne Hx. by apply G5, H3.
Qed.

Lemma tidy_safe y i y' : tables y → safe F y y' → tidy y i y'.
Proof. intros Ht [Hw Hk]. split_and!; [done|by eapply tables_keeps|by apply keeps_alike|done|apply Hk]. Qed.

(** The first free place of the table of attachments. *)
Definition first_free (y : et_system) (n : nat) : Prop :=
  (∃ a, y_attach y !! n = Some a ∧ at_num a = -1) ∧
  ∀ m a, (m < n)%nat → y_attach y !! m = Some a → at_num a ≠ -1.

Definition joined (y : et_system) (i : nat) (st : Z) (out : option Z) (y' : et_system) : Prop :=
  tidy y i y' ∧ (st ≠ ET_OK → y' = y) ∧
  (st = ET_OK → ∃ n s ps, out = Some (Z.of_nat n) ∧ seated y' (Z.of_nat n) i ∧
     first_free y n ∧ y_stats y !! i = Some s ∧ in_use s ∧ y' = attached d y i n s ps).

Lemma joined_refused y Q i st : wf y Q F → tables y → st ≠ ET_OK → joined y i st None y.
Proof. intros Hw Ht Hst. split_and!; try done. apply tidy_safe; [done|]. by eapply safe_refl. Qed.

(** What attaching does to a station. *)
Lemma lists_same y i f : (∀ s, s_in (f s) = s_in s) → (∀ s, s_out (f s) = s_out s) → lists (set_station y i f) = lists y.
Proof. apply lists_set. Qed.

Lemma attached_ok y Q i n s a ps :
  wf y Q F → tables y → y_stats y !! i = Some s → in_use s → y_attach y !! n = Some a → at_num a = -1 →
  (λ p, length (p_att p)) <$> ps = (λ p, length (p_att p)) <$> y_proc y → y_mutex y = false →
  tidy y i (attached d y i n s ps) ∧ seated (attached d y i n s ps) (Z.of_nat n) i.
Proof.
  intros Hw Ht Hs Hu Ha Hfree Hps Hmu. pose proof (lookup_lt_Some _ _ _ Ha) as Hn.
  assert (place_of (host s n s) = place_of s) as Hpl by (apply (place_status s); [done|by right]). set (y' := attached d y i n s ps).
  assert (y_attach y' = <[n := newcomer d i n]> (y_attach y)) as Hat by done.
  assert (y_stats y' = alter (host s n) i (y_stats y)) as Hst by done.
  assert (length (y_attach y') = length (y_attach y)) as Hla by (rewrite Hat; apply length_insert).
  assert (length (y_stats y') = length (y_stats y)) as Hls by (rewrite Hst; apply length_alter).
  assert (length (<[n := Z.of_nat n]> (s_att s)) = length (s_att s)) as Hlh by apply length_insert.
  split; [split_and!|].
  - exists Q. apply (wf_moved y); try done. unfold y', attached. rewrite lists_set by done. done.
  - destruct Ht as (H1 & H2 & H3 & H4). unfold tables. rewrite Hla, Hls. split_and!; [done|done| |].
    + rewrite Hst. rewrite list.Forall_forall in H3. apply list.Forall_forall. intros s' [j Hj]%list_elem_of_lookup.
      destruct (decide (j = i)) as [->|Hne].
      * rewrite list_lookup_alter_eq, Hs in Hj. injection Hj as <-.
        change (s_att (host s n s)) with (<[n := Z.of_nat n]> (s_att s)). rewrite Hlh.
        by apply H3, (list_elem_of_lookup_2 _ i).
      * rewrite list_lookup_alter_ne in Hj by done. by apply H3, (list_elem_of_lookup_2 _ j).
    + change (y_proc y') with ps. apply list.Forall_forall. intros p Hin.
      apply (list_elem_of_fmap_2 (λ p, length (p_att p))) in Hin. rewrite Hps in Hin.
      apply list_elem_of_fmap in Hin as (p0 & -> & Hin). rewrite list.Forall_forall in H4. by apply H4.
  - split_and!; [|done|apply (f_equal length) in Hps; by rewrite !length_fmap in Hps|done|done].
    destruct (alike_set (y <| y_proc := ps |>) i (host s n)) as [H _]; [|exact H]. intros s1 Hs1. change (y_stats y !! i = Some s1) in Hs1.
    assert (s1 = s) as -> by congruence. exact Hpl.
  - intros (s1 & Hs1 & Hser). assert (s1 = s) as -> by congruence. split.
    + unfold shape. rewrite Hst. apply list_eq. intros j. rewrite !list_lookup_fmap.
      destruct (decide (j = i)) as [->|Hne]; [|by rewrite list_lookup_alter_ne].
      rewrite list_lookup_alter_eq, Hs. cbn [fmap option_fmap option_map]. f_equal. unfold shape_of. rewrite Hpl. unfold host. fields.
      rewrite (proj2 (Z.eqb_neq _ _) Hser), Hlh. done.
    + intros Hact. unfold is_active in *. rewrite Hst. destruct (decide (ET_GRANDCENTRAL = i)) as [<-|Hne].
      * by rewrite list_lookup_alter_eq, Hs.
      * by rewrite list_lookup_alter_ne.
    + split; [done|]. unfold sizes. rewrite Hla. change (y_proc y') with ps. rewrite Hps. f_equal.
      change (y_mutex y') with false. by rewrite Hmu.
    + intros att k v j _ _ Hk Hseat. unfold seats in *. rewrite Hat, list_fmap_insert.
      destruct (decide (n = Z.to_nat att)) as [Hat2|Hne]; [|by rewrite list_lookup_insert_ne].
      rewrite <- Hat2, list_lookup_fmap, Ha in Hseat. injection Hseat as E _ _. congruence.
    + apply spared_refl.
  - apply spared_refl.
  - split_and!; [lia| |rewrite Hls; by eapply lookup_lt_Some]. exists (Z.of_nat n), ET_ATT_ACTIVE. split; [lia|].
    rewrite Nat2Z.id. unfold seats. rewrite Hat, list_fmap_insert, list_lookup_insert_eq by by rewrite length_fmap. done.
Qed.

Lemma unlock_locked y : y_stat_mutex y = false → et_station_unlock (y <| y_stat_mutex := true |>) = y.
Proof. intros H. destruct y. unfold et_station_unlock, update. cbn in *. by subst. Qed.

Lemma unlock_system y : y_mutex y = false → et_system_unlock (y <| y_mutex := true |>) = y.
Proof. intros H. destruct y. unfold et_system_unlock, update. cbn in *. by subst. Qed.

Lemma attached_unlock d1 y i n s ps :
  y_stat_mutex y = false → d_proc d1 = d_proc d →
  et_station_unlock (attached d1 (y <| y_stat_mutex := true |> <| y_mutex := true |>) i n s ps) = attached d y i n s ps.
Proof.
  intros H Hp. unfold attached, newcomer. rewrite Hp. destruct y as [? ? ? ? ? ? ? ? ? ? ? ? ? ? ? ? sm mu]. change (sm = false) in H. rewrite H. reflexivity.
Qed.

Lemma et_station_attach_ok stat_id ptr Q :
  wf (d_sys d) Q F → tables (d_sys d) → known_process d (d_sys d) →
  returns d (et_station_attach d stat_id ptr) (mutex_held (d_sys d)) (joined (d_sys d) (Z.to_nat stat_id)).
Proof.
  intros Hw Ht Hd. unfold et_station_attach.
  assert (∀ st, st ≠ ET_OK → joined (d_sys d) (Z.to_nat stat_id) st None (d_sys d)) as Hno by (intros; by eapply joined_refused).
  destruct (_ || _) eqn:E1; [by apply returns_same, Hno|]. apply orb_false_iff in E1 as [E1 _].
  apply with_memory_ok; [intros _; by apply Hno..|]. intros d1 Hd1 Hpr _. cbn zeta. rewrite Hd1.
  destruct (_ <=? stat_id) eqn:E2; [apply settles_leave; rewrite Hd1; by apply Hno|].
  unfold et_station_lock. destruct (y_stat_mutex (d_sys d)) eqn:Hsm; [left; split; [done|by left]|]. step.
  set (y1 := d_sys d <| y_stat_mutex := true |>).
  assert (∀ st, st ≠ ET_OK → settles d1 (leave_station d1 y1 st None) (mutex_held (d_sys d)) (joined (d_sys d) (Z.to_nat stat_id))) as Hleave.
  { intros st Hst. unfold leave_station. apply settles_sys. unfold y1. rewrite unlock_locked by done. by apply Hno. }
  destruct Ht as (H1 & H2 & H3 & H4). assert (tables (d_sys d)) as Ht by done.
  destruct (lookup_lt_is_Some_2 (y_stats (d_sys d)) (Z.to_nat stat_id)) as [s Hs]; [lia|].
  unfold station. change (y_stats y1) with (y_stats (d_sys d)). rewrite Hs. step.
  destruct (_ && _) eqn:Hus; [by apply Hleave|]. destruct ((0 <? _) && _); [by apply Hleave|].
  assert (in_use s) as Hu by (apply andb_false_iff in Hus as [Hus%negb_false_iff%Z.eqb_eq|Hus%negb_false_iff%Z.eqb_eq]; [by right|by left]).
  unfold et_system_lock. change (y_mutex y1) with (y_mutex (d_sys d)).
  destruct (y_mutex (d_sys d)) eqn:Hmu; [left; split; [done|by right; left]|]. step.
  set (y2 := y1 <| y_mutex := true |>). assert (et_system_unlock y2 = y1) as Hu2 by by apply unlock_system.
  rewrite Hu2. change (y_nattachments y2) with (y_nattachments (d_sys d)). change (y_max_attachments y2) with (y_max_attachments (d_sys d)).
  destruct (_ <=? y_nattachments (d_sys d)); [by apply Hleave|].
  change (y_attach y2) with (y_attach (d_sys d)).
  destruct (list_find _ _) as [[n a]|] eqn:Hfind; [|by apply Hleave].
  apply list_find_Some in Hfind as (Hfind & Hfree & Hfirst). apply lookup_take_Some in Hfind as [Ha Hmax].
  pose proof (lookup_lt_Some _ _ _ Ha) as Hn.
  assert (known_process d1 y2) as Hd2 by (unfold known_process; by rewrite Hpr).
  destruct (attach_station_ok d1 y2 (Z.to_nat stat_id) n s Hd2 Ht Hs Hn) as [[-> Hl]|(ps & -> & Hps)];
    [left; split; [done|by right; right]|].
  step. unfold leave_station. apply settles_sys. change (y_proc y2) with (y_proc (d_sys d)) in Hps.
  destruct (attached_ok (d_sys d) Q (Z.to_nat stat_id) n s a ps Hw Ht Hs Hu Ha Hfree Hps Hmu) as [G1 G2].
  unfold y2, y1. rewrite attached_unlock by done.
  split; [done|]. split; [done|]. intros _. exists n, s, ps. split_and!; try done.
  split; [by exists a|]. intros m b Hm Hb. apply (Hfirst m b); [|done]. apply lookup_take_Some. split; [done|lia].
Qed.
End Attach.

(** ** An attachment leaves *)

(** Changing a station, but not its lists. *)
Lemma tables_station y i f :
  (∀ s, length (s_att (f s)) = length (s_att s)) → tables y → tables (set_station y i f).
Proof.
  intros Hf (H1 & H2 & H3 & H4). unfold tables, set_station. fields. rewrite length_alter. split_and!; try done.
  rewrite list.Forall_forall in H3. apply list.Forall_forall. intros s [j Hj]%list_elem_of_lookup.
  destruct (decide (j = i)) as [->|Hne].
  - rewrite list_lookup_alter_eq in Hj. destruct (y_stats y !! i) as [s0|] eqn:Hs; [|done]. injection Hj as <-.
    rewrite Hf. by apply H3, (list_elem_of_lookup_2 _ i).
  - rewrite list_lookup_alter_ne in Hj by done. by apply H3, (list_elem_of_lookup_2 _ j).
Qed.

Section Leave.
  Context {K : Sparing} (F : list nat) (d : et_id) (att : Z) (Ha : 0 ≤ att) (HK : ¬ sparing att) (Hd : d_cleanup d ≠ 1).

Lemma status_keeps y i s v :
  y_stats y !! i = Some s → in_use s → v = ET_STATION_IDLE ∨ v = ET_STATION_ACTIVE →
  serial y i → i ≠ ET_GRANDCENTRAL → keeps y (set_station y i (λ s, s <| s_status := v |>)).
Proof.
  intros Hs Hu Hv (s1 & Hs1 & Hser) Hi. assert (s1 = s) as -> by congruence. split; try done.
  - unfold shape, set_station. fields. apply list_eq. intros j. rewrite !list_lookup_fmap.
    destruct (decide (j = i)) as [->|Hne]; [|by rewrite list_lookup_alter_ne].
    rewrite list_lookup_alter_eq, Hs. cbn [fmap option_fmap option_map]. f_equal. unfold shape_of. rewrite place_status by done.
    fields. by rewrite (proj2 (Z.eqb_neq _ _) Hser).
  - unfold is_active, set_station. fields. by rewrite list_lookup_alter_ne.
Qed.

Lemma status_tidy y Q i s v :
  wf y Q F → tables y → y_stats y !! i = Some s → in_use s → v = ET_STATION_IDLE ∨ v = ET_STATION_ACTIVE → i ≠ ET_GRANDCENTRAL → tidy F y i (set_station y i (λ s, s <| s_status := v |>)).
Proof.
  intros Hw Ht Hs Hu Hv Hi. split_and!; [exists Q; by apply wf_set|by apply tables_station| | |apply spared_refl].
  - apply alike_set. intros s1 Hs1. simplify_eq. by apply place_status.
  - intros Hser. by eapply status_keeps.
Qed.

(** The place of the attachment becomes free. *)
Definition gone (y : et_system) (a : et_attach) : et_system :=
  y <| y_attach := <[Z.to_nat att := a <| at_num := -1 |> <| at_status := ET_ATT_UNUSED |>]> (y_attach y) |>
    <| y_nattachments ::= λ n, n - 1 |>.

Lemma gone_tidy y Q a i : wf y Q F → tables y → tidy F y i (gone y a).
Proof.
  intros Hw (H1 & H2 & H3 & H4). assert (length (y_attach (gone y a)) = length (y_attach y)) as Hl by apply length_insert.
  split_and!; try done.
  - exists Q. by apply (wf_moved y).
  - unfold tables. rewrite Hl. by split_and!.
  - intros _. split; try done; [split; [done|]; unfold sizes; by rewrite Hl|].
    intros b n v j Hb H0 _ Hseat. unfold seats in *. unfold gone. fields. rewrite list_fmap_insert, list_lookup_insert_ne; [done|].
    intros E. assert (att = b) as -> by lia. done.
Qed.

Lemma make_idle_ok y Q i s :
  wf y Q F → tables y → y_stats y !! i = Some s → in_use s → i ≠ ET_GRANDCENTRAL → valid y att →
  c_restore_mode (s_config s) ≠ ET_STATION_RESTORE_REDIST →
  (make_idle d y att i = Blocked ∧ ¬ unlocked y) ∨ ∃ y', make_idle d y att i = Ret y' ∧ tidy F y i y'.
Proof.
  intros Hw Ht Hs Hu Hi Hv Hmode. unfold make_idle, unless_cleanup. rewrite (proj2 (Z.eqb_neq _ _) Hd).
  set (f := λ s : et_station, s <| s_status := ET_STATION_IDLE |>). assert (∀ s, s_mutex (f s) = s_mutex s) as Hf by done.
  destruct (with_transfer y i f Hf) as [(_ & y1 & -> & H)|[-> H]]; [right|by left].
  step. fold f. rewrite H by done. pose proof (status_tidy y Q i s ET_STATION_IDLE Hw Ht Hs Hu ltac:(by left) Hi) as Hst. fold f in Hst.
  pose proof Hst as ([Q1 Hw1] & Ht1 & _).
  assert (y_stats (set_station y i f) !! i = Some (f s)) as Hs1 by by apply lookup_set_station.
  destruct (et_flush_events_ok att ltac:(unfold ET_SYS; lia) HK (set_station y i f) Q1 F i (f s) Hw1 Hs1 Hv Hmode) as (y2 & -> & Hsafe).
  exists y2. split; [done|]. eapply tidy_trans; [exact Hst|]. by apply tidy_safe.
Qed.

(** The station no longer has the attachment. *)
Lemma forget_ok y Q i s :
  wf y Q F → tables y → y_stats y !! i = Some s → valid y att →
  ∃ l, aset (s_att s) att (-1) = Ret l ∧
    safe F y (set_station y i (λ ps, ps <| s_nattachments ::= λ n, n - 1 |> <| s_att := l |>)).
Proof.
  intros Hw (_ & _ & H3 & _) Hs Hv. unfold valid in Hv. rewrite list.Forall_forall in H3.
  specialize (H3 s (list_elem_of_lookup_2 _ _ _ Hs)). eexists. split; [by apply aset_ok; lia|].
  split; [exists Q; by apply wf_set|]. set (l := <[_ := _]> _). assert (length l = length (s_att s)) as Hl by apply length_insert.
  set (f := λ ps : et_station, _). rewrite (set_station_ext y i s f (λ _, f s) Hs) by done.
  change (keeps y (set_station y i (λ _, f s) <| y_events := y_events y |>)).
  apply keeps_station with s; [done| |done|apply spared_refl]. unfold shape_of, place_of, f. fields. by rewrite Hl.
Qed.

Lemma procs_tidy y Q i ps :
  wf y Q F → tables y → (λ p, length (p_att p)) <$> ps = (λ p, length (p_att p)) <$> y_proc y →
  tidy F y i (y <| y_proc := ps |>).
Proof.
  intros Hw (H1 & H2 & H3 & H4) Hps. split_and!; [| | | |apply spared_refl].
  - exists Q. by apply (wf_moved y).
  - split_and!; try done. fields. apply list.Forall_forall. intros p Hin.
    apply (list_elem_of_fmap_2 (λ p, length (p_att p))) in Hin. rewrite Hps in Hin.
    apply list_elem_of_fmap in Hin as (p0 & -> & Hin). rewrite list.Forall_forall in H4. by apply H4.
  - split_and!; [done|done| |done|done]. apply (f_equal length) in Hps. by rewrite !length_fmap in Hps.
  - intros _. apply keeps_same; try done. split; [done|]. unfold sizes. fields. by rewrite Hps.
Qed.

(** The mutexes that the caller holds meanwhile. *)
Definition with_mutexes (y : et_system) : et_system := y <| y_stat_mutex := true |> <| y_mutex := true |>.

Lemma tidy_mutexes y i y' :
  y_stat_mutex y = false → y_mutex y = false → tidy F (with_mutexes y) i y' →
  tidy F y i (et_station_unlock (et_system_unlock y')).
Proof.
  intros Hs Hm ([Q Hw] & Ht & Hal & Hk & Hsp). split_and!; [exists Q; by apply (wf_moved y')|done|done| |exact Hsp].
  intros Hser. destruct (Hk Hser) as [H1 H2 [H3 Hsz] H4 H5]. split; try done. split; [done|].
  unfold sizes in *. unfold et_station_unlock, et_system_unlock. fields. rewrite Hs, Hm. unfold with_mutexes in Hsz. revert Hsz. fields. congruence.
Qed.

Lemma detach_station_ok y Q i s :
  wf y Q F → tables y → known_process d y → y_stats y !! i = Some s → in_use s → valid y att →
  restorable (c_restore_mode (s_config s)) →
  (detach_station d y att i = Blocked ∧ ¬ unlocked y) ∨
  ∃ y', detach_station d y att i = Ret (et_station_unlock (et_system_unlock y')) ∧ tidy F y i y' ∧ disowned att y'.
Proof.
  intros Hw Ht Hd0 Hs Hu Hv Hmode. assert (att ≠ ET_SYS) as Hne by (unfold ET_SYS; lia). unfold detach_station, set_attachment.
  destruct (attachment_ok y att Hv) as [a Hatt]. rewrite Hatt. step.
  assert (0 ≤ att < Z.of_nat (length (y_attach y))) as Hv' by done. rewrite aset_ok by done. step.
  pose proof (gone_tidy y Q a i Hw Ht) as Hg. fold (gone y a). set (y1 := gone y a) in *. pose proof Hg as ([Q1 Hw1] & Ht1 & Hal1 & _).
  assert (valid y1 att) as Hv1 by (unfold valid; destruct Hal1 as (_ & -> & _); done).
  assert (y_stats y1 !! i = Some s) as Hs1 by done. unfold station. rewrite Hs1. step.
  set (r := if _ && _ then _ else _).
  assert ((r = Blocked ∧ ¬ unlocked y) ∨ ∃ y2, r = Ret y2 ∧ tidy F y1 i y2) as [[-> H]|(y2 & -> & Hi)]; [|by left|right].
  { unfold r. destruct (_ && _) eqn:E; [|right; exists y1; split; [done|apply tidy_safe; [done|by eapply safe_refl]]].
    apply andb_true_iff in E as [_ E]. apply negb_true_iff, Nat.eqb_neq in E.
    apply (make_idle_ok y1 Q1 i s); try done. destruct Hmode as [->|[->| ->]]; done. }
  step. pose proof Hi as ([Q2 Hw2] & Ht2 & Hal2 & _). destruct (alike_station _ _ _ _ Hal2 Hs1) as (s2 & Hs2 & Hc2).
  assert (is_Some (y_stats y2 !! ET_GRANDCENTRAL)) as Hgc.
  { apply lookup_lt_is_Some_2. apply lookup_lt_Some in Hs2. unfold ET_GRANDCENTRAL. lia. }
  apply place_config in Hc2.
  destruct (et_restore_events_ok att Hne HK y2 Q2 F i s2 Hw2 Hs2 Hgc) as (st & y3 & -> & Hsafe3 & Hdis); [by rewrite Hc2|].
  step. pose proof (tidy_safe F y2 i y3 Ht2 Hsafe3) as Hr. pose proof Hr as ([Q3 Hw3] & Ht3 & Hal3 & _).
  destruct (alike_station _ _ _ _ Hal3 Hs2) as (s3 & Hs3 & _). rewrite Hs3. step.
  assert (valid y3 att) as Hv3.
  { unfold valid in *. destruct Hal3 as (_ & -> & _), Hal2 as (_ & -> & _). done. }
  destruct (forget_ok y3 Q3 i s3 Hw3 Ht3 Hs3 Hv3) as (l & -> & Hf). step. set (y4 := set_station y3 i _) in *.
  pose proof (tidy_safe F y3 i y4 Ht3 Hf) as Hft. pose proof Hft as ([Q4 Hw4] & Ht4 & Hal4 & _).
  unfold unless_cleanup. rewrite (proj2 (Z.eqb_neq _ _) Hd).
  destruct (set_proc_ok d y4 att (-1) (-1)) as (ps & -> & Hps).
  { unfold known_process in *. destruct Hal4 as (_ & _ & -> & _), Hal3 as (_ & _ & -> & _), Hal2 as (_ & _ & -> & _). exact Hd0. }
  { destruct Hal4 as (_ & -> & _). exact Hv3. }
  { apply Ht4. }
  step. exists (y4 <| y_proc := ps |>). split; [done|]. split; [|exact Hdis].
  eapply tidy_trans; [exact Hg|]. eapply tidy_trans; [exact Hi|]. eapply tidy_trans; [exact Hr|].
  eapply tidy_trans; [exact Hft|]. by eapply procs_tidy.
Qed.

(** What detaching gives. *)
Definition parted (y : et_system) (i : nat) (st : Z) (out : option unit) (y' : et_system) : Prop :=
  tidy F y i y' ∧ (st ≠ ET_OK → y' = y) ∧ (st = ET_OK → disowned att y').

Lemma et_station_detach_ok Q i s :
  wf (d_sys d) Q F → tables (d_sys d) → known_process d (d_sys d) → seated (d_sys d) att i →
  y_stats (d_sys d) !! i = Some s → in_use s → restorable (c_restore_mode (s_config s)) →
  (et_station_detach d att = Blocked ∧ (et_memWrite_lock d = Blocked ∨ mutex_held (d_sys d))) ∨
  ∃ st y', et_station_detach d att = Ret (st, None, set_sys d y') ∧ parted (d_sys d) i st None y'.
Proof.
  intros Hw Ht Hd0 Hseat Hs Hused Hmode. unfold et_station_detach.
  assert (tidy F (d_sys d) i (d_sys d)) as Hsame by (apply tidy_safe; [done|by eapply safe_refl]).
  assert (∀ st, st ≠ ET_OK → parted (d_sys d) i st None (d_sys d)) as Hno by by split.
  destruct (_ || _); [right; exists ET_ERROR, (d_sys d); rewrite set_sys_id; split; [done|by apply Hno]|].
  destruct (negb _); [right; exists ET_ERROR_DEAD, (d_sys d); rewrite set_sys_id; split; [done|by apply Hno]|].
  unfold et_memWrite_lock. destruct (_ || _) eqn:E; [left; by split; [|left]|]. step.
  set (d1 := d <| d_mem := mkMem 0 true |>).
  assert (∀ y, et_mem_unlock (set_sys d1 y) = set_sys d y) as Hu.
  { intros y. apply orb_false_iff in E as [E1 E2]. apply Nat.ltb_ge in E2. unfold d1, et_mem_unlock, set_sys.
    destruct d as [? ? ? ? ? ? [rd wr] ?]. cbn in *. by replace rd with 0%nat by lia; subst. }
  assert (∀ st y, leave (set_sys d1 y) st (None : option unit) = Ret (st, None, set_sys d y)) as Hleave by (intros; unfold leave; by rewrite Hu).
  assert (leave d1 ET_ERROR (None : option unit) = Ret (ET_ERROR, None, set_sys d (d_sys d))) as Hleave1.
  { rewrite <- Hleave. by destruct d. }
  assert (leave d1 ET_ERROR_CLOSED (None : option unit) = Ret (ET_ERROR_CLOSED, None, set_sys d (d_sys d))) as Hleave2.
  { rewrite <- Hleave. by destruct d. }
  destruct (d_closed d1); [right; exists ET_ERROR_CLOSED, (d_sys d); split; [done|by apply Hno]|].
  cbn zeta. change (d_sys d1) with (d_sys d).
  destruct (_ <=? att); [right; exists ET_ERROR, (d_sys d); split; [done|by apply Hno]|].
  unfold unless_cleanup. change (d_cleanup d1) with (d_cleanup d). rewrite (proj2 (Z.eqb_neq _ _) Hd).
  unfold et_station_lock. destruct (y_stat_mutex (d_sys d)) eqn:Hsm; [left; split; [done|right; by left]|]. step.
  set (y1 := d_sys d <| y_stat_mutex := true |>).
  destruct (seated_attachment _ _ _ Hseat) as (a & s0 & Hatt & Hst & _).
  assert (attachment y1 att = Ret a) as -> by done. step. rewrite Hst.
  replace (Z.of_nat i <? 0) with false by (symmetry; apply Z.ltb_ge; lia). rewrite Nat2Z.id.
  unfold et_system_lock. change (y_mutex y1) with (y_mutex (d_sys d)).
  destruct (y_mutex (d_sys d)) eqn:Hmu; [left; split; [done|right; right; by left]|]. step.
  set (y2 := with_mutexes (d_sys d)). change (y1 <| y_mutex := true |>) with y2.
  assert (wf y2 Q F) as Hw2 by by apply (wf_moved (d_sys d)).
  assert (∀ att i, detach_station d1 y2 att i = detach_station d y2 att i) as -> by done.
  destruct (detach_station_ok y2 Q i s Hw2 Ht Hd0 Hs Hused (seated_valid _ _ _ Hseat) Hmode) as [[-> H]|(y3 & -> & H1 & H2)];
    [left; split; [done|by right; right; right]|]. step.
  right. exists ET_OK, (et_station_unlock (et_system_unlock y3)). split; [done|]. split; [by apply tidy_mutexes|]. split; [done|].
  intros _. exact H2.
Qed.
End Leave.
