(* ===== verification/EtPlaceSpec.v ===== *)
(** * Stations come and go

    [placed y G]: the stations in use are GrandCentral and those of the groups [G], which
    the chains of the system are made of; all others are unused.  Creating, removing and
    moving stations keep this, and what was in the lists stays there. *)

From S2P Require Import Prelude Words CString EtTypes EtLists EtSegments EtListSpec EtStationSpec EtConductor EtChains EtChainSpec.
From S2P Require Import EtInsertSpec EtSystemInv EtConductorSpec EtAccess EtWaiting EtDetached EtStatConfig EtSteps EtWaitSpec EtStations.
From S2P Require Import EtCallSpec EtAttachSpec.

(** ** The invariant *)

Record placed (y : et_system) (G : list (list nat)) : Prop := Placed {
  pl_chained : chained y G;
  pl_count : y_nstations y = Z.of_nat (length (concat G)) + 1;
  pl_phase i s : y_stats y !! i = Some s →
    phase s = if decide (i ∈ ET_GRANDCENTRAL :: concat G) then ET_STATION_IDLE else ET_STATION_UNUSED;
  pl_small : Z.of_nat (length (y_attach y)) <= ET_ATTACHMENTS_MAX
}.

Lemma pl_used y G i s : placed y G → y_stats y !! i = Some s → i ∈ ET_GRANDCENTRAL :: concat G → in_use s.
Proof. intros H Hs Hi. apply phase_used. rewrite (pl_phase _ _ H i s Hs). by rewrite decide_True. Qed.

Lemma pl_unused y G i s : placed y G → y_stats y !! i = Some s → i ∉ ET_GRANDCENTRAL :: concat G → s_status s = ET_STATION_UNUSED.
Proof. intros H Hs Hi. apply phase_unused. rewrite (pl_phase _ _ H i s Hs). by rewrite decide_False. Qed.

(** What the chains are made of. *)
Definition links_of (s : et_station) : Z * (Z * Z * Z * Z) * et_stat_config :=
  (s_num s, (s_prev s, s_next s, s_prevparallel s, s_nextparallel s), s_config s).
Definition linked_as (y y' : et_system) : Prop :=
  links_of <$> y_stats y' = links_of <$> y_stats y ∧ y_stat_tail y' = y_stat_tail y.

Lemma linked_fld {A} (F : et_station → A) y y' k :
  (∀ s s', links_of s' = links_of s → F s' = F s) → linked_as y y' → fld F y' k = fld F y k.
Proof.
  intros HF [H _]. apply (f_equal (λ l, l !! k)) in H. rewrite !list_lookup_fmap in H. unfold fld.
  destruct (y_stats y' !! k) as [s'|], (y_stats y !! k) as [s|]; try done. injection H as H.
  change (Some (F s') = Some (F s)). f_equal. apply HF. unfold links_of. congruence.
Qed.

Lemma linked_sym y y' : linked_as y y' → linked_as y' y.
Proof. intros [H1 H2]. by split. Qed.

(** Only the stations of the chains matter. *)
Lemma chained_frame y y' G :
  (∀ k, k ∈ ET_GRANDCENTRAL :: concat G → fld links_of y' k = fld links_of y k) → y_stat_tail y' = y_stat_tail y →
  chained y G → chained y' G.
Proof.
  intros Hf Ht H. pose proof (chained_nonempty _ _ H) as Hne.
  assert (∀ {A} (F : et_station → A) k, (∀ s s', links_of s' = links_of s → F s' = F s) →
    k ∈ ET_GRANDCENTRAL :: concat G → fld F y' k = fld F y k) as E.
  { intros A F k HF Hk. specialize (Hf k Hk). unfold fld in *.
    destruct (y_stats y' !! k) as [s'|], (y_stats y !! k) as [s|]; try done. injection Hf as Hf.
    change (Some (F s') = Some (F s)). f_equal. apply HF. unfold links_of. congruence. }
  assert (∀ k, k ∈ ET_GRANDCENTRAL :: heads G → k ∈ ET_GRANDCENTRAL :: concat G) as Hh.
  { intros k. rewrite !elem_of_cons. intros [?|?]; [by left|right]. by apply elem_of_heads. }
  split.
  - eapply dseg_frame; [|apply H]. intros k Hk. split; apply E; auto; unfold links_of; congruence.
  - eapply groups_frame; [|apply H]. intros k Hk. split; apply E; try (by right); unfold links_of; congruence.
  - pose proof (ch_parallel _ _ H) as Hp. rewrite list.Forall_forall in *. intros g Hg Hlen. specialize (Hp g Hg Hlen).
    rewrite list.Forall_forall in *. intros k Hk. unfold parallel. rewrite (E _ s_config k); [by apply Hp|unfold links_of; congruence|].
    right. apply list_elem_of_In, in_concat. exists g. by rewrite <- !list_elem_of_In.
  - pose proof (ch_members _ _ H) as Hm. rewrite list.Forall_forall in *. intros k Hk. rewrite (E _ s_prev k); [by apply Hm|unfold links_of; congruence|].
    right. by apply elem_of_members.
  - apply H.
  - pose proof (ch_nums _ _ H) as Hn. rewrite list.Forall_forall in *. intros k Hk. rewrite (E _ s_num k); [by apply Hn|unfold links_of; congruence|done].
  - rewrite Ht. apply H.
Qed.

Lemma chained_linked y y' G : linked_as y y' → chained y G → chained y' G.
Proof. intros Hl. apply chained_frame; [|apply Hl]. intros k _. by apply linked_fld. Qed.

Lemma linked_set y i f : (∀ s, y_stats y !! i = Some s → links_of (f s) = links_of s) → linked_as y (set_station y i f).
Proof.
  intros Hf. split; [|done]. unfold set_station. fields. apply list_eq. intros j. rewrite !list_lookup_fmap.
  destruct (decide (j = i)) as [->|Hne]; [|by rewrite list_lookup_alter_ne].
  rewrite list_lookup_alter_eq. destruct (y_stats y !! i) as [s|]; [|done]. cbn. by rewrite Hf.
Qed.

Lemma alike_linked y y' : alike y y' → linked_as y y'.
Proof.
  intros (H & _ & _ & _ & Ht). split; [|done]. apply list_eq. intros j. apply (f_equal (λ l, l !! j)) in H.
  rewrite !list_lookup_fmap in *. destruct (y_stats y' !! j), (y_stats y !! j); try done. injection H. unfold links_of. cbn. congruence.
Qed.

Lemma alike_sym y y' : alike y y' → alike y' y.
Proof. intros (?&?&?&?&?). by split_and!. Qed.

Lemma placed_alike y y' G : alike y y' → placed y G → placed y' G.
Proof.
  intros Hal H. split.
  - eapply chained_linked; [by apply alike_linked|apply H].
  - destruct Hal as (_ & _ & _ & -> & _). apply H.
  - intros i s' Hs'. destruct (alike_station _ _ _ _ (alike_sym _ _ Hal) Hs') as (s & Hs & E%place_phase).
    rewrite <- (pl_phase _ _ H i s Hs). done.
  - destruct Hal as (_ & -> & _). apply H.
Qed.

(** ** Changes that leave lists and tables alone *)

Record rehoused (y y' : et_system) : Prop := Rehoused {
  rh_events : y_events y' = y_events y;
  rh_lists : lists y' = lists y;
  rh_att : (λ s, length (s_att s)) <$> y_stats y' = (λ s, length (s_att s)) <$> y_stats y;
  rh_sizes : (y_nevents y', y_histogram y', y_max_stations y', y_max_attachments y') =
             (y_nevents y, y_histogram y, y_max_stations y, y_max_attachments y);
  rh_attach : y_attach y' = y_attach y;
  rh_proc : y_proc y' = y_proc y
}.

Lemma rehoused_refl y : rehoused y y.
Proof. by split. Qed.

Lemma rehoused_trans y1 y2 y3 : rehoused y1 y2 → rehoused y2 y3 → rehoused y1 y3.
Proof. intros [] []. split; congruence. Qed.

Lemma rehoused_length y y' : rehoused y y' → length (y_stats y') = length (y_stats y).
Proof. intros H. pose proof (f_equal length (rh_att _ _ H)) as E. by rewrite !length_fmap in E. Qed.

Lemma rehoused_wf y y' Q F : rehoused y y' → wf y Q F → wf y' Q F.
Proof.
  intros H. pose proof (rehoused_length _ _ H) as Hl. destruct H as [H1 H2 _ H4 H5 _]. injection H4 as H4 H6 _ _.
  apply wf_moved; congruence.
Qed.

Lemma rehoused_tables y y' : rehoused y y' → tables y → tables y'.
Proof.
  intros H (H1 & H2 & H3 & H4). pose proof (rehoused_length _ _ H) as Hl. destruct H as [_ _ Hat Hsz Ha Hp].
  injection Hsz as _ _ E1 E2. unfold tables. rewrite Ha, Hp, Hl, E1, E2. split_and!; try done.
  apply list.Forall_forall. intros s' Hin. apply (list_elem_of_fmap_2 (λ s, length (s_att s))) in Hin. rewrite Hat in Hin.
  apply list_elem_of_fmap in Hin as (s & -> & Hin). rewrite list.Forall_forall in H3. by apply H3.
Qed.

Lemma relinks_fmap {A} (F : et_station → A) y y' :
  (∀ s, F (unlinked s) = F s) → relinks y y' → F <$> y_stats y' = F <$> y_stats y.
Proof.
  intros HF [H _]. apply (f_equal (fmap F)) in H. rewrite <- !list_fmap_compose in H.
  assert (∀ l, (F ∘ unlinked) <$> l = F <$> l) as E by (intros l; apply list_fmap_ext; intros; apply HF).
  by rewrite !E in H.
Qed.

Lemma relinks_rehoused y y' : relinks y y' → rehoused y y'.
Proof.
  intros H. pose proof H as [_ E].
  split; try (rewrite E; by destruct y).
  - unfold lists. by rewrite (relinks_fmap s_in y y'), (relinks_fmap s_out y y').
  - by apply (relinks_fmap (λ s, length (s_att s))).
Qed.

Lemma set_rehoused y i f :
  (∀ s, y_stats y !! i = Some s → (s_in (f s), s_out (f s), length (s_att (f s))) = (s_in s, s_out s, length (s_att s))) →
  rehoused y (set_station y i f).
Proof.
  intros Hf. assert (∀ A (F : et_station → A), (∀ s, y_stats y !! i = Some s → F (f s) = F s) →
    F <$> alter f i (y_stats y) = F <$> y_stats y) as E.
  { intros A F HF. apply list_eq. intros j. rewrite !list_lookup_fmap. destruct (decide (j = i)) as [->|Hne].
    - rewrite list_lookup_alter_eq. destruct (y_stats y !! i) as [s|]; [|done]. cbn. by rewrite HF.
    - by rewrite list_lookup_alter_ne. }
  split; try done.
  - unfold lists, set_station. fields. by rewrite !E by (intros s Hs; specialize (Hf s Hs); congruence).
  - unfold set_station. fields. apply E. intros s Hs. specialize (Hf s Hs). congruence.
Qed.

Lemma all_rehoused y f :
  (∀ s, (s_in (f s), s_out (f s), length (s_att (f s))) = (s_in s, s_out s, length (s_att s))) →
  rehoused y (y <| y_stats ::= fmap f |>).
Proof.
  intros Hf. split; try done; unfold lists; fields; rewrite <- !list_fmap_compose.
  - f_equal; apply list_fmap_ext; intros k s _; cbn; specialize (Hf s); congruence.
  - apply list_fmap_ext. intros k s _. cbn. specialize (Hf s). congruence.
Qed.

(** ** Removal *)

Lemma concat_without i G : concat (without i G) = filter (λ k, k ≠ i) (concat G).
Proof.
  induction G as [|g G IH]; [done|]. change (g :: G) with ([g] ++ G). rewrite without_app, !concat_app, list.filter_app, IH.
  f_equal. unfold without. cbn [fmap list_fmap concat]. rewrite app_nil_r.
  destruct (filter (λ k, k ≠ i) g) eqn:E; [by rewrite filter_cons_False by (intros H; by apply H)|].
  rewrite filter_cons_True by done. cbn. by rewrite app_nil_r.
Qed.

Lemma length_without i G :
  NoDup (concat G) → i ∈ concat G → S (length (concat (without i G))) = length (concat G).
Proof.
  intros Hnd (l1 & l2 & E)%list_elem_of_split. rewrite concat_without, E in *.
  apply list.NoDup_app in Hnd as (_ & H1 & [H2 _]%list.NoDup_cons).
  assert (i ∉ l1) as H3 by (intros H; apply (H1 i H); by left).
  rewrite list.filter_app, filter_cons_False, !filter_others by (done || (intros H; by apply H)).
  rewrite !length_app. cbn. lia.
Qed.

Lemma elem_of_without i j G : j ∈ concat (without i G) ↔ j ∈ concat G ∧ j ≠ i.
Proof. rewrite concat_without, list_elem_of_filter. tauto. Qed.

(** All stations have their mutex taken. *)
Definition all_locked (y : et_system) : et_system := y <| y_stats ::= fmap (λ s, s <| s_mutex := true |>) |>.

Lemma locked_linked y f : (∀ s, links_of (f s) = links_of s) → linked_as y (y <| y_stats ::= fmap f |>).
Proof. intros Hf. split; [|done]. fields. rewrite <- list_fmap_compose. apply list_fmap_ext. intros k s _. apply Hf. Qed.

Lemma linked_trans y1 y2 y3 : linked_as y1 y2 → linked_as y2 y3 → linked_as y1 y3.
Proof. intros [] []. split; congruence. Qed.

Lemma relinks_phase y y' : relinks y y' → phase <$> y_stats y' = phase <$> y_stats y.
Proof. by apply relinks_fmap. Qed.

(** The phases that [placed] asks for. *)
Definition phased (y : et_system) (G : list (list nat)) : Prop :=
  phase <$> y_stats y =
  (λ i, if decide (i ∈ ET_GRANDCENTRAL :: concat G) then ET_STATION_IDLE else ET_STATION_UNUSED) <$> seq 0 (length (y_stats y)).

Lemma phased_spec y G : phased y G ↔
  ∀ i s, y_stats y !! i = Some s →
    phase s = if decide (i ∈ ET_GRANDCENTRAL :: concat G) then ET_STATION_IDLE else ET_STATION_UNUSED.
Proof.
  unfold phased. split.
  - intros H i s Hs. apply (f_equal (λ l, l !! i)) in H. rewrite !list_lookup_fmap, Hs, lookup_seq_lt in H by by eapply lookup_lt_Some.
    by injection H.
  - intros H. apply list_eq. intros i. rewrite !list_lookup_fmap. destruct (y_stats y !! i) as [s|] eqn:Hs.
    + rewrite lookup_seq_lt by by eapply lookup_lt_Some. cbn. by rewrite (H i s Hs).
    + apply lookup_ge_None in Hs. rewrite lookup_seq_ge by done. done.
Qed.

Section Remove.
  Context {K : Sparing} (F : list nat) (others : nat → et_system → et_system) (Hcalm : ∀ k, Calm (others k)).

(** What stays when a station is removed. *)
Definition tidied (y y' : et_system) : Prop :=
  (∃ Q, wf y' Q F) ∧ tables y' ∧ unlocked y' ∧ spared (y_events y) (y_events y').

(** The chains of the system that the caller stopped, without the station [i]. *)
Lemma cut_out y G i :
  placed y G → unlocked y → i ∈ concat G →
  ∃ y', station_remove (all_locked y) i = Ret y' ∧
    rehoused y y' ∧ relinks (all_locked y) y' ∧ chained y' (without i G).
Proof.
  intros H Hu Hi. assert (chained (all_locked y) G) as Hc.
  { eapply chained_linked; [|apply H]. by apply locked_linked. }
  destruct (station_remove_ok (all_locked y) G i Hc Hi) as (y' & -> & Hr & Hc'). exists y'. split_and!; try done.
  eapply rehoused_trans; [|by apply relinks_rehoused]. by apply all_rehoused.
Qed.

(** What the conductors may do while the station [i] is no longer in the chains. *)
Lemma others_work y i s :
  (∃ Q, wf y Q F) → y_stats y !! i = Some s →
  ∃ y' s', (ps ← station (others 0%nat y) i;
            let y1 := if 0 <? li_cnt (s_out ps) then others 1%nat (others 0%nat y) else others 0%nat y in
            ps ← station y1 i; Ret (y1, ps)) = Ret (y', s') ∧
    (∃ Q, wf y' Q F) ∧ keeps y y' ∧ y_stats y' !! i = Some s'.
Proof.
  intros [Q Hw] Hs. destruct (Hcalm 0) as [H0]. destruct (H0 y Q F Hw) as [[Q1 Hw1] Hk1].
  destruct (keeps_lookup _ _ _ _ Hk1 Hs) as (s1 & Hs1 & _). unfold station. rewrite Hs1. step.
  destruct (0 <? _).
  - destruct (Hcalm 1) as [H1]. destruct (H1 _ Q1 F Hw1) as [Hw2 Hk2].
    destruct (keeps_lookup _ _ _ _ Hk2 Hs1) as (s2 & Hs2 & _). rewrite Hs2. step.
    eexists _, s2. split_and!; [done|done|by eapply keeps_trans|done].
  - rewrite Hs1. step. eexists _, s1. split_and!; [done|by exists Q1|done|done].
Qed.

(** The station becomes unused, and the transfers go on. *)
Definition retire (y : et_system) (i : nat) (s : et_station) : et_system :=
  et_station_unlock (et_transfer_unlock_all
    (set_station y i (λ _, s <| s_mutex := true |> <| s_conductor := ET_THREAD_KILL |> <| s_status := ET_STATION_UNUSED |>))
    <| y_nstations ::= λ n, n - 1 |>).

Lemma retire_lookup y i s k :
  y_stats y !! i = Some s →
  y_stats (retire y i s) !! k =
    if decide (k = i) then Some (s <| s_mutex := false |> <| s_conductor := ET_THREAD_KILL |> <| s_status := ET_STATION_UNUSED |>)
    else et_transfer_unlock <$> y_stats y !! k.
Proof.
  intros Hs. change (y_stats (retire y i s)) with (et_transfer_unlock <$> alter (λ _,
    s <| s_mutex := true |> <| s_conductor := ET_THREAD_KILL |> <| s_status := ET_STATION_UNUSED |>) i (y_stats y)).
  rewrite list_lookup_fmap. case_decide as Hk.
  - rewrite Hk, list_lookup_alter_eq, Hs. done.
  - by rewrite list_lookup_alter_ne.
Qed.

Lemma retire_rehoused y i s : y_stats y !! i = Some s → rehoused y (retire y i s).
Proof.
  intros Hs. eapply rehoused_trans; [apply (set_rehoused y i (λ _,
    s <| s_mutex := true |> <| s_conductor := ET_THREAD_KILL |> <| s_status := ET_STATION_UNUSED |>))|]; [|split; try done].
  - intros s' Hs'. assert (s' = s) as -> by congruence. reflexivity.
  - unfold lists, retire. fields. unfold et_station_unlock, et_transfer_unlock_all. fields. rewrite <- !list_fmap_compose. done.
  - unfold retire, et_station_unlock, et_transfer_unlock_all. fields. rewrite <- !list_fmap_compose. done.
Qed.

Lemma retire_linked y i s : y_stats y !! i = Some s → linked_as y (retire y i s).
Proof.
  intros Hs. split; [|done]. apply list_eq. intros k. rewrite !list_lookup_fmap, (retire_lookup _ _ _ _ Hs).
  destruct (decide (k = i)) as [->|]; [by rewrite Hs|]. by destruct (y_stats y !! k).
Qed.

Lemma retire_unlocked y i s : y_stats y !! i = Some s → unlocked (retire y i s).
Proof.
  intros Hs. apply list.Forall_forall. intros s' [k Hk]%list_elem_of_lookup. rewrite (retire_lookup _ _ _ _ Hs) in Hk.
  destruct (decide (k = i)); [by injection Hk as <-|]. destruct (y_stats y !! k); [|done]. by injection Hk as <-.
Qed.

(** The system [y5] with the chains of [y2], in which the station [i] is on its own. *)
Lemma retire_placed y G i y2 y5 s5 :
  placed y G → i ∈ concat G → relinks (all_locked y) y2 → chained y2 (without i G) →
  alike (set_station y2 i et_transfer_unlock) y5 → y_stats y5 !! i = Some s5 →
  placed (retire y5 i s5) (without i G).
Proof.
  intros H Hi Hr Hc Hal Hs5. pose proof (ch_nodup _ _ (pl_chained _ _ H)) as Hnd. apply list.NoDup_cons in Hnd as [Hgc Hnd].
  assert (linked_as y2 y5) as Hl2.
  { eapply linked_trans; [|by apply alike_linked]. by apply linked_set. }
  split.
  - eapply chained_linked; [|exact Hc]. eapply linked_trans; [exact Hl2|by apply retire_linked].
  - change (y_nstations (retire y5 i s5)) with (y_nstations y5 - 1). destruct Hal as (_ & _ & _ & -> & _).
    change (y_nstations (set_station y2 i et_transfer_unlock)) with (y_nstations y2).
    destruct Hr as [_ E]. rewrite E. change (y_nstations y - 1 = Z.of_nat (length (concat (without i G))) + 1).
    rewrite (pl_count _ _ H). pose proof (length_without i G Hnd Hi). lia.
  - intros k s Hk. rewrite (retire_lookup _ _ _ _ Hs5) in Hk. destruct (decide (k = i)) as [->|Hne].
    + injection Hk as <-. rewrite decide_False; [done|]. rewrite elem_of_cons, elem_of_without.
      intros [->|[_ ?]]; done.
    + destruct (y_stats y5 !! k) as [s1|] eqn:Hs1; [|done]. injection Hk as <-.
      change (phase s1 = if decide (k ∈ ET_GRANDCENTRAL :: concat (without i G)) then ET_STATION_IDLE else ET_STATION_UNUSED).
      destruct (alike_station _ _ _ _ (alike_sym _ _ Hal) Hs1) as (s2 & Hs2 & <-%place_phase).
      change (alter et_transfer_unlock i (y_stats y2) !! k = Some s2) in Hs2. rewrite list_lookup_alter_ne in Hs2 by done.
      pose proof (relinks_phase _ _ Hr) as Hp. apply (f_equal (λ l, l !! k)) in Hp.
      rewrite !list_lookup_fmap, Hs2 in Hp. change (y_stats (all_locked y)) with ((λ s, s <| s_mutex := true |>) <$> y_stats y) in Hp.
      rewrite list_lookup_fmap in Hp. destruct (y_stats y !! k) as [s0|] eqn:Hs0; [|done].
      injection Hp as Hp. rewrite Hp. change (phase (s0 <| s_mutex := true |>)) with (phase s0).
      rewrite (pl_phase _ _ H k s0 Hs0). apply decide_ext. rewrite !elem_of_cons, elem_of_without. tauto.
  - change (y_attach (retire y5 i s5)) with (y_attach y5). destruct Hal as (_ & -> & _).
    destruct Hr as [_ E]. change (y_attach (set_station y2 i et_transfer_unlock)) with (y_attach y2). rewrite E. apply H.
Qed.

Definition removed (y : et_system) (G : list (list nat)) (i : nat) (st : Z) (out : option unit) (y' : et_system) : Prop :=
  (∃ Q, wf y' Q F) ∧ tables y' ∧ spared (y_events y) (y_events y') ∧ (st ≠ ET_OK → y' = y) ∧
  (st = ET_OK → placed y' (without i G) ∧ unlocked y' ∧ ∃ s, y_stats y !! i = Some s ∧ s_nattachments s ≤ 0).

(** With the mutexes of stations. *)
Lemma take_out y Q G i s :
  wf y Q F → tables y → placed y G → unlocked y → y_stat_mutex y = true → i ∈ concat G →
  y_stats y !! i = Some s → s_nattachments s ≤ 0 →
  ∃ y', (y ← station_remove (all_locked y) i;
         let y := others 0%nat (set_station y i et_transfer_unlock) in
         ps ← station y i;
         let y := if 0 <? li_cnt (s_out ps) then others 1%nat y else y in
         ps ← station y i;
         ps ← et_transfer_lock ps;
         let y := set_station y i (λ _, ps <| s_conductor := ET_THREAD_KILL |> <| s_status := ET_STATION_UNUSED |>) in
         Ret (et_station_unlock (et_transfer_unlock_all y <| y_nstations ::= λ n, n - 1 |>))) = Ret y' ∧
    (∃ Q, wf y' Q F) ∧ tables y' ∧ spared (y_events y) (y_events y') ∧ placed y' (without i G) ∧ unlocked y'.
Proof.
  intros Hw Ht Hp Hu Hm Hi Hs Hn. destruct (cut_out y G i Hp Hu Hi) as (y2 & -> & Hre & Hrl & Hc). step. cbn zeta.
  set (y3 := set_station y2 i et_transfer_unlock). assert (rehoused y2 y3) as Hre3 by by apply set_rehoused.
  pose proof (rehoused_trans _ _ _ Hre Hre3) as Hre13. pose proof (rehoused_wf _ _ _ _ Hre13 Hw) as Hw3.
  assert (∃ s2, y_stats y2 !! i = Some s2) as [s2 Hs2].
  { apply lookup_lt_is_Some_2. rewrite (rehoused_length _ _ Hre). by eapply lookup_lt_Some. }
  assert (y_stats y3 !! i = Some (et_transfer_unlock s2)) as Hs3 by by apply lookup_set_station.
  destruct (others_work y3 i _ (ex_intro _ Q Hw3) Hs3) as (y5 & s5 & Hrun & [Q5 Hw5] & Hk & Hs5). cbn zeta in Hrun.
  destruct (station (others 0%nat y3) i) as [ps| | |]; [|done..]. revert Hrun. cbn [mbind res_bind].
  set (y4 := if _ <? _ then _ else _). destruct (station y4 i) as [ps4| | |]; [|done..]. cbn [mbind res_bind].
  intros [= E4 E5]. subst y4. rewrite E4, E5. clear ps4 E5 E4.
  destruct (keeps_lookup _ _ _ _ Hk Hs3) as (s5' & Hs5' & Hsh). assert (s5' = s5) as -> by congruence.
  assert (s_mutex s5 = false) as Hmu by (unfold shape_of in Hsh; change (s_mutex (et_transfer_unlock s2)) with false in Hsh; congruence).
  unfold et_transfer_lock. rewrite Hmu. step. exists (retire y5 i s5). split; [done|].
  pose proof (retire_rehoused _ _ _ Hs5) as Hre5.
  split_and!.
  - exists Q5. by eapply rehoused_wf.
  - eapply rehoused_tables; [exact Hre5|]. eapply tables_keeps; [exact Hk|]. by eapply rehoused_tables.
  - rewrite (rh_events _ _ Hre5), <- (rh_events _ _ Hre13). apply Hk.
  - eapply (retire_placed y G i y2); try done. by apply keeps_alike.
  - by apply retire_unlocked.
Qed.

(** Somebody stops the changes of stations, or a conductor is at work. *)
Definition stations_busy (y : et_system) : Prop := y_stat_mutex y = true ∨ ¬ unlocked y.

Lemma lock_all_cases y : (unlocked y ∧ et_transfer_lock_all y = Ret (all_locked y)) ∨ (et_transfer_lock_all y = Blocked ∧ ¬ unlocked y).
Proof.
  destruct (decide (unlocked y)) as [Hu|Hu]; [left; split; [done|by apply transfer_lock_all_ok]|].
  right. split; [|done]. destruct (mapM_lock (y_stats y)) as [H|H]; [done|]. unfold et_transfer_lock_all. by rewrite H.
Qed.

Lemma et_station_remove_ok d stat_id Q G :
  wf (d_sys d) Q F → tables (d_sys d) → placed (d_sys d) G → Z.to_nat stat_id ∈ concat G →
  returns d (et_station_remove others d stat_id) (stations_busy (d_sys d)) (removed (d_sys d) G (Z.to_nat stat_id)).
Proof.
  intros Hw Ht Hp Hi. unfold et_station_remove.
  assert (∀ st, st ≠ ET_OK → removed (d_sys d) G (Z.to_nat stat_id) st None (d_sys d)) as Hno.
  { intros st Hst. split_and!; try done; by exists Q. }
  destruct (_ || _) eqn:E1; [by apply returns_same, Hno|]. apply orb_false_iff in E1 as [E1 _].
  apply with_memory_ok; [intros _; by apply Hno..|]. intros d1 Hd1 _ _. cbn zeta. rewrite Hd1.
  destruct (_ <=? stat_id) eqn:E2; [apply settles_leave; rewrite Hd1; by apply Hno|].
  unfold et_station_lock. destruct (y_stat_mutex (d_sys d)) eqn:Hsm; [left; split; [done|by left]|]. step.
  set (y1 := d_sys d <| y_stat_mutex := true |>).
  destruct (lookup_lt_is_Some_2 (y_stats (d_sys d)) (Z.to_nat stat_id)) as [s Hs]; [destruct Ht as [Ht _]; lia|].
  assert (station y1 (Z.to_nat stat_id) = Ret s) as -> by (unfold station, y1; fields; by rewrite Hs). step.
  destruct (0 <? s_nattachments s) eqn:Hn.
  { unfold leave_station. apply settles_sys. unfold y1. rewrite unlock_locked by done. by apply Hno. }
  destruct (lock_all_cases y1) as [[Hu ->]|[-> Hu]]; [|left; split; [done|by right]]. step.
  assert (wf y1 Q F) as Hw1 by by apply (wf_moved (d_sys d)).
  assert (alike (d_sys d) y1) as Hal by by split_and!.
  destruct (take_out y1 Q G (Z.to_nat stat_id) s Hw1 Ht (placed_alike _ _ _ Hal Hp) Hu eq_refl Hi Hs ltac:(lia))
    as (y' & Hr & G1 & G2 & G3 & G4 & G5).
  destruct (station_remove (all_locked y1) _) as [y2| | |]; [|done..]. revert Hr. cbn [mbind res_bind]. cbn zeta.
  destruct (station _ _) as [ps| | |]; [|done..]. cbn [mbind res_bind].
  destruct (station _ _) as [ps2| | |]; [|done..]. cbn [mbind res_bind].
  destruct (et_transfer_lock ps2) as [ps3| | |]; [|done..]. cbn [mbind res_bind]. intros [= <-].
  unfold leave_station. apply settles_sys. split_and!; try done. intros _. split_and!; try done. exists s. split; [done|lia].
Qed.
End Remove.
