(* ===== verification/EtCreateSpec.v ===== *)
(** * New stations

    A new station gets the first unused place of the array, a conductor, and the place in
    the chains that the caller asks for.  When its conductor does not start or the place is
    refused it is unused again.  What was in the lists of the unused station is lost. *)

From S2P Require Import Prelude Words CString EtTypes EtLists EtSegments EtListSpec EtStationSpec EtConductor EtChains EtChainSpec.
From S2P Require Import EtInsertSpec EtSystemInv EtConductorSpec EtAccess EtWaiting EtDetached EtStatConfig EtSteps EtWaitSpec EtStations.
From S2P Require Import EtCallSpec EtAttachSpec EtPlaceSpec.

(** ** Initialising a station *)

(** The station has empty lists and the mutexes of [s]. *)
Definition blank (s s' : et_station) : Prop :=
  s_in s' = et_init_llist (s_in s) ∧ s_out s' = et_init_llist (s_out s) ∧ s_mutex s' = s_mutex s ∧
  length (s_att s') = Z.to_nat ET_ATTACHMENTS_MAX.

Lemma init_blank s : blank s (et_init_station s).
Proof. by split_and!. Qed.

Lemma init_llist_id pl : et_init_llist (et_init_llist pl) = et_init_llist pl.
Proof. done. Qed.

Lemma in_list_none m pl q : in_list m pl q → li_cnt pl = 0 → q = [].
Proof. intros [Hc _] H. destruct q; [done|]. cbn in Hc. lia. Qed.

Lemma in_list_init m pl : in_list m (et_init_llist pl) [].
Proof. split; [done|]. split; try done; constructor. Qed.

Lemma init_wf y Q F i s f :
  wf y Q F → y_stats y !! i = Some s → li_cnt (s_in s) = 0 → li_cnt (s_out s) = 0 → blank s (f s) →
  wf (set_station y i f) Q F.
Proof.
  intros Hw Hs H1 H2 (E1 & E2 & _). set (y' := set_station y i f).
  destruct (wf_list _ _ _ _ _ Hw Hs) as (q1 & Hq1 & Hin1 & Hl1). destruct (wf_out _ _ _ _ _ Hw Hs) as (q2 & Hq2 & [Hin2 _] & Hl2).
  apply in_list_none in Hin1 as ->; [|done]. apply in_list_none in Hin2 as ->; [|done].
  assert (lists y' = <[out_place y i := s_out (f s)]> (<[i := s_in (f s)]> (lists y))) as Hl.
  { unfold lists, y', set_station. fields.
    rewrite (list_fmap_alter_to s_in f (y_stats y) i (s_in (f s))) by (eauto || (intros; by simplify_eq)).
    rewrite (list_fmap_alter_to s_out f (y_stats y) i (s_out (f s))) by (eauto || (intros; by simplify_eq)).
    rewrite insert_app_l by (rewrite length_fmap; by eapply lookup_lt_Some).
    rewrite <- (length_fmap s_in (y_stats y)), <- (length_insert (s_in <$> y_stats y) i (s_in (f s))) at 1.
    by rewrite insert_app_r. }
  assert (length (y_stats y') = length (y_stats y)) as Hlen by apply length_alter.
  assert (i < length (lists y))%nat as Hi1 by (rewrite lists_length; apply lookup_lt_Some in Hs; lia).
  assert (out_place y i < length (lists y))%nat as Hi2 by (rewrite lists_length; apply lookup_lt_Some in Hs; lia).
  assert (i ≠ out_place y i) as Hne by (apply lookup_lt_Some in Hs; lia).
  assert (∀ k pl q, lists y' !! k = Some pl → Q !! k = Some q →
    (q = [] ∧ ∃ pl0, pl = et_init_llist pl0 ∧ li_lock pl0 = false) ∨ lists y !! k = Some pl) as Hcase.
  { intros k pl q Hpl Hq. rewrite Hl in Hpl. destruct (decide (k = out_place y i)) as [->|Hk1].
    - rewrite list_lookup_insert_eq in Hpl by by rewrite length_insert. left. split; [congruence|]. exists (s_out s). split; [congruence|done].
    - rewrite list_lookup_insert_ne in Hpl by done. destruct (decide (k = i)) as [->|Hk2].
      + rewrite list_lookup_insert_eq in Hpl by done. left. split; [congruence|]. exists (s_in s). split; [congruence|done].
      + rewrite list_lookup_insert_ne in Hpl by done. by right. }
  destruct Hw as [W1 W2 W3 W4 W5 W6 W7 W8 W9]. split; try done.
  - apply Forall2_same_length_lookup. split; [rewrite Hl, !length_insert; by apply Forall2_length in W1|].
    intros k pl q Hpl Hq. destruct (Hcase k pl q Hpl Hq) as [(-> & pl0 & -> & Hlk)|Hold].
    + split; [by apply in_list_init|done].
    + by apply (Forall2_lookup_lr _ _ _ _ _ _ W1 Hold Hq).
  - rewrite Hlen. intros k pl q Hk Hpl Hq. destruct (Hcase k pl q Hpl Hq) as [(-> & pl0 & -> & _)|Hold]; [|by eapply W2].
    split; [constructor|done].
Qed.

(** ** A place in the chains *)

Lemma seat_of_place y G i pos pp : ∀ n k, seat_of y G i pos pp = Behind n k → is_Some (G !! n).
Proof.
  unfold seat_of. intros n k. destruct (pos <? 1); [done|]. destruct (G !! _) as [g|] eqn:Hg; [|done].
  destruct (_ && _ && _); [|done]. destruct (negb _); [done|]. destruct (_ =? 0); [done|]. intros [= <- _]. by eexists.
Qed.

Lemma seated_perm y G i pos pp t :
  t = seat_of y G i pos pp → t ≠ Refused → concat (seated G i t) ≡ₚ i :: concat G.
Proof.
  intros Et Hne. destruct t as [|n|n k|]; cbn [seated]; [| | |done].
  - rewrite concat_app. cbn. by rewrite Permutation_app_comm.
  - rewrite concat_app. cbn [concat app]. rewrite <- Permutation_middle, <- concat_app. by rewrite take_drop.
  - symmetry in Et. apply seat_of_place in Et as [g Hg]. clear Hne. revert n Hg. induction G as [|h G IH]; intros [|n] Hg; try done.
    + injection Hg as ->. cbn [alter list_alter concat]. rewrite <- app_assoc. cbn [app]. rewrite <- Permutation_middle, app_assoc.
      by rewrite take_drop.
    + cbn [alter list_alter concat]. change (list_alter ?f n G) with (alter f n G). rewrite (IH n Hg).
      by rewrite Permutation_middle.
Qed.

(** The configurations decide where the station goes. *)
Lemma seat_of_same y y' G i pos pp :
  (∀ k, config_of y' k = config_of y k) → seat_of y' G i pos pp = seat_of y G i pos pp.
Proof. intros H. unfold seat_of, is_parallel. destruct (G !! _); [|done]. cbn zeta. by rewrite !H. Qed.

(** Where the station is found again. *)
Definition seat_place (G : list (list nat)) (t : seat) : Z * Z :=
  match t with
  | AtEnd => (Z.of_nat (length G) + 1, 0)
  | Before n => (Z.of_nat n + 1, 0)
  | Behind n k => (Z.of_nat n + 1, Z.of_nat k)
  | Refused => (-1, -1)
  end.

Lemma seated_find y G i t :
  chained y (seated G i t) → 2 ≤ y_nstations y → i ∉ concat G → t ≠ Refused →
  (∀ n, t = Before n → (n ≤ length G)%nat) → (∀ n k, t = Behind n k → ∃ g, G !! n = Some g ∧ (k ≤ length g)%nat) →
  station_find y i = Ret (Some (seat_place G t)).
Proof.
  intros Hc Hn Hi Hne H1 H2. destruct t as [|n|n k|]; cbn [seated seat_place] in *; [| | |done].
  - apply (station_find_ok y G [] i [] []); try done. apply not_elem_of_nil.
  - rewrite (station_find_ok y (take n G) [] i [] (drop n G)); [|done|done| |apply not_elem_of_nil].
    + rewrite length_take_le by by apply H1. done.
    + intros Hx. apply Hi. rewrite <- (take_drop n G), concat_app. apply elem_of_app. by left.
  - destruct (H2 n k eq_refl) as (g & Hg & Hk). pose proof Hg as Hlt%lookup_lt_Some.
    assert (G = take n G ++ g :: drop (S n) G) as E by by rewrite take_drop_middle.
    assert (alter (λ g, take k g ++ i :: drop k g) n G = take n G ++ (take k g ++ i :: drop k g) :: drop (S n) G) as Ea.
    { rewrite E at 1. rewrite alter_app_r_alt by (rewrite length_take; lia). rewrite length_take_le by lia.
      by rewrite Nat.sub_diag. }
    rewrite Ea in Hc. rewrite (station_find_ok y _ _ i _ _ Hc Hn).
    + rewrite !length_take_le by lia. done.
    + intros Hx. apply Hi. rewrite <- (take_drop n G), concat_app. apply elem_of_app. by left.
    + intros Hx. apply Hi. rewrite E, concat_app. cbn [concat]. apply elem_of_app. right. apply elem_of_app. left.
      rewrite <- (take_drop k g). apply elem_of_app. by left.
Qed.

Lemma seat_of_fits y G i pos pp t :
  t = seat_of y G i pos pp →
  (∀ n, t = Before n → (n ≤ length G)%nat) ∧ (∀ n k, t = Behind n k → ∃ g, G !! n = Some g ∧ (k ≤ length g)%nat).
Proof.
  intros ->. unfold seat_of. destruct (pos <? 1); [done|]. destruct (G !! _) as [g|] eqn:Hg; [|done].
  destruct (_ && _ && _).
  - destruct (negb _); [done|]. destruct (_ =? 0); [done|]. split; [done|]. intros n k [= <- <-]. exists g. split; [done|].
    unfold member_place. destruct (_ && _) eqn:E; lia.
  - split; [|done]. intros n [= <-]. apply lookup_lt_Some in Hg. lia.
Qed.

(** ** The new station *)

Section Create.
  Context (F : list nat) (name : list Z) (sc : et_stat_config).

(** As line 574 and the following set it, with the status [v]. *)
Definition newborn (i : nat) (v : Z) (ps : et_station) : et_station :=
  et_init_station ps <| s_num := Z.of_nat i |> <| s_name := name |> <| s_config := sc |> <| s_status := v |>.

Lemma newborn_blank i v s : blank s (newborn i v s).
Proof. by split_and!. Qed.

(** The unused station [i] becomes [f] of it. *)
Definition born (y : et_system) (i : nat) (n : Z) (f : et_station → et_station) : et_system :=
  set_station (y <| y_nstations := n |>) i f.

Lemma born_stats y i n f : y_stats (born y i n f) = alter f i (y_stats y).
Proof. done. Qed.

Section Born.
  Context (y : et_system) (Q G : list (list nat)) (i : nat) (n : Z) (s : et_station) (f : et_station → et_station).
  Context (Hs : y_stats y !! i = Some s) (Hb : blank s (f s)).

Lemma born_wf : wf y Q F → li_cnt (s_in s) = 0 → li_cnt (s_out s) = 0 → wf (born y i n f) Q F.
Proof. intros Hw H1 H2. apply (init_wf _ Q F i s); try done. by apply (wf_moved y). Qed.

Lemma born_tables : placed y G → tables y → tables (born y i n f).
Proof.
  intros Hp (H1 & H2 & H3 & H4). unfold tables. rewrite born_stats, length_alter. split_and!; try done.
  rewrite list.Forall_forall in H3. apply list.Forall_forall. intros s' [k Hk]%list_elem_of_lookup.
  change (y_attach (born y i n f)) with (y_attach y). destruct (decide (k = i)) as [->|Hne].
  - rewrite list_lookup_alter_eq, Hs in Hk. injection Hk as <-. destruct Hb as (_ & _ & _ & ->). pose proof (pl_small _ _ Hp). lia.
  - rewrite list_lookup_alter_ne in Hk by done. by apply H3, (list_elem_of_lookup_2 _ k).
Qed.

Lemma born_unlocked : unlocked y → unlocked (born y i n f).
Proof.
  unfold unlocked. rewrite born_stats, !list.Forall_forall. intros Hu s' [k Hk]%list_elem_of_lookup.
  destruct (decide (k = i)) as [->|Hne].
  - rewrite list_lookup_alter_eq, Hs in Hk. injection Hk as <-. destruct Hb as (_ & _ & -> & _). by eapply Hu, list_elem_of_lookup_2.
  - rewrite list_lookup_alter_ne in Hk by done. by apply Hu, (list_elem_of_lookup_2 _ k).
Qed.

Lemma born_chained : placed y G → i ∉ ET_GRANDCENTRAL :: concat G → chained (born y i n f) G.
Proof.
  intros Hp Hi. apply (chained_frame y); [|done|apply Hp]. intros k Hk. unfold fld. rewrite born_stats.
  by rewrite list_lookup_alter_ne by (intros ->; done).
Qed.

Lemma born_placed : placed y G → s_status s = ET_STATION_UNUSED → i ∉ ET_GRANDCENTRAL :: concat G →
  n = y_nstations y → s_status (f s) = ET_STATION_UNUSED → placed (born y i n f) G.
Proof.
  intros Hp Hu Hi Hn Hst. split; [by apply born_chained|rewrite <- (pl_count _ _ Hp), <- Hn; done| |apply Hp].
  intros k s'. rewrite born_stats. destruct (decide (k = i)) as [->|Hne].
  - rewrite list_lookup_alter_eq, Hs. intros [= <-]. rewrite decide_False by done. by apply phase_unused.
  - rewrite list_lookup_alter_ne by done. apply Hp.
Qed.
End Born.

Lemma unused_apart y G i s : placed y G → y_stats y !! i = Some s → s_status s = ET_STATION_UNUSED → i ∉ ET_GRANDCENTRAL :: concat G.
Proof. intros Hp Hs Hu Hi. destruct (pl_used _ _ _ _ Hp Hs Hi) as [H|H]; by rewrite Hu in H. Qed.

(** The thread of the new station finds it. *)
Lemma start_conductor_ok (starts : et_station → bool) y G i s n :
  placed y G → y_stats y !! i = Some s → i ∉ ET_GRANDCENTRAL :: concat G →
  start_conductor starts (born y i n (newborn i ET_STATION_CREATING)) =
    born y i n (newborn i (if starts (newborn i ET_STATION_CREATING s) then ET_STATION_IDLE else ET_STATION_CREATING)).
Proof.
  intros Hp Hs Hi. unfold start_conductor. rewrite born_stats.
  assert (list_find (λ s, s_status s = ET_STATION_CREATING) (alter (newborn i ET_STATION_CREATING) i (y_stats y)) =
          Some (i, newborn i ET_STATION_CREATING s)) as ->.
  { apply list_find_Some. split_and!; [by rewrite list_lookup_alter_eq, Hs|done|]. intros k s' Hk Hlt E.
    rewrite list_lookup_alter_ne in Hk by lia. pose proof (pl_phase _ _ Hp k s' Hk) as Hph. unfold phase in Hph.
    destruct (decide (in_use s')) as [[H|H]|_]; [by rewrite E in H..|]. rewrite E in Hph. by destruct (decide (k ∈ _)). }
  destruct (starts _); [|done]. assert ((i =? ET_GRANDCENTRAL)%nat = false) as ->.
  { apply Nat.eqb_neq. intros ->. apply Hi. by left. }
  unfold born. rewrite set_station_compose. apply (set_station_ext _ i s); [done|reflexivity].
Qed.
(** The new station goes into the chains. *)
Section Insert.
  Context (y : et_system) (Q G : list (list nat)) (i : nat) (s : et_station) (pos pp : Z).
  Context (Hp : placed y G) (Hs : y_stats y !! i = Some s) (Hu : s_status s = ET_STATION_UNUSED).
Let y2 := born y i (y_nstations y + 1) (newborn i ET_STATION_IDLE).
Let t := seat_of y2 G i pos pp.

Lemma insert_new :
  0 ≤ pp ∨ pp = ET_END ∨ pp = ET_NEWHEAD →
  ∃ y3, station_insert (all_locked y2) i pos pp = Ret (insert_status t, y3) ∧
    relinks (all_locked y2) y3 ∧ chained y3 (seated G i t) ∧ (t = Refused → y3 = all_locked y2).
Proof using Hp Hs Hu.
  intros Hpp.  pose proof (unused_apart y G i s Hp Hs Hu) as Hi.
  assert (y_stats y2 !! i = Some (newborn i ET_STATION_IDLE s)) as Hs2 by by apply lookup_set_station.
  assert (y_stats (all_locked y2) !! i = Some (newborn i ET_STATION_IDLE s <| s_mutex := true |>)) as Hs3.
  { change (y_stats (all_locked y2)) with ((λ s, s <| s_mutex := true |>) <$> y_stats y2). by rewrite list_lookup_fmap, Hs2. }
  apply station_insert_ok.
  - eapply chained_linked; [by apply locked_linked|]. by eapply born_chained.
  - split; [done|]. unfold fld. by rewrite Hs3.
  - change (y_nstations (all_locked y2)) with (y_nstations y + 1). rewrite (pl_count _ _ Hp). lia.
  - symmetry. apply seat_of_same. intros k. unfold config_of. f_equal.
    apply linked_fld; [unfold links_of; congruence|by apply locked_linked].
  - destruct t; cbn [fits]; unfold fld; rewrite ?Hs3; done.
  - done.
Qed.

Lemma insert_placed y3 :
  relinks (all_locked y2) y3 → chained y3 (seated G i t) → t ≠ Refused →
  placed (et_transfer_unlock_all y3) (seated G i t) ∧ unlocked (et_transfer_unlock_all y3) ∧ rehoused y2 (et_transfer_unlock_all y3).
Proof using Hp Hs Hu.
  intros Hr Hc Hne. pose proof (unused_apart y G i s Hp Hs Hu) as Hi.
  pose proof (seated_perm y2 G i pos pp t eq_refl Hne) as Hperm.
  assert (et_transfer_unlock_all y3 = y3 <| y_stats ::= fmap et_transfer_unlock |>) as E3 by done.
  split_and!.
  - split.
    + eapply chained_linked; [|exact Hc]. rewrite E3. by apply locked_linked.
    + rewrite Hperm. destruct Hr as [_ Er]. rewrite E3, Er. change (y_nstations y + 1 = Z.of_nat (length (i :: concat G)) + 1).
      rewrite (pl_count _ _ Hp). cbn [length]. lia.
    + apply phased_spec. unfold phased.
      assert (phase <$> y_stats (et_transfer_unlock_all y3) = phase <$> y_stats y2) as Hph.
      { rewrite E3. change (y_stats (y3 <| y_stats ::= ?f |>)) with (et_transfer_unlock <$> y_stats y3).
        rewrite <- list_fmap_compose. transitivity (phase <$> y_stats y3); [by apply list_fmap_ext|].
        rewrite (relinks_phase _ _ Hr). change (y_stats (all_locked y2)) with ((λ s, s <| s_mutex := true |>) <$> y_stats y2).
        rewrite <- list_fmap_compose. by apply list_fmap_ext. }
      rewrite Hph. assert (length (y_stats (et_transfer_unlock_all y3)) = length (y_stats y2)) as ->.
      { apply (f_equal length) in Hph. by rewrite !length_fmap in Hph. }
      apply phased_spec. intros k s'. unfold y2. rewrite born_stats. destruct (decide (k = i)) as [->|Hk].
      * rewrite list_lookup_alter_eq, Hs. intros [= <-]. rewrite decide_True by (right; rewrite Hperm; by left). done.
      * rewrite list_lookup_alter_ne by done. intros Hs'. rewrite (pl_phase _ _ Hp k s' Hs'). apply decide_ext.
        rewrite !elem_of_cons, Hperm, elem_of_cons. tauto.
    + destruct Hr as [_ Er]. rewrite E3, Er. apply Hp.
  - apply list.Forall_forall. intros s' (s1 & -> & _)%list_elem_of_fmap. done.
  - eapply rehoused_trans; [|eapply rehoused_trans; [by apply relinks_rehoused|by apply all_rehoused]]. by apply all_rehoused.
Qed.
End Insert.

(** ** What creating gives *)

(** Nothing is in the lists of the stations that are not used. *)
Definition vacant (y : et_system) : Prop :=
  Forall (λ s, s_status s = ET_STATION_UNUSED → li_cnt (s_in s) = 0 ∧ li_cnt (s_out s) = 0) (y_stats y).

Definition entered (G : list (list nat)) (pos pp : Z) (out : option Z) (y' : et_system) : Prop :=
  ∃ i s, out = Some (Z.of_nat i) ∧ i ∉ ET_GRANDCENTRAL :: concat G ∧
    y_stats y' !! i = Some s ∧ s_name s = name ∧ s_config s = sc ∧
    let t := seat_of y' G i pos pp in
    t ≠ Refused ∧ placed y' (seated G i t) ∧ station_find y' i = Ret (Some (seat_place G t)).

(** The station was there already, with the same configuration. *)
Definition present (y : et_system) (out : option Z) : Prop :=
  ∃ k s, out = Some (Z.of_nat k) ∧ y_stats y !! k = Some s ∧ named name s ∧ same_config (s_config s) sc = true.

Definition made (y : et_system) (G : list (list nat)) (pos pp : Z) (st : Z) (out : option Z) (y' : et_system) : Prop :=
  (∃ Q, wf y' Q F) ∧ tables y' ∧ (unlocked y → unlocked y') ∧ y_events y' = y_events y ∧ y_stat_mutex y' = false ∧
  ((placed y' G ∧ (st = ET_OK → y' = y ∧ present y out)) ∨ (st = ET_OK ∧ entered G pos pp out y')).

(** The mutex of stations makes no difference. *)
Lemma mutex_same y v : alike y (y <| y_stat_mutex := v |>).
Proof. by split_and!. Qed.

Section New.
  Context (y : et_system) (Q G : list (list nat)) (pos pp : Z).
  Context (Hw : wf y Q F) (Ht : tables y) (Hp : placed y G) (Hv : vacant y).

Lemma failed_ok i s n f st out :
  y_stats y !! i = Some s → s_status s = ET_STATION_UNUSED → blank s (f s) → s_status (f s) = ET_STATION_UNUSED →
  n = y_nstations y → st ≠ ET_OK → made y G pos pp st out (et_station_unlock (born y i n f)).
Proof using Hw Ht Hp Hv.
  intros Hs Hu Hb Hf Hn Hst. unfold vacant in Hv. rewrite list.Forall_forall in Hv.
  destruct (Hv s (list_elem_of_lookup_2 _ _ _ Hs) Hu) as [H1 H2]. pose proof (unused_apart y G i s Hp Hs Hu) as Hi.
  split_and!; [| |intros Hul; by eapply (born_unlocked y i n s f)|done|done|left].
  - exists Q. by apply (wf_moved (born y i n f)), (born_wf y Q i n s f).
  - by apply (born_tables y G i n s f).
  - split; [|done]. by eapply placed_alike; [apply mutex_same|apply (born_placed y G i n s f)].
Qed.

Lemma entered_ok i s y3 :
  y_stats y !! i = Some s → s_status s = ET_STATION_UNUSED →
  let y2 := born y i (y_nstations y + 1) (newborn i ET_STATION_IDLE) in let t := seat_of y2 G i pos pp in
  relinks (all_locked y2) y3 → chained y3 (seated G i t) → t ≠ Refused →
  let y' := et_station_unlock (et_transfer_unlock_all y3) in
  (∃ Q, wf y' Q F) ∧ tables y' ∧ unlocked y' ∧ y_events y' = y_events y ∧ entered G pos pp (Some (Z.of_nat i)) y'.
Proof using Hw Ht Hp Hv.
  intros Hs Hu y2 t Hr Hc Hne y'. subst y'. destruct (insert_placed y G i s pos pp Hp Hs Hu y3 Hr Hc Hne) as (G1 & G2 & G3).
  fold y2 in G3. set (y4 := et_transfer_unlock_all y3) in *. unfold vacant in Hv. rewrite list.Forall_forall in Hv.
  destruct (Hv s (list_elem_of_lookup_2 _ _ _ Hs) Hu) as [H1 H2]. pose proof (unused_apart y G i s Hp Hs Hu) as Hi.
  assert (wf y2 Q F) as Hw2 by (apply (born_wf y Q i _ s _ Hs); [by apply newborn_blank|done..]).
  assert (tables y2) as Ht2 by (apply (born_tables y G i _ s _ Hs); [by apply newborn_blank|done..]).
  assert (∀ k, fld (λ s, (s_name s, s_config s)) (et_station_unlock y4) k = fld (λ s, (s_name s, s_config s)) y2 k) as Hcf.
  { intros k. change (fld (λ s, (s_name s, s_config s)) y4 k = fld (λ s, (s_name s, s_config s)) y2 k).
    unfold y4, fld, et_transfer_unlock_all. fields. rewrite list_lookup_fmap.
    pose proof (relinks_fmap (λ s, (s_name s, s_config s)) _ _ ltac:(done) Hr) as E. apply (f_equal (λ l, l !! k)) in E.
    change (y_stats (all_locked y2)) with ((λ s, s <| s_mutex := true |>) <$> y_stats y2) in E.
    rewrite !list_lookup_fmap in E. by destruct (y_stats y3 !! k), (y_stats y2 !! k). }
  assert (seat_of (et_station_unlock y4) G i pos pp = t) as Ht'.
  { apply seat_of_same. intros k. unfold config_of. specialize (Hcf k). unfold fld in *.
    destruct (y_stats (et_station_unlock y4) !! k), (y_stats y2 !! k); try done. cbn in *. congruence. }
  assert (placed (et_station_unlock y4) (seated G i t)) as Hp4 by by eapply placed_alike; [apply mutex_same|].
  split_and!; [| |done|exact (rh_events _ _ G3)|].
  - exists Q. apply (wf_moved y4); try done. by eapply rehoused_wf.
  - exact (rehoused_tables _ _ G3 Ht2).
  - assert (y_stats y2 !! i = Some (newborn i ET_STATION_IDLE s)) as Hs2 by by apply lookup_set_station.
    specialize (Hcf i). unfold fld in Hcf. rewrite Hs2 in Hcf. destruct (y_stats (et_station_unlock y4) !! i) as [s4|] eqn:Hs4; [|done].
    injection Hcf as Hn4 Hc4. exists i, s4. rewrite Ht'. cbn zeta. split_and!; try done.
    destruct (seat_of_fits y2 G i pos pp t eq_refl) as [F1 F2].
    apply (seated_find _ G i t (pl_chained _ _ Hp4)); try done.
    + rewrite (pl_count _ _ Hp4), (seated_perm y2 G i pos pp t eq_refl Hne). cbn. lia.
    + intros H. apply Hi. by right.
Qed.
End New.

Lemma same_ok y Q G pos pp st out :
  wf y Q F → tables y → placed y G → y_stat_mutex y = false →
  (st = ET_OK → present y out) → made y G pos pp st out y.
Proof. intros. split_and!; try done; [by exists Q|]. left. split; auto. Qed.

Lemma unlock_all_id y : unlocked y → et_transfer_unlock_all (all_locked y) = y.
Proof.
  intros Hu. unfold et_transfer_unlock_all, all_locked. destruct y. unfold update. cbn. f_equal. rewrite <- list_fmap_compose.
  etrans; [|apply list_fmap_id]. apply list_fmap_ext. intros k s Hk. cbn. unfold unlocked in Hu. cbn in Hu.
  rewrite list.Forall_forall in Hu. specialize (Hu s (list_elem_of_lookup_2 _ _ _ Hk)). destruct s. cbn in *. by subst.
Qed.

Lemma create_new_ok (starts : et_station → bool) d y Q G pos pp :
  wf y Q F → tables y → placed y G → vacant y → y_stat_mutex y = false → d_sys d = y <| y_stat_mutex := true |> →
  0 ≤ pp ∨ pp = ET_END ∨ pp = ET_NEWHEAD →
  settles d (create_new starts d name sc false pos pp) (stations_busy y) (made y G pos pp).
Proof.
  intros Hw Ht Hp Hv Hm Hd Hpp. unfold create_new. rewrite Hd. set (y1 := y <| y_stat_mutex := true |>).
  assert (∀ st out, st ≠ ET_OK → settles d (leave_station d y1 st out) (stations_busy y) (made y G pos pp)) as Hno.
  { intros st out Hst. unfold leave_station. apply settles_sys. unfold y1. rewrite unlock_locked by done. by eapply same_ok. }
  destruct (_ <=? _); [by apply Hno|]. change (y_stats y1) with (y_stats y).
  destruct (list_find _ (y_stats y)) as [[i s]|] eqn:Hfind; [|by apply Hno]. cbn [negb].
  apply list_find_Some in Hfind as (Hs & Hu & _). pose proof (unused_apart y G i s Hp Hs Hu) as Hi.
  assert (wf y1 Q F) as Hw1 by by apply (wf_moved y).
  assert (placed y1 G) as Hp1 by (eapply placed_alike; [apply mutex_same|done]).
  change (set_station (y1 <| y_nstations ::= λ n, n + 1 |>) i _) with (born y1 i (y_nstations y1 + 1) (newborn i ET_STATION_CREATING)).
  rewrite (start_conductor_ok starts y1 G i s) by done. cbn zeta. set (v := if starts _ then _ else _).
  set (y2 := born y1 i (y_nstations y1 + 1) (newborn i v)).
  assert (y_stats y2 !! i = Some (newborn i v s)) as Hs2 by by apply (lookup_set_station _ i s).
  assert (station y2 i = Ret (newborn i v s)) as -> by (unfold station; by rewrite Hs2). step.
  assert (∀ g, set_station (y2 <| y_nstations ::= λ n, n - 1 |>) i g = born y1 i (y_nstations y1) (λ s, g (newborn i v s))) as Hback.
  { intros g. assert (y2 <| y_nstations ::= λ n, n - 1 |> = born y1 i (y_nstations y1) (newborn i v)) as ->.
    { unfold y2, born, set_station. destruct y1. unfold update. cbn. f_equal. lia. }
    unfold born. by rewrite set_station_compose. }
  change (s_status (newborn i v s)) with v. destruct (negb (v =? ET_STATION_IDLE)) eqn:Hv2.
  { unfold leave_station. apply settles_sys.
    rewrite Hback. set (f := λ s, et_init_station (newborn i v s)).
    change (et_station_unlock (born y1 i (y_nstations y1) f)) with (et_station_unlock (born y i (y_nstations y) f)).
    by apply (failed_ok y Q G pos pp Hw Ht Hp Hv i s (y_nstations y) f ET_ERROR). }
  assert (v = ET_STATION_IDLE) as Ev by (apply negb_false_iff, Z.eqb_eq in Hv2; exact Hv2).
  assert (unlocked y → unlocked y2) as Hu2.
  { intros Hul. apply (born_unlocked y1 i _ s); [done|by apply newborn_blank|done]. }
  destruct (lock_all_cases y2) as [[Hul ->]|[-> Hul]]; [|left; split; [done|right; tauto]]. step.
  assert (y2 = born y1 i (y_nstations y1 + 1) (newborn i ET_STATION_IDLE)) as E2 by (unfold y2; by rewrite Ev).
  destruct (insert_new y1 G i s pos pp Hp1 Hs Hu Hpp) as (y3 & Hins & Hr & Hc & Href). rewrite <- E2 in *.
  rewrite Hins. step. set (t := seat_of y2 G i pos pp) in *. assert (t = Refused ∨ t ≠ Refused) as [Et|Hne] by (destruct t; auto).
  - rewrite Et. cbn [insert_status Z.eqb ET_ERROR ET_OK negb]. unfold leave_station. apply settles_sys. rewrite (Href Et).
    assert (et_transfer_unlock_all (all_locked y2) = y2) as -> by by apply unlock_all_id.
    rewrite Hback. set (f := λ s, newborn i v s <| s_conductor := ET_THREAD_KILL |> <| s_status := ET_STATION_UNUSED |>).
    change (et_station_unlock (born y1 i (y_nstations y1) f)) with (et_station_unlock (born y i (y_nstations y) f)).
    by apply (failed_ok y Q G pos pp Hw Ht Hp Hv i s (y_nstations y) f ET_ERROR).
  - assert (insert_status t = ET_OK) as -> by by destruct t. cbn [Z.eqb ET_OK negb]. unfold leave_station. apply settles_sys.
    destruct (entered_ok y1 Q G pos pp Hw1 Ht Hp1 Hv i s y3) as (E3 & E4 & E5 & E6 & E7); try done.
    { by rewrite <- E2. } { by rewrite <- E2. } { by rewrite <- E2. }
    split_and!; try done. by right.
Qed.

Lemma create_existing_ok d1 y Q G pos pp k s :
  wf y Q F → tables y → placed y G → y_stat_mutex y = false → d_sys d1 = y <| y_stat_mutex := true |> →
  d_alive d1 = true → d_closed d1 = false → ml_writer (d_mem d1) = false →
  y_stats y !! k = Some s → named name s →
  settles d1 (create_existing d1 (Z.of_nat k) sc) (stations_busy y) (made y G pos pp).
Proof.
  intros Hw Ht Hp Hm Hd Ha Hc Hwr Hs Hn. unfold create_existing, et_station_getstatus, with_station.
  assert (Z.of_nat k < y_max_stations y) as Hk by (apply lookup_lt_Some in Hs; destruct Ht as [Ht _]; lia).
  rewrite (with_memory_within d1 _ ET_OK (Some (s_status s)) Ha Hc Hwr).
  2: { intros d2 Hd2. rewrite Hd2, Hd. change (y_max_stations (y <| y_stat_mutex := true |>)) with (y_max_stations y).
    replace (_ || _) with false by (symmetry; apply orb_false_iff; split; [apply Z.ltb_ge|apply Z.leb_gt]; lia).
    rewrite Nat2Z.id. unfold station. fields. by rewrite Hs. }
  step. rewrite Hd, Nat2Z.id. unfold station. fields. rewrite Hs. step. unfold leave_station. apply settles_sys.
  rewrite unlock_locked by done. apply (same_ok y Q); try done. intros Hst. exists k, s. split_and!; try done.
  destruct (negb _ && same_config (s_config s) sc) eqn:E; [|done]. by apply andb_true_iff in E as [_ E].
Qed.
End Create.

(** The configuration that the station gets. *)
Definition checked (y : et_system) (allocated : bool) (sconfig : option et_stat_config) : et_stat_config :=
  match sconfig with
  | Some c => snd (et_station_config_check y c)
  | None => snd (et_station_config_check y (default default_config (snd (et_station_config_init allocated))))
  end.

Lemma good_place position parallelposition :
  bad_place position parallelposition = false →
  0 ≤ parallelposition ∨ parallelposition = ET_END ∨ parallelposition = ET_NEWHEAD.
Proof.
  unfold bad_place. intros [_ H]%orb_false_iff. apply andb_false_iff in H as [H|H]; [|left; lia].
  apply andb_false_iff in H as [H|H]; apply negb_false_iff, Z.eqb_eq in H; auto.
Qed.

Lemma et_station_create_at_ok F starts allocated d name sconfig position parallelposition Q G :
  wf (d_sys d) Q F → tables (d_sys d) → placed (d_sys d) G → vacant (d_sys d) →
  name ≠ cs "GRAND_CENTRAL" →
  returns d (et_station_create_at starts allocated d (Some name) sconfig position parallelposition)
    (stations_busy (d_sys d))
    (λ st out y', (st ≠ ET_OK ∧ y' = d_sys d) ∨
       made F name (checked (d_sys d) allocated sconfig) (d_sys d) G position parallelposition st out y').
Proof.
  intros Hw Ht Hp Hv Hgc. unfold et_station_create_at.
  destruct (_ <? Z.of_nat (length name)); [apply returns_same; by left|].
  destruct (bad_place _ _) eqn:Hbad; [apply returns_same; by left|].
  set (conf := match sconfig with Some c => Some c | None => _ end).
  assert (∀ c, conf = Some c → checked (d_sys d) allocated sconfig = snd (et_station_config_check (d_sys d) c)) as Hconf.
  { intros c. unfold conf, checked. destruct sconfig; [by intros [= ->]|]. by intros ->. }
  destruct conf as [c|]; [|apply returns_same; by left]. rewrite (Hconf c eq_refl). clear Hconf.
  destruct (negb _); [apply returns_same; by left|]. cbn zeta. rewrite bool_decide_eq_false_2 by done. cbn [negb andb].
  destruct (position =? 0); [apply returns_same; by left|]. rewrite andb_true_r.
  apply (with_memory_inside d (λ d, let '(ok, sc) := et_station_config_check (d_sys d) c in
    if ok =? ET_ERROR then leave d ET_ERROR None else
    y ← et_station_lock (d_sys d);
    '(r, found, d) ← et_station_exists (set_sys d y) (Some name) true;
    match found with
    | Some k => if r =? 1 then create_existing d k sc else create_new starts d name sc false position parallelposition
    | None => create_new starts d name sc false position parallelposition
    end)); [intros _; by left..|].
  intros d1 (Hd1 & _ & Hc1 & Ha1 & Hw1). rewrite Hd1. destruct (et_station_config_check (d_sys d) c) as [ok sc] eqn:Hck.
  cbn [snd]. destruct (ok =? ET_ERROR); [apply settles_leave; left; by rewrite Hd1|].
  unfold et_station_lock. destruct (y_stat_mutex (d_sys d)) eqn:Hm; [left; split; [done|by left]|]. step.
  set (y1 := d_sys d <| y_stat_mutex := true |>). set (d2 := set_sys d1 y1).
  assert (d_alive d2 = true ∧ d_closed d2 = false ∧ ml_writer (d_mem d2) = false) as (Ha2 & Hc2 & Hw2) by done.
  pose proof (good_place _ _ Hbad) as Hpp.
  assert (settles d2 (create_new starts d2 name sc false position parallelposition) (stations_busy (d_sys d))
            (made F name sc (d_sys d) G position parallelposition)) as Hnew by by eapply create_new_ok.
  apply (settles_set d1 y1). apply (settles_weaken (waits := stations_busy (d_sys d)) d2 _ _ (made F name sc (d_sys d) G position parallelposition));
    [done|intros st out y' Hpost; by right|]. fold d2. unfold et_station_exists.
  destruct (list_find (named name) (y_stats (d_sys d))) as [[k s]|] eqn:Hfind.
  - rewrite (with_memory_within d2 _ 1 (Some (Z.of_nat k)) Ha2 Hc2 Hw2).
    2: { intros d3 ->. change (y_stats (d_sys d2)) with (y_stats (d_sys d)). by rewrite Hfind. }
    step. cbn [Z.eqb]. apply list_find_Some in Hfind as (Hs & Hn & _). by eapply create_existing_ok.
  - rewrite (with_memory_within d2 _ 0 None Ha2 Hc2 Hw2).
    2: { intros d3 ->. change (y_stats (d_sys d2)) with (y_stats (d_sys d)). by rewrite Hfind. }
    step. exact Hnew.
Qed.
