(* ===== verification/EtMoveSpec.v ===== *)
(** * Stations that change their place

    A station that is a group of its own moves before another group.  (Moves of others, to
    the end, or into a group leave links that station_insert does not set.) *)

From S2P Require Import Prelude Words EtTypes EtLists EtConductor EtChains EtChainSpec EtInsertSpec EtSystemInv EtConductorSpec.
From S2P Require Import EtAccess EtWaiting EtDetached EtStatConfig EtSteps EtWaitSpec EtStations EtCallSpec EtAttachSpec EtPlaceSpec EtCreateSpec.

Section Move.
  Context (y : et_system) (G1 G2 : list (list nat)) (i : nat).
Let G := G1 ++ [i] :: G2.
  Context (Hp : placed y G).

Lemma alone_apart : i ∉ ET_GRANDCENTRAL :: concat (G1 ++ G2) ∧ i ∉ concat G1.
Proof.
  pose proof (ch_nodup _ _ (pl_chained _ _ Hp)) as [Hgc Hnd]%list.NoDup_cons. unfold G in *. rewrite concat_app in Hgc, Hnd.
  cbn [concat app] in Hgc, Hnd. rewrite <- Permutation_middle in Hnd. apply list.NoDup_cons in Hnd as [Hi _].
  rewrite concat_app. split; [|set_solver]. rewrite elem_of_cons. intros [->|?]; [apply Hgc; set_solver|done].
Qed.

Lemma alone_without : without i G = G1 ++ G2.
Proof.
  destruct alone_apart as [Hi _]. rewrite concat_app in Hi. unfold G. change ([i] :: G2) with ([[i]] ++ G2).
  pose proof (chained_nonempty _ _ (pl_chained _ _ Hp)) as Hne. unfold G in Hne. rewrite Forall_app, list.Forall_cons in Hne.
  destruct Hne as (Hne1 & _ & Hne2). rewrite !without_app.
  pose proof (without_group i [] [] (not_elem_of_nil _) (not_elem_of_nil _)) as E. cbn [app] in E. rewrite E, !without_others; set_solver.
Qed.

(** The system with the transfers stopped. *)
Lemma move_ok pos pp n :
  seat_of y (G1 ++ G2) i pos pp = Before n → 0 ≤ pp ∨ pp = ET_END ∨ pp = ET_NEWHEAD →
  ∃ y1 y2, station_find (all_locked y) i = Ret (Some (Z.of_nat (length G1) + 1, 0)) ∧
    station_remove (all_locked y) i = Ret y1 ∧ station_insert y1 i pos pp = Ret (ET_OK, y2) ∧
    relinks (all_locked y) y2 ∧ chained y2 (seated (G1 ++ G2) i (Before n)).
Proof.
  intros Hseat Hpp.  destruct alone_apart as [Hi Hi1]. pose proof (pl_chained _ _ Hp) as Hc.
  assert (chained (all_locked y) G) as Hcl by (eapply chained_linked; [by apply locked_linked|done]).
  assert (length (concat G) = S (length (concat (G1 ++ G2)))) as Hlen.
  { unfold G. rewrite !concat_app, !length_app. cbn. lia. }
  destruct (fld_some s_num (all_locked y) i (Z.of_nat i)) as (s & Hs & Hnum).
  { pose proof (ch_nums _ _ Hcl) as Hn. rewrite list.Forall_forall in Hn. apply Hn. unfold G. rewrite concat_app. set_solver. }
  destruct (station_remove_ok (all_locked y) G i Hcl) as (y1 & Hrm & Hr & Hc1).
  { unfold G. rewrite concat_app. set_solver. }
  rewrite alone_without in Hc1.
  assert (nxp y1 i = Some (-1) ∧ prp y1 i = Some (-1)) as [Hx1 Hx2].
  { destruct (remove_single (all_locked y) s i G1 G2 Hcl Hs) as (y1' & Hu & _ & _ & Hk).
    assert (y1' = y1) as ->.
    { revert Hrm. unfold station_remove, station. rewrite Hs. step.
      pose proof (ch_groups _ _ Hcl) as Hg. rewrite list.Forall_forall in Hg. destruct (Hg [i]) as [_ Hg1]; [unfold G; set_solver|].
      destruct (group_links (all_locked y) [] i [] s Hg1 Hs) as [_ Hnx]. cbn in Hnx. rewrite Hnx.
      assert (0 ≤ s_prev s) as Hprev.
      { destruct (chain_front (all_locked y) G1 ([i] :: G2) Hcl) as (l1 & p & _ & Hm & _).
        destruct (main_links (all_locked y) (l1 ++ [p]) i (heads G2) s Hm Hs) as [-> _]. rewrite last_of_app. cbn. lia. }
      replace (-1 <? s_prev s) with true by (symmetry; apply Z.ltb_lt; lia). cbn [Z.ltb Z.compare].
      destruct (_ =? _); rewrite Hu; congruence. }
    destruct (Hk i) as [-> ->]. pose proof (ch_groups _ _ Hcl) as Hg. rewrite list.Forall_forall in Hg.
    destruct (Hg [i]) as [_ (H1 & H2 & _)]; [unfold G; set_solver|]. done. }
  assert (∀ k, config_of y1 k = config_of y k) as Hcf.
  { intros k. unfold config_of. f_equal. rewrite (relinks_fld s_config _ y1) by done.
    apply linked_fld; [unfold links_of; congruence|by apply locked_linked]. }
  destruct (station_insert_ok y1 (G1 ++ G2) i pos pp (Before n) Hc1) as (y2 & Hins & Hr2 & Hc2 & _); [| | | |done|].
  - split; [done|]. rewrite (relinks_fld s_num (all_locked y) y1) by done. unfold fld. by rewrite Hs, <- Hnum.
  - destruct Hr as [_ ->]. change (y_nstations y = Z.of_nat (length (concat (G1 ++ G2))) + 2). rewrite (pl_count _ _ Hp). lia.
  - by rewrite (seat_of_same y y1).
  - by split.
  - exists y1, y2. split_and!; [|done|done|by eapply relinks_trans|done].
    apply (station_find_ok (all_locked y) G1 [] i [] G2 Hcl); [|done|apply not_elem_of_nil].
    change (2 ≤ y_nstations y). rewrite (pl_count _ _ Hp). lia.
Qed.
End Move.

(** The call: the station is where it was asked to be, or nothing has changed. *)
Lemma et_station_setposition_ok F d stat_id pos pp Q G1 G2 n :
  let y := d_sys d in let i := Z.to_nat stat_id in
  wf y Q F → tables y → placed y (G1 ++ [i] :: G2) → seat_of y (G1 ++ G2) i pos pp = Before n →
  returns d (et_station_setposition d stat_id pos pp) (stations_busy y) (λ st out y',
    (st ≠ ET_OK ∧ y' = y) ∨
    (st = ET_OK ∧ (∃ Q, wf y' Q F) ∧ tables y' ∧ unlocked y' ∧ y_events y' = y_events y ∧
     placed y' (seated (G1 ++ G2) i (Before n)) ∧ station_find y' i = Ret (Some (Z.of_nat n + 1, 0)))).
Proof.
  intros y i Hw Ht Hp Hseat. unfold et_station_setposition.
  destruct (stat_id <? 0) eqn:E0; [apply returns_same; by left|].
  pose proof (alone_apart y G1 G2 i Hp) as [Hia _].
  assert (stat_id =? Z.of_nat ET_GRANDCENTRAL = false) as ->.
  { apply Z.eqb_neq. intros E. apply Hia. assert (i = ET_GRANDCENTRAL) as -> by (unfold i; by rewrite E, Nat2Z.id). by left. }
  destruct (bad_place pos pp || _) eqn:Hbad; [apply returns_same; by left|].
  apply orb_false_iff in Hbad as [Hpp%good_place _]. unfold with_chain.
  apply with_memory_ok; [intros _; by left..|]. intros d1 Hd1 _ _. cbn zeta. rewrite Hd1. fold y i.
  destruct (_ <=? stat_id) eqn:E1; [apply settles_leave; left; by rewrite Hd1|].
  unfold et_station_lock. destruct (y_stat_mutex y) eqn:Hm; [left; split; [done|by left]|]. step.
  set (y0 := y <| y_stat_mutex := true |>).
  destruct (lookup_lt_is_Some_2 (y_stats y) i) as [s Hs]; [destruct Ht as [Ht _]; unfold i; fold y in E1; lia|].
  assert (station y0 i = Ret s) as -> by (unfold station, y0; fields; by rewrite Hs). step.
  destruct (_ && _); [unfold leave_station; apply settles_sys; left; split; [done|by apply unlock_locked]|].
  destruct (lock_all_cases y0) as [[Hu ->]|[-> Hu]]; [|left; split; [done|by right]]. step.
  assert (placed y0 (G1 ++ [i] :: G2)) as Hp0 by (eapply placed_alike; [apply mutex_same|done]).
  assert (seat_of y0 (G1 ++ G2) i pos pp = Before n) as Hseat0 by (rewrite <- Hseat; by apply seat_of_same).
  destruct (move_ok y0 G1 G2 i Hp0 pos pp n Hseat0 Hpp) as (y1 & y2 & Hf & Hrm & Hins & Hr & Hc).
  unfold move_station. rewrite Hf. step. rewrite Hrm. step. rewrite Hins. step. cbn [Z.eqb ET_OK negb]. step.
  unfold leave_station. apply settles_sys. right. split; [done|].
  set (y3 := et_transfer_unlock_all y2). assert (rehoused y0 y3) as Hre.
  { eapply rehoused_trans; [|eapply rehoused_trans; [by apply relinks_rehoused|by apply all_rehoused]]. by apply all_rehoused. }
  pose proof (seated_perm y0 (G1 ++ G2) i pos pp (Before n) (eq_sym Hseat0) ltac:(done)) as Hperm.
  assert (placed y3 (seated (G1 ++ G2) i (Before n))) as Hp3.
  { split.
    - apply (chained_linked y2); [by apply locked_linked|done].
    - change (y_nstations y3) with (y_nstations y2). destruct Hr as [_ ->].
      change (y_nstations y0 = Z.of_nat (length (concat (seated (G1 ++ G2) i (Before n)))) + 1). rewrite (pl_count _ _ Hp0), Hperm, !concat_app. cbn [concat app]. cbn [length]. rewrite !length_app. cbn. lia.
    - apply phased_spec. unfold phased. rewrite (rehoused_length _ _ Hre). pose proof (proj2 (phased_spec y0 _) (pl_phase _ _ Hp0)) as Hph.
      transitivity (phase <$> y_stats y0).
      + change (y_stats y3) with (et_transfer_unlock <$> y_stats y2). rewrite <- list_fmap_compose.
        transitivity (phase <$> y_stats y2); [by apply list_fmap_ext|]. rewrite (relinks_phase _ _ Hr).
        change (y_stats (all_locked y0)) with ((λ s, s <| s_mutex := true |>) <$> y_stats y0). rewrite <- list_fmap_compose. by apply list_fmap_ext.
      + rewrite Hph. apply list_fmap_ext. intros _ k _. apply decide_ext. rewrite !elem_of_cons, Hperm, elem_of_cons, !concat_app, !elem_of_app. cbn. set_solver.
    - rewrite (rh_attach _ _ Hre). apply Hp0. }
  assert (placed (et_station_unlock y3) (seated (G1 ++ G2) i (Before n))) as Hp4 by (eapply placed_alike; [apply mutex_same|done]).
  split_and!.
  - exists Q. apply (wf_moved y3); try done. eapply rehoused_wf; [exact Hre|]. by apply (wf_moved y).
  - exact (rehoused_tables _ _ Hre Ht).
  - apply list.Forall_forall. intros s' (s1 & -> & _)%list_elem_of_fmap. done.
  - exact (rh_events _ _ Hre).
  - exact Hp4.
  - assert (∃ g, (G1 ++ G2) !! n = Some g) as [g Hg%lookup_lt_Some].
    { clear -Hseat. unfold seat_of in Hseat. destruct (pos <? 1); [done|]. destruct ((G1 ++ G2) !! _) as [g|] eqn:Hg; [|done].
      destruct (_ && _ && _); [destruct (negb _); [done|]; by destruct (_ =? 0)|]. injection Hseat as <-. by exists g. }
    apply (seated_find (et_station_unlock y3) (G1 ++ G2) i (Before n)); [apply Hp4| |by intros Hx; apply Hia; right|done|intros m [= ->]; lia|done].
    rewrite (pl_count _ _ Hp4), Hperm. cbn. lia.
Qed.
