(* ===== verification/EtActivity.v ===== *)
(** * Processes and conductors at work together

    What others do while a call waits, or while a conductor has no mutex, is itself made
    of calls and of turns of conductors, during which others work in turn.  All of it
    keeps the system in order and leaves the events of the attachments that it does not
    call for alone. *)

From S2P Require Import Prelude Words EtTypes EtLists EtSegments EtListSpec EtStationSpec EtReadSpec.
From S2P Require Import EtConductor EtSystemInv EtConductorSpec EtAccess EtWaiting EtDetached EtSteps EtWaitSpec.
From S2P Require Import EtStations EtEventCalls EtCallSpec EtEventSpec EtDetachSpec EtAttachSpec.

(** ** Calls for events *)

Inductive event_call :=
  | NewEvent (ptr : bool) (mode : Z) (deltatime : option (Z * Z)) (size : Z)
  | NewEvents (ptr : bool) (mode : Z) (deltatime : option (Z * Z)) (size num : Z)
  | NewEventsGroup (ptr : bool) (mode : Z) (deltatime : option (Z * Z)) (size num group : Z)
  | GetEvent (ptr : bool) (mode : Z) (deltatime : option (Z * Z))
  | GetEvents (ptr : bool) (mode : Z) (deltatime : option (Z * Z)) (num : Z)
  | PutEvent (pe : nat)
  | PutEvents (ptr : bool) (pe : list nat)
  | DumpEvent (pe : nat)
  | DumpEvents (ptr : bool) (pe : list nat).

(** The events whose pointers are given. *)
Definition events_of (c : event_call) : list nat :=
  match c with
  | PutEvent x | DumpEvent x => [x]
  | PutEvents _ pe | DumpEvents _ pe => pe
  | _ => []
  end.

Definition outcome {A} (r : res (Z * A * et_id)) : res (Z * et_id) := '(st, _, d) ← r; Ret (st, d).

Definition run_call (os : answers) (d : et_id) (att : Z) (c : event_call) (ws : script) (naps : list others)
  : res (Z * et_id) :=
  match c with
  | NewEvent ptr mode deltatime size => outcome (et_event_new os d att ptr mode deltatime size ws naps)
  | NewEvents ptr mode deltatime size num => outcome (et_events_new os d att ptr mode deltatime size num ws naps)
  | NewEventsGroup ptr mode deltatime size num group =>
      outcome (et_events_new_group os d att ptr mode deltatime size num group ws naps)
  | GetEvent ptr mode deltatime => outcome (et_event_get os d att ptr mode deltatime ws)
  | GetEvents ptr mode deltatime num => outcome (et_events_get os d att ptr mode deltatime num ws)
  | PutEvent x => outcome (et_event_put os d att (Some x))
  | PutEvents ptr pe => outcome (et_events_put os d att ptr pe)
  | DumpEvent x => outcome (et_event_dump os d att (Some x))
  | DumpEvents ptr pe => outcome (et_events_dump os d att ptr pe)
  end.

Lemma outcome_safe {K : Sparing} {A} F d (r : res (Z * option A * et_id)) waits post :
  returns d r waits post → (∀ st out y', post st out y' → safe F (d_sys d) y') →
  outcome r = Blocked ∨ ∃ st y', outcome r = Ret (st, set_sys d y') ∧ safe F (d_sys d) y'.
Proof. intros [[-> _]|(st & out & y' & -> & H)] Hp; [by left|right]. exists st, y'. split; [done|]. by eapply Hp. Qed.

(** The scripts and naps of a call: what others do meanwhile. *)
Definition calm_call {K : Sparing} (att : Z) (ws : script) (naps : list others) : Prop :=
  calm_script (K := also K att) ws ∧ Forall (Calm (K := also K att)) naps.

Lemma run_call_safe {K : Sparing} os F d att c ws naps Q i :
  wf (d_sys d) Q F → seated (d_sys d) att i → calm_call att ws naps → ¬ sparing att →
  NoDup (events_of c) → known (y_events (d_sys d)) (events_of c) →
  run_call os d att c ws naps = Blocked ∨
  ∃ st y', run_call os d att c ws naps = Ret (st, set_sys d y') ∧ safe F (d_sys d) y'.
Proof.
  intros Hw Hseat [Hws Hn] HK Hnd Hk.
  assert (sparing (Sparing := also K att) att) as HKa by by left.
  assert (∀ y', safe (K := also K att) F (d_sys d) y' → safe F (d_sys d) y') as Hless.
  { intros y' [H1 H2]. split; [done|]. apply (keeps_less K (also K att)); [|done]. intros o Ho. by right. }
  destruct c; cbn [run_call events_of] in *.
  - eapply outcome_safe; [by eapply (et_event_new_ok os F att HKa)|]. intros st out y' [H _]. by apply Hless.
  - eapply outcome_safe; [by eapply (et_events_new_ok os F att HKa)|]. intros st out y' [H _]. by apply Hless.
  - eapply outcome_safe; [by eapply (et_events_new_group_ok os F att HKa)|]. intros st out y' [H _]. by apply Hless.
  - eapply outcome_safe; [by eapply (et_event_get_ok (K := also K att) os F att)|]. intros st out y' [H _]. by apply Hless.
  - eapply outcome_safe; [by eapply (et_events_get_ok (K := also K att) os F att)|]. intros st out y' [H _]. by apply Hless.
  - eapply outcome_safe; [by eapply (et_event_put_ok os F att HK)|]. by intros st out y' [H _].
  - eapply outcome_safe; [by eapply (et_events_put_ok os F att HK)|]. by intros st out y' [H _].
  - eapply outcome_safe; [by eapply (et_event_dump_ok os F att HK)|]. by intros st out y' [H _].
  - eapply outcome_safe; [by eapply (et_events_dump_ok os F att HK)|]. by intros st out y' [H _].
Qed.

(** ** Where an attachment sits *)

Definition seat_of (y : et_system) (att : Z) : option nat :=
  if att <? 0 then None else
  match y_attach y !! Z.to_nat att with
  | Some a => if (at_num a =? -1) || (at_stat a <? 0) || (Z.of_nat (length (y_stats y)) <=? at_stat a) then None
              else Some (Z.to_nat (at_stat a))
  | None => None
  end.

Lemma seat_of_seated y att i : seat_of y att = Some i → seated y att i.
Proof.
  unfold seat_of. destruct (att <? 0) eqn:E; [done|]. destruct (y_attach y !! Z.to_nat att) as [a|] eqn:Ha; [|done].
  destruct (_ || _) eqn:E2; [done|]. intros [= <-]. apply orb_false_iff in E2 as [E2 E3]. apply orb_false_iff in E2 as [E1 E2].
  split_and!; [lia| |lia]. exists (at_num a), (at_status a). split; [lia|]. unfold seats. rewrite list_lookup_fmap, Ha. cbn.
  by rewrite Z2Nat.id by lia.
Qed.

(** ** Turns of conductors *)

(** The main list from the station [i] to GrandCentral. *)
Fixpoint way (stats : list et_station) (i : nat) (fuel : nat) : res (list nat) :=
  match fuel with
  | O => NoFuel
  | S fuel =>
      if (i =? ET_GRANDCENTRAL)%nat then Ret [i] else
      j ← next_station stats i; l ← way stats j fuel; Ret (i :: l)
  end.

Definition station_fit (y : et_system) (i : nat) : bool :=
  negb (i =? ET_GRANDCENTRAL)%nat &&
  match y_stats y !! i with Some s => negb (c_prescale (s_config s) =? 0) | None => false end.

Definition group_fit (y : et_system) (i : nat) : bool :=
  match y_stats y !! i with
  | Some s => negb (c_flow_mode (s_config s) =? ET_STATION_PARALLEL) ||
      match parallels (y_stats y) i (S (length (y_stats y))) with Ret g => forallb (station_fit y) g | _ => false end
  | None => false
  end.

Definition turns (y : et_system) (i : nat) : bool :=
  match y_stats y !! i with
  | Some s => (c_flow_mode (s_config s) =? ET_STATION_PARALLEL) && (c_select_mode (s_config s) =? ET_STATION_SELECT_RROBIN)
  | None => false
  end.

(** The conductor of the station [me] has events, its way leads to GrandCentral, and only
    the first station of the way may take turns. *)
Definition fit (y : et_system) (me : nat) : bool :=
  match y_stats y !! me, y_stats y !! ET_GRANDCENTRAL, first_station (y_stats y) me with
  | Some s, Some g, Ret i =>
      (0 <? li_cnt (s_out s)) && is_active y ET_GRANDCENTRAL && (c_flow_mode (s_config g) =? ET_STATION_SERIAL) &&
      match way (y_stats y) i (S (length (y_stats y))) with
      | Ret p => forallb (λ j, (j =? ET_GRANDCENTRAL)%nat || (station_fit y j && group_fit y j)) p &&
                 forallb (λ j, negb (turns y j)) (tail p)
      | _ => false
      end
  | _, _, _ => false
  end.

Lemma forallb_true {A} (f : A → bool) l : forallb f l = true → Forall (λ x, f x = true) l.
Proof. intros H. apply List.Forall_forall. by apply forallb_forall. Qed.

Lemma station_fit_ok y i : station_fit y i = true → station_ok y i.
Proof.
  unfold station_fit. intros [H1 H2]%andb_true_iff. apply negb_true_iff, Nat.eqb_neq in H1. split; [done|].
  destruct (y_stats y !! i) as [s|] eqn:Hs; [|done]. exists s. split; [done|]. apply negb_true_iff in H2. lia.
Qed.

Lemma group_fit_ok y i : group_fit y i = true → group_ok y i.
Proof.
  unfold group_fit, group_ok. destruct (y_stats y !! i) as [s|] eqn:Hs; [|done]. intros [H|H]%orb_true_iff.
  - left. exists s. split; [done|]. apply negb_true_iff in H. lia.
  - right. destruct (parallels _ _ _) as [g| | |]; try done. exists g. split; [done|]. apply forallb_true in H.
    eapply Forall_impl; [|exact H]. intros j. apply station_fit_ok.
Qed.

Lemma way_route y i fuel p :
  way (y_stats y) i fuel = Ret p →
  forallb (λ j, (j =? ET_GRANDCENTRAL)%nat || (station_fit y j && group_fit y j)) p = true →
  route y p ∧ (∃ l, p = i :: l) ∧ (length p ≤ fuel)%nat.
Proof.
  revert i p. induction fuel as [|fuel IH]; intros i p; [done|]. cbn [way]. destruct (i =? ET_GRANDCENTRAL)%nat eqn:Hi.
  { intros [= <-] _. apply Nat.eqb_eq in Hi. split_and!; [by split; [|left]|by eexists|cbn; lia]. }
  destruct (next_station (y_stats y) i) as [j| | |] eqn:Hj; try done. cbn [mbind res_bind].
  destruct (way (y_stats y) j fuel) as [l| | |] eqn:Hl; try done. cbn [mbind res_bind]. intros [= <-]. cbn [forallb].
  rewrite Hi. cbn [orb]. intros [[H1 H2]%andb_true_iff H3]%andb_true_iff.
  destruct (IH j l Hl H3) as (Hr & (l' & ->) & Hlen). split_and!; [|by eexists|cbn in *; lia].
  split; [|by right]. split_and!; [by apply station_fit_ok|by apply group_fit_ok|done].
Qed.

Lemma turns_ok y i : turns y i = false → ¬ takes_turns y i.
Proof. unfold turns. intros H (s & Hs & H1 & H2). rewrite Hs, H1, H2 in H. done. Qed.

(** A turn of the conductor of the station [me], when it is fit. *)
Definition take_turn (env : nat → others) (user_select : nat → et_event → bool) (me : nat) : others :=
  λ y, if fit y me then match et_conductor env user_select y me with Ret (_, y', _) => y' | _ => y end else y.

Lemma take_turn_ok {K : Sparing} env user_select `{!Interference env} y me Q F :
  wf y Q F → fit y me = true →
  ∃ y' log all, et_conductor env user_select y me = Ret (true, y', log) ∧ Q !! out_place y me = Some all ∧
    concat (snd <$> log) ≡ₚ all ∧ (∃ Q', wf y' Q' F) ∧ keeps y y'.
Proof.
  intros Hw. unfold fit. destruct (y_stats y !! me) as [s|] eqn:Hs; [|done].
  destruct (y_stats y !! ET_GRANDCENTRAL) as [g|] eqn:Hg; [|done].
  destruct (first_station (y_stats y) me) as [i| | |] eqn:Hi; try done.
  intros [[[H1 H2]%andb_true_iff H3]%andb_true_iff H4]%andb_true_iff.
  destruct (way (y_stats y) i _) as [p| | |] eqn:Hp; try done. apply andb_true_iff in H4 as [H4 H5].
  destruct (way_route y i _ p Hp H4) as (Hr & (l & ->) & Hlen). cbn [tail] in H5.
  destruct (wf_out _ _ _ _ _ Hw Hs) as (all & Hall & [[Hcnt _] _ _] & _).
  destruct (conductor_ok env user_select y me s all Q F i l Hs Hw Hall) as (y' & log & Q' & Hrun & Hlog & Hw' & Hk); try done.
  - intros ->. cbn in Hcnt. rewrite Hcnt in H1. done.
  - split; [done|]. exists g. split; [done|]. lia.
  - apply forallb_true in H5. eapply Forall_impl; [|exact H5]. intros j Hj%negb_true_iff. by apply turns_ok.
  - cbn in Hlen. lia.
  - exists y', log, all. split_and!; try done. by exists Q'.
Qed.

(** ** What others do *)

(** The system after a call that returned; one that waits for ever has no effect here. *)
Definition after {A} (y : et_system) (r : res (A * et_id)) : et_system :=
  match r with Ret (_, d) => d_sys d | _ => y end.

(** A call for events of an attachment in use, with pointers to events of the system. *)
Definition act_call (os : answers) (d : et_id) (att : Z) (c : event_call) (ws : script) (naps : list others) : others := λ y,
  match seat_of y att with
  | Some _ => if decide (known (y_events y) (events_of c))
              then after y (run_call os (set_sys d y) att c ws naps) else y
  | None => y
  end.

#[export] Instance serial_dec y i : Decision (serial y i).
Proof.
  unfold serial. destruct (y_stats y !! i) as [s|] eqn:Hs.
  - destruct (decide (c_flow_mode (s_config s) = ET_STATION_PARALLEL)) as [H|H].
    + right. intros (s' & Hs' & H'). congruence.
    + left. by exists s.
  - right. by intros (s & ? & _).
Defined.

Definition attach_call (d : et_id) (stat_id : Z) : res (Z * et_id) := outcome (et_station_attach d stat_id true).
Definition detach_call (d : et_id) (att : Z) : res (Z * et_id) := outcome (et_station_detach d att).

(** Attaching to a serial station, whose status the conductors that are on their way do
    not depend on. *)
Definition act_attach (d : et_id) (stat_id : Z) : others := λ y,
  if decide (tables y ∧ known_process d y ∧ serial y (Z.to_nat stat_id)) then after y (attach_call (set_sys d y) stat_id)
  else y.

(** The station of an attachment, when it is in use and puts events back into lists of its
    own or of GrandCentral. *)
Definition may_leave (y : et_system) (att : Z) : option nat :=
  i ← seat_of y att; s ← y_stats y !! i;
  if negb (bool_decide (in_use s)) then None else
  if (c_restore_mode (s_config s) =? ET_STATION_RESTORE_GC) || (c_restore_mode (s_config s) =? ET_STATION_RESTORE_OUT) ||
     (c_restore_mode (s_config s) =? ET_STATION_RESTORE_IN) then Some i else None.

Definition act_detach (d : et_id) (att : Z) : others := λ y,
  match may_leave y att with
  | Some i => if decide (tables y ∧ known_process d y ∧ serial y i) then after y (detach_call (set_sys d y) att) else y
  | None => y
  end.

(** Calls of attachments that are not in [K], and turns of conductors, one after the other
    and within each other. *)
Inductive activity : Sparing → others → Prop :=
  | Idle K : activity K (λ y, y)
  | Then K f g : activity K f → activity K g → activity K (λ y, g (f y))
  | Calls (K : Sparing) os d att c ws naps :
      ¬ sparing (Sparing := K) att → NoDup (events_of c) →
      (∀ w run, (w, run) ∈ ws → w ≠ BadTime) → (∀ w run, (w, run) ∈ ws → activity (also K att) run) →
      (∀ run, run ∈ naps → activity (also K att) run) →
      activity K (act_call os d att c ws naps)
  | Turn K env user_select me : (∀ k, activity K (env k)) → activity K (take_turn env user_select me)
  | Comes K d stat_id : activity K (act_attach d stat_id)
  | Leaves (K : Sparing) d att : ¬ sparing (Sparing := K) att → d_cleanup d ≠ 1 → activity K (act_detach d att).

Lemma may_leave_ok y att i :
  may_leave y att = Some i →
  seated y att i ∧ ∃ s, y_stats y !! i = Some s ∧ in_use s ∧ restorable (c_restore_mode (s_config s)).
Proof.
  unfold may_leave. destruct (seat_of y att) as [j|] eqn:Hj; [|done]. cbn. destruct (y_stats y !! j) as [s|] eqn:Hs; [|done].
  cbn. destruct (bool_decide_reflect (in_use s)) as [Hu|]; [|done]. destruct (_ || _) eqn:E; [|done]. intros [= <-].
  split; [by apply seat_of_seated|]. exists s. split; [done|]. split; [done|].
  unfold restorable. apply orb_true_iff in E as [E|E]; [apply orb_true_iff in E as [E|E]|]; lia.
Qed.

Lemma calm_safe {K : Sparing} (run : others) :
  (∀ y Q F, wf y Q F → safe F y (run y)) → Calm run.
Proof. intros H. split. intros y Q F Hw. exact (H y Q F Hw). Qed.

(** Whatever others do keeps the system in order. *)
Lemma activity_calm K run : activity K run → Calm (K := K) run.
Proof.
  induction 1 as [K|K f g _ [Hf] _ [Hg]|K os d att c ws naps HK Hnd Hbad _ IHws _ IHn|K env us me _ IH|K d stat_id|K d att HK Hd].
  - apply calm_id.
  - split. intros y Q F Hw. destruct (Hf y Q F Hw) as [[Q1 Hw1] Hk1]. destruct (Hg (f y) Q1 F Hw1) as [Hw2 Hk2].
    split; [done|by eapply keeps_trans].
  - apply calm_safe. intros y Q F Hw. unfold act_call. destruct (seat_of y att) as [i|] eqn:Hseat; [|by eapply safe_refl].
    destruct (decide _) as [Hk|]; [|by eapply safe_refl]. apply seat_of_seated in Hseat.
    assert (calm_call (K := K) att ws naps) as Hcalm.
    { split; apply list.Forall_forall; [intros [w run] Hin; split; [by eapply IHws|by eapply Hbad]|done]. }
    destruct (run_call_safe os F (set_sys d y) att c ws naps Q i Hw Hseat Hcalm HK Hnd Hk) as [->|(st & y' & -> & Hs)];
      [by eapply safe_refl|exact Hs].
  - apply calm_safe. intros y Q F Hw. unfold take_turn. destruct (fit y me) eqn:Hfit; [|by eapply safe_refl].
    assert (Interference (K := K) env) as Henv by (split; intros k y1 Q1 F1 Hw1; destruct (IH k) as [Hc]; exact (Hc y1 Q1 F1 Hw1)).
    destruct (take_turn_ok env us y me Q F Hw Hfit) as (y' & log & all & -> & _ & _ & Hw' & Hk'). by split.
  - apply calm_safe. intros y Q F Hw. unfold act_attach. destruct (decide _) as [(Ht & Hp & Hser)|]; [|by eapply safe_refl].
    unfold attach_call. destruct (et_station_attach_ok F (set_sys d y) stat_id true Q Hw Ht Hp) as [[-> _]|(st & out & y' & -> & Hj)];
      [by eapply safe_refl|]. destruct Hj as [(Hw' & _ & _ & Hk' & _) _]. by split; [|apply Hk'].
  - apply calm_safe. intros y Q F Hw. unfold act_detach. destruct (may_leave y att) as [i|] eqn:Hl; [|by eapply safe_refl].
    destruct (decide _) as [(Ht & Hp & Hser)|]; [|by eapply safe_refl].
    apply may_leave_ok in Hl as (Hseat & s & Hs & Hu & Hmode). unfold detach_call.
    destruct (et_station_detach_ok F (set_sys d y) att (proj1 Hseat) HK Hd Q i s Hw Ht Hp Hseat Hs Hu Hmode)
      as [[-> _]|(st & y' & -> & Hj)]; [by eapply safe_refl|]. destruct Hj as [(Hw' & _ & _ & Hk' & _) _]. by split; [|apply Hk'].
Qed.
