(* ===== verification/EtLife.v ===== *)
(** * The life of a system

    The theorems about attachments, their events and the conductors of a system that is
    used by many processes at once. *)

From S2P Require Import Prelude Words CString EtTypes EtLists EtSegments EtListSpec EtStationSpec EtReadSpec.
From S2P Require Import EtConductor EtSystemInv EtConductorSpec EtDistribution EtAccess EtWaiting EtDetached EtSteps EtWaitSpec.
From S2P Require Import EtStations EtEventCalls EtCallSpec EtEventSpec EtDetachSpec EtAttachSpec EtPlaceSpec EtCreateSpec EtMoveSpec EtActivity.

(** Nobody's events are to be spared. *)
Definition nobody : Sparing := λ _, False.
(** The events of one attachment are. *)
Definition only (att : Z) : Sparing := λ o, o = att.

(** ** Steps of a system *)

Inductive step : et_system → et_system → Prop :=
  | Works y f : activity nobody f → step y (f y)
  | Attaches y d stat_id ptr st out d' :
      known_process d y → et_station_attach (set_sys d y) stat_id ptr = Ret (st, out, d') → step y (d_sys d')
  | Detaches y d att i st out d' :
      d_cleanup d ≠ 1 → known_process d y → may_leave y att = Some i →
      et_station_detach (set_sys d y) att = Ret (st, out, d') → step y (d_sys d')
  | Creates y starts allocated d name sconfig pos pp st out d' :
      vacant y → name ≠ cs "GRAND_CENTRAL" →
      et_station_create_at starts allocated (set_sys d y) (Some name) sconfig pos pp = Ret (st, out, d') → step y (d_sys d')
  | Removes y conductors d stat_id s st out d' :
      (∀ k, activity nobody (conductors k)) →
      Z.to_nat stat_id ≠ ET_GRANDCENTRAL → y_stats y !! Z.to_nat stat_id = Some s → in_use s →
      et_station_remove conductors (set_sys d y) stat_id = Ret (st, out, d') → step y (d_sys d')
  | Moves y d stat_id pos pp G1 G2 n st out d' :
      placed y (G1 ++ [Z.to_nat stat_id] :: G2) →
      EtInsertSpec.seat_of y (G1 ++ G2) (Z.to_nat stat_id) pos pp = EtInsertSpec.Before n →
      et_station_setposition (set_sys d y) stat_id pos pp = Ret (st, out, d') → step y (d_sys d').

(** The lists of the stations, the input lists before the output lists, are in order, and
    each event is in one of them, once, or belongs to one attachment. *)
Definition accounted (y : et_system) : Prop :=
  ∃ Q, Forall2 (in_list (y_events y)) (lists y) Q ∧ NoDup (concat Q) ∧
    ∀ x e, y_events y !! x = Some e →
      (x ∈ concat Q ∧ e_owner e = ET_SYS) ∨ (x ∉ concat Q ∧ 0 ≤ e_owner e < Z.of_nat (length (y_attach y))).

Definition good (y : et_system) : Prop := (∃ Q, wf y Q []) ∧ tables y ∧ ∃ G, placed y G.

Lemma good_accounted y : good y → accounted y.
Proof.
  intros [[Q Hw] _]. exists Q. split_and!.
  - eapply (list.Forall2_impl _ _ _ _ (wf_lists _ _ _ Hw)). by intros pl q [H _].
  - pose proof (wf_nodup _ _ _ Hw) as H. by rewrite app_nil_r in H.
  - intros x e He. pose proof (wf_owner _ _ _ Hw x e He) as Ho. rewrite app_nil_r in Ho.
    destruct (decide (e_owner e = ET_SYS)) as [E|E]; [left|right]; [tauto|]. split; [tauto|]. by apply (wf_owners _ _ _ Hw x).
Qed.

Lemma good_tidy y i y' : (∃ G, placed y G) → tidy (K := nobody) [] y i y' → good y'.
Proof. intros [G HG] (Hw & Ht & Hal & _). split_and!; [done|done|]. exists G. by eapply placed_alike. Qed.

(** A call that returned did not wait. *)
Lemma returns_sys {A} d y (r : res (Z * option A * et_id)) waits post st out d' :
  returns (set_sys d y) r waits post → r = Ret (st, out, d') → post st out (d_sys d').
Proof. intros [[-> _]|(st' & out' & y' & -> & H)]; [done|]. by intros [= <- <- <-]. Qed.

Lemma placed_in y G i s : placed y G → y_stats y !! i = Some s → in_use s → i ≠ ET_GRANDCENTRAL → i ∈ concat G.
Proof.
  intros Hp Hs Hu Hi. destruct (decide (i ∈ ET_GRANDCENTRAL :: concat G)) as [[?|?]%elem_of_cons|Hn]; [done|done|].
  exfalso. pose proof (pl_unused _ _ _ _ Hp Hs Hn) as H. destruct Hu as [E|E]; by rewrite E in H.
Qed.

Lemma step_good y y' : step y y' → good y → good y'.
Proof.
  intros Hstep ([Q Hw] & Ht & HG). pose proof HG as [G HP].
  destruct Hstep as [y f Hf|y d stat_id ptr st out d' Hp Hr|y d att i st out d' Hd Hp Hl Hr
    |y starts allocated d name sconfig pos pp st out d' Hv Hn Hr|y conductors d stat_id s st out d' Hc Hne Hs Hu Hr
    |y d stat_id pos pp G1 G2 n st out d' HP' Hseat Hr].
  - destruct (activity_calm nobody f Hf) as [Hc]. apply (good_tidy y 0%nat); [done|]. by apply tidy_safe, (Hc y Q []).
  - destruct (returns_sys d y _ _ _ _ _ _ (et_station_attach_ok (K := nobody) [] (set_sys d y) stat_id ptr Q Hw Ht Hp) Hr) as [H _].
    by eapply good_tidy.
  - apply may_leave_ok in Hl as (Hseat & s & Hs & Hu & Hmode).
    assert (¬ sparing (Sparing := nobody) att) as HK by by intros [].
    destruct (et_station_detach_ok [] (set_sys d y) att (proj1 Hseat) HK Hd Q i s Hw Ht Hp Hseat Hs Hu Hmode)
      as [[H _]|(st' & y' & H & [H1 _])]; rewrite H in Hr; [done|]. injection Hr as <- <- <-. by eapply good_tidy.
  - destruct (returns_sys d y _ _ _ _ _ _ (et_station_create_at_ok [] starts allocated (set_sys d y) name sconfig pos pp Q G Hw Ht HP Hv Hn) Hr)
      as [[_ ->]|(H1 & H2 & _ & _ & _ & [[H3 _]|[_ (i & s & _ & _ & _ & _ & _ & _ & H3 & _)]])]; split_and!; try done; by eexists.
  - assert (∀ k, Calm (K := nobody) (conductors k)) as Hcalm by (intros k; by apply activity_calm).
    pose proof (placed_in _ _ _ _ HP Hs Hu Hne) as Hi.
    destruct (returns_sys d y _ _ _ _ _ _ (et_station_remove_ok [] conductors Hcalm (set_sys d y) stat_id Q G Hw Ht HP Hi) Hr)
      as (H1 & H2 & _ & H3 & H4). split_and!; [done..|].
    destruct (decide (st = ET_OK)) as [->|Hst]; [destruct H4 as [H4 _]; [done|by eexists]|]. by rewrite H3.
  - destruct (returns_sys d y _ _ _ _ _ _ (et_station_setposition_ok [] (set_sys d y) stat_id pos pp Q G1 G2 n Hw Ht HP' Hseat) Hr)
      as [[_ ->]|(_ & H1 & H2 & _ & _ & H3 & _)]; split_and!; try done; by eexists.
Qed.



(** ** Calls for events *)

(** What others do while an attachment waits in a call: they do not call for it. *)
Definition others_script (K : Sparing) (att : Z) (ws : script) : Prop :=
  ∀ w run, (w, run) ∈ ws → w ≠ BadTime ∧ activity (also K att) run.

Lemma others_calm K att ws : others_script K att ws → calm_script (K := also K att) ws.
Proof.
  intros H. apply list.Forall_forall. intros [w run] Hin. destruct (H w run Hin) as [H1 H2]. split; [|done].
  by apply activity_calm.
Qed.

(** C6: a call that gets events returns, or waits for somebody who leaves events in the list
    (or for the lock of the memory).  When it returns the system is in order; the events it
    gives belong to the attachment and to nobody else, are different and at most as many as
    were asked for; those that it had are still its own. *)
Theorem events_got os d att i Q F ptr mode deltatime num ws pe0 :
  wf (d_sys d) Q F → seated (d_sys d) att i → others_script nobody att ws → owned (y_events (d_sys d)) att pe0 →
  let r := et_events_get os d att ptr mode deltatime num ws in
  (r = Blocked ∧ (et_memRead_lock d = Blocked ∨ wait_of mode ≠ ET_ASYNC)) ∨
  ∃ st out y', r = Ret (st, out, set_sys d y') ∧ (∃ Q', wf y' Q' F) ∧ owned (y_events y') att pe0 ∧
    ∀ pe, out = Some pe →
      st = ET_OK ∧ NoDup pe ∧ owned (y_events y') att pe ∧ Z.of_nat (length pe) ≤ Z.max num 0.
Proof.
  intros Hw Hseat Hws Ho. apply others_calm in Hws.
  destruct (et_events_get_ok (K := also nobody att) os F att d Q i ws Hw Hseat Hws ptr mode deltatime num)
    as [[H1 H2]|(st & out & y' & H1 & [H2 H3] & H4)]; [by left|right]. exists st, out, y'. split_and!; try done.
  apply (keeps_owned (K := also nobody att) _ _ _ _ H3); [by left|by eapply seated_not_sys|done].
Qed.

(** ** A reader that sleeps *)

Section Sleep.
  Context {K : Sparing} (F : list nat) (att num : Z) (i : nat) (Hnum : 0 < num).

(** What the reader takes, once it has the mutex of a list that is not empty. *)
Lemma take_front y s Q q :
  held y i s Q F → valid y att → Q !! i = Some q → q ≠ [] →
  ∃ m s', nread_take (y_events y) s att num = Ret (take (Z.to_nat num) q, m, s') ∧
    let y' := set_station y i (λ _, s') <| y_events := m |> in
    safe F y y' ∧ owned m att (take (Z.to_nat num) q) ∧
    y_stats y' !! i = Some s' ∧ in_list m (s_in s') (drop (Z.to_nat num) q).
Proof.
  intros Hh Hv Hq Hne. destruct (held_list _ _ _ _ _ Hh) as (q' & Hq' & Hin). assert (q' = q) as -> by congruence.
  destruct (nread_take_ok (y_events y) s q att num Hin Hne Hnum) as (m & s' & Hr & H1 & H2 & H3 & H4 & H5).
  exists m, s'. split; [done|].
  destruct (take_step y i s Q F q (take (Z.to_nat num) q) (drop (Z.to_nat num) q) m s' att Hh) as (G1 & G2 & G3 & G4); try done.
  - split; [done|]. intros x _. by rewrite H2.
  - by rewrite take_drop.
  - split_and!; try done. unfold set_station. fields. by rewrite list_lookup_alter_eq, (he_station _ _ _ _ _ Hh).
Qed.

(** The attachment as it is marked while it waits. *)
Definition waiting (y : et_system) (a : et_attach) : et_system :=
  y <| y_attach := <[Z.to_nat att := a <| at_blocked := ET_ATT_BLOCKED |>]> (y_attach y) |>.

Lemma wait_events_ready y att' ws s :
  y_stats y !! i = Some s → 0 < li_cnt (s_in s) → wait_events y i att' false ws = Ret (ET_OK, y, ws).
Proof.
  intros Hs Hc. destruct ws as [|[w run] ws]; cbn [wait_events]; unfold station; rewrite Hs; step;
    by replace (0 <? li_cnt (s_in s)) with true by (symmetry; by apply Z.ltb_lt).
Qed.

(** The list is empty; the others run, do not tell the attachment to quit, and leave the
    events [q] in the list. *)
Lemma et_station_nread_woken y Q s a w run ws Q2 q a2 :
  wf y Q F → i ≠ ET_GRANDCENTRAL → y_stats y !! i = Some s → li_cnt (s_in s) <= 0 → attachment y att = Ret a → valid y att →
  keeps y (run (waiting y a)) → wf (run (waiting y a)) Q2 F → Q2 !! i = Some q → q ≠ [] →
  attachment (run (waiting y a)) att = Ret a2 → at_quit a2 ≠ ET_ATT_QUIT →
  ∃ y' s', et_station_nread y i ET_SLEEP att ((w, run) :: ws) num = Ret (ET_OK, take (Z.to_nat num) q, y') ∧
    safe F y y' ∧ owned (y_events y') att (take (Z.to_nat num) q) ∧
    y_stats y' !! i = Some s' ∧ in_list (y_events y') (s_in s') (drop (Z.to_nat num) q).
Proof.
  intros Hw Hgc Hs Hcnt Hatt Hv Hk Hw2 Hq Hne Ha2 Hquit. unfold et_station_nread.
  replace (num <? 1) with false by (symmetry; apply Z.ltb_ge; lia). unfold wait_input. cbn [Z.eqb ET_SLEEP orb].
  destruct (wf_list _ _ _ _ _ Hw Hs) as (q0 & _ & _ & Hlock).
  set (pl := s_in s <| li_lock := true |>). set (y1 := set_station y i (λ s, s <| s_in := pl |>)).
  assert (lock_list y i = Ret y1) as -> by (unfold lock_list, station, et_llist_lock; rewrite Hs; step; by rewrite Hlock).
  assert (y_stats y1 !! i = Some (s <| s_in := pl |>)) as Hs1 by by apply (lookup_set_station y i s (λ s, s <| s_in := pl |>)).
  step. unfold station. rewrite Hs1. step. unfold count_inputs. rewrite (proj2 (Nat.eqb_neq _ _) Hgc). step.
  cbn [untimed fmap list_fmap snd wait_events]. unfold station. rewrite Hs1. step. fields.
  change (li_cnt pl) with (li_cnt (s_in s)).
  replace (0 <? li_cnt (s_in s)) with false by (symmetry; apply Z.ltb_ge; lia). cbn [andb].
  set (y2 := run (waiting y a)) in *.
  assert (valid y2 att) as Hv2 by by eapply valid_keeps.
  destruct (keeps_exists _ _ _ _ Hk Hs) as (s2 & Hs2).
  destruct (lock_list_ok y2 Q2 F i s2 Hw2 Hs2) as (y3 & Hl3 & Hh3 & Hk3 & Hatt3 & _).
  destruct (set_attachment_ok y3 att (λ a, a <| at_blocked := ET_ATT_UNBLOCKED |>)) as (y4 & Hr4 & He4 & Hs4 & Hf4 & Ht4);
    [by eapply valid_keeps|done..|].
  assert (cond_wait y1 i att run = Ret y4) as ->.
  { unfold cond_wait, set_attachment. change (attachment y1 att) with (attachment y att). rewrite Hatt. step.
    change (y_attach y1) with (y_attach y). unfold valid in Hv. rewrite aset_ok by done. step.
    set (f := λ s : et_station, s <| s_in := pl |>).
    assert (unlock_list (y1 <| y_attach := <[Z.to_nat att := a <| at_blocked := ET_ATT_BLOCKED |>]> (y_attach y) |>) i = waiting y a) as ->.
    { assert (unlock_list y1 i = y) as Hu.
      { unfold unlock_list, y1. rewrite set_station_compose. apply (set_station_id y i s); [done|].
        unfold pl, et_llist_unlock. destruct s as [? ? ? ? ? ? ? ? ? ? ? ? sin ? ? ? ?]. destruct sin. cbn in *. by subst. }
      set (L := <[_ := _]> _). change (unlock_list y1 i <| y_attach := L |> = y <| y_attach := L |>). by rewrite Hu. }
    fold y2. rewrite Hl3. step. exact Hr4. }
  step.
  assert (∃ a4, attachment y4 att = Ret a4 ∧ at_quit a4 = at_quit a2) as (a4 & Ha4 & Hq4).
  { assert (attachment y3 att = Ret a2) as Ha3 by (unfold attachment; by rewrite Hatt3).
    unfold set_attachment in Hr4. rewrite Ha3 in Hr4. cbn [mbind res_bind] in Hr4.
    assert (0 ≤ att < Z.of_nat (length (y_attach y3))) as Hv3 by (rewrite Hatt3; exact Hv2).
    rewrite aset_ok in Hr4 by done. cbn [mbind res_bind] in Hr4. injection Hr4 as <-.
    eexists. split; [unfold attachment; fields; apply aget_ok; [lia|]; apply list_lookup_insert_eq; lia|]. done. }
  unfold quits. rewrite Ha4. step. rewrite Hq4, (proj2 (Z.eqb_neq _ _) Hquit). step.
  pose proof (held_same _ _ _ _ _ _ He4 Hs4 Hf4 Hh3) as Hh4. set (s3 := s2 <| s_in := _ |>) in *.
  assert (keeps y3 y4) as Hk4 by (apply keeps_same; [done|by rewrite He4|done|done]).
  destruct (held_list _ _ _ _ _ Hh4) as (q' & Hq' & Hin4). assert (q' = q) as -> by congruence.
  assert (0 < li_cnt (s_in s3)) as Hpos by (destruct Hin4 as [Hc _]; rewrite Hc; destruct q; [done|cbn; lia]).
  rewrite (wait_events_ready y4 att _ s3) by (done || apply (he_station _ _ _ _ _ Hh4)). step. cbn [negb Z.eqb ET_OK].
  unfold station. rewrite (he_station _ _ _ _ _ Hh4). step.
  destruct (take_front y4 s3 Q2 q Hh4) as (m & s' & -> & H1 & H2 & H3 & H4); try done.
  { eapply valid_keeps; [exact Hk4|]. by eapply valid_keeps. }
  step. eexists _, s'. split; [done|]. split_and!; try done. destruct H1 as [G1 G2]. split; [done|].
  eapply keeps_trans; [exact Hk|]. eapply keeps_trans; [exact Hk3|]. by eapply keeps_trans.
Qed.
End Sleep.

Lemma attach_buffers_all os m pe : (∀ x, temp_attach os x = true) → known m pe → attach_buffers os m pe = Ret true.
Proof.
  intros Hos. induction 1 as [|x pe [e He] _ IH]; [done|]. cbn [attach_buffers]. unfold ev. cbn [of_option mbind res_bind].
  rewrite He. step. rewrite Hos, andb_false_r. done.
Qed.

(** C7: an attachment that sleeps because the list of its station is empty is served: when
    others have left events in the list and the attachment is woken up, without being told
    to quit, the call returns with the first events of the list as the others left it, as
    many as were asked for if there are; the others stay in the list, in order. *)
Theorem sleeper_served os d att i a s s2 a2 Q F mode num w run ws :
  let y := d_sys d in let y2 := run (waiting att y a) in
  wf y Q F → seated y att i → activity (also nobody att) run → (∀ x, temp_attach os x = true) →
  d_alive d = true → d_closed d = false → ml_writer (d_mem d) = false →
  attachment y att = Ret a → at_status a = ET_ATT_ACTIVE → i ≠ ET_GRANDCENTRAL → 0 < num → wait_of mode = ET_SLEEP →
  y_stats y !! i = Some s → li_cnt (s_in s) <= 0 →
  y_stats y2 !! i = Some s2 → 0 < li_cnt (s_in s2) → attachment y2 att = Ret a2 → at_quit a2 ≠ ET_ATT_QUIT →
  ∃ q y' s', et_events_get os d att true mode None num ((w, run) :: ws) =
      Ret (ET_OK, Some (take (Z.to_nat num) q), set_sys d y') ∧
    in_list (y_events y2) (s_in s2) q ∧ q ≠ [] ∧ owned (y_events y') att (take (Z.to_nat num) q) ∧
    y_stats y' !! i = Some s' ∧ in_list (y_events y') (s_in s') (drop (Z.to_nat num) q) ∧ ∃ Q', wf y' Q' F.
Proof.
  intros y y2 Hw Hseat Hrun Hos Halive Hclosed Hmem Ha Hst Hi Hnum Hmode Hs Hcnt Hs2 Hcnt2 Ha2 Hquit.
  pose proof (seated_valid _ _ _ Hseat) as Hv. destruct (activity_calm _ _ Hrun) as [Hc].
  assert (safe (K := also nobody att) F y (waiting att y a)) as [[Q1 Hw1] Hk1].
  { destruct (set_attachment_ok y att (λ a, a <| at_blocked := ET_ATT_BLOCKED |>) Hv) as (y1 & Hr & He & Hs1 & Hf & Ht); [done..|].
    unfold set_attachment in Hr. rewrite Ha in Hr. cbn [mbind res_bind] in Hr. unfold valid in Hv. rewrite aset_ok in Hr by done.
    cbn [mbind res_bind] in Hr. assert (y1 = waiting att y a) as -> by (by injection Hr as <-). by eapply safe_same. }
  destruct (Hc _ _ _ Hw1) as [[Q2 Hw2] Hk2]. fold y2 in Hw2, Hk2.
  destruct (wf_list _ _ _ _ _ Hw2 Hs2) as (q & Hq & Hin & _).
  assert (q ≠ []) as Hne by by eapply nonempty.
  destruct (et_station_nread_woken (K := also nobody att) F att num i Hnum y Q s a w run ws Q2 q a2) as (y3 & s3 & Hr & [[Q3 Hw3] Hk3] & Ho & Hs3 & Hin3);
    try done; [by eapply keeps_trans|].
  assert (valid y3 att) as Hv3 by by eapply valid_keeps.
  set (f := λ a, a <| at_events_get ::= λ n, u64 (n + Z.of_nat (length (take (Z.to_nat num) q))) |>).
  destruct (set_attachment_ok y3 att f Hv3) as (y4 & Hr4 & He4 & Hs4 & Hf4 & Ht4); [done..|].
  exists q, y4, s3. rewrite He4, Hs4. split_and!; try done; [|exists Q3; by eapply wf_same].
  unfold et_events_get. replace (num =? 0) with false by (symmetry; apply Z.eqb_neq; lia).
  assert (0 ≤ att) as Hatt by by destruct Hseat. replace (att <? 0) with false by lia. replace (num <? 0) with false by (symmetry; apply Z.ltb_ge; lia).
  unfold bad_wait. rewrite Hmode. cbn [orb negb andb Z.eqb ET_SLEEP ET_TIMED ET_ASYNC]. unfold with_memory. rewrite Halive. cbn [negb].
  destruct (et_memRead_lock d) as [d1| | |] eqn:Hl; unfold et_memRead_lock in Hl; rewrite Hmem in Hl; try done. step.
  pose proof (λ y, unlock_mem d d1 y ltac:(unfold et_memRead_lock; by rewrite Hmem)) as Hu.
  assert (d_sys d1 = y ∧ d_closed d1 = false) as [Hd1 Hc1] by (injection Hl as <-; by ids). rewrite Hc1.
  unfold get_events. rewrite Hd1, Ha. step. rewrite Hst, Z.eqb_refl. cbn [negb].
  destruct (seated_attachment _ _ _ Hseat) as (a' & s' & Ha' & Hst' & _). assert (a' = a) as -> by congruence.
  rewrite Hst'. rewrite (proj2 (Z.eqb_neq _ _)) by lia. replace (Z.of_nat i <? 0) with false by (symmetry; apply Z.ltb_ge; lia).
  rewrite Nat2Z.id. fold y in Hr. rewrite Hr. step. cbn [negb Z.eqb ET_OK].
  change (d_sys (set_sys d1 y3)) with y3.
  rewrite (attach_buffers_all os _ _ Hos (owned_known _ _ _ Ho)). step. cbn [negb]. fold f. rewrite Hr4. step.
  unfold leave. rewrite set_sys_twice. unfold set_sys at 1. rewrite Hu. done.
Qed.

(** The attachments other than one. *)
Definition except (att : Z) : Sparing := λ o, o ≠ att.

Lemma except_owned y y' att att' pe :
  keeps (K := except att) y y' → att' ≠ att → att' ≠ ET_SYS → owned (y_events y) att' pe → owned (y_events y') att' pe.
Proof. intros Hk Hne Hs Ho. by apply (keeps_owned (K := except att) y). Qed.

Lemma except_not att : ¬ sparing (Sparing := except att) att.
Proof. intros H. by apply H. Qed.




(** ** Attachments *)



(** ** Examples *)

Definition yes : answers := mkAnswers (λ _, true) (λ _, true) (λ _, true) (λ _, true) true.

(** An attachment with the number [n] at the station [i]. *)
Definition sitting (n i : Z) : et_attach :=
  et_init_attachment <| at_num := n |> <| at_proc := ET_SYS |> <| at_stat := i |> <| at_status := ET_ATT_ACTIVE |>.

(** Three stations in a row with an attachment each at the last two; the first of these
    owns the events 0 and 1; 2 and 3 are in the input list of its station and the others in
    that of GrandCentral. *)
Definition desk : et_system :=
  mkSys 8 1000 4 3 4 3 0 2 2
    (list_to_map [(0%nat, et_init_event <| e_owner := 0 |>); (1%nat, et_init_event <| e_owner := 0 |>)]
     ∪ chain_of (seq 2 2) ∪ chain_of (seq 4 4))
    [ a_station 0 1 (-1) (-1) (-1) (configured ET_STATION_SERIAL ET_STATION_BLOCKING 1 10 ET_STATION_SELECT_ALL)
        <| s_in := list_of (seq 4 4) |>;
      a_station 1 2 0 (-1) (-1) (configured ET_STATION_SERIAL ET_STATION_BLOCKING 1 10 ET_STATION_SELECT_ALL)
        <| s_in := list_of (seq 2 2) |> <| s_nattachments := 1 |> <| s_att ::= <[0%nat := 0]> |>;
      a_station 2 (-1) 1 (-1) (-1) (configured ET_STATION_SERIAL ET_STATION_BLOCKING 1 10 ET_STATION_SELECT_ALL)
        <| s_nattachments := 1 |> <| s_att ::= <[1%nat := 1]> |> ]
    [sitting 0 1; sitting 1 2; et_init_attachment; et_init_attachment] (replicate 9 0) [] 0 100 false false.

Definition desk_lists : list (list nat) := [seq 4 4; seq 2 2; []; []; []; []].
Definition user : et_id := mkId true false 0 ET_SYS 0 0 (mkMem 0 false) desk.

Lemma desk_wf : wf desk desk_lists [].
Proof.
  assert (∀ l m, l = [] → in_list m fresh_list l ∧ li_lock fresh_list = false) as Hnil.
  { intros l m ->. split; [|done]. apply listed; [done|constructor|exact I]. }
  split.
  - constructor; [split; [|done]; apply listed; [done|decided|check_links]|].
    constructor; [split; [|done]; apply listed; [done|decided|check_links]|].
    do 4 (constructor; [by apply Hnil|]). constructor.
  - intros k pl q Hk Hpl Hq. cbn in Hk. do 3 (destruct k as [|k]; [lia|]).
    do 3 (destruct k as [|k]; [injection Hpl as <-; injection Hq as <-; split; [decided|vm_compute; reflexivity]|]). done.
  - decided.
  - decided.
  - assert (map_Forall (λ x e, e_priority e = ET_LOW ∨ e_priority e = ET_HIGH) (y_events desk)) as H by decided. exact H.
  - split; [done|]. decided.
  - assert (map_Forall (λ x e, x ∈ concat desk_lists ++ [] ↔ e_owner e = ET_SYS) (y_events desk)) as H by decided. exact H.
  - assert (map_Forall (λ x e, e_owner e ≠ ET_SYS → 0 ≤ e_owner e < 4) (y_events desk)) as H by decided. exact H.
  - done.
Qed.

Lemma desk_placed : placed desk [[1]; [2]]%nat.
Proof.
  split; [split|done| |done].
  - check_links.
  - repeat constructor; (done || check_links).
  - do 2 (constructor; [intros Hl; cbn in Hl; lia|]). constructor.
  - constructor.
  - decided.
  - decided.
  - reflexivity.
  - intros [|[|[|i]]] s; intros [= <-]; reflexivity.
Qed.

Lemma desk_good : good desk.
Proof. split_and!; [exists desk_lists; apply desk_wf|decided|exists [[1]; [2]]%nat; apply desk_placed]. Qed.

Lemma desk_seated att i : seat_of desk att = Some i → seated desk att i.
Proof. apply seat_of_seated. Qed.

Lemma desk_owned : owned (y_events desk) 0 [0%nat; 1%nat].
Proof. decided. Qed.

(** The attachment 0 puts its events and the conductor of its station passes them on. *)
Definition deliver : others := λ y,
  take_turn (λ _ y, y) (λ _ _, true) 1 (act_call yes user 0 (PutEvents true [0; 1]%nat) [] [] y).

Lemma deliver_activity (K : Sparing) : ¬ sparing (Sparing := K) 0 → activity K deliver.
Proof.
  intros HK. unfold deliver.
  apply (Then K (act_call yes user 0 (PutEvents true [0; 1]%nat) [] []) (take_turn (λ _ y, y) (λ _ _, true) 1)).
  - apply Calls; [done|decided|by intros w run H%not_elem_of_nil..|by intros run H%not_elem_of_nil].
  - apply Turn. intros k. apply Idle.
Qed.

(** Meanwhile the attachment 1 sleeps. *)
Definition fetch : others := act_call yes user 1 (GetEvents true ET_SLEEP None 2) [(Woken, deliver)] [].

Lemma fetch_activity (K : Sparing) : ¬ sparing (Sparing := K) 0 → ¬ sparing (Sparing := K) 1 → activity K fetch.
Proof.
  intros H0 H1. apply Calls; [done|decided| | |by intros run H%not_elem_of_nil].
  - by intros w run [= -> ->]%list_elem_of_singleton.
  - intros w run [= -> ->]%list_elem_of_singleton. apply deliver_activity. by intros [[=]|?].
Qed.



Lemma events_got_witness :
  let r := et_events_get yes user 0 true ET_ASYNC None 5 [] in
  (∃ d', r = Ret (ET_OK, Some [2; 3]%nat, d')) ∧
  ((r = Blocked ∧ (et_memRead_lock user = Blocked ∨ wait_of ET_ASYNC ≠ ET_ASYNC)) ∨
   ∃ st out y', r = Ret (st, out, set_sys user y') ∧ (∃ Q', wf y' Q' []) ∧ owned (y_events y') 0 [0; 1]%nat ∧
     ∀ pe, out = Some pe →
       st = ET_OK ∧ NoDup pe ∧ owned (y_events y') 0 pe ∧ Z.of_nat (length pe) ≤ Z.max 5 0).
Proof.
  intros r. split; [eexists; vm_compute; reflexivity|].
  apply (events_got yes user 0 1 desk_lists [] true ET_ASYNC None 5 [] [0; 1]%nat desk_wf).
  - by apply desk_seated.
  - by intros w run H%not_elem_of_nil.
  - apply desk_owned.
Defined.

Lemma sleeper_served_witness :
  ∃ q y' s', et_events_get yes user 1 true ET_SLEEP None 1 [(Woken, deliver)] =
      Ret (ET_OK, Some (take 1 q), set_sys user y') ∧
    q ≠ [] ∧ owned (y_events y') 1 (take 1 q) ∧ y_stats y' !! 2%nat = Some s' ∧ in_list (y_events y') (s_in s') (drop 1 q).
Proof.
  edestruct (sleeper_served yes user 1 2) as (q & y' & s' & H1 & _ & H2 & H3 & H4 & H5 & _).
  - apply desk_wf.
  - by apply desk_seated.
  - apply deliver_activity. by intros [[=]|[]].
  - done.
  - done.
  - done.
  - done.
  - reflexivity.
  - done.
  - done.
  - instantiate (1 := 1). lia.
  - instantiate (1 := ET_SLEEP). done.
  - reflexivity.
  - done.
  - vm_compute. reflexivity.
  - vm_compute. reflexivity.
  - vm_compute. reflexivity.
  - vm_compute. congruence.
  - exists q, y', s'. split_and!; [exact H1|done|exact H3|exact H4|exact H5].
Defined.

Lemma desk_known l : Forall (λ x, (x < 8)%nat) l → known (y_events desk) l.
Proof.
  assert (∀ x, (x < 8)%nat → is_Some (y_events desk !! x)) as H.
  { intros x Hx. do 8 (destruct x as [|x]; [eexists; vm_compute; reflexivity|]). lia. }
  apply Forall_impl. exact H.
Qed.



(** Three events larger than those of the system; the attachment 1 works meanwhile. *)
Definition other_work : others := act_call yes user 1 (NewEvents true ET_ASYNC None 100 1) [] [].



