(* ===== verification/EtPlaces.v ===== *)
(** * The places of stations

    The theorems about creating, removing and moving stations.  The groups [G] of [placed]
    are the stations in use in the order of the main list, each parallel group with its
    members in order. *)

From S2P Require Import Prelude Words CString EtTypes EtLists EtSegments EtListSpec EtStationSpec EtConductor EtChains EtChainSpec.
From S2P Require Import EtInsertSpec EtSystemInv EtConductorSpec EtDistribution EtAccess EtWaiting EtDetached EtStatConfig EtSteps EtWaitSpec.
From S2P Require Import EtStations EtCallSpec EtAttachSpec EtPlaceSpec EtCreateSpec EtMoveSpec EtActivity EtLife.

(** C14: a new station gets an unused place of the array and its name and configuration, and
    is found in the chains at the position that was asked for; or there is a station of that
    name and configuration already, and it is given; or the call fails and the chains are
    as before.  No event changes its place. *)
Theorem station_created starts allocated d name sconfig position parallelposition Q F G :
  let y := d_sys d in
  wf y Q F → tables y → placed y G → vacant y → name ≠ cs "GRAND_CENTRAL" →
  let r := et_station_create_at starts allocated d (Some name) sconfig position parallelposition in
  let conf := checked y allocated sconfig in
  (r = Blocked ∧ (et_memRead_lock d = Blocked ∨ stations_busy y)) ∨
  ∃ st out y', r = Ret (st, out, set_sys d y') ∧ (∃ Q', wf y' Q' F) ∧ tables y' ∧ y_events y' = y_events y ∧
    (st ≠ ET_OK → placed y' G) ∧
    (st = ET_OK → (y' = y ∧ present name conf y out) ∨
      ∃ i s, out = Some (Z.of_nat i) ∧ i ∉ ET_GRANDCENTRAL :: concat G ∧
        y_stats y' !! i = Some s ∧ s_name s = name ∧ s_config s = conf ∧
        let t := EtInsertSpec.seat_of y' G i position parallelposition in
        placed y' (EtInsertSpec.seated G i t) ∧ station_find y' i = Ret (Some (seat_place G t))).
Proof.
  intros y Hw Ht Hp Hv Hn r conf.
  destruct (et_station_create_at_ok F starts allocated d name sconfig position parallelposition Q G Hw Ht Hp Hv Hn)
    as [H|(st & out & y' & Hr & [[Hst ->]|(H1 & H2 & _ & H3 & _ & H4)])]; [by left| |]; right.
  - exists st, out, y. split_and!; try done. by exists Q.
  - exists st, out, y'. split_and!; try done.
    + intros Hst. destruct H4 as [[H4 _]|[H4 _]]; [done|by destruct Hst].
    + intros Hst. destruct H4 as [[_ H4]|(_ & i & s & E1 & E2 & E3 & E4 & E5 & _ & E6 & E7)]; [by left; apply H4|right].
      by exists i, s.
Qed.


(** C16: a station that is a group of its own and is moved before another group is found
    there afterwards; the other stations stay in their order, the number of stations and
    all events as they were; or the call fails and nothing has changed. *)
Theorem station_moved d stat_id pos pp Q F G1 G2 n :
  let y := d_sys d in let i := Z.to_nat stat_id in
  wf y Q F → tables y → placed y (G1 ++ [i] :: G2) → EtInsertSpec.seat_of y (G1 ++ G2) i pos pp = Before n →
  let r := et_station_setposition d stat_id pos pp in
  (r = Blocked ∧ (et_memRead_lock d = Blocked ∨ stations_busy y)) ∨
  ∃ st out y', r = Ret (st, out, set_sys d y') ∧ (∃ Q', wf y' Q' F) ∧ tables y' ∧ y_events y' = y_events y ∧
    (st ≠ ET_OK → y' = y) ∧
    (st = ET_OK →
      placed y' (take n (G1 ++ G2) ++ [i] :: drop n (G1 ++ G2)) ∧ station_find y' i = Ret (Some (Z.of_nat n + 1, 0)) ∧
      y_nstations y' = y_nstations y).
Proof.
  intros y i Hw Ht Hp Hseat r.
  destruct (et_station_setposition_ok F d stat_id pos pp Q G1 G2 n Hw Ht Hp Hseat)
    as [H|(st & out & y' & Hr & [[Hst ->]|(-> & H1 & H2 & _ & H3 & H4 & H5)])]; [by left| |]; right.
  - exists st, out, y. split_and!; try done. by exists Q.
  - exists ET_OK, out, y'. split_and!; try done. intros _. split_and!; [done|done|].
    assert (concat (EtInsertSpec.seated (G1 ++ G2) i (Before n)) ≡ₚ concat (G1 ++ [i] :: G2)) as E.
    { unfold EtInsertSpec.seated. rewrite concat_app. cbn [concat app]. rewrite <- Permutation_middle, <- concat_app, take_drop.
      rewrite !concat_app. cbn [concat app]. by rewrite <- Permutation_middle. }
    apply Permutation_length in E. rewrite (pl_count _ _ H4), (pl_count _ _ Hp). f_equal. f_equal. exact E.
Qed.

(** ** Examples *)

(** The system [desk] with two more places for stations, and with nobody attached to the
    first station. *)
Definition hall : et_system :=
  desk <| y_max_stations := 5 |>
    <| y_stats := alter (λ s, s <| s_nattachments := 0 |>) 1%nat (y_stats desk) ++ [fresh_station; fresh_station] |>.
Definition hall_lists : list (list nat) := [seq 4 4; seq 2 2; []; []; []; []; []; []; []; []].
Definition manager : et_id := set_sys user hall.

Lemma hall_wf : wf hall hall_lists [].
Proof.
  assert (∀ l m, l = [] → in_list m fresh_list l ∧ li_lock fresh_list = false) as Hnil.
  { intros l m ->. split; [|done]. apply listed; [done|constructor|exact I]. }
  split.
  - constructor; [split; [|done]; apply listed; [done|decided|check_links]|].
    constructor; [split; [|done]; apply listed; [done|decided|check_links]|].
    do 8 (constructor; [by apply Hnil|]). constructor.
  - intros k pl q Hk Hpl Hq. cbn in Hk. do 5 (destruct k as [|k]; [lia|]).
    do 5 (destruct k as [|k]; [injection Hpl as <-; injection Hq as <-; split; [decided|vm_compute; reflexivity]|]). done.
  - decided.
  - decided.
  - apply (wf_prios _ _ _ desk_wf).
  - split; [done|]. decided.
  - assert (map_Forall (λ x e, x ∈ concat hall_lists ++ [] ↔ e_owner e = ET_SYS) (y_events hall)) as H by decided. exact H.
  - apply (wf_owners _ _ _ desk_wf).
  - done.
Qed.

Lemma hall_tables : tables hall.
Proof. decided. Qed.

Lemma hall_placed : placed hall [[1]; [2]]%nat.
Proof.
  split; [split|done| |done].
  - check_links.
  - repeat constructor; (done || check_links).
  - do 2 (constructor; [intros Hl; cbn in Hl; lia|]). constructor.
  - constructor.
  - decided.
  - decided.
  - reflexivity.
  - intros [|[|[|[|[|i]]]]] s; intros [= <-]; reflexivity.
Qed.

(** A new station between the two others. *)
Lemma station_created_witness :
  let r := et_station_create_at (λ _, true) true manager (Some (cs "new")) None 2 0 in
  let conf := checked hall true None in
  (∃ d', r = Ret (ET_OK, Some 3, d')) ∧
  ((r = Blocked ∧ (et_memRead_lock manager = Blocked ∨ stations_busy hall)) ∨
   ∃ st out y', r = Ret (st, out, set_sys manager y') ∧ (∃ Q', wf y' Q' []) ∧ tables y' ∧ y_events y' = y_events hall ∧
     (st ≠ ET_OK → placed y' [[1]; [2]]%nat) ∧
     (st = ET_OK → (y' = hall ∧ present (cs "new") conf hall out) ∨
       ∃ i s, out = Some (Z.of_nat i) ∧ i ∉ ET_GRANDCENTRAL :: concat [[1]; [2]]%nat ∧
         y_stats y' !! i = Some s ∧ s_name s = cs "new" ∧ s_config s = conf ∧
         let t := EtInsertSpec.seat_of y' [[1]; [2]]%nat i 2 0 in
         placed y' (EtInsertSpec.seated [[1]; [2]]%nat i t) ∧ station_find y' i = Ret (Some (seat_place [[1]; [2]]%nat t)))).
Proof.
  intros r conf. split; [eexists; vm_compute; reflexivity|].
  apply (station_created (λ _, true) true manager (cs "new") None 2 0 hall_lists [] [[1]; [2]]%nat hall_wf hall_tables hall_placed).
  - change (Forall (λ s, s_status s = ET_STATION_UNUSED → li_cnt (s_in s) = 0 ∧ li_cnt (s_out s) = 0) (y_stats hall)).
    unfold hall, desk. cbn. do 5 (constructor; [done|]). constructor.
  - by intros [=].
Defined.


(** The second station moves before the first. *)
Lemma station_moved_witness :
  let r := et_station_setposition manager 2 1 0 in
  (∃ d', r = Ret (ET_OK, None, d')) ∧
  ((r = Blocked ∧ (et_memRead_lock manager = Blocked ∨ stations_busy hall)) ∨
   ∃ st out y', r = Ret (st, out, set_sys manager y') ∧ (∃ Q', wf y' Q' []) ∧ tables y' ∧ y_events y' = y_events hall ∧
     (st ≠ ET_OK → y' = hall) ∧
     (st = ET_OK → placed y' [[2]; [1]]%nat ∧ station_find y' 2 = Ret (Some (1, 0)) ∧ y_nstations y' = y_nstations hall)).
Proof.
  intros r. split; [eexists; vm_compute; reflexivity|].
  by apply (station_moved manager 2 1 0 hall_lists [] [[1]]%nat [] 0 hall_wf hall_tables hall_placed).
Defined.

