(* ===== verification/EtTyping.v ===== *)
(** * Configurations have their types

    A configuration made with the functions of et_statconfig.c has all its fields in their
    ranges; the check when a station is created makes them agree with each other and with
    the system, and so they stay whatever settings of the station are changed later. *)

From S2P Require Import Prelude Words EtTypes EtLists EtListSpec EtStationSpec EtConductor EtSystemInv EtConductorSpec EtAccess EtWaiting EtStatConfig.
From S2P Require Import EtDetached EtSteps EtWaitSpec EtStations EtSettings EtCallSpec EtAttachSpec EtActivity EtLife EtPlaces.

(** ** Ranges *)

Definition short (n : Z) (s : list Z) : Prop := Z.of_nat (length s) ≤ n - 1.

Record typed (c : et_stat_config) : Prop := Typed {
  ty_flow : flow_ok (c_flow_mode c) = true;
  ty_user : 0 ≤ c_user_mode c;
  ty_restore : restore_ok (c_restore_mode c) = true;
  ty_block : block_ok (c_block_mode c) = true;
  ty_prescale : 1 ≤ c_prescale c;
  ty_cue : 1 ≤ c_cue c;
  ty_select : select_ok (c_select_mode c) = true;
  ty_words : (length (c_select c) ≤ 6)%nat;
  ty_init : c_init c = ET_STRUCT_OK;
  ty_fname : short ET_FUNCNAME_LENGTH (c_fname c);
  ty_lib : short ET_FILENAME_LENGTH (c_lib c);
  ty_class : short ET_FILENAME_LENGTH (c_classs c)
}.

Lemma default_typed : typed default_config.
Proof. by split. Qed.

(** A call that sets a field of a configuration. *)
Inductive config_call :=
| SetBlock (v : Z) | SetFlow (v : Z) | SetSelect (v : Z) | SetUser (v : Z) | SetRestore (v : Z) | SetCue (v : Z)
| SetPrescale (v : Z) | SetWords (v : list Z) | SetFunction (v : option (list Z)) | SetLib (v : option (list Z))
| SetClass (v : option (list Z)).

Definition run_config (c : config_call) (sc : option et_stat_config) : Z * option et_stat_config :=
  match c with
  | SetBlock v => et_station_config_setblock sc v
  | SetFlow v => et_station_config_setflow sc v
  | SetSelect v => et_station_config_setselect sc v
  | SetUser v => et_station_config_setuser sc v
  | SetRestore v => et_station_config_setrestore sc v
  | SetCue v => et_station_config_setcue sc v
  | SetPrescale v => et_station_config_setprescale sc v
  | SetWords v => et_station_config_setselectwords sc v
  | SetFunction v => et_station_config_setfunction sc v
  | SetLib v => et_station_config_setlib sc v
  | SetClass v => et_station_config_setclass sc v
  end.

(** The configuration after the calls, whatever they returned. *)
Definition run_configs (calls : list config_call) (c : option et_stat_config) : option et_stat_config :=
  fold_left (λ c call, snd (run_config call c)) calls c.

Lemma config_set_typed ok f c c' :
  (ok = true → typed c → typed (f c)) → typed c → snd (config_set ok f (Some c)) = Some c' → typed c'.
Proof.
  intros Hf Hc. unfold config_set. rewrite (ty_init _ Hc). cbn. destruct ok; cbn; intros [= <-]; auto.
Qed.

Lemma string_short n v : string_ok n v = true → short n (default [] v).
Proof. unfold string_ok, short. destruct v; [|done]. cbn. lia. Qed.

Lemma run_config_typed call c c' : typed c → snd (run_config call (Some c)) = Some c' → typed c'.
Proof.
  intros Hc. destruct call; cbn [run_config]; (apply config_set_typed; [|done]); intros Hok []; split; cbn; try done;
    try lia; try (by apply string_short). rewrite length_take. lia.
Qed.

Lemma run_configs_typed calls c c' : typed c → run_configs calls (Some c) = Some c' → typed c'.
Proof.
  revert c. induction calls as [|call calls IH]; intros c Hc; cbn; [by intros [= <-]|].
  destruct (snd (run_config call (Some c))) as [c1|] eqn:H; [by apply IH; eapply run_config_typed|].
  intros H'. exfalso. clear -H'. by induction calls as [|[]].
Qed.

(** ** Agreement *)

(** The fields agree with each other and with the system. *)
Definition valid (y : et_system) (c : et_stat_config) : Prop := typed c ∧ config_agrees y c = true.

Lemma config_agrees_spec y c :
  config_agrees y c = true ↔
    flow_ok (c_flow_mode c) = true ∧ restore_ok (c_restore_mode c) = true ∧
    0 ≤ c_user_mode c ≤ y_max_attachments y ∧ select_ok (c_select_mode c) = true ∧
    (c_select_mode c = ET_STATION_SELECT_USER → 4 ≤ length (c_lib c) ∧ 1 ≤ length (c_fname c))%nat ∧
    (by_turns c = true → c_flow_mode c ≠ ET_STATION_SERIAL ∧ c_block_mode c ≠ ET_STATION_NONBLOCKING ∧
       c_restore_mode c ≠ ET_STATION_RESTORE_IN ∧ c_prescale c = 1) ∧
    (c_restore_mode c = ET_STATION_RESTORE_REDIST → c_flow_mode c = ET_STATION_PARALLEL) ∧ block_ok (c_block_mode c) = true.
Proof.
  unfold config_agrees.
  destruct (flow_ok _); cbn [negb]; [|naive_solver]. destruct (restore_ok _); cbn [negb]; [|naive_solver].
  destruct (_ || _) eqn:E1; [split; [done|]; intros (_ & _ & H & _); lia|].
  destruct (select_ok _); cbn [negb]; [|naive_solver].
  destruct (_ && _) eqn:E2; [split; [done|]; intros (_ & _ & _ & _ & H & _)|].
  { apply andb_true_iff in E2 as [E2 E2']. apply Z.eqb_eq in E2. destruct (H E2) as [H1 H2]. apply orb_true_iff in E2' as [E2'|E2']; apply Nat.ltb_lt in E2'; lia. }
  assert (c_select_mode c = ET_STATION_SELECT_USER → 4 ≤ length (c_lib c) ∧ 1 ≤ length (c_fname c))%nat as H2.
  { intros E. rewrite E in E2. apply orb_false_iff in E2 as [E2 E3]. apply Nat.ltb_ge in E2, E3. lia. }
  destruct (by_turns c); cbn [andb].
  - destruct (_ || _ || _ || _) eqn:E3; [split; [done|]; intros (_ & _ & _ & _ & _ & H & _); specialize (H eq_refl); lia|].
    destruct ((_ =? ET_STATION_RESTORE_REDIST) && _) eqn:E4; [split; [done|]; intros (_ & _ & _ & _ & _ & _ & H & _)|].
    { apply andb_true_iff in E4 as [E4 E4']. apply Z.eqb_eq in E4. specialize (H E4). lia. }
    split; [intros H; split_and!; try done; lia|tauto].
  - destruct ((_ =? ET_STATION_RESTORE_REDIST) && _) eqn:E4; [split; [done|]; intros (_ & _ & _ & _ & _ & _ & H & _)|].
    { apply andb_true_iff in E4 as [E4 E4']. apply Z.eqb_eq in E4. specialize (H E4). lia. }
    split; [intros H; split_and!; try done; lia|tauto].
Qed.

Lemma check_valid y c c' : typed c → 1 ≤ y_nevents y → et_station_config_check y c = (ET_OK, c') → valid y c'.
Proof.
  intros Hc Hn. unfold et_station_config_check. destruct (config_agrees y c) eqn:Ha; [|done]. cbn [negb].
  destruct (_ =? ET_STATION_BLOCKING); [destruct (_ <? 1); [done|]; by intros [= <-]|].
  destruct (_ <? 1); [done|]. destruct (_ <? _); intros [= <-]; [|done]. split; [|done].
  destruct Hc. by split.
Qed.

(** ** Settings of stations *)

Inductive setting :=
| StationBlock (v : Z) | StationUser (v : Z) | StationRestore (v : Z) | StationPrescale (v : Z) | StationCue (v : Z)
| StationWords (v : list Z).

Definition run_setting (c : setting) (d : et_id) (stat_id : Z) : res (Z * option unit * et_id) :=
  match c with
  | StationBlock v => et_station_setblock d stat_id v
  | StationUser v => et_station_setuser d stat_id v
  | StationRestore v => et_station_setrestore d stat_id v
  | StationPrescale v => et_station_setprescale d stat_id v
  | StationCue v => et_station_setcue d stat_id v
  | StationWords v => et_station_setselectwords d stat_id v
  end.

(** What it does to the configuration. *)
Definition set_field (c : setting) (sc : et_stat_config) : et_stat_config :=
  match c with
  | StationBlock v => sc <| c_block_mode := v |>
  | StationUser v => sc <| c_user_mode := v |>
  | StationRestore v => sc <| c_restore_mode := v |>
  | StationPrescale v => sc <| c_prescale := v |>
  | StationCue v => sc <| c_cue := v |>
  | StationWords v => sc <| c_select := take 6 v |>
  end.

(** et_station_setuser does not look at the number of attachments that the system can have. *)
Definition within (y : et_system) (c : setting) : Prop :=
  match c with StationUser v => v ≤ y_max_attachments y | _ => True end.

(** The station [i] has the setting, and nothing else changed. *)
Definition is_set (c : setting) (y : et_system) (i : nat) (st : Z) (out : option unit) (y' : et_system) : Prop :=
  (st ≠ ET_OK → y' = y) ∧
  (st = ET_OK → i ≠ ET_GRANDCENTRAL ∧ y' = set_station y i (λ s, s <| s_config ::= set_field c |>) ∧
    ∀ s, y_stats y !! i = Some s → valid y (s_config s) → within y c → valid y (set_field c (s_config s))).

Definition setting_waits (y : et_system) (i : nat) : Prop :=
  y_stat_mutex y = true ∨ ∃ s, y_stats y !! i = Some s ∧ li_lock (s_in s) = true.

Lemma set_config_ok ok fits with_list c d stat_id :
  tables (d_sys d) →
  (∀ s, ok = true → fits (d_sys d) s = true → valid (d_sys d) (s_config s) → within (d_sys d) c → valid (d_sys d) (set_field c (s_config s))) →
  returns d (set_config ok fits with_list (set_field c) d stat_id) (setting_waits (d_sys d) (Z.to_nat stat_id))
    (is_set c (d_sys d) (Z.to_nat stat_id)).
Proof.
  intros Ht Hv. unfold set_config, with_station.
  assert (∀ st, st ≠ ET_OK → is_set c (d_sys d) (Z.to_nat stat_id) st None (d_sys d)) as Hno by (intros st H; by split).
  destruct (_ || _) eqn:E1; [by apply returns_same, Hno|]. apply orb_false_iff in E1 as [Hgc Hok].
  apply negb_false_iff in Hok. apply with_memory_ok; [intros _; by apply Hno..|]. intros d1 Hd1 _ _. rewrite Hd1.
  destruct (_ || _) eqn:E2; [apply settles_leave; rewrite Hd1; by apply Hno|].
  destruct (lookup_lt_is_Some_2 (y_stats (d_sys d)) (Z.to_nat stat_id)) as [s Hs]; [destruct Ht as [Ht _]; lia|].
  unfold station. rewrite Hs. step.
  destruct (fits (d_sys d) s) eqn:Hf; cbn [negb]; [|apply settles_leave; rewrite Hd1; by apply Hno].
  unfold et_station_lock. destruct (y_stat_mutex (d_sys d)) eqn:Hm; [left; split; [done|by left]|]. step.
  assert (is_set c (d_sys d) (Z.to_nat stat_id) ET_OK None (set_station (d_sys d) (Z.to_nat stat_id) (λ s, s <| s_config ::= set_field c |>))) as Hyes.
  { split; [done|]. intros _. split_and!; [lia|done|]. intros s' Hs' Hval Hin. assert (s' = s) as -> by congruence. by apply Hv. }
  assert (settles d1 (leave_station d1 (set_station (d_sys d <| y_stat_mutex := true |>) (Z.to_nat stat_id) (λ s, s <| s_config ::= set_field c |>)) ET_OK None)
    (setting_waits (d_sys d) (Z.to_nat stat_id)) (is_set c (d_sys d) (Z.to_nat stat_id))) as Hend.
  { unfold leave_station. apply settles_sys.
    assert (∀ f, et_station_unlock (set_station (d_sys d <| y_stat_mutex := true |>) (Z.to_nat stat_id) f) = set_station (d_sys d) (Z.to_nat stat_id) f) as ->.
    { intros f. unfold et_station_unlock, set_station. destruct (d_sys d). cbn in *. by subst. }
    done. }
  destruct with_list; [|exact Hend]. unfold et_llist_lock. destruct (li_lock (s_in s)) eqn:Hl; [left; split; [done|]|exact Hend].
  right. by exists s.
Qed.

(** The values that the checks of a call let through keep a configuration valid. *)
Lemma set_field_valid y c sc :
  valid y sc → within y c →
  match c with
  | StationBlock v => block_ok v = true ∧ negb (by_turns sc && (v =? ET_STATION_NONBLOCKING)) = true
  | StationUser v => 0 ≤ v
  | StationRestore v => restore_ok v = true ∧ v ≠ ET_STATION_RESTORE_REDIST ∧ negb (by_turns sc && (v =? ET_STATION_RESTORE_IN)) = true
  | StationPrescale v => 1 ≤ v ∧ negb (by_turns sc && negb (v =? 1)) = true
  | StationCue v => 1 ≤ v
  | StationWords v => True
  end → valid y (set_field c sc).
Proof.
  intros [Hty Hag%config_agrees_spec] Hin Hc. destruct Hag as (H1 & H2 & H3 & H4 & H5 & H6 & H7 & H8).
  split; [|apply config_agrees_spec]; destruct c; cbn [set_field] in *.
  1-6: (destruct Hty; split; cbn; try done; try lia; try tauto; rewrite length_take; lia).
  all: split_and!; cbn; try done; try tauto; try lia.
  all: intros Hb; unfold by_turns in Hb; cbn in Hb; fold (by_turns sc) in Hb; specialize (H6 Hb); rewrite Hb in Hc; lia.
Qed.

Lemma run_setting_ok c d stat_id :
  tables (d_sys d) → let i := Z.to_nat stat_id in
  returns d (run_setting c d stat_id) (setting_waits (d_sys d) i) (is_set c (d_sys d) i).
Proof.
  intros Ht i. assert (∀ s, restore_ok s = (s =? ET_STATION_RESTORE_OUT) || (s =? ET_STATION_RESTORE_IN) ||
    (s =? ET_STATION_RESTORE_GC) || (s =? ET_STATION_RESTORE_REDIST)) as Hr by done.
  destruct c as [v|v|v|v|v|v]; match goal with |- returns _ (run_setting ?c _ _) _ _ =>
    eapply (set_config_ok _ _ _ c d stat_id Ht) end; intros s Hok Hf Hv Hin;
    apply (set_field_valid (d_sys d)); try exact Hv; try exact Hin; cbv beta in *.
  - by split.
  - by apply Z.leb_le.
  - rewrite Hr, Hok. split_and!; [done| |exact Hf]. clear -Hok. unfold ET_STATION_RESTORE_OUT, ET_STATION_RESTORE_IN, ET_STATION_RESTORE_GC, ET_STATION_RESTORE_REDIST in *. lia.
  - split; [by apply Z.leb_le|exact Hf].
  - apply andb_true_iff in Hf as [Hf _]. by apply Z.leb_le.
Qed.

Definition configurations_valid (y : et_system) : Prop := Forall (λ s, valid y (s_config s)) (y_stats y).

(** Configurations made with the functions of et_statconfig.c and accepted by the check are
    valid for the system. *)
Lemma made_valid y calls c c' :
  1 ≤ y_nevents y → run_configs calls (snd (et_station_config_init true)) = Some c →
  et_station_config_check y c = (ET_OK, c') → valid y c'.
Proof. intros Hn Hc. apply check_valid; [|done]. eapply run_configs_typed; [apply default_typed|exact Hc]. Qed.


Lemma hall_valid : configurations_valid hall.
Proof.
  unfold configurations_valid, hall, desk. cbn. do 5 (constructor; [split; [split; done|reflexivity]|]). constructor.
Qed.

