(* ===== verification/EtNet.v ===== *)
(** * The wire (et-16.1: et_private.h, htonl and ntohl)

    Remote processes talk to the server of a system through a TCP connection: commands and
    answers are 32-bit integers, the most significant byte first, and strings with their
    null byte.  A connection is an interface: what the client side may do with it. *)

From S2P Require Import Prelude Words EtTypes.

(** ** Commands *)

Definition ET_ERROR_READ : Z := -9.
Definition ET_ERROR_WRITE : Z := -10.
Definition ET_ERROR_REMOTE : Z := -11.
Definition ET_MAXHOSTNAMELEN : Z := 256.
Definition ET_IPADDRSTRLEN : Z := 16.

Definition ET_NET_ALIVE : Z := 40.
Definition ET_NET_WAIT : Z := 41.
Definition ET_NET_CLOSE : Z := 42.
Definition ET_NET_FCLOSE : Z := 43.
Definition ET_NET_WAKE_ATT : Z := 44.
Definition ET_NET_WAKE_ALL : Z := 45.
Definition ET_NET_KILL : Z := 46.
Definition ET_NET_STAT_ATT : Z := 60.
Definition ET_NET_STAT_DET : Z := 61.
Definition ET_NET_STAT_CRAT : Z := 62.
Definition ET_NET_STAT_RM : Z := 63.
Definition ET_NET_STAT_SPOS : Z := 64.
Definition ET_NET_STAT_GPOS : Z := 65.
Definition ET_NET_STAT_ISAT : Z := 80.
Definition ET_NET_STAT_EX : Z := 81.
Definition ET_NET_STAT_SSW : Z := 82.
Definition ET_NET_STAT_GSW : Z := 83.
Definition ET_NET_STAT_LIB : Z := 84.
Definition ET_NET_STAT_FUNC : Z := 85.
Definition ET_NET_STAT_CLASS : Z := 86.
Definition ET_NET_STAT_GATTS : Z := 100.
Definition ET_NET_STAT_STATUS : Z := 101.
Definition ET_NET_STAT_INCNT : Z := 102.
Definition ET_NET_STAT_OUTCNT : Z := 103.
Definition ET_NET_STAT_GBLOCK : Z := 104.
Definition ET_NET_STAT_GUSER : Z := 105.
Definition ET_NET_STAT_GRESTORE : Z := 106.
Definition ET_NET_STAT_GPRE : Z := 107.
Definition ET_NET_STAT_GCUE : Z := 108.
Definition ET_NET_STAT_GSELECT : Z := 109.
Definition ET_NET_STAT_SBLOCK : Z := 115.
Definition ET_NET_STAT_SUSER : Z := 116.
Definition ET_NET_STAT_SRESTORE : Z := 117.
Definition ET_NET_STAT_SPRE : Z := 118.
Definition ET_NET_STAT_SCUE : Z := 119.
Definition ET_NET_ATT_PUT : Z := 130.
Definition ET_NET_ATT_GET : Z := 131.
Definition ET_NET_ATT_DUMP : Z := 132.
Definition ET_NET_ATT_MAKE : Z := 133.
Definition ET_NET_SYS_TMP : Z := 150.
Definition ET_NET_SYS_TMPMAX : Z := 151.
Definition ET_NET_SYS_STAT : Z := 152.
Definition ET_NET_SYS_STATMAX : Z := 153.
Definition ET_NET_SYS_PROC : Z := 154.
Definition ET_NET_SYS_PROCMAX : Z := 155.
Definition ET_NET_SYS_ATT : Z := 156.
Definition ET_NET_SYS_ATTMAX : Z := 157.
Definition ET_NET_SYS_HBEAT : Z := 158.
Definition ET_NET_SYS_PID : Z := 159.
Definition ET_NET_SYS_GRP : Z := 160.
Definition ET_NET_SYS_DATA : Z := 170.
Definition ET_NET_SYS_HIST : Z := 171.
Definition ET_NET_SYS_GRPS : Z := 172.

(** 64-bit counts travel as two integers. *)
Definition ET_HIGHINT (i : Z) : Z := u32 (Z.land (Z.shiftr (u64 i) 32) 4294967295).
Definition ET_LOWINT (i : Z) : Z := u32 (Z.land (u64 i) 4294967295).
Definition ET_64BIT_UINT (hi lo : Z) : Z := Z.lor (u64 (Z.shiftl (u64 hi) 32)) (Z.land (u64 lo) 4294967295).

Lemma halves i : ET_64BIT_UINT (ET_HIGHINT i) (ET_LOWINT i) = u64 i.
Proof.
  unfold ET_64BIT_UINT, ET_HIGHINT, ET_LOWINT.
  change 4294967295 with (Z.ones 32). rewrite !Z.land_ones, Z.shiftr_div_pow2, Z.shiftl_mul_pow2 by lia.
  unfold u32, u64. change (2 ^ 32) with 4294967296.
  assert (0 <= i mod 18446744073709551616 < 18446744073709551616) as H by (apply Z.mod_pos_bound; lia).
  set (j := i mod 18446744073709551616) in *.
  assert (0 <= j / 4294967296 < 4294967296) as H1 by (split; [apply Z.div_pos; lia|apply Z.div_lt_upper_bound; lia]).
  assert (0 <= j mod 4294967296 < 4294967296) as H2 by (apply Z.mod_pos_bound; lia).
  rewrite !(Z.mod_small (j / 4294967296)) by lia. rewrite !(Z.mod_small (j mod 4294967296)) by lia.
  rewrite (Z.mod_small (j / 4294967296 * 4294967296)) by lia.
  rewrite Z.lor_comm. change 4294967296 with (2 ^ 32) at 3. rewrite <- Z.shiftl_mul_pow2 by lia.
  rewrite lor_shiftl_add by (change (2 ^ 32) with 4294967296; lia). change (2 ^ 32) with 4294967296.
  rewrite (Z.div_mod j 4294967296) at 3 by lia. lia.
Qed.

(** ** Bytes *)

(** The bytes of [htonl (x)]. *)
Definition be32 (x : Z) : list Z := rev (le 4 (u32 x)).
Definition ints (l : list Z) : list Z := concat (be32 <$> l).

(** [ntohl] of the first [n] integers of the bytes. *)
Fixpoint words (n : nat) (b : list Z) : list Z :=
  match n with O => [] | S n => le_val (rev (take 4 b)) :: words n (drop 4 b) end.
Definition word (b : list Z) (i : nat) : Z := default 0 (words (S i) b !! i).

Lemma length_be32 x : length (be32 x) = 4%nat.
Proof. unfold be32. by rewrite length_rev, length_le. Qed.

Lemma length_ints l : length (ints l) = (4 * length l)%nat.
Proof. unfold ints. induction l as [|x l IH]; [done|]. cbn [fmap list_fmap concat length]. rewrite length_app, length_be32, IH. lia. Qed.

Lemma be32_val x : le_val (rev (be32 x)) = u32 x.
Proof. unfold be32. rewrite rev_involutive, le_val_le. change (256 ^ Z.of_nat 4) with 4294967296. unfold u32. by rewrite Z.mod_mod. Qed.

Lemma words_ints l r : words (length l) (ints l ++ r) = u32 <$> l.
Proof.
  induction l as [|x l IH]; [done|]. unfold ints. cbn [fmap list_fmap concat length words]. rewrite <- app_assoc.
  rewrite take_app_length' by by rewrite length_be32. rewrite drop_app_length' by by rewrite length_be32.
  rewrite be32_val. f_equal. exact IH.
Qed.

(** An [int] that was sent as a [uint32_t]. *)
Lemma s32_u32 x : s32 (u32 x) = s32 x.
Proof. unfold s32, u32. by rewrite Z.mod_mod. Qed.

Definition int_ok (x : Z) : Prop := -2147483648 ≤ x < 2147483648.

Lemma s32_int x : int_ok x → s32 x = x.
Proof.
  intros [H1 H2]. unfold s32, u32. destruct (decide (0 ≤ x)) as [H|H].
  - rewrite Z.mod_small by lia. replace (x <? 2147483648) with true by (symmetry; apply Z.ltb_lt; lia). done.
  - replace (x mod 4294967296) with (x + 4294967296) by (apply (Z.mod_unique x 4294967296 (-1)); lia).
    replace (_ <? _) with false by (symmetry; apply Z.ltb_ge; lia). lia.
Qed.

Lemma s32_ints l : Forall int_ok l → s32 <$> (u32 <$> l) = l.
Proof. induction 1 as [|x l Hx _ IH]; [done|]. cbn [fmap list_fmap]. by rewrite s32_u32, s32_int, IH. Qed.

(** A C string in an array of [cap] bytes into which [b] was read. *)
Fixpoint strlen_of (b : list Z) : option nat :=
  match b with [] => None | c :: b => if c =? 0 then Some O else S <$> strlen_of b end.
Definition c_string (cap : Z) (b : list Z) : res (list Z) :=
  if cap <? Z.of_nat (length b) then Undef else n ← of_option (strlen_of b); Ret (take n b).

Definition no_nul (s : list Z) : Prop := Forall (λ c, c ≠ 0) s.

Lemma strlen_of_nul s r : no_nul s → strlen_of (s ++ 0 :: r) = Some (length s).
Proof. induction 1 as [|c s H _ IH]; [done|]. cbn. rewrite (proj2 (Z.eqb_neq _ _) H), IH. done. Qed.

Lemma c_string_ok cap s : no_nul s → Z.of_nat (length s) ≤ cap - 1 → c_string cap (s ++ [0]) = Ret s.
Proof.
  intros Hs Hl. unfold c_string. rewrite length_app. cbn [length].
  replace (cap <? _) with false by (symmetry; apply Z.ltb_ge; lia). rewrite strlen_of_nul by done. step.
  by rewrite take_app_length.
Qed.

(** ** Connections *)

(** The client's end of a connection.  Writing may fail, when the server has gone; so may
    reading, when less than the [n] bytes asked for come. *)
Class Conn (S : Type) := {
  etNetTcpWrite : S → list Z → res (bool * S);
  etNetTcpRead : S → Z → res (option (list Z) * S);
  close_socket : S → res S
}.

(** The identifier of a remote process: the mutex of the connection. *)
Record remote_id (S : Type) := mkRemote { r_mutex : bool; r_sock : S }.
Arguments mkRemote {S} _ _.
Arguments r_mutex {S} _.
Arguments r_sock {S} _.

Definition et_tcp_lock {S} (c : remote_id S) : res (remote_id S) :=
  if r_mutex c then Blocked else Ret (mkRemote true (r_sock c)).
Definition et_tcp_unlock {S} (c : remote_id S) : remote_id S := mkRemote false (r_sock c).
