(* ===== verification/EtRemote.v ===== *)
(** * Calls of remote processes (et-16.1/src/libsrc/et_remote.c, lines 390-1655)

    A call writes a command and its arguments and waits for the answer, with the mutex of
    the connection.  A function returns its status and what it stores through its pointer;
    [ptr] is whether the caller gave one. *)

From S2P Require Import Prelude Words CString EtTypes EtConductor EtNet.

Section Client.
  Context {S : Type} `{Conn S}.
  Implicit Types c : remote_id S.

(** ** What the calls have in common *)

(** A request and the first [n] bytes of the answer.  When the connection fails the mutex
    is given back; otherwise it is still held. *)
Definition ask c (request : list Z) (n : Z) : res ((Z + list Z) * remote_id S) :=
  c ← et_tcp_lock c;
  '(ok, s) ← etNetTcpWrite (r_sock c) request;
  let c := mkRemote (r_mutex c) s in
  if negb ok then Ret (inl ET_ERROR_WRITE, et_tcp_unlock c) else
  '(b, s) ← etNetTcpRead (r_sock c) n;
  let c := mkRemote (r_mutex c) s in
  match b with
  | None => Ret (inl ET_ERROR_READ, et_tcp_unlock c)
  | Some b => Ret (inr b, c)
  end.

(** The answer is a status. *)
Definition ask_status c (request : list Z) : res (Z * option unit * remote_id S) :=
  '(r, c) ← ask c request 4;
  match r with
  | inl err => Ret (err, None, c)
  | inr b => Ret (s32 (word b 0), None, et_tcp_unlock c)
  end.

(** The answer is a status and [n] integers, which are stored when the status is one of [good]. *)
Definition ask_values {A} (good : Z → bool) (n : Z) (store : list Z → A) c (request : list Z) (ptr : bool)
  : res (Z * option A * remote_id S) :=
  '(r, c) ← ask c request (4 + 4 * n);
  match r with
  | inl err => Ret (err, None, c)
  | inr b =>
      let err := s32 (word b 0) in
      Ret (err, if good err && ptr then Some (store b) else None, et_tcp_unlock c)
  end.

Definition good_status (err : Z) : bool := err =? ET_OK.
Definition first_int (b : list Z) : Z := s32 (word b 1).

(** The bytes of a string with its null byte. *)
Definition string_bytes (s : list Z) : list Z := s ++ [0].
Definition string_length (s : list Z) : Z := u32 (Z.of_nat (length s) + 1).

(** ** Closing *)

(** A failed write is ignored: the system has closed the connection then. *)
Definition close_with (com : Z) c : res (Z * S) :=
  c ← et_tcp_lock c;
  '(_, s) ← etNetTcpWrite (r_sock c) (ints [com]);
  '(s : S) ← close_socket s; Ret (ET_OK, s).
Definition etr_close := close_with ET_NET_CLOSE.
Definition etr_forcedclose := close_with ET_NET_FCLOSE.

(** When the write fails the mutex is kept. *)
Definition etr_kill c : res (Z * (remote_id S + S)) :=
  c ← et_tcp_lock c;
  '(ok, s) ← etNetTcpWrite (r_sock c) (ints [ET_NET_KILL]);
  if negb ok then Ret (ET_ERROR_WRITE, inl (mkRemote true s)) else
  '(s : S) ← close_socket s; Ret (ET_OK, inr s).

(** ** The system *)

(** A failed connection is a dead system. *)
Definition etr_alive c : res (Z * option unit * remote_id S) :=
  '(r, c) ← ask c (ints [ET_NET_ALIVE]) 4;
  match r with
  | inl _ => Ret (0, None, c)
  | inr b => Ret (s32 (word b 0), None, et_tcp_unlock c)
  end.

(** Any answer will do. *)
Definition etr_wait_for_alive c : res (Z * option unit * remote_id S) :=
  '(r, c) ← ask c (ints [ET_NET_WAIT]) 4;
  match r with
  | inl err => Ret (err, None, c)
  | inr _ => Ret (ET_OK, None, et_tcp_unlock c)
  end.

(** There is no answer. *)
Definition tell c (request : list Z) : res (Z * option unit * remote_id S) :=
  c ← et_tcp_lock c;
  '(ok, s) ← etNetTcpWrite (r_sock c) request;
  Ret (if negb ok then ET_ERROR_WRITE else ET_OK, None, mkRemote false s).
Definition etr_wakeup_attachment c (att : Z) := tell c (ints [ET_NET_WAKE_ATT; att]).
Definition etr_wakeup_all c (stat_id : Z) := tell c (ints [ET_NET_WAKE_ALL; stat_id]).

Definition etr_system_getstuff (cmd : Z) c := ask_values good_status 1 first_int c (ints [cmd]).
Definition etr_system_gettemps := etr_system_getstuff ET_NET_SYS_TMP.
Definition etr_system_gettempsmax := etr_system_getstuff ET_NET_SYS_TMPMAX.
Definition etr_system_getstations := etr_system_getstuff ET_NET_SYS_STAT.
Definition etr_system_getstationsmax := etr_system_getstuff ET_NET_SYS_STATMAX.
Definition etr_system_getprocs := etr_system_getstuff ET_NET_SYS_PROC.
Definition etr_system_getprocsmax := etr_system_getstuff ET_NET_SYS_PROCMAX.
Definition etr_system_getattachments := etr_system_getstuff ET_NET_SYS_ATT.
Definition etr_system_getattsmax := etr_system_getstuff ET_NET_SYS_ATTMAX.
Definition etr_system_getheartbeat := etr_system_getstuff ET_NET_SYS_HBEAT.
Definition etr_system_getpid := etr_system_getstuff ET_NET_SYS_PID.
Definition etr_system_getgroupcount := etr_system_getstuff ET_NET_SYS_GRP.

(** The mutex is not taken here.  [nevents] is the number of events that the process was
    told when it opened the system. *)
Definition etr_data_gethistogram (nevents : Z) c (size : Z) : res (Z * option (list Z) * remote_id S) :=
  '(ok, s) ← etNetTcpWrite (r_sock c) (ints [ET_NET_SYS_HIST]);
  if negb ok then Ret (ET_ERROR_WRITE, None, mkRemote (r_mutex c) s) else
  '(b, s) ← etNetTcpRead s 4;
  match b with
  | None => Ret (ET_ERROR_READ, None, mkRemote (r_mutex c) s)
  | Some b =>
      let err := s32 (word b 0) in
      if negb (err =? ET_OK) then Ret (err, None, mkRemote (r_mutex c) s) else
      (* the array of the caller has [size] elements *)
      if size <? nevents + 1 then Undef else
      '(b, s) ← etNetTcpRead s (4 * (nevents + 1));
      match b with
      | None => Ret (ET_ERROR_READ, None, mkRemote (r_mutex c) s)
      | Some b => Ret (ET_OK, Some (s32 <$> words (Z.to_nat (nevents + 1)) b), mkRemote (r_mutex c) s)
      end
  end.

(** ** Stations *)

Definition etr_station_create_at (allocated : bool) c (stat_name : list Z) (sc : et_stat_config)
    (position parallelposition : Z) : res (Z * option Z * remote_id S) :=
  if negb allocated then Ret (ET_ERROR_REMOTE, None, c) else
  ask_values (λ err, (err =? ET_OK) || (err =? ET_ERROR_EXISTS)) 1 first_int c
    (ints ([ET_NET_STAT_CRAT; c_init sc; c_flow_mode sc; c_user_mode sc; c_restore_mode sc; c_block_mode sc;
            c_prescale sc; c_cue sc; c_select_mode sc] ++ c_select sc ++
           [string_length (c_fname sc); string_length (c_lib sc); string_length (c_classs sc);
            string_length stat_name; position; parallelposition]) ++
     string_bytes (c_fname sc) ++ string_bytes (c_lib sc) ++ string_bytes (c_classs sc) ++ string_bytes stat_name) true.
Definition etr_station_create allocated c stat_name sc := etr_station_create_at allocated c stat_name sc ET_END ET_END.

Definition etr_station_remove c (stat_id : Z) := ask_status c (ints [ET_NET_STAT_RM; stat_id]).

(** The names of the host and of the socket's address are sent when they are found. *)
Definition sent_length (s : option (list Z)) : Z := match s with Some s => string_length s | None => 0 end.
Definition sent_bytes (s : option (list Z)) : list Z := match s with Some s => string_bytes s | None => [] end.
Definition etr_station_attach (allocated : bool) (pid : Z) (host ip : option (list Z)) c (stat_id : Z) (ptr : bool)
  : res (Z * option Z * remote_id S) :=
  if negb allocated then Ret (ET_ERROR_REMOTE, None, c) else
  ask_values good_status 1 first_int c
    (ints [ET_NET_STAT_ATT; stat_id; pid; sent_length host; sent_length ip] ++ sent_bytes host ++ sent_bytes ip) ptr.

Definition etr_station_detach c (att : Z) := ask_status c (ints [ET_NET_STAT_DET; att]).

(** Line 828 stores the second position in the place of the first one, and the last
    integer of the request, [junk], is not set. *)
Definition etr_station_setposition (junk : Z) c (stat_id position parallelposition : Z) :=
  ask_status c (ints [ET_NET_STAT_SPOS; stat_id; parallelposition; junk]).

Definition etr_station_getposition c (stat_id : Z) (ptr : bool) :=
  ask_values good_status 2 (λ b, (s32 (word b 1), s32 (word b 2))) c (ints [ET_NET_STAT_GPOS; stat_id]) ptr.

Definition etr_station_isattached c (stat_id att : Z) := ask_status c (ints [ET_NET_STAT_ISAT; stat_id; att]).

Definition etr_station_exists (allocated : bool) c (stat_name : list Z) (ptr : bool) :=
  if negb allocated then Ret (ET_ERROR_REMOTE, None, c) else
  ask_values (λ err, err =? 1) 1 first_int c
    (ints [ET_NET_STAT_EX; string_length stat_name] ++ string_bytes stat_name) ptr.

(** ET_STATION_SELECT_INTS integers. *)
Definition etr_station_setselectwords c (stat_id : Z) (select : list Z) :=
  ask_status c (ints ([ET_NET_STAT_SSW; stat_id] ++ select)).
Definition etr_station_getselectwords c (stat_id : Z) (ptr : bool) :=
  ask_values good_status 6 (λ b, s32 <$> tail (words 7 b)) c (ints [ET_NET_STAT_GSW; stat_id]) ptr.

(** The length of the name comes first, then the name, into an array of [cap] characters. *)
Definition etr_station_getname (cmd cap : Z) c (stat_id : Z) (ptr : bool) : res (Z * option (list Z) * remote_id S) :=
  '(r, c) ← ask c (ints [cmd; stat_id]) 8;
  match r with
  | inl err => Ret (err, None, c)
  | inr b =>
      let err := s32 (word b 0) in
      if negb (err =? ET_OK) then Ret (err, None, et_tcp_unlock c) else
      let len := s32 (word b 1) in
      if cap <? len then Undef else
      '(b, s) ← etNetTcpRead (r_sock c) len;
      let c := et_tcp_unlock (mkRemote true s) in
      match b with
      | None => Ret (ET_ERROR_READ, None, c)
      | Some b => if ptr then name ← c_string cap b; Ret (err, Some name, c) else Ret (err, None, c)
      end
  end.
Definition etr_station_getlib := etr_station_getname ET_NET_STAT_LIB ET_FILENAME_LENGTH.
Definition etr_station_getclass := etr_station_getname ET_NET_STAT_CLASS ET_FILENAME_LENGTH.
Definition etr_station_getfunction := etr_station_getname ET_NET_STAT_FUNC ET_FUNCNAME_LENGTH.

Definition etr_station_getstuff (cmd : Z) c (stat_id : Z) := ask_values good_status 1 first_int c (ints [cmd; stat_id]).
Definition etr_station_getattachments := etr_station_getstuff ET_NET_STAT_GATTS.
Definition etr_station_getstatus := etr_station_getstuff ET_NET_STAT_STATUS.
Definition etr_station_getinputcount := etr_station_getstuff ET_NET_STAT_INCNT.
Definition etr_station_getoutputcount := etr_station_getstuff ET_NET_STAT_OUTCNT.
Definition etr_station_getblock := etr_station_getstuff ET_NET_STAT_GBLOCK.
Definition etr_station_getuser := etr_station_getstuff ET_NET_STAT_GUSER.
Definition etr_station_getrestore := etr_station_getstuff ET_NET_STAT_GRESTORE.
Definition etr_station_getselect := etr_station_getstuff ET_NET_STAT_GSELECT.
Definition etr_station_getcue := etr_station_getstuff ET_NET_STAT_GCUE.
Definition etr_station_getprescale := etr_station_getstuff ET_NET_STAT_GPRE.

Definition etr_station_setstuff (cmd : Z) c (stat_id value : Z) := ask_status c (ints [cmd; stat_id; value]).
Definition etr_station_setblock := etr_station_setstuff ET_NET_STAT_SBLOCK.
Definition etr_station_setuser := etr_station_setstuff ET_NET_STAT_SUSER.
Definition etr_station_setrestore := etr_station_setstuff ET_NET_STAT_SRESTORE.
Definition etr_station_setprescale := etr_station_setstuff ET_NET_STAT_SPRE.
Definition etr_station_setcue := etr_station_setstuff ET_NET_STAT_SCUE.

(** ** Attachments: counts of 64 bits *)

Definition etr_attach_getstuff (cmd : Z) c (att_id : Z) :=
  ask_values good_status 2 (λ b, ET_64BIT_UINT (word b 1) (word b 2)) c (ints [cmd; att_id]).
Definition etr_attach_geteventsput := etr_attach_getstuff ET_NET_ATT_PUT.
Definition etr_attach_geteventsget := etr_attach_getstuff ET_NET_ATT_GET.
Definition etr_attach_geteventsdump := etr_attach_getstuff ET_NET_ATT_DUMP.
Definition etr_attach_geteventsmake := etr_attach_getstuff ET_NET_ATT_MAKE.
End Client.
