(* ===== verification/EtSysConfig.v ===== *)
(** * Configurations of systems, and addresses
    (et-16.1/src/libsrc: et_sysconfig.c, the check in et_system.c, and the addresses of
    etCommonNetwork.c)

    The process that starts a system makes a configuration, changes fields of it, and gives
    it to the system, which checks it.  A [None] is a NULL pointer, a string the list of its
    characters.  Of the network the configuration keeps what calls of the operating system
    found: the broadcast addresses of the host; its interfaces are left out. *)

From S2P Require Import Prelude Words CString EtTypes EtAccess EtStatConfig EtStations EtSettings EtNet.

Definition ET_SYSTEM_EVENTS : Z := 300.
Definition ET_SYSTEM_NTEMPS : Z := 300.
Definition ET_SYSTEM_ESIZE : Z := 1000.
Definition ET_SYSTEM_NSTATS : Z := 200.
Definition ET_UDP_PORT : Z := 11111.
Definition ET_SERVER_PORT : Z := 11111.
Definition ET_EVENT_GROUPS_MAX : Z := 200.
Definition ET_PROCESSES_MAX : Z := ET_ATTACHMENTS_MAX.
Definition ET_MAXADDRESSES : Z := 10.
Definition ET_ERROR_NOMEM : Z := -14.
Definition ET_DEBUG_NONE : Z := 0.
Definition ET_DEBUG_SEVERE : Z := 1.
Definition ET_DEBUG_ERROR : Z := 2.
Definition ET_DEBUG_WARN : Z := 3.
Definition ET_DEBUG_INFO : Z := 4.

(** ** Numbers in strings

    The conversion %d of sscanf: a number, perhaps with a sign, after white space; what does
    not fit an [int] is undefined. *)

Fixpoint skip_spaces (l : list Z) : list Z :=
  match l with c :: r => if isspace c then skip_spaces r else l | [] => [] end.
Fixpoint scan_digits (v : Z) (l : list Z) : Z * list Z :=
  match l with c :: r => if isdigit c then scan_digits (10 * v + (c - 48)) r else (v, l) | [] => (v, []) end.
Definition scan_sign (l : list Z) : bool * list Z :=
  match l with c :: r => if c =? 45 then (true, r) else if c =? 43 then (false, r) else (false, l) | [] => (false, []) end.
Definition scan_int (l : list Z) : res (option (Z * list Z)) :=
  let '(neg, l) := scan_sign (skip_spaces l) in
  match l with
  | c :: _ =>
      if isdigit c then
        let '(v, r) := scan_digits 0 l in
        let v := if neg : bool then - v else v in
        if (-2147483648 <=? v) && (v <? 2147483648) then Ret (Some (v, r)) else Undef
      else Ret None
  | [] => Ret None
  end.

(** The numbers found for [n] conversions with points between them. *)
Fixpoint scan_dotted (n : nat) (l : list Z) : res (list Z) :=
  match n with
  | O => Ret []
  | S n =>
      r ← scan_int l;
      match r with
      | None => Ret []
      | Some (v, l) =>
          match n, l with
          | S _, c :: l => if c =? 46 then rest ← scan_dotted n l; Ret (v :: rest) else Ret [v]
          | _, _ => Ret [v]
          end
      end
  end.

(** The four numbers of an address. *)
Definition codanetIsDottedDecimal (ipAddress : option (list Z)) : res (option (list Z)) :=
  match ipAddress with
  | None => Ret None
  | Some s =>
      i ← scan_dotted 4 s;
      if (length i =? 4)%nat && forallb (λ x, (0 <=? x) && (x <=? 255)) i then Ret (Some i) else Ret None
  end.

(** Four numbers as an integer of 32 bits (a shift into the sign bit gives its bits). *)
Definition joined (i : list Z) : Z := fold_left (λ a x, Z.lor (Z.shiftl a 8) x) i 0.

Definition codanetOnSameSubnet2 (ipAddress1 ipAddress2 : option (list Z)) (subnetMask : Z) (ptr : bool) : res (Z * option Z) :=
  ip1 ← codanetIsDottedDecimal ipAddress1;
  match ip1 with
  | None => Ret (ET_ERROR, None)
  | Some ip1 =>
      ip2 ← codanetIsDottedDecimal ipAddress2;
      match ip2 with
      | None => Ret (ET_ERROR, None)
      | Some ip2 =>
          if negb ptr then Ret (ET_ERROR, None) else
          Ret (ET_OK, Some (if Z.land (joined ip1) subnetMask =? Z.land (joined ip2) subnetMask then 1 else 0))
      end
  end.
Definition codanetOnSameSubnet (ipAddress1 ipAddress2 subnetMask : option (list Z)) (ptr : bool) : res (Z * option Z) :=
  msk ← codanetIsDottedDecimal subnetMask;
  match msk with
  | None => Ret (ET_ERROR, None)
  | Some msk => codanetOnSameSubnet2 ipAddress1 ipAddress2 (joined msk) ptr
  end.

(** [atoi] of a short string. *)
Definition atoi (l : list Z) : Z :=
  let '(neg, l) := scan_sign (skip_spaces l) in
  let v := fst (scan_digits 0 l) in if neg : bool then - v else v.

(** The characters up to the first point, in an array of four. *)
Fixpoint strcspn (l : list Z) (c : Z) : nat :=
  match l with [] => O | x :: l => if x =? c then O else S (strcspn l c) end.
Definition first_number (val : list Z) : res Z :=
  let len := strcspn val 46 in if (3 <? len)%nat then Undef else Ret (atoi (take len val)).

(** Whether a string is taken for a multicast address. *)
Definition multicast_address (val : option (list Z)) : res (option (list Z)) :=
  match val with
  | None => Ret None
  | Some s =>
      if (ET_IPADDRSTRLEN <=? Z.of_nat (length s)) || (Z.of_nat (length s) <? 7) then Ret None else
      n ← first_number s;
      if (n <? 224) || (239 <? n) then Ret None else Ret (Some s)
  end.

(** ** Arrays of addresses *)

Definition add_address (l : list (list Z)) (val : list Z) : Z * list (list Z) :=
  if bool_decide (val ∈ l) then (ET_OK, l) else
  if Z.of_nat (length l) =? ET_MAXADDRESSES then (ET_ERROR, l) else (ET_OK, l ++ [val]).
Fixpoint remove_address (l : list (list Z)) (val : list Z) : list (list Z) :=
  match l with
  | [] => []
  | a :: l => if bool_decide (a = val) then l else a :: remove_address l val
  end.

(** ** The configuration *)

Record et_sys_config := mkSysConfig {
  sc_event_size : Z; sc_init : Z; sc_nevents : Z; sc_ntemps : Z; sc_nstations : Z; sc_nprocesses : Z; sc_nattachments : Z;
  sc_groupCount : Z; sc_groups : list Z; sc_filename : list Z; sc_port : Z; sc_serverport : Z;
  sc_tcpSendBufSize : Z; sc_tcpRecvBufSize : Z; sc_tcpNoDelay : Z; sc_bcastaddrs : list (list Z); sc_mcastaddrs : list (list Z)
}.
#[export] Instance eta_et_sys_config : Eta et_sys_config := λ c, mkSysConfig
  (sc_event_size c) (sc_init c) (sc_nevents c) (sc_ntemps c) (sc_nstations c) (sc_nprocesses c) (sc_nattachments c)
  (sc_groupCount c) (sc_groups c) (sc_filename c) (sc_port c) (sc_serverport c)
  (sc_tcpSendBufSize c) (sc_tcpRecvBufSize c) (sc_tcpNoDelay c) (sc_bcastaddrs c) (sc_mcastaddrs c).

(** [bcast] is the answer of the system about broadcast addresses, [None] an error. *)
Definition et_system_config_init (ptr allocated : bool) (bcast : option (list (list Z))) : Z * option et_sys_config :=
  if negb ptr || negb allocated then (ET_ERROR, None) else
  let bcast := default [] bcast in
  if ET_MAXADDRESSES <=? Z.of_nat (length bcast) then (ET_ERROR_NOMEM, None) else
  (ET_OK, Some (mkSysConfig ET_SYSTEM_ESIZE ET_STRUCT_OK ET_SYSTEM_EVENTS ET_SYSTEM_NTEMPS ET_SYSTEM_NSTATS ET_PROCESSES_MAX
     ET_ATTACHMENTS_MAX 1 (ET_SYSTEM_EVENTS :: replicate 199 0) [] ET_UDP_PORT ET_SERVER_PORT 0 0 1 bcast [])).

(** What the functions that set a field have in common: [ok] is the check of the value. *)
Definition sys_set (sc : option et_sys_config) (ok : et_sys_config → bool) (f : et_sys_config → et_sys_config)
  : Z * option et_sys_config :=
  match sc with
  | Some c => if negb (sc_init c =? ET_STRUCT_OK) || negb (ok c) then (ET_ERROR, Some c) else (ET_OK, Some (f c))
  | None => (ET_ERROR, None)
  end.
Definition sys_get {A} (read : et_sys_config → A) (sc : option et_sys_config) (ptr : bool) : Z * option A :=
  match sc with
  | Some c => if negb ptr || negb (sc_init c =? ET_STRUCT_OK) then (ET_ERROR, None) else (ET_OK, Some (read c))
  | None => (ET_ERROR, None)
  end.

Definition et_system_config_setevents sc val :=
  sys_set sc (λ _, 1 <=? val) (λ c,
    let c := c <| sc_nevents := val |> in
    let c := if sc_groupCount c =? 1 then c <| sc_groups ::= <[0%nat := val]> |> else c in
    if val <? sc_ntemps c then c <| sc_ntemps := val |> else c).
Definition et_system_config_getevents := sys_get sc_nevents.
Definition et_system_config_setsize sc val := sys_set sc (λ _, 1 <=? val) (λ c, c <| sc_event_size := val |>).
Definition et_system_config_getsize := sys_get sc_event_size.
Definition et_system_config_settemps sc val :=
  sys_set sc (λ c, (1 <=? val) && (val <=? sc_nevents c)) (λ c, c <| sc_ntemps := val |>).
Definition et_system_config_gettemps := sys_get sc_ntemps.
Definition et_system_config_setstations sc val := sys_set sc (λ _, 1 <=? val) (λ c, c <| sc_nstations := val |>).
Definition et_system_config_getstations := sys_get sc_nstations.
Definition et_system_config_setprocs sc val :=
  sys_set sc (λ _, 1 <=? val) (λ c, c <| sc_nprocesses := Z.min val ET_PROCESSES_MAX |>).
Definition et_system_config_getprocs := sys_get sc_nprocesses.
Definition et_system_config_setattachments sc val :=
  sys_set sc (λ _, 1 <=? val) (λ c, c <| sc_nattachments := Z.min val ET_ATTACHMENTS_MAX |>).
Definition et_system_config_getattachments := sys_get sc_nattachments.
Definition port_ok (val : Z) : bool := (1024 <=? val) && (val <=? 65535).
Definition et_system_config_setport sc val := sys_set sc (λ _, port_ok val) (λ c, c <| sc_port := val |>).
Definition et_system_config_getport := sys_get sc_port.
Definition et_system_config_setserverport sc val := sys_set sc (λ _, port_ok val) (λ c, c <| sc_serverport := val |>).
Definition et_system_config_getserverport := sys_get sc_serverport.

(** The loop over the sizes of groups, which stops at one that is not positive. *)
Fixpoint copy_groups (n : nat) (groups old : list Z) : res (bool * list Z) :=
  match n with
  | O => Ret (true, old)
  | S n =>
      match groups with
      | [] => Undef
      | g :: groups =>
          if g <? 1 then Ret (false, old) else
          '(ok, l) ← copy_groups n groups (tail old); Ret (ok, g :: l)
      end
  end.
Definition zeros_from (size : nat) : list Z := replicate (Z.to_nat ET_EVENT_GROUPS_MAX - size) 0.

Definition et_system_config_setgroups (sc : option et_sys_config) (groups : option (list Z)) (size : Z)
  : res (Z * option et_sys_config) :=
  match sc with
  | None => Ret (ET_ERROR, None)
  | Some c =>
      if negb (sc_init c =? ET_STRUCT_OK) then Ret (ET_ERROR, Some c) else
      if size =? 1 then Ret (ET_OK, Some (c <| sc_groups := zeros_from 0 |> <| sc_groupCount := 1 |>)) else
      match groups with
      | None => Ret (ET_ERROR, Some c)
      | Some groups =>
          if (ET_EVENT_GROUPS_MAX <? size) || (size <? 1) then Ret (ET_ERROR, Some c) else
          let n := Z.to_nat size in
          '(ok, l) ← copy_groups n groups (sc_groups c);
          if negb ok then Ret (ET_ERROR, Some (c <| sc_groups := l |>)) else
          Ret (ET_OK, Some (c <| sc_groups := take n l ++ zeros_from n |> <| sc_groupCount := size |>))
      end
  end.

Definition et_system_config_settcp sc rBufSize sBufSize noDelay :=
  sys_set sc (λ _, (0 <=? rBufSize) && (0 <=? sBufSize))
    (λ c, c <| sc_tcpRecvBufSize := rBufSize |> <| sc_tcpSendBufSize := sBufSize |>
            <| sc_tcpNoDelay := if noDelay =? 0 then 0 else 1 |>).
(** Each pointer may be NULL. *)
Definition et_system_config_gettcp :=
  λ sc, sys_get (λ c, (sc_tcpRecvBufSize c, sc_tcpSendBufSize c, sc_tcpNoDelay c)) sc true.

(** Adding or removing a multicast address. *)
Definition change_multicast (sc : option et_sys_config) (val : option (list Z)) (f : list (list Z) → list Z → Z * list (list Z))
  : res (Z * option et_sys_config) :=
  match sc with
  | None => Ret (ET_ERROR, None)
  | Some c =>
      if negb (sc_init c =? ET_STRUCT_OK) then Ret (ET_ERROR, Some c) else
      a ← multicast_address val;
      match a with
      | None => Ret (ET_ERROR, Some c)
      | Some s => let '(err, l) := f (sc_mcastaddrs c) s in Ret (err, Some (c <| sc_mcastaddrs := l |>))
      end
  end.
Definition et_system_config_addmulticast sc val := change_multicast sc val add_address.
Definition et_system_config_removemulticast sc val := change_multicast sc val (λ l s, (ET_OK, remove_address l s)).

Definition et_system_config_setfile sc (val : option (list Z)) :=
  sys_set sc (λ _, string_ok ET_FILENAME_LENGTH val) (λ c, c <| sc_filename := default [] val |>).
Definition et_system_config_getfile := sys_get sc_filename.

(** The events of the first groups; an [int] that gets too big is undefined. *)
Fixpoint count_groups (n : nat) (groups : list Z) (count : Z) : res Z :=
  match n with
  | O => Ret count
  | S n =>
      match groups with
      | [] => Undef
      | g :: groups => let count := count + g in if count <? 2147483648 then count_groups n groups count else Undef
      end
  end.

(** What the system checks before it starts. *)
Definition et_system_config_check (c : et_sys_config) : res Z :=
  if sc_nevents c <? 1 then Ret ET_ERROR else
  if sc_event_size c <? 1 then Ret ET_ERROR else
  count ← count_groups (Z.to_nat (sc_groupCount c)) (sc_groups c) 0;
  Ret (if negb (count =? sc_nevents c) then ET_ERROR else
  if sc_ntemps c <? 1 then ET_ERROR else
  if sc_nevents c <? sc_ntemps c then ET_ERROR else
  if sc_nstations c <? 1 then ET_ERROR else
  if sc_nattachments c <? 1 then ET_ERROR else
  if ET_ATTACHMENTS_MAX <? sc_nattachments c then ET_ERROR else
  if sc_nprocesses c <? 1 then ET_ERROR else
  if ET_PROCESSES_MAX <? sc_nprocesses c then ET_ERROR else ET_OK).

(** ** What a process may set and ask of a system that it opened *)

(** [count] is the status and the number of groups, which a remote process asks for. *)
Definition et_system_setgroup (init : bool) (count : Z * Z) (old group : Z) : Z * Z :=
  if negb init then (ET_ERROR, old) else
  if group =? 0 then (ET_OK, 0) else
  if group <? 0 then (ET_ERROR, old) else
  let '(err, groupCount) := count in
  if negb (err =? ET_OK) then (err, old) else
  if groupCount <? group then (ET_ERROR, old) else (ET_OK, group).
Definition et_system_getgroup (d : et_id) := system_number (d_group d).
Definition debug_ok (debug : Z) : bool :=
  (debug =? ET_DEBUG_NONE) || (debug =? ET_DEBUG_SEVERE) || (debug =? ET_DEBUG_ERROR) || (debug =? ET_DEBUG_WARN) || (debug =? ET_DEBUG_INFO).
Definition et_system_setdebug (init : bool) (old debug : Z) : Z * Z :=
  if negb init || negb (debug_ok debug) then (ET_ERROR, old) else (ET_OK, debug).
Definition et_system_getnumevents (d : et_id) := system_number (y_nevents (d_sys d)).
Definition et_system_geteventsize (d : et_id) := system_number (y_event_size (d_sys d)).

(** ** Calls that configure *)

Inductive setting :=
| SetEvents (v : Z) | SetSize (v : Z) | SetTemps (v : Z) | SetStations (v : Z) | SetProcs (v : Z) | SetAttachments (v : Z)
| SetPort (v : Z) | SetServerPort (v : Z) | SetGroups (groups : option (list Z)) (size : Z) | SetTcp (r s noDelay : Z)
| AddMulticast (v : option (list Z)) | RemoveMulticast (v : option (list Z)) | SetFile (v : option (list Z)).

Definition set_system (s : setting) (sc : option et_sys_config) : res (Z * option et_sys_config) :=
  match s with
  | SetEvents v => Ret (et_system_config_setevents sc v)
  | SetSize v => Ret (et_system_config_setsize sc v)
  | SetTemps v => Ret (et_system_config_settemps sc v)
  | SetStations v => Ret (et_system_config_setstations sc v)
  | SetProcs v => Ret (et_system_config_setprocs sc v)
  | SetAttachments v => Ret (et_system_config_setattachments sc v)
  | SetPort v => Ret (et_system_config_setport sc v)
  | SetServerPort v => Ret (et_system_config_setserverport sc v)
  | SetGroups groups size => et_system_config_setgroups sc groups size
  | SetTcp r s noDelay => Ret (et_system_config_settcp sc r s noDelay)
  | AddMulticast v => et_system_config_addmulticast sc v
  | RemoveMulticast v => et_system_config_removemulticast sc v
  | SetFile v => Ret (et_system_config_setfile sc v)
  end.
Fixpoint set_systems (l : list setting) (sc : option et_sys_config) : res (list Z * option et_sys_config) :=
  match l with
  | [] => Ret ([], sc)
  | s :: l => '(err, sc) ← set_system s sc; '(errs, sc) ← set_systems l sc; Ret (err :: errs, sc)
  end.

Definition is_int (x : Z) : Prop := -2147483648 ≤ x < 2147483648.
(** A string that is short or has a point among its first four characters. *)
Definition early_point (v : option (list Z)) : Prop :=
  match v with Some s => (length s < 7)%nat ∨ (16 ≤ length s)%nat ∨ (strcspn s 46 ≤ 3)%nat | None => True end.

(** Arguments that C allows: numbers that are an [int], as many sizes of groups as are said to be there. *)
Definition argument_ok (s : setting) : Prop :=
  match s with
  | SetEvents v | SetSize v | SetTemps v | SetStations v | SetProcs v | SetAttachments v | SetPort v | SetServerPort v => is_int v
  | SetGroups groups size =>
      is_int size ∧ match groups with Some g => Forall is_int g ∧ size ≤ Z.of_nat (length g) | None => True end
  | SetTcp r s noDelay => is_int r ∧ is_int s ∧ is_int noDelay
  | AddMulticast v | RemoveMulticast v => early_point v
  | SetFile _ => True
  end.
Definition sets_groups (s : setting) : bool := match s with SetGroups _ _ => true | _ => false end.

(** A configuration whose fields are in their ranges. *)
Record typed_sys (c : et_sys_config) : Prop := TypedSys {
  ts_init : sc_init c = ET_STRUCT_OK;
  ts_size : 1 ≤ sc_event_size c < 2147483648;
  ts_events : 1 ≤ sc_nevents c < 2147483648;
  ts_temps : 1 ≤ sc_ntemps c ≤ sc_nevents c;
  ts_stations : 1 ≤ sc_nstations c < 2147483648;
  ts_procs : 1 ≤ sc_nprocesses c ≤ ET_PROCESSES_MAX;
  ts_atts : 1 ≤ sc_nattachments c ≤ ET_ATTACHMENTS_MAX;
  ts_count : 1 ≤ sc_groupCount c ≤ ET_EVENT_GROUPS_MAX;
  ts_groups : length (sc_groups c) = 200%nat;
  ts_sizes : Forall (λ g, 0 ≤ g < 2147483648) (sc_groups c);
  ts_port : port_ok (sc_port c) = true;
  ts_server : port_ok (sc_serverport c) = true;
  ts_rbuf : 0 ≤ sc_tcpRecvBufSize c < 2147483648;
  ts_sbuf : 0 ≤ sc_tcpSendBufSize c < 2147483648;
  ts_delay : sc_tcpNoDelay c = 0 ∨ sc_tcpNoDelay c = 1;
  ts_file : Z.of_nat (length (sc_filename c)) ≤ ET_FILENAME_LENGTH - 1;
  ts_mcast : Z.of_nat (length (sc_mcastaddrs c)) ≤ ET_MAXADDRESSES;
  ts_fits : Forall (λ a, Z.of_nat (length a) ≤ ET_IPADDRSTRLEN - 1) (sc_mcastaddrs c);
  ts_once : NoDup (sc_mcastaddrs c)
}.

(** The events of the groups. *)
Definition grouped (c : et_sys_config) : Z := foldr Z.add 0 (take (Z.to_nat (sc_groupCount c)) (sc_groups c)).

(** An address as it is printed. *)
Definition decimal (n : Z) : list Z :=
  if n <? 10 then [48 + n] else
  if n <? 100 then [48 + n / 10; 48 + n mod 10] else [48 + n / 100; 48 + n / 10 mod 10; 48 + n mod 10].
Fixpoint dotted (l : list Z) : list Z :=
  match l with [] => [] | [n] => decimal n | n :: l => decimal n ++ 46 :: dotted l end.
Definition address (l : list Z) : Prop := length l = 4%nat ∧ Forall (λ n, 0 ≤ n ≤ 255) l.

(** ** Configurations stay in their ranges *)

Lemma count_groups_sum n l acc :
  0 ≤ acc < 2147483648 → (n ≤ length l)%nat → Forall (λ g, 0 ≤ g < 2147483648) l →
  count_groups n l acc =
    (if acc + foldr Z.add 0 (take n l) <? 2147483648 then Ret (acc + foldr Z.add 0 (take n l)) else Undef).
Proof.
  revert l acc. induction n as [|n IH]; intros l acc Ha Hn Hl; [cbn; rewrite Z.add_0_r; by destruct (Z.ltb_spec acc 2147483648); [|lia]|].
  destruct l as [|g l]; [cbn in Hn; lia|]. inversion Hl as [|? ? Hg Hl']; subst. cbn.
  assert (0 ≤ foldr Z.add 0 (take n l)) as H0.
  { clear -Hl'. revert n. induction Hl' as [|x l Hx _ IH]; intros [|n]; cbn; try lia. specialize (IH n). lia. }
  destruct (Z.ltb_spec (acc + g) 2147483648).
  - rewrite IH by (cbn in Hn; first [lia | done]). by rewrite !Z.add_assoc.
  - destruct (Z.ltb_spec (acc + (g + foldr Z.add 0 (take n l))) 2147483648); [lia|done].
Qed.

Lemma check_grouped c :
  typed_sys c →
  et_system_config_check c =
    (if grouped c <? 2147483648 then Ret (if grouped c =? sc_nevents c then ET_OK else ET_ERROR) else Undef).
Proof.
  intros H. destruct H as [? ? ? ? ? Hp Ha Hc Hl Hs]. unfold et_system_config_check.
  rewrite count_groups_sum by (first [lia | done | rewrite Hl; unfold ET_EVENT_GROUPS_MAX in Hc; lia]). rewrite Z.add_0_l. fold (grouped c).
  rewrite !(proj2 (Z.ltb_ge _ _)) by lia.
  destruct (grouped c <? 2147483648); [|done]. cbn. by destruct (grouped c =? sc_nevents c).
Qed.

(** The only group has all the events. *)
Definition one_group (c : et_sys_config) : Prop := sc_groupCount c = 1 ∧ sc_groups c !! 0%nat = Some (sc_nevents c).

Lemma one_group_grouped c : one_group c → grouped c = sc_nevents c.
Proof. intros [Hc Hg]. unfold grouped. rewrite Hc. change (Z.to_nat 1) with 1%nat. destruct (sc_groups c) as [|g l]; [done|]. injection Hg as ->. cbn. destruct l; cbn; lia. Qed.

(** What calls keep: ranges, and as long as [b] says so the only group. *)
Definition in_order (b : bool) (c : et_sys_config) : Prop := typed_sys c ∧ (b = true → one_group c).

Lemma sys_set_keeps b ok f c :
  in_order b c → (ok c = true → in_order b (f c)) → ∃ st c', Ret (sys_set (Some c) ok f) = Ret (st, Some c') ∧ in_order b c'.
Proof.
  intros Hc Hf. unfold sys_set. rewrite (ts_init _ (proj1 Hc)). cbn.
  destruct (ok c); cbn; eexists _, _; (split; [reflexivity|auto]).
Qed.

(** The copy of the sizes, up to one that is not positive. *)
Lemma copy_groups_spec n groups old :
  (n ≤ length groups)%nat → (n ≤ length old)%nat → Forall is_int groups → Forall (λ g, 0 ≤ g < 2147483648) old →
  ∃ ok l, copy_groups n groups old = Ret (ok, l) ∧ length l = length old ∧ Forall (λ g, 0 ≤ g < 2147483648) l ∧
    (ok = true → take n l = take n groups).
Proof.
  revert groups old. induction n as [|n IH]; intros groups old Hn Ho Hg Hold; [by exists true, old|].
  destruct groups as [|g groups]; [cbn in Hn; lia|]. destruct old as [|o old]; [cbn in Ho; lia|].
  inversion Hg as [|? ? Hg1 Hg2]; inversion Hold as [|? ? Ho1 Ho2]; subst. cbn.
  destruct (Z.ltb_spec g 1); [by eexists false, _|].
  destruct (IH groups old) as (ok & l & -> & Hl & Hf & Ht); [cbn in *; lia..|done|done|].
  cbn. exists ok, (g :: l). unfold is_int in Hg1. split_and!; [done|cbn; lia|constructor; [lia|done]|]. intros H1. cbn. by rewrite (Ht H1).
Qed.

(** A list of multicast addresses stays short and without repetition. *)
Definition addresses (l : list (list Z)) : Prop :=
  Z.of_nat (length l) ≤ ET_MAXADDRESSES ∧ Forall (λ a, Z.of_nat (length a) ≤ ET_IPADDRSTRLEN - 1) l ∧ NoDup l.

Lemma add_addresses l s err l' :
  addresses l → Z.of_nat (length s) ≤ ET_IPADDRSTRLEN - 1 → add_address l s = (err, l') → addresses l'.
Proof.
  intros (Hl & Hf & Hd) Hs. unfold add_address. destruct (bool_decide_reflect (s ∈ l)); [by intros [= <- <-]|].
  destruct (Z.eqb_spec (Z.of_nat (length l)) ET_MAXADDRESSES); intros [= <- <-]; [done|].
  split_and!; [rewrite length_app; cbn [length]; lia|rewrite Forall_app; by repeat constructor|].
  apply list.NoDup_app. split_and!; [done|set_solver|apply list.NoDup_singleton].
Qed.
Lemma remove_sublist l s : sublist (remove_address l s) l.
Proof. induction l as [|a l IH]; cbn; [done|]. destruct (bool_decide (a = s)); [by apply sublist_cons|by apply sublist_skip]. Qed.
Lemma remove_addresses l s : addresses l → addresses (remove_address l s).
Proof.
  intros (Hl & Hf & Hd). pose proof (remove_sublist l s) as Hs. split_and!.
  - apply sublist_length in Hs. lia.
  - rewrite !list.Forall_forall in *. intros x Hx. apply Hf. by eapply elem_of_sublist.
  - by eapply sublist_NoDup.
Qed.

Lemma change_multicast_keeps b c v f :
  early_point v → in_order b c →
  (∀ s err l', Z.of_nat (length s) ≤ ET_IPADDRSTRLEN - 1 → addresses (sc_mcastaddrs c) → f (sc_mcastaddrs c) s = (err, l') → addresses l') →
  ∃ st c', change_multicast (Some c) v f = Ret (st, Some c') ∧ in_order b c'.
Proof.
  intros Hv Hc Hf. unfold change_multicast. rewrite (ts_init _ (proj1 Hc)). cbn -[multicast_address].
  assert (∃ a, multicast_address v = Ret a ∧ ∀ s, a = Some s → Z.of_nat (length s) ≤ ET_IPADDRSTRLEN - 1) as (a & -> & Ha).
  { destruct v as [s|]; [|by exists None]. cbn in Hv |- *. unfold ET_IPADDRSTRLEN, first_number in *.
    destruct ((16 <=? _) || _) eqn:E; [by exists None|]. apply orb_false_iff in E as [E1 E2]. apply Z.leb_gt in E1. apply Z.ltb_ge in E2.
    destruct (Nat.ltb_spec 3 (strcspn s 46)); [lia|]. cbn.
    destruct ((_ <? 224) || _); [by exists None|]. exists (Some s). split; [done|]. intros s' [= <-]. lia. }
  cbn. destruct a as [s|]; [|by eexists _, _]. destruct (f (sc_mcastaddrs c) s) as [err l'] eqn:E.
  exists err. eexists. split; [reflexivity|]. destruct Hc as [Hc Hg]. split; [|exact Hg].
  apply Hf in E; [|by apply Ha|by destruct Hc]. destruct Hc, E as (? & ? & ?). by split.
Qed.

Lemma groups_keeps c g size :
  argument_ok (SetGroups g size) → typed_sys c → ∃ st c', et_system_config_setgroups (Some c) g size = Ret (st, Some c') ∧ typed_sys c'.
Proof.
  intros [Hi Hg] Hc. unfold et_system_config_setgroups. rewrite (ts_init _ Hc). cbn -[copy_groups Z.to_nat].
  assert (∀ c' l k, typed_sys c' → 1 ≤ k ≤ ET_EVENT_GROUPS_MAX → length l = 200%nat → Forall (λ x, 0 ≤ x < 2147483648) l →
    typed_sys (c' <| sc_groups := l |> <| sc_groupCount := k |>)) as Hset.
  { intros c' l k [] ? ? ?. by split. }
  destruct (Z.eqb_spec size 1) as [->|Hs]; [eexists _, _; split; [done|]; by apply Hset, Forall_replicate|].
  destruct g as [g|]; [|by eexists _, _]. destruct Hg as [Hg Hl].
  destruct ((_ <? size) || _) eqn:E; [by eexists _, _|]. apply orb_false_iff in E as [E1 E2]. rewrite Z.ltb_ge in E1, E2.
  pose proof (ts_groups _ Hc) as H200. pose proof E1 as E1'. unfold ET_EVENT_GROUPS_MAX in E1'.
  destruct (copy_groups_spec (Z.to_nat size) g (sc_groups c)) as (ok & l & -> & Hll & Hf & Ht); [lia|lia|done|by destruct Hc|].
  cbn -[Z.to_nat]. destruct ok; cbn -[Z.to_nat].
  - eexists _, _. split; [done|]. apply Hset; [done|lia| |].
    + unfold zeros_from. rewrite length_app, length_take, length_replicate. unfold ET_EVENT_GROUPS_MAX. lia.
    + apply Forall_app. split; [by apply Forall_take|by apply Forall_replicate].
  - eexists _, _. split; [done|]. destruct Hc. by split; cbn; rewrite ?Hll.
Qed.

(** A field that does not belong to the groups is set. *)
Ltac sets_field :=
  intros ?; repeat match goal with H : _ && _ = true |- _ => apply andb_true_iff in H as [? ?] end;
  rewrite ?Z.leb_le in *;
  match goal with H : in_order _ _ |- _ => destruct H as [[] H]; split; [split|exact H] end; cbn;
  unfold is_int, ET_PROCESSES_MAX in *; first [done | lia | idtac].

Lemma events_set c v :
  1 ≤ v < 2147483648 → typed_sys c →
  ∃ c', et_system_config_setevents (Some c) v = (ET_OK, Some c') ∧ typed_sys c' ∧ (sc_groupCount c = 1 → one_group c').
Proof.
  intros Hv Hc. unfold et_system_config_setevents, sys_set. rewrite (ts_init _ Hc), (proj2 (Z.leb_le _ _)) by lia.
  eexists. split; [reflexivity|]. destruct Hc.
  set (c1 := if sc_groupCount _ =? 1 then _ else _).
  assert (sc_ntemps c1 = sc_ntemps c ∧ typed_sys (c1 <| sc_ntemps := 1 |>) ∧ (sc_groupCount c = 1 → one_group c1) ∧ sc_nevents c1 = v) as (E1 & Hc1 & Hg & E2).
  { subst c1. cbn. destruct (Z.eqb_spec (sc_groupCount c) 1) as [E|E]; cbn.
    - split_and!; [done| |intros _; split; cbn; [done|apply list_lookup_insert_eq; lia]|done].
      split; cbn; try done; try lia; [by rewrite length_insert|apply Forall_insert; [done|lia]].
    - split_and!; [done| |done|done]. split; cbn; try done; lia. }
  destruct Hc1; cbn in *. rewrite E1. destruct (Z.ltb_spec v (sc_ntemps c)); (split; [split|exact Hg]); cbn; rewrite ?E1, ?E2; done || lia.
Qed.
Lemma events_keeps b c v :
  is_int v → in_order b c → ∃ st c', Ret (et_system_config_setevents (Some c) v) = Ret (st, Some c') ∧ in_order b c'.
Proof.
  intros [_ Hi] [Hc Ho]. destruct (Z.ltb_spec v 1) as [Hv|Hv].
  - eexists _, c. split; [|done]. unfold et_system_config_setevents, sys_set.
    by rewrite (ts_init _ Hc), (proj2 (Z.leb_gt _ _)) by lia.
  - destruct (events_set c v) as (c' & -> & Hc' & H1); [lia|done|]. eexists _, c'. split; [done|]. split; [done|].
    intros Hb. apply H1. by destruct (Ho Hb).
Qed.

Lemma set_system_keeps s b c :
  argument_ok s → in_order b c → (b = true → sets_groups s = false) →
  ∃ st c', set_system s (Some c) = Ret (st, Some c') ∧ in_order b c'.
Proof.
  intros Ha Hc Hb. destruct s; cbn [set_system argument_ok] in *; [by apply events_keeps|..].
  all: try (apply sys_set_keeps; [done|sets_field]).
  - destruct (groups_keeps c groups size) as (st & c' & E & Hc'); [done|by destruct Hc|].
    exists st, c'. split; [exact E|split; [done|]]. intros Hb'. by specialize (Hb Hb').
  - destruct (noDelay =? 0); auto.
  - apply change_multicast_keeps; [done..|]. intros s err l' Hs Hl. by apply add_addresses.
  - apply change_multicast_keeps; [done..|]. intros s err l' Hs Hl [= <- <-]. by apply remove_addresses.
  - unfold string_ok in *. destruct v; [by apply Z.leb_le|done].
Qed.

Lemma set_systems_keep l b c :
  Forall argument_ok l → in_order b c → (b = true → Forall (λ s, sets_groups s = false) l) →
  ∃ st c', set_systems l (Some c) = Ret (st, Some c') ∧ length st = length l ∧ in_order b c'.
Proof.
  intros Hl. revert c. induction Hl as [|s l Hs _ IH]; intros c Hc Hb; [by exists [], c|].
  destruct (set_system_keeps s b c) as (st & c1 & E & Hc1); [done..|intros H; specialize (Hb H); by inversion Hb|].
  destruct (IH c1) as (sts & c2 & E2 & Hlen & Hc2); [done|intros H; specialize (Hb H); by inversion Hb|].
  exists (st :: sts), c2. cbn. rewrite E. cbn. rewrite E2. cbn. auto.
Qed.

Lemma initial_in_order b bcast c :
  et_system_config_init true true bcast = (ET_OK, Some c) → in_order b c.
Proof.
  unfold et_system_config_init. cbn -[ET_MAXADDRESSES]. destruct (_ <=? _); [done|]. intros [= <-]. split; [|done].
  split; cbn; unfold ET_PROCESSES_MAX, ET_ATTACHMENTS_MAX, ET_EVENT_GROUPS_MAX, ET_MAXADDRESSES, ET_FILENAME_LENGTH, ET_SYSTEM_NTEMPS,
    ET_SYSTEM_EVENTS, ET_SYSTEM_ESIZE, ET_SYSTEM_NSTATS in *; try done; auto; try constructor.
  - lia.
  - repeat (constructor; [lia|]). constructor.
Qed.


(** A configuration that is told to have a single group, as it had at the beginning, loses the
    events of this group: the call succeeds and the system refuses the configuration, until
    the number of events is set again. *)
Lemma single_group_refused c groups :
  typed_sys c →
  ∃ c', et_system_config_setgroups (Some c) groups 1 = Ret (ET_OK, Some c') ∧ et_system_config_check c' = Ret ET_ERROR ∧
    ∀ v, 1 ≤ v < 2147483648 → ∃ c'', et_system_config_setevents (Some c') v = (ET_OK, Some c'') ∧ et_system_config_check c'' = Ret ET_OK.
Proof.
  intros Hc.
  destruct (groups_keeps c None 1) as (st & c' & E & Hc'); [by split|done|].
  unfold et_system_config_setgroups in *. rewrite (ts_init _ Hc) in *. cbn -[zeros_from] in E. injection E as <- <-.
  eexists. split; [reflexivity|]. split.
  - rewrite (check_grouped _ Hc'). pose proof (ts_events _ Hc) as He. change (grouped _) with 0. cbn -[Z.eqb].
    by destruct (Z.eqb_spec 0 (sc_nevents c)); [lia|].
  - intros v Hv. destruct (events_set _ v Hv Hc') as (c'' & E & Hc'' & H1). exists c''. split; [exact E|].
    rewrite (check_grouped _ Hc''), one_group_grouped by (by apply H1). pose proof (ts_events _ Hc'').
    by rewrite Z.eqb_refl, (proj2 (Z.ltb_lt _ _)) by lia.
Qed.

(** Sizes of groups that are refused are stored up to the one that is not positive. *)
Example refused_sizes_stored c :
  typed_sys c → ∃ c', et_system_config_setgroups (Some c) (Some [7; 0]) 2 = Ret (ET_ERROR, Some c') ∧ sc_groups c' !! 0%nat = Some 7.
Proof.
  intros Hc. unfold et_system_config_setgroups. rewrite (ts_init _ Hc). pose proof (ts_groups _ Hc) as Hl.
  destruct (sc_groups c) as [|g l] eqn:E; [done|]. cbn. by eexists.
Qed.

(** A string that has no point among its first four characters is written over the array of four. *)
Example no_point_overflows c :
  typed_sys c → et_system_config_addmulticast (Some c) (Some [50; 50; 52; 48; 48; 46; 49]) = Undef.
Proof. intros Hc. unfold et_system_config_addmulticast, change_multicast. by rewrite (ts_init _ Hc). Qed.

(** ** Addresses are read as they are printed *)

(** The rest of a string goes on with something that is no digit. *)
Definition no_digit (l : list Z) : Prop := match l with c :: _ => isdigit c = false | [] => True end.

Lemma digit k : 0 ≤ k ≤ 9 → isdigit (48 + k) = true.
Proof. intros Hk. unfold isdigit. apply andb_true_iff. rewrite !Z.leb_le. lia. Qed.
Lemma scan_digit v k l : 0 ≤ k ≤ 9 → scan_digits v ((48 + k) :: l) = scan_digits (10 * v + k) l.
Proof. intros Hk. cbn [scan_digits]. rewrite digit by done. f_equal. lia. Qed.
Lemma scan_no_digit v l : no_digit l → scan_digits v l = (v, l).
Proof. destruct l; cbn; [done|]. by intros ->. Qed.

Lemma scan_decimal n l : 0 ≤ n ≤ 255 → no_digit l → scan_digits 0 (decimal n ++ l) = (n, l).
Proof.
  intros Hn Hl. unfold decimal. destruct (Z.ltb_spec n 10); [|destruct (Z.ltb_spec n 100)]; cbn [app];
    rewrite !scan_digit, scan_no_digit by (done || (Z.to_euclidean_division_equations; lia)); f_equal; Z.to_euclidean_division_equations; lia.
Qed.
Lemma decimal_starts n : 0 ≤ n ≤ 255 → ∃ k r, decimal n = (48 + k) :: r ∧ 0 ≤ k ≤ 9.
Proof. intros Hn. unfold decimal. destruct (Z.ltb_spec n 10); [|destruct (Z.ltb_spec n 100)]; eexists _, _; (split; [done|Z.to_euclidean_division_equations; lia]). Qed.

Lemma scan_int_decimal n l : 0 ≤ n ≤ 255 → no_digit l → scan_int (decimal n ++ l) = Ret (Some (n, l)).
Proof.
  intros Hn Hl. pose proof (scan_decimal n l Hn Hl) as H. destruct (decimal_starts n Hn) as (k & r & E & Hk).
  rewrite E in *. unfold scan_int. cbn [app skip_spaces].
  assert (isspace (48 + k) = false) as ->.
  { unfold isspace. rewrite (proj2 (Z.eqb_neq _ _)), (proj2 (Z.leb_gt (48 + k) 13)) by lia. by rewrite andb_false_r. }
  cbn [scan_sign]. rewrite !(proj2 (Z.eqb_neq (48 + k) _)) by lia. rewrite digit by done. cbn [app] in H. rewrite H.
  by rewrite (proj2 (Z.leb_le _ _)), (proj2 (Z.ltb_lt _ _)) by lia.
Qed.

Lemma scan_dotted_address l rest :
  Forall (λ n, 0 ≤ n ≤ 255) l → no_digit rest → scan_dotted (length l) (dotted l ++ rest) = Ret l.
Proof.
  intros Hl Hr. induction Hl as [|n l Hn Hl IH]; [done|]. cbn [length scan_dotted]. destruct l as [|m l].
  - cbn [dotted]. by rewrite scan_int_decimal.
  - cbn [dotted] in *. rewrite <- app_assoc. cbn [app]. rewrite scan_int_decimal by done. cbn -[scan_dotted dotted].
    cbn [length] in IH. by rewrite IH.
Qed.

Lemma dotted_decimal l rest :
  address l → no_digit rest → codanetIsDottedDecimal (Some (dotted l ++ rest)) = Ret (Some l).
Proof.
  intros [H4 Hl] Hr. unfold codanetIsDottedDecimal. rewrite <- H4, scan_dotted_address by done. cbn.
  rewrite H4. cbn [Nat.eqb andb]. replace (forallb _ l) with true; [done|]. symmetry. apply forallb_forall.
  intros x Hx. rewrite list.Forall_forall in Hl. apply list_elem_of_In, Hl in Hx. apply andb_true_iff. rewrite !Z.leb_le. lia.
Qed.

(** Masks work number by number. *)
Lemma land_join a b x y :
  0 ≤ x < 256 → 0 ≤ y < 256 →
  Z.land (Z.lor (Z.shiftl a 8) x) (Z.lor (Z.shiftl b 8) y) = Z.lor (Z.shiftl (Z.land a b) 8) (Z.land x y).
Proof.
  intros Hx Hy. apply Z.bits_inj'. intros n Hn. rewrite ?Z.land_spec, ?Z.lor_spec, ?Z.shiftl_spec, ?Z.land_spec by done.
  destruct (Z.ltb_spec n 8).
  - by rewrite !(Z.testbit_neg_r _ (n - 8)) by lia.
  - assert (∀ z, 0 ≤ z < 256 → Z.testbit z n = false) as Hz.
    { intros z Hz. rewrite <- (Z.mod_small z (2 ^ 8)) by done. by apply Z.mod_pow2_bits_high. }
    by rewrite !Hz, !orb_false_r by done.
Qed.
Lemma joined_app l x : joined (l ++ [x]) = Z.lor (Z.shiftl (joined l) 8) x.
Proof. unfold joined. by rewrite fold_left_app. Qed.

Lemma land_byte x y : 0 ≤ x ≤ 255 → 0 ≤ y ≤ 255 → 0 ≤ Z.land x y ≤ 255.
Proof.
  intros Hx Hy. split; [apply Z.land_nonneg; lia|].
  pose proof (Z.land_ones (Z.land x y) 8 ltac:(lia)) as E. rewrite <- Z.land_assoc, (Z.land_ones y 8), (Z.mod_small y) in E by (lia || done).
  rewrite E. pose proof (Z.mod_pos_bound (Z.land x y) (2 ^ 8)). lia.
Qed.
Lemma land_bytes l m :
  Forall (λ n, 0 ≤ n ≤ 255) l → Forall (λ n, 0 ≤ n ≤ 255) m → Forall (λ n, 0 ≤ n ≤ 255) (zip_with Z.land l m).
Proof.
  intros Hl. revert m. induction Hl as [|x l Hx _ IH]; intros m Hm; [constructor|].
  destruct Hm as [|y m Hy Hm]; cbn; constructor; [by apply land_byte|by apply IH].
Qed.
Lemma joined_land l m :
  length l = length m → Forall (λ n, 0 ≤ n ≤ 255) l → Forall (λ n, 0 ≤ n ≤ 255) m →
  Z.land (joined l) (joined m) = joined (zip_with Z.land l m).
Proof.
  revert m. induction l as [|x l IH] using rev_ind; intros m Hm Hl Hm'; [done|].
  destruct m as [|y m _] using rev_ind; [rewrite length_app in Hm; cbn in Hm; lia|].
  rewrite !length_app in Hm. cbn in Hm. apply Forall_app in Hl as [Hl Hx], Hm' as [Hm' Hy].
  inversion Hx; inversion Hy; subst. rewrite zip_with_app by lia. cbn [zip_with]. rewrite !joined_app, land_join by lia.
  by rewrite IH by (done || lia).
Qed.
Lemma joined_inj l m :
  length l = length m → Forall (λ n, 0 ≤ n ≤ 255) l → Forall (λ n, 0 ≤ n ≤ 255) m → joined l = joined m → l = m.
Proof.
  revert m. induction l as [|x l IH] using rev_ind; intros m Hm Hl Hm' E.
  - destruct m; [done|cbn in Hm; lia].
  - destruct m as [|y m _] using rev_ind; [rewrite length_app in Hm; cbn in Hm; lia|].
    rewrite !length_app in Hm. cbn in Hm. apply Forall_app in Hl as [Hl Hx], Hm' as [Hm' Hy]. inversion Hx; inversion Hy; subst.
    rewrite !joined_app, !(Z.lor_comm (Z.shiftl _ 8)), !lor_shiftl_add in E by lia. change (2 ^ 8) with 256 in E.
    assert (x = y) as -> by lia. f_equal. apply IH; done || lia.
Qed.

(** C37: Two addresses are told to be in the same subnet exactly when they agree in all bits of the
    mask, number by number, in the notation that people write, with whatever follows that is no
    digit; without a place for the answer the call is an error. *)
Theorem same_subnet a b m ra rb rm :
  address a → address b → address m → no_digit ra → no_digit rb → no_digit rm →
  (∃ answer, codanetOnSameSubnet (Some (dotted a ++ ra)) (Some (dotted b ++ rb)) (Some (dotted m ++ rm)) true = Ret (ET_OK, Some answer) ∧
    (answer = 1 ↔ zip_with Z.land a m = zip_with Z.land b m) ∧ (answer = 0 ∨ answer = 1)) ∧
  codanetOnSameSubnet (Some (dotted a ++ ra)) (Some (dotted b ++ rb)) (Some (dotted m ++ rm)) false = Ret (ET_ERROR, None).
Proof.
  intros Ha Hb Hm Hra Hrb Hrm. unfold codanetOnSameSubnet, codanetOnSameSubnet2. rewrite !dotted_decimal by done. cbn -[joined].
  destruct Ha as [Ha4 Ha], Hb as [Hb4 Hb], Hm as [Hm4 Hm]. split; [|done]. rewrite !joined_land by (done || congruence).
  assert (∀ l, length l = 4%nat → Forall (λ n, 0 ≤ n ≤ 255) l →
    length (zip_with Z.land l m) = 4%nat ∧ Forall (λ n, 0 ≤ n ≤ 255) (zip_with Z.land l m)) as Hz.
  { intros l Hl Hf. split; [rewrite length_zip_with; lia|].
    by apply land_bytes. }
  destruct (Hz a) as [La Fa], (Hz b) as [Lb Fb]; [done..|].
  eexists. split; [reflexivity|]. destruct (Z.eqb_spec (joined (zip_with Z.land a m)) (joined (zip_with Z.land b m))) as [E|E].
  - split; [|by right]. apply joined_inj in E; [done|congruence|done..].
  - split; [|by left]. split; [done|]. intros H. by rewrite H in E.
Qed.

(** ** Witnesses *)


Lemma same_subnet_witness :
  ∃ answer, codanetOnSameSubnet (Some (dotted [129; 57; 29; 64] ++ [])) (Some (dotted [129; 57; 29; 7] ++ [32]))
      (Some (dotted [255; 255; 255; 0] ++ [])) true = Ret (ET_OK, Some answer) ∧ answer = 1.
Proof.
  destruct (same_subnet [129; 57; 29; 64] [129; 57; 29; 7] [255; 255; 255; 0] [] [32] []) as [(answer & E & H & _) _].
  all: try (split; [reflexivity|repeat constructor; lia]). all: try reflexivity; try exact I.
  exists answer. split; [exact E|]. apply H. reflexivity.
Defined.
