(* ===== verification/EtEventNet.v ===== *)
(** * Events in messages (et-16.1: et.h, et_private.h; the headers of et_server.c and et_remote.c)

    How an event is written to a connection and read from it.  Both ends are machines of 64
    bits with the low byte first; an integer that is not converted with [htonl] travels as
    it is in memory. *)

From S2P Require Import Prelude Words EtTypes EtNet.

Definition ET_NET_EV_GET : Z := 20.
Definition ET_NET_EVS_GET : Z := 21.
Definition ET_NET_EV_PUT : Z := 22.
Definition ET_NET_EVS_PUT : Z := 23.
Definition ET_NET_EV_NEW : Z := 24.
Definition ET_NET_EVS_NEW : Z := 25.
Definition ET_NET_EV_DUMP : Z := 26.
Definition ET_NET_EVS_DUMP : Z := 27.
Definition ET_NET_EVS_NEW_GRP : Z := 28.

Definition ET_ERROR_TOOBIG : Z := -13.
Definition ET_PRIORITY_MASK : Z := 1.
Definition ET_MODIFY : Z := 4.
Definition ET_MODIFY_HEADER : Z := 8.
Definition ET_DUMP : Z := 16.
Definition ET_NOALLOC : Z := 32.
Definition ET_DATA_MASK : Z := 48.
Definition ET_DATA_SHIFT : Z := 4.

(** The byte order of an event that was initialised. *)
Definition local_order : Z := 67305985.

(** UINT32_MAX/5 *)
Definition too_long : Z := 858993459.

(** ** Integers that are not converted *)

Definition raw (x : Z) : list Z := le 4 (u32 x).
Definition raw_word (b : list Z) (i : nat) : Z := s32 (le_val (take 4 (drop (4 * i) b))).

(** ** Priority and status of the data in one integer *)

Definition joined_bits (e : et_event) : Z := Z.lor (e_priority e) (Z.shiftl (e_datastatus e) ET_DATA_SHIFT).
Definition priority_bits (x : Z) : Z := Z.land x ET_PRIORITY_MASK.
Definition status_bits (x : Z) : Z := Z.shiftr (Z.land x ET_DATA_MASK) ET_DATA_SHIFT.

(** ** The event of a remote process

    A copy in its own memory: the fields of an event, its place in the system, and its data,
    [None] when there is no memory for them. *)
Record revent := mkRevent { re_event : et_event; re_place : Z; re_byteorder : Z; re_data : option (list Z) }.
#[export] Instance eta_revent : Eta revent := λ e, mkRevent (re_event e) (re_place e) (re_byteorder e) (re_data e).

(** ** From the server *)

Definition server_header (e : et_event) (x : nat) (byteorder : Z) : list Z :=
  ints [ET_HIGHINT (e_length e); ET_LOWINT (e_length e); ET_HIGHINT (e_memsize e); ET_LOWINT (e_memsize e);
        joined_bits e; Z.of_nat x; 0] ++ raw byteorder ++ ints (0 :: e_control e).

(** The remote process reads the 15 integers; the data comes next. *)
Definition client_event (h : list Z) (modify : Z) : revent :=
  let w := words 15 h in
  let at_ i := nth i w 0 in
  mkRevent (et_init_event <| e_length := ET_64BIT_UINT (at_ 0%nat) (at_ 1%nat) |> <| e_memsize := ET_64BIT_UINT (at_ 2%nat) (at_ 3%nat) |>
      <| e_priority := priority_bits (at_ 4%nat) |> <| e_datastatus := status_bits (at_ 4%nat) |>
      <| e_control := s32 <$> drop 9 w |> <| e_modify := modify |>)
    (s32 (at_ 5%nat)) (raw_word h 7) None.

(** ** To the server *)

Definition client_header (e : revent) : list Z :=
  ints [re_place e; 0; ET_HIGHINT (e_length (re_event e)); ET_LOWINT (e_length (re_event e)); joined_bits (re_event e)] ++
  raw (re_byteorder e) ++ ints (0 :: e_control (re_event e)).

(** What the server reads: the place, the byte order, and the changes of the event. *)
Definition header_place (h : list Z) : Z := word h 0.
Definition header_order (h : list Z) : Z := raw_word h 5.
Definition header_fields (h : list Z) (e : et_event) : et_event :=
  let w := words 13 h in
  let at_ i := nth i w 0 in
  e <| e_length := ET_64BIT_UINT (at_ 2%nat) (at_ 3%nat) |> <| e_priority := priority_bits (at_ 4%nat) |>
    <| e_datastatus := status_bits (at_ 4%nat) |> <| e_control := s32 <$> drop 7 w |>.

(** ** Lemmas *)

Lemma length_raw x : length (raw x) = 4%nat.
Proof. apply length_le. Qed.

Lemma raw_val x : s32 (le_val (raw x)) = s32 x.
Proof. unfold raw. rewrite le_val_le. change (256 ^ Z.of_nat 4) with 4294967296. unfold s32, u32. by rewrite !Z.mod_mod. Qed.

(** The words of a message with an integer that was not converted. *)
Lemma words_app l b r n : words (length l + n) (ints l ++ b ++ r) = (u32 <$> l) ++ words n (b ++ r).
Proof.
  induction l as [|x l IH]; [done|]. unfold ints. cbn [fmap list_fmap concat length Nat.add words app]. rewrite <- app_assoc.
  rewrite take_app_length' by by rewrite length_be32. rewrite drop_app_length' by by rewrite length_be32.
  rewrite be32_val. f_equal. exact IH.
Qed.

Lemma words_raw l x r :
  words (length l + S (length r)) (ints l ++ raw x ++ ints r) = (u32 <$> l) ++ le_val (rev (raw x)) :: (u32 <$> r).
Proof.
  rewrite words_app. f_equal. cbn [words]. rewrite take_app_length' by by rewrite length_raw.
  rewrite drop_app_length' by by rewrite length_raw. f_equal. rewrite <- (app_nil_r (ints r)). apply words_ints.
Qed.

Lemma raw_word_at l x r : raw_word (ints l ++ raw x ++ r) (length l) = s32 x.
Proof.
  unfold raw_word. rewrite drop_app_length' by by rewrite length_ints. rewrite take_app_length' by by rewrite length_raw.
  apply raw_val.
Qed.

Lemma first_word x l r : words 1 (ints (x :: l) ++ r) = [u32 x].
Proof.
  cbn [words]. change (ints (x :: l)) with (be32 x ++ ints l). rewrite <- app_assoc, take_app_length' by by rewrite length_be32.
  by rewrite be32_val.
Qed.

(** Events whose numbers are in their ranges. *)
Record sendable (e : et_event) : Prop := {
  snd_length : 0 ≤ e_length e < 18446744073709551616; snd_memsize : 0 ≤ e_memsize e < 18446744073709551616;
  snd_priority : 0 ≤ e_priority e ≤ 1; snd_status : 0 ≤ e_datastatus e ≤ 3;
  snd_words : length (e_control e) = 6%nat; snd_control : Forall int_ok (e_control e)
}.

Lemma joined_cases e : 0 ≤ e_priority e ≤ 1 → 0 ≤ e_datastatus e ≤ 3 →
  priority_bits (u32 (joined_bits e)) = e_priority e ∧ status_bits (u32 (joined_bits e)) = e_datastatus e.
Proof.
  intros H1 H2. unfold joined_bits, priority_bits, status_bits.
  assert (e_priority e = 0 ∨ e_priority e = 1) as [-> | ->] by lia;
    assert (e_datastatus e = 0 ∨ e_datastatus e = 1 ∨ e_datastatus e = 2 ∨ e_datastatus e = 3) as [-> | [-> | [-> | ->]]] by lia; done.
Qed.

Lemma u32_halves x : 0 ≤ x < 18446744073709551616 → ET_64BIT_UINT (u32 (ET_HIGHINT x)) (u32 (ET_LOWINT x)) = x.
Proof.
  intros Hx. assert (∀ z, u32 (u32 z) = u32 z) as E by (intros z; unfold u32; by rewrite Z.mod_mod).
  unfold ET_HIGHINT, ET_LOWINT. rewrite !E. change (ET_64BIT_UINT (ET_HIGHINT x) (ET_LOWINT x) = x). rewrite halves.
  unfold u64. by apply Z.mod_small.
Qed.

(** What the remote process has after it read the header the server wrote. *)
Definition copied (e : et_event) (modify : Z) : et_event :=
  et_init_event <| e_length := e_length e |> <| e_memsize := e_memsize e |> <| e_priority := e_priority e |>
    <| e_datastatus := e_datastatus e |> <| e_control := e_control e |> <| e_modify := modify |>.

Lemma client_event_header e x bo modify :
  sendable e → int_ok (Z.of_nat x) → int_ok bo →
  client_event (server_header e x bo) modify = mkRevent (copied e modify) (Z.of_nat x) bo None.
Proof.
  intros [H1 H2 H3 H4 H5 H6] Hx Hb. unfold client_event, server_header.
  match goal with |- context [words 15 (ints ?l ++ _)] => set (l0 := l) end.
  assert (words 15 (ints l0 ++ raw bo ++ ints (0 :: e_control e)) =
    (u32 <$> l0) ++ le_val (rev (raw bo)) :: (u32 <$> (0 :: e_control e))) as ->.
  { rewrite <- words_raw. f_equal. cbn [length]. rewrite H5. done. }
  assert (raw_word (ints l0 ++ raw bo ++ ints (0 :: e_control e)) 7 = bo) as -> by (rewrite <- (s32_int bo) at 2 by done; exact (raw_word_at l0 bo _)).
  subst l0. rewrite !fmap_cons, fmap_nil; cbn [app nth drop]. destruct (joined_cases e H3 H4) as [-> ->].
  rewrite !u32_halves by done. rewrite s32_u32, s32_int, drop_0 by done. by rewrite s32_ints.
Qed.

(** What the server makes of an event whose header a remote process wrote. *)
Definition filled (e' e : et_event) : et_event :=
  e <| e_length := e_length e' |> <| e_priority := e_priority e' |> <| e_datastatus := e_datastatus e' |>
    <| e_control := e_control e' |>.

Lemma server_reads re e :
  sendable (re_event re) →
  header_fields (client_header re) e = filled (re_event re) e ∧ header_place (client_header re) = u32 (re_place re) ∧
  header_order (client_header re) = s32 (re_byteorder re) ∧ length (client_header re) = 52%nat.
Proof.
  intros [H1 H2 H3 H4 H5 H6]. unfold header_fields, header_place, header_order, client_header.
  set (c := re_event re) in *.
  match goal with |- context [words 13 (ints ?l ++ _)] => set (l0 := l) end.
  assert (words 13 (ints l0 ++ raw (re_byteorder re) ++ ints (0 :: e_control c)) =
    (u32 <$> l0) ++ le_val (rev (raw (re_byteorder re))) :: (u32 <$> (0 :: e_control c))) as E.
  { rewrite <- words_raw. f_equal. cbn [length]. rewrite H5. done. }
  rewrite E. split_and!.
  - subst l0. rewrite !fmap_cons, fmap_nil; cbn [app nth drop]. destruct (joined_cases c H3 H4) as [-> ->].
    rewrite u32_halves, drop_0 by done. by rewrite s32_ints.
  - unfold word. assert (words 1 (ints l0 ++ raw (re_byteorder re) ++ ints (0 :: e_control c)) = [u32 (re_place re)]) as ->; [apply first_word|done].
  - exact (raw_word_at l0 _ _).
  - subst l0. rewrite !length_app, !length_ints, length_raw. cbn [length]. rewrite H5. done.
Qed.
