(* ===== verification/EtServer.v ===== *)
(** * The server of a system (et-16.1/src/libsrc/et_server.c, lines 609-681 and 2169-2783)

    For each remote process a thread of the system reads commands, makes the call for the
    process and writes the answer.  It keeps the attachments that the process made, and
    when the process closes the connection, or dies, detaches them. *)

From S2P Require Import Prelude Words CString EtTypes EtLists EtConductor EtAccess EtWaiting EtDetached EtStatConfig EtStations EtSettings.
From S2P Require Import EtSettings EtNet.

(** Where an attachment comes from: fields of the shared memory that only the server sets. *)
Record origin := mkOrigin { o_pid : Z; o_host : list Z; o_interface : list Z }.
#[export] Instance eta_origin : Eta origin := λ o, mkOrigin (o_pid o) (o_host o) (o_interface o).

(** The data of an event in the shared memory, all its bytes, and their order. *)
Record buffer := mkBuffer { b_byteorder : Z; b_data : list Z }.
#[export] Instance eta_buffer : Eta buffer := λ b, mkBuffer (b_byteorder b) (b_data b).

(** While a call for events waits: what others do to the system (EtWaiting.v) and write into
    the data of events, and whether the remote process closes the connection. *)
Record meanwhile := mkMeanwhile {
  w_script : script; w_naps : list others; w_write : gmap nat buffer → gmap nat buffer; w_hangs_up : bool
}.

(** The thread: the identifier of the system's process, and the array [attaches]; the data
    of the events, by their places; what happens in the calls that will wait; whether the
    remote process is one of 64 bits. *)
Record server := mkServer {
  v_id : et_id; v_info : et_info; v_attaches : list Z; v_origins : list origin;
  v_buffers : gmap nat buffer; v_waits : list meanwhile; v_bit64 : bool
}.
#[export] Instance eta_server : Eta server := λ v, mkServer
  (v_id v) (v_info v) (v_attaches v) (v_origins v) (v_buffers v) (v_waits v) (v_bit64 v).

(** After a command: what was written, what is left to read, and whether the thread goes on. *)
Record turn := mkTurn { t_out : list Z; t_rest : list Z; t_server : server; t_on : bool }.

Definition answer (v : server) (out rest : list Z) : res turn := Ret (mkTurn out rest v true).

(** ** The end *)

Fixpoint detach_all (l : list Z) (d : et_id) : res et_id :=
  match l with
  | [] => Ret d
  | a :: l => d ← (if -1 <? a then '(_, _, d) ← et_station_detach d a; Ret d else Ret d); detach_all l d
  end.

Definition at_end (v : server) (rest : list Z) : res turn :=
  d ← detach_all (v_attaches v) (v_id v); Ret (mkTurn [] rest (v <| v_id := d |>) false).

(** ** Reading *)

(** [n] bytes of the connection; when it ends before, so does the thread. *)
Definition receive (v : server) (n : Z) (b : list Z) (k : list Z → list Z → res turn) : res turn :=
  if (n <? 0) || (Z.of_nat (length b) <? n) then at_end v [] else k (take (Z.to_nat n) b) (drop (Z.to_nat n) b).
(** [n] integers, in the order of the host. *)
Definition receive_ints (v : server) (n : nat) (b : list Z) (k : list Z → list Z → res turn) : res turn :=
  receive v (4 * Z.of_nat n) b (λ l b, k (words n l) b).
(** [n] bytes for an array of [cap] characters. *)
Definition receive_chars (v : server) (cap n : Z) (b : list Z) (k : list Z → list Z → res turn) : res turn :=
  if cap <? n then Undef else receive v n b k.

Definition arg (l : list Z) (i : nat) : Z := s32 (nth i l 0).

Section Server.
  (** What the calls leave to chance; [junk] is a variable that is not set. *)
  Context (starts : et_station → bool) (allocated : bool) (conductors : nat → et_system → et_system) (junk : Z).
  (** The commands about events and those that send all data of the system or end it. *)
  Context (elsewhere : Z → server → list Z → res turn).
  Implicit Types v : server.

(** ** Answering *)

(** The status of a call that was made for the process. *)
Definition reply_status {A} v (r : res (Z * option A * et_id)) (rest : list Z) : res turn :=
  '(err, _, d) ← r; answer (v <| v_id := d |>) (ints [err]) rest.

(** The status and the values. *)
Definition reply_values {A} v (r : res (Z * option A * et_id)) (send : option A → list Z) (rest : list Z) : res turn :=
  '(err, out, d) ← r; answer (v <| v_id := d |>) (ints (err :: send out)) rest.
Definition send_int (out : option Z) : list Z := [default junk out].
Definition send_words (out : option (list Z)) : list Z := take 6 (default [] out ++ replicate 6 junk).
Definition send_place (out : option (Z * option Z)) : list Z :=
  match out with Some (p, q) => [p; default junk q] | None => [junk; junk] end.
Definition send_count (out : option Z) : list Z := [ET_HIGHINT (default junk out); ET_LOWINT (default junk out)].

(** ** The commands *)

Definition serve_attach v (b : list Z) : res turn :=
  receive_ints v 4 b (λ l b,
    let host_length := arg l 2 in
    let ip_length := arg l 3 in
    let k := λ host interface b,
      '(err, att, d) ← et_station_attach (v_id v) (arg l 0) true;
      let v := v <| v_id := d |> in
      v ← (if err =? ET_OK then
             att ← of_option att;
             attaches ← aset (v_attaches v) att att;
             o ← aget (v_origins v) att;
             h ← (if 0 <? host_length then c_string ET_MAXHOSTNAMELEN host else Ret (o_host o));
             i ← (if 0 <? ip_length then c_string ET_IPADDRSTRLEN interface else Ret (o_interface o));
             origins ← aset (v_origins v) att (mkOrigin (arg l 1) h i);
             Ret (v <| v_attaches := attaches |> <| v_origins := origins |>)
           else Ret v);
      answer v (ints [err; default junk att]) b in
    let k := λ host b, if 0 <? ip_length then receive_chars v ET_IPADDRSTRLEN ip_length b (k host) else k host [] b in
    if 0 <? host_length then receive_chars v ET_MAXHOSTNAMELEN host_length b k else k [] b).

Definition serve_detach v (b : list Z) : res turn :=
  receive_ints v 1 b (λ l b,
    let att := arg l 0 in
    '(err, _, d) ← et_station_detach (v_id v) att;
    let v := v <| v_id := d |> in
    v ← (if err =? ET_OK then attaches ← aset (v_attaches v) att (-1); Ret (v <| v_attaches := attaches |>) else Ret v);
    answer v (ints [err]) b).

Definition serve_create v (b : list Z) : res turn :=
  receive_ints v 20 b (λ l b,
    receive_chars v ET_FUNCNAME_LENGTH (arg l 14) b (λ fname b,
    receive_chars v ET_FILENAME_LENGTH (arg l 15) b (λ lib b,
    receive_chars v ET_FILENAME_LENGTH (arg l 16) b (λ classs b,
    receive_chars v ET_STATNAME_LENGTH (arg l 17) b (λ stat_name b,
      fname ← c_string ET_FUNCNAME_LENGTH fname;
      lib ← c_string ET_FILENAME_LENGTH lib;
      classs ← c_string ET_FILENAME_LENGTH classs;
      stat_name ← c_string ET_STATNAME_LENGTH stat_name;
      let sc := mkStatConfig (arg l 1) (arg l 2) (arg l 3) (arg l 4) (arg l 5) (arg l 6) (arg l 7)
                  (s32 <$> take 6 (drop 8 l)) (arg l 0) fname lib classs in
      reply_values v (et_station_create_at starts allocated (v_id v) (Some stat_name) (Some sc) (arg l 18) (arg l 19))
        send_int b))))).

Definition serve_exists v (b : list Z) : res turn :=
  receive_ints v 1 b (λ l b,
    receive_chars v ET_STATNAME_LENGTH (arg l 0) b (λ name b,
      name ← c_string ET_STATNAME_LENGTH name;
      reply_values v (et_station_exists (v_id v) (Some name) true) send_int b)).

(** The name is stored behind the two integers of the answer, in an array of 128 more
    characters than the longest name. *)
Definition serve_name v (command : Z) (b : list Z) : res turn :=
  receive_ints v 1 b (λ l b,
    '(err, name, d) ← (if command =? ET_NET_STAT_LIB then et_station_getlib (v_id v) (arg l 0) true
                        else if command =? ET_NET_STAT_FUNC then et_station_getfunction (v_id v) (arg l 0) true
                        else et_station_getclass (v_id v) (arg l 0) true);
    let v := v <| v_id := d |> in
    if negb (err =? ET_OK) then answer v (ints [err; 0]) b else
    name ← of_option name;
    if 128 + ET_FILENAME_LENGTH <? 8 + (Z.of_nat (length name) + 1) then Undef else
    answer v (ints [err; Z.of_nat (length name) + 1] ++ name ++ [0]) b).

Definition on_alive v (b : list Z) : res turn := answer v (ints [1]) b.
Definition on_wait v (b : list Z) : res turn := answer v (ints [ET_OK]) b.
(** There is no answer to the next three: nobody listens. *)
Definition on_close v (b : list Z) : res turn := at_end v b.
Definition on_wake_att v (b : list Z) : res turn :=
  receive_ints v 1 b (λ l b, '(_, _, d) ← et_wakeup_attachment (v_id v) (arg l 0); answer (v <| v_id := d |>) [] b).
Definition on_wake_all v (b : list Z) : res turn :=
  receive_ints v 1 b (λ l b, '(_, _, d) ← et_wakeup_all (v_id v) (arg l 0); answer (v <| v_id := d |>) [] b).
Definition on_remove v (b : list Z) : res turn :=
  receive_ints v 1 b (λ l b, reply_status v (et_station_remove conductors (v_id v) (arg l 0)) b).
Definition on_setposition v (b : list Z) : res turn :=
  receive_ints v 3 b (λ l b, reply_status v (et_station_setposition (v_id v) (arg l 0) (arg l 1) (arg l 2)) b).
Definition on_getposition v (b : list Z) : res turn :=
  receive_ints v 1 b (λ l b, reply_values v (et_station_getposition (v_id v) (arg l 0)) send_place b).
Definition on_isattached v (b : list Z) : res turn :=
  receive_ints v 2 b (λ l b, reply_status v (et_station_isattached (v_id v) (arg l 0) (arg l 1)) b).
Definition on_setselectwords v (b : list Z) : res turn :=
  receive_ints v 7 b (λ l b, reply_status v (et_station_setselectwords (v_id v) (arg l 0) (s32 <$> tail l)) b).
Definition on_getselectwords v (b : list Z) : res turn :=
  receive_ints v 1 b (λ l b, reply_values v (et_station_getselectwords (v_id v) (arg l 0) true) send_words b).

(** Commands below ET_NET_STAT_GATTS. *)
Definition serve_control v (command : Z) (b : list Z) : res turn :=
  if command =? ET_NET_ALIVE then on_alive v b else
  if command =? ET_NET_WAIT then on_wait v b else
  if (command =? ET_NET_CLOSE) || (command =? ET_NET_FCLOSE) then on_close v b else
  if command =? ET_NET_WAKE_ATT then on_wake_att v b else
  if command =? ET_NET_WAKE_ALL then on_wake_all v b else
  if command =? ET_NET_STAT_ATT then serve_attach v b else
  if command =? ET_NET_STAT_DET then serve_detach v b else
  if command =? ET_NET_STAT_CRAT then serve_create v b else
  if command =? ET_NET_STAT_RM then on_remove v b else
  if command =? ET_NET_STAT_SPOS then on_setposition v b else
  if command =? ET_NET_STAT_GPOS then on_getposition v b else
  if command =? ET_NET_STAT_ISAT then on_isattached v b else
  if command =? ET_NET_STAT_EX then serve_exists v b else
  if command =? ET_NET_STAT_SSW then on_setselectwords v b else
  if command =? ET_NET_STAT_GSW then on_getselectwords v b else
  if (command =? ET_NET_STAT_LIB) || (command =? ET_NET_STAT_FUNC) || (command =? ET_NET_STAT_CLASS)
  then serve_name v command b
  else elsewhere command v b.

(** The functions that get a number of a station. *)
Definition station_getter (command : Z) : option (et_id → Z → bool → res (Z * option Z * et_id)) :=
  if command =? ET_NET_STAT_GATTS then Some et_station_getattachments else
  if command =? ET_NET_STAT_STATUS then Some et_station_getstatus else
  if command =? ET_NET_STAT_INCNT then Some et_station_getinputcount else
  if command =? ET_NET_STAT_OUTCNT then Some et_station_getoutputcount else
  if command =? ET_NET_STAT_GBLOCK then Some et_station_getblock else
  if command =? ET_NET_STAT_GUSER then Some et_station_getuser else
  if command =? ET_NET_STAT_GRESTORE then Some et_station_getrestore else
  if command =? ET_NET_STAT_GPRE then Some et_station_getprescale else
  if command =? ET_NET_STAT_GCUE then Some et_station_getcue else
  if command =? ET_NET_STAT_GSELECT then Some et_station_getselect else None.
(** Those that set one. *)
Definition station_setter (command : Z) : option (et_id → Z → Z → res (Z * option unit * et_id)) :=
  if command =? ET_NET_STAT_SBLOCK then Some et_station_setblock else
  if command =? ET_NET_STAT_SUSER then Some et_station_setuser else
  if command =? ET_NET_STAT_SRESTORE then Some et_station_setrestore else
  if command =? ET_NET_STAT_SPRE then Some et_station_setprescale else
  if command =? ET_NET_STAT_SCUE then Some et_station_setcue else None.
Definition attachment_getter (command : Z) : option (et_id → Z → bool → res (Z * option Z * et_id)) :=
  if command =? ET_NET_ATT_PUT then Some et_attach_geteventsput else
  if command =? ET_NET_ATT_GET then Some et_attach_geteventsget else
  if command =? ET_NET_ATT_DUMP then Some et_attach_geteventsdump else
  if command =? ET_NET_ATT_MAKE then Some et_attach_geteventsmake else None.
Definition system_getter v (command : Z) : option (Z * option Z) :=
  if command =? ET_NET_SYS_TMP then Some (et_system_gettemps (v_id v) true true) else
  if command =? ET_NET_SYS_TMPMAX then Some (et_system_gettempsmax (v_id v) true true) else
  if command =? ET_NET_SYS_STAT then Some (et_system_getstations (v_id v) true true) else
  if command =? ET_NET_SYS_STATMAX then Some (et_system_getstationsmax (v_id v) true true) else
  if command =? ET_NET_SYS_PROC then Some (et_system_getprocs (v_info v) true true) else
  if command =? ET_NET_SYS_PROCMAX then Some (et_system_getprocsmax (v_info v) true true) else
  if command =? ET_NET_SYS_ATT then Some (et_system_getattachments (v_id v) true true) else
  if command =? ET_NET_SYS_ATTMAX then Some (et_system_getattsmax (v_id v) true true) else
  if command =? ET_NET_SYS_HBEAT then Some (et_system_getheartbeat (v_info v) true true) else
  if command =? ET_NET_SYS_PID then Some (et_system_getpid (v_info v) true true) else
  if command =? ET_NET_SYS_GRP then Some (ET_OK, Some (y_groupCount (d_sys (v_id v)))) else None.

(** The whole histogram behind its status. *)
Definition serve_histogram v (b : list Z) : res turn :=
  let '(err, hist) := et_data_gethistogram (v_id v) true (y_nevents (d_sys (v_id v)) + 1) in
  answer v (ints (err :: (if negb (err =? ET_OK) then [] else default [] hist))) b.

(** One command. *)
Definition et_command v (b : list Z) : res turn :=
  receive_ints v 1 b (λ l b,
    let command := arg l 0 in
    if command <? ET_NET_STAT_GATTS then serve_control v command b else
    if command <? ET_NET_STAT_SBLOCK then
      receive_ints v 1 b (λ l b,
        match station_getter command with
        | Some get => reply_values v (get (v_id v) (arg l 0) true) send_int b
        | None => at_end v b
        end) else
    if command <? ET_NET_ATT_PUT then
      receive_ints v 2 b (λ l b,
        match station_setter command with
        | Some set => reply_status v (set (v_id v) (arg l 0) (arg l 1)) b
        | None => at_end v b
        end) else
    if command <? ET_NET_SYS_TMP then
      receive_ints v 1 b (λ l b,
        match attachment_getter command with
        | Some get => reply_values v (get (v_id v) (arg l 0) true) send_count b
        | None => at_end v b
        end) else
    if command <=? ET_NET_SYS_GRP then
      match system_getter v command with
      | Some (err, val) => answer v (ints (err :: send_int val)) b
      | None => at_end v b
      end else
    if command <=? ET_NET_SYS_GRPS then
      if command =? ET_NET_SYS_HIST then serve_histogram v b else elsewhere command v b
    else at_end v b).

(** Commands until there are no more; [fuel] is the number of bytes. *)
Fixpoint et_command_loop v (b out : list Z) (fuel : nat) : res (list Z * server * bool) :=
  match b with
  | [] => Ret (out, v, true)
  | _ =>
      match fuel with
      | O => NoFuel
      | Datatypes.S fuel =>
          t ← et_command v b;
          if t_on t then et_command_loop (t_server t) (t_rest t) (out ++ t_out t) fuel
          else Ret (out ++ t_out t, t_server t, false)
      end
  end.
End Server.
