(* ===== verification/EtEventServer.v ===== *)
(** * The server: commands about events (et-16.1/src/libsrc/et_server.c, lines 1302-2167)

    The thread makes the calls for events of the remote process, sends it the events it gets,
    and stores the events it sends back.  Waiting for events is divided into short waits, so
    that the thread notices when the process is gone or is to be woken up. *)

From S2P Require Import Prelude Words EtTypes EtLists EtConductor EtAccess EtWaiting EtDetached EtStations EtEventCalls.
From S2P Require Import EtNet EtSettings EtEventNet EtServer.

(** A call that waits for events: mode, time, what happens while it waits, and naps. *)
Definition waiting_call : Type :=
  et_id → Z → option (Z * Z) → script → list others → res (Z * option (list nat) * et_id).

Section Events.
  (** What the operating system answers; the bytes in a buffer that was made for an event. *)
  Context (os : answers) (memory : nat → Z → list Z).
  (** The other commands: those of local processes that cannot share mutexes, and those that
      send all data of the system or end it. *)
  Context (elsewhere : Z → server → list Z → res turn).
  Implicit Types v : server.

(** ** Waiting *)

(** One call; when it waits nothing is left of what was to happen, nobody wakes it. *)
Definition call_once v (call : waiting_call) (mode : Z) (deltatime : option (Z * Z))
  : res (Z * option (list nat) * bool * server) :=
  let '(w, ws) := match v_waits v with [] => (mkMeanwhile [] [] id false, []) | w :: ws => (w, ws) end in
  '(err, pe, d) ← call (v_id v) mode deltatime (w_script w) (w_naps w);
  Ret (err, pe, w_hangs_up w, v <| v_id := d |> <| v_waits := ws |> <| v_buffers ::= w_write w |>).

Definition change_attachment v (att : Z) (f : et_attach → et_attach) : res server :=
  y ← set_attachment (d_sys (v_id v)) att f; Ret (v <| v_id := set_sys (v_id v) y |>).

Definition awake (a : et_attach) : et_attach := a <| at_sleep := ET_ATT_NOSLEEP |> <| at_quit := ET_ATT_CONTINUE |>.

(** Whether the attachment is to be woken up before it waits. *)
Definition told_to_quit v (att : Z) : res (option server) :=
  a ← attachment (d_sys (v_id v)) att;
  if at_quit a =? ET_ATT_QUIT then v ← change_attachment v att awake; Ret (Some v) else Ret None.

(** Waits of 3 seconds; the result is [None] when the process hung up. *)
Fixpoint sleep_loop v (att : Z) (call : waiting_call) (fuel : nat) : res (option (Z * option (list nat)) * server) :=
  match fuel with
  | O => NoFuel
  | S fuel =>
      q ← told_to_quit v att;
      match q with
      | Some v => Ret (Some (ET_ERROR_WAKEUP, None), v)
      | None =>
          '(err, pe, hung_up, v) ← call_once v call ET_TIMED (Some (3, 0));
          if err =? ET_ERROR_TIMEOUT then
            if hung_up : bool then Ret (None, v) else sleep_loop v att call fuel
          else v ← change_attachment v att awake; Ret (Some (err, pe), v)
      end
  end.

(** A call that does not wait, or not for long: before a timed wait the attachment is marked
    as sleeping, and perhaps woken up. *)
Definition wait_once v (att wait sec nsec : Z) (call : waiting_call) : res (Z * option (list nat) * server) :=
  if wait =? ET_TIMED then
    v ← change_attachment v att (λ a, a <| at_sleep := ET_ATT_SLEEP |>);
    q ← told_to_quit v att;
    match q with
    | Some v => Ret (ET_ERROR_WAKEUP, None, v)
    | None => '(err, pe, _, v) ← call_once v call wait (Some (sec, nsec)); Ret (err, pe, v)
    end
  else '(err, pe, _, v) ← call_once v call wait None; Ret (err, pe, v).

(** The fuel is enough: with nothing left to happen a call does not time out. *)
Definition wait_for_events v (att wait sec nsec : Z) (call : waiting_call) : res (option (Z * option (list nat)) * server) :=
  if wait =? ET_SLEEP then
    v ← change_attachment v att (λ a, a <| at_sleep := ET_ATT_SLEEP |>);
    sleep_loop v att call (S (length (v_waits v)))
  else '(err, pe, v) ← wait_once v att wait sec nsec call; Ret (Some (err, pe), v).

(** The answer to the call, when the process is still there. *)
Definition serve_waiting v (att wait sec nsec : Z) (call : waiting_call)
    (reply : server → Z → option (list nat) → res (list Z * server)) (b : list Z) : res turn :=
  '(r, v) ← wait_for_events v att wait sec nsec call;
  match r with
  | None => at_end v b
  | Some (err, pe) => '(out, v) ← reply v err pe; answer v out b
  end.

(** ** Sending events *)

Definition events_of_system v : evs := y_events (d_sys (v_id v)).

(** How events are to be modified is kept in them. *)
Definition keep_modify v (pe : list nat) (modify : Z) : res server :=
  y ← each_event (d_sys (v_id v)) pe (λ e, e <| e_modify := modify |>); Ret (v <| v_id := set_sys (v_id v) y |>).

(** The header and the data of an event. *)
Definition send_event v (x : nat) : res (list Z) :=
  e ← ev (events_of_system v) (Some x);
  b ← of_option (v_buffers v !! x);
  if Z.of_nat (length (b_data b)) <? e_length e then Undef else
  Ret (server_header e x (b_byteorder b) ++ take (Z.to_nat (e_length e)) (b_data b)).

Fixpoint send_events v (pe : list nat) : res (list Z) :=
  match pe with
  | [] => Ret []
  | x :: pe => l ← send_event v x; r ← send_events v pe; Ret (l ++ r)
  end.

(** More than a process of 32 bits can take. *)
Fixpoint lengths_too_big (m : evs) (pe : list nat) (lengthSum : Z) : res bool :=
  match pe with
  | [] => Ret false
  | x :: pe =>
      e ← ev m (Some x);
      let lengthSum := u64 (lengthSum + e_length e) in
      if too_long <? lengthSum then Ret true else lengths_too_big m pe lengthSum
  end.
Definition too_big v (pe : list nat) : res bool :=
  if v_bit64 v then Ret false else lengths_too_big (events_of_system v) pe 0.

Definition modify_part (modify : Z) : Z := Z.land modify (Z.lor ET_MODIFY ET_MODIFY_HEADER).
Definition dumps (modify : Z) : bool := negb (Z.land modify ET_DUMP =? 0).

(** An event, or several, put or dumped for the process; the status is not looked at. *)
Definition give_back_one v (att : Z) (dump : bool) (x : nat) : res server :=
  '(_, _, d) ← (if dump then et_event_dump os (v_id v) att (Some x) else et_event_put os (v_id v) att (Some x));
  Ret (v <| v_id := d |>).
Definition give_back v (att : Z) (dump : bool) (pe : list nat) : res server :=
  '(_, _, d) ← (if dump then et_events_dump os (v_id v) att true pe else et_events_put os (v_id v) att true pe);
  Ret (v <| v_id := d |>).

(** Lines 1391-1456: an event is sent and, when it will not be modified, given back. *)
Definition reply_event_get (att modify : Z) v (err : Z) (pe : option (list nat)) : res (list Z * server) :=
  if err <? ET_OK then Ret (ints [err], v) else
  x ← of_option (pe ≫= head);
  big ← too_big v [x];
  if big : bool then v ← give_back_one v att (dumps modify) x; Ret (ints [ET_ERROR_TOOBIG], v) else
  v ← keep_modify v [x] (modify_part modify);
  data ← send_event v x;
  v ← (if modify_part modify =? 0 then give_back_one v att (dumps modify) x else Ret v);
  Ret (ints [err] ++ data, v).

(** Lines 1302-1457 *)
Definition serve_event_get v (b : list Z) : res turn :=
  receive_ints v 5 b (λ l b,
    serve_waiting v (arg l 0) (arg l 1) (nth 3 l 0) (nth 4 l 0)
      (λ d mode dt ws _, et_event_get os d (arg l 0) true mode dt ws) (reply_event_get (arg l 0) (arg l 2)) b).

(** Lines 1550-1640 *)
Definition reply_events_get (att modify : Z) v (err : Z) (pe : option (list nat)) : res (list Z * server) :=
  if negb (err =? ET_OK) then Ret (ints [err], v) else
  let pe := default [] pe in
  big ← too_big v pe;
  if big : bool then v ← give_back v att (dumps modify) pe; Ret (ints [ET_ERROR_TOOBIG], v) else
  v ← keep_modify v pe (modify_part modify);
  data ← send_events v pe;
  v ← (if modify_part modify =? 0 then give_back v att (dumps modify) pe else Ret v);
  let size := Z.of_nat (length data) in
  Ret (ints [Z.of_nat (length pe); ET_HIGHINT size; ET_LOWINT size] ++ data, v).

(** Lines 1459-1641 *)
Definition serve_events_get v (b : list Z) : res turn :=
  receive_ints v 6 b (λ l b,
    serve_waiting v (arg l 0) (arg l 1) (nth 4 l 0) (nth 5 l 0)
      (λ d mode dt ws _, et_events_get os d (arg l 0) true mode dt (arg l 3) ws) (reply_events_get (arg l 0) (arg l 2)) b).

(** ** Events that come back *)

(** [len] bytes for the data of an event, whose length is turned into an [int]; when the
    connection ends before, what came is stored. *)
Definition receive_data v (x : nat) (len : Z) (b : list Z) (k : server → list Z → res turn) : res turn :=
  let n := Z.to_nat (s32 len) in
  let got := take n b in
  o ← of_option (v_buffers v !! x);
  if (length (b_data o) <? length got)%nat then Undef else
  let v := v <| v_buffers ::= <[x := o <| b_data := got ++ drop (length got) (b_data o) |>]> |> in
  if Z.of_nat (length got) =? len then k v (drop n b) else at_end v [].

(** The header was read; the data follows when the event is to be modified as a whole. *)
Definition receive_event v (h b : list Z) (k : nat → server → list Z → res turn) : res turn :=
  let x := Z.to_nat (header_place h) in
  m ← ev_set (events_of_system v) (Some x) (header_fields h);
  o ← of_option (v_buffers v !! x);
  let v := v <| v_id := set_sys (v_id v) (d_sys (v_id v) <| y_events := m |>) |>
             <| v_buffers ::= <[x := o <| b_byteorder := header_order h |>]> |> in
  e ← ev m (Some x);
  if e_modify e =? ET_MODIFY then receive_data v x (e_length e) b (k x) else k x v b.

(** Lines 1643-1685 *)
Definition serve_event_put v (b : list Z) : res turn :=
  receive v 56 b (λ h b,
    let att := s32 (word h 0) in
    receive_event v (drop 4 h) b (λ x v b, reply_status v (et_event_put os (v_id v) att (Some x)) b)).

(** The loop of lines 1703-1736; the array has a place for each event of the system. *)
Fixpoint receive_events v (n : nat) (pe : list nat) (b : list Z) (k : list nat → server → list Z → res turn) : res turn :=
  match n with
  | O => k pe v b
  | S n =>
      receive v 52 b (λ h b,
        if y_nevents (d_sys (v_id v)) <=? Z.of_nat (length pe) then Undef else
        receive_event v h b (λ x v b, receive_events v n (pe ++ [x]) b k))
  end.

(** Lines 1687-1745 *)
Definition serve_events_put v (b : list Z) : res turn :=
  receive_ints v 4 b (λ l b,
    receive_events v (Z.to_nat (arg l 1)) [] b (λ pe v b, reply_status v (et_events_put os (v_id v) (arg l 0) true pe) b)).

(** Lines 2119-2138 *)
Definition serve_event_dump v (b : list Z) : res turn :=
  receive_ints v 2 b (λ l b, reply_status v (et_event_dump os (v_id v) (arg l 0) (Some (Z.to_nat (nth 1 l 0)))) b).

(** Lines 2140-2167 *)
Definition serve_events_dump v (b : list Z) : res turn :=
  receive_ints v 2 b (λ l b,
    let nevents := nth 1 l 0 in
    if y_nevents (d_sys (v_id v)) <? nevents then Undef else
    receive_ints v (Z.to_nat nevents) b (λ places b,
      reply_status v (et_events_dump os (v_id v) (arg l 0) true (Z.to_nat <$> places)) b)).

(** ** New events *)

(** The buffers of new events: what et_event_new does to the data. *)
Definition new_buffers v (pe : list nat) : server :=
  v <| v_buffers ::= λ m, foldr (λ x m, <[x := mkBuffer local_order (memory x (from_option e_memsize 0 (events_of_system v !! x)))]> m) m pe |>.

(** Lines 1845-1860 *)
Definition reply_event_new v (err : Z) (pe : option (list nat)) : res (list Z * server) :=
  if negb (err =? ET_OK) then Ret (ints [err; 0; 0], v) else
  x ← of_option (pe ≫= head);
  v ← keep_modify (new_buffers v [x]) [x] ET_MODIFY;
  Ret (ints [err; Z.of_nat x; 0], v).

(** Lines 1747-1863 *)
Definition serve_event_new v (b : list Z) : res turn :=
  receive_ints v 6 b (λ l b,
    serve_waiting v (arg l 0) (arg l 1) (nth 4 l 0) (nth 5 l 0)
      (λ d mode dt ws naps, et_event_new os d (arg l 0) true mode dt (ET_64BIT_UINT (nth 2 l 0) (nth 3 l 0)) ws naps)
      reply_event_new b).

(** Lines 1962-1985 and 2089-2116: the number of events and their places. *)
Definition reply_events_new v (err : Z) (pe : option (list nat)) : res (list Z * server) :=
  if err <? 0 then Ret (ints [err], v) else
  let pe := default [] pe in
  v ← keep_modify (new_buffers v pe) pe ET_MODIFY;
  Ret (ints (Z.of_nat (length pe) :: (Z.of_nat <$> pe)), v).

(** Lines 1865-1986 *)
Definition serve_events_new v (b : list Z) : res turn :=
  receive_ints v 7 b (λ l b,
    serve_waiting v (arg l 0) (arg l 1) (nth 5 l 0) (nth 6 l 0)
      (λ d mode dt ws naps, et_events_new os d (arg l 0) true mode dt (ET_64BIT_UINT (nth 2 l 0) (nth 3 l 0)) (arg l 4) ws naps)
      reply_events_new b).

(** Lines 1988-2117 *)
Definition serve_events_new_group v (b : list Z) : res turn :=
  receive_ints v 8 b (λ l b,
    serve_waiting v (arg l 0) (arg l 1) (nth 6 l 0) (nth 7 l 0)
      (λ d mode dt ws naps, et_events_new_group os d (arg l 0) true mode dt (ET_64BIT_UINT (nth 2 l 0) (nth 3 l 0))
                              (arg l 4) (arg l 5) ws naps)
      reply_events_new b).

(** The commands about events. *)
Definition serve_events (command : Z) v (b : list Z) : res turn :=
  if command =? ET_NET_EV_GET then serve_event_get v b else
  if command =? ET_NET_EVS_GET then serve_events_get v b else
  if command =? ET_NET_EV_PUT then serve_event_put v b else
  if command =? ET_NET_EVS_PUT then serve_events_put v b else
  if command =? ET_NET_EV_NEW then serve_event_new v b else
  if command =? ET_NET_EVS_NEW then serve_events_new v b else
  if command =? ET_NET_EVS_NEW_GRP then serve_events_new_group v b else
  if command =? ET_NET_EV_DUMP then serve_event_dump v b else
  if command =? ET_NET_EVS_DUMP then serve_events_dump v b else elsewhere command v b.
End Events.
