(* ===== verification/EtEventRemote.v ===== *)
(** * Events of remote processes (et-16.1/src/libsrc/et_remote.c, lines 1683-3219)

    A remote process has copies of events in its own memory.  It asks the server for events
    with short waits, again and again, so that other calls get the connection in between,
    and sends events back when it said that it would modify them. *)

From S2P Require Import Prelude Words EtTypes EtLists EtConductor EtWaiting EtEventCalls EtNet EtRemote EtEventNet.

(** What [malloc] gives the process: memory for the arrays of a call, for the i-th event and
    for its data; the bytes that are in new memory. *)
Record mallocs := mkMallocs {
  array_fits : bool; places_fit : bool; event_fits : nat → bool; data_fits : nat → bool; unset : Z → list Z
}.

(** A user's buffer for the data of an event. *)
Definition et_event_setdatabuffer (remote : bool) (e : revent) (data : option (list Z)) : Z * revent :=
  if negb remote then (ET_ERROR, e) else
  match data with None => (ET_ERROR, e) | Some _ => (ET_OK, e <| re_data := data |>) end.

Section Client.
  Context {S : Type} `{Conn S}.
  (** The memory, and the size of the events of the system. *)
  Context (ms : mallocs) (esize : Z).
  Implicit Types c : remote_id S.

(** ** Waiting *)

(** The mode that the server is asked for, the time, and how often to ask; the time is in
    microseconds, a [long] that is cut to an [int]. *)
Definition net_wait (mode : Z) (deltatime : option (Z * Z)) : res (Z * option (Z * Z) * Z) :=
  let wait := wait_of mode in
  if wait =? ET_TIMED then
    '(sec, nsec) ← of_option deltatime;
    let microSec := sec * 1000000 + Z.quot nsec 1000 in
    if (microSec <? -9223372036854775808) || (9223372036854775807 <? microSec) then Undef else
    if 1000000 <? microSec then
      Ret (ET_TIMED, Some (0, 200000000),
           Z.quot (s32 microSec) 200000 + (if 0 <? Z.rem microSec 200000 then 1 else 0))
    else Ret (ET_TIMED, deltatime, 1)
  else if wait =? ET_SLEEP then Ret (ET_TIMED, Some (0, 200000000), 1)
  else Ret (wait, deltatime, 1).

Definition time_words (deltatime : option (Z * Z)) : list Z :=
  match deltatime with Some (sec, nsec) => [sec; nsec] | None => [0; 0] end.

(** The loop: the first [n] bytes of the answer that is not a timeout, the mutex being still
    held; or the status with which it ended.  [fuel] bounds the number of times. *)
Fixpoint ask_rounds c (request : list Z) (n wait iterations : Z) (fuel : nat) : res ((Z + list Z) * remote_id S) :=
  match fuel with
  | O => NoFuel
  | Datatypes.S fuel =>
      '(r, c) ← ask c request n;
      match r with
      | inl err => Ret (inl err, c)
      | inr b =>
          if s32 (word b 0) =? ET_ERROR_TIMEOUT then
            let c := et_tcp_unlock c in
            if wait =? ET_SLEEP then ask_rounds c request n wait iterations fuel
            else if 0 <? iterations then ask_rounds c request n wait (iterations - 1) fuel
            else Ret (inl ET_ERROR_TIMEOUT, c)
          else Ret (inr b, c)
      end
  end.

(** The rest of an answer, with the mutex held; it is given back when the connection ends. *)
Definition read_more c (n : Z) : res (option (list Z) * remote_id S) :=
  '(b, s) ← etNetTcpRead (r_sock c) n;
  let c := mkRemote (r_mutex c) s in
  Ret (b, match b with None => et_tcp_unlock c | Some _ => c end).

(** ** New events *)

Definition new_size (size : Z) : Z := if esize <? size then size else esize.

(** An event in the memory of the process, with the buffer for its data when the user does
    not supply one. *)
Definition new_event (i : nat) (mode size place : Z) : option revent :=
  let noalloc := negb (Z.land mode ET_NOALLOC =? 0) in
  if negb (event_fits ms i) then None else
  if negb noalloc && negb (data_fits ms i) then None else
  Some (mkRevent
    (et_init_event <| e_temp := if esize <? size then ET_EVENT_TEMP else ET_EVENT_NORMAL |>
       <| e_owner := if noalloc then ET_NOALLOC else ET_SYS |>
       <| e_length := size |> <| e_memsize := new_size size |> <| e_modify := ET_MODIFY |>)
    place local_order (if noalloc then None else Some (unset ms (new_size size)))).

Definition etr_event_new c (att mode : Z) (deltatime : option (Z * Z)) (size : Z) (fuel : nat)
  : res (Z * option revent * remote_id S) :=
  '(netWait, dt, iterations) ← net_wait mode deltatime;
  '(r, c) ← ask_rounds c (ints ([ET_NET_EV_NEW; att; netWait; ET_HIGHINT size; ET_LOWINT size] ++ time_words dt))
              12 (wait_of mode) iterations fuel;
  match r with
  | inl err => Ret (err, None, c)
  | inr b =>
      let c := et_tcp_unlock c in
      let err := s32 (word b 0) in
      if negb (err =? ET_OK) then Ret (err, None, c) else
      match new_event 0 mode size (s32 (word b 1)) with
      | None => Ret (ET_ERROR_REMOTE, None, c)
      | Some e => Ret (ET_OK, Some e, c)
      end
  end.

(** Events for all the places, or none. *)
Fixpoint new_events (i : nat) (mode size : Z) (places : list Z) : option (list revent) :=
  match places with
  | [] => Some []
  | p :: places =>
      match new_event i mode size p with
      | None => None
      | Some e => l ← new_events (Datatypes.S i) mode size places; Some (e :: l)
      end
  end.

(** The answer of the server is the number of events and their places, for which there are
    [num] elements in the array of the caller. *)
Definition receive_new c (request : list Z) (mode iterations size num : Z) (fuel : nat)
  : res (Z * option (list revent) * remote_id S) :=
  '(r, c) ← ask_rounds c request 4 (wait_of mode) iterations fuel;
  match r with
  | inl err => Ret (err, None, c)
  | inr b =>
      let nevents := s32 (word b 0) in
      if nevents <? 0 then Ret (nevents, None, et_tcp_unlock c) else
      if negb (places_fit ms) then Ret (ET_ERROR_REMOTE, None, et_tcp_unlock c) else
      '(b, c) ← read_more c (4 * nevents);
      match b with
      | None => Ret (ET_ERROR_READ, None, c)
      | Some b =>
          let c := et_tcp_unlock c in
          if Z.max num 0 <? nevents then Undef else
          match new_events 0 mode size (s32 <$> words (Z.to_nat nevents) b) with
          | None => Ret (ET_ERROR_REMOTE, None, c)
          | Some l => Ret (ET_OK, Some l, c)
          end
      end
  end.

Definition etr_events_new c (att mode : Z) (deltatime : option (Z * Z)) (size num : Z) (fuel : nat)
  : res (Z * option (list revent) * remote_id S) :=
  if negb (array_fits ms) then Ret (ET_ERROR_REMOTE, None, c) else
  '(netWait, dt, iterations) ← net_wait mode deltatime;
  receive_new c (ints ([ET_NET_EVS_NEW; att; netWait; ET_HIGHINT size; ET_LOWINT size; num] ++ time_words dt))
    mode iterations size num fuel.

Definition etr_events_new_group c (att mode : Z) (deltatime : option (Z * Z)) (size num group : Z) (fuel : nat)
  : res (Z * option (list revent) * remote_id S) :=
  if negb (array_fits ms) then Ret (ET_ERROR_REMOTE, None, c) else
  '(netWait, dt, iterations) ← net_wait mode deltatime;
  receive_new c (ints ([ET_NET_EVS_NEW_GRP; att; netWait; ET_HIGHINT size; ET_LOWINT size; num; group] ++ time_words dt))
    mode iterations size num fuel.

(** ** Getting events *)

(** Modifying the whole event has precedence. *)
Definition modify_of (mode : Z) : Z :=
  if Z.land mode ET_MODIFY =? 0 then Z.land mode ET_MODIFY_HEADER else Z.land mode ET_MODIFY.
Definition get_part (mode : Z) : Z := Z.lor (modify_of mode) (Z.land mode ET_DUMP).

(** The data are read into memory of the size of the event's. *)
Definition read_data c (i : nat) (e : revent) : res (Z * option revent * remote_id S) :=
  let len := e_length (re_event e) in
  let size := e_memsize (re_event e) in
  if negb (data_fits ms i) then Ret (ET_ERROR_REMOTE, None, c) else
  if 0 <? len then
    if size <? len then Undef else
    '(b, s) ← etNetTcpRead (r_sock c) (s32 len);
    let c := mkRemote (r_mutex c) s in
    match b with
    | None => Ret (ET_ERROR_READ, None, c)
    | Some b =>
        if negb (Z.of_nat (length b) =? len) then Ret (ET_ERROR_READ, None, c) else
        Ret (ET_OK, Some (e <| re_data := Some (b ++ drop (length b) (unset ms size)) |>), c)
    end
  else Ret (ET_OK, Some (e <| re_data := Some (unset ms size) |>), c).

Definition etr_event_get c (att mode : Z) (deltatime : option (Z * Z)) (fuel : nat)
  : res (Z * option revent * remote_id S) :=
  '(netWait, dt, iterations) ← net_wait mode deltatime;
  '(r, c) ← ask_rounds c (ints ([ET_NET_EV_GET; att; netWait; get_part mode] ++ time_words dt)) 4 (wait_of mode) iterations fuel;
  match r with
  | inl err => Ret (err, None, c)
  | inr b =>
      let err := s32 (word b 0) in
      if negb (err =? ET_OK) then Ret (err, None, et_tcp_unlock c) else
      '(h, c) ← read_more c 60;
      match h with
      | None => Ret (ET_ERROR_READ, None, c)
      | Some h =>
          if negb (event_fits ms 0) then Ret (ET_ERROR_REMOTE, None, et_tcp_unlock c) else
          '(err, e, c) ← read_data c 0 (client_event h (modify_of mode));
          Ret (err, e, et_tcp_unlock c)
      end
  end.

(** The events that were read, and the rest of the array: when there is no memory for an
    event the loop ends, with a status that nobody looks at. *)
Fixpoint read_events c (i n : nat) (modify : Z) : res (Z * list (option revent) * remote_id S) :=
  match n with
  | O => Ret (ET_OK, [], c)
  | Datatypes.S n' =>
      '(h, s) ← etNetTcpRead (r_sock c) 60;
      let c := mkRemote (r_mutex c) s in
      match h with
      | None => Ret (ET_ERROR_READ, [], c)
      | Some h =>
          if negb (event_fits ms i) then Ret (ET_OK, replicate n None, c) else
          '(err, e, c) ← read_data c i (client_event h modify);
          match e with
          | None => Ret (err, [], c)
          | Some e => '(err, l, c) ← read_events c (Datatypes.S i) n' modify; Ret (err, Some e :: l, c)
          end
      end
  end.

(** A pointer of the result may be [None], NULL. *)
Definition etr_events_get c (att mode : Z) (deltatime : option (Z * Z)) (num : Z) (fuel : nat)
  : res (Z * option (list (option revent)) * remote_id S) :=
  if negb (array_fits ms) then Ret (ET_ERROR_REMOTE, None, c) else
  '(netWait, dt, iterations) ← net_wait mode deltatime;
  '(r, c) ← ask_rounds c (ints ([ET_NET_EVS_GET; att; netWait; get_part mode; num] ++ time_words dt)) 4 (wait_of mode) iterations fuel;
  match r with
  | inl err => Ret (err, None, c)
  | inr b =>
      let nevents := s32 (word b 0) in
      if nevents <? 0 then Ret (nevents, None, et_tcp_unlock c) else
      '(size, c) ← read_more c 8;
      match size with
      | None => Ret (ET_ERROR_READ, None, c)
      | Some _ =>
          if Z.max num 0 <? nevents then Undef else
          '(error, l, c) ← read_events c 0 (Z.to_nat nevents) (modify_of mode);
          let c := et_tcp_unlock c in
          if negb (error =? ET_OK) then Ret (error, None, c) else Ret (ET_OK, Some l, c)
      end
  end.

(** ** Sending events back *)

(** Whether the user supplied the buffer, which is not freed then. *)
Definition users_buffer (e : revent) : bool := e_owner (re_event e) =? ET_NOALLOC.

(** What is sent of an event: its header, and its data when all of it may be modified. *)
Definition sent_event (e : revent) : res (option (list Z)) :=
  if e_modify (re_event e) =? ET_MODIFY then
    match re_data e with
    | None => Ret None
    | Some data =>
        if Z.of_nat (length data) <? e_length (re_event e) then Undef else
        Ret (Some (client_header e ++ take (Z.to_nat (e_length (re_event e))) data))
    end
  else Ret (Some (client_header e)).

Definition too_long_to_put (e : revent) : bool := e_memsize (re_event e) <? e_length (re_event e).
Definition modified (e : revent) : bool := 0 <? e_modify (re_event e).

(** The status, and of each event that was freed whether its data were too. *)
Definition etr_event_put c (att : Z) (e : revent) : res (Z * option bool * remote_id S) :=
  if too_long_to_put e then Ret (ET_ERROR, None, c) else
  if modified e then
    body ← sent_event e;
    match body with
    | None => Ret (ET_ERROR_REMOTE, None, c)
    | Some body =>
        '(r, c) ← ask c (ints [ET_NET_EV_PUT; att] ++ body) 4;
        match r with
        | inl err => Ret (err, if err =? ET_ERROR_WRITE then None else Some true, c)
        | inr b => Ret (s32 (word b 0), Some (negb (users_buffer e)), et_tcp_unlock c)
        end
    end
  else Ret (ET_OK, Some (negb (users_buffer e)), c).

Fixpoint sent_events (l : list revent) : res (option (list Z)) :=
  match l with
  | [] => Ret (Some [])
  | e :: l =>
      b ← sent_event e;
      match b with
      | None => Ret None
      | Some b => r ← sent_events l; Ret (option_map (app b) r)
      end
  end.

(** The answer to a message about several events; [freed] is what is freed then. *)
Definition send_several c (request : list Z) (freed : list bool) : res (Z * option (list bool) * remote_id S) :=
  '(r, c) ← ask c request 4;
  match r with
  | inl err => Ret (err, if err =? ET_ERROR_WRITE then None else Some freed, c)
  | inr b => Ret (s32 (word b 0), Some freed, et_tcp_unlock c)
  end.

Definition etr_events_put c (att : Z) (l : list revent) : res (Z * option (list bool) * remote_id S) :=
  if existsb too_long_to_put l then Ret (ET_ERROR, None, c) else
  let freed := (λ e, negb (users_buffer e)) <$> l in
  let to_send := List.filter modified l in
  if bool_decide (to_send = []) then Ret (ET_OK, Some freed, c) else
  if negb (array_fits ms) then Ret (ET_ERROR_REMOTE, None, c) else
  body ← sent_events to_send;
  match body with
  | None => Ret (ET_ERROR_REMOTE, None, c)
  | Some body =>
      let bytes := Z.of_nat (length body) in
      send_several c (ints [ET_NET_EVS_PUT; att; Z.of_nat (length to_send); ET_HIGHINT bytes; ET_LOWINT bytes] ++ body) freed
  end.

(** Only places are sent.  The data are freed whoever supplied the buffer. *)
Definition etr_event_dump c (att : Z) (e : revent) : res (Z * option bool * remote_id S) :=
  if modified e then
    '(r, c) ← ask c (ints [ET_NET_EV_DUMP; att; re_place e]) 4;
    match r with
    | inl err => Ret (err, if err =? ET_ERROR_WRITE then None else Some true, c)
    | inr b => Ret (s32 (word b 0), Some true, et_tcp_unlock c)
    end
  else Ret (ET_OK, Some true, c).

Definition etr_events_dump c (att : Z) (l : list revent) : res (Z * option (list bool) * remote_id S) :=
  let freed := (λ _, true) <$> l in
  let to_send := List.filter modified l in
  if bool_decide (to_send = []) then Ret (ET_OK, Some freed, c) else
  if negb (array_fits ms) then Ret (ET_ERROR_REMOTE, None, c) else
  send_several c (ints ([ET_NET_EVS_DUMP; att; Z.of_nat (length to_send)] ++ (re_place <$> to_send))) freed.
End Client.
