(* ===== verification/EtRemoteSpec.v ===== *)
(** * Remote calls are local calls

    A connection to the server's thread: what is written is served at once, and the answers
    wait to be read.  Through it, each call of a remote process does what the same call
    does in the process of the system, and gives its status and values. *)

From S2P Require Import Prelude Words CString EtTypes EtLists EtConductor EtAccess EtWaiting EtDetached EtStatConfig EtStations EtSettings.
From S2P Require Import EtSettings EtNet EtRemote EtServer EtTyping.

Lemma bind_assoc {A B C} (m : res A) (f : A → res B) (g : B → res C) : ((m ≫= f) ≫= g) = (m ≫= λ x, f x ≫= g).
Proof. by destruct m. Qed.

Lemma bind_ext {A B} (m : res A) (f g : A → res B) : (∀ x, f x = g x) → (m ≫= f) = (m ≫= g).
Proof. intros H. destruct m; cbn; auto. Qed.

(** ** Reading what was sent *)

Lemma receive_ok v l r k : receive v (Z.of_nat (length l)) (l ++ r) k = k l r.
Proof.
  unfold receive. rewrite length_app. replace (_ || _) with false by (symmetry; apply orb_false_iff; split; apply Z.ltb_ge; lia).
  by rewrite Nat2Z.id, take_app_length, drop_app_length.
Qed.

Lemma receive_ints_ok v n l r k : n = length l → receive_ints v n (ints l ++ r) k = k (u32 <$> l) r.
Proof.
  intros ->. unfold receive_ints. replace (4 * Z.of_nat (length l)) with (Z.of_nat (length (ints l))) by (rewrite length_ints; lia).
  rewrite receive_ok. f_equal. rewrite <- (app_nil_r (ints l)). apply words_ints.
Qed.

Lemma receive_ints_all v n l k : n = length l → receive_ints v n (ints l) k = k (u32 <$> l) [].
Proof. intros H. rewrite <- (app_nil_r (ints l)). by apply receive_ints_ok. Qed.

Lemma receive_chars_ok v cap s r k :
  Z.of_nat (length s) ≤ cap - 1 → cap ≤ 256 →
  receive_chars v cap (s32 (u32 (string_length s))) (string_bytes s ++ r) k = k (string_bytes s) r.
Proof.
  intros Hs Hc. unfold receive_chars, string_length. rewrite !s32_u32, s32_int by (split; lia).
  replace (cap <? _) with false by (symmetry; apply Z.ltb_ge; lia).
  replace (Z.of_nat (length s) + 1) with (Z.of_nat (length (string_bytes s))); [apply receive_ok|].
  unfold string_bytes. rewrite length_app. cbn. lia.
Qed.

Lemma arg_ints l i x : l !! i = Some x → int_ok x → arg (u32 <$> l) i = x.
Proof.
  intros Hx Hi. unfold arg. rewrite <- (s32_int x Hi), <- (s32_u32 x). f_equal. apply nth_lookup_Some.
  by rewrite list_lookup_fmap, Hx.
Qed.

Lemma word_ints l i x : l !! i = Some x → word (ints l) i = u32 x.
Proof.
  intros Hx. unfold word. rewrite <- (take_drop (S i) l). pose proof Hx as Hlt%lookup_lt_Some.
  unfold ints. rewrite fmap_app, concat_app. change (words (S i) (ints (take (S i) l) ++ ints (drop (S i) l)) !! i) with
    (words (S i) (ints (take (S i) l) ++ ints (drop (S i) l)) !! i).
  replace (words (S i)) with (words (length (take (S i) l))) by (rewrite length_take_le by lia; done).
  rewrite words_ints, list_lookup_fmap, lookup_take_lt by lia. by rewrite Hx.
Qed.

(** ** The connection *)

(** The thread, whether it runs, and the answers that were not read yet. *)
Record link := mkLink { k_server : server; k_on : bool; k_inbox : list Z }.

Section Link.
  Context (starts : et_station → bool) (allocated : bool) (conductors : nat → et_system → et_system) (junk : Z).
  Context (elsewhere : Z → server → list Z → res turn).

Definition command := et_command starts allocated conductors junk elsewhere.
Definition command_loop := et_command_loop starts allocated conductors junk elsewhere.

#[export] Instance link_conn : Conn link := {
  etNetTcpWrite k b :=
    if negb (k_on k) then Ret (false, k) else
    '(out, v, on) ← command_loop (k_server k) b [] (length b);
    Ret (true, mkLink v on (k_inbox k ++ out));
  etNetTcpRead k n :=
    if n <? 0 then Ret (None, k) else
    if n <=? Z.of_nat (length (k_inbox k)) then
      Ret (Some (take (Z.to_nat n) (k_inbox k)), mkLink (k_server k) (k_on k) (drop (Z.to_nat n) (k_inbox k)))
    else if k_on k then Blocked else Ret (None, k);
  close_socket k :=
    if k_on k then t ← at_end (k_server k) []; Ret (mkLink (t_server t) false (k_inbox k)) else Ret k
}.

(** A process that makes no call now. *)
Definition idle (v : server) : remote_id link := mkRemote false (mkLink v true []).

(** The thread answers a command with a status, values and its new state. *)
Definition served (v : server) (request : list Z) (m : res (Z * list Z * server)) : Prop :=
  command v request = '(err, vals, v') ← m; answer v' (ints (err :: vals)) [].

Lemma command_once v request :
  request ≠ [] → (∀ t, command v request = Ret t → t_on t = true → t_rest t = []) →
  command_loop v request [] (length request) = (t ← command v request; Ret (t_out t, t_server t, t_on t)).
Proof.
  intros Hne Ht. destruct request as [|b request]; [done|]. unfold command_loop. cbn [et_command_loop length].
  change (et_command starts allocated conductors junk elsewhere v (b :: request)) with (command v (b :: request)).
  destruct (command v (b :: request)) as [t| | |]; try done. step. cbn [app].
  destruct (t_on t) eqn:Hon; [|done]. rewrite (Ht t eq_refl Hon). by destruct (length request).
Qed.

Lemma ask_bytes v request n (m : res (list Z * server)) :
  request ≠ [] → command v request = ('(out, v') ← m; answer v' out []) → 0 ≤ n →
  (∀ out v', m = Ret (out, v') → n ≤ Z.of_nat (length out)) →
  ask (idle v) request n = '(out, v') ← m;
    Ret (inr (take (Z.to_nat n) out), mkRemote true (mkLink v' true (drop (Z.to_nat n) out))).
Proof.
  intros Hne Hs Hn Hm. unfold ask, idle, et_tcp_lock. cbn [r_mutex r_sock]. step. unfold etNetTcpWrite, link_conn. cbn [r_mutex r_sock k_on k_server k_inbox negb].
  rewrite command_once; [|done|].
  2: { intros t. rewrite Hs. destruct m as [[out v']| | |]; try done. by intros [= <-]. }
  rewrite Hs. destruct m as [[out v']| | |]; try done. step. unfold answer. step.
  cbn [t_out t_server t_on k_inbox k_on app r_sock r_mutex negb]. step. unfold etNetTcpRead, link_conn. cbn [k_inbox k_on k_server negb r_sock r_mutex].
  specialize (Hm out v' eq_refl). replace (n <? 0) with false by (symmetry; apply Z.ltb_ge; lia).
  replace (n <=? _) with true by (symmetry; apply Z.leb_le; lia). done.
Qed.

Lemma ask_link v request n m :
  request ≠ [] → served v request m → 0 ≤ n →
  (∀ err vals v', m = Ret (err, vals, v') → n ≤ 4 + 4 * Z.of_nat (length vals)) →
  ask (idle v) request n = '(err, vals, v') ← m;
    Ret (inr (take (Z.to_nat n) (ints (err :: vals))), mkRemote true (mkLink v' true (drop (Z.to_nat n) (ints (err :: vals))))).
Proof.
  intros Hne Hs Hn Hm. rewrite (ask_bytes v request n ('(err, vals, v') ← m; Ret (ints (err :: vals), v'))).
  - by destruct m as [[[err vals] v']| | |].
  - done.
  - rewrite Hs. by destruct m as [[[err vals] v']| | |].
  - done.
  - intros out v'. destruct m as [[[err vals] v1]| | |]; try done. intros [= <- <-]. specialize (Hm _ _ _ eq_refl).
    rewrite length_ints. cbn [length]. lia.
Qed.

Lemma ask_status_link v request m :
  request ≠ [] → served v request m → (∀ err vals v', m = Ret (err, vals, v') → vals = []) →
  ask_status (idle v) request = '(err, _, v') ← m; Ret (s32 err, None, idle v').
Proof.
  intros Hne Hs Hm. unfold ask_status. rewrite (ask_link v request 4 m) by (done || lia || (intros; lia)).
  destruct m as [[[err vals] v']| | |]; try done. step. rewrite (Hm err vals v' eq_refl).
  change (Z.to_nat 4) with 4%nat. rewrite take_ge, drop_ge by (by rewrite length_ints).
  by rewrite (word_ints [err] 0 err), s32_u32.
Qed.

Lemma ask_values_link {A} good n (store : list Z → A) v request ptr m :
  request ≠ [] → served v request m → (∀ err vals v', m = Ret (err, vals, v') → length vals = n) →
  ask_values good (Z.of_nat n) store (idle v) request ptr =
    '(err, vals, v') ← m;
    Ret (s32 err, if good (s32 err) && ptr then Some (store (ints (err :: vals))) else None, idle v').
Proof.
  intros Hne Hs Hm. unfold ask_values. rewrite (ask_link v request _ m); [|done|done|lia|].
  2: { intros err vals v' E. rewrite (Hm _ _ _ E). lia. }
  destruct m as [[[err vals] v']| | |]; try done. step. specialize (Hm err vals v' eq_refl).
  rewrite take_ge, drop_ge by (rewrite length_ints; cbn [length]; lia).
  by rewrite (word_ints (err :: vals) 0 err), s32_u32.
Qed.

Lemma tell_link v request (m : res server) :
  request ≠ [] → command v request = (v' ← m; answer v' [] []) →
  tell (idle v) request = (v' ← m; Ret (ET_OK, None, idle v')).
Proof.
  intros Hne Hs. unfold tell, idle, et_tcp_lock. cbn [r_mutex r_sock]. step. unfold etNetTcpWrite, link_conn. cbn [r_mutex r_sock k_on k_server k_inbox negb].
  rewrite command_once; [|done|].
  2: { intros t. rewrite Hs. destruct m as [v'| | |]; try done. by intros [= <-]. }
  rewrite Hs. by destruct m.
Qed.

(** ** What each command does *)

Lemma read_first v cmd args r k : receive_ints v 1 (ints (cmd :: args) ++ r) k = k [u32 cmd] (ints args ++ r).
Proof.
  change (ints (cmd :: args)) with (be32 cmd ++ ints args). rewrite <- app_assoc.
  rewrite <- (app_nil_r (be32 cmd)). change (be32 cmd ++ []) with (ints [cmd]). by rewrite receive_ints_ok.
Qed.

Lemma read_first_all v cmd args k : receive_ints v 1 (ints (cmd :: args)) k = k [u32 cmd] (ints args).
Proof. rewrite <- (app_nil_r (ints (cmd :: args))), read_first. by rewrite app_nil_r. Qed.

Lemma ints_nonempty x l r : ints (x :: l) ++ r ≠ [].
Proof. change (ints (x :: l)) with (be32 x ++ ints l). unfold be32. intros H%(f_equal length). rewrite !length_app, length_rev, length_le in H. cbn in H. lia. Qed.

(** A call of the server, and its answer. *)
Definition called {A} (v : server) (r : res (Z * option A * et_id)) (send : option A → list Z) : res (Z * list Z * server) :=
  '(err, out, d) ← r; Ret (err, send out, v <| v_id := d |>).

Lemma reply_called {A} v (r : res (Z * option A * et_id)) send rest :
  reply_values v r send rest = '(err, vals, v') ← called v r send; answer v' (ints (err :: vals)) rest.
Proof. unfold reply_values, called. by destruct r as [[[err out] d]| | |]. Qed.

Definition send_none {A} (_ : option A) : list Z := [].
Lemma status_called {A} v (r : res (Z * option A * et_id)) rest :
  reply_status v r rest = '(err, vals, v') ← called v r send_none; answer v' (ints (err :: vals)) rest.
Proof. unfold reply_status, called. by destruct r as [[[err out] d]| | |]. Qed.

End Link.

(** Decides the comparisons of the numbers of commands. *)
Ltac commands :=
  repeat match goal with
  | |- context [?a =? ?b] => let c := eval vm_compute in (a =? b) in
      match c with true => change (a =? b) with true | false => change (a =? b) with false end
  | |- context [?a <? ?b] => let c := eval vm_compute in (a <? b) in
      match c with true => change (a <? b) with true | false => change (a <? b) with false end
  | |- context [?a <=? ?b] => let c := eval vm_compute in (a <=? b) in
      match c with true => change (a <=? b) with true | false => change (a <=? b) with false end
  end; cbn [orb].

(** The thread reads the number of the command. *)
Ltac enter_command :=
  unfold served, command, et_command; (rewrite read_first_all || rewrite read_first); cbv beta zeta;
  match goal with |- context [arg [u32 ?c] 0] => change (arg [u32 c] 0) with (arg [u32 c] 0); replace (arg [u32 c] 0) with c by reflexivity end.

Section Commands.
  Context (starts : et_station → bool) (allocated : bool) (conductors : nat → et_system → et_system) (junk : Z).
  Context (elsewhere : Z → server → list Z → res turn).
  Notation served := (served starts allocated conductors junk elsewhere).

(** Reads the integers of the request. *)
Ltac read_args :=
  rewrite ?receive_ints_all by reflexivity; cbv beta zeta;
  repeat match goal with
  | |- context [arg (u32 <$> ?l) ?i] => let x := eval cbn in (nth i l 0) in rewrite (arg_ints l i x) by (reflexivity || assumption)
  end.
Ltac serve := intros; enter_command; unfold serve_control, on_alive, on_wait, on_wake_att, on_wake_all, on_remove, on_setposition, on_getposition, on_isattached, on_setselectwords, on_getselectwords; commands; cbn [station_getter station_setter attachment_getter]; read_args;
  (apply status_called || apply reply_called).

Lemma serve_remove v stat_id : int_ok stat_id →
  served v (ints [ET_NET_STAT_RM; stat_id]) (called v (et_station_remove conductors (v_id v) stat_id) send_none).
Proof. serve. Qed.

Lemma serve_getposition v stat_id : int_ok stat_id →
  served v (ints [ET_NET_STAT_GPOS; stat_id]) (called v (et_station_getposition (v_id v) stat_id) (send_place junk)).
Proof. serve. Qed.

Lemma serve_setposition v stat_id p q : int_ok stat_id → int_ok p → int_ok q →
  served v (ints [ET_NET_STAT_SPOS; stat_id; p; q]) (called v (et_station_setposition (v_id v) stat_id p q) send_none).
Proof. serve. Qed.

Lemma serve_isattached v stat_id att : int_ok stat_id → int_ok att →
  served v (ints [ET_NET_STAT_ISAT; stat_id; att]) (called v (et_station_isattached (v_id v) stat_id att) send_none).
Proof. serve. Qed.

Lemma serve_getwords v stat_id : int_ok stat_id →
  served v (ints [ET_NET_STAT_GSW; stat_id]) (called v (et_station_getselectwords (v_id v) stat_id true) (send_words junk)).
Proof. serve. Qed.

(** Numbers of stations: the remote and the local functions. *)
Inductive station_number := Attachments | Status | InputCount | OutputCount | Block | User | Restore | Prescale | Cue | Select.

Definition local_number (n : station_number) : et_id → Z → bool → res (Z * option Z * et_id) :=
  match n with
  | Attachments => et_station_getattachments | Status => et_station_getstatus | InputCount => et_station_getinputcount
  | OutputCount => et_station_getoutputcount | Block => et_station_getblock | User => et_station_getuser
  | Restore => et_station_getrestore | Prescale => et_station_getprescale | Cue => et_station_getcue | Select => et_station_getselect
  end.
Definition number_command (n : station_number) : Z :=
  match n with
  | Attachments => ET_NET_STAT_GATTS | Status => ET_NET_STAT_STATUS | InputCount => ET_NET_STAT_INCNT
  | OutputCount => ET_NET_STAT_OUTCNT | Block => ET_NET_STAT_GBLOCK | User => ET_NET_STAT_GUSER
  | Restore => ET_NET_STAT_GRESTORE | Prescale => ET_NET_STAT_GPRE | Cue => ET_NET_STAT_GCUE | Select => ET_NET_STAT_GSELECT
  end.

Lemma serve_number v n stat_id : int_ok stat_id →
  served v (ints [number_command n; stat_id]) (called v (local_number n (v_id v) stat_id true) (send_int junk)).
Proof. destruct n; cbn [number_command local_number]; serve. Qed.

(** Settings of stations. *)
Definition setting_request (c : setting) (stat_id : Z) : list Z :=
  match c with
  | StationBlock x => [ET_NET_STAT_SBLOCK; stat_id; x] | StationUser x => [ET_NET_STAT_SUSER; stat_id; x]
  | StationRestore x => [ET_NET_STAT_SRESTORE; stat_id; x] | StationPrescale x => [ET_NET_STAT_SPRE; stat_id; x]
  | StationCue x => [ET_NET_STAT_SCUE; stat_id; x] | StationWords l => [ET_NET_STAT_SSW; stat_id] ++ l
  end.
Definition setting_ok (c : setting) : Prop :=
  match c with
  | StationBlock x | StationUser x | StationRestore x | StationPrescale x | StationCue x => int_ok x
  | StationWords l => length l = 6%nat ∧ Forall int_ok l
  end.

Lemma serve_setting v c stat_id : int_ok stat_id → setting_ok c →
  served v (ints (setting_request c stat_id)) (called v (run_setting c (v_id v) stat_id) send_none).
Proof.
  intros Hi Hc. destruct c as [x|x|x|x|x|l]; cbn [setting_request setting_ok run_setting] in *; [serve..|].
  destruct Hc as [Hl Hc]. cbn [app]. enter_command. unfold serve_control, on_alive, on_wait, on_wake_att, on_wake_all, on_setselectwords. commands.
  rewrite receive_ints_all by by cbn [length]; rewrite Hl. cbv beta zeta. cbn [fmap list_fmap tail]. rewrite s32_ints by done.
  change (arg (u32 stat_id :: (u32 <$> l)) 0) with (s32 (u32 stat_id)). rewrite s32_u32, s32_int by done. apply status_called.
Qed.

(** Counts of attachments. *)
Inductive attachment_number := PutCount | GetCount | DumpCount | MakeCount.
Definition local_count (n : attachment_number) : et_id → Z → bool → res (Z * option Z * et_id) :=
  match n with
  | PutCount => et_attach_geteventsput | GetCount => et_attach_geteventsget
  | DumpCount => et_attach_geteventsdump | MakeCount => et_attach_geteventsmake
  end.
Definition count_command (n : attachment_number) : Z :=
  match n with PutCount => ET_NET_ATT_PUT | GetCount => ET_NET_ATT_GET | DumpCount => ET_NET_ATT_DUMP | MakeCount => ET_NET_ATT_MAKE end.

Lemma serve_count v n att : int_ok att →
  served v (ints [count_command n; att]) (called v (local_count n (v_id v) att true) (send_count junk)).
Proof. destruct n; cbn [count_command local_count]; serve. Qed.

(** Numbers of the system. *)
Inductive sys_number := Temps | TempsMax | Stations | StationsMax | Procs | ProcsMax | Atts | AttsMax | Heartbeat | Pid | GroupCount.
Definition local_system (n : sys_number) (v : server) : Z * option Z :=
  match n with
  | Temps => et_system_gettemps (v_id v) true true | TempsMax => et_system_gettempsmax (v_id v) true true
  | Stations => et_system_getstations (v_id v) true true | StationsMax => et_system_getstationsmax (v_id v) true true
  | Procs => et_system_getprocs (v_info v) true true | ProcsMax => et_system_getprocsmax (v_info v) true true
  | Atts => et_system_getattachments (v_id v) true true | AttsMax => et_system_getattsmax (v_id v) true true
  | Heartbeat => et_system_getheartbeat (v_info v) true true | Pid => et_system_getpid (v_info v) true true
  | GroupCount => (ET_OK, Some (y_groupCount (d_sys (v_id v))))
  end.
Definition system_command (n : sys_number) : Z :=
  match n with
  | Temps => ET_NET_SYS_TMP | TempsMax => ET_NET_SYS_TMPMAX | Stations => ET_NET_SYS_STAT | StationsMax => ET_NET_SYS_STATMAX
  | Procs => ET_NET_SYS_PROC | ProcsMax => ET_NET_SYS_PROCMAX | Atts => ET_NET_SYS_ATT | AttsMax => ET_NET_SYS_ATTMAX
  | Heartbeat => ET_NET_SYS_HBEAT | Pid => ET_NET_SYS_PID | GroupCount => ET_NET_SYS_GRP
  end.

Lemma serve_system v n :
  served v (ints [system_command n]) (let '(err, out) := local_system n v in Ret (err, send_int junk out, v)).
Proof. destruct n; cbn [system_command]; enter_command; commands; reflexivity. Qed.

Lemma serve_alive v : served v (ints [ET_NET_ALIVE]) (Ret (1, [], v)).
Proof. enter_command. unfold serve_control, on_alive, on_wait, on_wake_att, on_wake_all, on_setselectwords. commands. reflexivity. Qed.
Lemma serve_wait v : served v (ints [ET_NET_WAIT]) (Ret (ET_OK, [], v)).
Proof. enter_command. unfold serve_control, on_alive, on_wait, on_wake_att, on_wake_all, on_setselectwords. commands. reflexivity. Qed.

(** *** Commands with strings *)

(** A string that fits in an array of [cap] characters. *)
Definition string_fits (cap : Z) (s : list Z) : Prop := no_nul s ∧ Z.of_nat (length s) ≤ cap - 1.

Lemma fitting cap s : string_fits cap s → c_string cap (string_bytes s) = Ret s.
Proof. intros [H1 H2]. by apply c_string_ok. Qed.

Lemma receive_fitting v cap s r k l i :
  string_fits cap s → cap ≤ 256 → l !! i = Some (string_length s) →
  receive_chars v cap (arg (u32 <$> l) i) (string_bytes s ++ r) k = k (string_bytes s) r.
Proof.
  intros [H1 H2] Hc Hl. unfold arg. rewrite (nth_lookup_Some _ _ _ (u32 (string_length s))) by by rewrite list_lookup_fmap, Hl.
  by apply receive_chars_ok.
Qed.

Lemma receive_fitting_all v cap s k l i :
  string_fits cap s → cap ≤ 256 → l !! i = Some (string_length s) →
  receive_chars v cap (arg (u32 <$> l) i) (string_bytes s) k = k (string_bytes s) [].
Proof. intros H1 H2 H3. rewrite <- (app_nil_r (string_bytes s)) at 1. by apply receive_fitting. Qed.

Lemma serve_exists_ok v name : string_fits ET_STATNAME_LENGTH name →
  served v (ints [ET_NET_STAT_EX; string_length name] ++ string_bytes name)
    (called v (et_station_exists (v_id v) (Some name) true) (send_int junk)).
Proof.
  intros Hn. enter_command. unfold serve_control, on_alive, on_wait, on_wake_att, on_wake_all, on_setselectwords. commands. unfold serve_exists. rewrite receive_ints_ok by done. cbv beta.
  rewrite (receive_fitting_all v _ name) by done. rewrite fitting by done. step. apply reply_called.
Qed.

Definition config_fits (sc : et_stat_config) : Prop :=
  Forall int_ok [c_init sc; c_flow_mode sc; c_user_mode sc; c_restore_mode sc; c_block_mode sc; c_prescale sc; c_cue sc; c_select_mode sc] ∧
  length (c_select sc) = 6%nat ∧ Forall int_ok (c_select sc) ∧
  string_fits ET_FUNCNAME_LENGTH (c_fname sc) ∧ string_fits ET_FILENAME_LENGTH (c_lib sc) ∧ string_fits ET_FILENAME_LENGTH (c_classs sc).

Lemma serve_create_ok v name sc p q :
  string_fits ET_STATNAME_LENGTH name → config_fits sc → int_ok p → int_ok q →
  served v
    (ints ([ET_NET_STAT_CRAT; c_init sc; c_flow_mode sc; c_user_mode sc; c_restore_mode sc; c_block_mode sc;
            c_prescale sc; c_cue sc; c_select_mode sc] ++ c_select sc ++
           [string_length (c_fname sc); string_length (c_lib sc); string_length (c_classs sc); string_length name; p; q]) ++
     string_bytes (c_fname sc) ++ string_bytes (c_lib sc) ++ string_bytes (c_classs sc) ++ string_bytes name)
    (called v (et_station_create_at starts allocated (v_id v) (Some name) (Some sc) p q) (send_int junk)).
Proof.
  intros Hn (Hi & Hl & Hs & H1 & H2 & H3) Hp Hq. destruct sc as [fm um rm bm pre cue sm sel ini fn lib cl]. cbn [c_flow_mode c_user_mode c_restore_mode c_block_mode c_prescale c_cue c_select_mode c_select c_init c_fname c_lib c_classs] in *.
  rewrite !list.Forall_cons in Hi. destruct Hi as (I1 & I2 & I3 & I4 & I5 & I6 & I7 & I8 & _).
  destruct sel as [|w0 [|w1 [|w2 [|w3 [|w4 [|w5 [|]]]]]]]; try done.
  pose proof (s32_ints _ Hs) as Hsel. cbn [app] in *. enter_command. unfold serve_control, on_alive, on_wait, on_wake_att, on_wake_all, on_setselectwords. commands. unfold serve_create.
  rewrite receive_ints_ok by done. cbv beta.
  rewrite (receive_fitting v _ fn) by done. rewrite (receive_fitting v _ lib) by done.
  rewrite (receive_fitting v _ cl) by done. rewrite (receive_fitting_all v _ name) by done.
  rewrite !fitting by done. step.
  rewrite (arg_ints _ 0 ini), (arg_ints _ 1 fm), (arg_ints _ 2 um), (arg_ints _ 3 rm), (arg_ints _ 4 bm), (arg_ints _ 5 pre),
    (arg_ints _ 6 cue), (arg_ints _ 7 sm), (arg_ints _ 18 p), (arg_ints _ 19 q) by done.
  change (s32 <$> take 6 (drop 8 _)) with (s32 <$> (u32 <$> [w0; w1; w2; w3; w4; w5])). rewrite Hsel. apply reply_called.
Qed.

(** *** Attachments *)

(** What the server writes down when an attachment was made. *)
Definition note_attachment (v : server) (pid : Z) (host ip : option (list Z)) (err : Z) (att : option Z) : res server :=
  if err =? ET_OK then
    att ← of_option att;
    attaches ← aset (v_attaches v) att att;
    o ← aget (v_origins v) att;
    origins ← aset (v_origins v) att (mkOrigin pid (default (o_host o) host) (default (o_interface o) ip));
    Ret (v <| v_attaches := attaches |> <| v_origins := origins |>)
  else Ret v.

Definition attached (v : server) (stat_id pid : Z) (host ip : option (list Z)) : res (Z * list Z * server) :=
  '(err, att, d) ← et_station_attach (v_id v) stat_id true;
  v ← note_attachment (v <| v_id := d |>) pid host ip err att; Ret (err, [default junk att], v).

Definition option_fits (cap : Z) (s : option (list Z)) : Prop := from_option (string_fits cap) True s.

Lemma sent_arg cap s l i : option_fits cap s → cap ≤ 256 → l !! i = Some (sent_length s) →
  (0 <? arg (u32 <$> l) i) = bool_decide (is_Some s).
Proof.
  intros Hs Hc Hl. unfold arg. rewrite (nth_lookup_Some _ _ _ (u32 (sent_length s))) by by rewrite list_lookup_fmap, Hl.
  rewrite s32_u32. destruct s as [s|]; [|done]. destruct Hs as [_ Hs]. cbn [sent_length]. unfold string_length.
  rewrite s32_u32, s32_int by (split; lia). rewrite bool_decide_true by by eexists. lia.
Qed.

(** What is written down, from the arrays that were read. *)
Lemma note_ok (v : server) (pid : Z) host ip err att b :
  option_fits ET_MAXHOSTNAMELEN host → option_fits ET_IPADDRSTRLEN ip →
  (v ← (if err =? ET_OK then
          att ← of_option att;
          attaches ← aset (v_attaches v) att att;
          o ← aget (v_origins v) att;
          h ← (if bool_decide (is_Some host) then c_string ET_MAXHOSTNAMELEN (sent_bytes host) else Ret (o_host o));
          i ← (if bool_decide (is_Some ip) then c_string ET_IPADDRSTRLEN (sent_bytes ip) else Ret (o_interface o));
          origins ← aset (v_origins v) att (mkOrigin pid h i);
          Ret (v <| v_attaches := attaches |> <| v_origins := origins |>)
        else Ret v);
   answer v (ints [err; default junk att]) b) =
  (v ← note_attachment v pid host ip err att; answer v (ints [err; default junk att]) b).
Proof.
  intros Hh Hi. unfold note_attachment. f_equal. destruct (err =? ET_OK); [|done]. destruct att as [a|]; [|done]. step.
  destruct (aset (v_attaches v) a a) as [l| | |]; try done. step. destruct (aget (v_origins v) a) as [o| | |]; try done. step.
  assert ((if bool_decide (is_Some host) then c_string ET_MAXHOSTNAMELEN (sent_bytes host) else Ret (o_host o)) =
          Ret (default (o_host o) host)) as -> by (destruct host; [by apply fitting|done]). step.
  assert ((if bool_decide (is_Some ip) then c_string ET_IPADDRSTRLEN (sent_bytes ip) else Ret (o_interface o)) =
          Ret (default (o_interface o) ip)) as -> by (destruct ip; [by apply fitting|done]). done.
Qed.

Lemma serve_attach_ok v stat_id pid host ip :
  int_ok stat_id → int_ok pid → option_fits ET_MAXHOSTNAMELEN host → option_fits ET_IPADDRSTRLEN ip →
  served v (ints [ET_NET_STAT_ATT; stat_id; pid; sent_length host; sent_length ip] ++ sent_bytes host ++ sent_bytes ip)
    (attached v stat_id pid host ip).
Proof.
  intros Hi Hpid Hh Hip. enter_command. unfold serve_control, on_alive, on_wait, on_wake_att, on_wake_all, on_setselectwords. commands. unfold serve_attach. rewrite receive_ints_ok by done. cbv beta zeta.
  rewrite !(sent_arg ET_MAXHOSTNAMELEN host _ 2), !(sent_arg ET_IPADDRSTRLEN ip _ 3) by done.
  rewrite (arg_ints _ 0 stat_id), (arg_ints _ 1 pid) by done.
  transitivity ('(err, att, d) ← et_station_attach (v_id v) stat_id true;
    v ← note_attachment (v <| v_id := d |>) pid host ip err att; answer v (ints [err; default junk att]) []).
  2: { unfold attached. destruct (et_station_attach (v_id v) stat_id true) as [[[err att] d]| | |]; try done. step. by rewrite bind_assoc. }
  destruct host as [h|], ip as [i|]; cbn [sent_bytes app];
    rewrite ?bool_decide_true, ?bool_decide_false by (by eexists || by intros [??]);
    rewrite ?(receive_fitting v ET_MAXHOSTNAMELEN h), ?(receive_fitting_all v ET_MAXHOSTNAMELEN h), ?(receive_fitting_all v ET_IPADDRSTRLEN i) by done;
    apply bind_ext; intros [[err att] d]; exact (note_ok (v <| v_id := d |>) pid _ _ err att [] Hh Hip).
Qed.

Definition detached (v : server) (att : Z) : res (Z * list Z * server) :=
  '(err, _, d) ← et_station_detach (v_id v) att;
  let v := v <| v_id := d |> in
  v ← (if err =? ET_OK then attaches ← aset (v_attaches v) att (-1); Ret (v <| v_attaches := attaches |>) else Ret v);
  Ret (err, [], v).

Lemma serve_detach_ok v att : int_ok att → served v (ints [ET_NET_STAT_DET; att]) (detached v att).
Proof.
  intros Hi. enter_command. unfold serve_control, on_alive, on_wait, on_wake_att, on_wake_all, on_setselectwords. commands. unfold serve_detach, detached. read_args.
  destruct (et_station_detach (v_id v) att) as [[[err out] d]| | |]; try done. step. by rewrite bind_assoc.
Qed.

Lemma serve_histogram_ok v :
  served v (ints [ET_NET_SYS_HIST])
    (let '(err, hist) := et_data_gethistogram (v_id v) true (y_nevents (d_sys (v_id v)) + 1) in
     Ret (err, if negb (err =? ET_OK) then [] else default [] hist, v)).
Proof. enter_command. commands. unfold serve_histogram. by destruct (et_data_gethistogram _ _ _) as [err hist]. Qed.

Lemma serve_wake_att v att : int_ok att →
  command starts allocated conductors junk elsewhere v (ints [ET_NET_WAKE_ATT; att]) =
    (v' ← ('(_, _, d) ← et_wakeup_attachment (v_id v) att; Ret (v <| v_id := d |>)); answer v' [] []).
Proof.
  intros Hi. enter_command. unfold serve_control, on_alive, on_wait, on_wake_att, on_wake_all, on_setselectwords. commands. read_args. by destruct (et_wakeup_attachment (v_id v) att) as [[[err out] d]| | |].
Qed.

Lemma serve_wake_all v stat_id : int_ok stat_id →
  command starts allocated conductors junk elsewhere v (ints [ET_NET_WAKE_ALL; stat_id]) =
    (v' ← ('(_, _, d) ← et_wakeup_all (v_id v) stat_id; Ret (v <| v_id := d |>)); answer v' [] []).
Proof.
  intros Hi. enter_command. unfold serve_control, on_alive, on_wait, on_wake_att, on_wake_all, on_setselectwords. commands. read_args. by destruct (et_wakeup_all (v_id v) stat_id) as [[[err out] d]| | |].
Qed.

(** *** Names *)

Inductive name_kind := LibName | ClassName | FunctionName.
Definition local_name (n : name_kind) : et_id → Z → bool → res (Z * option (list Z) * et_id) :=
  match n with LibName => et_station_getlib | ClassName => et_station_getclass | FunctionName => et_station_getfunction end.
Definition name_command (n : name_kind) : Z :=
  match n with LibName => ET_NET_STAT_LIB | ClassName => ET_NET_STAT_CLASS | FunctionName => ET_NET_STAT_FUNC end.
Definition name_cap (n : name_kind) : Z := match n with FunctionName => ET_FUNCNAME_LENGTH | _ => ET_FILENAME_LENGTH end.

(** The strings of the configurations fit in their arrays. *)
Definition names_fit (y : et_system) : Prop :=
  Forall (λ s, string_fits ET_FUNCNAME_LENGTH (c_fname (s_config s)) ∧ string_fits ET_FILENAME_LENGTH (c_lib (s_config s)) ∧
               string_fits ET_FILENAME_LENGTH (c_classs (s_config s))) (y_stats y).

Lemma selection_name_result lang read d stat_id err out d' :
  selection_name lang read d stat_id true = Ret (err, out, d') →
  int_ok err ∧ (err = ET_OK → ∃ s, s ∈ y_stats (d_sys d) ∧ out = Some (read (s_config s))).
Proof.
  assert (∀ st, st = ET_ERROR ∨ st = ET_ERROR_DEAD ∨ st = ET_ERROR_CLOSED →
    int_ok st ∧ (st = ET_OK → ∃ s, s ∈ y_stats (d_sys d) ∧ out = Some (read (s_config s)))) as Hno.
  { intros st Hst. unfold int_ok, ET_ERROR, ET_ERROR_DEAD, ET_ERROR_CLOSED, ET_OK in *. split; lia. }
  unfold selection_name, with_station, with_memory. destruct (negb lang); [intros [= <- _ _]; auto|].
  destruct (negb (d_alive d)); [intros [= <- _ _]; auto|].
  unfold et_memRead_lock. destruct (ml_writer (d_mem d)); [done|]. step. ids.
  destruct (d_closed d); [intros [= <- _ _]; auto|].
  destruct (_ || _); [intros [= <- _ _]; auto|]. unfold station. ids.
  destruct (y_stats (d_sys d) !! Z.to_nat stat_id) as [s|] eqn:Hs; [|done]. step.
  destruct (s_status s =? _); [intros [= <- _ _]; auto|]. destruct (negb _); [intros [= <- _ _]; auto|].
  intros [= <- <- _]. split; [split; unfold ET_OK; lia|]. intros _. exists s. split; [by eapply list_elem_of_lookup_2|done].
Qed.

Lemma local_name_fits n d stat_id err out d' :
  names_fit (d_sys d) → local_name n d stat_id true = Ret (err, out, d') →
  int_ok err ∧ (err = ET_OK → ∃ name, out = Some name ∧ string_fits (name_cap n) name).
Proof.
  intros Hf H. unfold names_fit in Hf. rewrite list.Forall_forall in Hf.
  destruct n; apply selection_name_result in H as [Hi H]; (split; [done|]); intros Herr; destruct (H Herr) as (s & Hs & ->);
    destruct (Hf s Hs) as (H1 & H2 & H3); by eexists.
Qed.

Definition name_answer (n : name_kind) (v : server) (stat_id : Z) : res (list Z * server) :=
  '(err, name, d) ← local_name n (v_id v) stat_id true;
  let v := v <| v_id := d |> in
  if negb (err =? ET_OK) then Ret (ints [err; 0], v) else
  name ← of_option name; Ret (ints [err; string_length name] ++ string_bytes name, v).

Lemma string_length_val cap s : string_fits cap s → cap ≤ 256 → string_length s = Z.of_nat (length s) + 1.
Proof. intros [_ H] Hc. unfold string_length, u32. rewrite Z.mod_small by lia. done. Qed.

Lemma name_cap_small n : name_cap n ≤ 100.
Proof. by destruct n. Qed.

Lemma serve_name_ok v n stat_id : int_ok stat_id → names_fit (d_sys (v_id v)) →
  command starts allocated conductors junk elsewhere v (ints [name_command n; stat_id]) =
    ('(out, v') ← name_answer n v stat_id; answer v' out []).
Proof.
  intros Hi Hf. unfold name_answer.
  assert (∀ r, r = local_name n (v_id v) stat_id true →
    ('(err, name, d) ← r; let v := v <| v_id := d |> in
     if negb (err =? ET_OK) then answer v (ints [err; 0]) [] else
     name ← of_option name;
     if 128 + ET_FILENAME_LENGTH <? 8 + (Z.of_nat (length name) + 1) then Undef else
     answer v (ints [err; Z.of_nat (length name) + 1] ++ name ++ [0]) []) =
    ('(out, v') ← ('(err, name, d) ← r; let v := v <| v_id := d |> in
       if negb (err =? ET_OK) then Ret (ints [err; 0], v) else
       name ← of_option name; Ret (ints [err; string_length name] ++ string_bytes name, v)); answer v' out [])) as H.
  { intros r Hr. destruct r as [[[err name] d]| | |]; try done. step. symmetry in Hr.
    destruct (local_name_fits n _ _ _ _ _ Hf Hr) as [_ Hn]. destruct (negb (err =? ET_OK)) eqn:E; [done|].
    apply negb_false_iff, Z.eqb_eq in E. destruct (Hn E) as (s & -> & Hs). step. pose proof (name_cap_small n).
    rewrite (string_length_val _ _ Hs) by lia. destruct Hs as [_ Hs].
    replace (_ <? _) with false by (symmetry; apply Z.ltb_ge; unfold ET_FILENAME_LENGTH; lia). done. }
  etrans; [|exact (H (local_name n (v_id v) stat_id true) eq_refl)].
  destruct n; cbn [name_command]; enter_command; unfold serve_control, on_alive, on_wait, on_wake_att, on_wake_all, on_remove, on_setposition, on_getposition, on_isattached, on_setselectwords, on_getselectwords; commands; unfold serve_name; read_args; commands; reflexivity.
Qed.
End Commands.
