(* ===== verification/EtEventLink.v ===== *)
(** * Events over a connection: statuses, rounds of asking, what the server answers

    The connection of EtRemoteSpec.v, whose server knows the commands about events. *)

From S2P Require Import Prelude Words EtTypes EtLists EtConductor EtAccess EtWaiting EtDetached EtStations EtEventCalls.
From S2P Require Import EtNet EtSettings EtRemote EtEventNet EtServer EtEventServer EtEventRemote EtRemoteSpec.

(** ** Statuses

    The statuses of the calls for events are between ET_ERROR_CLOSED and ET_OK. *)

Definition status_in {A} (f : A → Z) (r : res A) : Prop := ∀ a, r = Ret a → -20 ≤ f a ≤ 0.

Lemma status_bind {A B} (f : B → Z) (r : res A) (k : A → res B) : (∀ x, r = Ret x → status_in f (k x)) → status_in f (r ≫= k).
Proof. intros H b Hb. destruct r as [x| | |]; try done. by apply (H x eq_refl b). Qed.
Lemma status_ret {A} (f : A → Z) a : -20 ≤ f a ≤ 0 → status_in f (Ret a).
Proof. by intros H b [= <-]. Qed.

Definition st3 {A B} (x : Z * A * B) : Z := x.1.1.

Ltac numbers := cbv beta delta [st3 ET_OK ET_ERROR ET_ERROR_TOOMANY ET_ERROR_WAKEUP ET_ERROR_TIMEOUT ET_ERROR_EMPTY ET_ERROR_BUSY ET_ERROR_DEAD ET_ERROR_CLOSED fst snd] iota.

Tactic Notation "numbers" "in" hyp(H) := cbv beta delta [st3 fst snd] iota in H.

(** Goes through a body whose statuses are constants. *)
Ltac walk :=
  repeat first
    [ done
    | apply status_ret; numbers; lia
    | match goal with
      | |- status_in _ (_ ≫= _) => apply status_bind; intros ? _
      | |- status_in _ (if ?c then _ else _) => destruct c
      | |- status_in _ (match ?c with _ => _ end) => destruct c
      | |- status_in _ (let _ := _ in _) => cbv zeta
      end ].

Lemma wait_events_status y i att must ws : status_in st3 (wait_events y i att must ws).
Proof.
  revert y must. induction ws as [|[w run] ws IH]; intros y must; cbn [wait_events]; walk.
Qed.

Lemma wait_input_status y i mode att ws : status_in st3 (wait_input y i mode att ws).
Proof. unfold wait_input. walk. apply wait_events_status. Qed.

Lemma wait_group_status y i mode att scan ws : status_in st3 (wait_group y i mode att scan ws).
Proof. unfold wait_group. walk; first [apply wait_events_status|apply wait_input_status]. Qed.

Lemma leave_status {A} d st (out : option A) : -20 ≤ st ≤ 0 → status_in st3 (leave d st out).
Proof. intros H. by apply status_ret. Qed.

(** ** How many events are given *)

(** A status, and at most [n] events. *)
Definition counted {B} (n : Z) (x : Z * list nat * B) : Prop := -20 ≤ x.1.1 ≤ 0 ∧ Z.of_nat (length x.1.2) ≤ Z.max n 0.
Definition given {B} (n : Z) (x : Z * option (list nat) * B) : Prop :=
  -20 ≤ x.1.1 ≤ 0 ∧ Z.of_nat (length (default [] x.1.2)) ≤ Z.max n 0.
Definition holds {A} (P : A → Prop) (r : res A) : Prop := ∀ a, r = Ret a → P a.

Lemma holds_bind {A B} (P : B → Prop) (r : res A) (k : A → res B) : (∀ x, r = Ret x → holds P (k x)) → holds P (r ≫= k).
Proof. intros H b Hb. destruct r as [x| | |]; try done. by apply (H x eq_refl b). Qed.
Lemma holds_ret {A} (P : A → Prop) a : P a → holds P (Ret a).
Proof. by intros H b [= <-]. Qed.
Lemma counted_none {B} n st (y : B) : -20 ≤ st ≤ 0 → counted n (st, [], y).
Proof. intros H. split; [done|]. cbn. lia. Qed.
Lemma given_none {B} n st (y : B) : -20 ≤ st ≤ 0 → given n (st, None, y).
Proof. intros H. split; [done|]. cbn. lia. Qed.

Lemma take_events_length m p att n : holds (λ x, length x.1.1 = n) (take_events m p att n).
Proof.
  revert m p. induction n as [|n IH]; intros m p; cbn [take_events]; [by apply holds_ret|].
  apply holds_bind. intros i _. apply holds_bind. intros e _. apply holds_bind. intros [[l q] m'] E%IH. apply holds_ret. cbn in *. lia.
Qed.

Lemma group_loop_length m pl pev prev att group num acc n :
  (length acc < Nat.max num 1)%nat → holds (λ x, (length x.1.1 ≤ Nat.max num 1)%nat) (group_loop m pl pev prev att group num acc n).
Proof.
  revert m pl pev prev acc. induction n as [|n IH]; intros m pl pev prev acc Hacc; cbn [group_loop]; [apply holds_ret; cbn; lia|].
  apply holds_bind. intros i _. apply holds_bind. intros e _. destruct (negb _); [by apply IH|].
  cbv zeta. apply holds_bind. intros [m' pl'] _.
  destruct (Nat.leb_spec num (length (acc ++ [i]))) as [H|H]; [apply holds_ret|apply IH]; cbn [fst length]; rewrite length_app in *; cbn [length] in *; lia.
Qed.

Lemma et_station_nread_count y i mode att ws num : holds (counted num) (et_station_nread y i mode att ws num).
Proof.
  unfold et_station_nread. destruct (num <? 1); [apply holds_ret, counted_none; numbers; lia|].
  apply holds_bind. intros [[st y'] ws'] Hst%wait_input_status. numbers in Hst.
  destruct (negb _); [by apply holds_ret, counted_none|]. apply holds_bind. intros s _. apply holds_bind.
  intros [[pe m] s'] E. apply holds_ret. split; [numbers; lia|]. cbn. revert E. unfold nread_take.
  destruct (take_events _ _ _ _) as [[[l q] m1]| | |] eqn:E1; try done. intros [= <- _ _]. apply take_events_length in E1. cbn in E1. lia.
Qed.

Lemma et_station_nread_group_count y i mode att ws num group : holds (counted num) (et_station_nread_group y i mode att ws num group).
Proof.
  unfold et_station_nread_group. destruct (Z.ltb_spec num 1) as [|Hnum]; [apply holds_ret, counted_none; numbers; lia|].
  enough (∀ num', num' ≤ num → holds (counted num) (read_group_loop y i mode att ws num' group true (S (S (length ws))))) as H by by apply H.
  generalize (S (S (length ws))) as fuel, true as scan. intros fuel. revert y ws.
  induction fuel as [|fuel IH]; intros y ws scan num' Hn; cbn [read_group_loop]; [done|].
  apply holds_bind. intros [[st y'] ws'] Hst%wait_group_status. numbers in Hst.
  destruct (negb _); [by apply holds_ret, counted_none|]. apply holds_bind. intros s _. cbv zeta. apply holds_bind.
  intros [[pe m] s'] E. destruct (_ && _); [apply IH; lia|]. apply holds_ret. split; [numbers; lia|]. cbn [fst snd].
  revert E. unfold nread_group_take. destruct (group_loop _ _ _ _ _ _ _ _ _) as [[[l m1] pl']| | |] eqn:E1; try done.
  intros [= <- _ _]. apply group_loop_length in E1; cbn [length fst] in *; lia.
Qed.

Lemma leave_given n d st : -20 ≤ st ≤ 0 → holds (given n) (leave d st (None : option (list nat))).
Proof. intros H. by apply holds_ret, given_none. Qed.

Lemma leave_some n d pe : Z.of_nat (length pe) ≤ Z.max n 0 → holds (given n) (leave d ET_OK (Some pe)).
Proof. intros H. apply holds_ret. split; [numbers; lia|done]. Qed.

Lemma with_memory_given n d (body : et_id → res (Z * option (list nat) * et_id)) :
  (∀ d, holds (given n) (body d)) → holds (given n) (with_memory d body).
Proof.
  intros H. unfold with_memory. destruct (negb _); [apply holds_ret, given_none; numbers; lia|].
  apply holds_bind. intros d1 _. destruct (d_closed d1); [apply holds_ret, given_none; numbers; lia|apply H].
Qed.

Lemma read_failed_given n os d st : -20 ≤ st ≤ 0 → holds (given n) (read_failed os d st).
Proof. intros H. unfold read_failed. apply leave_given. destruct (_ && _); numbers; lia. Qed.

Lemma make_event_status os y x size naps fuel : status_in st3 (make_event os y x size naps fuel).
Proof.
  revert y naps. induction fuel as [|fuel IH]; intros y naps; cbn [make_event]; [done|].
  apply status_bind. intros [st y'] E. assert (-20 ≤ st ≤ 0) as Hst.
  { enough (status_in fst (et_event_make os y x size)) as H by exact (H _ E). unfold et_event_make. walk. }
  walk; first [by apply status_ret|apply IH].
Qed.

Lemma make_events_status os y pe size naps : status_in fst (make_events os y pe size naps).
Proof.
  revert y naps. induction pe as [|x pe IH]; intros y naps; cbn [make_events]; [apply status_ret; numbers; lia|].
  apply status_bind. intros [[st y'] naps'] Hst%make_event_status. numbers in Hst. walk; first [by apply status_ret|apply IH].
Qed.

Lemma furnish_given n os d att pe size naps : Z.of_nat (length pe) ≤ Z.max n 0 → holds (given n) (furnish os d att pe size naps).
Proof.
  intros Hpe. unfold furnish. apply holds_bind. intros [st y] E. assert (-20 ≤ st ≤ 0) as Hst.
  { destruct (_ <? size); [exact (make_events_status _ _ _ _ _ _ E)|]. revert E. destruct (each_event _ _ _); [|done..].
    intros [= <- _]. numbers; lia. }
  destruct (negb _); [by apply leave_given|]. apply holds_bind. intros y1 _. by apply leave_some.
Qed.

Lemma get_new_given n os d att size naps read :
  (∀ y, holds (counted n) (read y)) → holds (given n) (get_new os d att size naps read).
Proof.
  intros H. unfold get_new. apply holds_bind. intros a _. destruct (negb _); [apply leave_given; numbers; lia|].
  apply holds_bind. intros [[st pe] y] [Hst Hpe]%H. destruct (negb _); [by apply read_failed_given|by apply furnish_given].
Qed.

Lemma get_events_given n os d att read :
  (∀ y i, holds (counted n) (read y i)) → holds (given n) (get_events os d att read).
Proof.
  intros H. unfold get_events. apply holds_bind. intros a _.
  destruct (negb _); [apply leave_given; numbers; lia|]. destruct (_ =? _); [apply leave_given; numbers; lia|].
  destruct (_ <? 0); [done|]. apply holds_bind. intros [[st pe] y] [Hst Hpe]%H.
  destruct (negb _); [by apply read_failed_given|]. apply holds_bind. intros [] _; [|apply leave_given; numbers; lia].
  apply holds_bind. intros y1 _. by apply leave_some.
Qed.

Lemma counted_less {B} n n' (r : res (Z * list nat * B)) : n' ≤ n → holds (counted n') r → holds (counted n) r.
Proof. intros Hn H a [H1 H2]%H. split; [done|lia]. Qed.

(** The five calls that wait. *)
Definition gives_at_most (n : Z) (call : waiting_call) : Prop := ∀ d mode dt ws naps, holds (given n) (call d mode dt ws naps).

Ltac refused := repeat match goal with |- holds _ (if ?c then Ret _ else _) => destruct c; [apply holds_ret, given_none; numbers; lia|] end.

Lemma not_more_le y size num : not_more_temps y size num ≤ num.
Proof. unfold not_more_temps. destruct (_ <? _); lia. Qed.

Lemma events_new_group_given os att size num group :
  gives_at_most num (λ d mode dt ws naps, et_events_new_group os d att true mode dt size num group ws naps).
Proof.
  intros d mode dt ws naps. unfold et_events_new_group. refused. apply with_memory_given. intros d1.
  destruct (_ <? group); [apply leave_given; numbers; lia|]. apply get_new_given. intros y.
  eapply counted_less; [apply not_more_le|apply et_station_nread_group_count].
Qed.

Lemma events_new_given os att size num :
  gives_at_most num (λ d mode dt ws naps, et_events_new os d att true mode dt size num ws naps).
Proof.
  intros d mode dt ws naps. unfold et_events_new. destruct (negb _); [apply events_new_group_given|].
  refused. apply with_memory_given. intros d1. apply get_new_given. intros y.
  eapply counted_less; [apply not_more_le|apply et_station_nread_count].
Qed.

Lemma read_one_count y i mode att ws :
  holds (counted 1) ('(status, x, y) ← et_station_read y i mode att ws; Ret (status, option_list x, y)).
Proof.
  apply holds_bind. intros [[st x] y'] E. apply holds_ret. split; [|destruct x; cbn; lia]. revert E. unfold et_station_read.
  destruct (wait_input y i mode att ws) as [[[st1 y1] ws1]| | |] eqn:E; try done. apply wait_input_status in E. numbers in E. step.
  destruct (negb _); [by intros [= <- _ _]|]. destruct (station y1 i) as [s| | |]; try done. step.
  destruct (read_take _ _ _) as [[[pe m] s']| | |]; try done. intros [= <- _ _]. numbers; lia.
Qed.

Lemma event_new_given os att size :
  gives_at_most 1 (λ d mode dt ws naps, et_event_new os d att true mode dt size ws naps).
Proof.
  intros d mode dt ws naps. unfold et_event_new. destruct (negb _); [apply events_new_group_given|].
  refused. apply with_memory_given. intros d1. apply get_new_given. intros y. apply read_one_count.
Qed.

Lemma event_get_given os att : gives_at_most 1 (λ d mode dt ws _, et_event_get os d att true mode dt ws).
Proof.
  intros d mode dt ws naps. unfold et_event_get. refused. apply with_memory_given. intros d1. apply get_events_given.
  intros y i. apply read_one_count.
Qed.

Lemma events_get_given os att num : gives_at_most num (λ d mode dt ws _, et_events_get os d att true mode dt num ws).
Proof.
  intros d mode dt ws naps. unfold et_events_get. refused. apply with_memory_given. intros d1. apply get_events_given.
  intros y i. apply et_station_nread_count.
Qed.

Lemma wait_once_given n v att wait sec nsec call : gives_at_most n call → holds (given n) (wait_once v att wait sec nsec call).
Proof.
  intros H. assert (∀ v mode dt, holds (λ x, given n (x.1.1, x.2)) (call_once v call mode dt)) as H1.
  { intros v' mode dt. unfold call_once. destruct (v_waits v') as [|w ws]; apply holds_bind; intros [[st pe] d] Hst%H; by apply holds_ret. }
  unfold wait_once. destruct (wait =? ET_TIMED).
  - apply holds_bind. intros v1 _. apply holds_bind. intros [v2|] _; [apply holds_ret, given_none; numbers; lia|].
    apply holds_bind. intros [[[st pe] h] v3] Hst%H1. by apply holds_ret.
  - apply holds_bind. intros [[[st pe] h] v3] Hst%H1. by apply holds_ret.
Qed.

(** ** Rounds *)

(** Calls that time out are made again: without end when the process sleeps, and once more
    than [iterations] times when its time is limited. *)
Fixpoint repeated (one : server → res (Z * option (list nat) * server)) (v : server) (wait iterations : Z) (fuel : nat)
  : res (Z * option (list nat) * server) :=
  match fuel with
  | O => NoFuel
  | S fuel =>
      '(err, pe, v) ← one v;
      if err =? ET_ERROR_TIMEOUT then
        if wait =? ET_SLEEP then repeated one v wait iterations fuel
        else if 0 <? iterations then repeated one v wait (iterations - 1) fuel
        else Ret (ET_ERROR_TIMEOUT, None, v)
      else Ret (err, pe, v)
  end.

Section Rounds.
  Context (starts : et_station → bool) (allocated : bool) (conductors : nat → et_system → et_system) (junk : Z).
  Context (elsewhere : Z → server → list Z → res turn).
#[local] Instance conn : Conn link := link_conn starts allocated conductors junk elsewhere.
  Notation command := (command starts allocated conductors junk elsewhere).

(** The server makes the call [one] when it reads the request, and sends what [reply] says. *)
Definition asks (request : list Z) (one : server → res (Z * option (list nat) * server))
    (reply : server → Z → option (list nat) → res (list Z * server)) : Prop :=
  ∀ v, command v request = '(err, pe, v1) ← one v; '(out, v2) ← reply v1 err pe; answer v2 out [].

(** The first [n] bytes of the answers start with a status, ET_ERROR_TIMEOUT for no other one. *)
Definition replies (n num : Z) (reply : server → Z → option (list nat) → res (list Z * server)) : Prop :=
  (∀ v pe, ∃ out, reply v ET_ERROR_TIMEOUT pe = Ret (out, v) ∧ Z.of_nat (length out) = n ∧ s32 (word out 0) = ET_ERROR_TIMEOUT) ∧
  (∀ v err pe out v', given num (err, pe, tt) → err ≠ ET_ERROR_TIMEOUT → reply v err pe = Ret (out, v') →
     n ≤ Z.of_nat (length out) ∧ s32 (word (take (Z.to_nat n) out) 0) ≠ ET_ERROR_TIMEOUT).

Lemma rounds_link request n num one reply v wait iterations fuel :
  request ≠ [] → 0 ≤ n → asks request one reply → (∀ v, holds (given num) (one v)) → replies n num reply →
  ask_rounds (idle v) request n wait iterations fuel =
    '(err, pe, v1) ← repeated one v wait iterations fuel;
    if err =? ET_ERROR_TIMEOUT then Ret (inl ET_ERROR_TIMEOUT, idle v1) else
    '(out, v2) ← reply v1 err pe;
    Ret (inr (take (Z.to_nat n) out), mkRemote true (mkLink v2 true (drop (Z.to_nat n) out))).
Proof.
  intros Hne Hn Ha Hone [Ht Ho]. revert v iterations. induction fuel as [|fuel IH]; intros v iterations; [done|].
  cbn [ask_rounds repeated]. unfold conn in *.
  rewrite (ask_bytes starts allocated conductors junk elsewhere v request n ('(err, pe, v1) ← one v; reply v1 err pe)); [|done| |done|].
  2: { rewrite Ha, !bind_assoc. apply bind_ext. by intros [[err pe] v1]. }
  2: { intros out v'. destruct (one v) as [[[err pe] v1]| | |] eqn:E; try done. step. intros Hr.
    destruct (decide (err = ET_ERROR_TIMEOUT)) as [->|Hne'].
    - destruct (Ht v1 pe) as (out1 & E1 & E2 & _). rewrite E1 in Hr. injection Hr as <- <-. lia.
    - by destruct (Ho v1 err pe out v' (Hone v _ E) Hne' Hr). }
  destruct (one v) as [[[err pe] v1]| | |] eqn:E; try done. step.
  destruct (Z.eqb_spec err ET_ERROR_TIMEOUT) as [->|Hne'].
  - destruct (Ht v1 pe) as (out & -> & E2 & E3). step. rewrite take_ge, drop_ge by lia. rewrite E3.
    change (ET_ERROR_TIMEOUT =? ET_ERROR_TIMEOUT) with true. cbv iota.
    change (et_tcp_unlock _) with (idle v1). destruct (wait =? ET_SLEEP); [apply IH|]. destruct (0 <? iterations); [apply IH|done].
  - destruct (reply v1 err pe) as [[out v2]| | |] eqn:E1; try (step; by rewrite (proj2 (Z.eqb_neq _ _) Hne'), E1). step.
    destruct (Ho v1 err pe out v2 (Hone v _ E) Hne' E1) as [_ E2]. rewrite (proj2 (Z.eqb_neq _ _) E2), (proj2 (Z.eqb_neq _ _) Hne'). step. by rewrite E1.
Qed.

(** The next bytes of the answer. *)
Lemma link_read v on l r n : n = Z.of_nat (length l) → etNetTcpRead (mkLink v on (l ++ r)) n = Ret (Some l, mkLink v on r).
Proof.
  intros ->. unfold etNetTcpRead, conn, link_conn. cbn [k_inbox k_server k_on]. rewrite length_app.
  replace (_ <? 0) with false by (symmetry; apply Z.ltb_ge; lia).
  replace (_ <=? _) with true by (symmetry; apply Z.leb_le; lia).
  by rewrite Nat2Z.id, take_app_length, drop_app_length.
Qed.
End Rounds.

(** ** What the server does for the commands about events *)

Section Commands.
  Context (starts : et_station → bool) (allocated : bool) (conductors : nat → et_system → et_system) (junk : Z).
  Context (os : answers) (memory : nat → Z → list Z) (elsewhere : Z → server → list Z → res turn).
  Notation link_asks := (asks starts allocated conductors junk (serve_events os memory elsewhere)).
  Notation link_command := (command starts allocated conductors junk (serve_events os memory elsewhere)).

Lemma waiting_reply v att wait sec nsec call reply b : wait ≠ ET_SLEEP →
  serve_waiting v att wait sec nsec call reply b =
    '(err, pe, v1) ← wait_once v att wait sec nsec call; '(out, v2) ← reply v1 err pe; answer v2 out b.
Proof.
  intros Hw. unfold serve_waiting, wait_for_events. rewrite (proj2 (Z.eqb_neq _ _) Hw), bind_assoc. apply bind_ext. by intros [[err pe] v1].
Qed.

(** Reads the arguments of a request. *)
Ltac enter_event :=
  enter_command; unfold serve_control; commands; unfold serve_events; commands;
  unfold serve_event_get, serve_events_get, serve_event_new, serve_events_new, serve_events_new_group, serve_event_dump, serve_events_dump;
  rewrite ?receive_ints_all by reflexivity; cbv beta zeta.
Ltac arguments :=
  repeat match goal with
  | |- context [arg (u32 <$> ?l) ?i] => let x := eval cbn in (nth i l 0) in rewrite (arg_ints l i x) by (reflexivity || assumption)
  end; cbn [nth fmap list_fmap].

Lemma asks_event_get att wait part sec nsec : int_ok att → int_ok wait → int_ok part → wait ≠ ET_SLEEP →
  link_asks (ints [ET_NET_EV_GET; att; wait; part; sec; nsec])
    (λ v, wait_once v att wait (u32 sec) (u32 nsec) (λ d mode dt ws _, et_event_get os d att true mode dt ws))
    (reply_event_get os att part).
Proof. intros Ha Hw Hp Hne v. enter_event. arguments. by apply waiting_reply. Qed.

Lemma asks_events_get att wait part num sec nsec : int_ok att → int_ok wait → int_ok part → int_ok num → wait ≠ ET_SLEEP →
  link_asks (ints [ET_NET_EVS_GET; att; wait; part; num; sec; nsec])
    (λ v, wait_once v att wait (u32 sec) (u32 nsec) (λ d mode dt ws _, et_events_get os d att true mode dt num ws))
    (reply_events_get os att part).
Proof. intros Ha Hw Hp Hn Hne v. enter_event. arguments. by apply waiting_reply. Qed.

Definition size_ok (size : Z) : Prop := 0 ≤ size < 18446744073709551616.

Lemma asks_event_new att wait size sec nsec : int_ok att → int_ok wait → size_ok size → wait ≠ ET_SLEEP →
  link_asks (ints [ET_NET_EV_NEW; att; wait; ET_HIGHINT size; ET_LOWINT size; sec; nsec])
    (λ v, wait_once v att wait (u32 sec) (u32 nsec) (λ d mode dt ws naps, et_event_new os d att true mode dt size ws naps))
    (reply_event_new memory).
Proof. intros Ha Hw Hs Hne v. enter_event. arguments. rewrite u32_halves by done. by apply waiting_reply. Qed.

Lemma asks_events_new att wait size num sec nsec : int_ok att → int_ok wait → size_ok size → int_ok num → wait ≠ ET_SLEEP →
  link_asks (ints [ET_NET_EVS_NEW; att; wait; ET_HIGHINT size; ET_LOWINT size; num; sec; nsec])
    (λ v, wait_once v att wait (u32 sec) (u32 nsec) (λ d mode dt ws naps, et_events_new os d att true mode dt size num ws naps))
    (reply_events_new memory).
Proof. intros Ha Hw Hs Hn Hne v. enter_event. arguments. rewrite u32_halves by done. by apply waiting_reply. Qed.

Lemma asks_events_new_group att wait size num group sec nsec :
  int_ok att → int_ok wait → size_ok size → int_ok num → int_ok group → wait ≠ ET_SLEEP →
  link_asks (ints [ET_NET_EVS_NEW_GRP; att; wait; ET_HIGHINT size; ET_LOWINT size; num; group; sec; nsec])
    (λ v, wait_once v att wait (u32 sec) (u32 nsec) (λ d mode dt ws naps, et_events_new_group os d att true mode dt size num group ws naps))
    (reply_events_new memory).
Proof. intros Ha Hw Hs Hn Hg Hne v. enter_event. arguments. rewrite u32_halves by done. by apply waiting_reply. Qed.
End Commands.

(** ** The first integer of an answer *)

Lemma word_head x l r : s32 (word (ints (x :: l) ++ r) 0) = s32 x.
Proof. unfold word. rewrite first_word. apply s32_u32. Qed.

Lemma word_take x l r n : (4 ≤ n)%nat → s32 (word (take n (ints (x :: l) ++ r)) 0) = s32 x.
Proof.
  intros Hn. change (ints (x :: l)) with (be32 x ++ ints l). rewrite <- app_assoc.
  rewrite take_app_ge by by rewrite length_be32.
  unfold word. cbn [words]. rewrite take_app_length' by by rewrite length_be32. rewrite be32_val. apply s32_u32.
Qed.

Lemma ret_pair {A B} (a a' : A) (b b' : B) : Ret (a, b) = Ret (a', b') → a = a' ∧ b = b'.
Proof. by intros [= -> ->]. Qed.

Lemma short_status err : -20 ≤ err ≤ 0 → s32 err = err.
Proof. intros H. apply s32_int. split; lia. Qed.

Section Replies.
  Context (os : answers) (memory : nat → Z → list Z).

(** An answer that starts with a status or a count. *)
Lemma starts_ok x l r n num err : (4 ≤ n)%nat → (n ≤ 4 * S (length l) + length r)%nat →
  (x = err ∧ -20 ≤ err ≤ 0 ∧ err ≠ ET_ERROR_TIMEOUT ∨ 0 ≤ x ≤ Z.max num 0 ∧ num < 2147483648 ∨ x = ET_ERROR_TOOBIG) →
  Z.of_nat n ≤ Z.of_nat (length (ints (x :: l) ++ r)) ∧
  s32 (word (take (Z.to_nat (Z.of_nat n)) (ints (x :: l) ++ r)) 0) ≠ ET_ERROR_TIMEOUT.
Proof.
  intros Hn Hl Hx. rewrite length_app, length_ints. cbn [length]. split; [lia|]. rewrite Nat2Z.id, word_take by done.
  rewrite s32_int; unfold int_ok, ET_ERROR_TOOBIG, ET_ERROR_TIMEOUT in *; lia.
Qed.

Lemma replies_event_get att part : replies 4 1 (reply_event_get os att part).
Proof.
  split.
  - intros v pe. exists (ints [ET_ERROR_TIMEOUT]). by split_and!.
  - intros v err pe out v' [He _] Hne. cbn [fst] in He. unfold reply_event_get.
    destruct (Z.ltb_spec err ET_OK) as [H|H].
    { intros [<- <-]%ret_pair. rewrite <- (app_nil_r (ints [err])). apply (starts_ok err [] [] 4 1 err); cbn; [lia..|by left]. }
    destruct (of_option _) as [x| | |]; try done. step. destruct (too_big v [x]) as [big| | |]; try done. step.
    destruct big.
    { destruct (give_back_one _ _ _ _ _) as [v1| | |]; try done. step. intros [<- <-]%ret_pair.
      rewrite <- (app_nil_r (ints [_])). apply (starts_ok _ [] [] 4 1 err); cbn; [lia..|by right; right]. }
    destruct (keep_modify _ _ _) as [v1| | |]; try done. step. destruct (send_event v1 x) as [data| | |]; try done. step.
    destruct (if _ : bool then _ else _) as [v2| | |]; try done. step. intros [<- <-]%ret_pair.
    apply (starts_ok err [] data 4 1 err); [lia|cbn;lia|by left].
Qed.

Lemma replies_events_get att part num : num < 2147483648 → replies 4 num (reply_events_get os att part).
Proof.
  intros Hnum. split.
  - intros v pe. exists (ints [ET_ERROR_TIMEOUT]). by split_and!.
  - intros v err pe out v' [He Hpe] Hne. cbn [fst snd] in He, Hpe. unfold reply_events_get.
    destruct (negb _).
    { intros [<- <-]%ret_pair. rewrite <- (app_nil_r (ints [err])). apply (starts_ok err [] [] 4 1 err); cbn; [lia..|by left]. }
    destruct (too_big v _) as [big| | |]; try done. step. destruct big.
    { destruct (give_back _ _ _ _ _) as [v1| | |]; try done. step. intros [<- <-]%ret_pair.
      rewrite <- (app_nil_r (ints [_])). apply (starts_ok _ [] [] 4 1 err); cbn; [lia..|by right; right]. }
    destruct (keep_modify _ _ _) as [v1| | |]; try done. step. destruct (send_events v1 _) as [data| | |]; try done. step.
    destruct (if _ : bool then _ else _) as [v2| | |]; try done. step. intros [<- <-]%ret_pair.
    apply (starts_ok _ _ data 4 num err); [lia|cbn;lia|right; left; lia].
Qed.

Lemma replies_event_new : replies 12 1 (reply_event_new memory).
Proof.
  split.
  - intros v pe. exists (ints [ET_ERROR_TIMEOUT; 0; 0]). by split_and!.
  - intros v err pe out v' [He _] Hne. cbn [fst] in He. unfold reply_event_new. destruct (negb _).
    { intros [<- <-]%ret_pair. rewrite <- (app_nil_r (ints [err; 0; 0])). apply (starts_ok err [0; 0] [] 12 1 err); cbn; [lia..|by left]. }
    destruct (of_option _) as [x| | |]; try done. step. destruct (keep_modify _ _ _) as [v1| | |]; try done. step.
    intros [<- <-]%ret_pair. rewrite <- (app_nil_r (ints _)). apply (starts_ok err [Z.of_nat x; 0] [] 12 1 err); cbn; [lia..|by left].
Qed.

Lemma replies_events_new num : num < 2147483648 → replies 4 num (reply_events_new memory).
Proof.
  intros Hnum. split.
  - intros v pe. exists (ints [ET_ERROR_TIMEOUT]). by split_and!.
  - intros v err pe out v' [He Hpe] Hne. cbn [fst snd] in He, Hpe. unfold reply_events_new. destruct (_ <? 0).
    { intros [<- <-]%ret_pair. rewrite <- (app_nil_r (ints [err])). apply (starts_ok err [] [] 4 1 err); cbn; [lia..|by left]. }
    destruct (keep_modify _ _ _) as [v1| | |]; try done. step. intros [<- <-]%ret_pair. rewrite <- (app_nil_r (ints _)).
    apply (starts_ok _ _ [] 4 num err); [lia|cbn;lia|right; left; lia].
Qed.
End Replies.
