(* ===== verification/EtRemoteCalls.v ===== *)
(** * Remote calls (continued): every call, and the end of a process

    The calls of a remote process are those of [rcall]; [run_remote] makes one through the
    connection, [run_local] in the process of the system. *)

From S2P Require Import Prelude Words CString EtTypes EtLists EtListSpec EtStationSpec EtConductor EtSystemInv EtConductorSpec EtAccess EtWaiting.
From S2P Require Import EtDetached EtStatConfig EtSteps EtWaitSpec EtStations EtSettings EtCallSpec EtEventSpec EtAttachSpec EtActivity EtLife EtPlaces.
From S2P Require Import EtTyping EtNet EtSettings EtRemote EtServer EtRemoteSpec.

Inductive rcall :=
| IsAlive | WaitForAlive | WakeUp (att : Z) | WakeUpAll (stat_id : Z)
| CreateAt (name : list Z) (sc : et_stat_config) (position parallelposition : Z)
| Remove (stat_id : Z)
| Attach (pid : Z) (host ip : option (list Z)) (stat_id : Z)
| Detach (att : Z)
| GetPosition (stat_id : Z) | IsAttached (stat_id att : Z) | Exists (name : list Z)
| Number (n : station_number) (stat_id : Z) | ChangeSetting (c : setting) (stat_id : Z) | GetWords (stat_id : Z)
| Name (n : name_kind) (stat_id : Z) | Count (n : attachment_number) (att : Z) | SystemNumber (n : sys_number)
| GetHistogram.

Inductive value := VInt (x : Z) | VPlace (p : Z) (q : option Z) | VInts (l : list Z) | VName (s : list Z).

(** The result with its value wrapped. *)
Definition wrap {A B C} (f : A → B) (r : res (Z * option A * C)) : res (Z * option B * C) :=
  '(err, out, c) ← r; Ret (err, option_map f out, c).
Definition no_value {A} (_ : A) : value := VInts [].

Section Calls.
  Context (starts : et_station → bool) (allocated : bool) (conductors : nat → et_system → et_system) (junk : Z).
  Context (elsewhere : Z → server → list Z → res turn).
#[local] Instance conn : Conn link := link_conn starts allocated conductors junk elsewhere.
  Notation served := (served starts allocated conductors junk elsewhere).

Definition remote_number (n : station_number) : remote_id link → Z → bool → res (Z * option Z * remote_id link) :=
  match n with
  | Attachments => etr_station_getattachments | Status => etr_station_getstatus | InputCount => etr_station_getinputcount
  | OutputCount => etr_station_getoutputcount | Block => etr_station_getblock | User => etr_station_getuser
  | Restore => etr_station_getrestore | Prescale => etr_station_getprescale | Cue => etr_station_getcue | Select => etr_station_getselect
  end.
Definition remote_count (n : attachment_number) : remote_id link → Z → bool → res (Z * option Z * remote_id link) :=
  match n with
  | PutCount => etr_attach_geteventsput | GetCount => etr_attach_geteventsget
  | DumpCount => etr_attach_geteventsdump | MakeCount => etr_attach_geteventsmake
  end.
Definition remote_system (n : sys_number) : remote_id link → bool → res (Z * option Z * remote_id link) :=
  match n with
  | Temps => etr_system_gettemps | TempsMax => etr_system_gettempsmax | Stations => etr_system_getstations
  | StationsMax => etr_system_getstationsmax | Procs => etr_system_getprocs | ProcsMax => etr_system_getprocsmax
  | Atts => etr_system_getattachments | AttsMax => etr_system_getattsmax | Heartbeat => etr_system_getheartbeat
  | Pid => etr_system_getpid | GroupCount => etr_system_getgroupcount
  end.
Definition remote_name (n : name_kind) : remote_id link → Z → bool → res (Z * option (list Z) * remote_id link) :=
  match n with LibName => etr_station_getlib | ClassName => etr_station_getclass | FunctionName => etr_station_getfunction end.
Definition remote_setting (c : setting) (k : remote_id link) (stat_id : Z) : res (Z * option unit * remote_id link) :=
  match c with
  | StationBlock x => etr_station_setblock k stat_id x | StationUser x => etr_station_setuser k stat_id x
  | StationRestore x => etr_station_setrestore k stat_id x | StationPrescale x => etr_station_setprescale k stat_id x
  | StationCue x => etr_station_setcue k stat_id x | StationWords l => etr_station_setselectwords k stat_id l
  end.

(** The call of the remote process, [nevents] being the number of events it was told. *)
Definition run_remote (nevents : Z) (call : rcall) (k : remote_id link) : res (Z * option value * remote_id link) :=
  match call with
  | IsAlive => wrap no_value (etr_alive k)
  | WaitForAlive => wrap no_value (etr_wait_for_alive k)
  | WakeUp att => wrap no_value (etr_wakeup_attachment k att)
  | WakeUpAll s => wrap no_value (etr_wakeup_all k s)
  | CreateAt name sc p q => wrap VInt (etr_station_create_at true k name sc p q)
  | Remove s => wrap no_value (etr_station_remove k s)
  | Attach pid host ip s => wrap VInt (etr_station_attach true pid host ip k s true)
  | Detach att => wrap no_value (etr_station_detach k att)
  | GetPosition s => wrap (λ '(p, q), VPlace p (Some q)) (etr_station_getposition k s true)
  | IsAttached s att => wrap no_value (etr_station_isattached k s att)
  | Exists name => wrap VInt (etr_station_exists true k name true)
  | Number n s => wrap VInt (remote_number n k s true)
  | ChangeSetting c s => wrap no_value (remote_setting c k s)
  | GetWords s => wrap VInts (etr_station_getselectwords k s true)
  | Name n s => wrap VName (remote_name n k s true)
  | Count n att => wrap VInt (remote_count n k att true)
  | SystemNumber n => wrap VInt (remote_system n k true)
  | GetHistogram => wrap VInts (etr_data_gethistogram nevents k (nevents + 1))
  end.

(** The same call in the process of the system, and what its server writes down. *)
Definition here {A} (v : server) (f : A → value) (r : res (Z * option A * et_id)) : res (Z * option value * server) :=
  '(err, out, d) ← r; Ret (err, option_map f out, v <| v_id := d |>).
Definition run_local (call : rcall) (v : server) : res (Z * option value * server) :=
  let d := v_id v in
  match call with
  | IsAlive => Ret (1, None, v)
  | WaitForAlive => Ret (ET_OK, None, v)
  | WakeUp att => '(_, _, v) ← here v no_value (et_wakeup_attachment d att); Ret (ET_OK, None, v)
  | WakeUpAll s => '(_, _, v) ← here v no_value (et_wakeup_all d s); Ret (ET_OK, None, v)
  | CreateAt name sc p q => here v VInt (et_station_create_at starts allocated d (Some name) (Some sc) p q)
  | Remove s => here v no_value (et_station_remove conductors d s)
  | Attach pid host ip s =>
      '(err, att, d) ← et_station_attach d s true;
      v ← note_attachment (v <| v_id := d |>) pid host ip err att; Ret (err, option_map VInt att, v)
  | Detach att =>
      '(err, _, d) ← et_station_detach d att;
      let v := v <| v_id := d |> in
      v ← (if err =? ET_OK then attaches ← aset (v_attaches v) att (-1); Ret (v <| v_attaches := attaches |>) else Ret v);
      Ret (err, None, v)
  | GetPosition s => here v (λ '(p, q), VPlace p q) (et_station_getposition d s)
  | IsAttached s att => here v no_value (et_station_isattached d s att)
  | Exists name => here v VInt (et_station_exists d (Some name) true)
  | Number n s => here v VInt (local_number n d s true)
  | ChangeSetting c s => here v no_value (run_setting c d s)
  | GetWords s => here v VInts (et_station_getselectwords d s true)
  | Name n s => here v VName (local_name n d s true)
  | Count n att => here v VInt (local_count n d att true)
  | SystemNumber n => let '(err, out) := local_system n v in Ret (err, option_map VInt out, v)
  | GetHistogram =>
      let '(err, hist) := et_data_gethistogram d true (y_nevents (d_sys d) + 1) in Ret (err, option_map VInts hist, v)
  end.

(** The arguments are ints and strings for their arrays. *)
Definition call_ok (call : rcall) : Prop :=
  match call with
  | IsAlive | WaitForAlive | SystemNumber _ | GetHistogram => True
  | WakeUp x | WakeUpAll x | Remove x | Detach x | GetPosition x | Number _ x | GetWords x | Name _ x | Count _ x => int_ok x
  | CreateAt name sc p q => string_fits ET_STATNAME_LENGTH name ∧ config_fits sc ∧ int_ok p ∧ int_ok q
  | Attach pid host ip s =>
      int_ok pid ∧ int_ok s ∧ option_fits ET_MAXHOSTNAMELEN host ∧ option_fits ET_IPADDRSTRLEN ip
  | IsAttached s att => int_ok s ∧ int_ok att
  | Exists name => string_fits ET_STATNAME_LENGTH name
  | ChangeSetting c s => int_ok s ∧ setting_ok c
  end.

(** The statuses with which a value comes. *)
Definition gives (call : rcall) (err : Z) : bool :=
  match call with
  | CreateAt _ _ _ _ => (err =? ET_OK) || (err =? ET_ERROR_EXISTS)
  | Exists _ => err =? 1
  | _ => err =? ET_OK
  end.

(** What arrives of a value: ints, or [junk] where none was stored. *)
Definition arrives (call : rcall) (out : option value) : option value :=
  match call, out with
  | (CreateAt _ _ _ _ | Attach _ _ _ _ | Exists _ | Number _ _ | SystemNumber _), Some (VInt x) => Some (VInt (s32 x))
  | (CreateAt _ _ _ _ | Attach _ _ _ _ | Exists _ | Number _ _ | SystemNumber _), None => Some (VInt (s32 junk))
  | GetPosition _, Some (VPlace p q) => Some (VPlace (s32 p) (Some (s32 (default junk q))))
  | GetPosition _, None => Some (VPlace (s32 junk) (Some (s32 junk)))
  | GetWords _, Some (VInts l) => Some (VInts (s32 <$> take 6 (l ++ replicate 6 junk)))
  | GetWords _, None => Some (VInts (replicate 6 (s32 junk)))
  | Count _ _, Some (VInt x) => Some (VInt (u64 x))
  | Count _ _, None => Some (VInt (u64 junk))
  | Name _ _, out => out
  | GetHistogram, Some (VInts l) => Some (VInts (s32 <$> l))
  | _, _ => None
  end.

(** ** Each call *)

Lemma status_call {A} v request (r : res (Z * option A * et_id)) :
  request ≠ [] → served v request (called v r send_none) →
  ask_status (idle v) request = '(err, _, d) ← r; Ret (s32 err, None, idle (v <| v_id := d |>)).
Proof.
  intros Hne Hs. unfold conn. rewrite (ask_status_link _ _ _ _ _ v request _ Hne Hs).
  - unfold called. by destruct r as [[[err out] d]| | |].
  - intros err vals v'. unfold called. destruct r as [[[e out] d]| | |]; try done. by intros [= _ <- _].
Qed.

Lemma value_call {A B} v request (r : res (Z * option A * et_id)) send n good (store : list Z → B) :
  request ≠ [] → served v request (called v r send) → (∀ out, length (send out) = n) →
  ask_values good (Z.of_nat n) store (idle v) request true =
    '(err, out, d) ← r; Ret (s32 err, if good (s32 err) then Some (store (ints (err :: send out))) else None, idle (v <| v_id := d |>)).
Proof.
  intros Hne Hs Hl. unfold conn. rewrite (ask_values_link _ _ _ _ _ good n store v request true _ Hne Hs).
  - unfold called. destruct r as [[[err out] d]| | |]; try done. step. by rewrite andb_true_r.
  - intros err vals v'. unfold called. destruct r as [[[e out] d]| | |]; try done. intros [= _ <- _]. apply Hl.
Qed.

Lemma first_int_ints err x l : first_int (ints (err :: x :: l)) = s32 x.
Proof. unfold first_int. by rewrite (word_ints _ 1 x), s32_u32. Qed.

Lemma request_nonempty x l : ints (x :: l) ≠ [].
Proof. rewrite <- (app_nil_r (ints (x :: l))). apply ints_nonempty. Qed.

Lemma int_call v request (r : res (Z * option Z * et_id)) good :
  request ≠ [] → served v request (called v r (send_int junk)) →
  wrap VInt (ask_values good 1 first_int (idle v) request true) =
    '(err, out, v') ← here v VInt r;
    Ret (s32 err, if good (s32 err) then Some (VInt (s32 (match out with Some (VInt x) => x | _ => junk end))) else None, idle v').
Proof.
  intros Hne Hs. pose proof (value_call v request r (send_int junk) 1 good first_int Hne Hs (λ _, eq_refl)) as E.
  change (Z.of_nat 1) with 1 in E. rewrite E. clear E.
  unfold here. destruct r as [[[err out] d]| | |]; try done. step. unfold wrap. step. f_equal. f_equal. f_equal.
  destruct (good (s32 err)); [|done]. cbn [option_map]. unfold send_int. rewrite first_int_ints. by destruct out.
Qed.

(** The attachment calls, whose server part changes more than the system. *)
Lemma attach_call_remote v pid host ip stat_id :
  call_ok (Attach pid host ip stat_id) →
  run_remote 0 (Attach pid host ip stat_id) (idle v) =
    '(err, out, v') ← run_local (Attach pid host ip stat_id) v;
    Ret (s32 err, if gives (Attach pid host ip stat_id) (s32 err) then arrives (Attach pid host ip stat_id) out else None, idle v').
Proof.
  intros (H1 & H2 & H3 & H4). cbn [run_remote run_local gives arrives]. unfold etr_station_attach, conn. cbn [negb].
  pose proof (ask_values_link starts allocated conductors junk elsewhere good_status 1 first_int v
    (ints [ET_NET_STAT_ATT; stat_id; pid; sent_length host; sent_length ip] ++ sent_bytes host ++ sent_bytes ip) true
    (attached junk v stat_id pid host ip)) as E.
  change (Z.of_nat 1) with 1 in E. rewrite E; clear E.
  - unfold attached. destruct (et_station_attach (v_id v) stat_id true) as [[[err out] d]| | |]; try done. step.
    destruct (note_attachment _ pid host ip err out) as [v'| | |]; try done. step. unfold wrap. step. rewrite andb_true_r.
    f_equal. f_equal. f_equal. unfold good_status. destruct (_ =? ET_OK); [|done]. cbn [option_map]. rewrite first_int_ints. by destruct out.
  - apply ints_nonempty.
  - by apply serve_attach_ok.
  - intros err vals v'. unfold attached. destruct (et_station_attach (v_id v) stat_id true) as [[[e out] d]| | |]; try done. step.
    destruct (note_attachment _ pid host ip e out); try done. by intros [= _ <- _].
Qed.

Lemma detach_call_remote v att :
  int_ok att → wrap no_value (etr_station_detach (idle v) att) =
    '(err, out, v') ← run_local (Detach att) v; Ret (s32 err, None, idle v').
Proof.
  intros Hi. unfold etr_station_detach, conn. rewrite (ask_status_link _ _ _ _ _ v _ (detached v att)).
  - cbn [run_local]. unfold detached. destruct (et_station_detach (v_id v) att) as [[[err out] d]| | |]; try done. cbv zeta. step.
    destruct (err =? ET_OK); [|done]. by destruct (aset _ att (-1)).
  - apply request_nonempty.
  - by apply serve_detach_ok.
  - intros err vals v'. unfold detached. destruct (et_station_detach (v_id v) att) as [[[e out] d]| | |]; try done. cbv zeta. step.
    destruct (e =? ET_OK); [destruct (aset _ att (-1)); try done|]; by intros [= _ <- _].
Qed.

(** Values that are wrapped and arrive. *)
Notation equals_local call n v := (run_remote n call (idle v) =
  '(err, out, v') ← run_local call v; Ret (s32 err, if gives call (s32 err) then arrives call out else None, idle v')) (only parsing).

Lemma status_equals {A} v request (r : res (Z * option A * et_id)) :
  request ≠ [] → served v request (called v r send_none) →
  wrap no_value (ask_status (idle v) request) = '(err, out, v') ← here v no_value r; Ret (s32 err, None, idle v').
Proof. intros Hne Hs. rewrite (status_call v request r Hne Hs). unfold here. by destruct r as [[[err out] d]| | |]. Qed.

Lemma getposition_equals v stat_id n : int_ok stat_id → equals_local (GetPosition stat_id) n v.
Proof.
  intros Hi. cbn [run_remote run_local gives arrives]. unfold etr_station_getposition.
  set (r := et_station_getposition (v_id v) stat_id).
  pose proof (value_call v _ r (send_place junk) 2 good_status (λ b, (s32 (word b 1), s32 (word b 2)))
    (request_nonempty _ _) (serve_getposition starts allocated conductors junk elsewhere v stat_id Hi)) as E.
  change (Z.of_nat 2) with 2 in E. rewrite E by (by intros [[? ?]|]). clear E.
  unfold here. destruct r as [[[err out] d]| | |]; try done. step. unfold wrap. step. f_equal. f_equal. f_equal.
  unfold good_status. destruct (_ =? ET_OK); [|done]. destruct out as [[p q]|]; cbn [option_map send_place].
  - by rewrite (word_ints _ 1 p), (word_ints _ 2 (default junk q)), !s32_u32.
  - by rewrite (word_ints _ 1 junk), (word_ints _ 2 junk), !s32_u32.
Qed.

Lemma words_of_ints l n : n = length l → words n (ints l) = u32 <$> l.
Proof. intros ->. rewrite <- (app_nil_r (ints l)). apply words_ints. Qed.

Lemma s32_map (l : list Z) : s32 <$> (u32 <$> l) = s32 <$> l.
Proof. rewrite <- list_fmap_compose. apply list_fmap_ext. intros _ x _. apply s32_u32. Qed.

Lemma getwords_equals v stat_id n : int_ok stat_id → equals_local (GetWords stat_id) n v.
Proof.
  intros Hi. cbn [run_remote run_local gives arrives]. unfold etr_station_getselectwords.
  set (r := et_station_getselectwords (v_id v) stat_id true).
  assert (∀ out, length (send_words junk out) = 6%nat) as Hl.
  { intros out. unfold send_words. rewrite length_take, length_app, length_replicate. lia. }
  pose proof (value_call v _ r (send_words junk) 6 good_status (λ b, s32 <$> tail (words 7 b))
    (request_nonempty _ _) (serve_getwords starts allocated conductors junk elsewhere v stat_id Hi) Hl) as E.
  change (Z.of_nat 6) with 6 in E. rewrite E. clear E.
  unfold here. destruct r as [[[err out] d]| | |]; try done. step. unfold wrap. step. f_equal. f_equal. f_equal.
  unfold good_status. destruct (_ =? ET_OK); [|done].
  rewrite words_of_ints by (cbn [length]; by rewrite Hl). cbn [fmap list_fmap tail option_map]. rewrite s32_map. by destruct out.
Qed.

Lemma count_equals v k att n : int_ok att → equals_local (Count k att) n v.
Proof.
  intros Hi. set (r := local_count k (v_id v) att true).
  pose proof (value_call v _ r (send_count junk) 2 good_status (λ b, ET_64BIT_UINT (word b 1) (word b 2))
    (request_nonempty _ _) (serve_count starts allocated conductors junk elsewhere v k att Hi) (λ _, eq_refl)) as E.
  change (Z.of_nat 2) with 2 in E.
  assert (remote_count k (idle v) att true = ask_values good_status 2 (λ b, ET_64BIT_UINT (word b 1) (word b 2)) (idle v)
            (ints [count_command k; att]) true) as H by by destruct k.
  cbn [run_remote run_local gives arrives]. rewrite H, E. clear E H. fold r.
  unfold here. destruct r as [[[err out] d]| | |]; try done. step. unfold wrap. step. f_equal. f_equal. f_equal.
  unfold good_status. destruct (_ =? ET_OK); [|done]. unfold send_count. cbn [option_map].
  rewrite (word_ints _ 1 (ET_HIGHINT (default junk out))), (word_ints _ 2 (ET_LOWINT (default junk out))) by done.
  rewrite !u32_id by (apply u32_range). rewrite halves. by destruct out.
Qed.

Lemma number_equals v k stat_id n : int_ok stat_id → equals_local (Number k stat_id) n v.
Proof.
  intros Hi. cbn [run_remote run_local gives arrives].
  assert (remote_number k (idle v) stat_id true = ask_values good_status 1 first_int (idle v) (ints [number_command k; stat_id]) true)
    as -> by by destruct k.
  rewrite (int_call v _ (local_number k (v_id v) stat_id true)).
  - unfold here. destruct (local_number k (v_id v) stat_id true) as [[[err out] d]| | |]; try done. by destruct out.
  - apply request_nonempty.
  - by apply serve_number.
Qed.

Lemma system_equals v k n : equals_local (SystemNumber k) n v.
Proof.
  cbn [run_remote run_local gives arrives].
  assert (remote_system k (idle v) true = ask_values good_status 1 first_int (idle v) (ints [system_command k]) true)
    as -> by by destruct k.
  pose proof (ask_values_link starts allocated conductors junk elsewhere good_status 1 first_int v (ints [system_command k]) true
    (let '(err, out) := local_system k v in Ret (err, send_int junk out, v)) (request_nonempty _ _)
    (serve_system starts allocated conductors junk elsewhere v k)) as E.
  change (Z.of_nat 1) with 1 in E. unfold conn. rewrite E; clear E.
  - destruct (local_system k v) as [err out]. step. unfold wrap. step. f_equal. f_equal. f_equal. unfold good_status. rewrite andb_true_r.
    destruct (_ =? ET_OK); [|done]. cbn [option_map]. unfold send_int. rewrite first_int_ints. by destruct out.
  - intros err vals v'. destruct (local_system k v). by intros [= _ <- _].
Qed.

(** The histogram has a count for each number of events. *)
Definition histogram_ok (y : et_system) : Prop := 0 ≤ y_nevents y ∧ Z.of_nat (length (y_histogram y)) = y_nevents y + 1.

Lemma histogram_equals v n : n = y_nevents (d_sys (v_id v)) → histogram_ok (d_sys (v_id v)) → equals_local GetHistogram n v.
Proof.
  intros -> [Hn Hh]. set (y := d_sys (v_id v)) in *. cbn [run_remote run_local gives arrives]. fold y.
  assert (et_data_gethistogram (v_id v) true (y_nevents y + 1) = (ET_OK, Some (y_histogram y))) as Hd.
  { unfold et_data_gethistogram. cbn [negb]. fold y. replace (_ <? 1) with false by (symmetry; apply Z.ltb_ge; lia).
    replace (_ <? _) with false by (symmetry; apply Z.ltb_ge; lia). rewrite take_ge by lia. done. }
  pose proof (serve_histogram_ok starts allocated conductors junk elsewhere v) as Hs. unfold EtRemoteSpec.served in Hs. fold y in Hs.
  rewrite Hd in Hs |- *. cbn [negb Z.eqb ET_OK default] in Hs. revert Hs. step. intros Hs.
  unfold etr_data_gethistogram, idle, conn. cbn [r_sock r_mutex]. unfold etNetTcpWrite, link_conn. cbn [k_on k_server k_inbox negb].
  rewrite command_once; [|apply request_nonempty|].
  2: { intros t. rewrite Hs. by intros [= <-]. }
  rewrite Hs. unfold answer. step. cbn [t_out t_server t_on app k_inbox negb r_mutex r_sock]. step. cbn [negb].
  unfold etNetTcpRead, link_conn. cbn [k_inbox k_on k_server]. change (4 <? 0) with false. cbv iota.
  change (ints (ET_OK :: id (y_histogram y))) with (be32 ET_OK ++ ints (y_histogram y)).
  rewrite length_app, length_be32, length_ints. replace (4 <=? _) with true by (symmetry; apply Z.leb_le; lia). step.
  change (Z.to_nat 4) with 4%nat.
  rewrite (take_app_length' (be32 ET_OK) (ints (y_histogram y)) 4), (drop_app_length' (be32 ET_OK) (ints (y_histogram y)) 4) by done.
  change (s32 (word (be32 ET_OK) 0)) with 0. cbn [Z.eqb ET_OK negb].
  replace (y_nevents y + 1 <? y_nevents y + 1) with false by (symmetry; apply Z.ltb_ge; lia).
  cbn [k_inbox k_on k_server]. replace (4 * (y_nevents y + 1) <? 0) with false by (symmetry; apply Z.ltb_ge; lia).
  rewrite length_ints. replace (4 * (y_nevents y + 1) <=? _) with true by (symmetry; apply Z.leb_le; lia). step.
  rewrite take_ge, drop_ge by (rewrite length_ints; lia). rewrite words_of_ints by lia. rewrite s32_map. done.
Qed.

Lemma name_equals v k stat_id n : int_ok stat_id → names_fit (d_sys (v_id v)) → equals_local (Name k stat_id) n v.
Proof.
  intros Hi Hf. cbn [run_remote run_local gives arrives].
  assert (remote_name k (idle v) stat_id true = etr_station_getname (name_command k) (name_cap k) (idle v) stat_id true) as -> by by destruct k.
  unfold etr_station_getname, conn.
  rewrite (ask_bytes _ _ _ _ _ v _ 8 (name_answer k v stat_id)); [|apply request_nonempty|by apply serve_name_ok|lia|].
  2: { intros out v'. unfold name_answer. destruct (local_name k (v_id v) stat_id true) as [[[err name] d]| | |]; try done. step.
    destruct (negb _); [by intros [= <- _]|]. destruct name as [s|]; [|done]. step. intros [= <- _].
    cbn [length]. lia. }
  unfold name_answer, here. destruct (local_name k (v_id v) stat_id true) as [[[err name] d]| | |] eqn:Hr; try done. step.
  destruct (local_name_fits k _ _ _ _ _ Hf Hr) as [He Hn]. rewrite (s32_int err He).
  destruct (err =? ET_OK) eqn:E; cbn [negb].
  - apply Z.eqb_eq in E as ->. destruct (Hn eq_refl) as (s & -> & Hs). step. pose proof (name_cap_small k) as Hcap.
    pose proof (string_length_val _ _ Hs ltac:(lia)) as Hlen. change (Z.to_nat 8) with 8%nat.
    rewrite take_app_length', drop_app_length' by by rewrite length_ints.
    rewrite (word_ints _ 0 ET_OK), (word_ints _ 1 (string_length s)) by done. rewrite !s32_u32. change (s32 ET_OK) with 0. cbn [Z.eqb ET_OK negb].
    destruct Hs as [Hs1 Hs2]. rewrite s32_int by (rewrite Hlen; split; lia).
    replace (name_cap k <? _) with false by (symmetry; apply Z.ltb_ge; lia).
    unfold etNetTcpRead, link_conn. cbn [r_sock k_inbox k_on k_server]. replace (_ <? 0) with false by (symmetry; apply Z.ltb_ge; lia).
    unfold string_bytes. rewrite length_app. cbn [length]. replace (_ <=? _) with true by (symmetry; apply Z.leb_le; lia). step.
    rewrite take_ge, drop_ge by (rewrite length_app; cbn [length]; lia). rewrite c_string_ok by done. done.
  - step. change (Z.to_nat 8) with 8%nat. rewrite take_ge, drop_ge by by rewrite length_ints.
    rewrite (word_ints _ 0 err) by done. rewrite s32_u32, s32_int by done. rewrite E. done.
Qed.

Lemma alive_equals v n : equals_local IsAlive n v.
Proof.
  cbn [run_remote run_local gives arrives]. unfold etr_alive, conn.
  rewrite (ask_link _ _ _ _ _ v _ 4 (Ret (1, [], v))); [done|apply request_nonempty|apply serve_alive|done|].
  by intros err vals v' [= _ <- _].
Qed.

Lemma wait_equals v n : equals_local WaitForAlive n v.
Proof.
  cbn [run_remote run_local gives arrives]. unfold etr_wait_for_alive, conn.
  rewrite (ask_link _ _ _ _ _ v _ 4 (Ret (ET_OK, [], v))); [done|apply request_nonempty|apply serve_wait|done|].
  by intros err vals v' [= _ <- _].
Qed.

Lemma wake_equals v att n : int_ok att → equals_local (WakeUp att) n v.
Proof.
  intros Hi. cbn [run_remote run_local gives arrives]. unfold etr_wakeup_attachment, conn.
  rewrite (tell_link _ _ _ _ _ v _ ('(_, _, d) ← et_wakeup_attachment (v_id v) att; Ret (v <| v_id := d |>)));
    [|apply request_nonempty|by apply serve_wake_att].
  unfold here. by destruct (et_wakeup_attachment (v_id v) att) as [[[err out] d]| | |].
Qed.

Lemma wake_all_equals v stat_id n : int_ok stat_id → equals_local (WakeUpAll stat_id) n v.
Proof.
  intros Hi. cbn [run_remote run_local gives arrives]. unfold etr_wakeup_all, conn.
  rewrite (tell_link _ _ _ _ _ v _ ('(_, _, d) ← et_wakeup_all (v_id v) stat_id; Ret (v <| v_id := d |>)));
    [|apply request_nonempty|by apply serve_wake_all].
  unfold here. by destruct (et_wakeup_all (v_id v) stat_id) as [[[err out] d]| | |].
Qed.

(** Calls whose answer is a status. *)
Lemma plain_equals {A} call n v request (r : res (Z * option A * et_id)) :
  run_remote n call (idle v) = wrap no_value (ask_status (idle v) request) → run_local call v = here v no_value r →
  (∀ err out, (if gives call err then arrives call out else None) = None) →
  request ≠ [] → served v request (called v r send_none) → equals_local call n v.
Proof.
  intros -> -> Hnone Hne Hs. rewrite (status_equals v request r Hne Hs). apply bind_ext. intros [[err out] v']. by rewrite Hnone.
Qed.

Lemma setting_equals v c stat_id n : int_ok stat_id → setting_ok c → equals_local (ChangeSetting c stat_id) n v.
Proof.
  intros Hi Hc. apply (plain_equals _ n v (ints (setting_request c stat_id)) (run_setting c (v_id v) stat_id)); [by destruct c|done| | |by apply serve_setting].
  - intros err out. by destruct (gives _ _).
  - destruct c; apply request_nonempty.
Qed.

Lemma create_equals v name sc p q n : call_ok (CreateAt name sc p q) → equals_local (CreateAt name sc p q) n v.
Proof.
  intros (H1 & H2 & H3 & H4). cbn [run_remote run_local gives arrives]. unfold etr_station_create_at. cbn [negb].
  rewrite (int_call v _ (et_station_create_at starts allocated (v_id v) (Some name) (Some sc) p q)).
  - unfold here. destruct (et_station_create_at _ _ _ _ _ _ _) as [[[err out] d]| | |]; try done. by destruct out.
  - apply ints_nonempty.
  - by apply serve_create_ok.
Qed.

Lemma exists_equals v name n : string_fits ET_STATNAME_LENGTH name → equals_local (Exists name) n v.
Proof.
  intros H. cbn [run_remote run_local gives arrives]. unfold etr_station_exists. cbn [negb].
  rewrite (int_call v _ (et_station_exists (v_id v) (Some name) true)).
  - unfold here. destruct (et_station_exists _ _ _) as [[[err out] d]| | |]; try done. by destruct out.
  - apply ints_nonempty.
  - by apply serve_exists_ok.
Qed.

Lemma call_equals call n v :
  call_ok call → names_fit (d_sys (v_id v)) → histogram_ok (d_sys (v_id v)) → n = y_nevents (d_sys (v_id v)) → equals_local call n v.
Proof.
  intros Hc Hf Hh Hn. destruct call; cbn [call_ok] in Hc.
  - apply alive_equals.
  - apply wait_equals.
  - by apply wake_equals.
  - by apply wake_all_equals.
  - by apply create_equals.
  - apply (plain_equals _ n v (ints [ET_NET_STAT_RM; stat_id]) (et_station_remove conductors (v_id v) stat_id)); [done|done|intros ? ?; by destruct (gives _ _)|apply request_nonempty|by apply serve_remove].
  - exact (attach_call_remote v pid host ip stat_id Hc).
  - cbn [run_remote gives arrives]. rewrite (detach_call_remote v att Hc). apply bind_ext. intros [[err out] v']. by destruct (_ =? ET_OK).
  - by apply getposition_equals.
  - destruct Hc. apply (plain_equals _ n v (ints [ET_NET_STAT_ISAT; stat_id; att]) (et_station_isattached (v_id v) stat_id att)); [done|done|intros ? ?; by destruct (gives _ _)|apply request_nonempty|by apply serve_isattached].
  - by apply exists_equals.
  - by apply number_equals.
  - by apply setting_equals; [apply Hc|apply Hc].
  - by apply getwords_equals.
  - by apply name_equals.
  - by apply count_equals.
  - apply system_equals.
  - by apply histogram_equals.
Qed.
End Calls.

(** ** The theorems *)

(** A value that C's types can hold. *)
Definition value_fits (call : rcall) (out : option value) : Prop :=
  match call, out with
  | (CreateAt _ _ _ _ | Attach _ _ _ _ | Exists _ | Number _ _ | SystemNumber _), Some (VInt x) => int_ok x
  | GetPosition _, Some (VPlace p (Some q)) => int_ok p ∧ int_ok q
  | GetWords _, Some (VInts l) => length l = 6%nat ∧ Forall int_ok l
  | Count _ _, Some (VInt x) => 0 ≤ x < 18446744073709551616
  | Name _ _, _ => True
  | GetHistogram, Some (VInts l) => Forall int_ok l
  | (CreateAt _ _ _ _ | Attach _ _ _ _ | Exists _ | Number _ _ | SystemNumber _ | GetPosition _ | GetWords _ | Count _ _ | GetHistogram), _ => False
  | _, _ => out = None
  end.

Lemma ints_id (l : list Z) : Forall int_ok l → s32 <$> l = l.
Proof. induction 1 as [|x l Hx _ IH]; [done|]. cbn [fmap list_fmap]. by rewrite s32_int, IH. Qed.

Lemma arrives_fits junk call out : value_fits call out → arrives junk call out = out.
Proof.
  destruct call; cbn [value_fits]; try (intros ->; done); destruct out as [[x|p [q|]|l|s]|]; try done; cbn [arrives]; intros H.
  all: try (by rewrite s32_int).
  - destruct H as [H1 H2]. cbn [default]. by rewrite !s32_int.
  - destruct H as [Hl H]. rewrite take_app_le, take_ge by lia. by rewrite ints_id.
  - by rewrite u64_id.
  - by rewrite ints_id.
Qed.


(** ** Examples *)

Definition thread : server :=
  mkServer manager (mkInfo 7 4242 2 10) (replicate 100 (-1)) (replicate 100 (mkOrigin 0 [] [])) ∅ [] true.
Definition far (n : Z) (call : rcall) : res (Z * option value * remote_id link) :=
  run_remote (λ _, true) true (λ _ y, y) (-77) (λ _ v b, at_end v b) n call (idle thread).

Lemma thread_names : names_fit (d_sys (v_id thread)).
Proof.
  change (Forall (λ s, string_fits ET_FUNCNAME_LENGTH (c_fname (s_config s)) ∧ string_fits ET_FILENAME_LENGTH (c_lib (s_config s)) ∧
    string_fits ET_FILENAME_LENGTH (c_classs (s_config s))) (y_stats hall)).
  unfold hall, desk. cbn. do 5 (constructor; [split_and!; (split; [constructor|done])|]). constructor.
Qed.


(** C39: a remote process cannot say where a station should move: the function stores the
    position in the group in the place of the position in the main list, and sends an
    integer that is not set, so that the system is asked to move the station to the
    position [q] and the parallel position [junk], whatever [p] is. *)
Theorem remote_setposition_ignores_position starts allocated conductors junk elsewhere unset v stat_id p q :
  int_ok stat_id → int_ok q → int_ok unset →
  @etr_station_setposition link (link_conn starts allocated conductors junk elsewhere) unset (idle v) stat_id p q =
    '(err, _, d) ← et_station_setposition (v_id v) stat_id q unset; Ret (s32 err, None, idle (v <| v_id := d |>)).
Proof.
  intros H1 H2 H3. unfold etr_station_setposition.
  exact (status_call starts allocated conductors junk elsewhere v _ (et_station_setposition (v_id v) stat_id q unset)
    (request_nonempty _ _) (serve_setposition starts allocated conductors junk elsewhere v stat_id q unset H1 H2 H3)).
Qed.

(** The local call moves the station before the other one; the remote one is refused. *)
Lemma remote_setposition_ignores_position_witness :
  (∃ d, et_station_setposition (v_id thread) 2 1 0 = Ret (ET_OK, None, d)) ∧
  @etr_station_setposition link (link_conn (λ _, true) true (λ _ y, y) (-77) (λ _ v b, at_end v b)) 5 (idle thread) 2 1 0 =
    Ret (ET_ERROR, None, idle thread).
Proof.
  split; [eexists; vm_compute; reflexivity|].
  rewrite (remote_setposition_ignores_position (λ _, true) true (λ _ y, y) (-77) (λ _ v b, at_end v b) 5 thread 2 1 0) by (split; lia).
  vm_compute. reflexivity.
Defined.
