(* ===== verification/EtRemoteEvents.v ===== *)
(** * Remote calls for events are local calls

    A remote process that asks for events gets copies of those that the same call gives a
    process of the system, after as many short waits as its time allows; what it sends back
    is what a local process writes into the shared memory and puts. *)

From S2P Require Import Prelude Words EtTypes EtLists EtConductor EtAccess EtWaiting EtDetached EtStations EtEventCalls.
From S2P Require Import EtNet EtSettings EtRemote EtEventNet EtServer EtEventServer EtEventRemote EtRemoteSpec EtEventLink EtLife.

(** There is memory for whatever the process asks for. *)
Record all_fit (ms : mallocs) : Prop := {
  fit_array : array_fits ms = true; fit_places : places_fit ms = true;
  fit_events : ∀ i, event_fits ms i = true; fit_data : ∀ i, data_fits ms i = true;
  fit_unset : ∀ n, length (unset ms n) = Z.to_nat n
}.

(** One round: what the server does with a request for a wait of this mode and time. *)
Definition asked (att wait : Z) (deltatime : option (Z * Z)) (call : waiting_call) (v : server)
  : res (Z * option (list nat) * server) :=
  let '(sec, nsec) := default (0, 0) deltatime in wait_once v att wait (u32 sec) (u32 nsec) call.

(** All the rounds of a call with this mode and time. *)
Definition rounds (att mode : Z) (deltatime : option (Z * Z)) (call : waiting_call) (v : server) (fuel : nat)
  : res (Z * option (list nat) * server) :=
  '(netWait, dt, iterations) ← net_wait mode deltatime;
  repeated (asked att netWait dt call) v (wait_of mode) iterations fuel.

Lemma net_wait_cases mode dt : net_wait mode dt = Undef ∨
  ∃ w dt' it, net_wait mode dt = Ret (w, dt', it) ∧ int_ok w ∧ w ≠ ET_SLEEP.
Proof.
  unfold net_wait. destruct (Z.eqb_spec (wait_of mode) ET_TIMED) as [E|E].
  - destruct dt as [[sec nsec]|]; [|by left]. step. destruct (_ || _); [by left|]. right.
    destruct (_ <? _); eexists _, _, _; (split_and!; [reflexivity|split; unfold ET_TIMED; lia|done]).
  - destruct (Z.eqb_spec (wait_of mode) ET_SLEEP) as [E'|E']; right; eexists _, _, _; (split_and!; [reflexivity| |]).
    + split; unfold ET_TIMED; lia.
    + done.
    + unfold wait_of, ET_WAIT_MASK. change 3 with (Z.ones 2). rewrite Z.land_ones by lia.
      pose proof (Z.mod_pos_bound mode (2 ^ 2)). split; lia.
    + done.
Qed.

Lemma time_words_default dt : time_words dt = [(default (0, 0) dt).1; (default (0, 0) dt).2].
Proof. by destruct dt as [[sec nsec]|]. Qed.

Lemma asked_eq att wait dt call :
  asked att wait dt call = λ v, wait_once v att wait (u32 (default (0, 0) dt).1) (u32 (default (0, 0) dt).2) call.
Proof. unfold asked. by destruct (default (0, 0) dt). Qed.

Section Calls.
  Context (starts : et_station → bool) (allocated : bool) (conductors : nat → et_system → et_system) (junk : Z).
  Context (os : answers) (memory : nat → Z → list Z) (elsewhere : Z → server → list Z → res turn).
  Context (ms : mallocs) (esize : Z).
#[local] Instance conn : Conn link := link_conn starts allocated conductors junk (serve_events os memory elsewhere).

(** ** New events *)

Inductive new_call := NewOne (size : Z) | NewMany (size num : Z) | NewGroup (size num group : Z).

Definition new_call_size (call : new_call) : Z := match call with NewOne s | NewMany s _ | NewGroup s _ _ => s end.
Definition new_call_ok (call : new_call) : Prop :=
  size_ok (new_call_size call) ∧
  match call with NewOne _ => True | NewMany _ n => int_ok n | NewGroup _ n g => int_ok n ∧ int_ok g end.

Definition local_new (call : new_call) (att : Z) : waiting_call := λ d mode dt ws naps,
  match call with
  | NewOne size => et_event_new os d att true mode dt size ws naps
  | NewMany size num => et_events_new os d att true mode dt size num ws naps
  | NewGroup size num group => et_events_new_group os d att true mode dt size num group ws naps
  end.

Definition remote_new (call : new_call) (c : remote_id link) (att mode : Z) (dt : option (Z * Z)) (fuel : nat)
  : res (Z * option (list revent) * remote_id link) :=
  match call with
  | NewOne size => '(err, e, c) ← etr_event_new ms esize c att mode dt size fuel; Ret (err, option_map (λ e, [e]) e, c)
  | NewMany size num => etr_events_new ms esize c att mode dt size num fuel
  | NewGroup size num group => etr_events_new_group ms esize c att mode dt size num group fuel
  end.

(** A new event in the memory of the process: its place, the size asked for, memory of at
    least the size of the system's events, and that it is to be sent back as a whole. *)
Record blank_event (mode size : Z) (x : nat) (e : revent) : Prop := {
  be_place : re_place e = Z.of_nat x; be_order : re_byteorder e = local_order;
  be_length : e_length (re_event e) = size; be_memsize : e_memsize (re_event e) = Z.max size esize;
  be_temp : e_temp (re_event e) = ET_EVENT_TEMP ↔ esize < size; be_modify : e_modify (re_event e) = ET_MODIFY;
  be_data : if Z.land mode ET_NOALLOC =? 0
            then ∃ data, re_data e = Some data ∧ length data = Z.to_nat (Z.max size esize)
            else re_data e = None ∧ users_buffer e = true
}.

Definition places_ok (pe : list nat) : Prop := Forall (λ x, int_ok (Z.of_nat x)) pe.

Lemma new_event_ok i mode size x : all_fit ms →
  ∃ e, new_event ms esize i mode size (Z.of_nat x) = Some e ∧ blank_event mode size x e.
Proof.
  intros [_ _ He Hd Hu]. unfold new_event. rewrite He, Hd. cbn [negb]. rewrite andb_false_r. eexists. split; [reflexivity|].
  assert (new_size esize size = Z.max size esize) as Hs.
  { unfold new_size. destruct (Z.ltb_spec esize size); lia. }
  constructor; cbn [re_place re_byteorder re_event re_data]; fields; rewrite ?Hs; try done.
  - destruct (Z.ltb_spec esize size); split; (done || lia).
  - unfold users_buffer. destruct (Z.land mode ET_NOALLOC =? 0); cbn [negb re_data re_event]; fields; [|done].
    eexists. split; [reflexivity|apply Hu].
Qed.

Lemma new_events_ok i mode size pe : all_fit ms →
  ∃ l, new_events ms esize i mode size (Z.of_nat <$> pe) = Some l ∧ Forall2 (blank_event mode size) pe l.
Proof.
  intros Hf. revert i. induction pe as [|x pe IH]; intros i; [by exists []|]. cbn [fmap list_fmap new_events].
  destruct (new_event_ok i mode size x Hf) as (e & -> & He). destruct (IH (S i)) as (l & -> & Hl). exists (e :: l).
  split; [done|by constructor].
Qed.

(** The rounds, and what the process has when they were all refused, or when one succeeded. *)
Definition agrees {A B} (r : res A) (P : A → Prop) (s : res B) : Prop :=
  match r with Ret a => P a | Undef => s = Undef | Blocked => s = Blocked | NoFuel => s = NoFuel end.

Lemma repeated_given num one v wait it fuel : (∀ v, holds (given num) (one v)) → holds (given num) (repeated one v wait it fuel).
Proof.
  intros H. revert v it. induction fuel as [|fuel IH]; intros v it; cbn [repeated]; [done|].
  apply holds_bind. intros [[err pe] v1] Hg%H. destruct (err =? _); [|by apply holds_ret].
  destruct (wait =? _); [apply IH|]. destruct (0 <? it); [apply IH|]. apply holds_ret, given_none. unfold ET_ERROR_TIMEOUT. lia.
Qed.

(** What the process has of new events. *)
Definition made_for_process (one : bool) (mode size : Z) (remote : res (Z * option (list revent) * remote_id link))
    (x : Z * option (list nat) * server) : Prop :=
  let '(err, pe, v1) := x in
  let pe := default [] pe in
  (err ≠ ET_OK → remote = Ret (err, None, idle v1)) ∧
  (err = ET_OK → places_ok pe → (one = true → pe ≠ []) → ∀ v2, keep_modify (new_buffers memory v1 pe) pe ET_MODIFY = Ret v2 →
    ∃ l, remote = Ret (ET_OK, Some l, idle v2) ∧ Forall2 (blank_event mode size) pe l).

Lemma receive_new_link request one mode it size num v fuel :
  request ≠ [] → asks starts allocated conductors junk (serve_events os memory elsewhere) request one (reply_events_new memory) →
  (∀ v, holds (given num) (one v)) → num < 2147483648 → all_fit ms →
  let remote := receive_new ms esize (idle v) request mode it size num fuel in
  agrees (repeated one v (wait_of mode) it fuel) (made_for_process false mode size remote) remote.
Proof.
  intros Hne Ha Hg Hnum Hf remote. subst remote. unfold receive_new, conn.
  rewrite (rounds_link _ _ _ _ _ _ _ num one (reply_events_new memory)); [|done|lia|done|done|by apply replies_events_new].
  pose proof (repeated_given num one v (wait_of mode) it fuel Hg) as Hgr.
  destruct (repeated one v (wait_of mode) it fuel) as [[[err pe] v1]| | |] eqn:Er; try done.
  specialize (Hgr _ eq_refl). destruct Hgr as [He Hpe]. cbn [fst snd] in He, Hpe. step. split; intros Herr.
  - destruct (Z.eqb_spec err ET_ERROR_TIMEOUT) as [->|Hto]; [done|]. unfold reply_events_new.
    replace (err <? 0) with true by (symmetry; apply Z.ltb_lt; unfold ET_OK in Herr; lia). step.
    change (Z.to_nat 4) with 4%nat. rewrite take_ge, drop_ge by (rewrite length_ints; cbn; lia).
    rewrite <- (app_nil_r (ints [err])), word_head, short_status by done.
    replace (err <? 0) with true by (symmetry; apply Z.ltb_lt; unfold ET_OK in Herr; lia). done.
  - intros Hp _ v2 Hk. subst err. change (ET_OK =? ET_ERROR_TIMEOUT) with false. cbv iota. unfold reply_events_new.
    change (ET_OK <? 0) with false. cbv iota zeta. rewrite Hk. step.
    set (n := Z.of_nat (length (default [] pe))) in *. set (places := Z.of_nat <$> default [] pe).
    change (ints (n :: places)) with (be32 n ++ ints places). change (Z.to_nat 4) with 4%nat.
    rewrite take_app_length' by by rewrite length_be32. rewrite drop_app_length' by by rewrite length_be32.
    replace (be32 n) with (ints [n] ++ []) by (by rewrite app_nil_r). rewrite word_head, s32_int by (split; lia).
    replace (n <? 0) with false by (symmetry; apply Z.ltb_ge; lia). destruct Hf as [? Hpl ? ? ?] eqn:Ef. rewrite Hpl. cbn [negb].
    unfold read_more. cbn [r_sock r_mutex]. rewrite <- (app_nil_r (ints places)).
    rewrite link_read by (rewrite length_ints; unfold places; rewrite length_fmap; lia). step.
    replace (Z.max num 0 <? n) with false by (symmetry; apply Z.ltb_ge; lia).
    assert (s32 <$> words (Z.to_nat n) (ints places) = places) as ->.
    { replace (Z.to_nat n) with (length places) by (unfold places; rewrite length_fmap; lia).
      rewrite <- (app_nil_r (ints places)), words_ints. apply s32_ints. unfold places. by apply Forall_fmap. }
    destruct (new_events_ok 0 mode size (default [] pe) Hf) as (l & E & Hl). fold places in E. rewrite E. by exists l.
Qed.

Lemma request_more x l : ints (x :: l) ≠ [].
Proof. rewrite <- (app_nil_r (ints (x :: l))). apply ints_nonempty. Qed.

Lemma event_new_link att mode size dt v fuel : int_ok att → size_ok size → all_fit ms →
  let remote := remote_new (NewOne size) (idle v) att mode dt fuel in
  agrees (rounds att mode dt (local_new (NewOne size) att) v fuel) (made_for_process true mode size remote) remote.
Proof.
  intros Ha Hs Hf remote. subst remote. unfold remote_new, rounds, etr_event_new, conn.
  destruct (net_wait_cases mode dt) as [->|(w & dt' & it & -> & Hw & Hne)]; [done|]. step.
  rewrite time_words_default, asked_eq. cbn [app].
  pose proof (asks_event_new starts allocated conductors junk os memory elsewhere att w size
    (default (0, 0) dt').1 (default (0, 0) dt').2 Ha Hw Hs Hne) as Hask.
  pose proof (rounds_link _ _ _ _ _ _ 12 1 _ _ v (wait_of mode) it fuel (request_more _ _) ltac:(lia) Hask
    (λ v, wait_once_given 1 v _ _ _ _ _ (event_new_given os att size)) (replies_event_new memory)) as Hr.
  unfold EtEventLink.conn in Hr. rewrite Hr. clear Hr.
  pose proof (repeated_given 1 _ v (wait_of mode) it fuel
    (λ v, wait_once_given 1 v att w (u32 (default (0, 0) dt').1) (u32 (default (0, 0) dt').2) _ (event_new_given os att size))) as Hgr.
  unfold local_new. destruct (repeated _ v _ it fuel) as [[[err pe] v1]| | |] eqn:Er; try done.
  specialize (Hgr _ eq_refl). destruct Hgr as [He Hpe]. cbn [fst snd] in He, Hpe. step. split; intros Herr.
  - destruct (Z.eqb_spec err ET_ERROR_TIMEOUT) as [->|Hto]; [done|]. unfold reply_event_new.
    rewrite (proj2 (Z.eqb_neq _ _) Herr). cbn [negb]. step. change (Z.to_nat 12) with 12%nat. rewrite take_ge, drop_ge by (rewrite length_ints; cbn; lia).
    rewrite <- (app_nil_r (ints [err; 0; 0])), word_head, short_status by done. by rewrite (proj2 (Z.eqb_neq _ _) Herr).
  - intros Hp Hx v2 Hk. subst err. change (ET_OK =? ET_ERROR_TIMEOUT) with false. cbv iota. unfold reply_event_new.
    change (ET_OK =? ET_OK) with true. cbv iota. cbn [negb].
    destruct pe as [[|x [|]]|]; [by destruct Hx| |cbn in Hpe; lia|by destruct Hx]. cbn [default mbind option_bind head of_option from_option id] in *.
    step. rewrite Hk. step. change (Z.to_nat 12) with 12%nat. rewrite take_ge, drop_ge by (rewrite length_ints; cbn; lia).
    rewrite <- (app_nil_r (ints _)), word_head. change (s32 ET_OK =? ET_OK) with true. cbn [negb].
    destruct (new_event_ok 0 mode size x Hf) as (e & E & Hb). exists [e]. split; [|by constructor].
    rewrite app_nil_r, (word_ints _ 1 (Z.of_nat x)) by done. apply Forall_inv in Hp. rewrite s32_u32, s32_int, E by done. done.
Qed.

(** C22: calls for new events of a remote process are local calls.  The server makes the call
    that is asked for, again and again for at most .2 seconds when the process sleeps or
    has a long time, and the process gets the status of the last one; and when it is ET_OK,
    an event for each event of the system, with its place, the size asked for, and memory
    for it, while the events in the system are marked as ones that will be modified. *)
Theorem remote_new_is_local call att mode dt v fuel :
  int_ok att → new_call_ok call → all_fit ms →
  let remote := remote_new call (idle v) att mode dt fuel in
  agrees (rounds att mode dt (local_new call att) v fuel)
    (made_for_process (match call with NewOne _ => true | _ => false end) mode (new_call_size call) remote) remote.
Proof.
  intros Ha [Hs Hc] Hf remote. subst remote. destruct call as [size|size num|size num group]; [by apply event_new_link|..];
    unfold remote_new, rounds, etr_events_new, etr_events_new_group; rewrite (fit_array ms Hf); cbn [negb new_call_size] in *;
    (destruct (net_wait_cases mode dt) as [->|(w & dt' & it & -> & Hw & Hne)]; [done|]; step); rewrite time_words_default, asked_eq; cbn [app].
  - apply (receive_new_link _ _ mode it size num v fuel (request_more _ _)); [by apply asks_events_new| |destruct Hc; lia|done].
    intros v'. apply wait_once_given, events_new_given.
  - destruct Hc as [Hn Hg].
    apply (receive_new_link _ _ mode it size num v fuel (request_more _ _)); [by apply asks_events_new_group| |destruct Hn; lia|done].
    intros v'. apply wait_once_given, events_new_group_given.
Qed.

(** ** Getting events *)

Lemma land_bit x k : 0 ≤ k → Z.land x (2 ^ k) = if Z.testbit x k then 2 ^ k else 0.
Proof.
  intros Hk. apply Z.bits_inj'. intros n Hn. rewrite Z.land_spec, Z.pow2_bits_eqb by done.
  destruct (Z.eqb_spec k n) as [<-|Hne].
  - destruct (Z.testbit x k) eqn:E; rewrite ?Z.pow2_bits_true, ?Z.bits_0 by done; done.
  - rewrite andb_false_r. destruct (Z.testbit x k); [by rewrite Z.pow2_bits_false by lia|by rewrite Z.bits_0].
Qed.

(** What the server makes of the bits of the mode. *)
Lemma get_part_bits mode :
  modify_part (get_part mode) = modify_of mode ∧ dumps (get_part mode) = negb (Z.land mode ET_DUMP =? 0) ∧ int_ok (get_part mode).
Proof.
  unfold modify_part, dumps, get_part, modify_of, ET_MODIFY, ET_MODIFY_HEADER, ET_DUMP.
  change 4 with (2 ^ 2). change 8 with (2 ^ 3). change 16 with (2 ^ 4). rewrite !(land_bit mode) by lia.
  destruct (Z.testbit mode 2), (Z.testbit mode 3), (Z.testbit mode 4); (split_and!; [done..|split; done]).
Qed.

Inductive get_call := GetOne | GetMany (num : Z).
Definition get_call_ok (call : get_call) : Prop := match call with GetOne => True | GetMany num => int_ok num end.

Definition local_get (call : get_call) (att : Z) : waiting_call := λ d mode dt ws _,
  match call with
  | GetOne => et_event_get os d att true mode dt ws
  | GetMany num => et_events_get os d att true mode dt num ws
  end.

Definition remote_get (call : get_call) (c : remote_id link) (att mode : Z) (dt : option (Z * Z)) (fuel : nat)
  : res (Z * option (list (option revent)) * remote_id link) :=
  match call with
  | GetOne => '(err, e, c) ← etr_event_get ms c att mode dt fuel; Ret (err, option_map (λ e, [Some e]) e, c)
  | GetMany num => etr_events_get ms c att mode dt num fuel
  end.

(** An event that can be sent: its fields are in their ranges, its data fit into its memory
    and an [int] counts them. *)
Definition in_order (v : server) (x : nat) : Prop :=
  ∃ e b, events_of_system v !! x = Some e ∧ v_buffers v !! x = Some b ∧ sendable e ∧ e_length e ≤ e_memsize e ∧
    e_length e < 2147483648 ∧ length (b_data b) = Z.to_nat (e_memsize e) ∧ int_ok (b_byteorder b) ∧ int_ok (Z.of_nat x).

(** The copy that a process has of an event: its fields, its place and byte order, and its
    data at the start of memory of the same size. *)
Definition copy_of (v : server) (modify : Z) (x : nat) (e : revent) : Prop :=
  ∃ e0 b data, events_of_system v !! x = Some e0 ∧ v_buffers v !! x = Some b ∧
    e = mkRevent (copied e0 modify) (Z.of_nat x) (b_byteorder b) (Some data) ∧
    length data = length (b_data b) ∧ take (Z.to_nat (e_length e0)) data = take (Z.to_nat (e_length e0)) (b_data b).

(** Bytes for an event of [v]. *)
Definition wire (v : server) (x : nat) (l : list Z) : Prop :=
  ∃ e b, events_of_system v !! x = Some e ∧ v_buffers v !! x = Some b ∧
    l = server_header e x (b_byteorder b) ++ take (Z.to_nat (e_length e)) (b_data b).

Lemma length_server_header e x bo : sendable e → length (server_header e x bo) = 60%nat.
Proof. intros [? ? ? ? H ?]. unfold server_header. rewrite !length_app, !length_ints, length_raw. cbn [length]. rewrite H. done. Qed.

Lemma each_modify m pe k m' x e :
  each m pe (λ e, e <| e_modify := k |>) = Ret m' → m !! x = Some e → ∃ k', m' !! x = Some (e <| e_modify := k' |>).
Proof.
  revert m e. induction pe as [|y pe IH]; intros m e; cbn [each].
  - intros [= <-] He. exists (e_modify e). rewrite He. by destruct e.
  - unfold ev_set. step. destruct (m !! y) as [ey|] eqn:Ey; [|done]. step. intros Hm He.
    destruct (decide (x = y)) as [->|Hne].
    + assert (ey = e) as -> by congruence. destruct (IH _ (e <| e_modify := k |>) Hm) as [k' ->]; [by rewrite lookup_insert_eq|].
      by exists k'.
    + apply (IH _ e Hm). by rewrite lookup_insert_ne by done.
Qed.

Lemma keep_modify_lookup v pe k v' :
  keep_modify v pe k = Ret v' →
  v_buffers v' = v_buffers v ∧
  ∀ x e, events_of_system v !! x = Some e → ∃ k', events_of_system v' !! x = Some (e <| e_modify := k' |>).
Proof.
  unfold keep_modify, each_event. destruct (each _ _ _) as [m| | |] eqn:E; try done. step. intros [= <-]. split; [done|].
  intros x e He. by apply (each_modify _ _ _ _ _ _ E).
Qed.

Lemma send_event_ok v v' x : in_order v x → v_buffers v' = v_buffers v →
  (∀ x e, events_of_system v !! x = Some e → ∃ k', events_of_system v' !! x = Some (e <| e_modify := k' |>)) →
  ∃ l, send_event v' x = Ret l ∧ wire v x l.
Proof.
  intros (e & b & He & Hb & Hs & Hl & Hi & Hd & _) HB HE. unfold send_event, ev. step. destruct (HE x e He) as [k' ->]. step.
  rewrite HB, Hb. step. fields. replace (_ <? _) with false by (symmetry; apply Z.ltb_ge; lia).
  eexists. split; [reflexivity|]. by exists e, b.
Qed.

Lemma send_events_ok v v' pe : Forall (in_order v) pe → v_buffers v' = v_buffers v →
  (∀ x e, events_of_system v !! x = Some e → ∃ k', events_of_system v' !! x = Some (e <| e_modify := k' |>)) →
  ∃ bs, send_events v' pe = Ret (concat bs) ∧ Forall2 (wire v) pe bs.
Proof.
  intros Hpe HB HE. induction Hpe as [|x pe Hx _ (bs & E & Hbs)]; [by exists []|]. cbn [send_events].
  destruct (send_event_ok v v' x Hx HB HE) as (l & -> & Hl). step. rewrite E. step. exists (l :: bs). split; [done|by constructor].
Qed.

Notation at_link v l := (mkRemote true (mkLink v true l)).

Lemma read_copy v i x l modify : all_fit ms → in_order v x → wire v x l →
  ∃ h data e, l = h ++ data ∧ length h = 60%nat ∧ copy_of v modify x e ∧
    ∀ v3 r, read_data ms (at_link v3 (data ++ r)) i (client_event h modify) = Ret (ET_OK, Some e, at_link v3 r).
Proof.
  intros Hf (e & b & He & Hb & Hs & Hl & Hi & Hd & Ho & Hx) (e' & b' & He' & Hb' & ->).
  assert (e' = e) as -> by congruence. assert (b' = b) as -> by congruence. clear He' Hb'.
  set (n := Z.to_nat (e_length e)). set (data := take n (b_data b)).
  assert (length data = n) as Hn by (unfold data; rewrite length_take; unfold n; destruct Hs; lia).
  exists (server_header e x (b_byteorder b)), data,
    (mkRevent (copied e modify) (Z.of_nat x) (b_byteorder b) (Some (data ++ drop n (unset ms (e_memsize e))))).
  split_and!; [done|by apply length_server_header| |].
  - exists e, b. eexists. split_and!; [done|done|reflexivity| |].
    + rewrite length_app, length_drop, (fit_unset ms Hf), Hd, Hn. unfold n. lia.
    + fold n. rewrite take_app_le by lia. unfold data. by rewrite take_take, Nat.min_id.
  - intros v3 r. rewrite client_event_header by done. unfold read_data. cbn [re_event]. change (e_length (copied e modify)) with (e_length e).
    change (e_memsize (copied e modify)) with (e_memsize e). rewrite (fit_data ms Hf). cbn [negb].
    destruct (Z.ltb_spec 0 (e_length e)) as [Hp|Hp].
    + replace (e_memsize e <? e_length e) with false by (symmetry; apply Z.ltb_ge; lia). cbn [r_sock r_mutex]. unfold conn.
      rewrite s32_int by (split; lia). rewrite (link_read _ _ _ _ _ _ _ data r) by (rewrite Hn; unfold n; lia). step.
      replace (Z.of_nat (length data) =? e_length e) with true by (symmetry; apply Z.eqb_eq; rewrite Hn; unfold n; lia).
      cbn [negb]. by rewrite Hn.
    + assert (n = 0%nat) as E by (unfold n; lia). unfold data. rewrite E. rewrite take_0, drop_0. done.
Qed.

Lemma read_events_ok v i pe bs modify : all_fit ms → Forall (in_order v) pe → Forall2 (wire v) pe bs →
  ∃ l, Forall2 (copy_of v modify) pe l ∧
    ∀ v3 r, read_events ms (at_link v3 (concat bs ++ r)) i (length pe) modify = Ret (ET_OK, Some <$> l, at_link v3 r).
Proof.
  intros Hf Hpe Hbs. revert i. induction Hbs as [|x b pe bs Hb _ IH]; intros i; [by exists []|].
  apply list.Forall_cons in Hpe as [Hx Hpe]. destruct (read_copy v i x b modify Hf Hx Hb) as (h & data & e & -> & Hh & Hc & Hr).
  destruct (IH Hpe (S i)) as (l & Hl & E). exists (e :: l). split; [by constructor|]. intros v3 r.
  cbn [length read_events concat r_sock r_mutex]. rewrite <- !app_assoc. unfold conn in *.
  rewrite link_read by by rewrite Hh. step. rewrite (fit_events ms Hf). cbn [negb]. rewrite Hr. step. rewrite E. done.
Qed.

(** The local call that puts the events back, or dumps them. *)
Definition part_given_back (call : get_call) (v : server) (att mode : Z) (pe : list nat) : res server :=
  let dump := Z.testbit mode 4 in
  let put :=
    match call, dump with
    | GetOne, false => et_event_put os (v_id v) att (head pe)
    | GetOne, true => et_event_dump os (v_id v) att (head pe)
    | GetMany _, false => et_events_put os (v_id v) att true pe
    | GetMany _, true => et_events_dump os (v_id v) att true pe
    end in
  '(_, _, d) ← put; Ret (v <| v_id := d |>).

Lemma dump_bit mode : negb (Z.land mode ET_DUMP =? 0) = Z.testbit mode 4.
Proof. unfold ET_DUMP. change 16 with (2 ^ 4). rewrite land_bit by lia. by destruct (Z.testbit mode 4). Qed.

Lemma given_back_many num v att mode pe :
  part_given_back (GetMany num) v att mode pe = give_back os v att (negb (Z.land mode ET_DUMP =? 0)) pe.
Proof. rewrite dump_bit. unfold part_given_back, give_back. by destruct (Z.testbit mode 4). Qed.
Lemma given_back_one v att mode x :
  part_given_back GetOne v att mode [x] = give_back_one os v att (negb (Z.land mode ET_DUMP =? 0)) x.
Proof. rewrite dump_bit. unfold part_given_back, give_back_one. by destruct (Z.testbit mode 4). Qed.

(** What the process gets: copies, while the events stay with its attachment if they will be
    modified and are given back otherwise. *)
Definition got_by_process (call : get_call) (att mode : Z) (remote : res (Z * option (list (option revent)) * remote_id link))
    (x : Z * option (list nat) * server) : Prop :=
  let '(err, pe, v1) := x in
  let pe := default [] pe in
  (err ≠ ET_OK → remote = Ret (err, None, idle v1)) ∧
  (err = ET_OK → Forall (in_order v1) pe → (call = GetOne → pe ≠ []) →
    (too_big v1 pe = Ret true →
      agrees (part_given_back call v1 att mode pe) (λ v2, remote = Ret (ET_ERROR_TOOBIG, None, idle v2)) remote) ∧
    (too_big v1 pe = Ret false → ∀ v2, keep_modify v1 pe (modify_of mode) = Ret v2 →
      ∃ l, Forall2 (copy_of v1 (modify_of mode)) pe l ∧
        agrees (if modify_of mode =? 0 then part_given_back call v2 att mode pe else Ret v2)
          (λ v3, remote = Ret (ET_OK, Some (Some <$> l), idle v3)) remote)).

Lemma take_be32 x r : take 4 (ints [x] ++ r) = ints [x] ∧ drop 4 (ints [x] ++ r) = r.
Proof. split; [by rewrite take_app_length' by by rewrite length_ints|by rewrite drop_app_length' by by rewrite length_ints]. Qed.

(** An answer that is only a status. *)
Lemma status_only x : -20 ≤ x ≤ 0 → take 4 (ints [x]) = ints [x] ∧ drop 4 (ints [x]) = [] ∧ s32 (word (ints [x]) 0) = x.
Proof.
  intros Hx. rewrite take_ge, drop_ge by by rewrite length_ints. rewrite (word_ints [x] 0 x), s32_u32, short_status by done. done.
Qed.

Lemma events_get_link att mode dt num v fuel : int_ok att → int_ok num → all_fit ms →
  let remote := remote_get (GetMany num) (idle v) att mode dt fuel in
  agrees (rounds att mode dt (local_get (GetMany num) att) v fuel) (got_by_process (GetMany num) att mode remote) remote.
Proof.
  intros Ha Hn Hf remote. subst remote. unfold remote_get, rounds, etr_events_get. rewrite (fit_array ms Hf). cbn [negb].
  destruct (net_wait_cases mode dt) as [->|(w & dt' & it & -> & Hw & Hne)]; [done|]. step.
  rewrite time_words_default, asked_eq. cbn [app]. destruct (get_part_bits mode) as (Hp1 & Hp2 & Hp3).
  pose proof (asks_events_get starts allocated conductors junk os memory elsewhere att w (get_part mode) num
    (default (0, 0) dt').1 (default (0, 0) dt').2 Ha Hw Hp3 Hn Hne) as Hask.
  pose proof (rounds_link _ _ _ _ _ _ 4 num _ _ v (wait_of mode) it fuel (request_more _ _) ltac:(lia) Hask
    (λ v, wait_once_given num v _ _ _ _ _ (events_get_given os att num)) (replies_events_get os att (get_part mode) num (proj2 Hn))) as Hr.
  unfold EtEventLink.conn in Hr. unfold conn. rewrite Hr. clear Hr.
  pose proof (repeated_given num _ v (wait_of mode) it fuel
    (λ v, wait_once_given num v att w (u32 (default (0, 0) dt').1) (u32 (default (0, 0) dt').2) _ (events_get_given os att num))) as Hgr.
  unfold local_get. destruct (repeated _ v _ it fuel) as [[[err pe] v1]| | |] eqn:Er; try done.
  specialize (Hgr _ eq_refl). destruct Hgr as [He Hpe]. cbn [fst snd] in He, Hpe. step. change (Z.to_nat 4) with 4%nat. split; intros Herr.
  - destruct (Z.eqb_spec err ET_ERROR_TIMEOUT) as [->|Hto]; [done|]. unfold reply_events_get.
    rewrite (proj2 (Z.eqb_neq _ _) Herr). cbn [negb]. step. destruct (status_only err He) as (-> & -> & ->).
    replace (err <? 0) with true by (symmetry; apply Z.ltb_lt; unfold ET_OK in Herr; lia). done.
  - subst err. intros Hin _. change (ET_OK =? ET_ERROR_TIMEOUT) with false. cbv iota. unfold reply_events_get.
    change (ET_OK =? ET_OK) with true. cbn [negb]. rewrite Hp1, Hp2. set (pe' := default [] pe) in *. split.
    + intros ->. step. rewrite given_back_many. by destruct (give_back _ _ _ _ _) as [v2| | |].
    + intros -> v2 Hk. step. rewrite Hk. step. destruct (keep_modify_lookup _ _ _ _ Hk) as [HB HE].
      destruct (send_events_ok v1 v2 pe' Hin HB HE) as (bs & -> & Hbs). step. rewrite <- (given_back_many num v2 att mode pe').
      set (r := if _ =? _ then _ else _). set (n := Z.of_nat (length pe')) in *. set (size := Z.of_nat (length (concat bs))).
      destruct (read_events_ok v1 0 pe' bs (modify_of mode) Hf Hin Hbs) as (l & Hl & E).
      exists l. split; [done|]. destruct r as [v3| | |]; try done. step.
      change (ints [n; ET_HIGHINT size; ET_LOWINT size]) with (be32 n ++ ints [ET_HIGHINT size; ET_LOWINT size]).
      rewrite <- app_assoc. replace (be32 n) with (ints [n]) by apply app_nil_r.
      destruct (take_be32 n (ints [ET_HIGHINT size; ET_LOWINT size] ++ concat bs)) as [-> ->].
      pose proof Hn as [_ Hn2]. rewrite (word_ints [n] 0 n), s32_u32, s32_int by (done || split; lia).
      replace (n <? 0) with false by (symmetry; apply Z.ltb_ge; lia). unfold read_more. cbn [r_sock r_mutex].
      rewrite link_read by by rewrite length_ints. step.
      replace (Z.max num 0 <? n) with false by (symmetry; apply Z.ltb_ge; lia). unfold n. rewrite Nat2Z.id.
      specialize (E v3 []). rewrite app_nil_r in E. unfold conn in E. rewrite E. done.
Qed.

Lemma event_get_link att mode dt v fuel : int_ok att → all_fit ms →
  let remote := remote_get GetOne (idle v) att mode dt fuel in
  agrees (rounds att mode dt (local_get GetOne att) v fuel) (got_by_process GetOne att mode remote) remote.
Proof.
  intros Ha Hf remote. subst remote. unfold remote_get, rounds, etr_event_get.
  destruct (net_wait_cases mode dt) as [->|(w & dt' & it & -> & Hw & Hne)]; [done|]. step.
  rewrite time_words_default, asked_eq. cbn [app]. destruct (get_part_bits mode) as (Hp1 & Hp2 & Hp3).
  pose proof (asks_event_get starts allocated conductors junk os memory elsewhere att w (get_part mode)
    (default (0, 0) dt').1 (default (0, 0) dt').2 Ha Hw Hp3 Hne) as Hask.
  pose proof (rounds_link _ _ _ _ _ _ 4 1 _ _ v (wait_of mode) it fuel (request_more _ _) ltac:(lia) Hask
    (λ v, wait_once_given 1 v _ _ _ _ _ (event_get_given os att)) (replies_event_get os att (get_part mode))) as Hr.
  unfold EtEventLink.conn in Hr. unfold conn. rewrite Hr. clear Hr.
  pose proof (repeated_given 1 _ v (wait_of mode) it fuel
    (λ v, wait_once_given 1 v att w (u32 (default (0, 0) dt').1) (u32 (default (0, 0) dt').2) _ (event_get_given os att))) as Hgr.
  unfold local_get. destruct (repeated _ v _ it fuel) as [[[err pe] v1]| | |] eqn:Er; try done.
  specialize (Hgr _ eq_refl). destruct Hgr as [He Hpe]. cbn [fst snd] in He, Hpe. step. change (Z.to_nat 4) with 4%nat. split; intros Herr.
  - destruct (Z.eqb_spec err ET_ERROR_TIMEOUT) as [->|Hto]; [done|]. unfold reply_event_get.
    replace (err <? ET_OK) with true by (symmetry; apply Z.ltb_lt; unfold ET_OK in *; lia). step.
    destruct (status_only err He) as (-> & -> & ->). rewrite (proj2 (Z.eqb_neq _ _) Herr). done.
  - subst err. intros Hin Hx. change (ET_OK =? ET_ERROR_TIMEOUT) with false. cbv iota. unfold reply_event_get.
    change (ET_OK <? ET_OK) with false. cbv iota. rewrite Hp1, Hp2.
    destruct pe as [[|x [|]]|]; [by destruct Hx| |cbn in Hpe; lia|by destruct Hx].
    cbn [default mbind option_bind head of_option from_option id] in *. step. split.
    + intros ->. step. rewrite given_back_one. by destruct (give_back_one _ _ _ _ _) as [v2| | |].
    + intros -> v2 Hk. step. rewrite Hk. step. destruct (keep_modify_lookup _ _ _ _ Hk) as [HB HE].
      apply Forall_inv in Hin. destruct (send_event_ok v1 v2 x Hin HB HE) as (b & -> & Hb). step.
      destruct (read_copy v1 0 x b (modify_of mode) Hf Hin Hb) as (h & data & e & -> & Hh & Hc & E).
      exists [e]. split; [by constructor|]. rewrite <- (given_back_one v2 att mode x). set (r := if _ =? _ then _ else _). destruct r as [v3| | |]; try done. step.
      destruct (take_be32 ET_OK (h ++ data)) as [-> ->]. change (negb (s32 (word (ints [ET_OK]) 0) =? ET_OK)) with false. cbv iota.
      unfold read_more. cbn [r_sock r_mutex]. rewrite link_read by by rewrite Hh. step. rewrite (fit_events ms Hf). cbn [negb].
      specialize (E v3 []). rewrite app_nil_r in E. unfold conn in E. rewrite E. done.
Qed.

(** C21: calls that get events of a remote process are local calls.  After the rounds that its
    time allows, the process gets the status of the last one; and when it is ET_OK, a copy
    of each event: its length, the size of its memory, its priority, the status and the
    order of its data, its control words, its place and its data.  The events stay with the
    attachment when the process will modify them, and otherwise are put or dumped at once;
    what is too big for a process of 32 bits goes back too and is reported. *)
Theorem remote_get_is_local call att mode dt v fuel :
  int_ok att → get_call_ok call → all_fit ms →
  let remote := remote_get call (idle v) att mode dt fuel in
  agrees (rounds att mode dt (local_get call att) v fuel) (got_by_process call att mode remote) remote.
Proof. intros Ha Hc Hf remote. subst remote. destruct call as [|num]; [by apply event_get_link|by apply events_get_link]. Qed.
End Calls.

(** ** A server for examples

    The system of EtLife.v, whose process [user] is the server's thread: GrandCentral has the
    events 4 to 7, the station 1, where the attachment 0 is, has 2 and 3, and the events 0
    and 1 are the attachment's own. *)

Definition clerk_buffers : gmap nat buffer := list_to_map ((λ x, (x, mkBuffer local_order (replicate 100 (Z.of_nat x)))) <$> seq 0 8).
Definition clerk_id : et_id :=
  set_sys user (desk <| y_events ::= fmap (λ e, e <| e_length := 5 |> <| e_memsize := 100 |>) |>).
Definition clerk : server :=
  mkServer clerk_id (mkInfo 7 4242 2 10) (replicate 100 (-1)) (replicate 100 (mkOrigin 0 [] [])) clerk_buffers [] true.
Definition clerk_memory (x : nat) (n : Z) : list Z := replicate (Z.to_nat n) 0.
Definition plenty : mallocs := mkMallocs true true (λ _, true) (λ _, true) (λ n, replicate (Z.to_nat n) 9).
Definition hang_up (command : Z) (v : server) (b : list Z) : res turn := at_end v b.

(** Whether a list of events can be sent, to be evaluated. *)
Definition int_in (x : Z) : bool := (-2147483648 <=? x) && (x <? 2147483648).
Definition sends (e : et_event) : bool :=
  (0 <=? e_length e) && (e_length e <=? e_memsize e) && (e_memsize e <? 2147483648) &&
  (0 <=? e_priority e) && (e_priority e <=? 1) && (0 <=? e_datastatus e) && (e_datastatus e <=? 3) &&
  (length (e_control e) =? 6)%nat && forallb int_in (e_control e).

Lemma sends_ok e : sends e = true → sendable e ∧ e_length e ≤ e_memsize e < 2147483648.
Proof.
  unfold sends. rewrite !andb_true_iff, !Z.leb_le, !Z.ltb_lt, Nat.eqb_eq, forallb_forall. intros H. destruct_and!.
  split; [|lia]. constructor; try lia. apply List.Forall_forall. intros x Hx.
  match goal with H : ∀ x, In x _ → _ |- _ => apply H in Hx end. unfold int_in in Hx. rewrite andb_true_iff, Z.leb_le, Z.ltb_lt in Hx. exact Hx.
Qed.

(** The events of a list can be sent, to be evaluated. *)
Definition all_in_order (v : server) (pe : list nat) : bool :=
  forallb (λ x, match events_of_system v !! x, v_buffers v !! x with
    | Some e, Some b => sends e && (Z.of_nat (length (b_data b)) =? e_memsize e) && int_in (b_byteorder b) && int_in (Z.of_nat x)
    | _, _ => false
    end) pe.

Lemma all_in_order_ok v pe : all_in_order v pe = true → Forall (in_order v) pe.
Proof.
  unfold all_in_order. rewrite forallb_forall. intros H. apply List.Forall_forall. intros x Hx%H.
  destruct (events_of_system v !! x) as [e|] eqn:He; [|done]. destruct (v_buffers v !! x) as [b|] eqn:Hb; [|done].
  unfold int_in in Hx. rewrite !andb_true_iff, Z.eqb_eq, !Z.leb_le, !Z.ltb_lt in Hx. destruct_and!. exists e, b.
  destruct (sends_ok e) as [Hs Hl]; [done|]. split_and!; try done; try lia; split; lia.
Qed.

Lemma plenty_fits : all_fit plenty.
Proof. constructor; try done. intros n. apply length_replicate. Qed.

(** The server [clerk] after a call, and the process. *)
Definition clerk_after (r : res (Z * option (list nat) * server)) : server := match r with Ret (_, _, v) => v | _ => clerk end.
Notation far_new := (remote_new (λ _, true) true (λ _ y, y) (-77) yes clerk_memory hang_up plenty).
Notation far_get := (remote_get (λ _, true) true (λ _ y, y) (-77) yes clerk_memory hang_up plenty).
Definition clerk_new : res (Z * option (list nat) * server) :=
  rounds 0 ET_ASYNC None (local_new yes (NewMany 7 2) 0) clerk 1.
Definition clerk_get : res (Z * option (list nat) * server) :=
  rounds 0 (ET_ASYNC + ET_MODIFY) None (local_get yes (GetMany 5) 0) clerk 1.

(** Two new events. *)
Lemma remote_new_is_local_witness :
  ∃ l v, clerk_new = Ret (ET_OK, Some [4; 5]%nat, clerk_after clerk_new) ∧
    far_new 100 (NewMany 7 2) (idle clerk) 0 ET_ASYNC None 1 = Ret (ET_OK, Some l, idle v) ∧
    Forall2 (blank_event 100 ET_ASYNC 7) [4; 5]%nat l.
Proof.
  assert (clerk_new = Ret (ET_OK, Some [4; 5]%nat, clerk_after clerk_new)) as E by (vm_compute; reflexivity).
  pose proof (remote_new_is_local (λ _, true) true (λ _ y, y) (-77) yes clerk_memory hang_up plenty 100 (NewMany 7 2) 0 ET_ASYNC None clerk 1) as H.
  specialize (H ltac:(split; done) ltac:(split_and!; split; done) plenty_fits). cbv zeta in H. unfold clerk_new in E. rewrite E in H.
  destruct H as [_ H].
  specialize (H eq_refl ltac:(repeat constructor; done) ltac:(done)).
  set (k := keep_modify (new_buffers clerk_memory (clerk_after clerk_new) [4; 5]%nat) [4; 5]%nat ET_MODIFY) in *.
  set (v := match k with Ret v => v | _ => clerk end). assert (k = Ret v) as Ek by (vm_compute; reflexivity).
  destruct (H v Ek) as (l & Hl & Hf). by exists l, v.
Defined.

(** Both events of the station, to be modified. *)
Lemma remote_get_is_local_witness :
  ∃ l v, clerk_get = Ret (ET_OK, Some [2; 3]%nat, clerk_after clerk_get) ∧
    far_get (GetMany 5) (idle clerk) 0 (ET_ASYNC + ET_MODIFY) None 1 = Ret (ET_OK, Some (Some <$> l), idle v) ∧
    Forall2 (copy_of (clerk_after clerk_get) ET_MODIFY) [2; 3]%nat l.
Proof.
  assert (clerk_get = Ret (ET_OK, Some [2; 3]%nat, clerk_after clerk_get)) as E by (vm_compute; reflexivity).
  pose proof (remote_get_is_local (λ _, true) true (λ _ y, y) (-77) yes clerk_memory hang_up plenty (GetMany 5) 0 (ET_ASYNC + ET_MODIFY) None clerk 1) as H.
  specialize (H ltac:(split; done) ltac:(split; done) plenty_fits). cbv zeta in H. unfold clerk_get in E. rewrite E in H.
  destruct H as [_ H]. fold clerk_get in H.
  specialize (H eq_refl ltac:(apply all_in_order_ok; vm_compute; reflexivity) ltac:(done)) as [_ H].
  specialize (H ltac:(vm_compute; reflexivity)).
  set (k := keep_modify (clerk_after clerk_get) [2; 3]%nat ET_MODIFY) in *.
  set (v := match k with Ret v => v | _ => clerk end). assert (k = Ret v) as Ek by (vm_compute; reflexivity).
  destruct (H v Ek) as (l & Hf & Hl). exists l, v. split; [exact E|]. split; [exact Hl|exact Hf].
Defined.
