(* ===== verification/EtRemotePut.v ===== *)
(** * Events that remote processes send back

    The server writes what comes into the event in the shared memory and puts it; the
    reference is a local process that does the same.  An event that comes back unchanged is
    the event that was sent. *)

From S2P Require Import Prelude Words EtTypes EtLists EtConductor EtAccess EtWaiting EtDetached EtStations EtEventCalls.
From S2P Require Import EtNet EtSettings EtRemote EtEventNet EtServer EtEventServer EtEventRemote EtRemoteSpec EtEventLink EtLife EtRemoteEvents.

(** ** Writing into an event *)

Definition place_of (re : revent) : nat := Z.to_nat (re_place re).
Definition whole (re : revent) : bool := e_modify (re_event re) =? ET_MODIFY.

(** The data of the process over those of the event, as many as its length says. *)
Definition overwritten (re : revent) (b : buffer) : list Z :=
  if whole re then
    let n := Z.to_nat (e_length (re_event re)) in take n (default [] (re_data re)) ++ drop n (b_data b)
  else b_data b.

(** What a local process does that has the fields and the data of [re]. *)
Definition stored (v : server) (re : revent) : server :=
  match events_of_system v !! place_of re, v_buffers v !! place_of re with
  | Some e, Some b =>
      v <| v_id := set_sys (v_id v) (d_sys (v_id v) <| y_events ::= <[place_of re := filled (re_event re) e]> |>) |>
        <| v_buffers ::= <[place_of re := mkBuffer (re_byteorder re) (overwritten re b)]> |>
  | _, _ => v
  end.

(** The event is one of the system, which expects it to be modified as the process does, and
    what is sent fits into its memory. *)
Definition writable (v : server) (re : revent) : Prop :=
  ∃ e b, events_of_system v !! place_of re = Some e ∧ v_buffers v !! place_of re = Some b ∧
    e_modify e = e_modify (re_event re) ∧ e_length (re_event re) ≤ Z.of_nat (length (b_data b)).

(** What a process may send: an event that it said it would modify, with data if they are
    to be sent. *)
Record outgoing (re : revent) : Prop := {
  out_sendable : sendable (re_event re); out_place : 0 ≤ re_place re < 2147483648; out_order : int_ok (re_byteorder re);
  out_length : e_length (re_event re) < 2147483648 ∧ e_length (re_event re) ≤ e_memsize (re_event re);
  out_modify : 0 < e_modify (re_event re);
  out_data : whole re = true → ∃ data, re_data re = Some data ∧ e_length (re_event re) ≤ Z.of_nat (length data)
}.

Lemma writable_stored v re re' : outgoing re → writable v re → writable v re' → writable (stored v re) re'.
Proof.
  intros Hout (e & b & He & Hb & Hm & Hl) (e' & b' & He' & Hb' & Hm' & Hl'). unfold stored. rewrite He, Hb. unfold writable, events_of_system.
  cbn [v_id set_sys d_sys v_buffers update y_events]. fields. unfold set_sys. ids. fields.
  destruct (decide (place_of re' = place_of re)) as [E|E].
  - rewrite E in *. rewrite !lookup_insert_eq. assert (e' = e) as -> by congruence. assert (b' = b) as -> by congruence.
    eexists _, _. split_and!; [reflexivity|reflexivity|exact Hm'|]. cbn [b_data]. unfold overwritten. destruct (whole re) eqn:Hw; [|done].
    destruct (out_data re Hout Hw) as (data & -> & Hd). destruct (out_sendable re Hout). cbn [default from_option id].
    rewrite length_app, length_take, length_drop. lia.
  - rewrite !lookup_insert_ne by done. by exists e', b'.
Qed.

(** ** Statuses *)

Lemma run_station_status y i op : (∀ n m s, status_in st3 (op n m s)) → status_in fst (run_station y i op).
Proof.
  intros H. unfold run_station. apply status_bind. intros s _. apply status_bind. intros [[st m] s'] E%H. by apply status_ret.
Qed.

Lemma write_status n m s x : status_in st3 (et_station_write n m s x).
Proof. unfold et_station_write. walk. Qed.
Lemma nwrite_status n m s pe : status_in st3 (et_station_nwrite n m s pe).
Proof. unfold et_station_nwrite. walk. Qed.
Lemma dump_status n m s x : status_in st3 (et_station_dump n m s x).
Proof. unfold et_station_dump. walk. Qed.
Lemma ndump_status n m s pe : status_in st3 (et_station_ndump n m s pe).
Proof. unfold et_station_ndump. walk. Qed.

Lemma memory_status {A} d (body : et_id → res (Z * option A * et_id)) :
  (∀ d, status_in st3 (body d)) → status_in st3 (with_memory d body).
Proof. intros H. unfold with_memory. walk. Qed.

(** Goes through a call whose status is that of an operation on a list. *)
Ltac through op :=
  repeat first
    [ done
    | apply status_ret; numbers; lia
    | apply leave_status; numbers; lia
    | match goal with
      | |- status_in _ (run_station _ _ _ ≫= _) =>
          let E := fresh in apply status_bind; intros [? ?] E; apply run_station_status in E; [|intros; apply op]; numbers in E
      | |- status_in _ (_ ≫= _) => apply status_bind; intros ? _
      | |- status_in _ (if ?c then _ else _) => destruct c
      | |- status_in _ (match ?c with _ => _ end) => destruct c
      | |- status_in _ (let _ := _ in _) => cbv zeta
      | |- status_in _ (leave _ _ _) => by apply leave_status
      end ].

Lemma event_put_status os d att pe : status_in st3 (et_event_put os d att pe).
Proof. unfold et_event_put. destruct pe; [|through write_status]. destruct (att <? 0); [through write_status|]. apply memory_status. intros d1. through write_status. Qed.
Lemma events_put_status os d att ptr pe : status_in st3 (et_events_put os d att ptr pe).
Proof. unfold et_events_put. do 2 (destruct (_ : bool); [through nwrite_status|]). apply memory_status. intros d1. through nwrite_status. Qed.
Lemma event_dump_status os d att pe : status_in st3 (et_event_dump os d att pe).
Proof. unfold et_event_dump. destruct pe; [|through dump_status]. destruct (att <? 0); [through dump_status|]. apply memory_status. intros d1. through dump_status. Qed.
Lemma events_dump_status os d att ptr pe : status_in st3 (et_events_dump os d att ptr pe).
Proof. unfold et_events_dump. do 2 (destruct (_ : bool); [through ndump_status|]). apply memory_status. intros d1. through ndump_status. Qed.

Section Put.
  Context (starts : et_station → bool) (allocated : bool) (conductors : nat → et_system → et_system) (junk : Z).
  Context (os : answers) (memory : nat → Z → list Z) (elsewhere : Z → server → list Z → res turn).
  Context (ms : mallocs).
#[local] Instance conn : Conn link := link_conn starts allocated conductors junk (serve_events os memory elsewhere).
  Notation link_command := (command starts allocated conductors junk (serve_events os memory elsewhere)).

(** The bytes of an event's data that are sent. *)
Definition sent_data (re : revent) : list Z :=
  if whole re then take (Z.to_nat (e_length (re_event re))) (default [] (re_data re)) else [].

Lemma sent_event_ok re : outgoing re → sent_event re = Ret (Some (client_header re ++ sent_data re)).
Proof.
  intros Hout. unfold sent_event, sent_data. fold (whole re). destruct (whole re) eqn:Hw; [|by rewrite app_nil_r].
  destruct (out_data re Hout Hw) as (data & -> & Hd). by replace (_ <? _) with false by (symmetry; apply Z.ltb_ge; lia).
Qed.

Lemma u32_int x : 0 ≤ x < 2147483648 → u32 x = x.
Proof. intros Hx. unfold u32. apply Z.mod_small. lia. Qed.

Lemma buffers_twice v x a b : v <| v_buffers ::= <[x := a]> |> <| v_buffers ::= <[x := b]> |> = v <| v_buffers ::= <[x := b]> |>.
Proof. destruct v. unfold update. cbn. by rewrite insert_insert_eq. Qed.

Lemma receive_event_ok v re r k : outgoing re → writable v re →
  receive_event v (client_header re) (sent_data re ++ r) k = k (place_of re) (stored v re) r.
Proof.
  intros Hout (e & b & He & Hb & Hm & Hl). unfold receive_event.
  destruct (server_reads re e (out_sendable re Hout)) as (E1 & E2 & E3 & _). rewrite E2, E3, u32_int by apply Hout.
  rewrite (s32_int _ (out_order re Hout)). fold (place_of re). unfold ev_set. step. rewrite He. step. rewrite E1, Hb. step.
  unfold ev. step. rewrite lookup_insert_eq. step. unfold stored. rewrite He, Hb.
  change (e_modify (filled (re_event re) e)) with (e_modify e). change (e_length (filled (re_event re) e)) with (e_length (re_event re)).
  rewrite Hm. fold (whole re). unfold sent_data, overwritten. destruct (whole re) eqn:Hw; [|done].
  destruct (out_data re Hout Hw) as (data & -> & Hd). cbn [default from_option id]. unfold receive_data.
  destruct (out_sendable re Hout) as [Hs _ _ _ _ _]. destruct (out_length re Hout) as [Hlt _].
  set (n := Z.to_nat (e_length (re_event re))). assert (length (take n data) = n) as Hn by (rewrite length_take; unfold n; lia).
  rewrite s32_int by (split; lia). fold n. rewrite take_app_length' by done. rewrite drop_app_length' by done.
  cbn [v_buffers update]. unfold eta, eta_server. cbn [v_buffers]. rewrite lookup_insert_eq. step.
  replace (length _ <? length (take n data))%nat with false by (symmetry; apply Nat.ltb_ge; cbn; unfold n in *; lia).
  rewrite Hn. replace (Z.of_nat n =? e_length (re_event re)) with true by (symmetry; apply Z.eqb_eq; unfold n; lia).
  f_equal. exact (buffers_twice _ (place_of re) _ _).
Qed.

(** ** What the server does *)

Definition put_stored (v : server) (att : Z) (x : nat) : res (Z * server) :=
  '(err, _, d) ← et_event_put os (v_id v) att (Some x); Ret (err, v <| v_id := d |>).
Definition puts_stored (v : server) (att : Z) (pe : list nat) : res (Z * server) :=
  '(err, _, d) ← et_events_put os (v_id v) att true pe; Ret (err, v <| v_id := d |>).
Definition dump_place (v : server) (att : Z) (x : nat) : res (Z * server) :=
  '(err, _, d) ← et_event_dump os (v_id v) att (Some x); Ret (err, v <| v_id := d |>).
Definition dump_places (v : server) (att : Z) (pe : list nat) : res (Z * server) :=
  '(err, _, d) ← et_events_dump os (v_id v) att true pe; Ret (err, v <| v_id := d |>).

(** The server answers the status of a call. *)
Definition answers_status (v : server) (request : list Z) (r : res (Z * server)) : Prop :=
  link_command v request = '(err, v') ← r; answer v' (ints [err]) [].

Lemma ints_one_more x l r : ints (x :: l) ++ r = ints [x] ++ ints l ++ r.
Proof. change (ints (x :: l)) with (be32 x ++ ints l). by rewrite <- app_assoc. Qed.

Lemma reply_status_eq {A} v (r : res (Z * option A * et_id)) :
  reply_status v r [] = '(err, v') ← ('(err, _, d) ← r; Ret (err, v <| v_id := d |>)); answer v' (ints [err]) [].
Proof. unfold reply_status. by destruct r as [[[err out] d]| | |]. Qed.

Lemma length_client_header re : outgoing re → length (client_header re) = 52%nat.
Proof. intros Hout. by destruct (server_reads re et_init_event (out_sendable re Hout)) as (_ & _ & _ & ?). Qed.

Lemma answers_put v att re : int_ok att → outgoing re → writable v re →
  answers_status v (ints [ET_NET_EV_PUT; att] ++ client_header re ++ sent_data re) (put_stored (stored v re) att (place_of re)).
Proof.
  intros Ha Hout Hw. unfold answers_status. enter_command. unfold serve_control. commands. unfold serve_events. commands.
  unfold serve_event_put. replace 56 with (Z.of_nat (length (ints [att] ++ client_header re)))
    by (rewrite length_app, length_ints, length_client_header by done; done).
  rewrite app_assoc, receive_ok, word_head, s32_int by done. cbv zeta.
  rewrite drop_app_length' by by rewrite length_ints. rewrite <- (app_nil_r (sent_data re)), receive_event_ok by done. apply reply_status_eq.
Qed.

Definition all_stored (v : server) (l : list revent) : server := foldl stored v l.

Lemma receive_events_ok l v pe k : Forall outgoing l → Forall (writable v) l →
  Z.of_nat (length pe + length l) ≤ y_nevents (d_sys (v_id v)) →
  receive_events v (length l) pe (concat ((λ re, client_header re ++ sent_data re) <$> l)) k = k (pe ++ (place_of <$> l)) (all_stored v l) [].
Proof.
  revert v pe. induction l as [|re l IH]; intros v pe Hout Hw Hn; [by rewrite app_nil_r|].
  apply list.Forall_cons in Hout as [Hre Hout]. apply list.Forall_cons in Hw as [Hwr Hw].
  cbn [length receive_events fmap list_fmap concat] in *. rewrite <- app_assoc.
  replace 52 with (Z.of_nat (length (client_header re))) by by rewrite length_client_header.
  rewrite receive_ok. replace (_ <=? _) with false by (symmetry; apply Z.leb_gt; lia). rewrite receive_event_ok by done.
  rewrite IH; [by rewrite <- app_assoc|done| |].
  - eapply list.Forall_impl; [exact Hw|]. intros re' H. by apply writable_stored.
  - rewrite length_app. cbn [length]. unfold stored. destruct (events_of_system v !! _); [|lia]. destruct (v_buffers v !! _); [|lia].
    cbn [v_id set_sys update]. change (y_nevents (d_sys _)) with (y_nevents (d_sys (v_id v))). lia.
Qed.

Lemma answers_puts v att l bytes : int_ok att → Forall outgoing l → Forall (writable v) l →
  Z.of_nat (length l) ≤ y_nevents (d_sys (v_id v)) → Z.of_nat (length l) < 2147483648 →
  answers_status v (ints [ET_NET_EVS_PUT; att; Z.of_nat (length l); ET_HIGHINT bytes; ET_LOWINT bytes] ++
      concat ((λ re, client_header re ++ sent_data re) <$> l))
    (puts_stored (all_stored v l) att (place_of <$> l)).
Proof.
  intros Ha Hout Hw Hn Hl. unfold answers_status. enter_command. unfold serve_control. commands. unfold serve_events. commands.
  unfold serve_events_put. rewrite receive_ints_ok by done. cbv beta.
  rewrite (arg_ints _ 0 att), (arg_ints _ 1 (Z.of_nat (length l))) by (done || split; lia).
  rewrite Nat2Z.id, receive_events_ok by done. apply reply_status_eq.
Qed.

Lemma answers_dump v att p : int_ok att → 0 ≤ p < 2147483648 →
  answers_status v (ints [ET_NET_EV_DUMP; att; p]) (dump_place v att (Z.to_nat p)).
Proof.
  intros Ha Hp. unfold answers_status. enter_command. unfold serve_control. commands. unfold serve_events. commands.
  unfold serve_event_dump. rewrite receive_ints_all by done. cbv beta. rewrite (arg_ints _ 0 att) by done.
  cbn [fmap list_fmap nth]. rewrite u32_int by done. apply reply_status_eq.
Qed.

Lemma answers_dumps v att l : int_ok att → Forall (λ p, 0 ≤ p < 2147483648) l →
  Z.of_nat (length l) ≤ y_nevents (d_sys (v_id v)) → Z.of_nat (length l) < 2147483648 →
  answers_status v (ints ([ET_NET_EVS_DUMP; att; Z.of_nat (length l)] ++ l)) (dump_places v att (Z.to_nat <$> l)).
Proof.
  intros Ha Hp Hn Hl. unfold answers_status. cbn [app]. enter_command. unfold serve_control. commands. unfold serve_events. commands.
  unfold serve_events_dump.
  assert (ints (att :: Z.of_nat (length l) :: l) = ints [att; Z.of_nat (length l)] ++ ints l) as -> by (by unfold ints; cbn [fmap list_fmap concat]; rewrite app_nil_r, <- app_assoc).
  rewrite receive_ints_ok by done. cbv beta zeta. rewrite (arg_ints _ 0 att) by done. cbn [fmap list_fmap nth]. rewrite u32_int by lia.
  replace (_ <? _) with false by (symmetry; apply Z.ltb_ge; lia). rewrite receive_ints_all by by rewrite Nat2Z.id.
  replace (u32 <$> l) with l; [apply reply_status_eq|].
  induction Hp as [|p l Hp _ IH]; [done|]. cbn [fmap list_fmap]. rewrite u32_int by done. f_equal. apply IH; cbn [length] in *; lia.
Qed.

(** ** The calls of the process *)

Inductive back_call := PutOne (e : revent) | PutMany (l : list revent) | DumpOne (e : revent) | DumpMany (l : list revent).

Definition remote_back (call : back_call) (c : remote_id link) (att : Z) : res (Z * option (list bool) * remote_id link) :=
  match call with
  | PutOne e => '(err, f, c) ← etr_event_put c att e; Ret (err, option_map (λ b, [b]) f, c)
  | PutMany l => etr_events_put ms c att l
  | DumpOne e => '(err, f, c) ← etr_event_dump c att e; Ret (err, option_map (λ b, [b]) f, c)
  | DumpMany l => etr_events_dump ms c att l
  end.

(** The same done by a local process, for the events that are to be modified; the others
    never were with the attachment. *)
Definition local_back (call : back_call) (v : server) (att : Z) : res (Z * server) :=
  match call with
  | PutOne e => if modified e then put_stored (stored v e) att (place_of e) else Ret (ET_OK, v)
  | PutMany l =>
      let l := List.filter modified l in
      if bool_decide (l = []) then Ret (ET_OK, v) else puts_stored (all_stored v l) att (place_of <$> l)
  | DumpOne e => if modified e then dump_place v att (place_of e) else Ret (ET_OK, v)
  | DumpMany l =>
      let l := List.filter modified l in
      if bool_decide (l = []) then Ret (ET_OK, v) else dump_places v att (place_of <$> l)
  end.

(** Of each event that is freed, whether its data are too. *)
Definition freed (call : back_call) : list bool :=
  match call with
  | PutOne e => [negb (users_buffer e)]
  | PutMany l => (λ e, negb (users_buffer e)) <$> l
  | DumpOne e => [true]
  | DumpMany l => (λ _, true) <$> l
  end.

Definition fits_system (v : server) (l : list revent) : Prop :=
  Z.of_nat (length l) ≤ y_nevents (d_sys (v_id v)) ∧ Z.of_nat (length l) < 2147483648.
Definition back_ok (call : back_call) (v : server) : Prop :=
  match call with
  | PutOne e => too_long_to_put e = false ∧ (modified e = true → outgoing e ∧ writable v e)
  | PutMany l =>
      let sent := List.filter modified l in
      existsb too_long_to_put l = false ∧ Forall outgoing sent ∧ Forall (writable v) sent ∧ fits_system v sent
  | DumpOne e => modified e = true → 0 ≤ re_place e < 2147483648
  | DumpMany l =>
      let sent := List.filter modified l in
      Forall (λ e, 0 ≤ re_place e < 2147483648) sent ∧ fits_system v sent
  end.

Definition small_status (r : res (Z * server)) : Prop := status_in fst r.

Lemma put_small {A} (r : res (Z * option A * et_id)) v : status_in st3 r → small_status ('(err, _, d) ← r; Ret (err, v <| v_id := d |>)).
Proof. intros H. apply status_bind. intros [[err out] d] E%H. by apply status_ret. Qed.

(** A request whose answer is a status. *)
Lemma ask_status_of v request r : request ≠ [] → answers_status v request r → small_status r →
  ask (idle v) request 4 = '(err, v') ← r; Ret (inr (ints [err]), mkRemote true (mkLink v' true [])).
Proof.
  intros Hne Hr Hs. unfold conn.
  rewrite (ask_bytes starts allocated conductors junk (serve_events os memory elsewhere) v request 4 ('(err, v') ← r; Ret (ints [err], v'))).
  - destruct r as [[err v']| | |]; try done.
  - done.
  - rewrite Hr. by destruct r as [[err v']| | |].
  - lia.
  - intros out v'. destruct r as [[err v1]| | |]; try done. step. intros [<- _]%ret_pair. by rewrite length_ints.
Qed.

Definition sent_back (call : back_call) (remote : res (Z * option (list bool) * remote_id link)) (x : Z * server) : Prop :=
  remote = Ret (x.1, Some (freed call), idle x.2).

Lemma status_word err : -20 ≤ err ≤ 0 → s32 (word (ints [err]) 0) = err.
Proof. intros H. by rewrite (word_ints [err] 0 err), s32_u32, short_status. Qed.

Lemma several_link v request r fr : request ≠ [] → answers_status v request r → small_status r →
  agrees r (λ x, send_several (idle v) request fr = Ret (x.1, Some fr, idle x.2)) (send_several (idle v) request fr).
Proof.
  intros Hne Hr Hs. unfold send_several. rewrite (ask_status_of v request r Hne Hr Hs).
  destruct r as [[err v']| | |] eqn:E; try done. step. cbn [agrees fst snd]. by rewrite (status_word err (Hs _ eq_refl)).
Qed.

Lemma sent_events_ok l : Forall outgoing l → sent_events l = Ret (Some (concat ((λ re, client_header re ++ sent_data re) <$> l))).
Proof.
  induction 1 as [|re l H _ IH]; [done|]. cbn [sent_events]. rewrite sent_event_ok by done. step. rewrite IH. done.
Qed.

Lemma put_one_link v att e : int_ok att → back_ok (PutOne e) v →
  let remote := remote_back (PutOne e) (idle v) att in agrees (local_back (PutOne e) v att) (sent_back (PutOne e) remote) remote.
Proof.
  intros Ha [Hl Hok] remote. subst remote. unfold sent_back, remote_back, local_back, freed, etr_event_put. rewrite Hl.
  destruct (modified e); [|done]. destruct (Hok eq_refl) as [Hout Hw].
  rewrite sent_event_ok by done. step. rewrite (ask_status_of v _ (put_stored (stored v e) att (place_of e)));
    [|apply ints_nonempty|by apply answers_put|apply put_small, event_put_status].
  destruct (put_stored _ _ _) as [[err v']| | |] eqn:E; try done. step. cbn [agrees fst snd].
  rewrite (status_word err) by exact (put_small _ _ (event_put_status _ _ _ _) _ E). done.
Qed.

Lemma put_many_link v att l : int_ok att → back_ok (PutMany l) v → all_fit ms →
  let remote := remote_back (PutMany l) (idle v) att in agrees (local_back (PutMany l) v att) (sent_back (PutMany l) remote) remote.
Proof.
  intros Ha (Hl & Hout & Hw & Hn & Hm) Hf remote. subst remote.
  unfold sent_back, remote_back, local_back, freed, etr_events_put. rewrite Hl.
  destruct (bool_decide_reflect (List.filter modified l = [])) as [E|E]; [done|]. rewrite (fit_array ms Hf). cbn [negb].
  rewrite sent_events_ok by done. step. apply several_link; [apply ints_nonempty|by apply answers_puts|apply put_small, events_put_status].
Qed.

Lemma dump_one_link v att e : int_ok att → back_ok (DumpOne e) v →
  let remote := remote_back (DumpOne e) (idle v) att in agrees (local_back (DumpOne e) v att) (sent_back (DumpOne e) remote) remote.
Proof.
  intros Ha Hok remote. subst remote. unfold sent_back, remote_back, local_back, freed, etr_event_dump.
  destruct (modified e) eqn:Hm; [|done]. specialize (Hok Hm).
  rewrite (ask_status_of v _ (dump_place v att (place_of e))); [|apply request_more|by apply answers_dump|apply put_small, event_dump_status].
  destruct (dump_place _ _ _) as [[err v']| | |] eqn:E; try done. step. cbn [agrees fst snd].
  rewrite (status_word err) by exact (put_small _ _ (event_dump_status _ _ _ _) _ E). done.
Qed.

Lemma dump_many_link v att l : int_ok att → back_ok (DumpMany l) v → all_fit ms →
  let remote := remote_back (DumpMany l) (idle v) att in agrees (local_back (DumpMany l) v att) (sent_back (DumpMany l) remote) remote.
Proof.
  intros Ha (Hp & Hn & Hm) Hf remote. subst remote. unfold sent_back, remote_back, local_back, freed, etr_events_dump.
  destruct (bool_decide_reflect (List.filter modified l = [])) as [E|E]; [done|]. rewrite (fit_array ms Hf). cbn [negb].
  replace (place_of <$> List.filter modified l) with (Z.to_nat <$> (re_place <$> List.filter modified l)) by by rewrite <- list_fmap_compose.
  apply several_link; [apply request_more| |apply put_small, events_dump_status].
  rewrite <- (length_fmap re_place). apply answers_dumps; rewrite ?length_fmap; [done| |done|done]. by apply Forall_fmap.
Qed.


(** ** Events that come back unchanged *)

(** The copy of an event that the process will modify as a whole. *)
Definition kept_for_process (v : server) (x : nat) : Prop :=
  in_order v x ∧ ∃ e, events_of_system v !! x = Some e ∧ e_modify e = ET_MODIFY.

Lemma server_again v x e b : events_of_system v !! x = Some e → v_buffers v !! x = Some b →
  v <| v_id := set_sys (v_id v) (d_sys (v_id v) <| y_events ::= <[x := e]> |>) |> <| v_buffers ::= <[x := b]> |> = v.
Proof.
  unfold events_of_system, set_sys. destruct v as [[? ? ? ? ? ? ? []] ? ? ? ? ? ?]. intros He Hb. unfold update.
  cbn in He, Hb |- *. unfold update. cbn. by rewrite (insert_id _ _ _ He), (insert_id _ _ _ Hb).
Qed.

Lemma copy_outgoing v x re : kept_for_process v x → copy_of v ET_MODIFY x re →
  outgoing re ∧ writable v re ∧ stored v re = v ∧ place_of re = x ∧ modified re = true ∧ too_long_to_put re = false ∧ users_buffer re = false.
Proof.
  intros [(e & b & He & Hb & Hs & Hl & Hi & Hd & Ho & Hx) (e' & He' & Hm)] (e0 & b0 & data & He0 & Hb0 & -> & Hlen & Hdata).
  assert (e' = e) as -> by congruence. assert (e0 = e) as -> by congruence. assert (b0 = b) as -> by congruence. clear He' He0 Hb0.
  assert (place_of (mkRevent (copied e ET_MODIFY) (Z.of_nat x) (b_byteorder b) (Some data)) = x) as Hp by apply Nat2Z.id.
  split_and!.
  - destruct Hs. constructor; cbn [re_event re_place re_byteorder re_data].
    + by constructor.
    + destruct Hx. lia.
    + done.
    + by split.
    + done.
    + intros _. exists data. split; [done|]. change (e_length (copied e ET_MODIFY)) with (e_length e). lia.
  - exists e, b. rewrite Hp. split_and!; [done..|]. cbn. rewrite Hd. destruct Hs. lia.
  - unfold stored. rewrite Hp, He, Hb.
    assert (filled (copied e ET_MODIFY) e = e) as Ef by by destruct e.
    assert (overwritten (mkRevent (copied e ET_MODIFY) (Z.of_nat x) (b_byteorder b) (Some data)) b = b_data b) as Ed.
    { unfold overwritten. change (whole _) with true. cbv iota. cbn [re_data re_event default from_option id].
      change (e_length (copied e ET_MODIFY)) with (e_length e). rewrite Hdata. apply take_drop. }
    cbn [re_event re_byteorder]. rewrite Ef, Ed. replace (mkBuffer _ _) with b by by destruct b. by apply server_again.
  - done.
  - done.
  - unfold too_long_to_put. cbn. apply Z.ltb_ge. lia.
  - done.
Qed.

Lemma copies_outgoing v pe l : Forall (kept_for_process v) pe → Forall2 (copy_of v ET_MODIFY) pe l →
  Forall outgoing l ∧ Forall (writable v) l ∧ all_stored v l = v ∧ place_of <$> l = pe ∧ List.filter modified l = l ∧
  existsb too_long_to_put l = false ∧ (λ e, negb (users_buffer e)) <$> l = replicate (length pe) true.
Proof.
  intros Hpe Hl. induction Hl as [|x re pe l H _ IH]; [by split_and!|].
  apply list.Forall_cons in Hpe as [Hx Hpe]. destruct (IH Hpe) as (H1 & H2 & H3 & H4 & H5 & H6 & H7).
  destruct (copy_outgoing v x re Hx H) as (E1 & E2 & E3 & E4 & E5 & E6 & E7).
  unfold all_stored in *. cbn [foldl fmap list_fmap List.filter existsb length replicate]. rewrite E3, E5, E6, E7, H3, H5, H6, H4, E4, H7.
  split_and!; try done; by constructor.
Qed.

(** C24: events go to a remote process and come back.  Copies that a process got of events
    that it will modify, put by it unchanged, leave those events in the system as they are:
    the call is [et_events_put] for their places and nothing else, all fields and bytes
    surviving the two trips; the process frees its copies and their data. *)
Theorem events_come_back pe l v att :
  int_ok att → all_fit ms → pe ≠ [] → Forall (kept_for_process v) pe → Forall2 (copy_of v ET_MODIFY) pe l → fits_system v l →
  let remote := etr_events_put ms (idle v) att l in
  agrees (puts_stored v att pe) (λ x, remote = Ret (x.1, Some (replicate (length pe) true), idle x.2)) remote.
Proof.
  intros Ha Hf Hne Hpe Hl Hn remote. destruct (copies_outgoing v pe l Hpe Hl) as (H1 & H2 & H3 & H4 & H5 & H6 & H7).
  pose proof (put_many_link v att l Ha) as H. cbn [back_ok local_back remote_back] in H. unfold sent_back, freed in H.
  rewrite H5, H3, H4, H7 in H. rewrite bool_decide_false in H; [by apply H|]. intros ->. by inversion Hl; subst.
Qed.

(** ** Events that are refused *)

Lemma put_refused v att x e :
  d_alive (v_id v) = true → d_closed (v_id v) = false → ml_writer (d_mem (v_id v)) = false → 0 ≤ att →
  events_of_system v !! x = Some e → e_owner e ≠ att → put_stored v att x = Ret (ET_ERROR, v).
Proof.
  intros Hal Hcl Hw Ha He Ho. unfold put_stored, et_event_put. replace (att <? 0) with false by (symmetry; apply Z.ltb_ge; lia).
  assert (∃ d1, et_memRead_lock (v_id v) = Ret d1) as [d1 E] by (unfold et_memRead_lock; rewrite Hw; by eexists).
  pose proof (unlock_mem _ _ (d_sys (v_id v)) E) as Hu. unfold with_memory. rewrite Hal, E. cbn [negb]. step.
  apply unlock_read in E as [_ ->]. cbn [d_closed update]. ids. rewrite Hcl. unfold ev. step. unfold events_of_system in He. rewrite He. step.
  rewrite (proj2 (Z.eqb_neq _ _) Ho). cbn [negb]. unfold leave. destruct (_ <? _); step; f_equal; f_equal.
  all: destruct v as [[? ? ? ? ? ? [? ?] ?] ? ? ? ? ? ?]; cbn in *; by subst.
Qed.

(** C27: a refused put has been written all the same.  The server stores the header and the
    data of an event that a process sends back before the call finds out that the event is
    not its own: the process gets ET_ERROR, and the event, which somebody else has or is
    in a list of a station, has the sender's fields and data. *)
Theorem refused_put_overwrites v att re e :
  int_ok att → 0 ≤ att → d_alive (v_id v) = true → d_closed (v_id v) = false → ml_writer (d_mem (v_id v)) = false →
  events_of_system v !! place_of re = Some e → e_owner e ≠ att →
  outgoing re → writable v re → modified re = true → too_long_to_put re = false →
  etr_event_put (idle v) att re = Ret (ET_ERROR, Some (negb (users_buffer re)), idle (stored v re)) ∧
  events_of_system (stored v re) !! place_of re = Some (filled (re_event re) e) ∧
  (whole re = true → ∃ b data, v_buffers (stored v re) !! place_of re = Some b ∧ re_data re = Some data ∧
    b_byteorder b = re_byteorder re ∧
    take (Z.to_nat (e_length (re_event re))) (b_data b) = take (Z.to_nat (e_length (re_event re))) data).
Proof.
  intros Ha Ha0 Hal Hcl Hwr He Ho Hout Hw Hm Hl.
  pose proof (put_one_link v att re Ha (conj Hl (λ _, conj Hout Hw))) as H. cbn [local_back remote_back] in H. unfold sent_back, freed in H.
  rewrite Hm in H. destruct Hw as (e' & b & He' & Hb & Hmod & Hlen).
  assert (events_of_system (stored v re) !! place_of re = Some (filled (re_event re) e)) as Hs.
  { unfold stored. rewrite He, Hb. unfold events_of_system. cbn [v_id set_sys d_sys update y_events]. unfold set_sys. ids. fields.
    by rewrite lookup_insert_eq. }
  assert (∃ y m, stored v re = v <| v_id := set_sys (v_id v) y |> <| v_buffers := m |>) as (y & m & Ey).
  { unfold stored. rewrite He, Hb. by eexists _, _. }
  split_and!; [|done|].
  - rewrite (put_refused (stored v re) att (place_of re) (filled (re_event re) e)) in H;
      [|rewrite Ey; by destruct v as [[]]..|done|done|done].
    cbn [agrees fst snd] in H. destruct (etr_event_put _ _ _) as [[[st f] c]| | |]; try done. step.
    cbn in H. destruct f as [f|]; [|done]. by injection H as -> -> ->.
  - intros Hwh. destruct (out_data re Hout Hwh) as (data & Hd & Hdl). unfold stored. rewrite He, Hb. exists (mkBuffer (re_byteorder re) (overwritten re b)), data.
    split_and!; [cbn; by rewrite lookup_insert_eq|done|done|]. cbn [b_data]. unfold overwritten. rewrite Hwh, Hd. cbn [default from_option id].
    rewrite take_app_length' by (rewrite length_take; lia). done.
Qed.
End Put.

(** ** Examples *)

(** The server [clerk] after a process got the events 2 and 3, and the copies of it. *)
Definition clerk_kept : server :=
  match keep_modify (clerk_after clerk_get) [2; 3]%nat ET_MODIFY with Ret v => v | _ => clerk end.
Definition clerk_copy (x : nat) : revent :=
  match events_of_system clerk_kept !! x, v_buffers clerk_kept !! x with
  | Some e, Some b => mkRevent (copied e ET_MODIFY) (Z.of_nat x) (b_byteorder b) (Some (b_data b))
  | _, _ => mkRevent et_init_event 0 0 None
  end.
Definition changed (re : revent) : revent :=
  re <| re_event ::= λ e, e <| e_length := 7 |> <| e_priority := 1 |> |>.
Notation far_back := (remote_back (λ _, true) true (λ _ y, y) (-77) yes clerk_memory hang_up plenty).
Notation far_put := (@etr_event_put link (link_conn (λ _, true) true (λ _ y, y) (-77) (serve_events yes clerk_memory hang_up))).
Notation far_puts := (@etr_events_put link (link_conn (λ _, true) true (λ _ y, y) (-77) (serve_events yes clerk_memory hang_up)) plenty).

Lemma kept_ok x : all_in_order clerk_kept [x] = true →
  from_option e_modify 0 (events_of_system clerk_kept !! x) = ET_MODIFY →
  kept_for_process clerk_kept x ∧ copy_of clerk_kept ET_MODIFY x (clerk_copy x).
Proof.
  intros H Hm. apply all_in_order_ok, Forall_inv in H. pose proof H as (e & b & He & Hb & _). split.
  - split; [exact H|]. exists e. rewrite He in *. by split.
  - exists e, b, (b_data b). unfold clerk_copy. rewrite He, Hb. by split_and!.
Qed.

Lemma clerk_kept_copies : Forall (kept_for_process clerk_kept) [2; 3]%nat ∧ Forall2 (copy_of clerk_kept ET_MODIFY) [2; 3]%nat (clerk_copy <$> [2; 3]%nat).
Proof.
  destruct (kept_ok 2) as [H1 H2]; [vm_compute; reflexivity..|]. destruct (kept_ok 3) as [H3 H4]; [vm_compute; reflexivity..|].
  split; [constructor; [exact H1|constructor; [exact H3|constructor]]|constructor; [exact H2|constructor; [exact H4|constructor]]].
Qed.

(** What agrees with a result, when that is known. *)
Lemma agrees_pair {A B C} (r : res (A * B)) (P : A → B → Prop) (s : res C) a b :
  r = Ret (a, b) → agrees r (λ x, P x.1 x.2) s → P a b.
Proof. by intros ->. Qed.

Lemma changed_ok : outgoing (changed (clerk_copy 2)) ∧ writable clerk_kept (changed (clerk_copy 2)).
Proof.
  split.
  - constructor.
    + refine (proj1 (sends_ok _ _)). vm_compute. reflexivity.
    + vm_compute. split; [discriminate|reflexivity].
    + vm_compute. split; [discriminate|reflexivity].
    + vm_compute. split; [reflexivity|discriminate].
    + vm_compute. reflexivity.
    + intros _. exists (replicate 100 2). split; [vm_compute; reflexivity|vm_compute; discriminate].
  - destruct (kept_ok 2) as [[(e & b & He & Hb & _) (e' & He' & Hm)] _]; [vm_compute; reflexivity..|]. exists e, b.
    assert (place_of (changed (clerk_copy 2)) = 2%nat) as -> by (vm_compute; reflexivity).
    split; [exact He|]. split; [exact Hb|]. split.
    + rewrite He in He'. injection He' as <-. rewrite Hm. vm_compute. reflexivity.
    + assert (v_buffers clerk_kept !! 2%nat = Some (mkBuffer local_order (replicate 100 2))) as E by (vm_compute; reflexivity).
      rewrite Hb in E. injection E as ->. vm_compute. discriminate.
Qed.


Lemma events_come_back_witness :
  let v := match puts_stored yes clerk_kept 0 [2; 3]%nat with Ret (_, v) => v | _ => clerk end in
  far_puts (idle clerk_kept) 0 (clerk_copy <$> [2; 3]%nat) = Ret (ET_OK, Some [true; true], idle v).
Proof.
  intros v. destruct clerk_kept_copies as [H1 H2].
  pose proof (events_come_back (λ _, true) true (λ _ y, y) (-77) yes clerk_memory hang_up plenty [2; 3]%nat _ clerk_kept 0
    ltac:(split; done) plenty_fits ltac:(done) H1 H2 ltac:(vm_compute; split; [discriminate|reflexivity])) as H.
  assert (puts_stored yes clerk_kept 0 [2; 3]%nat = Ret (ET_OK, v)) as E by (vm_compute; reflexivity).
  cbv zeta in H. cbn [length replicate] in H.
  exact (agrees_pair _ (λ err v, far_puts (idle clerk_kept) 0 (clerk_copy <$> [2; 3]%nat) = Ret (err, Some [true; true], idle v)) _ _ _ E H).
Defined.

(** The attachment 1 puts the event 2, which the attachment 0 has. *)
Lemma refused_put_overwrites_witness :
  let re := changed (clerk_copy 2) in
  far_put (idle clerk_kept) 1 re = Ret (ET_ERROR, Some true, idle (stored clerk_kept re)) ∧
  events_of_system clerk_kept !! 2%nat ≠ events_of_system (stored clerk_kept re) !! 2%nat.
Proof.
  intros re. split; [|vm_compute; discriminate].
  destruct changed_ok as [Ho Hw].
  destruct (refused_put_overwrites (λ _, true) true (λ _ y, y) (-77) yes clerk_memory hang_up plenty clerk_kept 1 re
    (match events_of_system clerk_kept !! 2%nat with Some e => e | None => et_init_event end)) as [H _];
    [split; done|lia|vm_compute; reflexivity|vm_compute; reflexivity|vm_compute; reflexivity|vm_compute; reflexivity
    |vm_compute; discriminate|exact Ho|exact Hw|vm_compute; reflexivity|vm_compute; reflexivity|].
  assert (negb (users_buffer re) = true) as Eu by (vm_compute; reflexivity). rewrite Eu in H. exact H.
Defined.
