(* ===== verification/EtWaitEnds.v ===== *)
(** * Waits end

    A script says what happens while a reader waits; when nothing more happens a call that
    waits is [Blocked], and never too late.  So the loops around the calls that wait make
    at most one call more than there are things to happen: the fuel of the models is
    enough, and a limit of it changes nothing. *)

From S2P Require Import Prelude Words EtTypes EtLists EtConductor EtAccess EtWaiting EtDetached EtStations EtEventCalls.
From S2P Require Import EtNet EtSettings EtEventNet EtServer EtEventServer EtEventRemote EtRemoteSpec EtEventLink EtLife EtRemoteEvents.

(** The fuel is enough, and a result is as [P] says. *)
Definition ends {A} (P : A → Prop) (r : res A) : Prop :=
  match r with Ret a => P a | NoFuel => False | _ => True end.
Notation returns := (ends (λ _, True)).

Lemma ends_bind {A B} (P : A → Prop) (Q : B → Prop) (r : res A) (k : A → res B) :
  ends P r → (∀ x, P x → ends Q (k x)) → ends Q (r ≫= k).
Proof. destruct r as [x| | |]; intros H Hk; try done. by apply Hk. Qed.
Lemma ends_weaken {A} (P Q : A → Prop) (r : res A) : ends P r → (∀ x, P x → Q x) → ends Q r.
Proof. destruct r; intros H HPQ; try done. by apply HPQ. Qed.

(** A script without awakenings has no timeout. *)
Definition in_time (late : bool) (st : Z) : Prop := late = false → st ≠ ET_ERROR_TIMEOUT.
Definition lateness {A} (l : list A) : bool := match l with [] => false | _ => true end.

Lemma in_time_const late st : st ≠ ET_ERROR_TIMEOUT → in_time late st.
Proof. by intros H _. Qed.

Create HintDb ends.

(** Goes through a body; what the hints do not settle is left. *)
Ltac endings :=
  repeat first
    [ done
    | solve [eauto with ends]
    | match goal with
      | |- ends _ (Ret _) => cbn [ends fst snd]
      | |- ends _ (leave _ _ _) => unfold leave; cbn [ends fst snd]
      | |- in_time _ _ => solve [assumption | apply in_time_const; first [assumption | discriminate]]
      | |- ends _ (_ ≫= _) => eapply ends_bind; [solve [eauto with ends]|]; intros ? ?; cbn [fst snd] in *
      | |- ends _ (let _ := _ in _) => cbv zeta
      | |- ends _ (if ?c then _ else _) => destruct c eqn:?
      | |- ends _ (match ?c with _ => _ end) => destruct c eqn:?
      end ].

(** ** Operations without loops that need fuel *)

Lemma of_option_ends {A} (o : option A) : returns (of_option o).
Proof. by destruct o. Qed.
#[local] Hint Resolve of_option_ends : ends.
Lemma ev_ends m p : returns (ev m p).
Proof. unfold ev. endings. Qed.
#[local] Hint Resolve ev_ends : ends.
Lemma ev_set_ends m p f : returns (ev_set m p f).
Proof. unfold ev_set. endings. Qed.
Lemma aget_ends {A} (l : list A) i : returns (aget l i).
Proof. unfold aget. endings. Qed.
Lemma aset_ends {A} (l : list A) i x : returns (aset l i x).
Proof. unfold aset. endings. Qed.
Lemma station_ends y i : returns (station y i).
Proof. apply of_option_ends. Qed.
Lemma attachment_ends y att : returns (attachment y att).
Proof. apply aget_ends. Qed.
#[local] Hint Resolve ev_set_ends aget_ends aset_ends station_ends attachment_ends : ends.
Lemma set_attachment_ends y att f : returns (set_attachment y att f).
Proof. unfold set_attachment. endings. Qed.
Lemma lock_list_ends y i : returns (lock_list y i).
Proof. unfold lock_list, et_llist_lock. endings. destruct (li_lock _); endings. Qed.
Lemma count_inputs_ends y i n : returns (count_inputs y i n).
Proof. unfold count_inputs. endings. Qed.
Lemma system_lock_ends y : returns (et_system_lock y).
Proof. unfold et_system_lock. endings. Qed.
Lemma memory_lock_ends d : returns (et_memRead_lock d).
Proof. unfold et_memRead_lock. endings. Qed.
Lemma each_ends pe f m : returns (each m pe f).
Proof. revert m. induction pe as [|x pe IH]; intros m; cbn [each]; endings. Qed.
#[local] Hint Resolve set_attachment_ends lock_list_ends count_inputs_ends system_lock_ends memory_lock_ends each_ends : ends.
Lemma each_event_ends y pe f : returns (each_event y pe f).
Proof. unfold each_event. endings. Qed.
Lemma cond_wait_ends y i att run : returns (cond_wait y i att run).
Proof. unfold cond_wait. endings. Qed.
Lemma quits_ends y i att : returns (quits y i att).
Proof. unfold quits. endings. Qed.
#[local] Hint Resolve each_event_ends cond_wait_ends quits_ends : ends.
Lemma take_events_ends n m p att : returns (take_events m p att n).
Proof. revert m p. induction n as [|n IH]; intros m p; cbn [take_events]; endings. Qed.
#[local] Hint Resolve take_events_ends : ends.
Lemma nread_take_ends m s att num : returns (nread_take m s att num).
Proof. unfold nread_take. endings. Qed.
Lemma read_take_ends m s att : returns (read_take m s att).
Proof. unfold read_take. endings. Qed.
Lemma group_loop_ends n m pl pev prev att group num acc : returns (group_loop m pl pev prev att group num acc n).
Proof.
  revert m pl pev prev acc. induction n as [|n IH]; intros m pl pev prev acc; cbn [group_loop]; endings.
  eapply (ends_bind (λ _, True)); [destruct prev; endings|]. intros ? _. endings.
Qed.
#[local] Hint Resolve group_loop_ends : ends.
Lemma nread_group_take_ends m s att num group : returns (nread_group_take m s att num group).
Proof. unfold nread_group_take. endings. Qed.
#[local] Hint Resolve nread_take_ends read_take_ends nread_group_take_ends : ends.

(** ** Reading *)

(** The status, and the rest of the script, shorter if there must be an awakening. *)
Definition waited (must : bool) (ws : script) (x : Z * et_system * script) : Prop :=
  in_time (lateness ws) x.1.1 ∧ (length x.2 + (if must then 1 else 0) ≤ length ws)%nat.

Lemma wait_events_ends y i att must ws : ends (waited must ws) (wait_events y i att must ws).
Proof.
  revert y must. induction ws as [|[w run] ws IH]; intros y must; cbn [wait_events]; endings.
  all: try (split; cbn [fst snd length lateness]; [endings|destruct must; try done; lia]).
  match goal with |- ends _ (wait_events ?y _ _ _ _) => eapply ends_weaken; [apply (IH y false)|] end.
  intros r [Ht Hr]. split; [done|]. cbn [length]. destruct must; lia.
Qed.

Lemma untimed_length ws : length (untimed ws) = length ws.
Proof. apply length_fmap. Qed.
Lemma untimed_late ws : lateness (untimed ws) = lateness ws.
Proof. by destruct ws. Qed.

Lemma wait_events_mode y i att must mode ws :
  ends (waited must ws) (wait_events y i att must (if mode =? ET_SLEEP then untimed ws else ws)).
Proof.
  destruct (mode =? ET_SLEEP); [|apply wait_events_ends]. eapply ends_weaken; [apply wait_events_ends|].
  intros x [H1 H2]. rewrite untimed_length, untimed_late in *. by split.
Qed.

Lemma wait_input_ends y i mode att ws : ends (waited false ws) (wait_input y i mode att ws).
Proof.
  unfold wait_input. endings; try apply wait_events_mode; split; cbn [fst snd]; (endings || lia).
Qed.

(** In the modes that wait, and after the list was scanned, there is an awakening. *)
Lemma wait_group_ends y i mode att scan ws :
  ends (waited (((mode =? ET_SLEEP) || (mode =? ET_TIMED)) && negb scan) ws) (wait_group y i mode att scan ws).
Proof.
  unfold wait_group. destruct (_ || _); [|apply wait_input_ends]. endings.
  eapply (ends_bind (λ _, True)); [destruct scan; endings; apply count_inputs_ends|]. intros y1 _. apply wait_events_mode.
Qed.
#[local] Hint Resolve wait_input_ends wait_group_ends : ends.

(** A reader ends in time. *)
Definition read_ends (late : bool) {A B} (r : res (Z * A * B)) : Prop := ends (λ x, in_time late x.1.1) r.

Lemma et_station_read_ends y i mode att ws : read_ends (lateness ws) (et_station_read y i mode att ws).
Proof. unfold read_ends, et_station_read. endings. by destruct H as [H _]. Qed.

Lemma et_station_nread_ends y i mode att ws num : read_ends (lateness ws) (et_station_nread y i mode att ws num).
Proof. unfold read_ends, et_station_nread. endings. by destruct H as [H _]. Qed.

(** A mode that does not wait has one round. *)
Lemma read_group_once fuel y i mode att ws num group scan :
  (mode =? ET_SLEEP) || (mode =? ET_TIMED) = false →
  read_ends (lateness ws) (read_group_loop y i mode att ws num group scan (S fuel)).
Proof.
  intros Hm. unfold read_ends. cbn [read_group_loop]. unfold wait_group. rewrite Hm.
  destruct (Z.eqb_spec mode ET_ASYNC) as [->|Hne].
  - eapply ends_bind; [apply wait_input_ends|]. intros [[st y1] ws1] [H1 _]. cbn [fst snd] in *. endings.
    by rewrite andb_false_r in *.
  - unfold wait_input. rewrite Hm, (proj2 (Z.eqb_neq _ _) Hne). step. cbn. by apply in_time_const.
Qed.

(** Each round after the first waits for an awakening. *)
Lemma read_group_ends fuel y i mode att ws num group (scan late : bool) :
  (mode =? ET_SLEEP) || (mode =? ET_TIMED) = true →
  (lateness ws = true → late = true) → (length ws + (if scan then 1 else 0) < fuel)%nat →
  read_ends late (read_group_loop y i mode att ws num group scan fuel).
Proof.
  intros Hm. unfold read_ends. revert y ws num scan. induction fuel as [|fuel IH]; intros y ws num scan Hlate Hfuel; [lia|].
  cbn [read_group_loop]. eapply ends_bind; [apply wait_group_ends|]. rewrite Hm. intros [[st y1] ws1] [H1 H2]. cbn [fst snd andb] in *.
  assert (in_time late st) as Ht.
  { intros ->. apply H1. destruct (lateness ws); [by discriminate Hlate|done]. }
  destruct (Z.eqb_spec st ET_OK) as [->|Hst]; cbn [negb]; [|done]. endings.
  apply IH; [intros Hl; destruct ws, ws1; (done || (cbn in *; destruct scan; cbn in *; lia) || by apply Hlate)|].
  destruct scan; cbn [negb] in *; lia.
Qed.

Lemma et_station_nread_group_ends y i mode att ws num group :
  read_ends (lateness ws) (et_station_nread_group y i mode att ws num group).
Proof.
  unfold et_station_nread_group. destruct (num <? 1); [by apply in_time_const|].
  destruct ((mode =? ET_SLEEP) || (mode =? ET_TIMED)) eqn:E; [|by apply read_group_once].
  apply read_group_ends; [done|done|lia].
Qed.

(** ** The calls *)

Lemma event_make_ends os y x size :
  ends (λ r, (r.1 = ET_ERROR_TOOMANY → (y_max_temps y <=? y_ntemps y) = true) ∧ r.1 ≠ ET_ERROR_TIMEOUT) (et_event_make os y x size).
Proof.
  unfold et_event_make, et_system_lock. destruct (y_mutex y); [done|]. step. fields.
  destruct (_ <=? _) eqn:E; cbn [ends]; [done|]. endings; done.
Qed.

(** The second attempt does not find too many temporary events. *)
Lemma wait_temps_free y naps n y1 naps1 : wait_temps y naps n = (true, y1, naps1) → (y_max_temps y1 <=? y_ntemps y1) = false.
Proof.
  revert y naps. induction n as [|n IH]; intros y naps; cbn [wait_temps]; [done|].
  destruct (y_max_temps y <=? y_ntemps y) eqn:E.
  - destruct naps; apply IH.
  - by intros [= <- _].
Qed.

(** A status that is no timeout. *)
Notation never_late := (ends (λ x, x.1.1 ≠ ET_ERROR_TIMEOUT)).

Lemma make_event_ends os y x size naps : never_late (make_event os y x size naps 2).
Proof.
  cbn [make_event]. eapply ends_bind; [apply event_make_ends|]. intros [st y1] [_ H1]. cbn [fst] in *.
  destruct (Z.eqb_spec st ET_ERROR_TOOMANY) as [->|Hst]; cbn [negb]; [|done].
  destruct (wait_temps _ _ _) as [[free y2] naps2] eqn:E. destruct free; [|done]. apply wait_temps_free in E.
  eapply ends_bind; [apply event_make_ends|]. intros [st2 y3] [H2 H3]. cbn [fst] in *.
  destruct (Z.eqb_spec st2 ET_ERROR_TOOMANY) as [->|Hst2]; cbn [negb]; [|done]. by rewrite (H2 eq_refl) in E.
Qed.

Lemma make_events_ends os y pe size naps : ends (λ x, x.1 ≠ ET_ERROR_TIMEOUT) (make_events os y pe size naps).
Proof.
  revert y naps. induction pe as [|x pe IH]; intros y naps; cbn [make_events]; [done|].
  eapply ends_bind; [apply make_event_ends|]. intros [[st y1] naps1] H. cbn [fst] in *. destruct (_ =? _); cbn [negb]; [apply IH|done].
Qed.

Section Calls.
  Context (os : answers) (att : Z) (late : bool).

Lemma furnish_ends d pe size naps : read_ends late (furnish os d att pe size naps).
Proof.
  unfold read_ends, furnish. eapply (ends_bind (λ x, x.1 ≠ ET_ERROR_TIMEOUT)).
  - destruct (_ <? _); [apply make_events_ends|]. eapply ends_bind; [apply each_event_ends|]. done.
  - intros [st y] H. cbn [fst] in *. destruct (_ =? _); cbn [negb]; endings.
Qed.

Lemma read_failed_ends d st : in_time late st → read_ends late (read_failed os d st).
Proof. intros H. unfold read_ends, read_failed, leave. cbn. by destruct (_ && _). Qed.

Lemma get_new_ends d size naps read : (∀ y, read_ends late (read y)) → read_ends late (get_new os d att size naps read).
Proof.
  intros Hr. unfold read_ends, get_new. endings. eapply ends_bind; [apply Hr|]. intros [[st pe] y] Hst. cbn [fst] in *.
  destruct (st =? ET_OK); cbn [negb]; [apply furnish_ends|by apply read_failed_ends].
Qed.

Lemma attach_buffers_ends m pe : returns (attach_buffers os m pe).
Proof. induction pe as [|x pe IH]; cbn [attach_buffers]; endings. Qed.

Lemma get_events_ends d read : (∀ y i, read_ends late (read y i)) → read_ends late (get_events os d att read).
Proof.
  intros Hr. unfold read_ends, get_events. endings. eapply ends_bind; [apply Hr|]. intros [[st pe] y] Hst. cbn [fst] in *.
  destruct (st =? ET_OK); cbn [negb]; [|by apply read_failed_ends]. eapply ends_bind; [apply attach_buffers_ends|]. intros ok _. endings.
Qed.

Lemma with_memory_ends {A} d (body : et_id → res (Z * option A * et_id)) :
  (∀ d, read_ends late (body d)) → read_ends late (with_memory d body).
Proof. intros Hb. unfold read_ends, with_memory. endings. apply Hb. Qed.
End Calls.

(** The calls that wait. *)
Definition call_ends (call : waiting_call) : Prop :=
  ∀ d mode dt ws naps, read_ends (lateness ws) (call d mode dt ws naps).

Ltac refusals := repeat match goal with |- read_ends _ (if ?c then Ret _ else _) => destruct c; [by apply in_time_const|] end.

Lemma events_new_group_ends os att size num group :
  call_ends (λ d mode dt ws naps, et_events_new_group os d att true mode dt size num group ws naps).
Proof.
  intros d mode dt ws naps. unfold et_events_new_group. refusals. apply with_memory_ends. intros d1.
  destruct (_ <? group); [by apply in_time_const|]. apply get_new_ends. intros y. apply et_station_nread_group_ends.
Qed.

Lemma events_new_ends os att size num : call_ends (λ d mode dt ws naps, et_events_new os d att true mode dt size num ws naps).
Proof.
  intros d mode dt ws naps. unfold et_events_new. destruct (negb _); [apply events_new_group_ends|]. refusals.
  apply with_memory_ends. intros d1. apply get_new_ends. intros y. apply et_station_nread_ends.
Qed.

Lemma read_one_ends y i mode att ws :
  read_ends (lateness ws) ('(status, x, y) ← et_station_read y i mode att ws; Ret (status, option_list x, y)).
Proof. eapply ends_bind; [apply et_station_read_ends|]. by intros [[st x] y1] H. Qed.

Lemma event_new_ends os att size : call_ends (λ d mode dt ws naps, et_event_new os d att true mode dt size ws naps).
Proof.
  intros d mode dt ws naps. unfold et_event_new. destruct (negb _); [apply events_new_group_ends|]. refusals.
  apply with_memory_ends. intros d1. apply get_new_ends. intros y. apply read_one_ends.
Qed.

Lemma event_get_ends os att : call_ends (λ d mode dt ws _, et_event_get os d att true mode dt ws).
Proof.
  intros d mode dt ws naps. unfold et_event_get. refusals. apply with_memory_ends. intros d1. apply get_events_ends.
  intros y i. apply read_one_ends.
Qed.

Lemma events_get_ends os att num : call_ends (λ d mode dt ws _, et_events_get os d att true mode dt num ws).
Proof.
  intros d mode dt ws naps. unfold et_events_get. refusals. apply with_memory_ends. intros d1. apply get_events_ends.
  intros y i. apply et_station_nread_ends.
Qed.

Lemma local_new_ends os call att : call_ends (local_new os call att).
Proof. destruct call; [apply event_new_ends|apply events_new_ends|apply events_new_group_ends]. Qed.
Lemma local_get_ends os call att : call_ends (local_get os call att).
Proof. destruct call; [apply event_get_ends|apply events_get_ends]. Qed.

(** ** The server *)

(** A timeout uses up one of the waits to come, of which there must have been one. *)
Definition one_less (v : server) (st : Z) (v' : server) : Prop :=
  st = ET_ERROR_TIMEOUT → (length (v_waits v') < length (v_waits v))%nat.

Lemma change_waits v att f : ends (λ v', v_waits v' = v_waits v) (change_attachment v att f).
Proof. unfold change_attachment. endings. Qed.

Lemma quit_waits v att : ends (λ q, True) (told_to_quit v att).
Proof. unfold told_to_quit. endings. eapply ends_bind; [apply change_waits|]. done. Qed.

Lemma call_once_ends v call mode dt : call_ends call →
  ends (λ x, one_less v x.1.1.1 x.2 ∧ (length (v_waits x.2) ≤ length (v_waits v))%nat) (call_once v call mode dt).
Proof.
  intros Hc. unfold call_once, one_less. destruct (v_waits v) as [|w ws] eqn:E.
  - eapply ends_bind; [apply (Hc (v_id v) mode dt [] [])|]. intros [[st pe] d] H. cbn in *. split; [|lia]. intros E1. by destruct (H eq_refl E1).
  - eapply ends_bind; [apply (Hc (v_id v) mode dt (w_script w) (w_naps w))|]. intros [[st pe] d] H. cbn in *. lia.
Qed.

Lemma wait_once_ends v att wait sec nsec call : call_ends call →
  ends (λ x, one_less v x.1.1 x.2) (wait_once v att wait sec nsec call).
Proof.
  intros Hc. unfold wait_once. destruct (_ =? _).
  - eapply ends_bind; [apply change_waits|]. intros v1 H1. eapply ends_bind; [apply quit_waits|]. intros [v2|] _; [done|].
    eapply ends_bind; [by apply call_once_ends|]. intros [[[st pe] h] v3] [H _]. unfold one_less in *. cbn in *. by rewrite H1 in H.
  - eapply ends_bind; [by apply call_once_ends|]. by intros [[[st pe] h] v3] [H _].
Qed.

Lemma sleep_loop_ends v att call fuel : call_ends call → (length (v_waits v) < fuel)%nat → returns (sleep_loop v att call fuel).
Proof.
  intros Hc. revert v. induction fuel as [|fuel IH]; intros v Hf; [lia|]. cbn [sleep_loop].
  eapply ends_bind; [apply quit_waits|]. intros [v1|] _; [done|].
  eapply ends_bind; [by apply call_once_ends|]. intros [[[st pe] h] v3] [H _]. unfold one_less in H. cbn [fst snd] in H.
  destruct (Z.eqb_spec st ET_ERROR_TIMEOUT) as [->|Hst].
  - destruct h; [done|]. apply IH. specialize (H eq_refl). lia.
  - eapply ends_bind; [apply change_waits|]. done.
Qed.

Lemma repeated_ends one v wait it fuel :
  (∀ v, ends (λ x, one_less v x.1.1 x.2) (one v)) → (length (v_waits v) < fuel)%nat → returns (repeated one v wait it fuel).
Proof.
  intros H1. revert v it. induction fuel as [|fuel IH]; intros v it Hf; [lia|]. cbn [repeated].
  eapply ends_bind; [apply H1|]. intros [[st pe] v1] H. unfold one_less in H. cbn [fst snd] in H.
  destruct (Z.eqb_spec st ET_ERROR_TIMEOUT) as [->|Hst]; [|done]. specialize (H eq_refl).
  destruct (_ =? _); [apply IH; lia|]. destruct (0 <? it); [apply IH; lia|done].
Qed.

(** More fuel makes no difference. *)
Lemma repeated_more one v wait it fuel : repeated one v wait it fuel ≠ NoFuel → repeated one v wait it (S fuel) = repeated one v wait it fuel.
Proof.
  revert v it. induction fuel as [|fuel IH]; intros v it Hne; [done|]. cbn [repeated] in *.
  destruct (one v) as [[[st pe] v1]| | |]; try done. step. cbn [mbind res_bind] in Hne.
  destruct (st =? _); [|done]. destruct (wait =? _); [by apply IH|]. destruct (0 <? it); [by apply IH|done].
Qed.

Lemma repeated_enough one v wait it fuel n :
  (n ≤ fuel)%nat → repeated one v wait it n ≠ NoFuel → repeated one v wait it fuel = repeated one v wait it n.
Proof.
  intros Hle Hne. induction Hle as [|fuel Hle IH]; [done|]. rewrite repeated_more; [done|by rewrite IH].
Qed.

Lemma repeated_limited one v wait it fuel :
  (∀ v, returns (one v)) → wait ≠ ET_SLEEP → (Z.to_nat it < fuel)%nat → returns (repeated one v wait it fuel).
Proof.
  intros H1 Hw. revert v it. induction fuel as [|fuel IH]; intros v it Hf; [lia|]. cbn [repeated].
  eapply ends_bind; [apply H1|]. intros [[st pe] v1] _. destruct (st =? _); [|done]. rewrite (proj2 (Z.eqb_neq _ _) Hw).
  destruct (Z.ltb_spec 0 it); [apply IH; lia|done].
Qed.

(** When all are too late the time is over after [it + 1] calls. *)
Lemma repeated_times one v wait it fuel (P : server → Prop) (f : server → server) :
  (∀ v, P v → one v = Ret (ET_ERROR_TIMEOUT, None, f v) ∧ P (f v)) → P v → wait ≠ ET_SLEEP → (Z.to_nat it < fuel)%nat →
  repeated one v wait it fuel = Ret (ET_ERROR_TIMEOUT, None, Nat.iter (S (Z.to_nat it)) f v).
Proof.
  intros H1 Hv Hw. revert v it Hv. induction fuel as [|fuel IH]; intros v it Hv Hf; [lia|]. cbn [repeated].
  destruct (H1 v Hv) as [-> Hp]. step.
  change (ET_ERROR_TIMEOUT =? ET_ERROR_TIMEOUT) with true. cbv iota. rewrite (proj2 (Z.eqb_neq _ _) Hw).
  destruct (Z.ltb_spec 0 it) as [Hi|Hi].
  - rewrite IH by (done || lia). replace (Z.to_nat it) with (S (Z.to_nat (it - 1))) by lia. by rewrite (Nat.iter_succ_r (S _)).
  - by replace (Z.to_nat it) with 0%nat by lia.
Qed.

(** Fuel that is more than what will happen while the server waits, or than the times that
    a process with a limit of time asks. *)
Definition enough (v : server) (mode : Z) (deltatime : option (Z * Z)) (fuel : nat) : Prop :=
  (length (v_waits v) < fuel)%nat ∨
  wait_of mode ≠ ET_SLEEP ∧ ∀ w dt it, net_wait mode deltatime = Ret (w, dt, it) → (Z.to_nat it < fuel)%nat.

Definition waiting (os : answers) (att : Z) (call : waiting_call) : Prop :=
  (∃ c, call = local_new os c att) ∨ ∃ c, call = local_get os c att.

Lemma waiting_ends os att call : waiting os att call → call_ends call.
Proof. intros [[c ->]|[c ->]]; [apply local_new_ends|apply local_get_ends]. Qed.


Lemma quot_up x : 1000000 < x → x ≤ (Z.quot x 200000 + (if 0 <? Z.rem x 200000 then 1 else 0)) * 200000 < x + 200000.
Proof.
  intros Hx. pose proof (Z.quot_rem' x 200000). pose proof (Z.rem_bound_pos x 200000 ltac:(lia) ltac:(lia)).
  destruct (Z.ltb_spec 0 (Z.rem x 200000)); lia.
Qed.

Lemma quot_negative x : -2147483648 ≤ x < 0 → Z.quot x 200000 ≤ 0.
Proof. intros Hx. pose proof (Z.quot_opp_l (- x) 200000 ltac:(lia)) as H. rewrite Z.opp_involutive in H. pose proof (Z.quot_pos (- x) 200000). lia. Qed.

(** C26: how long a remote process waits at most.  With a limit of at most a second it asks
    twice for that time; with a longer one, .2 seconds at a time, once more than the limit
    needs; but a limit between 36 and 71 minutes, whose microseconds are negative as an
    [int], is over after at most two waits of .2 seconds. *)
Theorem remote_time_limit att mode sec nsec call v (P : server → Prop) (f : server → server) :
  P v → wait_of mode = ET_TIMED → 0 ≤ sec → 0 ≤ nsec < 1000000000 →
  let us := sec * 1000000 + nsec / 1000 in
  us < 4294967296 →
  ∃ part it, net_wait mode (Some (sec, nsec)) = Ret (ET_TIMED, Some part, it) ∧
    ((∀ v, P v → asked att ET_TIMED (Some part) call v = Ret (ET_ERROR_TIMEOUT, None, f v) ∧ P (f v)) →
      ∀ fuel, (Z.to_nat it < fuel)%nat → rounds att mode (Some (sec, nsec)) call v fuel = Ret (ET_ERROR_TIMEOUT, None, Nat.iter (S (Z.to_nat it)) f v)) ∧
    (us ≤ 1000000 → part = (sec, nsec) ∧ it = 1) ∧
    (1000000 < us → part = (0, 200000000)) ∧
    (1000000 < us < 2147483648 → us ≤ it * 200000 < us + 200000) ∧
    (2147483648 ≤ us → it ≤ 1).
Proof.
  intros Hv Hm Hs Hn us Hus. assert (0 ≤ us) as H0 by (pose proof (Z.div_pos nsec 1000); lia).
  assert (Z.quot nsec 1000 = nsec / 1000) as Hq by (apply Z.quot_div_nonneg; lia).
  assert (∀ it part, net_wait mode (Some (sec, nsec)) = Ret (ET_TIMED, Some part, it) →
    (∀ v, P v → asked att ET_TIMED (Some part) call v = Ret (ET_ERROR_TIMEOUT, None, f v) ∧ P (f v)) →
    ∀ fuel, (Z.to_nat it < fuel)%nat →
    rounds att mode (Some (sec, nsec)) call v fuel = Ret (ET_ERROR_TIMEOUT, None, Nat.iter (S (Z.to_nat it)) f v)) as Hr.
  { intros it part E Ha fuel Hf. unfold rounds. rewrite E. step. apply (repeated_times _ _ _ _ _ P); [done|done|by rewrite Hm|lia]. }
  assert (net_wait mode (Some (sec, nsec)) = if 1000000 <? us
    then Ret (ET_TIMED, Some (0, 200000000), Z.quot (s32 us) 200000 + (if 0 <? Z.rem us 200000 then 1 else 0))
    else Ret (ET_TIMED, Some (sec, nsec), 1)) as E.
  { unfold net_wait. rewrite Hm. change (ET_TIMED =? ET_TIMED) with true. cbv iota. step. rewrite Hq. fold us.
    replace (us <? _) with false by (symmetry; apply Z.ltb_ge; lia). by replace (9223372036854775807 <? us) with false by (symmetry; apply Z.ltb_ge; lia). }
  destruct (Z.ltb_spec 1000000 us) as [Hl|Hl].
  - set (it := Z.quot (s32 us) 200000 + (if 0 <? Z.rem us 200000 then 1 else 0)) in *. exists (0, 200000000), it.
    assert (1000000 < us < 2147483648 → us ≤ it * 200000 < us + 200000) as H1.
    { intros H. unfold it. rewrite s32_int by (split; lia). apply quot_up. lia. }
    assert (2147483648 ≤ us → it ≤ 1) as H2.
    { intros H. assert (s32 us = us - 4294967296) as Es.
      { unfold s32, u32. rewrite Z.mod_small by lia. by replace (us <? _) with false by (symmetry; apply Z.ltb_ge; lia). }
      pose proof (quot_negative (s32 us)). unfold it. destruct (0 <? _); lia. }
    split_and!; [done|by apply Hr|lia|done|done|done].
  - exists (sec, nsec), 1. split_and!; [done|by apply Hr|done|lia|lia|lia].
Qed.

(** ** Examples *)

(** A reader of the station 2, where nothing is: it waits in vain, then somebody tells it to
    return. *)
Definition wake_up (y : et_system) : et_system :=
  match set_attachment y 1 (λ a, a <| at_quit := ET_ATT_QUIT |>) with Ret y => y | _ => y end.
Definition clerk_waits : server :=
  clerk <| v_waits := [mkMeanwhile [(TimedOut, id)] [] id false; mkMeanwhile [(Woken, wake_up)] [] id false] |>.

Definition status_of {A B} (r : res (Z * A * B)) : option Z := match r with Ret (st, _, _) => Some st | _ => None end.


(** A limit of 50 minutes is over after one wait of .2 seconds. *)
Definition asleep : server :=
  match change_attachment clerk 1 (λ a, a <| at_sleep := ET_ATT_SLEEP |>) with Ret v => v | _ => clerk end.
Definition always_late : waiting_call := λ d _ _ _ _, Ret (ET_ERROR_TIMEOUT, None, d).

Lemma remote_time_limit_witness :
  net_wait ET_TIMED (Some (3000, 0)) = Ret (ET_TIMED, Some (0, 200000000), -6474) ∧
  rounds 1 ET_TIMED (Some (3000, 0)) always_late asleep 1 = Ret (ET_ERROR_TIMEOUT, None, asleep).
Proof.
  assert (net_wait ET_TIMED (Some (3000, 0)) = Ret (ET_TIMED, Some (0, 200000000), -6474)) as E by (vm_compute; reflexivity).
  split; [exact E|].
  destruct (remote_time_limit 1 ET_TIMED 3000 0 always_late asleep (eq asleep) (λ v, v)) as (part & it & E1 & H & _);
    [reflexivity|reflexivity|lia|lia|vm_compute; reflexivity|].
  rewrite E1 in E. injection E as -> ->. apply H; [|vm_compute; lia]. intros v <-. split; [|reflexivity]. vm_compute. reflexivity.
Defined.
